(* ===== verification/_CoqProject ===== *)
-Q . S2P
Prelude.v
Config.v
Bits.v
Blocks.v
Pages.v
Storage.v
StorageRc.v
StorageLog.v
StorageSys.v
State.v
Segment.v
SegmentInv.v
Nat.v
NatInv.v
GcHeap.v
GcHeapInv.v
Node.v
Gc.v
WriteInv.v
WriteRoom.v
Journal.v
TableFlush.v
JournalInv.v
CkptInv.v
FileIO.v
FileInv.v
FileWriteInv.v
FileTruncInv.v
FileRemoveInv.v
Dir.v
DirInv.v
Simulator.v
Fsck.v
FsckInv.v
MountInv.v
RefFs.v
RefTree.v
RefMap.v
RefInv.v
RefOps.v
RefStep.v
RefProps.v
Interface.v
StateMgr.v
StateMgrInv.v
ClosedSet.v
Tester.v
TesterInv.v
SearchInv.v
SearchRun.v
SearchEnd.v
Statistic.v
FsWorld.v
TraceTester.v
TraceInv.v
Demo.v
PerfComm.v
PerfPool.v
PerfSegment.v
PerfSegInv.v
PerfSegOps.v
PerfPoolInv.v
LfsNode.v
LfsSim.v
LfsDump.v
LfsSegs.v
LfsInv.v
LfsGc.v
LfsAlloc.v
LfsFiles.v
LfsWrite.v
LfsOps.v
LfsSync.v
LfsRead.v
LfsTrunc.v
LfsLife.v
LfsProps.v
PerfHeap.v
PerfQuick.v
PerfQuickInv.v
