(* ===== verification/Prelude.v ===== *)
(** * A verification library for the F2FS model checker

    The repository holds a simulator of the F2FS file system and an exhaustive
    tester that runs sequences of file system operations, with power losses,
    against the simulator and a reference file system.  Both live under
    src/application/filesystem-test/exhaustive_tester (the files named below are
    there, in source/ and include/), and both are modelled here.  A second
    program, src/application/simulation/performance_simulation, simulates file
    systems to count their writes; its log-structured simulator is modelled too.

    ** The program and the files that model it

    - Config, Bits, Blocks: the constants of config.h, bitmaps, and the formats
      of blocks.h and f2fs_segment.h.  A union is a sum of its members; reading a
      member that was not written last has no value.
    - Storage: storage.cpp.  A medium is an array of versions of blocks; versions
      are nodes of a pool with reference counts that all storages share, linked
      into the log of writes of a storage ([pre_write]) and the history of a block
      ([pre_ver]).  StorageRc: counts are exact.  StorageLog, StorageSys: the
      specification, a storage as a log of writes, and the proof that any number
      of storages over one pool implement independent logs.
    - Pages: pages.cpp, the page cache and its list of free pages.
    - State: the state of a [CF2fsSimulator], whose storage is any instance of
      the class [BlockStore]; [BlockStoreLaws] is what the proofs about the file
      system use of it, and StorageSys provides the instance.
    - Segment, SegmentInv: segments, current segments and the queue of free
      segments of f2fs_segment.cpp.  GcHeap, GcHeapInv: the heap of victims.
      Gc: writing a block and the garbage collector, with their mutual calls.
      WriteInv: what writing a block does; WriteRoom: when it has room.
    - Nat, NatInv, Node: f2fs_nat.cpp, the table from nodes to blocks.
    - Journal, TableFlush, JournalInv: the journals of the two tables in
      the checkpoint, the double copies of table blocks, the two slots of the
      checkpoint; f2fs_nat.cpp, f2fs_segment.cpp and f2fs_simulator.cpp.
      CkptInv: saving and loading the checkpoint, and the writes it is made of.
    - FileIO, Dir, DirInv, Simulator: f2fs_simulator.cpp, the blocks of files,
      directories and paths, and the operations of the file system.  FileInv,
      FileWriteInv, FileTruncInv, FileRemoveInv: reading, writing, truncating and
      removing a file against a map from block numbers to data.
    - Fsck: fsck.cpp, the check of a medium and its repairs.  FsckInv: what an
      accepted volume looks like.  MountInv: loading the segment table, the
      summaries and the root, and mounting what a crash leaves.
    - RefFs: reference_fs.cpp, the tree that the tester compares with, and its
      canonical code.  RefTree, RefMap: the specification, a map from paths to
      entries, its tree and the code of a tree.  RefInv, RefOps, RefStep: the
      cells as a tree of entries and two lists, and what each operation does to
      the map.  RefProps: the refinement and the codes.
    - Interface: the abstract class [IFsSimulator] of fs_simulator.h as a type
      class over the state of all simulators.  FsWorld is its implementation by
      reference-counted simulators over one storage pool.
    - StateMgr, StateMgrInv: test_state.cpp, the states of the search, their pool
      and the set of codes already met.  ClosedSet: that set against the history.
    - Tester: extester.cpp and extester_multithread.cpp, the operations on both
      file systems, their comparison and the search, against [IFsSimulator].
      TesterInv: what single operations do.  SearchInv, SearchRun,
      SearchEnd: the search.  Statistic: statistic_tester.cpp.
    - TraceTester, TraceInv: trace_tester.cpp and the functions that
      write traces, the file of operations that leads to a state and its replay.
    - Demo: a small medium searched to depth 2, and a trace replayed, by evaluation.

    The log-structured simulator (files of performance_simulation):

    - PerfComm: the constants and counters of fs_comm.h.  PerfPool, PerfPoolInv:
      [GcPool] of segment_manager.h, which keeps the victims of a collection.
      PerfHeap, PerfQuick: the pools [GcPoolHeap] and [GcPoolQuick] of the same
      file.  PerfQuickInv: the quicksort of the latter.
    - PerfSegment: [CSegmentManagerBase] of segment_manager.h over a class of
      block types; PerfSegInv, PerfSegOps: its invariant, a ring that is a queue
      and a table of valid blocks, and what each operation does to both.
    - LfsNode, LfsSim, LfsDump: nodes, files, the collector and the dumps of
      lfs_simulator.cpp and segment_manager.cpp; a pointer to a node is its
      number, since the table of nodes only grows.
    - LfsSegs, LfsInv, LfsGc, LfsAlloc, LfsFiles, LfsWrite, LfsOps, LfsSync,
      LfsRead, LfsTrunc, LfsLife: the invariant that the addresses in the nodes
      and the records in the segments are inverse to each other, and its
      preservation by moving blocks, allocating and linking nodes, writing,
      reading, truncating and creating files.  LfsProps: the properties, on
      states of LfsLife.

    ** Conventions

    A computation is [M S A], a function from the state to an outcome and a
    state: it returns, throws (what was changed before stays changed), or leaves
    the domain in which C++ gives it a meaning ([Fault]: an index out of an
    array, a null pointer, a failed JCASSERT).  [wp] excludes faults, [wlp] says
    nothing about them.  A pointer is an index ([Z] into a list, [positive] into
    the heap of versions); integers are [Z] with [w16] and [w32] where the code's
    type wraps; a page is an index into the cache or, when it lives on the stack,
    its value; a type that the code cuts to 16 bits is cut.  Floating point
    numbers of the tester are [SpecFloat] numbers of single precision.
    Uninitialised memory, results of rand and the order in which workers finish
    are parameters ([mem], [Env]).  A callback of a worker thread works on a file
    system of its own and is one step.  boost::hash_combine, ROUND_UP_DIV and
    CJCException::GetErrorCode belong to libraries outside the repository and are
    parameters ([External], [Exceptions]), with what the code relies on as laws.
    Log messages, printed reports and the texts of errors are left out, and so is
    the path that fsck keeps for its messages; so are the reports that the search
    writes, with the calls they make, but not those of the replay.  Property trees
    (boost) and Utf8ToUnicode are parameters with laws ([PropertyTree]); the JSON
    file of a trace is the list of its entries.  Values read from the
    configuration are arguments.

    ** Bounds and fuel

    A loop without an obvious bound takes fuel, and running out is a [Fault], so
    that a theorem that a computation returns shows that the fuel is enough:
    the scan of get_node takes the number of nodes and one, the loop that
    releases versions the size of the pool and one, releasing a state the number
    of states and one, the collector the number of its victims, walks along the
    lists of reference entries [MAX_FILE_NUM + 1], the way up the reference tree
    [encode_fuel], the recursion of GetFileDirNum the number of nodes, the
    quicksort of the victims twice the buffer and two; in the
    log-structured simulator the collector takes 66 turns for the at most 63
    victims of its pool, and the sifts of the pool its size and one.  The loop
    of RunTest takes its fuel as an argument; [search_terminates] bounds its
    turns.

    ** What the theorems show

    - The medium: storages with shared versions behave as logs (refinement); a
      volume that lost any number of the last writes of a checkpoint mounts with
      the tables and root of the old checkpoint or of the new one (safety), when
      the tables on the medium and in memory describe a volume; tables flushed
      and loaded are the tables of memory (functional, round trip).
    - Allocation: segments, nodes and pages are given out and taken back without
      loss or duplication, and a segment is freed exactly when its last block
      goes and it is not a current segment; victims of the collector are the
      emptiest segments; writing a block moves exactly that block, when the
      segment it goes to is there without a collection.
    - Files: on a range whose index blocks are mapped, and where the volume has
      room, the blocks written are the blocks read back, nothing else changes;
      truncating removes exactly the range, or does nothing, or throws, and which
      of these depends on the content alone; removing gives back what the file
      had, or loses its blocks; a volume that the consistency check accepts is
      consistent.
    - Directories: a block of entries is a finite map of names; paths split into
      the names they were made of.
    - The reference: its operations answer as those on a map of paths, on the
      commands that [ref_cmds_ok] admits (others the code does not answer as the
      map does), and two
      such states have the same code exactly when their trees are isomorphic.
      Demounting leaves the codes of the files it closes as they were, which the
      map keeps in [e_shown].
    - The search: the pool of states has exact reference counts; a finished
      search, with any number of threads finishing in any order, has given every
      state back; the search ends; the set of codes is the history
      of the states checked; an operation
      refused for lack of room changes nothing.
    - Traces: a step of the search is what the replay does for the entry that the
      step is written as, except for a move in the one of the two writers whose
      entry cannot be read; a replay gives every state back.
    - The log-structured simulator: writing adds exactly the blocks of the range,
      reading finds every block, a collection ends and keeps every file, a
      dump of the segments that returns has found every block where the nodes
      have it, and it returns in every well-formed state; truncating a
      file with data always throws, and a write whose node is alone in a full
      segment reads a pointer from an erased block.  A write may run out of
      segments (ERR_APP); that it does not is not shown.  [roomy] asks for 69
      segments above the threshold of the collector, so that its pool of 63
      victims is filled with segments that were pushed.

    ** Not modelled

    f2fs_dump.cpp prints and extester_app.cpp parses the command line;
    extester_obsolete.cpp is not called.
    The rest of the repository is not the model checker: ports of the Linux
    F2FS, of f2fs-tools and of the Linux VFS, the FAT library, YAFFS2, Dokan
    bindings, a port of CrashMonkey, Windows drivers and testers of mounted
    Windows file systems.  Of the performance simulation, the F2FS-like
    simulator, which is an earlier state of the one modelled, the simulated SSD
    and its own replay of traces are not modelled.  The operations
    on directories above their blocks, [GcPoolHeap] of the performance simulation,
    MoveFile of the reference file system and FileDelete of the log-structured
    simulator are modelled, without theorems about them. *)

(** Prelude: the vocabulary shared by every component. *)
From Stdlib Require Export ZArith Lia Bool.
From stdpp Require Export base tactics numbers list sets gmap.
Open Scope Z_scope.
#[global] Arguments insert : simpl never.
#[global] Arguments lookup : simpl never.
#[global] Arguments alter : simpl never.

(** * Outcomes and the state-and-exception monad

    A C++ call either returns, throws (keeping every change made to the
    state before the throw), or leaves the domain in which the language gives
    it a meaning (an index outside its array, a null or recycled pointer, a
    failed assertion, a union member read that was not the last one written). *)

(** [ERROR_CODE] of fs_simulator.h. *)
Inductive ERROR_CODE :=
  | ERR_OK | ERR_NO_OPERATION | ERR_NO_SPACE | ERR_MAX_OPEN_FILE
  | OK_ALREADY_EXIST
  | ERR_GENERAL | ERR_READ_NO_MAPPING_DATA | ERR_PHYSICAL_ADD_NOMATCH
  | ERR_CREATE_EXIST | ERR_CREATE | ERR_OPEN_FILE | ERR_GET_INFOMATION
  | ERR_DELETE_FILE | ERR_DELETE_DIR | ERR_NON_EMPTY | ERR_READ_FILE
  | ERR_WRONG_FILE_SIZE | ERR_WRONG_FILE_DATA | ERR_PENDING | ERR_SYNC
  | ERR_PARENT_NOT_EXIST | ERR_WRONG_PATH
  | ERR_VERIFY_FILE | ERR_CKPT_FAIL
  | ERR_WRONG_BLOCK_TYPE | ERR_WRONG_FILE_TYPE | ERR_WRONG_FILE_NUM
  | ERR_SIT_MISMATCH | ERR_PHY_ADDR_MISMATCH | ERR_INVALID_INDEX
  | ERR_INVALID_CHECKPOINT | ERR_JOURNAL_OVERFLOW
  | ERR_DEAD_NID | ERR_LOST_NID | ERR_DOUBLED_NID | ERR_INVALID_NID
  | ERR_DEAD_BLK | ERR_LOST_BLK | ERR_DOUBLED_BLK | ERR_INVALID_BLK
  | ERR_UNKNOWN | ERR_ERROR_NR.

#[export] Instance ERROR_CODE_eq_dec : EqDecision ERROR_CODE.
Proof. solve_decision. Defined.

(** [THROW_FS_ERROR(code, ..)] throws a [CFsException] that carries the code;
    [THROW_ERROR(kind, ..)] throws the library's plain exception; [at] of a
    vector throws [std::out_of_range], which no handler of the program names and
    which only the performance simulation can meet. *)
Inductive exn := FsError (code : ERROR_CODE) | JcError (user : bool) | OUT_OF_RANGE.
Abbreviation ERR_APP := (JcError false).
Abbreviation ERR_USER := (JcError true).

Inductive outcome (A : Type) := Ret (a : A) | Throw (e : exn) | Fault.
Arguments Ret {A} a.
Arguments Throw {A} e.
Arguments Fault {A}.

Definition M (S A : Type) : Type := S -> outcome A * S.

Section Monad.
Context {S : Type}.

Definition ret {A} (a : A) : M S A := fun s => (Ret a, s).
Definition bind {A B} (m : M S A) (k : A -> M S B) : M S B := fun s =>
  match m s with
  | (Ret a, s') => k a s'
  | (Throw e, s') => (Throw e, s')
  | (Fault, s') => (Fault, s')
  end.
Definition throw {A} (e : exn) : M S A := fun s => (Throw e, s).
Definition fault {A} : M S A := fun s => (Fault, s).
Definition get : M S S := fun s => (Ret s, s).
Definition put (s : S) : M S unit := fun _ => (Ret tt, s).
Definition gets {A} (f : S -> A) : M S A := fun s => (Ret (f s), s).
Definition modify (f : S -> S) : M S unit := fun s => (Ret tt, f s).
(** [None] stands for an access the language gives no meaning to. *)
Definition opt {A} (o : option A) : M S A :=
  match o with Some a => ret a | None => fault end.
(** [JCASSERT(c)]. *)
Definition check (b : bool) : M S unit := if b then ret tt else fault.
Definition when (b : bool) (m : M S unit) : M S unit := if b then m else ret tt.
(** [try { m } catch (e) { h e }]. *)
Definition try_catch {A} (m : M S A) (h : exn -> M S A) : M S A := fun s =>
  match m s with
  | (Throw e, s') => h e s'
  | r => r
  end.

(** [for (i : is) body(i)]. *)
Fixpoint mfor {I} (il : list I) (body : I -> M S unit) : M S unit :=
  match il with
  | [] => ret tt
  | i :: il' => bind (body i) (fun _ => mfor il' body)
  end.

(** A loop that carries local variables. *)
Fixpoint mfold {I A} (il : list I) (a : A) (body : A -> I -> M S A) : M S A :=
  match il with
  | [] => ret a
  | i :: il' => bind (body a i) (fun a' => mfold il' a' body)
  end.
End Monad.

(** A loop body that may leave the loop ([break]) or go on. *)
Inductive flow (A : Type) := Next (a : A) | Break (a : A).
Arguments Next {A} a.
Arguments Break {A} a.

Section Loops.
Context {S : Type}.

Fixpoint mloop {I A} (il : list I) (a : A) (body : A -> I -> M S (flow A)) : M S A :=
  match il with
  | [] => ret a
  | i :: il' =>
      bind (body a i) (fun f =>
        match f with Next a' => mloop il' a' body | Break a' => ret a' end)
  end.

(** A [while] loop; running out of [fuel] is a [Fault], so that a theorem
    that a loop returns is a theorem that the fuel is enough. *)
Fixpoint mwhile {A} (fuel : nat) (a : A) (body : A -> M S (flow A)) : M S A :=
  match fuel with
  | O => fault
  | Datatypes.S fuel' =>
      bind (body a) (fun f =>
        match f with Next a' => mwhile fuel' a' body | Break a' => ret a' end)
  end.
End Loops.

(** Run a computation on a part of the state. *)
Definition zoom {S T A} (pr : S -> T) (up : T -> S -> S) (m : M T A) : M S A :=
  fun s => match m (pr s) with (r, t) => (r, up t s) end.

Declare Scope fs_scope.
Delimit Scope fs_scope with fs.
Notation "x <- m ;; k" := (bind m (fun x => k))
  (at level 100, m at next level, right associativity) : fs_scope.
Notation "m ;;; k" := (bind m (fun _ => k))
  (at level 100, right associativity) : fs_scope.
Open Scope fs_scope.

(** * Arrays

    A C array is a list; an index is a [Z]; an index outside the array has no
    value. *)

Definition aget {A} (l : list A) (i : Z) : option A :=
  if 0 <=? i then l !! Z.to_nat i else None.
Definition aset {A} (l : list A) (i : Z) (a : A) : option (list A) :=
  if (0 <=? i) && (i <? Z.of_nat (length l)) then Some (<[Z.to_nat i := a]> l) else None.
(** The indices [lo .. hi-1] in the order a [for] loop visits them. *)
Definition range (lo hi : Z) : list Z := seqZ lo (hi - lo).

(** * Machine words *)

Definition w16 (x : Z) : Z := x mod 65536.
Definition w32 (x : Z) : Z := x mod 4294967296.
Definition w64 (x : Z) : Z := x mod 2 ^ 64.
Definition INVALID16 : Z := 65535.
Definition INVALID32 : Z := 4294967295.
Abbreviation is_invalid16 x := (x =? INVALID16).
Abbreviation is_valid16 x := (negb (x =? INVALID16)).
Abbreviation is_invalid32 x := (x =? INVALID32).
Abbreviation is_valid32 x := (negb (x =? INVALID32)).

(** * Code the program is linked with

    [boost::hash_combine], which mixes a character into a hash, and
    [ROUND_UP_DIV] of the jcvos headers are not part of the repository: they
    are parameters.  The program relies on the second to round up. *)
Class External := { hash_combine : Z -> Z -> Z; ROUND_UP_DIV : Z -> Z -> Z }.
Class ExternalLaws `{External} := {
  ROUND_UP_DIV_spec a b : 0 <= a -> 0 < b -> ROUND_UP_DIV a b = (a + b - 1) / b
}.
(** A concrete choice, on which the witnesses are evaluated. *)
Definition sample_external : External :=
  {| hash_combine seed c := (seed * 31 + c) mod 2 ^ 64;
     ROUND_UP_DIV a b := (a + b - 1) / b |}.
Lemma sample_laws : ExternalLaws (H := sample_external).
Proof. by constructor. Qed.

(** [1 << n], on a DWORD. *)
Definition mask (n : Z) : Z := Z.shiftl 1 n.
(** [x & ~m], on a DWORD. *)
Definition clear_mask (x m : Z) : Z := Z.land x (Z.lxor INVALID32 m).

(** * Reasoning about computations

    [wp m Q E s]: run in state [s], the computation [m] has a meaning, and it
    returns with [Q] or throws with [E].  A proof of [wp] excludes [Fault]. *)
Section Wp.
Context {S : Type}.
Implicit Types s t : S.

Definition wp {A} (m : M S A) (Q : A -> S -> Prop) (E : exn -> S -> Prop) (s : S) : Prop :=
  match m s with
  | (Ret a, s') => Q a s'
  | (Throw e, s') => E e s'
  | (Fault, _) => False
  end.

(** [runs m s a t]: from [s], [m] returns [a] in state [t]. *)
Definition runs {A} (m : M S A) (s : S) (a : A) (t : S) : Prop := m s = (Ret a, t).
Definition throws {A} (m : M S A) (s : S) (e : exn) (t : S) : Prop := m s = (Throw e, t).

Lemma wp_mono {A} (m : M S A) (Q Q' : A -> S -> Prop) (E E' : exn -> S -> Prop) s :
  wp m Q E s -> (forall a t, Q a t -> Q' a t) -> (forall e t, E e t -> E' e t) ->
  wp m Q' E' s.
Proof. unfold wp. destruct (m s) as [[a|e|] t]; eauto. Qed.

Lemma wp_bind {A B} (m : M S A) (k : A -> M S B) Q E s :
  wp m (fun a t => wp (k a) Q E t) E s -> wp (bind m k) Q E s.
Proof. unfold wp, bind. by destruct (m s) as [[a|e|] t]. Qed.

Lemma wp_ret {A} (a : A) (Q : A -> S -> Prop) E s : Q a s -> wp (ret a) Q E s.
Proof. done. Qed.
Lemma wp_throw {A} e (Q : A -> S -> Prop) (E : exn -> S -> Prop) s :
  E e s -> wp (throw e) Q E s.
Proof. done. Qed.
Lemma wp_gets {A} (f : S -> A) (Q : A -> S -> Prop) E s : Q (f s) s -> wp (gets f) Q E s.
Proof. done. Qed.
Lemma wp_modify (f : S -> S) (Q : unit -> S -> Prop) E s : Q tt (f s) -> wp (modify f) Q E s.
Proof. done. Qed.
Lemma wp_opt {A} (o : option A) a (Q : A -> S -> Prop) E s :
  o = Some a -> Q a s -> wp (opt o) Q E s.
Proof. by intros ->. Qed.
Lemma wp_check b (Q : unit -> S -> Prop) E s : b = true -> Q tt s -> wp (check b) Q E s.
Proof. by intros ->. Qed.
Lemma wp_when b m (Q : unit -> S -> Prop) E s :
  (b = true -> wp m Q E s) -> (b = false -> Q tt s) -> wp (when b m) Q E s.
Proof. destruct b; intros H1 H2; [by apply H1 | by apply H2]. Qed.
Lemma wp_if {A} (b : bool) (m1 m2 : M S A) Q E s :
  (b = true -> wp m1 Q E s) -> (b = false -> wp m2 Q E s) ->
  wp (if b then m1 else m2) Q E s.
Proof. destruct b; auto. Qed.

(** Chain a specification that does not throw. *)
Lemma wp_then {A B} (m : M S A) (k : A -> M S B) (P : A -> S -> Prop) Q E s :
  wp m P (fun _ _ => False) s -> (forall a t, P a t -> wp (k a) Q E t) ->
  wp (bind m k) Q E s.
Proof.
  intros H K. apply wp_bind. eapply wp_mono; [exact H | exact K | done].
Qed.

Lemma wp_runs {A} (m : M S A) (P : A -> S -> Prop) s :
  wp m P (fun _ _ => False) s <-> exists a t, runs m s a t /\ P a t.
Proof.
  unfold wp, runs. destruct (m s) as [[a|e|] t]; naive_solver.
Qed.

Lemma wp_runs_unit (m : M S unit) (P : S -> Prop) s :
  wp m (fun _ => P) (fun _ _ => False) s -> exists t, runs m s tt t /\ P t.
Proof. intros ([] & t & H)%wp_runs. by exists t. Qed.

Lemma runs_wp {A} (m : M S A) s a t (Q : A -> S -> Prop) E :
  runs m s a t -> Q a t -> wp m Q E s.
Proof. unfold runs, wp. by intros ->. Qed.

(** A run is what evaluation gives. *)
Lemma runs_eval {A} (m : M S A) s a : fst (m s) = Ret a -> runs m s a (snd (m s)).
Proof. unfold runs. destruct (m s) as [r t]. cbn. by intros ->. Qed.

Lemma runs_bind {A B} (m : M S A) (k : A -> M S B) s a t b u :
  runs m s a t -> runs (k a) t b u -> runs (bind m k) s b u.
Proof. unfold runs, bind. by intros -> ->. Qed.

Lemma runs_assoc {A B C} (m : M S A) (k : A -> M S B) (j : B -> M S C) s c t :
  runs (bind (bind m k) j) s c t -> runs (bind m (fun a => bind (k a) j)) s c t.
Proof. unfold runs, bind. by destruct (m s) as [[a|e|] u]. Qed.

Lemma throws_here {A B} (m : M S A) (k : A -> M S B) s e t :
  throws m s e t -> throws (bind m k) s e t.
Proof. unfold throws, bind. by intros ->. Qed.
Lemma throws_later {A B} (m : M S A) (k : A -> M S B) s a t e u :
  runs m s a t -> throws (k a) t e u -> throws (bind m k) s e u.
Proof. unfold runs, throws, bind. by intros -> ->. Qed.

(** A [for] loop keeps an invariant indexed by the elements already visited. *)
Lemma wp_mfor {I} (l : list I) body (Inv : list I -> S -> Prop) E s :
  Inv [] s ->
  (forall done x rest t, l = done ++ x :: rest -> Inv done t ->
     wp (body x) (fun _ u => Inv (done ++ [x]) u) E t) ->
  wp (mfor l body) (fun _ t => Inv l t) E s.
Proof.
  intros H0 Hstep.
  enough (forall rest dn t, l = dn ++ rest -> Inv dn t ->
    wp (mfor rest body) (fun _ u => Inv l u) E t) as G by (by apply (G l [])).
  induction rest as [|x rest IH]; intros dn t Hl Hi; cbn [mfor].
  - apply wp_ret. by rewrite Hl, app_nil_r.
  - apply wp_bind. eapply wp_mono; [by eapply Hstep | | done].
    intros [] u Hu. apply (IH (dn ++ [x])); [|done].
    by rewrite Hl, <- app_assoc.
Qed.

Lemma wp_mfold {I A} (l : list I) (a0 : A) body (Inv : list I -> A -> S -> Prop) E s :
  Inv [] a0 s ->
  (forall done x rest a t, l = done ++ x :: rest -> Inv done a t ->
     wp (body a x) (fun a' u => Inv (done ++ [x]) a' u) E t) ->
  wp (mfold l a0 body) (fun a t => Inv l a t) E s.
Proof.
  intros H0 Hstep.
  enough (forall rest dn a t, l = dn ++ rest -> Inv dn a t ->
    wp (mfold rest a body) (fun a' u => Inv l a' u) E t) as G by (by apply (G l [])).
  induction rest as [|x rest IH]; intros dn a t Hl Hi; cbn [mfold].
  - apply wp_ret. by rewrite Hl, app_nil_r.
  - apply wp_bind. eapply wp_mono; [by eapply Hstep | | done].
    intros a' u Hu. apply (IH (dn ++ [x])); [|done].
    by rewrite Hl, <- app_assoc.
Qed.
End Wp.

Lemma wp_zoom {S T A} (pr : S -> T) (up : T -> S -> S) (m : M T A) Q E s :
  wp m (fun a t => Q a (up t s)) (fun e t => E e (up t s)) (pr s) ->
  wp (zoom pr up m) Q E s.
Proof. unfold wp, zoom. by destruct (m (pr s)) as [[a|e|] t]. Qed.

Lemma runs_zoom {S T A} (pr : S -> T) (up : T -> S -> S) (m : M T A) s a t :
  runs m (pr s) a t -> runs (zoom pr up m) s a (up t s).
Proof. unfold runs, zoom. by intros ->. Qed.

(** * Arrays *)
Section Arrays.
Context {A : Type}.
Implicit Types l : list A.
Abbreviation len l := (Z.of_nat (length l)).

Lemma aget_Some l i a : aget l i = Some a <-> 0 <= i /\ l !! Z.to_nat i = Some a.
Proof. unfold aget. destruct (Z.leb_spec 0 i); naive_solver lia. Qed.

Lemma aget_bounds l i a : aget l i = Some a -> 0 <= i < len l.
Proof. intros [H1 H2%lookup_lt_Some]%aget_Some. lia. Qed.

Lemma aget_is_Some l i : 0 <= i < len l -> exists a, aget l i = Some a.
Proof.
  intros H. destruct (lookup_lt_is_Some_2 l (Z.to_nat i)) as [a Ha]; [lia|].
  exists a. apply aget_Some. split; [lia|done].
Qed.

Lemma aget_None l i : aget l i = None <-> ~ (0 <= i < len l).
Proof.
  destruct (aget l i) as [a|] eqn:E.
  - apply aget_bounds in E. naive_solver.
  - split; [|done]. intros _ H. apply aget_is_Some in H as [a Ha]. congruence.
Qed.

Lemma aset_Some l i a l' :
  aset l i a = Some l' <-> 0 <= i < len l /\ l' = <[Z.to_nat i := a]> l.
Proof.
  unfold aset. destruct (Z.leb_spec 0 i), (Z.ltb_spec i (len l)); cbn; naive_solver lia.
Qed.

Lemma aset_is_Some l i a : 0 <= i < len l -> aset l i a = Some (<[Z.to_nat i := a]> l).
Proof. intros H. by apply aset_Some. Qed.

Lemma aget_insert l i j a :
  0 <= i < len l -> 0 <= j ->
  aget (<[Z.to_nat i := a]> l) j = if i =? j then Some a else aget l j.
Proof.
  intros Hi Hj. unfold aget. rewrite (proj2 (Z.leb_le _ _)) by done.
  destruct (Z.eqb_spec i j) as [<-|Hne].
  - apply list_lookup_insert_eq. lia.
  - apply list_lookup_insert_ne. lia.
Qed.

Lemma aget_insert_eq l i a : 0 <= i < len l -> aget (<[Z.to_nat i := a]> l) i = Some a.
Proof. intros H. rewrite aget_insert by lia. by rewrite Z.eqb_refl. Qed.

Lemma aget_insert_ne l i j a : i <> j -> 0 <= i -> aget (<[Z.to_nat i := a]> l) j = aget l j.
Proof.
  intros Hne Hi. unfold aget. destruct (Z.leb_spec 0 j); [|done].
  apply list_lookup_insert_ne. lia.
Qed.

Lemma aget_replicate n (a : A) i : 0 <= i < n -> aget (replicate (Z.to_nat n) a) i = Some a.
Proof.
  intros H. apply aget_Some. split; [lia|]. apply lookup_replicate_2. lia.
Qed.

Lemma aget_ext (l1 l2 : list A) : length l1 = length l2 ->
  (forall i, 0 <= i < len l1 -> aget l1 i = aget l2 i) -> l1 = l2.
Proof.
  intros Hl H. apply list_eq. intros k.
  destruct (decide (k < length l1)%nat) as [Hk|Hk].
  - specialize (H (Z.of_nat k) ltac:(lia)). unfold aget in H.
    rewrite (proj2 (Z.leb_le _ _)) in H by lia. by rewrite Nat2Z.id in H.
  - rewrite !lookup_ge_None_2 by lia. done.
Qed.
End Arrays.

Lemma elem_of_range lo hi i : i ∈ range lo hi <-> lo <= i < hi.
Proof. unfold range. rewrite elem_of_seqZ. lia. Qed.

Lemma range_nil lo hi : hi <= lo -> range lo hi = [].
Proof. intros. unfold range. by rewrite seqZ_nil by lia. Qed.
Lemma range_cons lo hi : lo < hi -> range lo hi = lo :: range (lo + 1) hi.
Proof.
  intros. unfold range. rewrite seqZ_cons by lia. f_equal. f_equal; lia.
Qed.

(** When [dn ++ x :: rest] splits a range, [x] is the number of elements of
    [dn] above the lower bound. *)
Lemma range_split lo hi dn x rest :
  range lo hi = dn ++ x :: rest ->
  dn = range lo x /\ rest = range (x + 1) hi /\ lo <= x < hi.
Proof.
  revert lo. induction dn as [|d dn IH]; intros lo H; cbn in H.
  - destruct (decide (lo < hi)) as [Hlt|Hge].
    + rewrite range_cons in H by done. injection H as -> <-.
      rewrite range_nil by lia. split_and!; [done|done|lia|lia].
    + rewrite range_nil in H by lia. done.
  - destruct (decide (lo < hi)) as [Hlt|Hge]; [|by rewrite range_nil in H by lia].
    rewrite range_cons in H by done. injection H as -> H.
    destruct (IH _ H) as (-> & -> & ?). split_and!; [|done|lia|lia].
    by rewrite <- range_cons by lia.
Qed.

Lemma range_snoc lo hi : lo <= hi -> range lo (hi + 1) = range lo hi ++ [hi].
Proof.
  intros. unfold range. replace (hi + 1 - lo) with (hi - lo + 1) by lia.
  rewrite seqZ_app by lia. f_equal. rewrite seqZ_cons, seqZ_nil by lia.
  by replace (lo + (hi - lo)) with hi by lia.
Qed.

(** A [for (i = lo; i < hi; ++i)] loop keeps an invariant indexed by [i]. *)
Lemma wp_for {S} lo hi (body : Z -> M S unit) (Inv : Z -> S -> Prop) E s :
  lo <= hi -> Inv lo s ->
  (forall i t, lo <= i < hi -> Inv i t -> wp (body i) (fun _ u => Inv (i + 1) u) E t) ->
  wp (mfor (range lo hi) body) (fun _ t => Inv hi t) E s.
Proof.
  intros Hle H0 Hstep.
  eapply wp_mono; [|intros a t H; exact H|done].
  eapply (wp_mono _ (fun _ t => exists i, range lo hi = range lo i /\ lo <= i <= hi /\ Inv i t));
    [|intros [] t (i & Hr & Hi & Ht)|done].
  - apply (wp_mfor _ _ (fun dn t => exists i, dn = range lo i /\ lo <= i <= hi /\ Inv i t)).
    + exists lo. by rewrite range_nil by lia.
    + intros dn x rest t Hl (i & -> & Hi & Ht).
      apply range_split in Hl as (Hd & _ & Hx).
      assert (i = x) as ->.
      { apply (f_equal length) in Hd. unfold range in Hd. rewrite !length_seqZ in Hd. lia. }
      eapply wp_mono; [by apply Hstep| |done].
      intros [] u Hu. exists (x + 1). rewrite range_snoc by lia. split_and!; [done|lia|lia|done].
  - assert (i = hi) as ->; [|done].
    apply (f_equal length) in Hr. unfold range in Hr. rewrite !length_seqZ in Hr. lia.
Qed.

(** The same for a loop that carries a value, and for one that may break. *)
Lemma wp_fold_range {S A} lo hi (a0 : A) (body : A -> Z -> M S A) (Inv : Z -> A -> S -> Prop) E s :
  lo <= hi -> Inv lo a0 s ->
  (forall i a t, lo <= i < hi -> Inv i a t -> wp (body a i) (Inv (i + 1)) E t) ->
  wp (mfold (range lo hi) a0 body) (Inv hi) E s.
Proof.
  intros Hle H0 Hstep. remember (Z.to_nat (hi - lo)) as k eqn:Ek. revert lo a0 s Hle H0 Ek Hstep.
  induction k as [|k IH]; intros lo a0 s Hle H0 Ek Hstep.
  - assert (lo = hi) as -> by lia. by rewrite range_nil by lia.
  - rewrite range_cons by lia. cbn [mfold]. apply wp_bind. eapply wp_mono; [apply Hstep; [lia|done]| |done].
    intros a t Ht. apply IH; [lia|done|lia|]. intros i a' t' Hi. apply Hstep. lia.
Qed.

Lemma wp_loop_range {S A} lo hi (a0 : A) (body : A -> Z -> M S (flow A)) (Inv : Z -> A -> S -> Prop) (Q : A -> S -> Prop) E s :
  lo <= hi -> Inv lo a0 s -> (forall a t, Inv hi a t -> Q a t) ->
  (forall i a t, lo <= i < hi -> Inv i a t ->
     wp (body a i) (fun f u => match f with Next b => Inv (i + 1) b u | Break b => Q b u end) E t) ->
  wp (mloop (range lo hi) a0 body) Q E s.
Proof.
  intros Hle H0 Hend Hstep. remember (Z.to_nat (hi - lo)) as k eqn:Ek. revert lo a0 s Hle H0 Ek Hstep.
  induction k as [|k IH]; intros lo a0 s Hle H0 Ek Hstep.
  - assert (lo = hi) as -> by lia. rewrite range_nil by lia. by apply Hend.
  - rewrite range_cons by lia. cbn [mloop]. apply wp_bind. eapply wp_mono; [apply Hstep; [lia|done]| |done].
    intros [b|b] t Ht; [|exact Ht]. apply IH; [lia|done|lia|]. intros i a' t' Hi. apply Hstep. lia.
Qed.

(** Distinct indices of an array of [n] cells are at most [n]. *)
Lemma NoDup_bounded (l : list Z) n :
  NoDup l -> (forall x, x ∈ l -> 0 <= x < n) -> Z.of_nat (length l) <= Z.max 0 n.
Proof.
  intros Hnd Hb. assert (length l <= length (seqZ 0 n))%nat as H.
  { apply submseteq_length, NoDup_submseteq; [done|].
    intros x Hx%Hb. apply elem_of_seqZ. lia. }
  rewrite length_seqZ in H. lia.
Qed.

(** The least index that satisfies a decidable property. *)
Lemma least_or_none (P : Z -> Prop) `{forall d, Decision (P d)} (n : nat) :
  (exists d, 0 <= d < Z.of_nat n /\ P d /\ forall e, 0 <= e < d -> ~ P e) \/
  (forall e, 0 <= e < Z.of_nat n -> ~ P e).
Proof.
  induction n as [|n [(d & Hd & HP & Hl)|Hno]]; [right; lia| |].
  - left. exists d. split_and!; [lia|lia|done|done].
  - destruct (decide (P (Z.of_nat n))) as [HP|HP].
    + left. exists (Z.of_nat n). split_and!; [lia|lia|done|done].
    + right. intros e He. destruct (decide (e = Z.of_nat n)) as [->|]; [done|]. apply Hno. lia.
Qed.

(** A [while] loop: an invariant and a measure that each turn decreases and that
    stays below the fuel. *)
Lemma wp_mwhile {S A} fuel (a0 : A) (body : A -> M S (flow A)) (Inv : A -> S -> Prop)
    (mu : A -> S -> Z) (Q : A -> S -> Prop) E s :
  Inv a0 s -> (forall a t, Inv a t -> 0 <= mu a t) -> mu a0 s < Z.of_nat fuel ->
  (forall a t, Inv a t ->
     wp (body a) (fun f u => match f with
                             | Next a' => Inv a' u /\ mu a' u < mu a t
                             | Break a' => Q a' u end) E t) ->
  wp (mwhile fuel a0 body) Q E s.
Proof.
  intros H0 Hmu Hf Hstep. revert a0 s H0 Hf. induction fuel as [|fuel IH]; intros a0 s H0 Hf.
  - specialize (Hmu _ _ H0). lia.
  - cbn [mwhile]. apply wp_bind. eapply wp_mono; [by apply Hstep| |done].
    intros [a|a] u; cbn beta iota; [intros [Hi Hlt]|done]. apply IH; [done|lia].
Qed.

(** ** Stepping through a computation *)
Section WpSteps.
Context {S : Type}.
Implicit Types s : S.

Lemma wp_bind_ret {A B} (a : A) (k : A -> M S B) Q E s : wp (k a) Q E s -> wp (bind (ret a) k) Q E s.
Proof. done. Qed.
Lemma wp_bind_get {B} (k : S -> M S B) Q E s : wp (k s) Q E s -> wp (bind get k) Q E s.
Proof. done. Qed.
Lemma wp_bind_put {B} (t : S) (k : unit -> M S B) Q E s : wp (k tt) Q E t -> wp (bind (put t) k) Q E s.
Proof. done. Qed.
Lemma wp_bind_modify {B} (f : S -> S) (k : unit -> M S B) Q E s :
  wp (k tt) Q E (f s) -> wp (bind (modify f) k) Q E s.
Proof. done. Qed.
Lemma wp_bind_gets {A B} (f : S -> A) (k : A -> M S B) Q E s :
  wp (k (f s)) Q E s -> wp (bind (gets f) k) Q E s.
Proof. done. Qed.
Lemma wp_bind_opt {A B} (o : option A) a (k : A -> M S B) Q E s :
  o = Some a -> wp (k a) Q E s -> wp (bind (opt o) k) Q E s.
Proof. by intros ->. Qed.
Lemma wp_bind_assoc {A B C} (m : M S A) (k : A -> M S B) (j : B -> M S C) Q E s :
  wp (bind m (fun a => bind (k a) j)) Q E s -> wp (bind (bind m k) j) Q E s.
Proof. unfold wp, bind. by destruct (m s) as [[a|e|] t]. Qed.
End WpSteps.

(** Take the steps that need no decision. *)
Ltac wp_steps := repeat (cbv beta; lazymatch goal with
  | |- wp (ret _) _ _ _ => apply wp_ret
  | |- wp (throw _) _ _ _ => apply wp_throw
  | |- wp (modify _) _ _ _ => apply wp_modify
  | |- wp (gets _) _ _ _ => apply wp_gets
  | |- wp (bind (ret _) _) _ _ _ => apply wp_bind_ret
  | |- wp (bind get _) _ _ _ => apply wp_bind_get
  | |- wp (bind (put _) _) _ _ _ => apply wp_bind_put
  | |- wp (bind (modify _) _) _ _ _ => apply wp_bind_modify
  | |- wp (bind (gets _) _) _ _ _ => apply wp_bind_gets
  | |- wp (bind (bind _ _) _) _ _ _ => apply wp_bind_assoc
  end).

(** A property of every index of a range, by a test of each. *)
Lemma forall_range (P : Z -> Prop) lo hi (f : Z -> bool) :
  (forall i, f i = true -> P i) -> forallb f (range lo hi) = true -> forall i, lo <= i < hi -> P i.
Proof.
  intros Hf H i Hi. apply Hf. rewrite forallb_forall in H. apply H. apply list_elem_of_In. by apply elem_of_range.
Qed.

Definition has_length {A} (n : Z) (o : option (list A)) : bool :=
  match o with Some l => Z.of_nat (length l) =? n | None => false end.
Lemma has_length_spec {A} n (o : option (list A)) :
  has_length n o = true -> exists l, o = Some l /\ Z.of_nat (length l) = n.
Proof. destruct o as [l|]; [|done]. intros H%Z.eqb_eq. by exists l. Qed.

(** * Counting occurrences *)
Section Count.
Context {A : Type} `{EqDecision A}.
Implicit Types (x y : A) (l : list A).

Definition cnt (x : A) (l : list A) : Z :=
  Z.of_nat (length (filter (fun y => y = x) l)).

Lemma cnt_app x l1 l2 : cnt x (l1 ++ l2) = cnt x l1 + cnt x l2.
Proof. unfold cnt. rewrite filter_app, length_app. lia. Qed.
Lemma cnt_cons x y l : cnt x (y :: l) = (if decide (y = x) then 1 else 0) + cnt x l.
Proof. unfold cnt. rewrite filter_cons. destruct (decide (y = x)); cbn [length]; lia. Qed.
Lemma cnt_perm x l1 l2 : l1 ≡ₚ l2 -> cnt x l1 = cnt x l2.
Proof. intros H. unfold cnt. by rewrite H. Qed.
Lemma cnt_nonneg x l : 0 <= cnt x l.
Proof. unfold cnt. lia. Qed.
Lemma cnt_pos x l : x ∈ l <-> 0 < cnt x l.
Proof.
  induction l as [|y l IH]; [unfold cnt; cbn; set_solver by lia|].
  rewrite cnt_cons, elem_of_cons, IH. pose proof (cnt_nonneg x l).
  destruct (decide (y = x)); naive_solver lia.
Qed.
Lemma cnt_zero x l : cnt x l = 0 -> x ∉ l.
Proof. rewrite cnt_pos. lia. Qed.
Lemma cnt_le x l : cnt x l <= Z.of_nat (length l).
Proof. unfold cnt. pose proof (length_filter (fun y => y = x) l). lia. Qed.
End Count.

(** * Partial reasoning

    [wlp]: as [wp], but a run that leaves the domain of the language promises
    nothing. *)
Section Wlp.
Context {S : Type}.

Definition wlp {A} (m : M S A) (Q : A -> S -> Prop) (E : exn -> S -> Prop) (s : S) : Prop :=
  match m s with
  | (Ret a, s') => Q a s'
  | (Throw e, s') => E e s'
  | (Fault, _) => True
  end.

Lemma wp_wlp {A} (m : M S A) Q E s : wp m Q E s -> wlp m Q E s.
Proof. unfold wp, wlp. by destruct (m s) as [[a|e|] t]. Qed.
Lemma wlp_mono {A} (m : M S A) (Q Q' : A -> S -> Prop) (E E' : exn -> S -> Prop) s :
  wlp m Q E s -> (forall a t, Q a t -> Q' a t) -> (forall e t, E e t -> E' e t) -> wlp m Q' E' s.
Proof. unfold wlp. destruct (m s) as [[a|e|] t]; eauto. Qed.
Lemma wlp_bind {A B} (m : M S A) (k : A -> M S B) Q E s :
  wlp m (fun a t => wlp (k a) Q E t) E s -> wlp (bind m k) Q E s.
Proof. unfold wlp, bind. by destruct (m s) as [[a|e|] t]. Qed.
Lemma wlp_and {A} (m : M S A) (Q Q' : A -> S -> Prop) (E E' : exn -> S -> Prop) s :
  wlp m Q E s -> wlp m Q' E' s -> wlp m (fun a t => Q a t /\ Q' a t) (fun e t => E e t /\ E' e t) s.
Proof. unfold wlp. by destruct (m s) as [[a|e|] t]. Qed.
Lemma wlp_then {A B} (m : M S A) (k : A -> M S B) (P : A -> S -> Prop) Q (E : exn -> S -> Prop) s :
  wlp m P E s -> (forall a t, P a t -> wlp (k a) Q E t) -> wlp (bind m k) Q E s.
Proof. intros H K. apply wlp_bind. eapply wlp_mono; [exact H|exact K|done]. Qed.
Lemma wlp_opt {A B} (o : option A) (k : A -> M S B) Q E s :
  (forall a, o = Some a -> wlp (k a) Q E s) -> wlp (bind (opt o) k) Q E s.
Proof. destruct o as [a|]; [intros H; by apply H|done]. Qed.
Lemma wlp_check {B} b (k : unit -> M S B) Q E s :
  (b = true -> wlp (k tt) Q E s) -> wlp (bind (check b) k) Q E s.
Proof. destruct b; [intros H; by apply H|done]. Qed.
Lemma wlp_try {A} (m : M S A) h (Q : A -> S -> Prop) (E : exn -> S -> Prop) s :
  wlp m Q (fun e t => wlp (h e) Q E t) s -> wlp (try_catch m h) Q E s.
Proof. unfold wlp, try_catch. by destruct (m s) as [[a|e|] t]. Qed.

(** A [while] loop keeps an invariant, whatever the fuel. *)
Lemma wlp_mwhile {A} fuel (a0 : A) body (Inv Q : A -> S -> Prop) (E : exn -> S -> Prop) s :
  Inv a0 s ->
  (forall a t, Inv a t -> wlp (body a) (fun f u => match f with Next a' => Inv a' u | Break a' => Q a' u end) E t) ->
  wlp (mwhile fuel a0 body) Q E s.
Proof.
  intros H0 Hs. revert a0 s H0. induction fuel as [|fuel IH]; intros a0 s H0; cbn [mwhile]; [done|].
  apply wlp_bind. eapply wlp_mono; [by apply Hs| |done]. intros [a|a] t; [apply IH|done].
Qed.
Lemma wlp_mloop {I A} (l : list I) (a0 : A) body (Inv : A -> S -> Prop) (E : exn -> S -> Prop) s :
  Inv a0 s ->
  (forall a i t, Inv a t -> wlp (body a i) (fun f u => match f with Next a' => Inv a' u | Break a' => Inv a' u end) E t) ->
  wlp (mloop l a0 body) Inv E s.
Proof.
  intros H0 Hs. revert a0 s H0. induction l as [|i l IH]; intros a0 s H0; cbn [mloop]; [done|].
  apply wlp_bind. eapply wlp_mono; [by apply Hs| |done]. intros [a|a] t; [apply IH|done].
Qed.
Lemma wlp_mfold {I A} (l : list I) (a0 : A) body (Inv : A -> S -> Prop) (E : exn -> S -> Prop) s :
  Inv a0 s -> (forall a i t, Inv a t -> wlp (body a i) Inv E t) -> wlp (mfold l a0 body) Inv E s.
Proof.
  intros H0 Hs. revert a0 s H0. induction l as [|i l IH]; intros a0 s H0; cbn [mfold]; [done|].
  apply wlp_bind. eapply wlp_mono; [by apply Hs| |done]. intros a t; apply IH.
Qed.
Lemma wlp_mfor {I} (l : list I) body (Inv : S -> Prop) (E : exn -> S -> Prop) s :
  Inv s -> (forall i t, Inv t -> wlp (body i) (fun _ => Inv) E t) -> wlp (mfor l body) (fun _ => Inv) E s.
Proof.
  intros H0 Hs. revert s H0. induction l as [|i l IH]; intros s H0; cbn [mfor]; [done|].
  apply wlp_bind. eapply wlp_mono; [by apply Hs| |done]. intros a t; apply IH.
Qed.

(** Loops over a range, with an invariant indexed by the next element. *)
Lemma wlp_fold_range {A} lo hi (a0 : A) body (Inv : Z -> A -> S -> Prop) (E : exn -> S -> Prop) s :
  lo <= hi -> Inv lo a0 s ->
  (forall i a t, lo <= i < hi -> Inv i a t -> wlp (body a i) (Inv (i + 1)) E t) ->
  wlp (mfold (range lo hi) a0 body) (Inv hi) E s.
Proof.
  intros Hlh H0 Hs. remember (Z.to_nat (hi - lo)) as k eqn:Hk. revert lo a0 s Hlh H0 Hs Hk.
  induction k as [|k IH]; intros lo a0 s Hlh H0 Hs Hk.
  - assert (lo = hi) as -> by lia. rewrite range_nil by lia. exact H0.
  - rewrite range_cons by lia. cbn [mfold]. apply wlp_bind. eapply wlp_mono; [apply Hs; [lia|exact H0]| |done].
    intros a t Ha. apply (IH (lo + 1)); [lia|done| |lia]. intros i b u Hi. apply Hs. lia.
Qed.
Lemma wlp_for_range lo hi body (Inv : Z -> S -> Prop) (E : exn -> S -> Prop) s :
  lo <= hi -> Inv lo s ->
  (forall i t, lo <= i < hi -> Inv i t -> wlp (body i) (fun _ => Inv (i + 1)) E t) ->
  wlp (mfor (range lo hi) body) (fun _ => Inv hi) E s.
Proof.
  intros Hlh H0 Hs. remember (Z.to_nat (hi - lo)) as k eqn:Hk. revert lo s Hlh H0 Hs Hk.
  induction k as [|k IH]; intros lo s Hlh H0 Hs Hk.
  - assert (lo = hi) as -> by lia. rewrite range_nil by lia. exact H0.
  - rewrite range_cons by lia. cbn [mfor]. apply wlp_bind. eapply wlp_mono; [apply Hs; [lia|exact H0]| |done].
    intros a t Ha. apply (IH (lo + 1)); [lia|done| |lia]. intros i u Hi. apply Hs. lia.
Qed.
End Wlp.

Lemma wlp_zoom {S T A} (pr : S -> T) (up : T -> S -> S) (m : M T A) Q E s :
  wlp m (fun a t => Q a (up t s)) (fun e t => E e (up t s)) (pr s) -> wlp (zoom pr up m) Q E s.
Proof. unfold wlp, zoom. by destruct (m (pr s)) as [[a|e|] t]. Qed.

(** What every result satisfies, whatever the state. *)
Section Yields.
Context {S : Type}.
Definition yields {A} (P : A -> Prop) (m : M S A) : Prop := forall s, wlp m (fun a _ => P a) (fun _ _ => True) s.

Lemma yields_ret {A} (P : A -> Prop) a : P a -> yields P (ret a).
Proof. by intros H s. Qed.
Lemma yields_throw {A} (P : A -> Prop) e : yields P (throw e).
Proof. by intros s. Qed.
Lemma yields_any {A} (m : M S A) : yields (fun _ => True) m.
Proof. intros s. unfold wlp. by destruct (m s) as [[]]. Qed.
Lemma yields_bind {A B} (P : A -> Prop) (Q : B -> Prop) (m : M S A) k :
  yields P m -> (forall a, P a -> yields Q (k a)) -> yields Q (bind m k).
Proof. intros Hm Hk s. apply wlp_bind. eapply wlp_mono; [apply Hm| |done]. intros a t Ha. by apply Hk. Qed.
Lemma yields_mwhile {A} (P : A -> Prop) fuel (a : A) body :
  P a -> (forall a, P a -> yields (fun f => match f with Next a' | Break a' => P a' end) (body a)) -> yields P (mwhile fuel a body).
Proof.
  intros Ha Hb s. apply (wlp_mwhile _ _ _ (fun a _ => P a)); [done|]. intros b t Hp.
  eapply wlp_mono; [by apply Hb| |done]. by intros [].
Qed.
Lemma yields_mloop {I A} (P : A -> Prop) (l : list I) (a : A) body :
  P a -> (forall a i, P a -> yields (fun f => match f with Next a' | Break a' => P a' end) (body a i)) -> yields P (mloop l a body).
Proof.
  intros Ha Hb s. apply (wlp_mloop _ _ _ (fun a _ => P a)); [done|]. intros b i t Hp.
  eapply wlp_mono; [by apply Hb| |done]. by intros [].
Qed.
End Yields.

(** Steps without a decision. *)
Ltac wlp_steps := repeat (cbv beta; lazymatch goal with
  | |- wlp (ret ?a) ?Q ?E ?s => change (Q a s)
  | |- wlp (bind (ret ?a) ?k) ?Q ?E ?s => change (wlp (k a) Q E s)
  | |- wlp (bind get ?k) ?Q ?E ?s => change (wlp (k s) Q E s)
  | |- wlp (bind (put ?t) ?k) ?Q ?E ?s => change (wlp (k tt) Q E t)
  | |- wlp (bind (modify ?f) ?k) ?Q ?E ?s => change (wlp (k tt) Q E (f s))
  | |- wlp (bind (gets ?f) ?k) ?Q ?E ?s => change (wlp (k (f s)) Q E s)
  end); cbv beta.

(** * Computations that keep a relation between the state before and after

    For a preorder [R]; the rules follow the structure of the computation. *)
Section Keeps.
Context {S : Type} (R : S -> S -> Prop) `{!PreOrder R}.

Definition keeps {A} (m : M S A) : Prop := forall s, wlp m (fun _ t => R s t) (fun _ t => R s t) s.

Lemma keeps_ret {A} (a : A) : keeps (ret a).
Proof. intros s. change (R s s). reflexivity. Qed.
Lemma keeps_throw {A} e : keeps (throw (A := A) e).
Proof. intros s. change (R s s). reflexivity. Qed.
Lemma keeps_fault {A} : keeps (fault (A := A)).
Proof. by intros s. Qed.
Lemma keeps_get : keeps get.
Proof. intros s. change (R s s). reflexivity. Qed.
Lemma keeps_opt {A} (o : option A) : keeps (opt o).
Proof. destruct o; [apply keeps_ret|apply keeps_fault]. Qed.
Lemma keeps_check b : keeps (check b).
Proof. destruct b; [apply keeps_ret|apply keeps_fault]. Qed.
Lemma keeps_bind {A B} (m : M S A) (k : A -> M S B) : keeps m -> (forall a, keeps (k a)) -> keeps (bind m k).
Proof.
  intros Hm Hk s. apply wlp_bind. eapply wlp_mono; [apply Hm| |done].
  intros a t Ht. eapply wlp_mono; [apply Hk|..]; intros ? u Hu; cbn beta iota in *; (etransitivity; eassumption).
Qed.
Lemma keeps_when b m : keeps m -> keeps (when b m).
Proof. destruct b; [done|]. intros _. apply keeps_ret. Qed.
Lemma keeps_try {A} (m : M S A) h : keeps m -> (forall e, keeps (h e)) -> keeps (try_catch m h).
Proof.
  intros Hm Hh s. apply wlp_try. eapply wlp_mono; [apply Hm|done|].
  intros e t Ht. eapply wlp_mono; [apply Hh|..]; intros ? u Hu; cbn beta iota in *; (etransitivity; eassumption).
Qed.
Lemma keeps_mwhile {A} fuel (a : A) body : (forall a, keeps (body a)) -> keeps (mwhile fuel a body).
Proof.
  intros Hb s. apply (wlp_mwhile _ _ _ (fun _ t => R s t)); [reflexivity|].
  intros b t Ht. eapply wlp_mono; [apply Hb|..]; [intros [c|c] u Hu|intros e u Hu]; cbn beta iota in *; (etransitivity; eassumption).
Qed.
Lemma keeps_mloop {I A} (l : list I) (a : A) body : (forall a i, keeps (body a i)) -> keeps (mloop l a body).
Proof.
  intros Hb s. apply (wlp_mloop _ _ _ (fun _ t => R s t)); [reflexivity|].
  intros b i t Ht. eapply wlp_mono; [apply Hb|..]; [intros [c|c] u Hu|intros e u Hu]; cbn beta iota in *; (etransitivity; eassumption).
Qed.
Lemma keeps_mfold {I A} (l : list I) (a : A) body : (forall a i, keeps (body a i)) -> keeps (mfold l a body).
Proof.
  intros Hb s. apply (wlp_mfold _ _ _ (fun _ t => R s t)); [reflexivity|].
  intros b i t Ht. eapply wlp_mono; [apply Hb|..]; intros ? u Hu; cbn beta iota in *; (etransitivity; eassumption).
Qed.
Lemma keeps_mfor {I} (l : list I) body : (forall i, keeps (body i)) -> keeps (mfor l body).
Proof.
  intros Hb s. apply (wlp_mfor _ _ (fun t => R s t)); [reflexivity|].
  intros i t Ht. eapply wlp_mono; [apply Hb|..]; intros ? u Hu; cbn beta iota in *; (etransitivity; eassumption).
Qed.
Lemma keeps_modify f : (forall s, R s (f s)) -> keeps (modify f).
Proof. intros Hf s. apply Hf. Qed.
End Keeps.

(** One step along the structure; [base] handles the operations that are not
    built from others. *)
Ltac keeps_step base := lazymatch goal with
  | |- keeps _ (ret _) => apply keeps_ret; typeclasses eauto
  | |- keeps _ (throw _) => apply keeps_throw; typeclasses eauto
  | |- keeps _ fault => apply keeps_fault
  | |- keeps _ get => apply keeps_get; typeclasses eauto
  | |- keeps _ (opt _) => apply keeps_opt; typeclasses eauto
  | |- keeps _ (check _) => apply keeps_check; typeclasses eauto
  | |- keeps _ (bind _ _) => apply keeps_bind; [typeclasses eauto| |intros ?]
  | |- keeps _ (when _ _) => apply keeps_when; [typeclasses eauto|]
  | |- keeps _ (try_catch _ _) => apply keeps_try; [typeclasses eauto| |intros ?]
  | |- keeps _ (mwhile _ _ _) => apply keeps_mwhile; [typeclasses eauto|]; intros ?
  | |- keeps _ (mloop _ _ _) => apply keeps_mloop; [typeclasses eauto|]; intros ? ?
  | |- keeps _ (mfold _ _ _) => apply keeps_mfold; [typeclasses eauto|]; intros ? ?
  | |- keeps _ (mfor _ _) => apply keeps_mfor; [typeclasses eauto|]; intros ?
  | |- keeps _ (match ?x with _ => _ end) => destruct x
  | |- keeps _ _ => base
  end.

(** * Permutations by assignments to an array *)
Lemma insert_exchange {A} (l : list A) i x y :
  l !! i = Some x -> x :: <[i:=y]> l ≡ₚ y :: l.
Proof.
  intros Hx. rewrite (insert_take_drop l i y) by (by eapply lookup_lt_Some).
  rewrite <- (take_drop_middle l i x Hx) at 3.
  rewrite <- !Permutation_middle. by constructor.
Qed.

Lemma insert_swap {A} (l : list A) i j x y : i <> j ->
  l !! i = Some x -> l !! j = Some y -> <[i:=y]> (<[j:=x]> l) ≡ₚ l.
Proof.
  intros Hne Hx Hy. apply (Permutation_cons_inv (a := x)).
  rewrite (insert_exchange (<[j:=x]> l) i x y) by (by rewrite list_lookup_insert_ne by done).
  by rewrite (insert_exchange l j y x).
Qed.
