(* ===== verification/Config.v ===== *)
(** Config: the compile-time geometry of the simulated volume (config.h) and
    the enumerations every component uses (fs_simulator.h, blocks.h). *)
From S2P Require Export Prelude.

(** * Metadata layout *)
Definition CKPT_START_BLK : Z := 0.
Definition CKPT_BLK_NR : Z := 6.
Definition SIT_JOURNAL_BLK : Z := 4.
Definition SIT_START_BLK : Z := CKPT_START_BLK + CKPT_BLK_NR * 2.
Definition SIT_BLK_NR : Z := 10.
Definition NAT_START_BLK : Z := SIT_START_BLK + 2 * SIT_BLK_NR.
Definition NAT_BLK_NR : Z := 4.
Definition SSA_START_BLK : Z := NAT_START_BLK + 2 * NAT_BLK_NR.
Definition BLOCK_PER_SEG : Z := 16.
Definition MAIN_SEG_OFFSET : Z := 8.
Definition MAIN_SEG_NR : Z := 60.
Definition SSA_BLK_NUM : Z := MAIN_SEG_NR.
Definition END_META_BLK : Z := SSA_START_BLK + SSA_BLK_NUM.
Definition MAIN_BLK_NR : Z := MAIN_SEG_NR * BLOCK_PER_SEG.
Definition SEG_NUM : Z := MAIN_SEG_OFFSET + MAIN_SEG_NR.
Definition JOURNAL_NR : Z := 16.
Definition SIT_ENTRY_PER_BLK : Z := 6.
Definition SUMMARY_PER_BLK : Z := BLOCK_PER_SEG.
Definition RESERVED_SEG : Z := 6.
Definition OP_SEGMENT : Z := 20.
Definition NAT_ENTRY_PER_BLK : Z := 32.
Definition NODE_NR : Z := 128.
Definition TOTAL_BLOCK_NR : Z := SEG_NUM * BLOCK_PER_SEG.

(** * In-memory configuration *)
Definition MAX_PAGE_NUM : Z := 2048.
Definition MAX_OPEN_FILE : Z := 8.
Definition MAX_INDEX_LEVEL : Z := 3.
Definition INDEX_SIZE : Z := 32.
Definition INDEX_TABLE_SIZE : Z := 16.
Definition MAX_FILE_BLKS : Z := INDEX_SIZE * INDEX_TABLE_SIZE.
Definition DENTRY_PER_BLOCK : Z := 4.
Definition FN_SLOT_LEN : Z := 2.
Definition MAX_FILENAME_LEN : Z := DENTRY_PER_BLOCK * FN_SLOT_LEN.
Definition MAX_DENTRY_LEVEL : Z := 4.
Definition BLOCK_SIZE : Z := 512.
Definition NID_IN_USE : Z := 65534.
Definition ROOT_FID : Z := 0.

(** [SIT_JOURNAL_PER_BLK] of load_checkpoint and save_checkpoint. *)
Definition SIT_JOURNAL_PER_BLK : Z := JOURNAL_NR / SIT_JOURNAL_BLK.

(** * Enumerations

    Their values are stored in memory that is also filled with [memset] and
    reused for other members, so the values are numbers. *)

(** [BLK_TEMP]; -1 is what [memset(.., 0xFF, ..)] leaves. *)
Definition BT_HOT__DATA : Z := 4.
Definition BT_HOT__NODE : Z := 5.
Definition BT_TEMP_NR : Z := 6.
Definition BT_FF : Z := -1.

(** [BLOCK_DATA::BLOCK_TYPE], as the 32-bit word it occupies. *)
Definition BLOCK_FREE : Z := INVALID32.
Definition BLOCK_INODE : Z := 0.
Definition BLOCK_INDEX : Z := 1.
Definition BLOCK_DENTRY : Z := 2.
Definition BLOCK_SIT : Z := 3.
Definition BLOCK_NAT : Z := 4.
Definition BLOCK_FILE_DATA : Z := 5.
Definition BLOCK_CKPT_HEADER : Z := 6.
Definition BLOCK_CKPT_NAT_JOURNAL : Z := 7.
Definition BLOCK_CKPT_SIT_JOURNAL : Z := 8.

(** [F2FS_FILE_TYPE] *)
Definition F2FS_FILE_REG : Z := 0.
Definition F2FS_FILE_DIR : Z := 1.
Definition F2FS_FILE_UNKNOWN : Z := 2.

(** Unfold the geometry, for arithmetic. *)
Ltac cfg :=
  unfold END_META_BLK, SSA_BLK_NUM, SSA_START_BLK, NAT_START_BLK, SIT_START_BLK,
    CKPT_START_BLK, CKPT_BLK_NR, SIT_BLK_NR, NAT_BLK_NR, MAIN_BLK_NR,
    TOTAL_BLOCK_NR, SEG_NUM, MAIN_SEG_OFFSET, MAIN_SEG_NR, SUMMARY_PER_BLK,
    BLOCK_PER_SEG, SIT_JOURNAL_PER_BLK, JOURNAL_NR, SIT_JOURNAL_BLK,
    SIT_ENTRY_PER_BLK, RESERVED_SEG, OP_SEGMENT, NAT_ENTRY_PER_BLK, NODE_NR,
    MAX_PAGE_NUM, MAX_OPEN_FILE, MAX_INDEX_LEVEL, MAX_FILE_BLKS, INDEX_SIZE,
    INDEX_TABLE_SIZE, MAX_FILENAME_LEN, DENTRY_PER_BLOCK, FN_SLOT_LEN,
    MAX_DENTRY_LEVEL, BLOCK_SIZE, NID_IN_USE, ROOT_FID, INVALID16, INVALID32,
    BT_TEMP_NR, BT_HOT__DATA, BT_HOT__NODE, BT_FF in *.
Ltac clia := cfg; lia.
