(* ===== verification/Bits.v ===== *)
(** Bits: bitmaps in machine words, the lemmas that the block bitmaps, the
    dirty maps and the version bitmaps of the checkpoint share. *)
From S2P Require Export Config.

Create HintDb bits.

Section Bits.
Implicit Types b n i : Z.

Lemma testbit_mask n i : 0 <= n -> 0 <= i -> Z.testbit (mask n) i = (i =? n).
Proof.
  intros Hn Hi. unfold mask. rewrite Z.shiftl_spec by done.
  destruct (Z.eqb_spec i n) as [->|Hne].
  - by rewrite Z.sub_diag.
  - destruct (decide (i < n)); [by rewrite Z.testbit_neg_r by lia|].
    rewrite Z.bits_above_log2; [done|lia|]. change (Z.log2 1) with 0. lia.
Qed.

Lemma land_mask b n : 0 <= n -> (Z.land b (mask n) =? 0) = negb (Z.testbit b n).
Proof.
  intros Hn. destruct (Z.testbit b n) eqn:E; cbn.
  - apply Z.eqb_neq. intros H0. apply (f_equal (fun x => Z.testbit x n)) in H0.
    rewrite Z.land_spec, testbit_mask, Z.eqb_refl, E, Z.bits_0 in H0 by done. done.
  - apply Z.eqb_eq, Z.bits_inj_iff. intros i. rewrite Z.bits_0, Z.land_spec.
    destruct (decide (i < 0)); [by rewrite Z.testbit_neg_r by lia|].
    rewrite testbit_mask by lia. destruct (Z.eqb_spec i n) as [->|]; [by rewrite E|].
    by rewrite andb_false_r.
Qed.

Lemma testbit_lor_mask b n i : 0 <= n -> 0 <= i ->
  Z.testbit (Z.lor b (mask n)) i = Z.testbit b i || (i =? n).
Proof. intros Hn Hi. by rewrite Z.lor_spec, testbit_mask. Qed.

Lemma testbit_lxor_mask b n i : 0 <= n -> 0 <= i ->
  Z.testbit (Z.lxor b (mask n)) i = xorb (Z.testbit b i) (i =? n).
Proof. intros Hn Hi. by rewrite Z.lxor_spec, testbit_mask. Qed.

Lemma testbit_INVALID32 i : 0 <= i -> Z.testbit INVALID32 i = (i <? 32).
Proof.
  intros Hi. change INVALID32 with (Z.ones 32).
  destruct (Z.ltb_spec i 32); [by apply Z.ones_spec_low; lia|by apply Z.ones_spec_high; lia].
Qed.

Lemma testbit_clear_mask b n i : 0 <= n -> 0 <= i < 32 ->
  Z.testbit (clear_mask b (mask n)) i = Z.testbit b i && negb (i =? n).
Proof.
  intros Hn Hi. unfold clear_mask.
  rewrite Z.land_spec, Z.lxor_spec, testbit_INVALID32, testbit_mask by lia.
  rewrite (proj2 (Z.ltb_lt i 32)) by lia. by destruct (i =? n).
Qed.

(** A word with no bit at or above [w]. *)
Lemma word_bits w b : 0 <= w -> 0 <= b < 2 ^ w <-> (0 <= b /\ forall i, w <= i -> Z.testbit b i = false).
Proof.
  intros Hw. split.
  - intros [H0 H1]. split; [done|]. intros i Hi.
    destruct (decide (b = 0)) as [->|Hb]; [by rewrite Z.bits_0|].
    apply Z.bits_above_log2; [lia|].
    assert (Z.log2 b < w) by (apply Z.log2_lt_pow2; lia). lia.
  - intros [H0 H1]. split; [done|]. destruct (decide (b < 2 ^ w)) as [|Hge]; [done|].
    assert (0 < b) by (pose proof (Z.pow_pos_nonneg 2 w); lia).
    assert (w <= Z.log2 b) as Hl by (apply Z.log2_le_pow2; lia).
    specialize (H1 _ Hl). by rewrite Z.bit_log2 in H1 by lia.
Qed.

Lemma lor_mask_word w b n : 0 <= n < w -> 0 <= b < 2 ^ w -> 0 <= Z.lor b (mask n) < 2 ^ w.
Proof.
  intros Hn [H0 H1]%word_bits; [|lia]. apply word_bits; [lia|]. split.
  - apply Z.lor_nonneg. split; [done|]. unfold mask. apply Z.shiftl_nonneg. lia.
  - intros i Hi. rewrite testbit_lor_mask, H1 by lia. apply Z.eqb_neq. lia.
Qed.

Lemma clear_mask_word w b n : 0 <= w -> 0 <= b < 2 ^ w -> 0 <= clear_mask b (mask n) < 2 ^ w.
Proof.
  intros Hw [H0 H1]%word_bits; [|done]. apply word_bits; [done|]. split.
  - unfold clear_mask. apply Z.land_nonneg. by left.
  - intros i Hi. unfold clear_mask. by rewrite Z.land_spec, H1.
Qed.

Lemma lxor_mask_word w b n : 0 <= n < w -> 0 <= b < 2 ^ w -> 0 <= Z.lxor b (mask n) < 2 ^ w.
Proof.
  intros Hn [H0 H1]%word_bits; [|lia]. apply word_bits; [lia|]. split.
  - apply Z.lxor_nonneg. split; intros _; [|done]. unfold mask. apply Z.shiftl_nonneg. lia.
  - intros i Hi. rewrite testbit_lxor_mask, H1 by lia. apply Z.eqb_neq. lia.
Qed.

(** Two words that agree on their bits. *)
Lemma word_ext w a b : 0 <= w -> 0 <= a < 2 ^ w -> 0 <= b < 2 ^ w ->
  (forall i, 0 <= i < w -> Z.testbit a i = Z.testbit b i) -> a = b.
Proof.
  intros Hw [A0 A1]%word_bits [B0 B1]%word_bits H; [|done..]. apply Z.bits_inj_iff. intros i.
  destruct (decide (i < 0)); [by rewrite !Z.testbit_neg_r by lia|].
  destruct (decide (i < w)); [by apply H; lia|]. by rewrite A1, B1 by lia.
Qed.

(** * Counting bits *)
Definition popcount (w b : Z) : Z :=
  Z.of_nat (length (filter (fun i => Z.testbit b i = true) (range 0 w))).

Lemma filter_ext_in (f g : Z -> bool) (l : list Z) :
  (forall i, i ∈ l -> f i = g i) ->
  filter (fun i => f i = true) l = filter (fun i => g i = true) l.
Proof.
  induction l as [|x l IH]; intros H; [done|]. rewrite !filter_cons, IH by set_solver.
  by rewrite (H x) by set_solver.
Qed.

Lemma filter_length_change (l : list Z) n (f g : Z -> bool) :
  NoDup l -> n ∈ l -> f n = false -> g n = true -> (forall i, i <> n -> f i = g i) ->
  length (filter (fun i => g i = true) l) = S (length (filter (fun i => f i = true) l)).
Proof.
  intros Hnd Hin Hf Hg Hother.
  assert (Hsame : forall l' : list Z, n ∉ l' ->
    filter (fun i => g i = true) l' = filter (fun i => f i = true) l').
  { intros l' Hn. apply filter_ext_in. intros i Hi. symmetry. apply Hother. set_solver. }
  apply list_elem_of_split in Hin as (l1 & l2 & ->).
  apply NoDup_app in Hnd as (_ & N2 & N3%NoDup_cons). destruct N3 as [N3 _].
  rewrite !filter_app, !filter_cons, !length_app. rewrite Hf, Hg.
  rewrite decide_True, decide_False by done.
  rewrite !Hsame; [cbn; lia|done|]. intros H1. apply (N2 n); [done|]. by left.
Qed.

Lemma NoDup_range lo hi : NoDup (range lo hi).
Proof. unfold range. apply NoDup_seqZ. Qed.

Lemma popcount_set w b n : 0 <= n < w -> Z.testbit b n = false ->
  popcount w (Z.lor b (mask n)) = popcount w b + 1.
Proof.
  intros Hn Hb. unfold popcount.
  assert (filter (fun i => Z.testbit (Z.lor b (mask n)) i = true) (range 0 w) =
          filter (fun i => (Z.testbit b i || (i =? n)) = true) (range 0 w)) as ->.
  { apply filter_ext_in. intros i Hi%elem_of_range. by rewrite testbit_lor_mask by lia. }
  rewrite (filter_length_change _ n (Z.testbit b) (fun i => Z.testbit b i || (i =? n))).
  - lia.
  - apply NoDup_range.
  - by apply elem_of_range.
  - done.
  - by rewrite Z.eqb_refl, orb_true_r.
  - intros i Hi. by rewrite (proj2 (Z.eqb_neq _ _)), orb_false_r.
Qed.

Lemma popcount_clear w b n : 0 <= n < w -> w <= 32 -> Z.testbit b n = true ->
  popcount w (clear_mask b (mask n)) = popcount w b - 1.
Proof.
  intros Hn Hw Hb. unfold popcount.
  assert (filter (fun i => Z.testbit (clear_mask b (mask n)) i = true) (range 0 w) =
          filter (fun i => (Z.testbit b i && negb (i =? n)) = true) (range 0 w)) as ->.
  { apply filter_ext_in. intros i Hi%elem_of_range. by rewrite testbit_clear_mask by lia. }
  rewrite (filter_length_change _ n (fun i => Z.testbit b i && negb (i =? n)) (Z.testbit b)).
  - lia.
  - apply NoDup_range.
  - by apply elem_of_range.
  - by rewrite Z.eqb_refl, andb_false_r.
  - done.
  - intros i Hi. by rewrite (proj2 (Z.eqb_neq _ _)), andb_true_r.
Qed.

Lemma popcount_bounds w b : 0 <= w -> 0 <= popcount w b <= w.
Proof.
  intros Hw. unfold popcount. pose proof (length_filter (fun i => Z.testbit b i = true) (range 0 w)) as H.
  unfold range in *. rewrite length_seqZ in H. lia.
Qed.

Lemma popcount_zero w b : 0 <= w -> 0 <= b < 2 ^ w -> popcount w b = 0 <-> b = 0.
Proof.
  intros Hw Hb. split.
  - intros H. apply (word_ext w); [done|done| |].
    + split; [done|]. apply Z.pow_pos_nonneg; lia.
    + intros i Hi. rewrite Z.bits_0. destruct (Z.testbit b i) eqn:E; [|done].
      exfalso. unfold popcount in H.
      assert (Hin : i ∈ filter (fun i => Z.testbit b i = true) (range 0 w)).
      { apply list_elem_of_filter. split; [done|]. by apply elem_of_range. }
      destruct (filter _ _); [set_solver|]. cbn in H. lia.
  - intros ->. unfold popcount. enough (filter (fun i => Z.testbit 0 i = true) (range 0 w) = []) as -> by done.
    induction (range 0 w) as [|x l IH]; [done|]. rewrite filter_cons, Z.bits_0.
    by rewrite decide_False.
Qed.
End Bits.

#[export] Hint Rewrite land_mask testbit_lor_mask testbit_lxor_mask using lia : bits.
