(* ===== verification/Blocks.v ===== *)
(** Blocks: the data that a block of the simulated medium can hold (blocks.h,
    f2fs_segment.h).  A union is a sum of its members; reading the member that
    was last written gives its value, reading any member of memory that
    [memset] filled gives the fill, and any other read has no value. *)
From S2P Require Export Config.

(** * Nodes *)
Record INODE := mkInode {
  blk_num : Z; file_size : Z; file_type : Z; ref_count : Z; nlink : Z;
  inode_index : list Z                       (* _NID index[INDEX_TABLE_SIZE] *)
}.
Record INDEX_NODE := mkIndexNode {
  valid_data : Z;
  index_index : list Z                       (* PHY_BLK index[INDEX_SIZE] *)
}.
Inductive NODE_UNION := N_inode (i : INODE) | N_index (i : INDEX_NODE).
Record NODE_INFO := mkNode {
  m_nid : Z; m_ino : Z; page_id : Z; node_body : NODE_UNION
}.

(** * Directory entries *)
Record DENTRY := mkDentry {
  de_ino : Z; de_hash : Z; de_name_len : Z; de_file_type : Z
}.
(** [filenames] is the memory of the two-dimensional array, row after row. *)
Record DENTRY_BLOCK := mkDentryBlock {
  de_bitmap : Z; de_filenames : list Z; dentries : list DENTRY
}.

(** * Segments and metadata *)
Record SEG_INFO := mkSegInfo { si_valid_bmp : Z; si_valid_blk_nr : Z; si_seg_temp : Z }.
Record SIT_BLOCK := mkSitBlock { sit_entries : list SEG_INFO }.
Record SUMMARY := mkSummary { sum_nid : Z; sum_offset : Z }.
Record SUMMARY_BLOCK := mkSummaryBlock { sum_entries : list SUMMARY }.
Record CURSEG_INFO := mkCurseg { seg_no : Z; blk_offset : Z }.
Record NAT_JOURNAL_ENTRY := mkNatJ { nj_nid : Z; nj_phy_blk : Z }.
Record SIT_JOURNAL_ENTRY := mkSitJ { sj_seg_no : Z; sj_seg_info : SEG_INFO }.
Record NAT_BLOCK := mkNatBlock { nat_entries : list Z }.
Record FILE_DATA := mkFileData { fd_fid : Z; fd_offset : Z; fd_ver : Z }.

Record CKPT_HEAD := mkCkptHead {
  cur_segs : list CURSEG_INFO;
  nat_journal_nr : Z; sit_journal_nr : Z;
  sit_ver_bitmap : Z; nat_ver_bitmap : Z;
  ver_open : Z; ver_close : Z
}.
Record CKPT_BLOCK := mkCkpt {
  header : CKPT_HEAD;
  nat_journals : list NAT_JOURNAL_ENTRY;
  sit_journals : list SIT_JOURNAL_ENTRY
}.

(** * Block contents *)
Inductive BLOCK_UNION :=
  | U_ff                                   (* memset(.., 0xFF, ..) *)
  | U_zero                                 (* memset(.., 0, ..) *)
  | U_node (n : NODE_INFO)
  | U_dentry (d : DENTRY_BLOCK)
  | U_sit (b : SIT_BLOCK)
  | U_nat (b : NAT_BLOCK)
  | U_ssa (b : SUMMARY_BLOCK)
  | U_file (f : FILE_DATA)
  | U_ckpt_header (h : CKPT_HEAD)
  | U_ckpt_nat (j : list NAT_JOURNAL_ENTRY)
  | U_ckpt_sit (j : list SIT_JOURNAL_ENTRY).

Record BLOCK_DATA := mkBlock { m_type : Z; body : BLOCK_UNION }.

Definition rep {A} (n : Z) (a : A) : list A := replicate (Z.to_nat n) a.

(** Memory filled with 0xFF, read as each member. *)
Definition DENTRY_ff := mkDentry INVALID16 INVALID16 INVALID16 255.
Definition DENTRY_BLOCK_ff :=
  mkDentryBlock INVALID32 (rep (DENTRY_PER_BLOCK * FN_SLOT_LEN) 255)
    (rep DENTRY_PER_BLOCK DENTRY_ff).
Definition SEG_INFO_ff := mkSegInfo INVALID32 INVALID32 BT_FF.
Definition SIT_BLOCK_ff := mkSitBlock (rep SIT_ENTRY_PER_BLK SEG_INFO_ff).
Definition NAT_BLOCK_ff := mkNatBlock (rep NAT_ENTRY_PER_BLK INVALID16).
Definition SUMMARY_BLOCK_ff :=
  mkSummaryBlock (rep SUMMARY_PER_BLK (mkSummary INVALID16 INVALID16)).
Definition FILE_DATA_ff := mkFileData INVALID16 INVALID16 INVALID32.
Definition CURSEG_ff := mkCurseg INVALID16 INVALID16.

(** Memory filled with 0, read as the checkpoint. *)
Definition CKPT_HEAD_zero :=
  mkCkptHead (rep BT_TEMP_NR (mkCurseg 0 0)) 0 0 0 0 0 0.
Definition CKPT_BLOCK_zero :=
  mkCkpt CKPT_HEAD_zero (rep JOURNAL_NR (mkNatJ 0 0))
    (rep JOURNAL_NR (mkSitJ 0 (mkSegInfo 0 0 0))).

(** Reading a member of the union. *)
Definition as_node (b : BLOCK_UNION) : option NODE_INFO :=
  match b with U_node n => Some n | _ => None end.
Definition as_inode (n : NODE_UNION) : option INODE :=
  match n with N_inode i => Some i | _ => None end.
Definition as_index (n : NODE_UNION) : option INDEX_NODE :=
  match n with N_index i => Some i | _ => None end.
Definition as_dentry (b : BLOCK_UNION) : option DENTRY_BLOCK :=
  match b with U_dentry d => Some d | U_ff => Some DENTRY_BLOCK_ff | _ => None end.
Definition as_sit (b : BLOCK_UNION) : option SIT_BLOCK :=
  match b with U_sit x => Some x | U_ff => Some SIT_BLOCK_ff | _ => None end.
Definition as_nat (b : BLOCK_UNION) : option NAT_BLOCK :=
  match b with U_nat x => Some x | U_ff => Some NAT_BLOCK_ff | _ => None end.
Definition as_ssa (b : BLOCK_UNION) : option SUMMARY_BLOCK :=
  match b with U_ssa x => Some x | U_ff => Some SUMMARY_BLOCK_ff | _ => None end.
Definition as_file (b : BLOCK_UNION) : option FILE_DATA :=
  match b with U_file x => Some x | U_ff => Some FILE_DATA_ff | _ => None end.
Definition as_ckpt_header (b : BLOCK_UNION) : option CKPT_HEAD :=
  match b with U_ckpt_header h => Some h | U_zero => Some CKPT_HEAD_zero | _ => None end.
Definition as_ckpt_nat (b : BLOCK_UNION) : option (list NAT_JOURNAL_ENTRY) :=
  match b with U_ckpt_nat j => Some j | _ => None end.
Definition as_ckpt_sit (b : BLOCK_UNION) : option (list SIT_JOURNAL_ENTRY) :=
  match b with U_ckpt_sit j => Some j | _ => None end.
