(* ===== verification/Pages.v ===== *)
(** Pages: the page cache of the simulated kernel, pages.h and pages.cpp.
    A [CPageInfo*] into the cache is the page's index, [None] is the null
    pointer.  [free_link] shares its memory with the first word of the page's
    block, [m_type]. *)
From S2P Require Export Blocks.

Record CPageInfo := mkPage {
  phy_blk : Z; ttemp : Z; nid : Z; offset : Z;
  dirty : bool; in_use : bool; data : BLOCK_DATA
}.

Definition free_link (p : CPageInfo) : Z := m_type (data p).
Definition set_free_link (l : Z) (p : CPageInfo) : CPageInfo :=
  mkPage (phy_blk p) (ttemp p) (nid p) (offset p) (dirty p) (in_use p)
    (mkBlock l (body (data p))).
Definition set_in_use (b : bool) (p : CPageInfo) : CPageInfo :=
  mkPage (phy_blk p) (ttemp p) (nid p) (offset p) (dirty p) b (data p).
Definition set_dirty_flag (b : bool) (p : CPageInfo) : CPageInfo :=
  mkPage (phy_blk p) (ttemp p) (nid p) (offset p) b (in_use p) (data p).
Definition set_phy_blk_of (b : Z) (p : CPageInfo) : CPageInfo :=
  mkPage b (ttemp p) (nid p) (offset p) (dirty p) (in_use p) (data p).
Definition set_ttemp (t : Z) (p : CPageInfo) : CPageInfo :=
  mkPage (phy_blk p) t (nid p) (offset p) (dirty p) (in_use p) (data p).
Definition set_addr (n o : Z) (p : CPageInfo) : CPageInfo :=
  mkPage (phy_blk p) (ttemp p) n o (dirty p) (in_use p) (data p).
Definition set_data (d : BLOCK_DATA) (p : CPageInfo) : CPageInfo :=
  mkPage (phy_blk p) (ttemp p) (nid p) (offset p) (dirty p) (in_use p) d.

(** [CPageInfo::Init] *)
Definition page_Init : CPageInfo :=
  mkPage INVALID16 BT_TEMP_NR INVALID16 INVALID16 false true (mkBlock BLOCK_FREE U_ff).

(** A page on the stack: [CPageInfo page;].  Its members with an initializer
    have that value, the others are whatever was in memory. *)
Definition page_local : CPageInfo :=
  mkPage INVALID16 BT_FF INVALID16 INVALID16 false false (mkBlock BLOCK_FREE U_ff).

Record CPageAllocator := mkPages {
  m_pages : list CPageInfo; m_free_ptr : Z; m_used_nr : Z; m_page_nr : Z
}.

(** [CPageAllocator::Init]; the argument of the C++ function is unused. *)
Definition pages_Init (pa : CPageAllocator) : CPageAllocator :=
  let linked := imap (fun ii p => set_in_use false (set_free_link (Z.of_nat ii + 1) p)) (m_pages pa) in
  let last := Z.to_nat (m_page_nr pa - 1) in
  mkPages (alter (set_free_link INVALID32) last linked) 0 0 (m_page_nr pa).
Definition pages_Reset : CPageAllocator -> CPageAllocator := pages_Init.

(** [CPageAllocator::page]: null outside the cache. *)
Definition page (index : Z) (pa : CPageAllocator) : option Z :=
  if m_page_nr pa <=? index then None else Some index.

Definition allocate_index : M CPageAllocator Z :=
  pa <- get ;;
  if m_page_nr pa <=? m_used_nr pa then throw ERR_APP else
  let pg := m_free_ptr pa in
  p <- opt (aget (m_pages pa) pg) ;;
  ps <- opt (aset (m_pages pa) pg page_Init) ;;
  put (mkPages ps (free_link p) (w32 (m_used_nr pa + 1)) (m_page_nr pa)) ;;;
  ret pg.

(** The argument [data] of [allocate] is not used. *)
Definition allocate : M CPageAllocator Z := allocate_index.

Definition free (pg : option Z) : M CPageAllocator unit :=
  match pg with
  | None => throw ERR_USER
  | Some pg =>
      pa <- get ;;
      p <- opt (aget (m_pages pa) pg) ;;
      if negb (in_use p) then throw ERR_USER else
      let p1 := set_free_link (m_free_ptr pa) p in
      ps <- opt (aset (m_pages pa) pg p1) ;;
      put (mkPages ps pg (m_used_nr pa) (m_page_nr pa)) ;;;
      if m_used_nr pa =? 0 then throw ERR_APP else
      ps' <- opt (aset ps pg (set_in_use false p1)) ;;
      put (mkPages ps' pg (w32 (m_used_nr pa - 1)) (m_page_nr pa))
  end.

(** Reading and writing through a [CPageInfo*]. *)
Definition page_at (pg : Z) : M CPageAllocator CPageInfo :=
  pa <- get ;; opt (aget (m_pages pa) pg).
Definition page_upd (pg : Z) (f : CPageInfo -> CPageInfo) : M CPageAllocator unit :=
  pa <- get ;;
  p <- opt (aget (m_pages pa) pg) ;;
  ps <- opt (aset (m_pages pa) pg (f p)) ;;
  put (mkPages ps (m_free_ptr pa) (m_used_nr pa) (m_page_nr pa)).
Definition total_page_nr (pa : CPageAllocator) : Z := MAX_PAGE_NUM.
Definition free_page_nr (pa : CPageAllocator) : Z := w32 (MAX_PAGE_NUM - m_used_nr pa).

(** The allocator as the constructor of the simulator leaves it. *)
Definition pages_new : CPageAllocator :=
  mkPages (rep MAX_PAGE_NUM page_local) 0 0 MAX_PAGE_NUM.

(** * Well-formedness: the free list *)

(** The pages linked from [h]. *)
Fixpoint free_chain (ps : list CPageInfo) (h : Z) (fl : list Z) : Prop :=
  match fl with
  | [] => h = INVALID32
  | x :: fl' => h = x /\ exists p, aget ps x = Some p /\ free_chain ps (free_link p) fl'
  end.

Record pages_wf (pa : CPageAllocator) (fl : list Z) : Prop := {
  pw_len : Z.of_nat (length (m_pages pa)) = m_page_nr pa;
  pw_nr : 0 < m_page_nr pa < INVALID32;
  pw_chain : free_chain (m_pages pa) (m_free_ptr pa) fl;
  pw_nodup : NoDup fl;
  pw_used : m_used_nr pa + Z.of_nat (length fl) = m_page_nr pa;
  pw_free : forall x p, aget (m_pages pa) x = Some p -> (in_use p = false <-> x ∈ fl)
}.

Section FreeList.
Implicit Types (pa : CPageAllocator) (fl : list Z).

Lemma free_chain_insert ps h fl x p :
  free_chain ps h fl -> x ∉ fl -> 0 <= x ->
  free_chain (<[Z.to_nat x := p]> ps) h fl.
Proof.
  revert h. induction fl as [|y fl IH]; intros h; cbn; [done|].
  intros [-> (q & Hq & Hc)] Hx Hpos. split; [done|].
  exists q. rewrite aget_insert_ne by set_solver. split; [done|].
  apply IH; set_solver.
Qed.

Lemma free_chain_in ps h fl x : free_chain ps h fl -> x ∈ fl -> exists p, aget ps x = Some p.
Proof.
  revert h. induction fl as [|y fl IH]; intros h; cbn; [set_solver|].
  intros [-> (q & Hq & Hc)] [->|Hx]%elem_of_cons; [by exists q|by eapply IH].
Qed.

Lemma pages_wf_used pa fl : pages_wf pa fl -> 0 <= m_used_nr pa <= m_page_nr pa.
Proof.
  intros [Hlen Hnr Hc Hnd Hu Hf]. split; [|lia].
  enough (Z.of_nat (length fl) <= Z.max 0 (m_page_nr pa)) by lia.
  apply NoDup_bounded; [done|]. intros x Hx.
  destruct (free_chain_in _ _ _ _ Hc Hx) as [p Hp%aget_bounds]. lia.
Qed.

(** What an allocation does: the head of the free list becomes a page in use
    with fresh contents, no other page changes. *)
Lemma allocate_spec pa x fl :
  pages_wf pa (x :: fl) ->
  exists pa', runs allocate pa x pa' /\ pages_wf pa' fl /\
    aget (m_pages pa') x = Some page_Init /\
    (forall y, y <> x -> aget (m_pages pa') y = aget (m_pages pa) y).
Proof.
  intros Hwf. pose proof (pages_wf_used _ _ Hwf) as Hused.
  destruct Hwf as [Hlen Hnr Hc Hnd Hu Hf].
  cbn in Hc. destruct Hc as [Hh (p & Hp & Hc)]. cbn [length] in Hu.
  pose proof (aget_bounds _ _ _ Hp) as Hb.
  apply NoDup_cons in Hnd as [Hx Hnd].
  eexists. split; [|split; [constructor|split]].
  - unfold runs, allocate, allocate_index, bind, get, put, ret.
    rewrite (proj2 (Z.leb_gt _ _)) by lia. rewrite Hh, Hp. cbn.
    rewrite aset_is_Some by lia. done.
  - cbn. by rewrite length_insert.
  - cbn. done.
  - cbn. by apply free_chain_insert; [|done|lia].
  - cbn. done.
  - cbn. unfold w32. rewrite Z.mod_small; unfold INVALID32 in *; lia.
  - cbn. intros y q. destruct (decide (y = x)) as [->|Hne].
    + rewrite aget_insert_eq by lia. intros [= <-]. cbn. done.
    + rewrite aget_insert_ne by lia. intros Hq. rewrite (Hf _ _ Hq). set_solver.
  - cbn. by rewrite aget_insert_eq by lia.
  - cbn. intros y Hy. rewrite aget_insert_ne by lia. done.
Qed.

Lemma allocate_full pa : pages_wf pa [] -> throws allocate pa ERR_APP pa.
Proof.
  intros [Hlen Hnr Hc Hnd Hu Hf]. unfold throws, allocate, allocate_index, bind, get.
  cbn in Hu. by rewrite (proj2 (Z.leb_le _ _)) by lia.
Qed.

(** What freeing a page in use does: it becomes the head of the free list; its
    block keeps its contents, except for the first word. *)
Lemma free_spec pa fl x p :
  pages_wf pa fl -> aget (m_pages pa) x = Some p -> in_use p = true ->
  exists pa', runs (free (Some x)) pa tt pa' /\ pages_wf pa' (x :: fl) /\
    aget (m_pages pa') x = Some (set_in_use false (set_free_link (m_free_ptr pa) p)) /\
    (forall y, y <> x -> aget (m_pages pa') y = aget (m_pages pa) y).
Proof.
  intros Hwf Hp Hin. pose proof (pages_wf_used _ _ Hwf) as Hused.
  destruct Hwf as [Hlen Hnr Hc Hnd Hu Hf].
  pose proof (aget_bounds _ _ _ Hp) as Hb.
  assert (Hx : x ∉ fl) by (rewrite <- (Hf _ _ Hp); congruence).
  assert (0 < m_used_nr pa) as Hpos.
  { enough (Z.of_nat (length (x :: fl)) <= Z.max 0 (m_page_nr pa)) by (cbn in *; lia).
    apply NoDup_bounded; [by constructor|].
    intros z [->|Hz]%elem_of_cons; [lia|].
    destruct (free_chain_in _ _ _ _ Hc Hz) as [q Hq%aget_bounds]. lia. }
  eexists. split; [|split; [constructor|split]].
  - unfold runs, free, bind, get, put, ret, opt. rewrite Hp. cbn. rewrite Hin. cbn.
    rewrite aset_is_Some by lia. cbn. rewrite (proj2 (Z.eqb_neq _ _)) by lia.
    rewrite aset_is_Some by (rewrite length_insert; lia). done.
  - cbn. by rewrite !length_insert.
  - cbn. done.
  - cbn. split; [done|]. eexists. rewrite aget_insert_eq by (rewrite length_insert; lia).
    split; [done|]. cbn. by repeat (apply free_chain_insert; [|done|lia]).
  - cbn. by constructor.
  - cbn. unfold w32. rewrite Z.mod_small; unfold INVALID32 in *; lia.
  - cbn. intros y q. destruct (decide (y = x)) as [->|Hne].
    + rewrite aget_insert_eq by (rewrite length_insert; lia). intros [= <-]. cbn. set_solver.
    + rewrite !aget_insert_ne by lia. intros Hq. rewrite (Hf _ _ Hq). set_solver.
  - cbn. by rewrite aget_insert_eq by (rewrite length_insert; lia).
  - cbn. intros y Hy. rewrite !aget_insert_ne by lia. done.
Qed.

Lemma free_twice pa fl x p :
  pages_wf pa fl -> aget (m_pages pa) x = Some p -> in_use p = false ->
  throws (free (Some x)) pa ERR_USER pa.
Proof.
  intros _ Hp Hin. unfold throws, free, bind, get, opt. rewrite Hp. cbn. by rewrite Hin.
Qed.

(** Writing a page in place keeps the free list, as long as the page is in
    use and stays in use. *)
Lemma page_upd_spec pa fl x p f :
  pages_wf pa fl -> aget (m_pages pa) x = Some p -> in_use p = true -> in_use (f p) = true ->
  exists pa', runs (page_upd x f) pa tt pa' /\ pages_wf pa' fl /\
    aget (m_pages pa') x = Some (f p) /\
    (forall y, y <> x -> aget (m_pages pa') y = aget (m_pages pa) y).
Proof.
  intros [Hlen Hnr Hc Hnd Hu Hf] Hp Hin Hin'.
  pose proof (aget_bounds _ _ _ Hp) as Hb.
  assert (Hx : x ∉ fl) by (rewrite <- (Hf _ _ Hp); congruence).
  eexists. split; [|split; [constructor|split]].
  - unfold runs, page_upd, bind, get, put, opt. rewrite Hp. cbn.
    by rewrite aset_is_Some by lia.
  - cbn. by rewrite length_insert.
  - cbn. done.
  - cbn. by apply free_chain_insert; [|done|lia].
  - cbn. done.
  - cbn. done.
  - cbn. intros y q. destruct (decide (y = x)) as [->|Hne].
    + rewrite aget_insert_eq by lia. intros [= <-]. split; [congruence|done].
    + rewrite aget_insert_ne by lia. apply Hf.
  - cbn. by rewrite aget_insert_eq by lia.
  - cbn. intros y Hy. rewrite aget_insert_ne by lia. done.
Qed.
End FreeList.

(** * Initialization *)
Lemma imap_aget {A B} (f : nat -> A -> B) (l : list A) i :
  aget (imap f l) i = f (Z.to_nat i) <$> aget l i.
Proof. unfold aget. destruct (0 <=? i); [|done]. by rewrite list_lookup_imap. Qed.

Lemma free_chain_range ps (n k : Z) : 0 <= k <= n -> n < INVALID32 ->
  (forall x, 0 <= x < n -> exists p, aget ps x = Some p /\
     free_link p = if x =? n - 1 then INVALID32 else x + 1) ->
  free_chain ps (if k =? n then INVALID32 else k) (range k n).
Proof.
  intros Hk Hn Hps. remember (Z.to_nat (n - k)) as d eqn:Hd. revert k Hk Hd.
  induction d as [|d IH]; intros k Hk Hd.
  - rewrite range_nil by lia. by rewrite (proj2 (Z.eqb_eq _ _)) by lia.
  - rewrite range_cons by lia. rewrite (proj2 (Z.eqb_neq _ _)) by lia. cbn. split; [done|].
    destruct (Hps k) as (p & Hp & Hl); [lia|]. exists p. split; [done|]. rewrite Hl.
    replace (k =? n - 1) with (k + 1 =? n); [apply IH; lia|].
    apply Bool.eq_iff_eq_true. rewrite !Z.eqb_eq. lia.
Qed.

Lemma pages_Init_wf pa :
  Z.of_nat (length (m_pages pa)) = m_page_nr pa -> 0 < m_page_nr pa < INVALID32 ->
  pages_wf (pages_Init pa) (range 0 (m_page_nr pa)).
Proof.
  intros Hlen Hnr. set (n := m_page_nr pa) in *.
  assert (Hps : forall x, 0 <= x < n -> exists p, aget (m_pages (pages_Init pa)) x = Some p /\
    free_link p = (if x =? n - 1 then INVALID32 else x + 1) /\ in_use p = false).
  { intros x Hx. destruct (aget_is_Some (m_pages pa) x) as [p Hp]; [lia|].
    assert (Hi : aget (imap (fun ii p => set_in_use false (set_free_link (Z.of_nat ii + 1) p)) (m_pages pa)) x
      = Some (set_in_use false (set_free_link (x + 1) p))).
    { rewrite imap_aget, Hp. cbn. by rewrite Z2Nat.id by lia. }
    apply aget_Some in Hi as [_ Hi]. cbn. fold n. destruct (Z.eqb_spec x (n - 1)) as [->|Hne].
    - eexists. rewrite aget_Some. split; [split; [lia|]|].
      + by rewrite list_lookup_alter_eq, Hi.
      + done.
    - eexists. rewrite aget_Some. split; [split; [lia|]|].
      + rewrite list_lookup_alter_ne by lia. exact Hi.
      + done. }
  constructor.
  - cbn. by rewrite length_alter, length_imap.
  - done.
  - pose proof (free_chain_range (m_pages (pages_Init pa)) n 0) as H.
    rewrite (proj2 (Z.eqb_neq 0 n)) in H by lia. apply H; [lia|lia|].
    intros x Hx. destruct (Hps x Hx) as (p & Hp & Hl & _). by exists p.
  - apply NoDup_seqZ.
  - cbn. fold n. unfold range. rewrite length_seqZ. lia.
  - intros x p Hp. pose proof (aget_bounds _ _ _ Hp) as Hb. cbn in Hb.
    rewrite length_alter, length_imap in Hb. rewrite elem_of_range.
    destruct (Hps x) as (q & Hq & _ & Hu); [lia|]. split; [lia|]. intros _. congruence.
Qed.

(** A test of well-formedness for the allocators whose free pages are the last
    ones, in order. *)
Fixpoint chain_test (ps : list CPageInfo) (h : Z) (fl : list Z) : bool :=
  match fl with
  | [] => h =? INVALID32
  | x :: fl' => (h =? x) && match aget ps x with Some p => chain_test ps (free_link p) fl' | None => false end
  end.
Definition pages_test (pa : CPageAllocator) (n : Z) : bool :=
  (Z.of_nat (length (m_pages pa)) =? m_page_nr pa) && (0 <? m_page_nr pa) && (m_page_nr pa <? INVALID32) &&
  (0 <=? n) && (n <=? m_page_nr pa) && (m_used_nr pa =? n) &&
  chain_test (m_pages pa) (m_free_ptr pa) (range n (m_page_nr pa)) &&
  forallb (fun x => match aget (m_pages pa) x with Some p => Bool.eqb (in_use p) (x <? n) | None => false end)
    (range 0 (m_page_nr pa)).
Lemma chain_test_sound ps fl : forall h, chain_test ps h fl = true -> free_chain ps h fl.
Proof.
  induction fl as [|x fl IH]; intros h; cbn; [by intros ?%Z.eqb_eq|].
  intros [->%Z.eqb_eq H]%andb_true_iff. split; [done|]. destruct (aget ps x) as [p|]; [|done].
  exists p. split; [done|]. by apply IH.
Qed.
Lemma pages_test_sound pa n : pages_test pa n = true -> pages_wf pa (range n (m_page_nr pa)).
Proof.
  unfold pages_test. rewrite !andb_true_iff, !Z.eqb_eq, !Z.ltb_lt, !Z.leb_le.
  intros (((((((H1 & H2) & H3) & H4) & H5) & H6) & H7) & H8). constructor; [done|lia| | | |].
  - by apply chain_test_sound.
  - unfold range. apply NoDup_seqZ.
  - unfold range. rewrite length_seqZ. lia.
  - intros x p Hp. pose proof (aget_bounds _ _ _ Hp) as Hb. rewrite forallb_forall in H8.
    specialize (H8 x). rewrite Hp in H8. rewrite elem_of_range.
    assert (Bool.eqb (in_use p) (x <? n) = true) as E%eqb_prop.
    { apply H8, list_elem_of_In, elem_of_range. lia. }
    rewrite E. destruct (Z.ltb_spec x n); naive_solver lia.
Qed.

(** * The allocator as a stack of free pages

    A client allocates a page, gives one back, or writes to one it holds. *)
Inductive page_cmd := PgAlloc | PgFree (index : Z) | PgWrite (index : Z) (d : BLOCK_DATA).

Definition page_step (c : page_cmd) : M CPageAllocator (option Z) :=
  match c with
  | PgAlloc => x <- allocate ;; ret (Some x)
  | PgFree index => pa <- get ;; free (page index pa) ;;; ret None
  | PgWrite index d =>
      p <- page_at index ;; check (in_use p) ;;; page_upd index (set_data d) ;;; ret None
  end.
(** The specification knows the number of pages and the free ones. *)
Definition stack_step (n : Z) (c : page_cmd) : M (list Z) (option Z) :=
  match c with
  | PgAlloc =>
      fl <- get ;;
      match fl with [] => throw ERR_APP | x :: fl' => put fl' ;;; ret (Some x) end
  | PgFree index =>
      fl <- get ;;
      if n <=? index then throw ERR_USER
      else check (0 <=? index) ;;;
           if decide (index ∈ fl) then throw ERR_USER else put (index :: fl) ;;; ret None
  | PgWrite index _ =>
      fl <- get ;;
      check ((0 <=? index) && (index <? n)) ;;;
      check (negb (bool_decide (index ∈ fl))) ;;; ret None
  end.
Fixpoint page_outcomes {W} (step : page_cmd -> M W (option Z)) (l : list page_cmd) (w : W)
    : list (outcome (option Z)) :=
  match l with
  | [] => []
  | c :: l' =>
      let '(r, w') := step c w in
      r :: match r with Fault => [] | _ => page_outcomes step l' w' end
  end.

Lemma page_aget pa fl x : pages_wf pa fl -> aget (m_pages pa) x = None <-> ~ (0 <= x < m_page_nr pa).
Proof. intros H. by rewrite aget_None, (pw_len _ _ H). Qed.

Lemma page_nr_const pa c r pa' : page_step c pa = (r, pa') -> r <> Fault -> m_page_nr pa' = m_page_nr pa.
Proof.
  destruct c as [|x|x d]; cbn; unfold bind, get, allocate, allocate_index, free, page_at, page_upd,
    opt, check, put, throw, ret, page, fault.
  all: repeat (case_match; cbn in *; simplify_eq); try done; intros; simplify_eq; done.
Qed.

Lemma page_step_sim n pa fl c : pages_wf pa fl -> m_page_nr pa = n ->
  exists r pa' fl', page_step c pa = (r, pa') /\ stack_step n c fl = (r, fl') /\
    (r = Fault \/ pages_wf pa' fl').
Proof.
  intros H Hn. destruct c as [|x|x d]; cbn [page_step stack_step]; unfold bind at 1.
  - destruct fl as [|x fl].
    + rewrite (allocate_full _ H). eexists _, _, _. split_and!; [done|done|by right].
    + destruct (allocate_spec _ _ _ H) as (pa' & E & H' & _). rewrite E.
      eexists _, _, _. split_and!; [done|done|by right].
  - cbn. unfold page. rewrite Hn. destruct (Z.leb_spec n x) as [Hx|Hx].
    + eexists _, _, _. split_and!; [done|done|by right].
    + unfold bind, check. destruct (Z.leb_spec 0 x) as [H0|H0]; cycle 1.
      { eexists _, _, _. split_and!; [|done|by left]. cbn. unfold bind, get, opt.
        by rewrite (proj2 (page_aget _ _ x H)) by lia. }
      destruct (aget_is_Some (m_pages pa) x) as [p Hp]; [rewrite (pw_len _ _ H); lia|].
      pose proof (pw_free _ _ H x p Hp) as Hf. cbn [ret]. destruct (in_use p) eqn:Hu.
      * destruct (free_spec _ _ _ _ H Hp Hu) as (pa' & E & H' & _). rewrite E.
        rewrite decide_False by naive_solver. eexists _, _, _. split_and!; [done|done|by right].
      * rewrite (free_twice _ _ _ _ H Hp Hu). rewrite decide_True by naive_solver.
        eexists _, _, _. split_and!; [done|done|by right].
  - unfold page_at, bind, check, get, opt. destruct (aget (m_pages pa) x) as [p|] eqn:Hp.
    + pose proof (aget_bounds _ _ _ Hp) as Hb. rewrite (pw_len _ _ H), Hn in Hb.
      rewrite (proj2 (Z.leb_le 0 x)), (proj2 (Z.ltb_lt x n)) by lia. unfold ret. cbn [andb].
      pose proof (pw_free _ _ H x p Hp) as Hf. destruct (in_use p) eqn:Hu.
      * rewrite bool_decide_false by naive_solver.
        destruct (page_upd_spec _ _ _ _ (set_data d) H Hp Hu Hu) as (pa' & E & H' & _).
        unfold runs in E. rewrite E. eexists _, _, _. split_and!; [done|done|by right].
      * rewrite bool_decide_true by naive_solver. eexists _, _, _. split_and!; [done|done|by left].
    + apply (page_aget _ _ _ H) in Hp. rewrite Hn in Hp.
      assert ((0 <=? x) && (x <? n) = false) as ->.
      { apply not_true_iff_false. intros [?%Z.leb_le ?%Z.ltb_lt]%andb_true_iff. lia. }
      eexists _, _, _. split_and!; [done|done|by left].
Qed.

Lemma page_outcomes_sim n l : forall pa fl, pages_wf pa fl -> m_page_nr pa = n ->
  page_outcomes page_step l pa = page_outcomes (stack_step n) l fl.
Proof.
  induction l as [|c l IH]; intros pa fl H Hn; [done|]. cbn [page_outcomes].
  destruct (page_step_sim n pa fl c H Hn) as (r & pa' & fl' & E1 & E2 & Hr). rewrite E1, E2.
  f_equal. destruct r as [o|e|]; [| |done]; (destruct Hr as [|Hr]; [done|]); apply IH;
    [done| |done|]; by rewrite (page_nr_const _ _ _ _ E1).
Qed.

(** C18: the page allocator refines a stack of free pages.  From the state [Init]
    leaves, whatever it was before, every sequence of allocations, frees and
    writes has the outcomes of the stack: an allocation never returns a page
    in use, it throws when and only when all are, the page freed last is
    reused first, freeing a free page or the null page throws, and writing the
    pages in use, whose block shares its memory with the link, breaks nothing. *)
Theorem allocator_refines_stack pa l :
  Z.of_nat (length (m_pages pa)) = m_page_nr pa -> 0 < m_page_nr pa < INVALID32 ->
  page_outcomes page_step l (pages_Init pa) =
  page_outcomes (stack_step (m_page_nr pa)) l (range 0 (m_page_nr pa)).
Proof. intros Hl Hn. apply page_outcomes_sim; [by apply pages_Init_wf|done]. Qed.

Lemma allocator_refines_stack_witness :
  let pa := mkPages (rep 2 page_local) 7 9 2 in
  let l := [PgAlloc; PgAlloc; PgWrite 0 (mkBlock 1 U_zero); PgAlloc; PgFree 1; PgFree 1; PgFree 5;
            PgFree 0; PgAlloc] in
  page_outcomes page_step l (pages_Init pa) = page_outcomes (stack_step 2) l (range 0 2) /\
  page_outcomes (stack_step 2) l (range 0 2) =
    [Ret (Some 0); Ret (Some 1); Ret None; Throw ERR_APP; Ret None; Throw ERR_USER; Throw ERR_USER;
     Ret None; Ret (Some 0)].
Proof.
  split; [|by vm_compute]. apply (allocator_refines_stack (mkPages (rep 2 page_local) 7 9 2)).
  - by vm_compute.
  - by vm_compute.
Defined.
