(* ===== verification/Storage.v ===== *)
(** Storage: the simulated medium, storage.h and storage.cpp.

    Every write allocates a [StorageDataBase]; the nodes are shared, through
    reference counts, by all the storages cloned from one another.  The state
    of an operation is the shared pool ([StorageDataManager], with the heap its
    nodes live in) together with one storage. *)
From S2P Require Export Blocks.

Notation ptr := (option positive).

Record StorageDataBase := mkSData {
  sd_data : BLOCK_DATA; pre_ver : ptr; pre_write : ptr; m_ref : Z; sd_lba : Z
}.
(** [heap] is the memory of the buffers, [next] the first address never used. *)
Record StorageDataManager := mkMgr {
  heap : gmap positive StorageDataBase; next : positive;
  sm_free_nr : Z; sm_free_list : ptr
}.
Record CStorage := mkStorage {
  m_data : list ptr; m_cache_tail : ptr; m_cache_nr : Z;
  m_begin_cache_nr : Z; m_begin_cache : ptr
}.

Definition STORAGE_DATA_ALLOCATE_SIZE : positive := 4096.

(** * The pool of nodes *)

Definition manager_new : StorageDataManager := mkMgr ∅ 1 0 None.

Definition node_at (p : positive) : M StorageDataManager StorageDataBase :=
  m <- get ;; opt (heap m !! p).
Definition node_set (p : positive) (d : StorageDataBase) : M StorageDataManager unit :=
  modify (fun m => mkMgr (<[p := d]> (heap m)) (next m) (sm_free_nr m) (sm_free_list m)).

(** The nodes of a fresh buffer, each linked to the one after it. *)
Fixpoint link_buffer (n : nat) (p : positive) (last : ptr)
    (h : gmap positive StorageDataBase) : gmap positive StorageDataBase :=
  match n with
  | O => h
  | S n' =>
      let d := mkSData (mkBlock BLOCK_FREE U_ff)
                 (if decide (n' = O) then last else Some (Pos.succ p)) None 1 INVALID16 in
      link_buffer n' (Pos.succ p) last (<[p := d]> h)
  end.

Definition AllocateBuffer : M StorageDataManager unit :=
  modify (fun m =>
    mkMgr (link_buffer (Pos.to_nat STORAGE_DATA_ALLOCATE_SIZE) (next m) (sm_free_list m) (heap m))
      (next m + STORAGE_DATA_ALLOCATE_SIZE)
      (sm_free_nr m + Z.pos STORAGE_DATA_ALLOCATE_SIZE) (Some (next m))).

(** [StorageDataManager::get] *)
Definition sm_get : M StorageDataManager positive :=
  m <- get ;;
  when (sm_free_nr m =? 0) AllocateBuffer ;;;
  m <- get ;;
  sdata <- opt (sm_free_list m) ;;
  d <- node_at sdata ;;
  put (mkMgr (heap m) (next m) (sm_free_nr m - 1) (pre_ver d)) ;;;
  node_set sdata (mkSData (sd_data d) None (pre_write d) 1 (sd_lba d)) ;;;
  ret sdata.

Definition Reclaim (sdata : positive) : M StorageDataManager unit :=
  m <- get ;;
  d <- node_at sdata ;;
  node_set sdata (mkSData (sd_data d) (sm_free_list m) None (m_ref d) INVALID16) ;;;
  modify (fun m => mkMgr (heap m) (next m) (sm_free_nr m + 1) (Some sdata)).

(** [InterlockedDecrement(&p->m_ref)] *)
Definition dec_ref (p : positive) : M StorageDataManager Z :=
  d <- node_at p ;;
  node_set p (mkSData (sd_data d) (pre_ver d) (pre_write d) (m_ref d - 1) (sd_lba d)) ;;;
  ret (m_ref d - 1).
Definition AddRef (p : positive) : M StorageDataManager unit :=
  d <- node_at p ;;
  node_set p (mkSData (sd_data d) (pre_ver d) (pre_write d) (m_ref d + 1) (sd_lba d)).

(** The loop of [put]: release the versions that nothing else refers to. *)
Definition put_loop (fuel : nat) (pre : ptr) : M StorageDataManager ptr :=
  mwhile fuel pre (fun pre =>
    match pre with
    | None => ret (Break None)
    | Some cur =>
        rr <- dec_ref cur ;;
        if negb (rr =? 0) then ret (Break (Some cur)) else
        d <- node_at cur ;;
        Reclaim cur ;;;
        ret (Next (pre_ver d))
    end).

(** [StorageDataManager::put].  Each iteration of the loop recycles a node, so
    there are at most as many as there are nodes. *)
Definition sm_put (sdata : positive) : M StorageDataManager unit :=
  ref <- dec_ref sdata ;;
  when (ref =? 0) (
    d <- node_at sdata ;;
    m <- get ;;
    put_loop (Datatypes.S (size (heap m))) (pre_ver d) ;;;
    Reclaim sdata).

(** * A storage *)

Definition StorageState : Type := StorageDataManager * CStorage.
Definition on_mgr {A} : M StorageDataManager A -> M StorageState A :=
  zoom fst (fun m s => (m, s.2)).
Definition set_storage (c : CStorage) : M StorageState unit := modify (fun s => (s.1, c)).

(** [CStorage::Initialize] *)
Definition storage_new : CStorage := mkStorage (rep TOTAL_BLOCK_NR None) None 0 0 None.
Definition storage_Initialize : M StorageState unit := set_storage storage_new.

Definition BlockWrite (lba : Z) (block : BLOCK_DATA) : M StorageState unit :=
  check ((0 <=? lba) && (lba <? TOTAL_BLOCK_NR)) ;;;
  p <- on_mgr sm_get ;;
  s <- get ;;
  let c := s.2 in
  old <- opt (aget (m_data c) lba) ;;
  on_mgr (node_set p (mkSData block old (m_cache_tail c) 1 lba)) ;;;
  m_data' <- opt (aset (m_data c) lba (Some p)) ;;
  set_storage (mkStorage m_data' (Some p) (w32 (m_cache_nr c + 1))
                 (m_begin_cache_nr c) (m_begin_cache c)).

Definition BlockRead (lba : Z) : M StorageState BLOCK_DATA :=
  s <- get ;;
  p <- opt (aget (m_data s.2) lba) ;;
  match p with
  | None => throw (FsError ERR_READ_NO_MAPPING_DATA)
  | Some p =>
      d <- on_mgr (node_at p) ;;
      if negb (sd_lba d =? lba) then throw (FsError ERR_PHYSICAL_ADD_NOMATCH)
      else ret (sd_data d)
  end.

Definition GetCacheNum : M StorageState Z :=
  s <- get ;;
  check (m_begin_cache_nr s.2 <=? m_cache_nr s.2) ;;;
  ret (w16 (m_cache_nr s.2 - m_begin_cache_nr s.2)).
Definition GetMediaWriteNum (s : StorageState) : Z := m_cache_nr s.2.

(** One iteration of [Rollback]: undo the last write. *)
Definition Rollback_one : M StorageState unit :=
  s <- get ;;
  let c := s.2 in
  p <- opt (m_cache_tail c) ;;
  d <- on_mgr (node_at p) ;;
  let nr := w32 (m_cache_nr c - 1) in
  let c1 := mkStorage (m_data c) (pre_write d) nr
              (if nr <? m_begin_cache_nr c then nr else m_begin_cache_nr c)
              (m_begin_cache c) in
  set_storage c1 ;;;
  let lba := sd_lba d in
  if is_invalid16 lba then ret tt else
  if TOTAL_BLOCK_NR <=? lba then throw (FsError ERR_PHYSICAL_ADD_NOMATCH) else
  m_data' <- opt (aset (m_data c) lba (pre_ver d)) ;;
  set_storage (mkStorage m_data' (m_cache_tail c1) (m_cache_nr c1)
                 (m_begin_cache_nr c1) (m_begin_cache c1)) ;;;
  match pre_ver d with Some q => on_mgr (AddRef q) | None => ret tt end ;;;
  on_mgr (sm_put p).

(** The parameter is an [LBLK_T]: the caller's count loses its high bits. *)
Definition Rollback (nr : Z) : M StorageState unit :=
  let nr := w16 nr in
  s <- get ;;
  if m_cache_nr s.2 <? nr then throw ERR_APP else
  mfor (range 0 nr) (fun _ => Rollback_one).

(** Release or share the node of every block. *)
Definition release_all (l : list ptr) : M StorageDataManager unit :=
  mfor l (fun p => match p with Some p => sm_put p | None => ret tt end).
Definition addref_all (l : list ptr) : M StorageDataManager unit :=
  mfor l (fun p => match p with Some p => AddRef p | None => ret tt end).

(** [CStorage::CopyFrom] *)
Definition CopyFrom (src : CStorage) : M StorageState unit :=
  s <- get ;;
  on_mgr (release_all (m_data s.2)) ;;;
  on_mgr (addref_all (m_data src)) ;;;
  set_storage (mkStorage (m_data src) (m_cache_tail src) (m_cache_nr src)
                 (m_cache_nr src) (m_cache_tail src)).

(** [CStorage::~CStorage] *)
Definition storage_destroy : M StorageState unit :=
  s <- get ;; on_mgr (release_all (m_data s.2)).
