(* ===== verification/StorageRc.v ===== *)
(** StorageRc: the reference counts of the shared pool are exact.  A node is
    live when a root (an entry of some storage's [m_data]) or a live node's
    [pre_ver] refers to it, and its count is the number of such references;
    every other node is on the free list. *)
From S2P Require Export Storage.

(** * The invariant *)

(** The reference a node holds on the version before it. *)
Definition pv (h : gmap positive StorageDataBase) (y : positive) : list positive :=
  match h !! y with Some d => option_list (pre_ver d) | None => [] end.
Definition refs (h : gmap positive StorageDataBase) (R L : list positive) : list positive :=
  R ++ (L ≫= pv h).

Fixpoint node_chain (h : gmap positive StorageDataBase) (p : ptr) (fl : list positive) : Prop :=
  match fl with
  | [] => p = None
  | x :: fl' => p = Some x /\ exists d, h !! x = Some d /\ node_chain h (pre_ver d) fl'
  end.

(** [R]: the roots; [L]: the live nodes; [X]: nodes being released; [fl]: the
    free list. *)
Record rc_inv (m : StorageDataManager) (R L X fl : list positive) : Prop := {
  rc_nodup : NoDup (L ++ X ++ fl);
  rc_live x : x ∈ L -> exists d, heap m !! x = Some d /\
                 m_ref d = cnt x (refs (heap m) R L) /\ 0 < m_ref d;
  rc_limbo x : x ∈ X -> is_Some (heap m !! x);
  rc_closed x : x ∈ refs (heap m) R L -> x ∈ L;
  rc_free : node_chain (heap m) (sm_free_list m) fl;
  rc_nr : sm_free_nr m = Z.of_nat (length fl);
  rc_next x : is_Some (heap m !! x) -> (x < next m)%positive
}.

(** Two states of a node that differ in the count only. *)
Definition same_core (d d' : StorageDataBase) : Prop :=
  sd_data d' = sd_data d /\ pre_ver d' = pre_ver d /\
  pre_write d' = pre_write d /\ sd_lba d' = sd_lba d.
Definition kept (L : list positive) (m m' : StorageDataManager) : Prop :=
  forall x, x ∈ L -> exists d d', heap m !! x = Some d /\ heap m' !! x = Some d' /\ same_core d d'.

Lemma same_core_refl d : same_core d d.
Proof. by unfold same_core. Qed.
Lemma same_core_trans d1 d2 d3 : same_core d1 d2 -> same_core d2 d3 -> same_core d1 d3.
Proof. unfold same_core. intros (?&?&?&?) (?&?&?&?). split_and!; congruence. Qed.

Lemma kept_trans L L' m1 m2 m3 : L' ⊆ L -> kept L m1 m2 -> kept L' m2 m3 -> kept L' m1 m3.
Proof.
  intros Hs H1 H2 x Hx. destruct (H1 x (Hs _ Hx)) as (d1 & d2 & E1 & E2 & C1).
  destruct (H2 x Hx) as (d2' & d3 & E2' & E3 & C2). simplify_eq.
  exists d1, d3. split_and!; [done|done|by eapply same_core_trans].
Qed.

Lemma rc_kept_refl m R L X fl : rc_inv m R L X fl -> kept L m m.
Proof.
  intros H x Hx. destruct (rc_live _ _ _ _ _ H x Hx) as (d & Hd & _).
  exists d, d. split_and!; [done|done|apply same_core_refl].
Qed.

(** [pv] depends on the heap at the node only. *)
Lemma pv_insert_same h x d d' y :
  h !! x = Some d -> pre_ver d' = pre_ver d -> pv (<[x := d']> h) y = pv h y.
Proof.
  intros Hx Hp. unfold pv. destruct (decide (y = x)) as [->|Hne].
  - by rewrite lookup_insert_eq, Hx, Hp.
  - by rewrite lookup_insert_ne.
Qed.
Lemma bind_pv_insert_same h x d d' L :
  h !! x = Some d -> pre_ver d' = pre_ver d -> L ≫= pv (<[x := d']> h) = L ≫= pv h.
Proof.
  intros Hx Hp. apply list_bind_ext; [|done]. intros y. by eapply pv_insert_same.
Qed.
Lemma pv_insert_notin h x d L : x ∉ L -> L ≫= pv (<[x := d]> h) = L ≫= pv h.
Proof.
  induction L as [|y L IH]; [done|]. intros Hx. cbn.
  rewrite IH by set_solver. f_equal. unfold pv. by rewrite lookup_insert_ne by set_solver.
Qed.

Lemma node_chain_insert h p fl x d :
  node_chain h p fl -> x ∉ fl -> node_chain (<[x := d]> h) p fl.
Proof.
  revert p. induction fl as [|y fl IH]; intros p; cbn; [done|].
  intros [-> (e & He & Hc)] Hx. split; [done|]. exists e.
  rewrite lookup_insert_ne by set_solver. split; [done|]. apply IH; set_solver.
Qed.
Lemma node_chain_in h p fl x : node_chain h p fl -> x ∈ fl -> is_Some (h !! x).
Proof.
  revert p. induction fl as [|y fl IH]; intros p; cbn; [set_solver|].
  intros [-> (e & He & Hc)] [->|Hx]%elem_of_cons; [by exists e|by eapply IH].
Qed.

Lemma refs_perm h R R' L L' : R ≡ₚ R' -> L ≡ₚ L' -> refs h R L ≡ₚ refs h R' L'.
Proof. intros H1 H2. unfold refs. by rewrite H1, H2. Qed.

Lemma rc_inv_perm m R R' L L' X fl :
  R ≡ₚ R' -> L ≡ₚ L' -> rc_inv m R L X fl -> rc_inv m R' L' X fl.
Proof.
  intros H1 H2 [Hnd Hl Hx Hc Hf Hn Hnx].
  pose proof (refs_perm (heap m) _ _ _ _ H1 H2) as Hp.
  constructor; [by rewrite <- H2| |done| |done|done|done].
  - intros x HxL. rewrite <- H2 in HxL. destruct (Hl x HxL) as (d & Hd & Hr & H0).
    exists d. by rewrite <- (cnt_perm _ _ _ Hp).
  - intros x. rewrite <- Hp, <- H2. apply Hc.
Qed.

(** * The primitive steps *)

(** Change the count of a live node. *)
Definition with_ref (r : Z) (d : StorageDataBase) : StorageDataBase :=
  mkSData (sd_data d) (pre_ver d) (pre_write d) r (sd_lba d).
Definition set_node (p : positive) (d : StorageDataBase) (m : StorageDataManager) :=
  mkMgr (<[p := d]> (heap m)) (next m) (sm_free_nr m) (sm_free_list m).

Lemma node_at_runs m p d : heap m !! p = Some d -> runs (node_at p) m d m.
Proof. intros Hd. unfold runs, node_at, bind, get, opt. by rewrite Hd. Qed.
Lemma dec_ref_runs m p d : heap m !! p = Some d ->
  runs (dec_ref p) m (m_ref d - 1) (set_node p (with_ref (m_ref d - 1) d) m).
Proof.
  intros Hd. unfold runs, dec_ref, node_at, node_set, bind, get, opt, modify. by rewrite Hd.
Qed.
Lemma AddRef_runs m p d : heap m !! p = Some d ->
  runs (AddRef p) m tt (set_node p (with_ref (m_ref d + 1) d) m).
Proof.
  intros Hd. unfold runs, AddRef, node_at, node_set, bind, get, opt, modify. by rewrite Hd.
Qed.

Lemma rc_set_ref m R R' L X fl p d r :
  rc_inv m R L X fl -> p ∈ L -> heap m !! p = Some d ->
  (forall x, x ∈ refs (heap m) R' L -> x ∈ L) ->
  (forall x, x <> p -> cnt x (refs (heap m) R' L) = cnt x (refs (heap m) R L)) ->
  r = cnt p (refs (heap m) R' L) -> 0 < r ->
  rc_inv (set_node p (with_ref r d) m) R' L X fl.
Proof.
  intros [Hnd Hl Hx Hc Hf Hn Hnx] Hp Hd Hc' Hne Hr Hr0.
  assert (Hrefs : refs (heap (set_node p (with_ref r d) m)) R' L = refs (heap m) R' L).
  { unfold refs. cbn. by rewrite (bind_pv_insert_same _ _ _ _ _ Hd). }
  constructor; [done| | | | |done|].
  - intros x HxL. rewrite Hrefs. cbn. destruct (decide (x = p)) as [->|Hne'].
    + rewrite lookup_insert_eq. by eexists.
    + rewrite lookup_insert_ne by done. rewrite Hne by done. by apply Hl.
  - intros x HxX. cbn. destruct (decide (x = p)) as [->|Hne'].
    + rewrite lookup_insert_eq. by eexists.
    + rewrite lookup_insert_ne by done. by apply Hx.
  - intros x. rewrite Hrefs. apply Hc'.
  - cbn. apply node_chain_insert; [done|]. apply NoDup_app in Hnd. set_solver.
  - intros x. cbn. destruct (decide (x = p)) as [->|Hne'].
    + intros _. apply Hnx. by eexists.
    + rewrite lookup_insert_ne by done. apply Hnx.
Qed.

(** Dropping a root whose node keeps other references. *)
Lemma rc_drop_some m R L X fl p d :
  rc_inv m (p :: R) L X fl -> heap m !! p = Some d -> m_ref d - 1 <> 0 ->
  rc_inv (set_node p (with_ref (m_ref d - 1) d) m) R L X fl.
Proof.
  intros H Hd Hr. assert (HpL : p ∈ L) by (apply (rc_closed _ _ _ _ _ H); set_solver).
  destruct (rc_live _ _ _ _ _ H p HpL) as (d' & Hd' & Hcnt & Hpos). simplify_eq.
  eapply rc_set_ref; [done..| | | |lia].
  - intros x Hx. apply (rc_closed _ _ _ _ _ H). set_solver.
  - intros x Hx. change (refs (heap m) (p :: R) L) with (p :: refs (heap m) R L).
    rewrite cnt_cons, decide_False by done. lia.
  - rewrite Hcnt. change (refs (heap m) (p :: R) L) with (p :: refs (heap m) R L).
    rewrite cnt_cons, decide_True by done. lia.
Qed.

(** Dropping the last reference: the node leaves the live ones, and the
    reference it holds becomes a root. *)
Lemma rc_drop_last m R L X fl p d :
  rc_inv m (p :: R) L X fl -> heap m !! p = Some d -> m_ref d - 1 = 0 ->
  exists L', L ≡ₚ p :: L' /\
    rc_inv (set_node p (with_ref (m_ref d - 1) d) m) (option_list (pre_ver d) ++ R) L' (p :: X) fl.
Proof.
  intros H Hd Hr. assert (HpL : p ∈ L) by (apply (rc_closed _ _ _ _ _ H); set_solver).
  apply elem_of_Permutation in HpL as [L' HL]. exists L'. split; [done|].
  apply (rc_inv_perm _ _ (p :: R) _ (p :: L')) in H; [|done|done].
  destruct H as [Hnd Hl Hx Hc Hf Hn Hnx].
  destruct (Hl p ltac:(set_solver)) as (d' & Hd' & Hcnt & Hpos). simplify_eq.
  assert (Hp : refs (heap m) (p :: R) (p :: L') ≡ₚ
               p :: refs (heap m) (option_list (pre_ver d) ++ R) L').
  { unfold refs. cbn. unfold pv at 1. rewrite Hd. solve_Permutation. }
  rewrite (cnt_perm _ _ _ Hp), cnt_cons, decide_True in Hcnt by done.
  assert (Hnot : p ∉ refs (heap m) (option_list (pre_ver d) ++ R) L') by (apply cnt_zero; lia).
  rewrite <- app_comm_cons in Hnd. apply NoDup_cons in Hnd as [HpN Hnd].
  set (m' := set_node p _ m).
  assert (Hrefs : refs (heap m') (option_list (pre_ver d) ++ R) L' =
                  refs (heap m) (option_list (pre_ver d) ++ R) L').
  { unfold refs, m'. cbn. by rewrite (bind_pv_insert_same _ _ _ _ _ Hd). }
  constructor.
  - rewrite <- app_comm_cons. apply NoDup_app in Hnd as (N1 & N2 & N3).
    apply NoDup_app. split_and!; [done|set_solver|apply NoDup_cons; set_solver].
  - intros x HxL. rewrite Hrefs. assert (x <> p) by set_solver. cbn.
    rewrite lookup_insert_ne by done. destruct (Hl x ltac:(set_solver)) as (e & He & Hce & Hpe).
    exists e. split_and!; [done| |done].
    rewrite Hce, (cnt_perm _ _ _ Hp), cnt_cons, decide_False by done. lia.
  - intros x. cbn. destruct (decide (x = p)) as [->|Hne].
    + rewrite lookup_insert_eq. by eexists.
    + rewrite lookup_insert_ne by done. intros [?|?]%elem_of_cons; [done|by apply Hx].
  - intros x. rewrite Hrefs. intros Hin. assert (x <> p) by set_solver.
    assert (x ∈ p :: L') as Hin'; [|set_solver]. apply Hc. rewrite Hp. set_solver.
  - cbn. apply node_chain_insert; [done|]. set_solver.
  - done.
  - intros x. cbn. destruct (decide (x = p)) as [->|Hne].
    + intros _. apply Hnx. by eexists.
    + rewrite lookup_insert_ne by done. apply Hnx.
Qed.

Lemma kept_set_ref m R L X fl p d r :
  rc_inv m R L X fl -> heap m !! p = Some d -> kept L m (set_node p (with_ref r d) m).
Proof.
  intros H Hd x Hx. destruct (rc_live _ _ _ _ _ H x Hx) as (e & He & _).
  destruct (decide (x = p)) as [->|Hne]; cbn.
  - simplify_eq. eexists _, _. split_and!; [done|by rewrite lookup_insert_eq|by repeat split].
  - exists e, e. rewrite lookup_insert_ne by done. split_and!; [done|done|apply same_core_refl].
Qed.

Lemma kept_sub L L' m m' : L' ⊆ L -> kept L m m' -> kept L' m m'.
Proof. intros Hs H x Hx. apply H, Hs, Hx. Qed.

(** A released node goes to the free list. *)
Lemma Reclaim_spec m R L X fl p :
  rc_inv m R L (p :: X) fl ->
  exists m', runs (Reclaim p) m tt m' /\ rc_inv m' R L X (p :: fl) /\ kept L m m'.
Proof.
  intros [Hnd Hl Hx Hc Hf Hn Hnx].
  destruct (Hx p ltac:(set_solver)) as [d Hd].
  pose proof Hnd as (N1 & N2 & N3)%NoDup_app. rewrite <- app_comm_cons in N3.
  apply NoDup_cons in N3 as [N4 N5].
  assert (HpL : p ∉ L) by set_solver.
  assert (HpX : p ∉ X) by set_solver.
  assert (Hpf : p ∉ fl) by set_solver.
  eexists. split; [|split; [constructor|]].
  - unfold runs, Reclaim, node_at, node_set, bind, get, opt, modify. by rewrite Hd.
  - assert (E : L ++ X ++ p :: fl ≡ₚ L ++ (p :: X) ++ fl).
    { apply Permutation_app_head. cbn. by rewrite Permutation_middle. }
    by rewrite E.
  - intros x HxL. cbn. rewrite lookup_insert_ne by set_solver.
    destruct (Hl x HxL) as (e & He & Hce & Hpe). exists e. split_and!; [done| |done].
    unfold refs. by rewrite pv_insert_notin.
  - intros x HxX. cbn. rewrite lookup_insert_ne by set_solver. apply Hx. set_solver.
  - intros x. cbn. unfold refs. rewrite pv_insert_notin by done. apply Hc.
  - cbn. split; [done|]. eexists. rewrite lookup_insert_eq. split; [done|]. cbn.
    by apply node_chain_insert.
  - cbn. lia.
  - intros x. cbn. destruct (decide (x = p)) as [->|Hne].
    + intros _. apply Hnx. by eexists.
    + rewrite lookup_insert_ne by done. apply Hnx.
  - intros x HxL. cbn. destruct (Hl x HxL) as (e & He & _). exists e, e.
    rewrite lookup_insert_ne by set_solver. split_and!; [done|done|apply same_core_refl].
Qed.

(** * Releasing a reference *)

Section Put.
Implicit Types (m : StorageDataManager) (R L X fl : list positive).

(** The loop needs at most one iteration per live node. *)
Lemma put_loop_spec fuel m pre R L X fl :
  rc_inv m (option_list pre ++ R) L X fl -> (length L < fuel)%nat ->
  exists m' r L' fl', runs (put_loop fuel pre) m r m' /\ rc_inv m' R L' X fl' /\
    L' ⊆ L /\ kept L' m m'.
Proof.
  revert m pre L fl. induction fuel as [|fuel IH]; intros m pre L fl H Hf; [lia|].
  unfold put_loop. cbn [mwhile]. fold (put_loop fuel).
  destruct pre as [p|]; cbn [option_list app] in H.
  2:{ exists m, None, L, fl. split_and!; [done|done|done|by eapply rc_kept_refl]. }
  assert (HpL : p ∈ L) by (apply (rc_closed _ _ _ _ _ H); set_solver).
  destruct (rc_live _ _ _ _ _ H p HpL) as (d & Hd & _).
  destruct (decide (m_ref d - 1 = 0)) as [H0|H0].
  - destruct (rc_drop_last _ _ _ _ _ _ _ H Hd H0) as (L1 & HL & H1).
    set (m1 := set_node p _ m) in H1.
    destruct (Reclaim_spec _ _ _ _ _ _ H1) as (m2 & Hr2 & H2 & K2).
    destruct (IH m2 (pre_ver d) L1 (p :: fl) H2) as (m3 & r & L3 & fl3 & Hr3 & H3 & Hs3 & K3).
    { rewrite HL in Hf. cbn in Hf. lia. }
    exists m3, r, L3, fl3. split_and!; [|done|rewrite HL; set_solver|].
    + eapply (runs_bind _ _ _ (Next (pre_ver d)) m2); [|exact Hr3].
      eapply runs_bind; [by apply dec_ref_runs|].
      rewrite (proj2 (Z.eqb_eq _ _) H0). cbn [negb].
      eapply (runs_bind _ _ _ (with_ref (m_ref d - 1) d)).
      { apply node_at_runs. subst m1. apply lookup_insert_eq. }
      by eapply runs_bind.
    + eapply kept_trans; [done| |done]. eapply kept_trans; [done| |done].
      eapply kept_sub; [|by eapply kept_set_ref]. rewrite HL. set_solver.
  - exists (set_node p (with_ref (m_ref d - 1) d) m), (Some p), L, fl.
    split_and!; [|by apply rc_drop_some|done|by eapply kept_set_ref].
    eapply (runs_bind _ _ _ (Break (Some p))); [|done].
    eapply runs_bind; [by apply dec_ref_runs|].
    by rewrite (proj2 (Z.eqb_neq _ _)) by done.
Qed.

Lemma live_le_heap m R L X fl : rc_inv m R L X fl -> (length L <= size (heap m))%nat.
Proof.
  intros [Hnd Hl Hx Hc Hf Hn Hnx]. rewrite <- size_dom.
  rewrite <- (size_list_to_set (C := gset positive) L) by (apply NoDup_app in Hnd; naive_solver).
  apply subseteq_size. intros x Hin%elem_of_list_to_set. apply elem_of_dom.
  destruct (Hl x Hin) as (d & Hd & _). by exists d.
Qed.

(** [put] gives up one reference and recycles exactly what became
    unreachable: the nodes still reachable keep their contents. *)
Lemma sm_put_spec m p R L fl :
  rc_inv m (p :: R) L [] fl ->
  exists m' L' fl', runs (sm_put p) m tt m' /\ rc_inv m' R L' [] fl' /\
    L' ⊆ L /\ kept L' m m'.
Proof.
  intros H. assert (HpL : p ∈ L) by (apply (rc_closed _ _ _ _ _ H); set_solver).
  destruct (rc_live _ _ _ _ _ H p HpL) as (d & Hd & _).
  destruct (decide (m_ref d - 1 = 0)) as [H0|H0].
  - destruct (rc_drop_last _ _ _ _ _ _ _ H Hd H0) as (L1 & HL & H1).
    set (m1 := set_node p _ m) in H1.
    destruct (put_loop_spec (Datatypes.S (size (heap m1))) _ _ _ _ _ _ H1)
      as (m2 & r & L2 & fl2 & Hr2 & H2 & Hs2 & K2).
    { pose proof (live_le_heap _ _ _ _ _ H1). lia. }
    destruct (Reclaim_spec _ _ _ _ _ _ H2) as (m3 & Hr3 & H3 & K3).
    exists m3, L2, (p :: fl2). split_and!; [|done|rewrite HL; set_solver|].
    + unfold sm_put. eapply runs_bind; [by apply dec_ref_runs|].
      rewrite (proj2 (Z.eqb_eq _ _) H0). cbn [when].
      eapply (runs_bind _ _ _ (with_ref (m_ref d - 1) d)).
      { apply node_at_runs. subst m1. apply lookup_insert_eq. }
      eapply (runs_bind _ _ _ m1); [done|]. eapply runs_bind; [exact Hr2|exact Hr3].
    + apply (kept_trans L2 L2 m m2 m3 ltac:(done)); [|exact K3].
      apply (kept_trans L2 L2 m m1 m2 ltac:(done)); [|exact K2].
      eapply kept_sub; [|by eapply kept_set_ref]. rewrite HL. set_solver.
  - exists (set_node p (with_ref (m_ref d - 1) d) m), L, fl.
    split_and!; [|by apply rc_drop_some|done|by eapply kept_set_ref].
    unfold sm_put. eapply runs_bind; [by apply dec_ref_runs|].
    by rewrite (proj2 (Z.eqb_neq _ _)) by done.
Qed.

Lemma AddRef_spec m p R L X fl :
  rc_inv m R L X fl -> p ∈ L ->
  exists m', runs (AddRef p) m tt m' /\ rc_inv m' (p :: R) L X fl /\ kept L m m'.
Proof.
  intros H HpL. destruct (rc_live _ _ _ _ _ H p HpL) as (d & Hd & Hcnt & Hpos).
  eexists. split_and!; [by apply AddRef_runs| |by eapply kept_set_ref].
  assert (forall x, cnt x (refs (heap m) (p :: R) L) =
            (if decide (p = x) then 1 else 0) + cnt x (refs (heap m) R L)) as Hc.
  { intros x. apply cnt_cons. }
  eapply rc_set_ref; [done..| | | |lia].
  - intros x. change (refs (heap m) (p :: R) L) with (p :: refs (heap m) R L).
    intros [->|Hx]%elem_of_cons; [done|]. by apply (rc_closed _ _ _ _ _ H).
  - intros x Hne. rewrite Hc, decide_False by done. lia.
  - rewrite Hc, decide_True by done. lia.
Qed.
End Put.

(** * Taking a node *)

Fixpoint addrs (n : nat) (p : positive) : list positive :=
  match n with O => [] | Datatypes.S n' => p :: addrs n' (Pos.succ p) end.

Lemma elem_of_addrs n p x :
  x ∈ addrs n p <-> Z.pos p <= Z.pos x < Z.pos p + Z.of_nat n.
Proof.
  revert p. induction n as [|n IH]; intros p; cbn [addrs]; [set_solver by lia|].
  rewrite elem_of_cons, IH. rewrite Pos2Z.inj_succ. split; [intros [->|?]; lia|].
  intros ?. destruct (decide (x = p)); [by left|right; lia].
Qed.
Lemma NoDup_addrs n p : NoDup (addrs n p).
Proof.
  revert p. induction n as [|n IH]; intros p; cbn [addrs]; [constructor|].
  apply NoDup_cons. split; [|done]. rewrite elem_of_addrs. lia.
Qed.
Lemma length_addrs n p : length (addrs n p) = n.
Proof. revert p. induction n as [|n IH]; intros p; cbn; [done|by rewrite IH]. Qed.

Lemma link_buffer_other n p last h x :
  x ∉ addrs n p -> link_buffer n p last h !! x = h !! x.
Proof.
  revert p h. induction n as [|n IH]; intros p h Hx; cbn in *; [done|].
  rewrite IH by set_solver. by rewrite lookup_insert_ne by set_solver.
Qed.
Lemma link_buffer_dom n p last h x :
  is_Some (link_buffer n p last h !! x) -> x ∈ addrs n p \/ is_Some (h !! x).
Proof.
  revert p h. induction n as [|n IH]; intros p h; cbn; [by right|].
  intros [Hx|Hx]%IH; [set_solver|]. destruct (decide (x = p)) as [->|Hne]; [set_solver|].
  rewrite lookup_insert_ne in Hx by done. by right.
Qed.
Lemma link_buffer_chain n p last h fl :
  node_chain h last fl -> (forall x, x ∈ fl -> (x < p)%positive) -> n <> O ->
  node_chain (link_buffer n p last h) (Some p) (addrs n p ++ fl).
Proof.
  revert p h. induction n as [|n IH]; intros p h Hc Hfl Hn; [done|]. cbn [addrs app link_buffer].
  set (h1 := <[p := _]> h). cbn [node_chain]. split; [done|].
  assert (Hc1 : node_chain h1 last fl).
  { apply node_chain_insert; [done|]. intros Hin%Hfl. lia. }
  eexists. split.
  - rewrite link_buffer_other by (rewrite elem_of_addrs; lia). by apply lookup_insert_eq.
  - cbn [pre_ver]. destruct (decide (n = O)) as [->|Hn']; [done|].
    apply IH; [done| |done]. intros x Hin%Hfl. lia.
Qed.

Lemma link_buffer_inv n m R L X nx :
  rc_inv m R L X [] -> n <> O -> Z.pos nx = Z.pos (next m) + Z.of_nat n ->
  let m' := mkMgr (link_buffer n (next m) (sm_free_list m) (heap m)) nx
              (sm_free_nr m + Z.of_nat n) (Some (next m)) in
  rc_inv m' R L X (addrs n (next m)) /\ kept L m m'.
Proof.
  intros [Hnd Hl Hx Hc Hf Hn Hnx] Hnn Hnx'.
  assert (Hold : forall x, is_Some (heap m !! x) -> x ∉ addrs n (next m)).
  { intros x Hs%Hnx. rewrite elem_of_addrs. lia. }
  assert (HL : forall x, x ∈ L -> is_Some (heap m !! x)).
  { intros x (d & Hd & _)%Hl. by exists d. }
  assert (Hsame : forall x, is_Some (heap m !! x) ->
            link_buffer n (next m) (sm_free_list m) (heap m) !! x = heap m !! x).
  { intros x Hs. apply link_buffer_other, Hold, Hs. }
  assert (Hbind : forall L0, (forall x, x ∈ L0 -> is_Some (heap m !! x)) ->
     L0 ≫= pv (link_buffer n (next m) (sm_free_list m) (heap m)) = L0 ≫= pv (heap m)).
  { induction L0 as [|y L0 IHL]; intros H; [done|]. cbn.
    rewrite IHL by (intros z Hz; apply H; by right). f_equal.
    unfold pv. by rewrite Hsame by (apply H; by left). }
  cbv zeta. split; [constructor|].
  - apply NoDup_app in Hnd as (N1 & N2 & N3). rewrite app_nil_r in N2, N3.
    rewrite app_assoc. apply NoDup_app. split_and!; [| |apply NoDup_addrs].
    + by apply NoDup_app.
    + intros x [HxL|HxX]%elem_of_app; [by apply Hold, HL|by apply Hold, Hx].
  - intros x HxL. cbn. rewrite Hsame by auto. unfold refs. rewrite Hbind by done. by apply Hl.
  - intros x HxX. cbn. rewrite Hsame by auto. by apply Hx.
  - intros x. cbn. unfold refs. rewrite Hbind by done. apply Hc.
  - cbn [heap sm_free_list]. rewrite <- (app_nil_r (addrs n (next m))).
    apply link_buffer_chain; [done|set_solver|done].
  - cbn [sm_free_nr]. rewrite length_addrs, Hn. cbn [length]. lia.
  - intros x. cbn [heap next]. intros [Hin|Hs]%link_buffer_dom.
    + apply elem_of_addrs in Hin. lia.
    + apply Hnx in Hs. lia.
  - intros x HxL. cbn. rewrite Hsame by auto. destruct (HL x HxL) as [d Hd]. exists d, d.
    split_and!; [done|done|apply same_core_refl].
Qed.

Lemma AllocateBuffer_spec m R L X :
  rc_inv m R L X [] ->
  exists m' fl, runs AllocateBuffer m tt m' /\ rc_inv m' R L X fl /\ fl <> [] /\ kept L m m'.
Proof.
  intros H. assert (Hn : exists n, Pos.to_nat STORAGE_DATA_ALLOCATE_SIZE = n) by eauto.
  destruct Hn as [n Hn]. pose proof (Pos2Nat.is_pos STORAGE_DATA_ALLOCATE_SIZE) as Hpos.
  destruct (link_buffer_inv n m R L X (next m + STORAGE_DATA_ALLOCATE_SIZE) H) as [H' K].
  { lia. }
  { rewrite <- Hn, positive_nat_Z. lia. }
  eexists _, _. split_and!; [|exact H'| |exact K].
  - unfold runs, AllocateBuffer, modify. by rewrite Hn, <- (positive_nat_Z STORAGE_DATA_ALLOCATE_SIZE), Hn.
  - intros Hnil%(f_equal length). rewrite length_addrs in Hnil. cbn in Hnil. lia.
Qed.

Lemma pop_free m R L X p fl :
  rc_inv m R L X (p :: fl) ->
  exists d m', heap m !! p = Some d /\
    m' = mkMgr (<[p := mkSData (sd_data d) None (pre_write d) 1 (sd_lba d)]> (heap m))
           (next m) (sm_free_nr m - 1) (pre_ver d) /\
    rc_inv m' R L (p :: X) fl /\ kept L m m'.
Proof.
  intros [Hnd Hl Hx Hc Hf Hn Hnx]. cbn in Hf. destruct Hf as [Hfl (d & Hd & Hf)].
  pose proof Hnd as (N1 & N2 & N3)%NoDup_app.
  assert (HpL : p ∉ L) by set_solver.
  pose proof N3 as (N4 & N5 & N6)%NoDup_app. apply NoDup_cons in N6 as [N6 N7].
  assert (HpX : p ∉ X) by set_solver.
  exists d. eexists. split; [done|]. split; [done|]. split; [constructor|].
  - assert (E : L ++ (p :: X) ++ fl ≡ₚ L ++ X ++ p :: fl).
    { apply Permutation_app_head. cbn. by rewrite Permutation_middle. }
    by rewrite E.
  - intros x HxL. cbn. rewrite lookup_insert_ne by set_solver.
    destruct (Hl x HxL) as (e & He & Hce & Hpe). exists e. split_and!; [done| |done].
    unfold refs. by rewrite pv_insert_notin.
  - intros x. cbn. destruct (decide (x = p)) as [->|Hne]; [rewrite lookup_insert_eq; by eexists|].
    rewrite lookup_insert_ne by done. intros HxX. apply Hx. set_solver.
  - intros x. cbn. unfold refs. rewrite pv_insert_notin by done. apply Hc.
  - cbn. by apply node_chain_insert.
  - cbn in *. lia.
  - intros x. cbn. destruct (decide (x = p)) as [->|Hne].
    + intros _. apply Hnx. by eexists.
    + rewrite lookup_insert_ne by done. apply Hnx.
  - intros x HxL. cbn. destruct (Hl x HxL) as (e & He & _). exists e, e.
    rewrite lookup_insert_ne by set_solver. split_and!; [done|done|apply same_core_refl].
Qed.

(** [get] hands out a node that nothing refers to. *)
Lemma sm_get_spec m R L fl :
  rc_inv m R L [] fl ->
  exists p m' fl', runs sm_get m p m' /\ rc_inv m' R L [p] fl' /\ kept L m m'.
Proof.
  intros H.
  assert (exists m1 p fl1, runs (when (sm_free_nr m =? 0) AllocateBuffer) m tt m1 /\
            rc_inv m1 R L [] (p :: fl1) /\ kept L m m1) as (m1 & p & fl1 & Hr1 & H1 & K1).
  { destruct fl as [|p fl].
    - destruct (AllocateBuffer_spec _ _ _ _ H) as (m1 & [|p fl1] & Hr & H1 & Hne & K); [done|].
      exists m1, p, fl1. rewrite (rc_nr _ _ _ _ _ H). done.
    - exists m, p, fl. rewrite (rc_nr _ _ _ _ _ H). cbn [length].
      rewrite (proj2 (Z.eqb_neq _ _)) by lia. split_and!; [done|done|by eapply rc_kept_refl]. }
  destruct (pop_free _ _ _ _ _ _ H1) as (d & m2 & Hd & -> & H2 & K2).
  eexists p, _, fl1. split_and!; [|done|by eapply kept_trans].
  unfold sm_get. eapply runs_bind; [done|]. eapply runs_bind; [done|].
  eapply runs_bind; [done|].
  pose proof (rc_free _ _ _ _ _ H1) as [-> _].
  unfold runs, node_at, node_set, bind, get, put, opt, modify, ret. by rewrite Hd.
Qed.

(** A node taken from the pool becomes live when a root starts to refer to it;
    the root it replaces becomes the node's reference on its old version. *)
Lemma rc_new m old R L p fl b tl lba :
  rc_inv m (option_list old ++ R) L [p] fl ->
  rc_inv (set_node p (mkSData b old tl 1 lba) m) (p :: R) (p :: L) [] fl /\
  kept L m (set_node p (mkSData b old tl 1 lba) m).
Proof.
  intros [Hnd Hl Hx Hc Hf Hn Hnx]. destruct (Hx p ltac:(set_solver)) as [d Hd].
  pose proof Hnd as (N1 & N2 & N3)%NoDup_app. cbn in N2, N3. apply NoDup_cons in N3 as [N4 N5].
  assert (HpL : p ∉ L) by set_solver.
  set (m' := set_node p _ m).
  assert (Hp : refs (heap m') (p :: R) (p :: L) ≡ₚ
               p :: refs (heap m) (option_list old ++ R) L).
  { unfold refs. cbn. unfold pv at 1. rewrite lookup_insert_eq. cbn.
    rewrite pv_insert_notin by done. constructor. solve_Permutation. }
  split; [constructor|].
  - cbn. apply NoDup_cons. split; [set_solver|]. apply NoDup_app. set_solver.
  - intros x Hin. rewrite (cnt_perm _ _ _ Hp), cnt_cons. cbn.
    destruct (decide (x = p)) as [->|Hne].
    + rewrite lookup_insert_eq, decide_True by done. eexists. split; [done|]. cbn.
      assert (Hnot : p ∉ refs (heap m) (option_list old ++ R) L) by (intros ?%Hc; done).
      rewrite cnt_pos in Hnot. pose proof (cnt_nonneg p (refs (heap m) (option_list old ++ R) L)).
      lia.
    + rewrite lookup_insert_ne, decide_False by done. apply Hl. set_solver.
  - set_solver.
  - intros x. rewrite Hp. intros [->|Hin]%elem_of_cons; [set_solver|].
    apply elem_of_cons. right. by apply Hc.
  - cbn. by apply node_chain_insert.
  - done.
  - intros x. cbn. destruct (decide (x = p)) as [->|Hne].
    + intros _. apply Hnx. by eexists.
    + rewrite lookup_insert_ne by done. apply Hnx.
  - intros x HxL. cbn. destruct (Hl x HxL) as (e & He & _). exists e, e.
    rewrite lookup_insert_ne by set_solver. split_and!; [done|done|apply same_core_refl].
Qed.
