(* ===== verification/StorageLog.v ===== *)
(** StorageLog: what a storage promises.  A storage is the log of the writes
    made to it, newest first: a read returns the newest write to its address,
    [Rollback n] forgets the [n] newest writes, and the storages that share
    the pool do not influence one another. *)
From S2P Require Export StorageRc.

Abbreviation wlog := (list (Z * BLOCK_DATA)).

(** * Specification *)

(** The block a log holds at an address. *)
Fixpoint log_read (lba : Z) (l : wlog) : option BLOCK_DATA :=
  match l with
  | [] => None
  | (a, b) :: l' => if a =? lba then Some b else log_read lba l'
  end.

Definition lba_ok (lba : Z) : Prop := 0 <= lba < TOTAL_BLOCK_NR.

(** What the rest of the simulator relies on. *)
Class BlockStore (St : Type) := {
  bs_write : Z -> BLOCK_DATA -> M St unit;
  bs_read : Z -> M St BLOCK_DATA;
  bs_rollback : Z -> M St unit;
  bs_initialize : M St unit;
  bs_cache_num : M St Z;
  bs_media_num : St -> Z
}.
Class BlockStoreLaws (St : Type) `{BlockStore St} := {
  bs_rep : St -> wlog -> Prop;
  bs_write_law s l lba b : bs_rep s l -> lba_ok lba ->
    exists s', runs (bs_write lba b) s tt s' /\ bs_rep s' ((lba, b) :: l);
  bs_read_law s l lba : bs_rep s l -> lba_ok lba ->
    bs_read lba s =
      (match log_read lba l with
       | Some b => Ret b
       | None => Throw (FsError ERR_READ_NO_MAPPING_DATA)
       end, s);
  bs_rollback_law s l n : bs_rep s l ->
    0 <= n <= Z.of_nat (length l) -> Z.of_nat (length l) < 2 ^ 32 -> n < 2 ^ 16 ->
    exists s', runs (bs_rollback n) s tt s' /\ bs_rep s' (drop (Z.to_nat n) l)
}.

(** * The shared pool implements it *)

(** The nodes of a storage, newest write first. *)
Abbreviation trail := (list (positive * (Z * BLOCK_DATA))).

Fixpoint newest (lba : Z) (t : trail) : ptr :=
  match t with
  | [] => None
  | (x, (a, _)) :: t' => if a =? lba then Some x else newest lba t'
  end.

Fixpoint trail_ok (h : gmap positive StorageDataBase) (tl : ptr) (t : trail) : Prop :=
  match t with
  | [] => tl = None
  | (x, (a, b)) :: t' =>
      tl = Some x /\ lba_ok a /\
      exists d, h !! x = Some d /\ sd_data d = b /\ sd_lba d = a /\
        pre_ver d = newest a t' /\ trail_ok h (pre_write d) t'
  end.

Record storage_rep (h : gmap positive StorageDataBase) (c : CStorage) (t : trail) : Prop := {
  sr_trail : trail_ok h (m_cache_tail c) t;
  sr_len : Z.of_nat (length (m_data c)) = TOTAL_BLOCK_NR;
  sr_data lba : lba_ok lba -> aget (m_data c) lba = Some (newest lba t);
  sr_nr : m_cache_nr c = w32 (Z.of_nat (length t))
}.

Definition roots (c : CStorage) : list positive := omap id (m_data c).

(** The pool shared by storages [cs] whose nodes are [ts]. *)
Definition pool_inv (m : StorageDataManager) (cs : list CStorage) (ts : list trail) : Prop :=
  Forall2 (storage_rep (heap m)) cs ts /\
  exists L fl, rc_inv m (cs ≫= roots) L [] fl.

Lemma newest_log lba t :
  (exists x b, newest lba t = Some x /\ (x, (lba, b)) ∈ t /\ log_read lba t.*2 = Some b) \/
  (newest lba t = None /\ log_read lba t.*2 = None).
Proof.
  induction t as [|[x [a b]] t IH]; cbn; [by right|].
  destruct (Z.eqb_spec a lba) as [->|Hne].
  - left. exists x, b. set_solver.
  - destruct IH as [(y & c & H1 & H2 & H3)|H]; [left|by right].
    exists y, c. set_solver.
Qed.

(** Every node of a trail is reachable from the newest nodes. *)
Lemma trail_reach h tl t (L : list positive) :
  trail_ok h tl t ->
  (forall x d y, x ∈ L -> h !! x = Some d -> pre_ver d = Some y -> y ∈ L) ->
  (forall lba x, newest lba t = Some x -> x ∈ L) ->
  forall x, x ∈ t.*1 -> x ∈ L.
Proof.
  revert tl. induction t as [|[x [a b]] t IH]; intros tl; cbn; [set_solver|].
  intros (-> & Ha & d & Hd & <- & <- & Hpv & Ht) Hcl Hnew.
  assert (HxL : x ∈ L) by (apply (Hnew (sd_lba d)); by rewrite Z.eqb_refl).
  intros y [->|Hy]%elem_of_cons; [done|].
  eapply IH; [exact Ht|exact Hcl| |exact Hy].
  intros lba z Hz. destruct (Z.eqb_spec (sd_lba d) lba) as [<-|Hne].
  - eapply Hcl; [exact HxL|exact Hd|congruence].
  - apply (Hnew lba). by rewrite (proj2 (Z.eqb_neq _ _)).
Qed.

Lemma trail_kept m m' tl t L :
  trail_ok (heap m) tl t -> (forall x, x ∈ t.*1 -> x ∈ L) -> kept L m m' ->
  trail_ok (heap m') tl t.
Proof.
  intros Ht HL K. revert tl Ht. induction t as [|[x [a b]] t IH]; intros tl; cbn; [done|].
  intros (-> & Ha & d & Hd & Hda & Hlb & Hpv & Ht).
  destruct (K x ltac:(set_solver)) as (d1 & d' & E1 & E2 & (C1 & C2 & C3 & C4)). simplify_eq.
  split_and!; [done..|]. exists d'. split_and!; [done|done|done|congruence|].
  rewrite C3. apply IH; [set_solver|done].
Qed.

Lemma newest_root c t h lba x :
  storage_rep h c t -> newest lba t = Some x -> x ∈ roots c.
Proof.
  intros Hr Hn.
  assert (lba_ok lba) as Hok.
  { pose proof (sr_trail _ _ _ Hr) as Ht. clear Hr. revert Ht Hn. generalize (m_cache_tail c).
    induction t as [|[y [a b]] t IH]; intros p; cbn; [done|].
    intros (_ & Ha & d & _ & _ & _ & _ & Ht).
    destruct (Z.eqb_spec a lba) as [<-|]; [done|]. by eapply IH. }
  pose proof (sr_data _ _ _ Hr lba Hok) as [_ Hl]%aget_Some. rewrite Hn in Hl.
  unfold roots. apply list_elem_of_omap. exists (Some x). split; [|done].
  by eapply list_elem_of_lookup_2.
Qed.

Lemma rc_pre_ver m R L X fl x d y :
  rc_inv m R L X fl -> x ∈ L -> heap m !! x = Some d -> pre_ver d = Some y -> y ∈ L.
Proof.
  intros H Hx Hd Hy. apply (rc_closed _ _ _ _ _ H). unfold refs. apply elem_of_app. right.
  apply list_elem_of_bind. exists x. split; [|done]. unfold pv. rewrite Hd, Hy. set_solver.
Qed.

(** The nodes of a storage are live when its roots are. *)
Lemma rep_live m c t R L X fl :
  storage_rep (heap m) c t -> rc_inv m R L X fl -> (forall x, x ∈ roots c -> x ∈ L) ->
  forall x, x ∈ t.*1 -> x ∈ L.
Proof.
  intros Hr Hrc HL. eapply trail_reach; [by apply Hr| |].
  - intros x d y. by eapply rc_pre_ver.
  - intros lba x Hn. eapply HL, newest_root; [done|exact Hn].
Qed.

Lemma rep_kept m m' c t L :
  storage_rep (heap m) c t -> (forall x, x ∈ t.*1 -> x ∈ L) -> kept L m m' ->
  storage_rep (heap m') c t.
Proof. intros [] HL K. constructor; [by eapply trail_kept|done..]. Qed.

Lemma root_live m R L X fl x : rc_inv m R L X fl -> x ∈ R -> x ∈ L.
Proof. intros H Hx. apply (rc_closed _ _ _ _ _ H). apply elem_of_app. by left. Qed.

Lemma reps_kept m m' cs ts R L L' X fl :
  Forall2 (storage_rep (heap m)) cs ts -> rc_inv m R L X fl ->
  (forall x, x ∈ cs ≫= roots -> x ∈ L') -> L' ⊆ L -> kept L' m m' ->
  (forall x d y, x ∈ L' -> heap m !! x = Some d -> pre_ver d = Some y -> y ∈ L') ->
  Forall2 (storage_rep (heap m')) cs ts.
Proof.
  intros H Hrc HR Hs K Hcl. induction H as [|c t cs ts Hr H IH]; constructor.
  - eapply rep_kept; [done| |done]. eapply trail_reach; [by apply Hr|done|].
    intros lba x Hn. apply HR. cbn. apply elem_of_app. left. by eapply newest_root.
  - apply IH. intros x Hx. apply HR. cbn. apply elem_of_app. by right.
Qed.

(** After a step that ends in an exact pool, the storages all of whose roots
    are still roots are unchanged. *)
Lemma reps_step m m' cs ts R R' L L' X X' fl fl' :
  Forall2 (storage_rep (heap m)) cs ts -> rc_inv m R L X fl -> rc_inv m' R' L' X' fl' ->
  (forall x, x ∈ cs ≫= roots -> x ∈ R' /\ x ∈ L) -> kept (filter (fun x => x ∈ L') L) m m' ->
  Forall2 (storage_rep (heap m')) cs ts.
Proof.
  intros H Hrc Hrc' HR K. eapply reps_kept; [done|done| | |exact K|].
  - intros x [H1 H2]%HR. apply list_elem_of_filter. split; [by eapply root_live|done].
  - intros x. rewrite list_elem_of_filter. naive_solver.
  - intros x d y [HxL' HxL]%list_elem_of_filter Hd Hy. apply list_elem_of_filter.
    split; [|by eapply rc_pre_ver].
    destruct (K x) as (d1 & d' & E1 & E2 & (_ & C2 & _)); [by apply list_elem_of_filter|].
    simplify_eq. eapply rc_pre_ver; [exact Hrc'|exact HxL'|exact E2|congruence].
Qed.

(** * Changing one block of a storage *)
Lemma omap_insert (l : list ptr) i (o n : ptr) :
  l !! i = Some o ->
  exists rest, omap id l ≡ₚ option_list o ++ rest /\ omap id (<[i := n]> l) ≡ₚ option_list n ++ rest.
Proof.
  revert i. induction l as [|a l IH]; intros i Hi; [done|].
  destruct i as [|i].
  - injection Hi as ->. exists (omap id l). split; [by destruct o|by destruct n].
  - destruct (IH i Hi) as (rest & H1 & H2). exists (option_list a ++ rest).
    change (<[S i := n]> (a :: l)) with (a :: <[i := n]> l).
    assert (forall k, omap id (a :: k) = option_list a ++ omap id k) as Hc by (by destruct a).
    rewrite !Hc, H1, H2. split; solve_Permutation.
Qed.

Lemma roots_update c lba o n tl nr bn bc :
  lba_ok lba -> Z.of_nat (length (m_data c)) = TOTAL_BLOCK_NR -> aget (m_data c) lba = Some o ->
  exists md rest, aset (m_data c) lba n = Some md /\
    roots c ≡ₚ option_list o ++ rest /\
    roots (mkStorage md tl nr bn bc) ≡ₚ option_list n ++ rest.
Proof.
  intros Hok Hlen Ho. pose proof Ho as [_ Hl]%aget_Some.
  destruct (omap_insert _ _ _ n Hl) as (rest & H1 & H2).
  unfold lba_ok in Hok. exists (<[Z.to_nat lba := n]> (m_data c)), rest.
  rewrite aset_is_Some by lia. done.
Qed.

(** * The operations *)
Section Operations.
Implicit Types (m : StorageDataManager) (c : CStorage) (cs : list CStorage)
  (t : trail) (ts : list trail).

Lemma reps_live m cs ts R L X fl :
  Forall2 (storage_rep (heap m)) cs ts -> rc_inv m R L X fl ->
  (forall x, x ∈ cs ≫= roots -> x ∈ L) ->
  Forall (fun t => forall x, x ∈ t.*1 -> x ∈ L) ts.
Proof.
  intros H Hrc HL. induction H as [|c t cs ts Hr H IH]; constructor.
  - eapply rep_live; [done|done|]. intros x Hx. apply HL. cbn. set_solver.
  - apply IH. intros x Hx. apply HL. cbn. set_solver.
Qed.

(** The nodes of every storage survive a step that keeps its roots. *)
Lemma reps_after m m' cs ts R L X fl R' L' X' fl' :
  Forall2 (storage_rep (heap m)) cs ts -> rc_inv m R L X fl -> rc_inv m' R' L' X' fl' ->
  L' ⊆ L -> kept L' m m' -> (forall x, x ∈ cs ≫= roots -> x ∈ R') ->
  Forall2 (storage_rep (heap m')) cs ts.
Proof.
  intros H Hrc Hrc' Hs K HR. eapply (reps_kept m m' cs ts R L L'); [done|done| |done|done|].
  - intros x Hx. by eapply root_live, HR.
  - intros x d y Hx Hd Hy. destruct (K x Hx) as (d1 & d' & E1 & E2 & (_ & C2 & _)).
    simplify_eq. eapply rc_pre_ver; [exact Hrc'|exact Hx|exact E2|congruence].
Qed.

Lemma runs_on_mgr {A} (f : M StorageDataManager A) (s : StorageState) a m' :
  runs f s.1 a m' -> runs (on_mgr f) s a (m', s.2).
Proof. intros H. by apply (runs_zoom fst (fun m s => (m, s.2))). Qed.

Lemma w32_succ n : w32 (w32 n + 1) = w32 (n + 1).
Proof. unfold w32. by rewrite Zplus_mod_idemp_l. Qed.
Lemma w32_pred n : w32 (w32 n - 1) = w32 (n - 1).
Proof. unfold w32. by rewrite Zminus_mod_idemp_l. Qed.

Lemma BlockWrite_spec m c t cs ts lba b :
  pool_inv m (c :: cs) (t :: ts) -> lba_ok lba ->
  exists m' c' x, runs (BlockWrite lba b) (m, c) tt (m', c') /\
    pool_inv m' (c' :: cs) (((x, (lba, b)) :: t) :: ts).
Proof.
  intros [HF (L & fl & Hrc)] Hok. pose proof (Forall2_cons_1 _ _ _ _ _ HF) as [Hr HF'].
  destruct (sm_get_spec _ _ _ _ Hrc) as (p & m1 & fl1 & Hg & H1 & K1).
  pose proof (sr_data _ _ _ Hr lba Hok) as Hold.
  destruct (roots_update c lba _ (Some p) (Some p) (w32 (m_cache_nr c + 1))
    (m_begin_cache_nr c) (m_begin_cache c) Hok (sr_len _ _ _ Hr) Hold)
    as (md & rest & Hmd & P1 & P2).
  assert (Hrc1 : rc_inv m1 (option_list (newest lba t) ++ rest ++ (cs ≫= roots)) L [p] fl1).
  { eapply rc_inv_perm; [|done|exact H1]. cbn. rewrite P1. by rewrite app_assoc. }
  destruct (rc_new _ _ _ _ _ _ b (m_cache_tail c) lba Hrc1) as [H2 K2].
  set (m2 := set_node p _ m1) in *.
  assert (K : kept L m m2) by (eapply kept_trans; [done|exact K1|exact K2]).
  assert (HLc : forall x, x ∈ (c :: cs) ≫= roots -> x ∈ L) by (intros x; by eapply root_live).
  pose proof (reps_live _ _ _ _ _ _ _ HF Hrc HLc) as [HLt HLts]%Forall_cons.
  eexists m2, _, p. split.
  - unfold BlockWrite. unfold lba_ok in Hok.
    rewrite (proj2 (andb_true_iff _ _)) by (split; [apply Z.leb_le|apply Z.ltb_lt]; lia).
    apply (runs_bind _ _ _ tt (m, c)); [done|].
    apply (runs_bind _ _ _ p (m1, c)); [by apply (runs_on_mgr _ (m, c))|].
    apply (runs_bind _ _ _ (m1, c) (m1, c)); [done|].
    unfold runs, bind, opt. cbn. rewrite Hold. cbn. rewrite Hmd. done.
  - split.
    + constructor.
      * pose proof (sr_len _ _ _ Hr) as Hlen.
        apply aset_Some in Hmd as [Hb ->]. constructor; cbn [m_data m_cache_tail m_cache_nr].
        -- cbn. split; [done|]. split; [done|]. eexists. rewrite lookup_insert_eq.
           split_and!; [done..|]. cbn. change (trail_ok (heap m2) (m_cache_tail c) t).
           eapply trail_kept; [apply Hr|exact HLt|exact K].
        -- by rewrite length_insert.
        -- intros a Ha. unfold lba_ok in *. rewrite aget_insert by lia. cbn.
           destruct (Z.eqb_spec lba a) as [->|Hne]; [done|by apply Hr].
        -- rewrite (sr_nr _ _ _ Hr), w32_succ. cbn [length]. f_equal. lia.
      * clear Hr HF. revert HLts HF' . clear -K. intros HL HF.
        induction HF as [|c0 t0 cs ts Hr HF IH]; constructor.
        -- apply Forall_cons in HL as [? ?]. by eapply rep_kept.
        -- apply IH. by apply Forall_cons in HL as [? ?].
    + exists (p :: L), fl1. eapply rc_inv_perm; [|done|exact H2]. cbn.
      rewrite P2. by cbn.
Qed.

Lemma BlockRead_spec m c t cs ts lba :
  pool_inv m (c :: cs) (t :: ts) -> lba_ok lba ->
  BlockRead lba (m, c) =
    (match log_read lba t.*2 with
     | Some b => Ret b
     | None => Throw (FsError ERR_READ_NO_MAPPING_DATA)
     end, (m, c)).
Proof.
  intros [HF _] Hok. apply Forall2_cons_1 in HF as [Hr _].
  unfold BlockRead, bind, get, opt. cbn. rewrite (sr_data _ _ _ Hr lba Hok). cbn.
  destruct (newest_log lba t) as [(x & b & H1 & H2 & ->)|[-> ->]]; [|done].
  rewrite H1. cbn. unfold on_mgr, zoom, node_at, bind, get, opt. cbn.
  assert (exists d, heap m !! x = Some d /\ sd_data d = b /\ sd_lba d = lba) as (d & -> & <- & <-).
  { pose proof (sr_trail _ _ _ Hr) as Ht. clear Hr H1. revert Ht H2.
    generalize (m_cache_tail c). induction t as [|[y [a b']] t IH]; intros tl; cbn; [set_solver|].
    intros (_ & _ & d & Hd & <- & <- & _ & Ht) [[= -> -> ->]|Hin]%elem_of_cons; [by exists d|].
    by eapply IH. }
  cbn. by rewrite Z.eqb_refl.
Qed.

(** One rollback step forgets the newest write. *)
Lemma Rollback_one_spec m c x lba b t cs ts :
  pool_inv m (c :: cs) (((x, (lba, b)) :: t) :: ts) ->
  exists m' c', runs Rollback_one (m, c) tt (m', c') /\ pool_inv m' (c' :: cs) (t :: ts) /\
    m_cache_nr c' = w32 (m_cache_nr c - 1).
Proof.
  intros [HF (L & fl & Hrc)]. pose proof (Forall2_cons_1 _ _ _ _ _ HF) as [Hr HF'].
  pose proof (sr_trail _ _ _ Hr) as Ht. cbn in Ht.
  destruct Ht as (Htl & Hok & d & Hd & Hb & Hlba & Hpv & Ht).
  pose proof (sr_data _ _ _ Hr lba Hok) as Hold. cbn in Hold. rewrite Z.eqb_refl in Hold.
  set (nr := w32 (m_cache_nr c - 1)).
  destruct (roots_update c lba _ (pre_ver d) (pre_write d) nr
    (if nr <? m_begin_cache_nr c then nr else m_begin_cache_nr c) (m_begin_cache c)
    Hok (sr_len _ _ _ Hr) Hold) as (md & rest & Hmd & P1 & P2).
  set (c' := mkStorage md _ _ _ _) in P2.
  assert (HLc : forall y, y ∈ (c :: cs) ≫= roots -> y ∈ L) by (intros y; by eapply root_live).
  pose proof (reps_live _ _ _ _ _ _ _ HF Hrc HLc) as [HLt HLts]%Forall_cons.
  assert (HxL : x ∈ L) by (apply HLt; set_solver).
  assert (exists m1, runs (match pre_ver d with Some q => on_mgr (AddRef q) | None => ret tt end)
            (m, c') tt (m1, c') /\
            rc_inv m1 (x :: option_list (pre_ver d) ++ rest ++ (cs ≫= roots)) L [] fl /\
            kept L m m1) as (m1 & Hadd & H1 & K1).
  { assert (Hrc1 : rc_inv m (x :: rest ++ (cs ≫= roots)) L [] fl).
    { eapply rc_inv_perm; [|done|exact Hrc]. cbn. by rewrite P1. }
    destruct (pre_ver d) as [q|] eqn:Hq; cbn [option_list app].
    - destruct (AddRef_spec _ q _ _ _ _ Hrc1) as (m1 & Hrun & H1 & K1).
      { eapply rc_pre_ver; [exact Hrc|exact HxL|exact Hd|exact Hq]. }
      exists m1. split_and!; [by apply (runs_on_mgr _ (m, c'))| |done].
      eapply rc_inv_perm; [|done|exact H1]. solve_Permutation.
    - exists m. split_and!; [done|done|by eapply rc_kept_refl]. }
  destruct (sm_put_spec _ _ _ _ _ H1) as (m2 & L2 & fl2 & Hput & H2 & Hs2 & K2).
  assert (K : kept L2 m m2) by (eapply kept_trans; [exact Hs2|exact K1|exact K2]).
  exists m2, c'. split_and!; [| |done].
  - unfold Rollback_one. apply (runs_bind _ _ _ (m, c) (m, c)); [done|].
    apply (runs_bind _ _ _ x (m, c)); [unfold runs, opt; cbn; by rewrite Htl|].
    apply (runs_bind _ _ _ d (m, c)); [by apply (runs_on_mgr _ (m, c)), node_at_runs|].
    eapply runs_bind; [done|]. cbn [fst snd]. rewrite Hlba. unfold lba_ok in Hok.
    rewrite (proj2 (Z.eqb_neq _ _)) by clia. rewrite (proj2 (Z.leb_gt _ _)) by lia.
    rewrite Hmd. apply (runs_bind _ _ _ md (m, mkStorage (m_data c) (pre_write d) nr
      (if nr <? m_begin_cache_nr c then nr else m_begin_cache_nr c) (m_begin_cache c)));
      [done|].
    apply (runs_bind _ _ _ tt (m, c')); [done|].
    apply (runs_bind _ _ _ tt (m1, c')); [done|].
    by apply (runs_on_mgr _ (m1, c')).
  - assert (HRn : rc_inv m2 (roots c' ++ (cs ≫= roots)) L2 [] fl2).
    { eapply rc_inv_perm; [|done|exact H2]. rewrite P2. by rewrite app_assoc. }
    split; [|by exists L2, fl2].
    assert (HT : forall tl, trail_ok (heap m) tl t ->
              (forall a, lba_ok a -> aget md a = Some (newest a t))) .
    { intros tl _ a Ha. apply aset_Some in Hmd as [Hbd ->]. unfold lba_ok in *.
      rewrite aget_insert by lia. destruct (Z.eqb_spec lba a) as [->|Hne]; [by rewrite Hpv|].
      rewrite (sr_data _ _ _ Hr a Ha). cbn. by rewrite (proj2 (Z.eqb_neq _ _)). }
    assert (Hr0 : storage_rep (heap m) c' t).
    { constructor; cbn [c' m_cache_tail m_data m_cache_nr].
      - done.
      - apply aset_Some in Hmd as [_ ->]. rewrite length_insert. apply Hr.
      - by eapply HT.
      - unfold nr. rewrite (sr_nr _ _ _ Hr), w32_pred. cbn [length]. f_equal. lia. }
    eapply (reps_after m m2 (c' :: cs) (t :: ts)); [by constructor|done|exact HRn|done|exact K|].
    cbn. done.
Qed.

Lemma Rollback_steps n : forall m c t cs ts,
  pool_inv m (c :: cs) (t :: ts) -> (n <= length t)%nat ->
  forall l, length l = n ->
  exists m' c', runs (mfor (l : list Z) (fun _ => Rollback_one)) (m, c) tt (m', c') /\
    pool_inv m' (c' :: cs) (drop n t :: ts).
Proof.
  induction n as [|n IH]; intros m c t cs ts H Hn l Hl.
  - destruct l; [|done]. exists m, c. split; [done|]. by rewrite drop_0.
  - destruct l as [|i l]; [done|]. destruct t as [|[x [lba b]] t]; [cbn in Hn; lia|].
    destruct (Rollback_one_spec _ _ _ _ _ _ _ _ H) as (m1 & c1 & H1 & I1 & _).
    destruct (IH _ _ _ _ _ I1 ltac:(cbn in Hn; lia) l ltac:(cbn in Hl; lia))
      as (m2 & c2 & H2 & I2).
    exists m2, c2. split; [|done]. by apply (runs_bind _ _ _ tt (m1, c1)).
Qed.

Lemma Rollback_spec m c t cs ts n :
  pool_inv m (c :: cs) (t :: ts) -> 0 <= n <= Z.of_nat (length t) ->
  Z.of_nat (length t) < 2 ^ 32 -> n < 2 ^ 16 ->
  exists m' c', runs (Rollback n) (m, c) tt (m', c') /\
    pool_inv m' (c' :: cs) (drop (Z.to_nat n) t :: ts).
Proof.
  intros H Hn Hlen Hn16. pose proof H as [HF _]. apply Forall2_cons_1 in HF as [Hr _].
  assert (w16 n = n) as E by (unfold w16; rewrite Z.mod_small; lia).
  destruct (Rollback_steps (Z.to_nat n) _ _ _ _ _ H ltac:(lia) (range 0 n)) as (m' & c' & H1 & H2).
  { unfold range. rewrite length_seqZ. lia. }
  exists m', c'. split; [|done]. unfold Rollback. rewrite E.
  apply (runs_bind _ _ _ (m, c) (m, c)); [done|]. cbn [snd].
  rewrite (sr_nr _ _ _ Hr). unfold w32. rewrite Z.mod_small by lia.
  by rewrite (proj2 (Z.ltb_ge _ _)) by lia.
Qed.

Lemma release_all_spec l : forall m R L fl,
  rc_inv m (omap id l ++ R) L [] fl ->
  exists m' L' fl', runs (release_all l) m tt m' /\ rc_inv m' R L' [] fl' /\
    L' ⊆ L /\ kept L' m m'.
Proof.
  induction l as [|[p|] l IH]; intros m R L fl H; cbn in H.
  - exists m, L, fl. split_and!; [done|done|done|by eapply rc_kept_refl].
  - destruct (sm_put_spec _ _ _ _ _ H) as (m1 & L1 & fl1 & Hp & H1 & S1 & K1).
    destruct (IH _ _ _ _ H1) as (m2 & L2 & fl2 & Hr & H2 & S2 & K2).
    exists m2, L2, fl2. split_and!; [by apply (runs_bind _ _ _ tt m1)|done|set_solver|].
    eapply (kept_trans L1 L2); [done|done|done].
  - destruct (IH _ _ _ _ H) as (m2 & L2 & fl2 & Hr & H2 & S2 & K2).
    exists m2, L2, fl2. split_and!; [by apply (runs_bind _ _ _ tt m)|done|done|done].
Qed.

Lemma addref_all_spec l : forall m R L X fl,
  rc_inv m R L X fl -> (forall p, p ∈ omap id l -> p ∈ L) ->
  exists m', runs (addref_all l) m tt m' /\ rc_inv m' (omap id l ++ R) L X fl /\ kept L m m'.
Proof.
  induction l as [|[p|] l IH]; intros m R L X fl H HL.
  - exists m. split_and!; [done|done|by eapply rc_kept_refl].
  - destruct (AddRef_spec _ p _ _ _ _ H) as (m1 & Ha & H1 & K1); [apply HL; cbn; set_solver|].
    destruct (IH _ _ _ _ _ H1) as (m2 & Hr & H2 & K2); [intros q Hq; apply HL; cbn; set_solver|].
    exists m2. split_and!; [by apply (runs_bind _ _ _ tt m1)| |by eapply kept_trans].
    eapply rc_inv_perm; [|done|exact H2]. cbn. solve_Permutation.
  - destruct (IH _ _ _ _ _ H) as (m2 & Hr & H2 & K2); [intros q Hq; apply HL; cbn; set_solver|].
    exists m2. split_and!; [by apply (runs_bind _ _ _ tt m)|done|done].
Qed.

Lemma pool_live_src m c t cs ts k src tsrc L fl :
  Forall2 (storage_rep (heap m)) (c :: cs) (t :: ts) ->
  rc_inv m ((c :: cs) ≫= roots) L [] fl ->
  cs !! k = Some src -> ts !! k = Some tsrc ->
  storage_rep (heap m) src tsrc /\ (forall x, x ∈ roots src -> x ∈ cs ≫= roots).
Proof.
  intros HF Hrc Hc Ht. apply Forall2_cons_1 in HF as [_ HF].
  split; [by eapply Forall2_lookup_lr|]. intros x Hx. apply list_elem_of_bind.
  exists src. split; [done|]. by eapply list_elem_of_lookup_2.
Qed.

(** A copy of a storage has its log; nothing else changes. *)
Lemma CopyFrom_spec m c t cs ts k src tsrc :
  pool_inv m (c :: cs) (t :: ts) -> cs !! k = Some src -> ts !! k = Some tsrc ->
  exists m' c', runs (CopyFrom src) (m, c) tt (m', c') /\ pool_inv m' (c' :: cs) (tsrc :: ts).
Proof.
  intros [HF (L & fl & Hrc)] Hc Ht.
  destruct (pool_live_src _ _ _ _ _ _ _ _ _ _ HF Hrc Hc Ht) as [Hrs Hroots].
  pose proof (Forall2_cons_1 _ _ _ _ _ HF) as [_ HF'].
  destruct (release_all_spec (m_data c) _ _ _ _ Hrc) as (m1 & L1 & fl1 & Hr1 & H1 & S1 & K1).
  destruct (addref_all_spec (m_data src) _ _ _ _ _ H1) as (m2 & Hr2 & H2 & K2).
  { intros p Hp. eapply root_live; [exact H1|]. by apply Hroots. }
  assert (K : kept L1 m m2) by (eapply (kept_trans L1); done).
  eexists m2, _. split.
  - apply (runs_bind _ _ _ (m, c) (m, c)); [done|]. cbn [snd].
    apply (runs_bind _ _ _ tt (m1, c)); [by apply (runs_on_mgr _ (m, c))|].
    apply (runs_bind _ _ _ tt (m2, c)); [by apply (runs_on_mgr _ (m1, c))|]. done.
  - split; [|by exists L1, fl1]. constructor.
    + assert (Hs : Forall2 (storage_rep (heap m2)) [src] [tsrc]).
      { eapply (reps_after m m2 [src] [tsrc]); [by constructor|exact Hrc|exact H2|done|exact K|].
        intros x. cbn. rewrite app_nil_r. intros Hx. apply elem_of_app. by left. }
      apply Forall2_cons_1 in Hs as [[] _]. by constructor.
    + eapply (reps_after m m2 cs ts); [done|exact Hrc|exact H2|done|exact K|].
      intros x Hx. apply elem_of_app. by right.
Qed.

(** Dropping a storage leaves the others as they are. *)
Lemma storage_destroy_spec m c t cs ts :
  pool_inv m (c :: cs) (t :: ts) ->
  exists m', runs storage_destroy (m, c) tt (m', c) /\ pool_inv m' cs ts.
Proof.
  intros [HF (L & fl & Hrc)]. pose proof (Forall2_cons_1 _ _ _ _ _ HF) as [_ HF'].
  destruct (release_all_spec (m_data c) _ _ _ _ Hrc) as (m1 & L1 & fl1 & Hr1 & H1 & S1 & K1).
  exists m1. split.
  - apply (runs_bind _ _ _ (m, c) (m, c)); [done|]. by apply (runs_on_mgr _ (m, c)).
  - split; [|by exists L1, fl1]. by eapply (reps_after m m1 cs ts).
Qed.

Lemma pool_inv_new : pool_inv manager_new [] [].
Proof.
  split; [constructor|]. exists [], []. constructor; cbn; try done; try set_solver.
  - constructor.
  - intros x [d Hd]. by rewrite lookup_empty in Hd.
Qed.

Lemma roots_new : roots storage_new = [].
Proof. by vm_compute. Qed.

(** A new storage joins the pool with an empty log. *)
Lemma storage_Initialize_spec m c cs ts :
  pool_inv m cs ts ->
  exists c', runs storage_Initialize (m, c) tt (m, c') /\ pool_inv m (c' :: cs) ([] :: ts).
Proof.
  intros [HF (L & fl & Hrc)]. exists storage_new. split; [done|]. split.
  - constructor; [|done]. constructor; [done|by vm_compute| |done].
    intros lba Hl. apply aget_replicate. exact Hl.
  - exists L, fl. change ((storage_new :: cs) ≫= roots) with (roots storage_new ++ (cs ≫= roots)).
    by rewrite roots_new.
Qed.
End Operations.

(** * The two implementations of the interface *)

#[export] Instance pool_store : BlockStore StorageState := {
  bs_write := BlockWrite; bs_read := BlockRead; bs_rollback := Rollback;
  bs_initialize := storage_Initialize; bs_cache_num := GetCacheNum;
  bs_media_num := GetMediaWriteNum
}.
(** A storage and the others of its pool, whose logs stay what they are. *)
#[export] Program Instance pool_laws : BlockStoreLaws StorageState := {
  bs_rep s l := exists t cs ts, l = t.*2 /\ pool_inv s.1 (s.2 :: cs) (t :: ts)
}.
Next Obligation.
  intros [m c] l lba b (t & cs & ts & -> & H) Hok.
  destruct (BlockWrite_spec _ _ _ _ _ _ b H Hok) as (m' & c' & x & Hr & H').
  exists (m', c'). split; [done|]. by exists ((x, (lba, b)) :: t), cs, ts.
Qed.
Next Obligation.
  intros [m c] l lba (t & cs & ts & -> & H) Hok. by eapply BlockRead_spec.
Qed.
Next Obligation.
  intros [m c] l n (t & cs & ts & -> & H) Hn Hl Hn16. rewrite length_fmap in *.
  destruct (Rollback_spec _ _ _ _ _ _ H Hn Hl Hn16) as (m' & c' & Hr & H').
  exists (m', c'). split; [done|]. exists (drop (Z.to_nat n) t), cs, ts. split; [|done].
  by rewrite fmap_drop.
Qed.

(** The specification itself, as an implementation: the log and the mark from
    which [GetCacheNum] counts. *)
Record LogStore := mkLog { log : wlog; begin_nr : Z }.
Definition log_rollback (n : Z) : M LogStore unit :=
  s <- get ;;
  let len := Z.of_nat (length (log s)) in
  if len <? w16 n then throw ERR_APP else
  put (mkLog (drop (Z.to_nat (w16 n)) (log s)) (Z.min (begin_nr s) (len - w16 n))).
#[export] Instance log_store : BlockStore LogStore := {
  bs_write lba b :=
    check ((0 <=? lba) && (lba <? TOTAL_BLOCK_NR)) ;;;
    modify (fun s => mkLog ((lba, b) :: log s) (begin_nr s));
  bs_read lba :=
    s <- get ;;
    check ((0 <=? lba) && (lba <? TOTAL_BLOCK_NR)) ;;;
    match log_read lba (log s) with
    | Some b => ret b
    | None => throw (FsError ERR_READ_NO_MAPPING_DATA)
    end;
  bs_rollback := log_rollback;
  bs_initialize := put (mkLog [] 0);
  bs_cache_num := gets (fun s => w16 (Z.of_nat (length (log s)) - begin_nr s));
  bs_media_num s := Z.of_nat (length (log s))
}.
Lemma lba_okb lba : lba_ok lba -> (0 <=? lba) && (lba <? TOTAL_BLOCK_NR) = true.
Proof. unfold lba_ok. intros. apply andb_true_iff. split; [apply Z.leb_le|apply Z.ltb_lt]; lia. Qed.
#[export] Program Instance log_laws : BlockStoreLaws LogStore := {
  bs_rep s l := log s = l
}.
Next Obligation.
  intros s l lba b <- Hok. exists (mkLog ((lba, b) :: log s) (begin_nr s)). split; [|done].
  unfold runs, bs_write, log_store, bind. cbn [bs_write]. by rewrite lba_okb.
Qed.
Next Obligation.
  intros s l lba <- Hok. unfold bs_read, bind, get. cbn. rewrite lba_okb by done. cbn.
  by destruct (log_read lba (log s)).
Qed.
Next Obligation.
  intros s l n <- Hn Hl Hn16. unfold bs_rollback, log_store, runs, log_rollback, bind, get.
  assert (w16 n = n) as -> by (unfold w16; rewrite Z.mod_small; lia).
  rewrite (proj2 (Z.ltb_ge _ _)) by lia. by eexists.
Qed.
