(* ===== verification/StorageSys.v ===== *)
(** StorageSys: any number of storages on one pool, as the state manager of the
    tester creates, clones and rolls them back, driven by a sequence of
    commands.  The specification keeps one log per storage. *)
From S2P Require Export StorageLog.

Inductive storage_cmd :=
  | CmdNew                                  (* a storage, initialized *)
  | CmdWrite (k : nat) (lba : Z) (b : BLOCK_DATA)
  | CmdRead (k : nat) (lba : Z)
  | CmdRollback (k : nat) (nr : Z)
  | CmdCopy (dst src : nat)
  | CmdDestroy (k : nat).

Definition World : Type := StorageDataManager * list CStorage.

(** * The implementation *)
Definition on_storage {A} (k : nat) (f : M StorageState A) : M World A := fun w =>
  match w.2 !! k with
  | None => (Fault, w)
  | Some c => let '(r, (m', c')) := f (w.1, c) in (r, (m', <[k := c']> w.2))
  end.
Definition storage_step (c : storage_cmd) : M World (option BLOCK_DATA) :=
  match c with
  | CmdNew => modify (fun w => (w.1, w.2 ++ [storage_new])) ;;; ret None
  | CmdWrite k lba b => on_storage k (BlockWrite lba b) ;;; ret None
  | CmdRead k lba => d <- on_storage k (BlockRead lba) ;; ret (Some d)
  | CmdRollback k nr => on_storage k (Rollback nr) ;;; ret None
  | CmdCopy dst src =>
      w <- get ;; c <- opt (w.2 !! src) ;; on_storage dst (CopyFrom c) ;;; ret None
  | CmdDestroy k =>
      on_storage k storage_destroy ;;; modify (fun w => (w.1, delete k w.2)) ;;; ret None
  end.

(** * The specification *)
Definition on_log {A} (k : nat) (f : M wlog A) : M (list wlog) A := fun w =>
  match w !! k with
  | None => (Fault, w)
  | Some l => let '(r, l') := f l in (r, <[k := l']> w)
  end.
Definition log_step (c : storage_cmd) : M (list wlog) (option BLOCK_DATA) :=
  match c with
  | CmdNew => modify (fun w => w ++ [[]]) ;;; ret None
  | CmdWrite k lba b =>
      on_log k (check ((0 <=? lba) && (lba <? TOTAL_BLOCK_NR)) ;;;
                modify (fun l => (lba, b) :: l)) ;;; ret None
  | CmdRead k lba =>
      d <- on_log k (check ((0 <=? lba) && (lba <? TOTAL_BLOCK_NR)) ;;;
                     l <- get ;;
                     match log_read lba l with
                     | Some b => ret b
                     | None => throw (FsError ERR_READ_NO_MAPPING_DATA)
                     end) ;;
      ret (Some d)
  | CmdRollback k nr =>
      on_log k (l <- get ;;
                if Z.of_nat (length l) <? w16 nr then throw ERR_APP
                else put (drop (Z.to_nat (w16 nr)) l)) ;;; ret None
  | CmdCopy dst src =>
      w <- get ;; l <- opt (w !! src) ;; on_log dst (put l) ;;; ret None
  | CmdDestroy k =>
      on_log k (ret tt) ;;; modify (fun w => delete k w) ;;; ret None
  end.

(** What a client sees of a sequence of commands: their outcomes, up to the
    first that has no meaning.  An exception does not end the sequence. *)
Fixpoint outcomes {W} (step : storage_cmd -> M W (option BLOCK_DATA)) (l : list storage_cmd) (w : W)
    : list (outcome (option BLOCK_DATA)) :=
  match l with
  | [] => []
  | c :: l' =>
      let '(r, w') := step c w in
      r :: match r with Fault => [] | _ => outcomes step l' w' end
  end.

(** No storage is copied to itself. *)
Definition cmd_ok (c : storage_cmd) : Prop :=
  match c with CmdCopy dst src => dst <> src | _ => True end.

(** * Simulation *)
Definition world_inv (n : Z) (w : World) (ls : list wlog) : Prop :=
  exists ts, ls = (fun t => t.*2) <$> ts /\ pool_inv w.1 w.2 ts /\
    Forall (fun t => Z.of_nat (length t) <= n) ts.

Lemma pool_perm m cs ts cs' ts' :
  cs ≫= roots ≡ₚ cs' ≫= roots -> Forall2 (storage_rep (heap m)) cs' ts' ->
  pool_inv m cs ts -> pool_inv m cs' ts'.
Proof.
  intros Hp HF [_ (L & fl & Hrc)]. split; [done|]. exists L, fl. eapply rc_inv_perm; [exact Hp|done|exact Hrc].
Qed.

(** One storage is moved to the front, and put back. *)
Lemma pool_focus m cs ts k c : pool_inv m cs ts -> cs !! k = Some c ->
  exists t, ts !! k = Some t /\ pool_inv m (c :: delete k cs) (t :: delete k ts).
Proof.
  intros H Hk. pose proof H as [HF _].
  destruct (Forall2_lookup_l _ _ _ _ _ HF Hk) as (t & Ht & Hr). exists t. split; [done|].
  eapply pool_perm; [|constructor; [done|by apply Forall2_delete]|done].
  change ((c :: delete k cs) ≫= roots) with (mbind roots (c :: delete k cs)).
  by rewrite <- (delete_Permutation cs k c Hk).
Qed.

Lemma pool_unfocus m cs ts k c t : (k < length cs)%nat ->
  pool_inv m (c :: delete k cs) (t :: delete k ts) -> length cs = length ts ->
  pool_inv m (<[k := c]> cs) (<[k := t]> ts).
Proof.
  intros Hk H Hl. pose proof H as [HF _]. apply Forall2_cons_1 in HF as [Hr HF].
  assert (Hkt : (k < length ts)%nat) by lia. eapply pool_perm; [| |exact H].
  - assert (Hd : delete k (<[k := c]> cs) = delete k cs).
    { apply list_eq. intros i. rewrite !list_lookup_delete.
      case_decide; by rewrite list_lookup_insert_ne by lia. }
    assert (Hi : <[k := c]> cs !! k = Some c) by (by apply list_lookup_insert_eq).
    rewrite (delete_Permutation _ _ _ Hi). by rewrite Hd.
  - rewrite !insert_take_drop by done. rewrite !delete_take_drop in HF.
    assert (length (take k cs) = length (take k ts)) as Ht by (rewrite !length_take; lia).
    apply Forall2_app_inv in HF as [H1 H2]; [|done].
    apply Forall2_app; [done|]. by constructor.
Qed.

(** An operation on the storage in front, against one on its log. *)
Definition sim1 {A} (f : M StorageState A) (g : M wlog A) : Prop :=
  forall m c t cs ts, pool_inv m (c :: cs) (t :: ts) -> Z.of_nat (length t) < 2 ^ 32 - 1 ->
  exists r m' c' (t' : trail), f (m, c) = (r, (m', c')) /\ g (t.*2) = (r, t'.*2 : wlog) /\
    (r = Fault \/ (pool_inv m' (c' :: cs) (t' :: ts) /\ (length t' <= S (length t))%nat)).

Lemma world_weaken n n' w ls : world_inv n w ls -> n <= n' -> world_inv n' w ls.
Proof.
  intros (ts & -> & H & Hf) Hn. exists ts. split_and!; [done|done|].
  eapply Forall_impl; [exact Hf|]. cbn. lia.
Qed.

Lemma pool_length m cs ts : pool_inv m cs ts -> length cs = length ts.
Proof. intros [HF _]. by eapply Forall2_length. Qed.

Lemma on_storage_Some {A} k (f : M StorageState A) m cs c r m' c' :
  cs !! k = Some c -> f (m, c) = (r, (m', c')) -> on_storage k f (m, cs) = (r, (m', <[k := c']> cs)).
Proof. intros Hk E. unfold on_storage. cbn [fst snd]. by rewrite Hk, E. Qed.
Lemma on_storage_None {A} k (f : M StorageState A) m cs :
  cs !! k = None -> on_storage k f (m, cs) = (Fault, (m, cs)).
Proof. intros Hk. unfold on_storage. cbn [fst snd]. by rewrite Hk. Qed.

Lemma on_storage_sim {A} n k (f : M StorageState A) (g : M wlog A) w ls :
  world_inv n w ls -> n < 2 ^ 32 - 1 -> sim1 f g ->
  exists r w' ls', on_storage k f w = (r, w') /\ on_log k g ls = (r, ls') /\
    (r = Fault \/ world_inv (n + 1) w' ls').
Proof.
  intros (ts & -> & H & Hf) Hn Hs. destruct w as [m cs]. unfold on_storage, on_log. cbn in *.
  rewrite list_lookup_fmap. pose proof (pool_length _ _ _ H) as Hl.
  destruct (cs !! k) as [c|] eqn:Hk.
  - destruct (pool_focus _ _ _ _ _ H Hk) as (t & Ht & Hp). rewrite Ht. cbn.
    pose proof (Forall_lookup_1 _ _ _ _ Hf Ht) as Htn. cbn in Htn.
    destruct (Hs _ _ _ _ _ Hp) as (r & m' & c' & t' & E1 & E2 & Hr); [lia|].
    rewrite E1, E2. eexists _, _, _. split_and!; [done|done|].
    destruct Hr as [Hr|[Hr Hlen]]; [by left|right]. exists (<[k := t']> ts). split_and!.
    + by rewrite list_fmap_insert.
    + cbn. apply pool_unfocus; [by eapply lookup_lt_Some|done|done].
    + apply Forall_insert; [|lia]. eapply Forall_impl; [exact Hf|]. cbn. lia.
  - assert (ts !! k = None) as ->.
    { apply lookup_ge_None in Hk. apply lookup_ge_None. lia. }
    eexists _, _, _. split_and!; [done|done|by left].
Qed.

(** * The operations *)
Lemma sim1_write lba b :
  sim1 (BlockWrite lba b)
    (check ((0 <=? lba) && (lba <? TOTAL_BLOCK_NR)) ;;; modify (fun l => (lba, b) :: l)).
Proof.
  intros m c t cs ts H Hlen. destruct (decide (lba_ok lba)) as [Hok|Hno].
  - destruct (BlockWrite_spec _ _ _ _ _ _ b H Hok) as (m' & c' & x & Hr & H').
    exists (Ret tt), m', c', ((x, (lba, b)) :: t). split_and!; [exact Hr| |right; split; [done|cbn; lia]].
    unfold bind, check. by rewrite lba_okb.
  - exists Fault, m, c, t. unfold BlockWrite, bind, check.
    assert ((0 <=? lba) && (lba <? TOTAL_BLOCK_NR) = false) as ->.
    { apply not_true_iff_false. intros [?%Z.leb_le ?%Z.ltb_lt]%andb_true_iff. by apply Hno. }
    split_and!; [done|done|by left].
Qed.

Lemma sim1_read lba :
  sim1 (BlockRead lba)
    (check ((0 <=? lba) && (lba <? TOTAL_BLOCK_NR)) ;;;
     l <- get ;;
     match log_read lba l with
     | Some b => ret b
     | None => throw (FsError ERR_READ_NO_MAPPING_DATA)
     end).
Proof.
  intros m c t cs ts H Hlen. destruct (decide (lba_ok lba)) as [Hok|Hno].
  - rewrite (BlockRead_spec _ _ _ _ _ _ H Hok). eexists _, m, c, t. split_and!; [done| |right; split; [done|lia]].
    unfold bind, check. rewrite lba_okb by done. cbn. by destruct (log_read lba t.*2).
  - exists Fault, m, c, t. unfold BlockRead, bind, check, get. cbn.
    assert ((0 <=? lba) && (lba <? TOTAL_BLOCK_NR) = false) as ->.
    { apply not_true_iff_false. intros [?%Z.leb_le ?%Z.ltb_lt]%andb_true_iff. by apply Hno. }
    assert (aget (m_data c) lba = None) as ->.
    { apply aget_None. destruct H as [[Hr _]%Forall2_cons_1 _]. rewrite (sr_len _ _ _ Hr). exact Hno. }
    split_and!; [done|done|by left].
Qed.

Lemma sim1_rollback nr :
  sim1 (Rollback nr)
    (l <- get ;;
     if Z.of_nat (length l) <? w16 nr then throw ERR_APP else put (drop (Z.to_nat (w16 nr)) l)).
Proof.
  intros m c t cs ts H Hlen. pose proof (Z.mod_pos_bound nr 65536 ltac:(lia)) as Hb.
  assert (Hn : m_cache_nr c = Z.of_nat (length t)).
  { destruct H as [[Hr _]%Forall2_cons_1 _]. rewrite (sr_nr _ _ _ Hr). unfold w32. rewrite Z.mod_small; lia. }
  assert (Hw : w16 (w16 nr) = w16 nr) by (unfold w16; by rewrite Zmod_mod).
  unfold bind, get. rewrite length_fmap. destruct (Z.ltb_spec (Z.of_nat (length t)) (w16 nr)) as [Hlt|Hge].
  - exists (Throw ERR_APP), m, c, t. unfold Rollback, bind, get. cbn. rewrite Hn.
    rewrite (proj2 (Z.ltb_lt _ _)) by done. split_and!; [done|done|right; split; [done|lia]].
  - destruct (Rollback_spec _ _ _ _ _ (w16 nr) H) as (m' & c' & Hr & H').
    { unfold w16 in *; lia. } { lia. } { unfold w16; lia. }
    exists (Ret tt), m', c', (drop (Z.to_nat (w16 nr)) t). split_and!.
    + unfold runs, Rollback in Hr. rewrite Hw in Hr. exact Hr.
    + by rewrite fmap_drop.
    + right. split; [done|]. rewrite length_drop. lia.
Qed.

Lemma sim1_copy src tsrc : forall m c t cs ts k,
  pool_inv m (c :: cs) (t :: ts) -> cs !! k = Some src -> ts !! k = Some tsrc ->
  exists m' c', CopyFrom src (m, c) = (Ret tt, (m', c')) /\ pool_inv m' (c' :: cs) (tsrc :: ts).
Proof. intros m c t cs ts k H Hc Ht. by eapply CopyFrom_spec. Qed.

(** * One command *)
Definition step_sim (n : Z) (w : World) (ls : list wlog) (c : storage_cmd) : Prop :=
  exists r w' ls', storage_step c w = (r, w') /\ log_step c ls = (r, ls') /\
    (r = Fault \/ world_inv (n + 1) w' ls').

Lemma bind_sim {A} n (m1 : M World A) (m2 : M (list wlog) A) w ls (k : A -> option BLOCK_DATA) :
  (exists r w' ls', m1 w = (r, w') /\ m2 ls = (r, ls') /\ (r = Fault \/ world_inv n w' ls')) ->
  exists r w' ls', bind m1 (fun a => ret (k a)) w = (r, w') /\
    bind m2 (fun a => ret (k a)) ls = (r, ls') /\ (r = Fault \/ world_inv n w' ls').
Proof.
  intros (r & w' & ls' & E1 & E2 & H). unfold bind. rewrite E1, E2.
  destruct r; eexists _, _, _; (split_and!; [done|done|]); naive_solver.
Qed.

Lemma new_sim n w ls : world_inv n w ls -> 0 <= n -> step_sim n w ls CmdNew.
Proof.
  intros (ts & -> & H & Hf) Hn. destruct w as [m cs]. cbn in *. eexists _, _, _.
  split_and!; [done|done|]. right. exists (ts ++ [[]]). split_and!.
  - cbn. by rewrite fmap_app.
  - cbn. destruct (storage_Initialize_spec m storage_new _ _ H) as (c' & Hr & H').
    unfold runs, storage_Initialize, set_storage, modify in Hr. cbn in Hr. injection Hr as <-.
    pose proof H' as [HF _]. apply Forall2_cons_1 in HF as [H1 H2].
    eapply pool_perm; [|by apply Forall2_app; [exact H2|constructor; [exact H1|constructor]]|exact H'].
    by rewrite (Permutation_app_comm cs [storage_new]).
  - apply Forall_app. split; [|constructor; [cbn; lia|done]].
    eapply Forall_impl; [exact Hf|]. cbn. lia.
Qed.

Lemma copy_sim n w ls dst src : world_inv n w ls -> n < 2 ^ 32 - 1 -> dst <> src ->
  step_sim n w ls (CmdCopy dst src).
Proof.
  intros (ts & -> & H & Hf) Hn Hne. destruct w as [m cs]. unfold step_sim. cbn in *.
  unfold bind, get, opt. cbn [snd]. pose proof (pool_length _ _ _ H) as Hl.
  rewrite list_lookup_fmap. destruct (cs !! src) as [c|] eqn:Hsrc.
  - destruct (Forall2_lookup_l _ _ _ _ _ (proj1 H) Hsrc) as (tsrc & Hts & _). rewrite Hts. cbn.
    unfold on_log. rewrite list_lookup_fmap.
    destruct (cs !! dst) as [d|] eqn:Hdst.
    + destruct (pool_focus _ _ _ _ _ H Hdst) as (t & Ht & Hp). rewrite Ht. cbn.
      destruct (sim1_copy c tsrc _ _ _ _ _ (if decide (src < dst)%nat then src else pred src) Hp)
        as (m' & c' & E & H').
      1,2: rewrite list_lookup_delete; repeat case_decide; try lia; try done;
           by replace (S (pred src)) with src by lia.
      rewrite (on_storage_Some _ _ _ _ _ _ _ _ Hdst E).
      eexists _, _, _. split_and!; [done|done|]. right. exists (<[dst := tsrc]> ts).
      split_and!.
      * by rewrite list_fmap_insert.
      * cbn. apply pool_unfocus; [by eapply lookup_lt_Some|done|done].
      * pose proof (Forall_lookup_1 _ _ _ _ Hf Hts) as Hb. cbn in Hb.
        apply Forall_insert; [|lia]. eapply Forall_impl; [exact Hf|]. cbn. lia.
    + assert (ts !! dst = None) as ->.
      { apply lookup_ge_None in Hdst. apply lookup_ge_None. lia. }
      rewrite on_storage_None by done. eexists _, _, _. split_and!; [done|done|by left].
  - assert (ts !! src = None) as ->.
    { apply lookup_ge_None in Hsrc. apply lookup_ge_None. lia. }
    eexists _, _, _. split_and!; [done|done|by left].
Qed.

Lemma destroy_sim n w ls k : world_inv n w ls -> step_sim n w ls (CmdDestroy k).
Proof.
  intros (ts & -> & H & Hf). destruct w as [m cs]. unfold step_sim. cbn in *.
  unfold bind, on_log. rewrite list_lookup_fmap.
  pose proof (pool_length _ _ _ H) as Hl. destruct (cs !! k) as [c|] eqn:Hk.
  - destruct (pool_focus _ _ _ _ _ H Hk) as (t & Ht & Hp). rewrite Ht. cbn.
    destruct (storage_destroy_spec _ _ _ _ _ Hp) as (m' & E & H'). unfold runs in E. rewrite (on_storage_Some _ _ _ _ _ _ _ _ Hk E).
    eexists _, _, _. split_and!; [done|done|]. right. exists (delete k ts). split_and!.
    + cbn. rewrite <- list_fmap_insert, list_fmap_delete. by rewrite (list_insert_id ts k t Ht).
    + cbn. rewrite (list_insert_id cs k c) by done. done.
    + apply Forall_delete. eapply Forall_impl; [exact Hf|]. cbn. lia.
  - rewrite on_storage_None by done. assert (ts !! k = None) as ->.
    { apply lookup_ge_None in Hk. apply lookup_ge_None. lia. }
    eexists _, _, _. split_and!; [done|done|by left].
Qed.

Lemma step_simulates n w ls c :
  world_inv n w ls -> 0 <= n < 2 ^ 32 - 1 -> cmd_ok c -> step_sim n w ls c.
Proof.
  intros H Hn Hc. destruct c as [|k lba b|k lba|k nr|dst src|k].
  - by apply new_sim; [|lia].
  - apply bind_sim. by apply on_storage_sim; [|lia|apply sim1_write].
  - apply (bind_sim _ _ _ _ _ Some). by apply on_storage_sim; [|lia|apply sim1_read].
  - apply bind_sim. by apply on_storage_sim; [|lia|apply sim1_rollback].
  - by apply copy_sim; [|lia|].
  - by apply destroy_sim.
Qed.

Lemma outcomes_sim l : forall n w ls,
  world_inv n w ls -> 0 <= n -> n + Z.of_nat (length l) < 2 ^ 32 -> Forall cmd_ok l ->
  outcomes storage_step l w = outcomes log_step l ls.
Proof.
  induction l as [|c l IH]; intros n w ls H Hn Hl Hc; [done|]. cbn [length] in Hl.
  apply Forall_cons in Hc as [Hc Hcs]. cbn [outcomes].
  destruct (step_simulates n w ls c H) as (r & w' & ls' & E1 & E2 & Hr); [lia|done|].
  rewrite E1, E2. f_equal. destruct r; [| |done]; (destruct Hr as [|Hr]; [done|]);
    by apply (IH (n + 1)); [|lia..|].
Qed.

Lemma world_inv_new : world_inv 0 (manager_new, []) [].
Proof. exists []. split_and!; [done|apply pool_inv_new|constructor]. Qed.

(** C4: any number of storages that share one pool of reference-counted nodes
    behave as independent logs: for every sequence of commands (creating,
    writing, reading, rolling back, cloning and destroying storages) a client
    sees the outcomes, values and exceptions, that one log per storage gives. *)
Theorem storages_refine_logs l :
  Forall cmd_ok l -> Z.of_nat (length l) < 2 ^ 32 ->
  outcomes storage_step l (manager_new, []) = outcomes log_step l [].
Proof. intros Hc Hl. by eapply (outcomes_sim l 0); [apply world_inv_new|..]. Qed.

Lemma storages_refine_logs_witness :
  let b n := mkBlock n U_zero in
  let l := [CmdNew; CmdWrite 0 3 (b 1); CmdWrite 0 3 (b 2); CmdNew; CmdCopy 1 0; CmdRollback 1 1;
            CmdRead 0 3; CmdRead 1 3; CmdDestroy 0; CmdRead 0 3; CmdRollback 0 1; CmdRead 0 3] in
  outcomes storage_step l (manager_new, []) = outcomes log_step l [] /\
  drop 6 (outcomes log_step l []) =
    [Ret (Some (b 2)); Ret (Some (b 1)); Ret None; Ret (Some (b 1)); Ret None;
     Throw (FsError ERR_READ_NO_MAPPING_DATA)].
Proof.
  split; [|by vm_compute]. apply storages_refine_logs; [|by vm_compute].
  repeat constructor. cbn. lia.
Defined.
