(* ===== verification/State.v ===== *)
(** State: the state of a mounted file system, f2fs_segment.h and
    f2fs_simulator.h, and the access to its parts.  The medium is any
    implementation of [BlockStore]. *)
From S2P Require Export Pages StorageLog.

(** * Segments in memory *)
Record SegmentInfo := mkSeg {
  valid_bmp : Z; valid_blk_nr : Z; seg_temp : Z;
  nids : list Z; offsets : list Z; free_next : Z
}.
(** Memory of the class up to the pointers it keeps; the member [page] of the
    data cache is never read. *)
Record CF2fsSegmentManager := mkSegs {
  m_segments : list SegmentInfo; m_cur_segs : list CURSEG_INFO; m_dirty_map : list Z;
  m_free_tail : Z; m_free_head : Z; m_free_nr : Z; m_used_blk_nr : Z;
  cache_nid : Z; cache_offset : Z
}.
Definition SegmentInfo_ff : SegmentInfo :=
  mkSeg INVALID32 INVALID32 BT_FF (rep BLOCK_PER_SEG INVALID16) (rep BLOCK_PER_SEG INVALID16)
    INVALID16.

(** * Node address table *)
Record CNodeAddressTable := mkNat {
  node_cache : list Z; free_nr : Z; nat_table : list Z; nat_dirty : list Z; next_scan : Z
}.

Record OPENED_FILE := mkOpen { of_ino : Z; of_ipage : Z }.

Record FS_INFO := mkInfo {
  main_seg_nr : Z; main_blk_nr : Z; node_nr : Z; page_nr : Z;
  used_blk : Z; free_blk : Z; used_seg : Z; free_seg : Z;
  host_write : Z; media_write : Z; free_node : Z; gc_count : Z; free_page : Z
}.

(** * The simulator

    [gc_page] is the page that [GarbageCollection] keeps on its stack. *)
Record CF2fsSimulator (St : Type) := mkFs {
  m_checkpoint : CKPT_BLOCK; fs_segs : CF2fsSegmentManager; fs_nat : CNodeAddressTable;
  m_storage : St; m_fs_info : FS_INFO; fs_pages : CPageAllocator;
  m_open_files : list OPENED_FILE; open_free_ptr : Z; m_open_nr : Z;
  m_multihead_cnt : Z; m_node_blks : Z; m_op_segs : Z; m_cur_ckpt : Z; m_health_ckpt : Z;
  gc_page : CPageInfo
}.
Arguments mkFs {St}. Arguments m_checkpoint {St}. Arguments fs_segs {St}. Arguments fs_nat {St}.
Arguments m_storage {St}. Arguments m_fs_info {St}. Arguments fs_pages {St}.
Arguments m_open_files {St}. Arguments open_free_ptr {St}. Arguments m_open_nr {St}.
Arguments m_multihead_cnt {St}. Arguments m_node_blks {St}. Arguments m_op_segs {St}.
Arguments m_cur_ckpt {St}. Arguments m_health_ckpt {St}. Arguments gc_page {St}.

Section Parts.
Context {St : Type}.
Abbreviation Fs := (CF2fsSimulator St).

Definition set_ckpt (v : CKPT_BLOCK) (s : Fs) : Fs :=
  mkFs v (fs_segs s) (fs_nat s) (m_storage s) (m_fs_info s) (fs_pages s) (m_open_files s)
    (open_free_ptr s) (m_open_nr s) (m_multihead_cnt s) (m_node_blks s) (m_op_segs s)
    (m_cur_ckpt s) (m_health_ckpt s) (gc_page s).
Definition set_segs (v : CF2fsSegmentManager) (s : Fs) : Fs :=
  mkFs (m_checkpoint s) v (fs_nat s) (m_storage s) (m_fs_info s) (fs_pages s) (m_open_files s)
    (open_free_ptr s) (m_open_nr s) (m_multihead_cnt s) (m_node_blks s) (m_op_segs s)
    (m_cur_ckpt s) (m_health_ckpt s) (gc_page s).
Definition set_nat (v : CNodeAddressTable) (s : Fs) : Fs :=
  mkFs (m_checkpoint s) (fs_segs s) v (m_storage s) (m_fs_info s) (fs_pages s) (m_open_files s)
    (open_free_ptr s) (m_open_nr s) (m_multihead_cnt s) (m_node_blks s) (m_op_segs s)
    (m_cur_ckpt s) (m_health_ckpt s) (gc_page s).
Definition set_store (v : St) (s : Fs) : Fs :=
  mkFs (m_checkpoint s) (fs_segs s) (fs_nat s) v (m_fs_info s) (fs_pages s) (m_open_files s)
    (open_free_ptr s) (m_open_nr s) (m_multihead_cnt s) (m_node_blks s) (m_op_segs s)
    (m_cur_ckpt s) (m_health_ckpt s) (gc_page s).
Definition set_info (v : FS_INFO) (s : Fs) : Fs :=
  mkFs (m_checkpoint s) (fs_segs s) (fs_nat s) (m_storage s) v (fs_pages s) (m_open_files s)
    (open_free_ptr s) (m_open_nr s) (m_multihead_cnt s) (m_node_blks s) (m_op_segs s)
    (m_cur_ckpt s) (m_health_ckpt s) (gc_page s).
Definition set_pages (v : CPageAllocator) (s : Fs) : Fs :=
  mkFs (m_checkpoint s) (fs_segs s) (fs_nat s) (m_storage s) (m_fs_info s) v (m_open_files s)
    (open_free_ptr s) (m_open_nr s) (m_multihead_cnt s) (m_node_blks s) (m_op_segs s)
    (m_cur_ckpt s) (m_health_ckpt s) (gc_page s).
Definition set_open (l : list OPENED_FILE) (fp nr : Z) (s : Fs) : Fs :=
  mkFs (m_checkpoint s) (fs_segs s) (fs_nat s) (m_storage s) (m_fs_info s) (fs_pages s) l
    fp nr (m_multihead_cnt s) (m_node_blks s) (m_op_segs s)
    (m_cur_ckpt s) (m_health_ckpt s) (gc_page s).
Definition set_config (mh op : Z) (s : Fs) : Fs :=
  mkFs (m_checkpoint s) (fs_segs s) (fs_nat s) (m_storage s) (m_fs_info s) (fs_pages s)
    (m_open_files s) (open_free_ptr s) (m_open_nr s) mh (m_node_blks s) op
    (m_cur_ckpt s) (m_health_ckpt s) (gc_page s).
Definition set_node_blks (v : Z) (s : Fs) : Fs :=
  mkFs (m_checkpoint s) (fs_segs s) (fs_nat s) (m_storage s) (m_fs_info s) (fs_pages s)
    (m_open_files s) (open_free_ptr s) (m_open_nr s) (m_multihead_cnt s) v (m_op_segs s)
    (m_cur_ckpt s) (m_health_ckpt s) (gc_page s).
Definition set_cur_ckpt (v : Z) (s : Fs) : Fs :=
  mkFs (m_checkpoint s) (fs_segs s) (fs_nat s) (m_storage s) (m_fs_info s) (fs_pages s)
    (m_open_files s) (open_free_ptr s) (m_open_nr s) (m_multihead_cnt s) (m_node_blks s)
    (m_op_segs s) v (m_health_ckpt s) (gc_page s).
Definition set_health_ckpt (v : Z) (s : Fs) : Fs :=
  mkFs (m_checkpoint s) (fs_segs s) (fs_nat s) (m_storage s) (m_fs_info s) (fs_pages s)
    (m_open_files s) (open_free_ptr s) (m_open_nr s) (m_multihead_cnt s) (m_node_blks s)
    (m_op_segs s) (m_cur_ckpt s) v (gc_page s).
Definition set_gc_page (v : CPageInfo) (s : Fs) : Fs :=
  mkFs (m_checkpoint s) (fs_segs s) (fs_nat s) (m_storage s) (m_fs_info s) (fs_pages s)
    (m_open_files s) (open_free_ptr s) (m_open_nr s) (m_multihead_cnt s) (m_node_blks s)
    (m_op_segs s) (m_cur_ckpt s) (m_health_ckpt s) v.

Definition on_ckpt {A} : M CKPT_BLOCK A -> M Fs A := zoom m_checkpoint set_ckpt.
Definition on_segs {A} : M CF2fsSegmentManager A -> M Fs A := zoom fs_segs set_segs.
Definition on_nat {A} : M CNodeAddressTable A -> M Fs A := zoom fs_nat set_nat.
Definition on_store {A} : M St A -> M Fs A := zoom m_storage set_store.
Definition on_pages {A} : M CPageAllocator A -> M Fs A := zoom fs_pages set_pages.
End Parts.

(** A page pointer: a page of the cache or the page on the stack of
    [GarbageCollection]. *)
Inductive PPAGE := InCache (i : Z) | OnStack.

Section Access.
Context {St : Type} `{BlockStore St}.
Abbreviation Fs := (CF2fsSimulator St).

Definition pg_at (p : PPAGE) : M Fs CPageInfo :=
  match p with InCache i => on_pages (page_at i) | OnStack => gets gc_page end.
Definition pg_upd (p : PPAGE) (f : CPageInfo -> CPageInfo) : M Fs unit :=
  match p with
  | InCache i => on_pages (page_upd i f)
  | OnStack => modify (fun s => set_gc_page (f (gc_page s)) s)
  end.
(** Dereference of a page pointer that may be null. *)
Definition page_ptr (index : Z) : M Fs Z :=
  s <- get ;; opt (page index (fs_pages s)).

(** [m_pages.get_data(page)] *)
Definition data_at (i : Z) : M Fs BLOCK_DATA :=
  p <- on_pages (page_at i) ;; ret (data p).
Definition body_at (i : Z) : M Fs BLOCK_UNION :=
  d <- data_at i ;; ret (body d).
Definition upd_body (i : Z) (f : BLOCK_UNION -> BLOCK_UNION) : M Fs unit :=
  on_pages (page_upd i (fun p => set_data (mkBlock (m_type (data p)) (f (body (data p)))) p)).

(** A node in the page [i], and its members. *)
Definition node_of (i : Z) : M Fs NODE_INFO :=
  b <- body_at i ;; opt (as_node b).
Definition put_node_body (i : Z) (n : NODE_INFO) : M Fs unit := upd_body i (fun _ => U_node n).
Definition inode_of (i : Z) : M Fs INODE :=
  n <- node_of i ;; opt (as_inode (node_body n)).
Definition index_of (i : Z) : M Fs INDEX_NODE :=
  n <- node_of i ;; opt (as_index (node_body n)).
Definition upd_inode (i : Z) (f : INODE -> INODE) : M Fs unit :=
  n <- node_of i ;; x <- opt (as_inode (node_body n)) ;;
  put_node_body i (mkNode (m_nid n) (m_ino n) (page_id n) (N_inode (f x))).
Definition upd_index (i : Z) (f : INDEX_NODE -> INDEX_NODE) : M Fs unit :=
  n <- node_of i ;; x <- opt (as_index (node_body n)) ;;
  put_node_body i (mkNode (m_nid n) (m_ino n) (page_id n) (N_index (f x))).
Definition set_page_id (i pid : Z) : M Fs unit :=
  n <- node_of i ;; put_node_body i (mkNode (m_nid n) (m_ino n) pid (node_body n)).
Definition set_dirty_page (i : Z) (b : bool) : M Fs unit := on_pages (page_upd i (set_dirty_flag b)).

(** Storage accesses; an address is an [LBLK_T]. *)
Definition store_write (lba : Z) (d : BLOCK_DATA) : M Fs unit := on_store (bs_write (w16 lba) d).
Definition store_read (lba : Z) : M Fs BLOCK_DATA := on_store (bs_read (w16 lba)).
Definition write_page (lba : Z) (p : PPAGE) : M Fs unit :=
  x <- pg_at p ;; store_write lba (data x).
Definition read_page (lba : Z) (p : PPAGE) : M Fs unit :=
  d <- store_read lba ;; pg_upd p (set_data d).
End Access.

(** Members of an inode or an index node. *)
Definition set_blk_num (v : Z) (i : INODE) :=
  mkInode v (file_size i) (file_type i) (ref_count i) (nlink i) (inode_index i).
Definition set_file_size (v : Z) (i : INODE) :=
  mkInode (blk_num i) v (file_type i) (ref_count i) (nlink i) (inode_index i).
Definition set_ref_count (v : Z) (i : INODE) :=
  mkInode (blk_num i) (file_size i) (file_type i) v (nlink i) (inode_index i).
Definition set_nlink (v : Z) (i : INODE) :=
  mkInode (blk_num i) (file_size i) (file_type i) (ref_count i) v (inode_index i).
Definition set_inode_index (v : list Z) (i : INODE) :=
  mkInode (blk_num i) (file_size i) (file_type i) (ref_count i) (nlink i) v.
Definition set_valid_data (v : Z) (i : INDEX_NODE) := mkIndexNode v (index_index i).
Definition set_index_index (v : list Z) (i : INDEX_NODE) := mkIndexNode (valid_data i) v.

(** * Dirty maps

    One bit per entry, one DWORD per metadata block of [per] entries. *)
Definition map_set (per : Z) (map : list Z) (i : Z) : option (list Z) :=
  w ← aget map (i / per); aset map (i / per) (Z.lor w (mask (i mod per))).
Definition map_clear (per : Z) (map : list Z) (i : Z) : option (list Z) :=
  w ← aget map (i / per); aset map (i / per) (clear_mask w (mask (i mod per))).
Definition map_test (per : Z) (map : list Z) (i : Z) : option Z :=
  w ← aget map (i / per); Some (Z.land w (mask (i mod per))).

Lemma map_set_Some per map i : 0 < per -> 0 <= i < per * Z.of_nat (length map) ->
  exists w, aget map (i / per) = Some w /\
    map_set per map i = Some (<[Z.to_nat (i / per) := Z.lor w (mask (i mod per))]> map).
Proof.
  intros Hp Hi. assert (0 <= i / per < Z.of_nat (length map)).
  { split; [apply Z.div_pos; lia|]. apply Z.div_lt_upper_bound; lia. }
  destruct (aget_is_Some map (i / per)) as [w Hw]; [lia|]. exists w. split; [done|].
  unfold map_set. rewrite Hw. cbn. by rewrite aset_is_Some by lia.
Qed.
Lemma map_clear_Some per map i : 0 < per -> 0 <= i < per * Z.of_nat (length map) ->
  exists w, aget map (i / per) = Some w /\
    map_clear per map i = Some (<[Z.to_nat (i / per) := clear_mask w (mask (i mod per))]> map).
Proof.
  intros Hp Hi. assert (0 <= i / per < Z.of_nat (length map)).
  { split; [apply Z.div_pos; lia|]. apply Z.div_lt_upper_bound; lia. }
  destruct (aget_is_Some map (i / per)) as [w Hw]; [lia|]. exists w. split; [done|].
  unfold map_clear. rewrite Hw. cbn. by rewrite aset_is_Some by lia.
Qed.
Lemma map_set_length per map i l : map_set per map i = Some l -> length l = length map.
Proof.
  unfold map_set. destruct (aget map (i / per)) as [w|]; [|done]. cbn.
  intros [_ ->]%aset_Some. by rewrite length_insert.
Qed.

(** * Operations on a part of the state *)
Section OnParts.
Context {St : Type}.
Implicit Types s : CF2fsSimulator St.

Lemma on_segs_runs {A} (m : M CF2fsSegmentManager A) s a g :
  runs m (fs_segs s) a g -> runs (on_segs m) s a (set_segs g s).
Proof. apply runs_zoom. Qed.
Lemma on_nat_runs {A} (m : M CNodeAddressTable A) s a t :
  runs m (fs_nat s) a t -> runs (on_nat m) s a (set_nat t s).
Proof. apply runs_zoom. Qed.
Lemma on_pages_runs {A} (m : M CPageAllocator A) s a t :
  runs m (fs_pages s) a t -> runs (on_pages m) s a (set_pages t s).
Proof. apply runs_zoom. Qed.
Lemma on_store_runs {A} (m : M St A) s a t :
  runs m (m_storage s) a t -> runs (on_store m) s a (set_store t s).
Proof. apply runs_zoom. Qed.
Lemma on_ckpt_runs {A} (m : M CKPT_BLOCK A) s a t :
  runs m (m_checkpoint s) a t -> runs (on_ckpt m) s a (set_ckpt t s).
Proof. apply runs_zoom. Qed.

Lemma set_pages_id s : set_pages (fs_pages s) s = s.
Proof. by destruct s. Qed.
Lemma set_segs_id s : set_segs (fs_segs s) s = s.
Proof. by destruct s. Qed.
Lemma set_nat_id s : set_nat (fs_nat s) s = s.
Proof. by destruct s. Qed.

(** Operations that leave the part as it is. *)
Lemma on_segs_keeps {A} (m : M CF2fsSegmentManager A) s a :
  runs m (fs_segs s) a (fs_segs s) -> runs (on_segs m) s a s.
Proof. intros H%on_segs_runs. by destruct s. Qed.
Lemma on_nat_keeps {A} (m : M CNodeAddressTable A) s a :
  runs m (fs_nat s) a (fs_nat s) -> runs (on_nat m) s a s.
Proof. intros H%on_nat_runs. by destruct s. Qed.
Lemma on_pages_keeps {A} (m : M CPageAllocator A) s a :
  runs m (fs_pages s) a (fs_pages s) -> runs (on_pages m) s a s.
Proof. intros H%on_pages_runs. by destruct s. Qed.
End OnParts.
