(* ===== verification/Segment.v ===== *)
(** Segment: the table of segments, its free queue and the block bitmaps,
    f2fs_segment.h and f2fs_segment.cpp.  The functions here need nothing but
    the segment manager itself. *)
From S2P Require Export State.

Abbreviation Segs := CF2fsSegmentManager.

(** * Addresses *)
Definition seg_to_lba (seg blk : Z) : Z := (MAIN_SEG_OFFSET + seg) * BLOCK_PER_SEG + blk.
Definition BlockToSeg (phy_blk : Z) : Z * Z :=
  if is_invalid16 phy_blk then (INVALID16, INVALID16)
  else (phy_blk / BLOCK_PER_SEG, phy_blk mod BLOCK_PER_SEG).
Definition PhyBlock (seg_id blk_id : Z) : Z := w16 (seg_id * BLOCK_PER_SEG + blk_id).
Definition phyblk_to_lba (phy_blk : Z) : Z := phy_blk + MAIN_SEG_OFFSET * BLOCK_PER_SEG.

(** * Block bitmaps (one DWORD) *)
Definition set_bitmap (bmp blk : Z) : Z := Z.lor bmp (mask blk).
Definition clear_bitmap (bmp blk : Z) : Z := clear_mask bmp (mask blk).
Definition test_bitmap (bmp blk : Z) : Z := Z.land bmp (mask blk).

(** * Access to the table *)
Definition seg_at (i : Z) : M Segs SegmentInfo := s <- get ;; opt (aget (m_segments s) i).
Definition seg_put (i : Z) (g : SegmentInfo) : M Segs unit :=
  s <- get ;; l <- opt (aset (m_segments s) i g) ;;
  put (mkSegs l (m_cur_segs s) (m_dirty_map s) (m_free_tail s) (m_free_head s) (m_free_nr s)
         (m_used_blk_nr s) (cache_nid s) (cache_offset s)).
Definition seg_upd (i : Z) (f : SegmentInfo -> SegmentInfo) : M Segs unit :=
  g <- seg_at i ;; seg_put i (f g).

Definition set_bmp_nr (b n : Z) (g : SegmentInfo) : SegmentInfo :=
  mkSeg b n (seg_temp g) (nids g) (offsets g) (free_next g).
Definition set_seg_temp (t : Z) (g : SegmentInfo) : SegmentInfo :=
  mkSeg (valid_bmp g) (valid_blk_nr g) t (nids g) (offsets g) (free_next g).
Definition set_free_next (n : Z) (g : SegmentInfo) : SegmentInfo :=
  mkSeg (valid_bmp g) (valid_blk_nr g) (seg_temp g) (nids g) (offsets g) n.
Definition set_owners (ns os : list Z) (g : SegmentInfo) : SegmentInfo :=
  mkSeg (valid_bmp g) (valid_blk_nr g) (seg_temp g) ns os (free_next g).
(** [seg.nids[blk] = n; seg.offset[blk] = o] *)
Definition set_owner (blk n o : Z) (g : SegmentInfo) : option SegmentInfo :=
  ns ← aset (nids g) blk n; os ← aset (offsets g) blk o; Some (set_owners ns os g).

Definition set_queue (tail head nr : Z) (s : Segs) : Segs :=
  mkSegs (m_segments s) (m_cur_segs s) (m_dirty_map s) tail head nr (m_used_blk_nr s)
    (cache_nid s) (cache_offset s).
Definition set_used (n : Z) (s : Segs) : Segs :=
  mkSegs (m_segments s) (m_cur_segs s) (m_dirty_map s) (m_free_tail s) (m_free_head s)
    (m_free_nr s) n (cache_nid s) (cache_offset s).
Definition set_data_cache (n o : Z) (s : Segs) : Segs :=
  mkSegs (m_segments s) (m_cur_segs s) (m_dirty_map s) (m_free_tail s) (m_free_head s)
    (m_free_nr s) (m_used_blk_nr s) n o.
Definition set_cur_segs (l : list CURSEG_INFO) (s : Segs) : Segs :=
  mkSegs (m_segments s) l (m_dirty_map s) (m_free_tail s) (m_free_head s) (m_free_nr s)
    (m_used_blk_nr s) (cache_nid s) (cache_offset s).
Definition set_dirty_map (l : list Z) (s : Segs) : Segs :=
  mkSegs (m_segments s) (m_cur_segs s) l (m_free_tail s) (m_free_head s) (m_free_nr s)
    (m_used_blk_nr s) (cache_nid s) (cache_offset s).

(** [m_cur_segs[temp].seg_no].  The code also reads it with the temperature -1
    of memory filled with 0xFF and with [BT_TEMP_NR], one entry before and one
    after the array.  Before it are the last four bytes of [m_segments]: the
    word [free_next] of the last segment, then two bytes of padding.  After it
    is the first word of [m_dirty_map]. *)
Definition cur_seg_no (temp : Z) : M Segs Z :=
  s <- get ;;
  if temp =? BT_FF then g <- seg_at (MAIN_SEG_NR - 1) ;; ret (free_next g)
  else if temp =? BT_TEMP_NR then w <- opt (aget (m_dirty_map s) 0) ;; ret (w16 w)
  else c <- opt (aget (m_cur_segs s) temp) ;; ret (seg_no c).

(** * Dirty entries of the segment information table *)
Definition seg_is_dirty (seg_id : Z) : M Segs Z :=
  s <- get ;; opt (map_test SIT_ENTRY_PER_BLK (m_dirty_map s) seg_id).
Definition seg_set_dirty (seg_id : Z) : M Segs unit :=
  s <- get ;; l <- opt (map_set SIT_ENTRY_PER_BLK (m_dirty_map s) seg_id) ;; put (set_dirty_map l s).
Definition seg_clear_dirty (seg_id : Z) : M Segs unit :=
  s <- get ;; l <- opt (map_clear SIT_ENTRY_PER_BLK (m_dirty_map s) seg_id) ;; put (set_dirty_map l s).
Definition reset_dirty_map : M Segs unit := modify (set_dirty_map (rep SIT_BLK_NR 0)).

(** * The free queue: a circular list through [free_next] *)
Definition free_en_queue (ii : Z) : M Segs unit :=
  s <- get ;;
  (if is_valid16 (m_free_head s) then
     h <- seg_at (m_free_head s) ;;
     seg_upd ii (set_free_next (free_next h)) ;;;
     seg_upd (m_free_head s) (set_free_next ii) ;;;
     modify (set_queue (m_free_tail s) ii (m_free_nr s))
   else
     check (is_invalid16 (m_free_tail s)) ;;;
     seg_upd ii (set_free_next ii) ;;;
     modify (set_queue ii ii (m_free_nr s))) ;;;
  modify (fun s => set_queue (m_free_tail s) (m_free_head s) (w16 (m_free_nr s + 1)) s).

Definition free_de_queue : M Segs Z :=
  s <- get ;;
  if is_invalid16 (m_free_head s) || is_invalid16 (m_free_tail s) then throw (FsError ERR_GENERAL)
  else
    let new_seg := m_free_tail s in
    (if m_free_tail s =? m_free_head s then
       modify (set_queue INVALID16 INVALID16 (m_free_nr s))
     else
       g <- seg_at new_seg ;;
       modify (set_queue (free_next g) (m_free_head s) (m_free_nr s)) ;;;
       seg_upd (m_free_head s) (set_free_next (free_next g))) ;;;
    modify (fun s => set_queue (m_free_tail s) (m_free_head s) (w16 (m_free_nr s - 1)) s) ;;;
    ret new_seg.

Definition FreeSegment (seg_id : Z) : M Segs unit :=
  seg_upd seg_id (set_seg_temp BT_TEMP_NR) ;;;
  free_en_queue seg_id ;;;
  seg_set_dirty seg_id.

Definition build_free_link : M Segs unit :=
  modify (set_queue INVALID16 INVALID16 0) ;;;
  modify (set_used 0) ;;;
  mfor (range 0 MAIN_SEG_NR) (fun ii =>
    seg <- seg_at ii ;;
    modify (fun s => set_used (w16 (m_used_blk_nr s + valid_blk_nr seg)) s) ;;;
    isfree <- (if valid_blk_nr seg =? 0
               then n <- cur_seg_no (seg_temp seg) ;; ret (negb (n =? ii)) else ret false) ;;
    if isfree : bool
    then seg_upd ii (set_seg_temp BT_TEMP_NR) ;;; free_en_queue ii
    else seg_upd ii (set_free_next INVALID16)).

(** * Initialization *)
Definition InitSegmentManager : M Segs unit :=
  modify (fun s =>
    mkSegs (rep MAIN_SEG_NR (set_bmp_nr 0 0 SegmentInfo_ff)) (m_cur_segs s)
      (rep SIT_BLK_NR INVALID32) (m_free_tail s) (m_free_head s) (m_free_nr s)
      (m_used_blk_nr s) (cache_nid s) (cache_offset s)) ;;;
  build_free_link ;;;
  modify (set_cur_segs (rep BT_TEMP_NR CURSEG_ff)) ;;;
  modify (set_data_cache INVALID16 INVALID32).

Definition segs_Reset : M Segs unit :=
  modify (fun s =>
    mkSegs (rep MAIN_SEG_NR SegmentInfo_ff) (rep BT_TEMP_NR CURSEG_ff) (rep SIT_BLK_NR 0)
      INVALID16 INVALID16 0 (m_used_blk_nr s) INVALID16 INVALID32).

(** [CopyFrom]: everything but the data cache. *)
Definition segs_CopyFrom (src : Segs) : M Segs unit :=
  put (set_data_cache INVALID16 INVALID32 src).

(** * Owners of blocks and validity *)
Definition get_free_blk_nr (s : Segs) : Z := w16 (MAIN_SEG_NR * BLOCK_PER_SEG - m_used_blk_nr s).
Definition get_segment (id : Z) : M Segs SegmentInfo :=
  check (id <? MAIN_SEG_NR) ;;; seg_at id.

Definition GetBlockInfo (phy_blk : Z) : M Segs (Z * Z) :=
  let '(seg_id, blk_id) := BlockToSeg phy_blk in
  seg <- seg_at seg_id ;;
  if test_bitmap (valid_bmp seg) blk_id =? 0 then ret (INVALID16, INVALID16)
  else
    n <- opt (aget (nids seg) blk_id) ;;
    o <- opt (aget (offsets seg) blk_id) ;;
    ret (n, o).

Definition SetBlockInfo (n o phy_blk : Z) : M Segs unit :=
  let '(seg_id, blk_id) := BlockToSeg phy_blk in
  seg <- seg_at seg_id ;;
  seg' <- opt (set_owner blk_id n o seg) ;;
  seg_put seg_id seg' ;;;
  seg_set_dirty seg_id.

(** [InvalidBlock(SEG_T, BLK_T)] *)
Definition InvalidBlock_at (seg_id blk_id : Z) : M Segs bool :=
  check (seg_id <? MAIN_SEG_NR) ;;;
  seg <- seg_at seg_id ;;
  if test_bitmap (valid_bmp seg) blk_id =? 0 then throw (FsError ERR_DOUBLED_BLK) else
  let nr := w32 (valid_blk_nr seg - 1) in
  let bmp := clear_bitmap (valid_bmp seg) blk_id in
  modify (fun s => set_used (w16 (m_used_blk_nr s - 1)) s) ;;;
  seg' <- opt (set_owner blk_id INVALID16 INVALID16 (set_bmp_nr bmp nr seg)) ;;
  seg_put seg_id seg' ;;;
  seg_set_dirty seg_id ;;;
  isfree <- (if nr =? 0 then n <- cur_seg_no (seg_temp seg) ;; ret (negb (n =? seg_id))
             else ret false) ;;
  if isfree : bool then
    if negb (bmp =? 0) then throw ERR_USER else FreeSegment seg_id ;;; ret true
  else ret false.

(** [InvalidBlock(PHY_BLK)] *)
Definition InvalidBlock (phy_blk : Z) : M Segs bool :=
  if is_invalid16 phy_blk then ret false
  else let '(seg_id, blk_id) := BlockToSeg phy_blk in InvalidBlock_at seg_id blk_id.

(** * Entries of the segment information table *)
Definition fill_seg_info (seg : Z) : M Segs SEG_INFO :=
  g <- seg_at seg ;; ret (mkSegInfo (valid_bmp g) (valid_blk_nr g) (seg_temp g)).
Definition read_seg_info (info : SEG_INFO) (seg : Z) : M Segs unit :=
  seg_upd seg (fun g => mkSeg (si_valid_bmp info) (si_valid_blk_nr info) (si_seg_temp info)
                          (nids g) (offsets g) (free_next g)).

(** * The part of the class that writes a block: the segment the block goes to
    has been chosen, [blk_id] is the block in it. *)
Definition clear_data_cache : M Segs unit := modify (set_data_cache INVALID16 INVALID32).

(** The steps of [AllocSegment] that take a segment from the queue. *)
Definition take_free_segment (temp : Z) : M Segs Z :=
  new_seg <- free_de_queue ;;
  seg_upd new_seg (fun g =>
    mkSeg 0 0 temp (rep BLOCK_PER_SEG INVALID16) (rep BLOCK_PER_SEG INVALID16) (free_next g)) ;;;
  seg_set_dirty new_seg ;;;
  ret new_seg.

(** A temperature's current segment. *)
Definition curseg_at (temp : Z) : M Segs CURSEG_INFO :=
  s <- get ;; opt (aget (m_cur_segs s) temp).
Definition curseg_put (temp : Z) (c : CURSEG_INFO) : M Segs unit :=
  s <- get ;; l <- opt (aset (m_cur_segs s) temp c) ;; put (set_cur_segs l s).
