(* ===== verification/SegmentInv.v ===== *)
(** SegmentInv: the invariant of the segment table.  Every bitmap agrees with
    its counter, the number of used blocks is the sum of the counters, and the
    free queue is a FIFO queue of segments without valid blocks. *)
From S2P Require Export Segment Bits.

Record seg_ok (g : SegmentInfo) : Prop := {
  so_nids : Z.of_nat (length (nids g)) = BLOCK_PER_SEG;
  so_offs : Z.of_nat (length (offsets g)) = BLOCK_PER_SEG;
  so_bmp : 0 <= valid_bmp g < 2 ^ 16;
  so_nr : valid_blk_nr g = popcount BLOCK_PER_SEG (valid_bmp g);
  so_temp : BT_FF <= seg_temp g <= BT_TEMP_NR
}.

Definition total_valid (l : list SegmentInfo) : Z :=
  foldr (fun g n => valid_blk_nr g + n) 0 l.
#[global] Arguments total_valid : simpl never.

(** The segments of [q] are linked in this order, the last one to [f]. *)
Fixpoint chain (l : list SegmentInfo) (q : list Z) (f : Z) : Prop :=
  match q with
  | [] => True
  | x :: q' =>
      (exists g, aget l x = Some g /\ free_next g = default f (head q')) /\ chain l q' f
  end.

(** The circular list: [tail] is its first element, [head] its last one. *)
Definition queue (l : list SegmentInfo) (tail head : Z) (q : list Z) : Prop :=
  match q with
  | [] => tail = INVALID16 /\ head = INVALID16
  | x :: _ => tail = x /\ last q = Some head /\ chain l q x
  end.

(** The table and its queue [q], whatever the number of used blocks says. *)
Record segs_q (s : Segs) (q : list Z) : Prop := {
  sw_len : Z.of_nat (length (m_segments s)) = MAIN_SEG_NR;
  sw_seg : Forall seg_ok (m_segments s);
  sw_cur : Z.of_nat (length (m_cur_segs s)) = BT_TEMP_NR;
  sw_map : Z.of_nat (length (m_dirty_map s)) = SIT_BLK_NR;
  sw_queue : queue (m_segments s) (m_free_tail s) (m_free_head s) q;
  sw_nodup : NoDup q;
  sw_empty x : x ∈ q -> exists g, aget (m_segments s) x = Some g /\ valid_blk_nr g = 0;
  sw_nr : m_free_nr s = Z.of_nat (length q)
}.
Record segs_wf (s : Segs) (q : list Z) : Prop := {
  sw_q :> segs_q s q;
  sw_used : m_used_blk_nr s = total_valid (m_segments s)
}.

(** * Lists of segments *)
Lemma total_insert l i g g' : aget l i = Some g ->
  total_valid (<[Z.to_nat i := g']> l) = total_valid l - valid_blk_nr g + valid_blk_nr g'.
Proof.
  intros [_ Hi]%aget_Some. revert Hi. generalize (Z.to_nat i) as k. clear i.
  induction l as [|h l IH]; intros [|k] Hk; [done|done| |].
  - injection Hk as ->. change (<[O := g']> (g :: l)) with (g' :: l). unfold total_valid. cbn. lia.
  - change (<[S k := g']> (h :: l)) with (h :: <[k := g']> l).
    change (valid_blk_nr h + total_valid (<[k := g']> l) =
      valid_blk_nr h + total_valid l - valid_blk_nr g + valid_blk_nr g').
    rewrite (IH k Hk). lia.
Qed.

Lemma total_bounds l : Forall seg_ok l -> 0 <= total_valid l <= BLOCK_PER_SEG * Z.of_nat (length l).
Proof.
  induction 1 as [|g l Hg Hl IH]; [unfold total_valid; cbn; lia|]. change (total_valid (g :: l)) with (valid_blk_nr g + total_valid l). cbn [length].
  pose proof (popcount_bounds BLOCK_PER_SEG (valid_bmp g) ltac:(clia)). rewrite (so_nr _ Hg).
  clia.
Qed.

Lemma seg_ok_at s q i g : segs_q s q -> aget (m_segments s) i = Some g -> seg_ok g.
Proof.
  intros H [_ Hg]%aget_Some. eapply Forall_lookup_1; [by eapply sw_seg|exact Hg].
Qed.

Lemma segs_at s q i : segs_q s q -> 0 <= i < MAIN_SEG_NR -> exists g, aget (m_segments s) i = Some g.
Proof. intros H Hi. apply aget_is_Some. rewrite (sw_len _ _ H). done. Qed.

Lemma queue_range s q x : segs_q s q -> x ∈ q -> 0 <= x < MAIN_SEG_NR.
Proof.
  intros H Hx. destruct (sw_empty _ _ H x Hx) as (g & Hg%aget_bounds & _).
  by rewrite (sw_len _ _ H) in Hg.
Qed.

(** The queue holds at most every segment. *)
Lemma queue_length s q : segs_q s q -> Z.of_nat (length q) <= MAIN_SEG_NR.
Proof.
  intros H. assert (Z.of_nat (length q) <= Z.max 0 MAIN_SEG_NR) as Hb; [|clia].
  apply NoDup_bounded; [apply H|]. intros x. by eapply queue_range.
Qed.

Lemma chain_insert l q f x g : x ∉ q -> 0 <= x -> chain l q f -> chain (<[Z.to_nat x := g]> l) q f.
Proof.
  intros Hx H0. induction q as [|y q IH]; cbn; [done|]. intros [(h & Hh & Hn) Hc]. split.
  - exists h. rewrite aget_insert_ne by set_solver. done.
  - apply IH; [set_solver|done].
Qed.

(** Changing a segment without its link. *)
Lemma chain_same_next l q f x g g' :
  aget l x = Some g -> free_next g' = free_next g -> chain l q f ->
  chain (<[Z.to_nat x := g']> l) q f.
Proof.
  intros Hx Hn. pose proof (aget_bounds _ _ _ Hx). induction q as [|y q IH]; cbn; [done|].
  intros [(h & Hh & Hf) Hc]. split; [|by apply IH].
  destruct (decide (y = x)) as [->|Hne].
  - exists g'. rewrite aget_insert_eq by lia. simplify_eq. split; [done|congruence].
  - exists h. rewrite aget_insert_ne by lia. done.
Qed.

(** Linking the last element elsewhere. *)
Lemma chain_relink l q f f' h g :
  NoDup q -> last q = Some h -> aget l h = Some g -> chain l q f ->
  chain (<[Z.to_nat h := set_free_next f' g]> l) q f'.
Proof.
  intros Hnd Hl Hg. pose proof (aget_bounds _ _ _ Hg).
  induction q as [|y q IH]; [done|]. apply NoDup_cons in Hnd as [Hy Hnd].
  destruct q as [|z q].
  - injection Hl as ->. intros _. cbn. split; [|done]. eexists.
    rewrite aget_insert_eq by lia. done.
  - rewrite last_cons_cons in Hl.
    assert (y <> h). { intros ->. apply Hy. by apply last_Some_elem_of. }
    intros [(k & Hk & Hn) Hc]. split; [|by apply IH].
    exists k. rewrite aget_insert_ne by lia. done.
Qed.

(** Appending an element. *)
Lemma chain_app l q f h x gx gh :
  NoDup q -> x ∉ q -> last q = Some h -> aget l x = Some gx -> aget l h = Some gh -> chain l q f ->
  chain (<[Z.to_nat h := set_free_next x gh]> (<[Z.to_nat x := set_free_next f gx]> l)) (q ++ [x]) f.
Proof.
  intros Hnd Hx Hl Hgx Hgh Hc.
  pose proof (aget_bounds _ _ _ Hgx). pose proof (aget_bounds _ _ _ Hgh).
  assert (Hhx : h <> x). { intros ->. apply Hx. by apply last_Some_elem_of. }
  assert (Hc1 : chain (<[Z.to_nat h := set_free_next x gh]> (<[Z.to_nat x := set_free_next f gx]> l)) q x).
  { eapply chain_relink; [done|done| |by apply chain_insert; [|lia|]].
    by rewrite aget_insert_ne by lia. }
  assert (Hx1 : aget (<[Z.to_nat h := set_free_next x gh]> (<[Z.to_nat x := set_free_next f gx]> l)) x
                = Some (set_free_next f gx)).
  { rewrite aget_insert_ne by lia. by rewrite aget_insert_eq by lia. }
  revert Hc1 Hx1. generalize (<[Z.to_nat h := set_free_next x gh]> (<[Z.to_nat x := set_free_next f gx]> l)).
  clear. intros l Hc Hx. induction q as [|y q IH].
  - cbn. split; [|done]. by eexists.
  - destruct Hc as [(g & Hg & Hn) Hc]. cbn [app chain]. split; [|by apply IH].
    exists g. split; [done|]. rewrite Hn. by destruct q.
Qed.

(** * Runs of the basic operations *)
Lemma seg_at_runs s i g : aget (m_segments s) i = Some g -> runs (seg_at i) s g s.
Proof. intros H. unfold runs, seg_at, bind, get, opt. by rewrite H. Qed.

Definition with_segs (l : list SegmentInfo) (s : Segs) : Segs :=
  mkSegs l (m_cur_segs s) (m_dirty_map s) (m_free_tail s) (m_free_head s) (m_free_nr s)
    (m_used_blk_nr s) (cache_nid s) (cache_offset s).

Lemma seg_put_runs s i g g' : aget (m_segments s) i = Some g ->
  runs (seg_put i g') s tt (with_segs (<[Z.to_nat i := g']> (m_segments s)) s).
Proof.
  intros H%aget_bounds. unfold runs, seg_put, bind, get, opt, put. by rewrite aset_is_Some by lia.
Qed.
Lemma seg_upd_runs s i g f : aget (m_segments s) i = Some g ->
  runs (seg_upd i f) s tt (with_segs (<[Z.to_nat i := f g]> (m_segments s)) s).
Proof.
  intros H. unfold seg_upd. eapply runs_bind; [by apply seg_at_runs|]. by eapply seg_put_runs.
Qed.

(** What the code reads as the current segment of a temperature,
    by the layout of the class. *)
Definition cur_of (s : Segs) (temp : Z) : Z :=
  if temp =? BT_FF then default INVALID16 (free_next <$> aget (m_segments s) (MAIN_SEG_NR - 1))
  else if temp =? BT_TEMP_NR then w16 (default 0 (aget (m_dirty_map s) 0))
  else default INVALID16 (seg_no <$> aget (m_cur_segs s) temp).
Record table_ok (s : Segs) : Prop := {
  tb_len : Z.of_nat (length (m_segments s)) = MAIN_SEG_NR;
  tb_seg : Forall seg_ok (m_segments s);
  tb_cur : Z.of_nat (length (m_cur_segs s)) = BT_TEMP_NR;
  tb_map : Z.of_nat (length (m_dirty_map s)) = SIT_BLK_NR
}.

Lemma cur_seg_no_of s t : table_ok s -> BT_FF <= t <= BT_TEMP_NR -> runs (cur_seg_no t) s (cur_of s t) s.
Proof.
  intros H Ht. unfold cur_seg_no, cur_of. change (runs
    (if t =? BT_FF then g <- seg_at (MAIN_SEG_NR - 1) ;; ret (free_next g)
     else if t =? BT_TEMP_NR then w <- opt (aget (m_dirty_map s) 0) ;; ret (w16 w)
     else c <- opt (aget (m_cur_segs s) t) ;; ret (seg_no c)) s
    (if t =? BT_FF then default INVALID16 (free_next <$> aget (m_segments s) (MAIN_SEG_NR - 1))
     else if t =? BT_TEMP_NR then w16 (default 0 (aget (m_dirty_map s) 0))
     else default INVALID16 (seg_no <$> aget (m_cur_segs s) t)) s).
  destruct (Z.eqb_spec t BT_FF); [|destruct (Z.eqb_spec t BT_TEMP_NR)].
  - destruct (aget_is_Some (m_segments s) (MAIN_SEG_NR - 1)) as [g Hg]; [rewrite (tb_len _ H); clia|].
    rewrite Hg. eapply runs_bind; [by apply seg_at_runs|done].
  - destruct (aget_is_Some (m_dirty_map s) 0) as [w Hw]; [rewrite (tb_map _ H); clia|]. by rewrite Hw.
  - destruct (aget_is_Some (m_cur_segs s) t) as [c Hc]; [rewrite (tb_cur _ H); clia|]. by rewrite Hc.
Qed.

Lemma q_table s q : segs_q s q -> table_ok s.
Proof. intros []. by constructor. Qed.

Lemma seg_set_dirty_runs s q i : segs_q s q -> 0 <= i < MAIN_SEG_NR ->
  exists l, runs (seg_set_dirty i) s tt (set_dirty_map l s) /\ Z.of_nat (length l) = SIT_BLK_NR /\
    map_set SIT_ENTRY_PER_BLK (m_dirty_map s) i = Some l.
Proof.
  intros H Hi. destruct (map_set_Some SIT_ENTRY_PER_BLK (m_dirty_map s) i) as (w & _ & Hl).
  - clia.
  - rewrite (sw_map _ _ H). clia.
  - eexists. unfold runs, seg_set_dirty, bind, get, opt, put. rewrite Hl. split_and!; [done| |done].
    rewrite length_insert. apply H.
Qed.

(** * Preservation *)

(** Replacing a segment that keeps its link. *)
Lemma q_replace s q i g g' :
  segs_q s q -> aget (m_segments s) i = Some g -> seg_ok g' -> free_next g' = free_next g ->
  (i ∈ q -> valid_blk_nr g' = 0) ->
  segs_q (with_segs (<[Z.to_nat i := g']> (m_segments s)) s) q.
Proof.
  intros H Hg Hok Hn Hq. pose proof (aget_bounds _ _ _ Hg) as Hb. constructor; cbn.
  - rewrite length_insert. apply H.
  - apply Forall_insert; [apply H|done].
  - apply H.
  - apply H.
  - pose proof (sw_queue _ _ H) as Hqu. unfold queue in *. destruct q as [|x q]; [done|].
    destruct Hqu as (H1 & H2 & H3). split_and!; [done|done|]. by eapply chain_same_next.
  - apply H.
  - intros x Hx. destruct (sw_empty _ _ H x Hx) as (h & Hh & H0).
    destruct (decide (x = i)) as [->|Hne].
    + exists g'. rewrite aget_insert_eq by lia. auto.
    + exists h. rewrite aget_insert_ne by lia. done.
  - apply H.
Qed.

Lemma q_dirty s q l : segs_q s q -> Z.of_nat (length l) = SIT_BLK_NR -> segs_q (set_dirty_map l s) q.
Proof. intros [] Hl. by constructor. Qed.
Lemma q_used s q u : segs_q s q -> segs_q (set_used u s) q.
Proof. intros []. by constructor. Qed.
Lemma q_cache s q n o : segs_q s q -> segs_q (set_data_cache n o s) q.
Proof. intros []. by constructor. Qed.
Lemma q_cur s q l : segs_q s q -> Z.of_nat (length l) = BT_TEMP_NR -> segs_q (set_cur_segs l s) q.
Proof. intros [] Hl. by constructor. Qed.

Lemma seg_ok_set_next n g : seg_ok g -> seg_ok (set_free_next n g).
Proof. intros []. by constructor. Qed.

(** Enqueueing appends to the queue. *)
Lemma free_en_queue_spec s q x g :
  segs_q s q -> x ∉ q -> aget (m_segments s) x = Some g -> valid_blk_nr g = 0 ->
  exists s', runs (free_en_queue x) s tt s' /\ segs_q s' (q ++ [x]) /\
    total_valid (m_segments s') = total_valid (m_segments s) /\ m_used_blk_nr s' = m_used_blk_nr s /\ m_dirty_map s' = m_dirty_map s /\
    m_cur_segs s' = m_cur_segs s /\
    (forall i h, aget (m_segments s) i = Some h ->
       exists n, aget (m_segments s') i = Some (set_free_next n h)) /\
    (forall i, i ∉ q -> i <> x -> aget (m_segments s') i = aget (m_segments s) i).
Proof.
  intros H Hx Hg H0. pose proof (aget_bounds _ _ _ Hg) as Hb.
  pose proof (queue_length _ _ H) as Hql. pose proof (sw_queue _ _ H) as Hq.
  assert (Hnr : forall n, m_free_nr s = n -> 0 <= n < 65535 -> w16 (n + 1) = n + 1).
  { intros n _ Hn. unfold w16. rewrite Z.mod_small; lia. }
  destruct q as [|y q].
  - destruct Hq as [Ht Hh].
    set (s1 := with_segs (<[Z.to_nat x := set_free_next x g]> (m_segments s)) s).
    exists (set_queue x x 1 s1). split_and!.
    + unfold free_en_queue. eapply runs_bind; [done|]. rewrite Ht, Hh. cbn.
      apply (runs_bind _ _ _ tt (set_queue x x (m_free_nr s) s1)).
      * eapply runs_bind; [done|]. eapply runs_bind; [by apply seg_upd_runs|]. done.
      * unfold runs, modify. cbn. rewrite (sw_nr _ _ H). done.
    + constructor; cbn.
      * rewrite length_insert. apply H.
      * apply Forall_insert; [apply H|]. apply seg_ok_set_next. by eapply seg_ok_at.
      * apply H.
      * apply H.
      * split_and!; [done|done| |done]. eexists. rewrite aget_insert_eq by lia. done.
      * apply NoDup_singleton.
      * intros z ->%list_elem_of_singleton. eexists. rewrite aget_insert_eq by lia. done.
      * done.
    + cbn. rewrite (total_insert _ _ _ _ Hg). cbn. lia.
    + done.
    + done.
    + done.
    + intros i h Hi. destruct (decide (i = x)) as [->|Hne]; cbn.
      * rewrite aget_insert_eq by lia. exists x. by simplify_eq.
      * rewrite aget_insert_ne by lia. exists (free_next h). by destruct h.
    + intros i _ Hi. cbn. by rewrite aget_insert_ne by lia.
  - destruct Hq as (Ht & Hl & Hc). set (h := m_free_head s) in *.
    assert (Hhq : h ∈ y :: q) by (by apply last_Some_elem_of).
    destruct (sw_empty _ _ H h Hhq) as (gh & Hgh & Hh0).
    pose proof (queue_range _ _ _ H Hhq) as Hhr.
    assert (Hhx : h <> x) by (intros ->; done).
    set (l1 := <[Z.to_nat x := set_free_next (free_next gh) g]> (m_segments s)).
    set (l2 := <[Z.to_nat h := set_free_next x gh]> l1).
    assert (Hfirst : free_next gh = y).
    { clear -Hl Hc Hgh. enough (forall f, chain (m_segments s) (y :: q) f -> free_next gh = f) by eauto.
      clear Hc. revert y Hl. induction q as [|z q IH]; intros y Hl f.
      - injection Hl as ->. intros [(k & Hk & Hn) _]. cbn in Hn. congruence.
      - rewrite last_cons_cons in Hl. intros [_ Hc]. by eapply IH. }
    exists (set_queue y x (m_free_nr s + 1) (with_segs l2 s)). split_and!.
    + unfold free_en_queue. eapply runs_bind; [done|]. fold h.
      rewrite (proj2 (Z.eqb_neq h INVALID16)) by clia. cbn [negb].
      apply (runs_bind _ _ _ tt (set_queue y x (m_free_nr s) (with_segs l2 s))).
      * eapply runs_bind; [by apply seg_at_runs|]. eapply runs_bind; [by apply seg_upd_runs|].
        eapply runs_bind.
        { eapply (seg_upd_runs _ h gh). cbn. rewrite aget_insert_ne by lia. done. }
        unfold runs, modify. cbn. by rewrite Ht.
      * unfold runs, modify. cbn. rewrite Hnr with (n := m_free_nr s); [done|done|].
        rewrite (sw_nr _ _ H). clia.
    + constructor; cbn [m_segments m_used_blk_nr m_cur_segs m_dirty_map m_free_tail m_free_head m_free_nr set_queue with_segs].
      * unfold l2, l1. rewrite !length_insert. apply H.
      * unfold l2, l1. apply Forall_insert; [apply Forall_insert; [apply H|]|];
          apply seg_ok_set_next; by eapply seg_ok_at.
      * apply H.
      * apply H.
      * change ((y :: q) ++ [x]) with (y :: (q ++ [x])). split_and!; [done| |].
        -- rewrite app_comm_cons. by rewrite last_snoc.
        -- rewrite app_comm_cons. unfold l2, l1. rewrite Hfirst. by eapply chain_app; [apply H|..].
      * apply NoDup_app. split_and!; [apply H| |apply NoDup_singleton].
        intros z Hz ->%list_elem_of_singleton. done.
      * intros z [Hz| ->%list_elem_of_singleton]%elem_of_app.
        -- destruct (sw_empty _ _ H z Hz) as (k & Hk & Hk0). unfold l2.
           destruct (decide (z = h)) as [->|Hne].
           ++ eexists. rewrite aget_insert_eq by (unfold l1; rewrite length_insert, (sw_len _ _ H); lia). done.
           ++ exists k. rewrite aget_insert_ne by lia. unfold l1. rewrite aget_insert_ne by set_solver.
              done.
        -- eexists. unfold l2. rewrite aget_insert_ne by lia. unfold l1.
           rewrite aget_insert_eq by lia. done.
      * rewrite (sw_nr _ _ H), length_app. cbn [length]. lia.
    + cbn. unfold l2. rewrite (total_insert _ _ gh) by (unfold l1; by rewrite aget_insert_ne by lia).
      unfold l1. rewrite (total_insert _ _ _ _ Hg). cbn. lia.
    + done.
    + done.
    + done.
    + intros i k Hi. cbn. unfold l2. destruct (decide (i = h)) as [->|Hne].
      * rewrite aget_insert_eq by (unfold l1; rewrite length_insert, (sw_len _ _ H); done). exists x. by simplify_eq.
      * rewrite aget_insert_ne by lia. unfold l1. destruct (decide (i = x)) as [->|Hne'].
        -- rewrite aget_insert_eq by lia. eexists. by simplify_eq.
        -- rewrite aget_insert_ne by lia. exists (free_next k). by destruct k.
    + intros i Hiq Hix. cbn. unfold l2. rewrite aget_insert_ne by (set_solver || lia).
      unfold l1. by rewrite aget_insert_ne by lia.
Qed.

(** Dequeueing takes the first element. *)
Lemma free_de_queue_spec s q x :
  segs_q s (x :: q) ->
  exists s', runs free_de_queue s x s' /\ segs_q s' q /\
    total_valid (m_segments s') = total_valid (m_segments s) /\ m_used_blk_nr s' = m_used_blk_nr s /\
    m_dirty_map s' = m_dirty_map s /\ m_cur_segs s' = m_cur_segs s /\
    (forall i h, aget (m_segments s) i = Some h ->
       exists n, aget (m_segments s') i = Some (set_free_next n h)).
Proof.
  intros H. pose proof (queue_length _ _ H) as Hql. pose proof (sw_queue _ _ H) as (Ht & Hl & Hc).
  pose proof (sw_nodup _ _ H) as [Hx Hnd]%NoDup_cons.
  pose proof (queue_range _ _ x H ltac:(set_solver)) as Hxr.
  assert (Hnr : w16 (m_free_nr s - 1) = Z.of_nat (length q)).
  { rewrite (sw_nr _ _ H). cbn [length] in *. unfold w16. rewrite Z.mod_small; clia. }
  assert (Hhr : 0 <= m_free_head s < MAIN_SEG_NR).
  { eapply queue_range; [exact H|]. by apply last_Some_elem_of. }
  unfold runs, free_de_queue. unfold bind at 1, get at 1.
  rewrite Ht. rewrite (proj2 (Z.eqb_neq (m_free_head s) INVALID16)) by clia.
  rewrite (proj2 (Z.eqb_neq x INVALID16)) by clia. cbn [orb].
  destruct q as [|y q].
  - injection Hl as Hh. rewrite <- Hh, Z.eqb_refl.
    eexists. split; [unfold bind, modify; cbn; rewrite Hnr; done|].
    split_and!; [|done..|].
    + destruct H as [? ? ? ? ? ? He ?]. constructor; cbn; try done; try set_solver.
    + intros i h Hi. exists (free_next h). cbn. rewrite Hi. by destruct h.
  - rewrite last_cons_cons in Hl. set (h := m_free_head s) in *.
    assert (Hhq : h ∈ y :: q) by (by apply last_Some_elem_of).
    assert (x <> h) by (intros ->; set_solver).
    rewrite (proj2 (Z.eqb_neq x h)) by done.
    destruct Hc as [(g & Hg & Hn) Hc]. cbn in Hn.
    destruct (sw_empty _ _ H h ltac:(set_solver)) as (gh & Hgh & Hh0).
    set (l1 := <[Z.to_nat h := set_free_next y gh]> (m_segments s)).
    exists (set_queue y h (Z.of_nat (length (y :: q))) (with_segs l1 s)). split_and!.
    + apply (runs_bind _ _ _ tt (set_queue y h (m_free_nr s) (with_segs l1 s))).
      * eapply runs_bind; [by apply seg_at_runs|]. rewrite Hn.
        eapply runs_bind; [done|]. by apply (seg_upd_runs (set_queue y h (m_free_nr s) s) h gh (set_free_next y)).
      * apply (runs_bind _ _ _ tt (set_queue y h (Z.of_nat (length (y :: q))) (with_segs l1 s))); [|done].
        unfold runs, modify. cbn. by rewrite Hnr.
    + constructor; cbn [m_segments m_cur_segs m_dirty_map m_free_tail m_free_head m_free_nr set_queue with_segs].
      * unfold l1. rewrite length_insert. apply H.
      * apply Forall_insert; [apply H|]. apply seg_ok_set_next. by eapply seg_ok_at.
      * apply H.
      * apply H.
      * split_and!; [done|done|]. by eapply chain_relink.
      * done.
      * intros z Hz. destruct (sw_empty _ _ H z ltac:(set_solver)) as (k & Hk & Hk0).
        destruct (decide (z = h)) as [->|Hne].
        -- eexists. unfold l1. rewrite aget_insert_eq by (rewrite (sw_len _ _ H); done). done.
        -- exists k. unfold l1. rewrite aget_insert_ne by lia. done.
      * done.
    + cbn. unfold l1. rewrite (total_insert _ _ _ _ Hgh). cbn. lia.
    + done.
    + done.
    + done.
    + intros i k Hi. cbn. unfold l1. destruct (decide (i = h)) as [->|Hne].
      * rewrite aget_insert_eq by (rewrite (sw_len _ _ H); done). exists y. by simplify_eq.
      * rewrite aget_insert_ne by lia. exists (free_next k). rewrite Hi. by destruct k.
Qed.

Lemma free_de_queue_empty s : segs_q s [] -> throws free_de_queue s (FsError ERR_GENERAL) s.
Proof.
  intros H. destruct (sw_queue _ _ H) as [Ht Hh].
  unfold throws, free_de_queue, bind, get. by rewrite Hh.
Qed.

Lemma seg_ok_temp g t : seg_ok g -> BT_FF <= t <= BT_TEMP_NR -> seg_ok (set_seg_temp t g).
Proof. intros [] Ht. by constructor. Qed.

Lemma FreeSegment_spec s q x g :
  segs_q s q -> x ∉ q -> aget (m_segments s) x = Some g -> valid_blk_nr g = 0 ->
  exists s', runs (FreeSegment x) s tt s' /\ segs_q s' (q ++ [x]) /\
    total_valid (m_segments s') = total_valid (m_segments s) /\ m_used_blk_nr s' = m_used_blk_nr s /\
    m_cur_segs s' = m_cur_segs s /\
    (forall i h, i <> x -> aget (m_segments s) i = Some h ->
       exists n, aget (m_segments s') i = Some (set_free_next n h)) /\
    (exists n, aget (m_segments s') x = Some (set_free_next n (set_seg_temp BT_TEMP_NR g))).
Proof.
  intros H Hx Hg H0. pose proof (aget_bounds _ _ _ Hg) as Hb.
  set (s1 := with_segs (<[Z.to_nat x := set_seg_temp BT_TEMP_NR g]> (m_segments s)) s).
  assert (H1 : segs_q s1 q).
  { eapply q_replace; [done|done| |done|done]. apply seg_ok_temp; [by eapply seg_ok_at|clia]. }
  destruct (free_en_queue_spec s1 q x (set_seg_temp BT_TEMP_NR g)) as (s2 & Hr & H2 & Ht & Hu & Hd & Hc & Ho & _);
    [done|done| |done|].
  { cbn. by rewrite aget_insert_eq by lia. }
  destruct (seg_set_dirty_runs s2 (q ++ [x]) x H2) as (l & Hl & Hll & Hlm).
  { rewrite (sw_len _ _ H) in Hb. done. }
  exists (set_dirty_map l s2). split_and!.
  - unfold FreeSegment. eapply runs_bind; [by apply seg_upd_runs|]. by eapply runs_bind.
  - by apply q_dirty.
  - cbn. rewrite Ht. cbn. rewrite (total_insert _ _ _ _ Hg). cbn. lia.
  - cbn. by rewrite Hu.
  - cbn. by rewrite Hc.
  - intros i h Hi Hh. apply Ho. cbn. by rewrite aget_insert_ne by lia.
  - apply Ho. cbn. by rewrite aget_insert_eq by lia.
Qed.

(** * Invalidating a block *)
Lemma set_owner_Some g blk n o : seg_ok g -> 0 <= blk < BLOCK_PER_SEG ->
  exists ns os, set_owner blk n o g = Some (set_owners ns os g) /\
    Z.of_nat (length ns) = BLOCK_PER_SEG /\ Z.of_nat (length os) = BLOCK_PER_SEG /\
    ns = <[Z.to_nat blk := n]> (nids g) /\ os = <[Z.to_nat blk := o]> (offsets g).
Proof.
  intros H Hb. unfold set_owner.
  rewrite (aset_is_Some (nids g)) by (rewrite (so_nids _ H); done). cbn.
  rewrite (aset_is_Some (offsets g)) by (rewrite (so_offs _ H); done). cbn.
  eexists _, _. split_and!; [done| | |done|done]; rewrite length_insert; apply H.
Qed.

Lemma popcount_pos w b n : 0 <= n < w -> Z.testbit b n = true -> 0 < popcount w b.
Proof.
  intros Hn Hb. unfold popcount.
  assert (Hin : n ∈ filter (fun i => Z.testbit b i = true) (range 0 w)).
  { apply list_elem_of_filter. split; [done|]. by apply elem_of_range. }
  destruct (filter _ _); [set_solver|]. cbn. lia.
Qed.

Lemma total_ge l i g : Forall seg_ok l -> aget l i = Some g -> valid_blk_nr g <= total_valid l.
Proof.
  intros Hl [_ Hg]%aget_Some. revert Hg. generalize (Z.to_nat i) as k. clear i.
  induction Hl as [|h l Hh Hl IH]; intros [|k] Hk; [done|done| |];
    change (total_valid (h :: l)) with (valid_blk_nr h + total_valid l);
    pose proof (total_bounds l Hl).
  - injection Hk as ->. lia.
  - specialize (IH k Hk). pose proof (popcount_bounds BLOCK_PER_SEG (valid_bmp h) ltac:(clia)).
    rewrite (so_nr _ Hh). lia.
Qed.

(** The segment after one of its blocks is invalidated. *)
Definition drop_block (blk : Z) (g : SegmentInfo) : SegmentInfo :=
  set_owners (<[Z.to_nat blk := INVALID16]> (nids g)) (<[Z.to_nat blk := INVALID16]> (offsets g))
    (set_bmp_nr (clear_bitmap (valid_bmp g) blk) (valid_blk_nr g - 1) g).

Lemma seg_ok_drop g blk : seg_ok g -> 0 <= blk < BLOCK_PER_SEG -> Z.testbit (valid_bmp g) blk = true ->
  seg_ok (drop_block blk g).
Proof.
  intros H Hb Ht. pose proof H as []. constructor; cbn.
  - by rewrite length_insert.
  - by rewrite length_insert.
  - apply clear_mask_word; [lia|done].
  - unfold clear_bitmap. rewrite popcount_clear; [|first [done|clia]..]. by rewrite so_nr0.
  - done.
Qed.

Lemma in_queue_empty s q x g : segs_q s q -> aget (m_segments s) x = Some g -> valid_blk_nr g <> 0 -> x ∉ q.
Proof. intros H Hg Hn Hx. destruct (sw_empty _ _ H x Hx) as (h & Hh & H0). congruence. Qed.

(** Whether dropping a valid block of the segment [g] frees the segment: the
    block is its only one, and it is not the current segment of its
    temperature. *)
Definition last_of_closed (s : Segs) (seg : Z) (b : bool) : Prop :=
  exists g m, aget (m_segments s) seg = Some g /\ map_set SIT_ENTRY_PER_BLK (m_dirty_map s) seg = Some m /\
    b = (valid_blk_nr g =? 1) && negb (cur_of (set_dirty_map m s) (seg_temp g) =? seg).

(** Of the eight temperatures, the current segment is that of the class. *)
Lemma last_of_closed_temp s seg g b : last_of_closed s seg b -> aget (m_segments s) seg = Some g ->
  0 <= seg_temp g < BT_TEMP_NR ->
  b = (valid_blk_nr g =? 1) && negb (default INVALID16 (seg_no <$> aget (m_cur_segs s) (seg_temp g)) =? seg).
Proof.
  intros (h & m & Hh & _ & ->) Hg Ht. rewrite Hg in Hh. injection Hh as <-. unfold cur_of.
  destruct (Z.eqb_spec (seg_temp g) BT_FF) as [E|_]; [rewrite E in Ht; clia|].
  by destruct (Z.eqb_spec (seg_temp g) BT_TEMP_NR) as [E|_]; [clia|].
Qed.

Lemma InvalidBlock_at_spec s q seg blk g :
  segs_wf s q -> aget (m_segments s) seg = Some g -> 0 <= blk < BLOCK_PER_SEG ->
  Z.testbit (valid_bmp g) blk = true ->
  exists s' (b : bool), runs (InvalidBlock_at seg blk) s b s' /\
    segs_wf s' (if b then q ++ [seg] else q) /\ m_used_blk_nr s' = m_used_blk_nr s - 1 /\
    m_cur_segs s' = m_cur_segs s /\
    last_of_closed s seg b /\
    (exists t n, aget (m_segments s') seg = Some (set_free_next n (set_seg_temp t (drop_block blk g)))) /\
    (forall i h, i <> seg -> aget (m_segments s) i = Some h ->
       exists n, aget (m_segments s') i = Some (set_free_next n h)).
Proof.
  intros H Hg Hb Ht. pose proof (aget_bounds _ _ _ Hg) as Hbd.
  assert (Hsr : 0 <= seg < MAIN_SEG_NR) by (rewrite (sw_len _ _ H) in Hbd; done).
  pose proof (seg_ok_at _ _ _ _ H Hg) as Hok.
  pose proof (popcount_pos BLOCK_PER_SEG (valid_bmp g) blk Hb Ht) as Hpos.
  rewrite <- (so_nr _ Hok) in Hpos.
  pose proof (popcount_bounds BLOCK_PER_SEG (valid_bmp g) ltac:(clia)) as Hpc.
  rewrite <- (so_nr _ Hok) in Hpc.
  pose proof (total_ge _ _ _ (sw_seg _ _ H) Hg) as Hge.
  pose proof (total_bounds _ (sw_seg _ _ H)) as Htb. rewrite (sw_len _ _ H) in Htb.
  assert (Hnr : w32 (valid_blk_nr g - 1) = valid_blk_nr g - 1) by (unfold w32; rewrite Z.mod_small; clia).
  assert (Hu : w16 (m_used_blk_nr s - 1) = m_used_blk_nr s - 1).
  { rewrite (sw_used _ _ H). unfold w16. rewrite Z.mod_small; clia. }
  destruct (set_owner_Some (set_bmp_nr (clear_bitmap (valid_bmp g) blk) (valid_blk_nr g - 1) g)
    blk INVALID16 INVALID16) as (ns & os & Hso & _ & _ & -> & ->); [|done|].
  { pose proof (seg_ok_drop _ _ Hok Hb Ht) as []. destruct Hok. by constructor. }
  set (g1 := drop_block blk g). set (s0 := set_used (m_used_blk_nr s - 1) s).
  set (s1 := with_segs (<[Z.to_nat seg := g1]> (m_segments s)) s0).
  assert (Hnq : seg ∉ q) by (eapply in_queue_empty; [exact H|done|lia]).
  assert (Hq1 : segs_q s1 q).
  { apply (q_replace s0 q seg g g1); [apply q_used, H|done|by apply seg_ok_drop|done|by intros ?%Hnq]. }
  assert (Hg1 : aget (m_segments s1) seg = Some g1) by (cbn; by rewrite aget_insert_eq by lia).
  destruct (seg_set_dirty_runs s1 q seg Hq1 Hsr) as (l & Hl & Hll & Hlm).
  set (s2 := set_dirty_map l s1) in *.
  assert (Hq2 : segs_q s2 q) by (by apply q_dirty).
  pose proof (cur_seg_no_of s2 (seg_temp g) (q_table _ _ Hq2) (so_temp _ Hok)) as Hc.
  set (c := cur_of s2 (seg_temp g)) in *.
  assert (Hcur : c = cur_of (set_dirty_map l s) (seg_temp g)).
  { unfold c, cur_of. destruct (seg_temp g =? BT_FF); [|done]. cbn [m_segments set_dirty_map s2 s1 s0 with_segs set_used].
    destruct (decide (seg = MAIN_SEG_NR - 1)) as [->|Hne].
    - rewrite aget_insert_eq by lia. by rewrite Hg.
    - by rewrite aget_insert_ne by lia. }
  set (isfree := if valid_blk_nr g - 1 =? 0 then negb (c =? seg) else false).
  assert (Hrun : forall r s3, runs (if isfree then
              if negb (clear_bitmap (valid_bmp g) blk =? 0) then throw ERR_USER
              else FreeSegment seg ;;; ret true else ret false) s2 r s3 ->
            runs (InvalidBlock_at seg blk) s r s3).
  { intros r s3 Hr3. unfold InvalidBlock_at. eapply runs_bind; [by rewrite (proj2 (Z.ltb_lt _ _)) by lia|].
    eapply runs_bind; [by apply seg_at_runs|].
    unfold test_bitmap. rewrite land_mask, Ht by lia. cbn [negb]. rewrite Hnr.
    apply (runs_bind _ _ _ tt s0); [unfold runs, modify; by rewrite Hu|].
    rewrite Hso. eapply runs_bind; [done|].
    apply (runs_bind _ _ _ tt s1); [by apply (seg_put_runs s0 seg g)|].
    apply (runs_bind _ _ _ tt s2); [done|].
    apply (runs_bind _ _ _ isfree s2); [|done].
    unfold isfree. destruct (valid_blk_nr g - 1 =? 0); [by eapply runs_bind|done]. }
  assert (Hfree : forall b, isfree = b -> last_of_closed s seg b).
  { intros b <-. exists g, l. split_and!; [done|done|]. rewrite <- Hcur. unfold isfree.
    destruct (Z.eqb_spec (valid_blk_nr g - 1) 0), (Z.eqb_spec (valid_blk_nr g) 1); cbn; [done|lia|lia|done]. }
  destruct isfree eqn:Hf.
  - pose proof (Hfree true ltac:(done)) as Hlast. unfold isfree in Hf.
    destruct (Z.eqb_spec (valid_blk_nr g - 1) 0) as [H1|]; [|done].
    destruct (FreeSegment_spec s2 q seg g1 Hq2 Hnq Hg1) as (s3 & Hr3 & Hq3 & Ht3 & Hu3 & Hc3 & Ho3 & Hs3).
    { cbn. lia. }
    exists s3, true. split_and!.
    + apply Hrun.
      assert (clear_bitmap (valid_bmp g) blk = 0) as ->.
      { apply (popcount_zero BLOCK_PER_SEG); [clia|apply clear_mask_word; [clia|apply Hok]|].
        unfold clear_bitmap. rewrite popcount_clear; [|first [done|clia]..].
        rewrite <- (so_nr _ Hok). lia. }
      by eapply runs_bind.
    + constructor; [done|]. rewrite Hu3, Ht3. cbn.
      rewrite (total_insert _ _ _ _ Hg), (sw_used _ _ H). cbn. lia.
    + rewrite Hu3. done.
    + by rewrite Hc3.
    + exact Hlast.
    + destruct Hs3 as [n Hn]. eexists _, n. exact Hn.
    + intros i h Hi Hh. apply Ho3; [done|]. cbn. by rewrite aget_insert_ne by lia.
  - exists s2, false. split_and!.
    + by apply Hrun.
    + constructor; [done|]. cbn. rewrite (total_insert _ _ _ _ Hg), (sw_used _ _ H). cbn. lia.
    + done.
    + done.
    + by apply Hfree.
    + exists (seg_temp g), (free_next g). etrans; [exact Hg1|]. by destruct g.
    + intros i h Hi Hh. exists (free_next h). cbn. rewrite aget_insert_ne by lia. by destruct h.
Qed.

Lemma InvalidBlock_at_dead s q seg blk g :
  segs_q s q -> aget (m_segments s) seg = Some g -> 0 <= blk -> Z.testbit (valid_bmp g) blk = false ->
  throws (InvalidBlock_at seg blk) s (FsError ERR_DOUBLED_BLK) s.
Proof.
  intros H Hg Hb Ht. pose proof (aget_bounds _ _ _ Hg) as Hbd. rewrite (sw_len _ _ H) in Hbd.
  unfold InvalidBlock_at. rewrite (proj2 (Z.ltb_lt _ _)) by lia.
  eapply throws_later; [done|]. eapply throws_later; [by apply seg_at_runs|].
  unfold test_bitmap. by rewrite land_mask, Ht by lia.
Qed.

(** * Taking a segment from the queue *)
Definition fresh_seg (temp next : Z) : SegmentInfo :=
  mkSeg 0 0 temp (rep BLOCK_PER_SEG INVALID16) (rep BLOCK_PER_SEG INVALID16) next.

Lemma seg_ok_fresh t n : BT_FF <= t <= BT_TEMP_NR -> seg_ok (fresh_seg t n).
Proof. intros Ht. constructor; cbn; done. Qed.

Lemma take_free_segment_spec s q x temp :
  segs_wf s (x :: q) -> BT_FF <= temp <= BT_TEMP_NR ->
  exists s' n, runs (take_free_segment temp) s x s' /\ segs_wf s' q /\
    m_used_blk_nr s' = m_used_blk_nr s /\ m_cur_segs s' = m_cur_segs s /\ x ∉ q /\
    aget (m_segments s') x = Some (fresh_seg temp n) /\
    (forall i h, i <> x -> aget (m_segments s) i = Some h ->
       exists n, aget (m_segments s') i = Some (set_free_next n h)).
Proof.
  intros H Htemp. pose proof (sw_nodup _ _ H) as [Hx Hnd]%NoDup_cons.
  destruct (sw_empty _ _ H x ltac:(set_solver)) as (g & Hg & H0).
  pose proof (queue_range _ _ x H ltac:(set_solver)) as Hxr.
  destruct (free_de_queue_spec _ _ _ (sw_q _ _ H)) as (s1 & Hr1 & H1 & Ht1 & Hu1 & Hd1 & Hc1 & Ho1).
  destruct (Ho1 x g Hg) as [n Hg1]. pose proof (aget_bounds _ _ _ Hg1) as Hb1.
  set (s2 := with_segs (<[Z.to_nat x := fresh_seg temp n]> (m_segments s1)) s1).
  assert (H2 : segs_q s2 q).
  { eapply q_replace; [done|exact Hg1|by apply seg_ok_fresh|done|done]. }
  destruct (seg_set_dirty_runs s2 q x H2 Hxr) as (l & Hl & Hll & Hlm).
  exists (set_dirty_map l s2), n. split_and!.
  - unfold take_free_segment. eapply runs_bind; [done|].
    apply (runs_bind _ _ _ tt s2); [by apply (seg_upd_runs s1 x (set_free_next n g))|].
    by eapply runs_bind.
  - constructor; [by apply q_dirty|]. cbn. rewrite (total_insert _ _ _ _ Hg1), Ht1, Hu1.
    rewrite (sw_used _ _ H). cbn. lia.
  - cbn. by rewrite Hu1.
  - cbn. by rewrite Hc1.
  - done.
  - cbn. by rewrite aget_insert_eq by lia.
  - intros i h Hi Hh. cbn. rewrite aget_insert_ne by lia. by apply Ho1.
Qed.

(** * Blocks by their address *)
Definition blk_live (s : Segs) (phy_blk : Z) : Prop :=
  exists g, aget (m_segments s) (phy_blk / BLOCK_PER_SEG) = Some g /\
    Z.testbit (valid_bmp g) (phy_blk mod BLOCK_PER_SEG) = true.

(** The owner recorded for a block. *)
Definition owner_of (s : Segs) (phy_blk : Z) : option (Z * Z) :=
  g ← aget (m_segments s) (phy_blk / BLOCK_PER_SEG);
  n ← aget (nids g) (phy_blk mod BLOCK_PER_SEG);
  o ← aget (offsets g) (phy_blk mod BLOCK_PER_SEG);
  Some (n, o).

Lemma block_eq a b : a / BLOCK_PER_SEG = b / BLOCK_PER_SEG -> a mod BLOCK_PER_SEG = b mod BLOCK_PER_SEG -> a = b.
Proof.
  intros H1 H2. rewrite (Z.div_mod a BLOCK_PER_SEG), (Z.div_mod b BLOCK_PER_SEG) by clia. by rewrite H1, H2.
Qed.

Lemma BlockToSeg_main phy_blk : 0 <= phy_blk < MAIN_BLK_NR ->
  BlockToSeg phy_blk = (phy_blk / BLOCK_PER_SEG, phy_blk mod BLOCK_PER_SEG) /\
  0 <= phy_blk / BLOCK_PER_SEG < MAIN_SEG_NR /\ 0 <= phy_blk mod BLOCK_PER_SEG < BLOCK_PER_SEG.
Proof.
  intros Hb. unfold BlockToSeg. rewrite (proj2 (Z.eqb_neq _ _)) by clia. split; [done|].
  split; [|apply Z.mod_pos_bound; clia]. split; [apply Z.div_pos; clia|].
  apply Z.div_lt_upper_bound; clia.
Qed.

Lemma InvalidBlock_spec s q phy_blk :
  segs_wf s q -> 0 <= phy_blk < MAIN_BLK_NR -> blk_live s phy_blk ->
  exists s' (b : bool), runs (InvalidBlock phy_blk) s b s' /\
    segs_wf s' (if b then q ++ [phy_blk / BLOCK_PER_SEG] else q) /\
    m_used_blk_nr s' = m_used_blk_nr s - 1 /\ m_cur_segs s' = m_cur_segs s /\
    ~ blk_live s' phy_blk /\
    (forall other, 0 <= other < MAIN_BLK_NR -> other <> phy_blk -> blk_live s' other <-> blk_live s other) /\
    (forall other, 0 <= other < MAIN_BLK_NR -> other <> phy_blk -> owner_of s' other = owner_of s other) /\
    last_of_closed s (phy_blk / BLOCK_PER_SEG) b.
Proof.
  intros H Hb (g & Hg & Ht). destruct (BlockToSeg_main _ Hb) as (E & Hs & Hk).
  destruct (InvalidBlock_at_spec s q _ _ g H Hg Hk Ht) as (s' & b & Hr & Hw & Hu & Hc & Hlast & (t & n & Hg') & Ho).
  assert (Hbit : forall j, 0 <= j < BLOCK_PER_SEG ->
    Z.testbit (clear_bitmap (valid_bmp g) (phy_blk mod BLOCK_PER_SEG)) j =
    Z.testbit (valid_bmp g) j && negb (j =? phy_blk mod BLOCK_PER_SEG)).
  { intros j Hj. unfold clear_bitmap. apply testbit_clear_mask; clia. }
  exists s', b. split_and!; [|done|done|done| | | |exact Hlast].
  - unfold InvalidBlock. rewrite (proj2 (Z.eqb_neq _ _)) by clia. by rewrite E.
  - intros (h & Hh & Hth). rewrite Hg' in Hh. injection Hh as <-. cbn in Hth.
    rewrite Hbit, Z.eqb_refl, andb_false_r in Hth by done. done.
  - intros other Hob Hne. unfold blk_live. destruct (BlockToSeg_main _ Hob) as (_ & Hs' & Hk').
    destruct (decide (other / BLOCK_PER_SEG = phy_blk / BLOCK_PER_SEG)) as [Heq|Hd].
    + assert (Hm : other mod BLOCK_PER_SEG <> phy_blk mod BLOCK_PER_SEG).
      { intros Hm. by apply Hne, block_eq. }
      rewrite Heq, Hg', Hg. split; intros (h & [= <-] & Hth); eexists; (split; [done|]); cbn in *.
      * rewrite Hbit in Hth by done. by apply andb_true_iff in Hth as [? _].
      * rewrite Hbit by done. by rewrite Hth, (proj2 (Z.eqb_neq _ _)) by done.
    + destruct (segs_at _ _ _ H Hs') as [h Hh]. destruct (Ho _ _ Hd Hh) as (n' & Hh').
      rewrite Hh', Hh. split; intros (h' & [= <-] & Hth); eexists; (split; [done|]); exact Hth.
  - intros other Hob Hne. unfold owner_of. destruct (BlockToSeg_main _ Hob) as (_ & Hs' & Hk').
    destruct (decide (other / BLOCK_PER_SEG = phy_blk / BLOCK_PER_SEG)) as [Heq|Hd].
    + assert (Hm : phy_blk mod BLOCK_PER_SEG <> other mod BLOCK_PER_SEG) by (intros Hm; by apply Hne, block_eq).
      rewrite Heq, Hg', Hg. cbn. by rewrite !aget_insert_ne by lia.
    + destruct (segs_at _ _ _ H Hs') as [h Hh]. destruct (Ho _ _ Hd Hh) as (n' & Hh'). by rewrite Hh', Hh.
Qed.

(** * Building the free queue *)

(** The segments that end up in the queue. *)
Definition is_free_seg (s : Segs) (i : Z) : bool :=
  match aget (m_segments s) i with
  | Some g => (valid_blk_nr g =? 0) && negb (cur_of s (seg_temp g) =? i)
  | None => false
  end.
Definition free_segs (s : Segs) (n : Z) : list Z :=
  filter (fun i => is_free_seg s i = true) (range 0 n).

(** A segment after the loop: the link is new, and a segment that is queued loses
    its temperature. *)
Definition unlinked (s : Segs) (done_ : bool) (j : Z) (g : SegmentInfo) : SegmentInfo :=
  if is_free_seg s j && done_ then set_seg_temp BT_TEMP_NR g else g.

(** The state of the loop before segment [i]. *)
Record link_inv (s0 : Segs) (i : Z) (s : Segs) : Prop := {
  li_q : segs_q s (free_segs s0 i);
  li_total : total_valid (m_segments s) = total_valid (m_segments s0);
  li_used : m_used_blk_nr s = total_valid (take (Z.to_nat i) (m_segments s0));
  li_cur : m_cur_segs s = m_cur_segs s0;
  li_dirty : m_dirty_map s = m_dirty_map s0;
  li_rest j : i <= j -> aget (m_segments s) j = aget (m_segments s0) j;
  li_seg j g : aget (m_segments s0) j = Some g ->
    exists n, aget (m_segments s) j = Some (set_free_next n (unlinked s0 (j <? i) j g))
}.

Lemma total_take l i g : aget l i = Some g ->
  total_valid (take (Z.to_nat (i + 1)) l) = total_valid (take (Z.to_nat i) l) + valid_blk_nr g.
Proof.
  intros [H0 Hi]%aget_Some. replace (Z.to_nat (i + 1)) with (S (Z.to_nat i)) by lia.
  rewrite (take_S_r _ _ _ Hi). unfold total_valid. rewrite foldr_app. cbn.
  generalize (take (Z.to_nat i) l). intros k. induction k as [|h k IH]; cbn; lia.
Qed.

Lemma free_segs_succ s i : 0 <= i ->
  free_segs s (i + 1) = free_segs s i ++ (if is_free_seg s i then [i] else []).
Proof.
  intros Hi. unfold free_segs. rewrite range_snoc by lia. rewrite filter_app. f_equal.
  rewrite filter_cons. by destruct (is_free_seg s i).
Qed.

Lemma free_segs_notin s i : i ∉ free_segs s i.
Proof. intros [_ H%elem_of_range]%list_elem_of_filter. lia. Qed.

Lemma cur_of_link s0 i s t : link_inv s0 i s -> i < MAIN_SEG_NR -> cur_of s t = cur_of s0 t.
Proof.
  intros [] Hi. unfold cur_of. rewrite li_cur0, li_dirty0. by rewrite li_rest0 by lia.
Qed.

Lemma unlinked_succ s i j g : j <> i -> unlinked s (j <? i + 1) j g = unlinked s (j <? i) j g.
Proof. intros Hne. f_equal. apply Bool.eq_iff_eq_true. rewrite !Z.ltb_lt. lia. Qed.

Lemma link_table s0 i s : link_inv s0 i s -> table_ok s.
Proof. intros [[] _ _ _ _ _]. by constructor. Qed.

(** Changing a segment that is not in the queue. *)
Lemma q_outside s q i g g' :
  segs_q s q -> aget (m_segments s) i = Some g -> seg_ok g' -> i ∉ q ->
  segs_q (with_segs (<[Z.to_nat i := g']> (m_segments s)) s) q.
Proof.
  intros H Hg Hok Hi. pose proof (aget_bounds _ _ _ Hg) as Hb. constructor; cbn; try apply H.
  - rewrite length_insert. apply H.
  - apply Forall_insert; [apply H|done].
  - pose proof (sw_queue _ _ H) as Hqu. unfold queue in *. destruct q as [|x q]; [done|].
    destruct Hqu as (H1 & H2 & H3). split_and!; [done|done|]. apply chain_insert; [done|lia|done].
  - intros x Hx. destruct (sw_empty _ _ H x Hx) as (h & Hh & H0). exists h.
    rewrite aget_insert_ne by (set_solver || lia). done.
Qed.

Section Link.
Context (s0 s : Segs) (i : Z) (g : SegmentInfo).
Context (Ht : table_ok s0) (H : link_inv s0 i s) (Hi : 0 <= i < MAIN_SEG_NR).
Context (Hg0 : aget (m_segments s0) i = Some g).
Let s1 := set_used (total_valid (take (Z.to_nat (i + 1)) (m_segments s0))) s.

Lemma link_seg : aget (m_segments s1) i = Some g.
Proof. cbn. by rewrite (li_rest _ _ _ H) by lia. Qed.
Lemma link_q : segs_q s1 (free_segs s0 i).
Proof. apply q_used, H. Qed.
Lemma link_used : w16 (m_used_blk_nr s + valid_blk_nr g) = m_used_blk_nr s1.
Proof.
  rewrite (li_used _ _ _ H), <- (total_take _ _ _ Hg0). cbn. unfold w16. apply Z.mod_small.
  pose proof (total_bounds (take (Z.to_nat (i + 1)) (m_segments s0))) as Hb.
  rewrite length_take in Hb. pose proof (tb_len _ Ht).
  specialize (Hb (Forall_take _ _ _ (tb_seg _ Ht))). clia.
Qed.

Lemma link_cond :
  runs (if valid_blk_nr g =? 0 then n <- cur_seg_no (seg_temp g) ;; ret (negb (n =? i)) else ret false)
    s1 (is_free_seg s0 i) s1.
Proof.
  unfold is_free_seg. rewrite Hg0. destruct (valid_blk_nr g =? 0); [|done]. eapply runs_bind.
  - apply cur_seg_no_of; [|eapply (seg_ok_at _ _ _ _ link_q link_seg)].
    destruct (link_table _ _ _ H). by constructor.
  - change (cur_of s1) with (cur_of s). by rewrite (cur_of_link _ _ _ _ H) by lia.
Qed.

Lemma link_keep : is_free_seg s0 i = false ->
  exists s', runs (seg_upd i (set_free_next INVALID16)) s1 tt s' /\ link_inv s0 (i + 1) s'.
Proof.
  intros Hf. pose proof link_seg as Hg. pose proof link_q as Hq. pose proof (aget_bounds _ _ _ Hg) as Hb.
  eexists. split; [by apply seg_upd_runs|].
  assert (Hfs : free_segs s0 (i + 1) = free_segs s0 i).
  { rewrite free_segs_succ by lia. by rewrite Hf, app_nil_r. }
  constructor; rewrite ?Hfs; try apply H.
  - eapply q_outside; [exact Hq|exact Hg| |apply free_segs_notin].
    apply seg_ok_set_next. by eapply seg_ok_at.
  - cbn. rewrite (total_insert _ _ _ _ Hg). cbn. rewrite (li_total _ _ _ H). lia.
  - done.
  - intros j Hj. cbn. rewrite aget_insert_ne by lia. apply H. lia.
  - intros j h Hh. cbn [m_segments with_segs]. destruct (decide (j = i)) as [->|Hne].
    + rewrite aget_insert_eq by lia. rewrite Hg0 in Hh. injection Hh as <-. exists INVALID16. unfold unlinked. by rewrite Hf.
    + rewrite aget_insert_ne by lia. destruct (li_seg _ _ _ H j h Hh) as [n Hn]. exists n. rewrite unlinked_succ by lia. exact Hn.
Qed.

Lemma link_enqueue : is_free_seg s0 i = true ->
  exists s', runs (seg_upd i (set_seg_temp BT_TEMP_NR) ;;; free_en_queue i) s1 tt s' /\
    link_inv s0 (i + 1) s'.
Proof.
  intros Hf. pose proof link_seg as Hg. pose proof link_q as Hq. pose proof (aget_bounds _ _ _ Hg) as Hb. cbn in Hb.
  assert (H0 : valid_blk_nr g = 0).
  { unfold is_free_seg in Hf. rewrite Hg0 in Hf. by apply andb_true_iff in Hf as [?%Z.eqb_eq _]. }
  set (s2 := with_segs (<[Z.to_nat i := set_seg_temp BT_TEMP_NR g]> (m_segments s1)) s1).
  assert (Hq2 : segs_q s2 (free_segs s0 i)).
  { eapply q_replace; [exact Hq|exact Hg| |done|done]. apply seg_ok_temp; [|clia]. by eapply seg_ok_at. }
  destruct (free_en_queue_spec s2 (free_segs s0 i) i (set_seg_temp BT_TEMP_NR g))
    as (s3 & Hr & Hq3 & Ht3 & Hu3 & Hd3 & Hc3 & Ho3 & Hi3); [done|apply free_segs_notin| |done|].
  { cbn. by rewrite aget_insert_eq by lia. }
  exists s3. split; [eapply runs_bind; [by apply seg_upd_runs|exact Hr]|].
  constructor; rewrite ?free_segs_succ, ?Hf by lia.
  - done.
  - rewrite Ht3. cbn. rewrite (total_insert _ _ _ _ Hg). cbn. rewrite (li_total _ _ _ H). lia.
  - by rewrite Hu3.
  - rewrite Hc3. apply H.
  - rewrite Hd3. apply H.
  - intros j Hj. rewrite Hi3; [|intros [_ ?%elem_of_range]%list_elem_of_filter; lia|lia].
    cbn. rewrite aget_insert_ne by lia. apply H. lia.
  - intros j h Hh. destruct (decide (j = i)) as [->|Hne].
    + rewrite Hg0 in Hh. injection Hh as <-. destruct (Ho3 i (set_seg_temp BT_TEMP_NR g)) as [n Hn].
      { cbn. by rewrite aget_insert_eq by lia. }
      exists n. unfold unlinked. by rewrite Hf, (proj2 (Z.ltb_lt i (i + 1))) by lia.
    + destruct (li_seg _ _ _ H j h Hh) as [n Hn]. destruct (Ho3 j (set_free_next n (unlinked s0 (j <? i) j h))) as [n' Hn'].
      { cbn. by rewrite aget_insert_ne by lia. }
      exists n'. rewrite unlinked_succ by lia. exact Hn'.
Qed.
End Link.

Lemma build_free_link_spec s : table_ok s ->
  exists s', runs build_free_link s tt s' /\ segs_wf s' (free_segs s MAIN_SEG_NR) /\
    m_cur_segs s' = m_cur_segs s /\ m_dirty_map s' = m_dirty_map s /\
    total_valid (m_segments s') = total_valid (m_segments s) /\
    (forall j g, aget (m_segments s) j = Some g ->
       exists n, aget (m_segments s') j = Some (set_free_next n (unlinked s true j g))).
Proof.
  intros Ht. set (s0 := set_used 0 (set_queue INVALID16 INVALID16 0 s)).
  assert (Ht0 : table_ok s0) by (destruct Ht; by constructor).
  assert (Hinit : link_inv s 0 s0).
  { constructor; try done; [destruct Ht; constructor; try done; [constructor|set_solver]|].
    intros j g Hj. pose proof (aget_bounds _ _ _ Hj). exists (free_next g). unfold unlinked.
    rewrite (proj2 (Z.ltb_ge j 0)), andb_false_r by lia. etrans; [exact Hj|]. by destruct g. }
  enough (Hloop : wp (mfor (range 0 MAIN_SEG_NR) (fun ii =>
    seg <- seg_at ii ;;
    modify (fun s => set_used (w16 (m_used_blk_nr s + valid_blk_nr seg)) s) ;;;
    isfree <- (if valid_blk_nr seg =? 0
               then n <- cur_seg_no (seg_temp seg) ;; ret (negb (n =? ii)) else ret false) ;;
    if isfree : bool
    then seg_upd ii (set_seg_temp BT_TEMP_NR) ;;; free_en_queue ii
    else seg_upd ii (set_free_next INVALID16))) (fun _ t => link_inv s MAIN_SEG_NR t) (fun _ _ => False) s0).
  { apply wp_runs in Hloop as ([] & s' & Hr & H). exists s'. split_and!.
    - unfold build_free_link. eapply runs_bind; [done|]. eapply runs_bind; [done|]. exact Hr.
    - constructor; [apply H|]. rewrite (li_used _ _ _ H), (li_total _ _ _ H).
      rewrite take_ge by (pose proof (tb_len _ Ht); lia). done.
    - apply H.
    - apply H.
    - apply H.
    - intros j g Hj. destruct (li_seg _ _ _ H j g Hj) as [n Hn]. exists n. rewrite Hn. do 3 f_equal.
      pose proof (aget_bounds _ _ _ Hj) as Hb. rewrite (tb_len _ Ht) in Hb. apply Z.ltb_lt. lia. }
  apply wp_for; [clia|done|]. intros i t Hi H.
  destruct (aget_is_Some (m_segments s) i) as [g Hg]; [by rewrite (tb_len _ Ht)|].
  apply wp_runs. pose proof (link_seg s t i g H Hg) as Hs. cbn in Hs.
  enough (exists t', runs (if is_free_seg s i
      then seg_upd i (set_seg_temp BT_TEMP_NR) ;;; free_en_queue i
      else seg_upd i (set_free_next INVALID16))
    (set_used (total_valid (take (Z.to_nat (i + 1)) (m_segments s))) t) tt t' /\ link_inv s (i + 1) t')
    as (t' & Hr & H').
  - exists tt, t'. split; [|done]. eapply runs_bind; [by apply seg_at_runs|].
    eapply runs_bind; [unfold runs, modify; rewrite (link_used s t i g Ht H Hi Hg); done|].
    eapply runs_bind; [apply (link_cond s t i g H Hi Hg)|exact Hr].
  - destruct (is_free_seg s i) eqn:Hf;
      [by apply (link_enqueue s t i g)|by apply (link_keep s t i g)].
Qed.

(** * Formatting *)
Lemma Forall_rep {A} (P : A -> Prop) n a : P a -> Forall P (rep n a).
Proof. intros H. by apply Forall_replicate. Qed.

Lemma length_rep {A} n (a : A) : 0 <= n -> Z.of_nat (length (rep n a)) = n.
Proof. intros H. unfold rep. rewrite length_replicate. lia. Qed.

(** The segments [memset] leaves are free ones: the temperature -1 makes the
    code look before the array of current segments, at the last segment's link. *)
Definition blank_seg : SegmentInfo := set_bmp_nr 0 0 SegmentInfo_ff.
Lemma blank_ok : seg_ok blank_seg.
Proof. by constructor; vm_compute. Qed.

Lemma free_segs_blank s : m_segments s = rep MAIN_SEG_NR blank_seg ->
  free_segs s MAIN_SEG_NR = range 0 MAIN_SEG_NR.
Proof.
  intros Hs. unfold free_segs. rewrite (filter_ext_in _ (fun _ => true)).
  - induction (range 0 MAIN_SEG_NR) as [|x l IH]; [done|]. rewrite filter_cons. cbn. by f_equal.
  - intros i Hi%elem_of_range. unfold is_free_seg, cur_of. rewrite Hs.
    unfold rep. rewrite !aget_replicate by (clia || done).
    change ((valid_blk_nr blank_seg =? 0) && negb (INVALID16 =? i) = true). by rewrite (proj2 (Z.eqb_neq INVALID16 i)) by clia.
Qed.

Lemma InitSegmentManager_spec s : Z.of_nat (length (m_cur_segs s)) = BT_TEMP_NR ->
  exists s', runs InitSegmentManager s tt s' /\ segs_wf s' (range 0 MAIN_SEG_NR) /\
    m_used_blk_nr s' = 0 /\ m_cur_segs s' = rep BT_TEMP_NR CURSEG_ff.
Proof.
  intros Hc. set (s1 := mkSegs (rep MAIN_SEG_NR blank_seg) (m_cur_segs s)
      (rep SIT_BLK_NR INVALID32) (m_free_tail s) (m_free_head s) (m_free_nr s)
      (m_used_blk_nr s) (cache_nid s) (cache_offset s)).
  assert (Ht : table_ok s1).
  { constructor; [by vm_compute| |exact Hc|by vm_compute]. apply Forall_rep, blank_ok. }
  destruct (build_free_link_spec s1 Ht) as (s2 & Hr & Hw & _ & _ & Htot & _).
  rewrite free_segs_blank in Hw by done.
  exists (set_data_cache INVALID16 INVALID32 (set_cur_segs (rep BT_TEMP_NR CURSEG_ff) s2)). split_and!.
  - unfold InitSegmentManager. eapply runs_bind; [done|]. eapply runs_bind; [exact Hr|].
    by eapply runs_bind.
  - constructor; [|apply Hw]. apply q_cache, q_cur; [apply Hw|by vm_compute].
  - cbn. rewrite (sw_used _ _ Hw), Htot. by vm_compute.
  - done.
Qed.

(** * The free segments as a queue *)
Inductive queue_cmd := SegFree (seg : Z) | SegTake (temp : Z).
Definition queue_step (c : queue_cmd) : M Segs (option Z) :=
  match c with
  | SegFree seg => FreeSegment seg ;;; ret None
  | SegTake temp => x <- take_free_segment temp ;; ret (Some x)
  end.
(** The specification: first in, first out. *)
Definition fifo_step (c : queue_cmd) : M (list Z) (option Z) :=
  match c with
  | SegFree seg => q <- get ;; put (q ++ [seg]) ;;; ret None
  | SegTake _ =>
      q <- get ;;
      match q with [] => throw (FsError ERR_GENERAL) | x :: q' => put q' ;;; ret (Some x) end
  end.
Fixpoint queue_outcomes {W} (step : queue_cmd -> M W (option Z)) (l : list queue_cmd) (w : W)
    : list (outcome (option Z)) :=
  match l with
  | [] => []
  | c :: l' => let '(r, w') := step c w in r :: queue_outcomes step l' w'
  end.
(** Segments are freed that are not free yet, and that hold no block. *)
Fixpoint queue_ok (l : list queue_cmd) (empty : Z -> Prop) (q : list Z) : Prop :=
  match l with
  | [] => True
  | SegFree seg :: l' => seg ∉ q /\ empty seg /\ queue_ok l' empty (q ++ [seg])
  | SegTake temp :: l' => BT_FF <= temp <= BT_TEMP_NR /\ queue_ok l' empty (tail q)
  end.
Definition empty_seg (s : Segs) (x : Z) : Prop :=
  exists g, aget (m_segments s) x = Some g /\ valid_blk_nr g = 0.

Lemma queue_ok_mono l (P Q : Z -> Prop) q : (forall x, P x -> Q x) -> queue_ok l P q -> queue_ok l Q q.
Proof. intros H. revert q. induction l as [|[x|t] l IH]; intros q; cbn; naive_solver. Qed.

Lemma take_free_empty s temp : segs_wf s [] -> throws (take_free_segment temp) s (FsError ERR_GENERAL) s.
Proof. intros H. apply throws_here. by apply free_de_queue_empty, H. Qed.

Lemma queue_outcomes_sim l : forall s q, segs_wf s q -> queue_ok l (empty_seg s) q ->
  queue_outcomes queue_step l s = queue_outcomes fifo_step l q.
Proof.
  induction l as [|[x|temp] l IH]; intros s q H Hok; [done| |]; cbn [queue_outcomes queue_step].
  - destruct Hok as (Hx & (g & Hg & H0) & Hok).
    destruct (FreeSegment_spec s q x g H Hx Hg H0) as (s' & Hr & Hq & Ht & Hu & _ & Ho & (n & Hn)).
    unfold bind at 1. rewrite Hr. cbn. f_equal. apply IH.
    + constructor; [done|]. rewrite Hu, Ht. apply H.
    + eapply queue_ok_mono; [|exact Hok]. intros y (h & Hh & Hh0).
      destruct (decide (y = x)) as [->|Hne]; [eexists; split; [exact Hn|]; exact H0|].
      destruct (Ho y h Hne Hh) as [n' Hn']. eexists. split; [exact Hn'|done].
  - destruct Hok as [Htemp Hok]. unfold bind at 1. destruct q as [|x q].
    + rewrite (take_free_empty _ _ H). cbn. f_equal. by apply IH.
    + destruct (take_free_segment_spec s q x temp H Htemp) as (s' & n & Hr & Hw & _ & _ & _ & Hn & Ho).
      rewrite Hr. cbn. f_equal. apply IH; [done|]. eapply queue_ok_mono; [|exact Hok].
      intros y (h & Hh & Hh0). destruct (decide (y = x)) as [->|Hne]; [by eexists|].
      destruct (Ho y h Hne Hh) as [n' Hn']. eexists. split; [exact Hn'|done].
Qed.

(** C17: the free segments are a first-in-first-out queue.  Whatever order
    segments without valid blocks are freed in and segments are taken, by any
    temperature, the circular list kept in the segments themselves gives them
    back in the order they were freed, each once, and an allocation fails when
    and only when the queue is empty. *)
Theorem free_segments_fifo s q l :
  segs_wf s q -> queue_ok l (empty_seg s) q ->
  queue_outcomes queue_step l s = queue_outcomes fifo_step l q.
Proof. apply queue_outcomes_sim. Qed.

(** Formatting.  From any memory, [InitSegmentManager] gives a table in
    which no block is used and every segment is free, in order. *)
Theorem InitSegmentManager_all_free s : Z.of_nat (length (m_cur_segs s)) = BT_TEMP_NR ->
  exists s', runs InitSegmentManager s tt s' /\ segs_wf s' (range 0 MAIN_SEG_NR) /\
    m_used_blk_nr s' = 0 /\ m_cur_segs s' = rep BT_TEMP_NR CURSEG_ff.
Proof. apply InitSegmentManager_spec. Qed.

(** After a mount has filled the table, [build_free_link] queues, in order,
    exactly the segments that have no valid block and are not the current
    segment of their temperature, and recounts the blocks in use, whatever the
    links, the queue and the counter were before. *)
Theorem build_free_link_correct s : table_ok s ->
  exists s', runs build_free_link s tt s' /\ segs_wf s' (free_segs s MAIN_SEG_NR) /\
    m_used_blk_nr s' = total_valid (m_segments s) /\ m_cur_segs s' = m_cur_segs s.
Proof.
  intros H. destruct (build_free_link_spec s H) as (s' & Hr & Hw & Hc & _ & Ht & _).
  exists s'. split_and!; [done|done| |done]. by rewrite (sw_used _ _ Hw), Ht.
Qed.

(** C16: invalidating a block.  A block in use becomes free, the counters of its
    segment and of the volume drop by one, no other block changes.  Exactly
    when it was the only valid block of its segment and the segment is not the
    current one of its temperature, the segment goes to the end of the free
    queue and the call answers so; otherwise the queue is what it was.  A block
    that is not in use is reported as doubled and nothing changes; the invalid
    address is ignored. *)
Theorem InvalidBlock_correct s q phy_blk :
  segs_wf s q -> 0 <= phy_blk < MAIN_BLK_NR \/ phy_blk = INVALID16 ->
  (phy_blk = INVALID16 -> runs (InvalidBlock phy_blk) s false s) /\
  (phy_blk <> INVALID16 -> ~ blk_live s phy_blk ->
     throws (InvalidBlock phy_blk) s (FsError ERR_DOUBLED_BLK) s) /\
  (blk_live s phy_blk -> phy_blk <> INVALID16 ->
   exists s' (b : bool), runs (InvalidBlock phy_blk) s b s' /\
     last_of_closed s (phy_blk / BLOCK_PER_SEG) b /\
     segs_wf s' (if b then q ++ [phy_blk / BLOCK_PER_SEG] else q) /\
     m_cur_segs s' = m_cur_segs s /\
     m_used_blk_nr s' = m_used_blk_nr s - 1 /\ ~ blk_live s' phy_blk /\
     (forall other, 0 <= other < MAIN_BLK_NR -> other <> phy_blk ->
        (blk_live s' other <-> blk_live s other) /\ owner_of s' other = owner_of s other)).
Proof.
  intros H Hb. split_and!.
  - intros ->. done.
  - intros Hi Hl. destruct Hb as [Hb|]; [|done]. destruct (BlockToSeg_main _ Hb) as (E & Hs & Hk).
    destruct (segs_at _ _ _ H Hs) as [g Hg]. unfold InvalidBlock. rewrite (proj2 (Z.eqb_neq _ _)) by done.
    rewrite E. eapply InvalidBlock_at_dead; [apply H|exact Hg|lia|].
    apply not_true_iff_false. intros Ht. apply Hl. by exists g.
  - intros Hl Hi. destruct Hb as [Hb|]; [|done].
    destruct (InvalidBlock_spec _ _ _ H Hb Hl) as (s' & b & Hr & Hw & Hu & Hc & Hd & Ho & Hown & Hlast).
    exists s', b. split_and!; [done|done|done|done|done|done|]. intros other Hob Hne.
    split; [by apply Ho|by apply Hown].
Qed.

(** Addresses.  A block of the main area has one address as a segment and
    an offset, one as a number, and one on the medium; the conversions agree
    and keep the main area behind the metadata and inside the medium. *)
Theorem main_area_addresses seg blk :
  0 <= seg < MAIN_SEG_NR -> 0 <= blk < BLOCK_PER_SEG ->
  BlockToSeg (PhyBlock seg blk) = (seg, blk) /\
  phyblk_to_lba (PhyBlock seg blk) = seg_to_lba seg blk /\
  END_META_BLK <= seg_to_lba seg blk < TOTAL_BLOCK_NR /\ PhyBlock seg blk <> NID_IN_USE.
Proof.
  intros Hs Hb. assert (E : PhyBlock seg blk = seg * BLOCK_PER_SEG + blk).
  { unfold PhyBlock, w16. apply Z.mod_small. clia. }
  split_and!.
  - unfold BlockToSeg. rewrite E, (proj2 (Z.eqb_neq _ _)) by clia. f_equal.
    + symmetry. apply (Z.div_unique _ _ _ blk); clia.
    + symmetry. apply (Z.mod_unique _ _ seg); clia.
  - unfold phyblk_to_lba, seg_to_lba. rewrite E. clia.
  - unfold seg_to_lba. clia.
  - unfold seg_to_lba. clia.
  - rewrite E. clia.
Qed.

(** * Concrete tables, for the witnesses *)
Definition segs_blank : Segs := mkSegs [] (rep BT_TEMP_NR CURSEG_ff) [] 0 0 0 0 0 0.
Definition formatted : Segs := (InitSegmentManager segs_blank).2.
Lemma formatted_wf : segs_wf formatted (range 0 MAIN_SEG_NR).
Proof.
  destruct (InitSegmentManager_spec segs_blank) as (s' & Hr & Hw & _); [done|].
  unfold runs in Hr. unfold formatted. by rewrite Hr.
Qed.
(** One segment taken, with one block in it. *)
Definition one_taken : Segs := (take_free_segment BT_HOT__DATA formatted).2.
Definition one_block_seg : SegmentInfo := mkSeg 8 1 BT_HOT__DATA (rep 16 7) (rep 16 0) 1.
Definition one_block : Segs :=
  set_used 1 (with_segs (<[0%nat := one_block_seg]> (m_segments one_taken)) one_taken).
#[global] Strategy 100 [formatted one_taken one_block].
Lemma one_block_seg_ok : seg_ok one_block_seg.
Proof. constructor; by vm_compute. Qed.
Lemma one_block_wf : segs_wf one_block (range 1 MAIN_SEG_NR).
Proof.
  pose proof formatted_wf as H. rewrite (range_cons 0 MAIN_SEG_NR) in H by clia.
  destruct (take_free_segment_spec _ _ _ BT_HOT__DATA H) as (s' & n & Hr & Hw & Hu & _ & Hx & Hg & _);
    [clia|].
  assert (one_taken = s') as Hs by (unfold one_taken, runs in *; by rewrite Hr).
  unfold one_block. rewrite Hs. change 0%nat with (Z.to_nat 0). constructor.
  - apply (q_used (with_segs (<[Z.to_nat 0 := one_block_seg]> (m_segments s')) s')).
    eapply q_outside; [apply Hw|exact Hg|apply one_block_seg_ok|exact Hx].
  - change (1 = total_valid (<[Z.to_nat 0 := one_block_seg]> (m_segments s'))).
    rewrite (total_insert _ _ _ _ Hg), <- (sw_used _ _ Hw), Hu. by vm_compute.
Qed.
Lemma one_block_live : blk_live one_block 3.
Proof. eexists. split; [vm_compute; reflexivity|by vm_compute]. Qed.

Lemma free_segments_fifo_witness :
  let l := [SegTake BT_HOT__DATA; SegTake BT_HOT__NODE; SegFree 0; SegTake BT_HOT__DATA] in
  queue_outcomes queue_step l formatted = queue_outcomes fifo_step l (range 0 MAIN_SEG_NR) /\
  queue_outcomes fifo_step l (range 0 MAIN_SEG_NR) = [Ret (Some 0); Ret (Some 1); Ret None; Ret (Some 2)].
Proof.
  split; [|by vm_compute]. apply free_segments_fifo; [apply formatted_wf|]. cbn.
  split_and!; try done; [|by eexists].
  intros H. assert (0 ∈ range 2 MAIN_SEG_NR) as [? ?]%elem_of_range by exact H. done.
Defined.
Lemma InitSegmentManager_all_free_witness :
  Z.of_nat (length (m_cur_segs segs_blank)) = BT_TEMP_NR /\
  exists s', runs InitSegmentManager segs_blank tt s' /\ segs_wf s' (range 0 MAIN_SEG_NR) /\
    m_used_blk_nr s' = 0 /\ m_cur_segs s' = rep BT_TEMP_NR CURSEG_ff.
Proof. split; [by vm_compute|]. apply (InitSegmentManager_all_free segs_blank). by vm_compute. Defined.
Lemma one_block_table : table_ok one_block.
Proof. destruct one_block_wf as [[] _]. by constructor. Qed.
Lemma build_free_link_correct_witness :
  free_segs one_block MAIN_SEG_NR = range 1 MAIN_SEG_NR /\
  exists s', runs build_free_link one_block tt s' /\ segs_wf s' (free_segs one_block MAIN_SEG_NR) /\
    m_used_blk_nr s' = total_valid (m_segments one_block) /\ m_cur_segs s' = m_cur_segs one_block.
Proof. split; [by vm_compute|]. apply (build_free_link_correct one_block), one_block_table. Defined.
(** The same segment when it is not the current one: dropping its only block
    frees it. *)
Lemma one_block_current : last_of_closed one_block 0 true.
Proof. eexists _, _. split_and!; vm_compute; reflexivity. Qed.
Lemma InvalidBlock_correct_witness :
  exists s', runs (InvalidBlock 3) one_block true s' /\
    segs_wf s' (range 1 MAIN_SEG_NR ++ [0]) /\
    m_used_blk_nr s' = 0 /\ ~ blk_live s' 3 /\
    (forall other, 0 <= other < MAIN_BLK_NR -> other <> 3 -> blk_live s' other <-> blk_live one_block other).
Proof.
  destruct (InvalidBlock_correct one_block (range 1 MAIN_SEG_NR) 3 one_block_wf) as (_ & _ & H); [left; clia|].
  destruct (H one_block_live) as (s' & b & Hr & (g & m & Hg & Hm & Hb) & Hw & _ & Hu & Hd & Ho); [done|].
  assert (b = true) as ->.
  { rewrite Hb. vm_compute in Hg, Hm. injection Hg as <-. injection Hm as <-. vm_compute. reflexivity. }
  exists s'. split; [exact Hr|]. split; [exact Hw|]. split; [rewrite Hu; by vm_compute|]. split; [exact Hd|].
  intros other Hr1 Hr2. apply Ho; done.
Defined.
Lemma main_area_addresses_witness : BlockToSeg (PhyBlock 59 15) = (59, 15) /\ seg_to_lba 59 15 = 1087.
Proof. split; [|by vm_compute]. apply (main_area_addresses 59 15); clia. Defined.
