(* ===== verification/Nat.v ===== *)
(** Nat: the node address table, f2fs_nat.cpp, without the journal. *)
From S2P Require Export Segment.

Abbreviation NatT := CNodeAddressTable.

Definition set_nat_entry (nid v : Z) : M NatT unit :=
  t <- get ;; l <- opt (aset (nat_table t) nid v) ;;
  put (mkNat (node_cache t) (free_nr t) l (nat_dirty t) (next_scan t)).
Definition set_node_cache (nid v : Z) : M NatT unit :=
  t <- get ;; l <- opt (aset (node_cache t) nid v) ;;
  put (mkNat l (free_nr t) (nat_table t) (nat_dirty t) (next_scan t)).
Definition node_cache_at (nid : Z) : M NatT Z :=
  t <- get ;; opt (aget (node_cache t) nid).
Definition set_scan (n : Z) (t : NatT) : NatT :=
  mkNat (node_cache t) (free_nr t) (nat_table t) (nat_dirty t) n.
Definition set_nat_free (n : Z) (t : NatT) : NatT :=
  mkNat (node_cache t) n (nat_table t) (nat_dirty t) (next_scan t).
Definition set_nat_dirty_map (l : list Z) (t : NatT) : NatT :=
  mkNat (node_cache t) (free_nr t) (nat_table t) l (next_scan t).

(** * Dirty entries *)
Definition nat_set_dirty (nid : Z) : M NatT unit :=
  t <- get ;; l <- opt (map_set NAT_ENTRY_PER_BLK (nat_dirty t) nid) ;; put (set_nat_dirty_map l t).
Definition nat_clear_dirty (nid : Z) : M NatT unit :=
  t <- get ;; l <- opt (map_clear NAT_ENTRY_PER_BLK (nat_dirty t) nid) ;; put (set_nat_dirty_map l t).
Definition nat_is_dirty (nid : Z) : M NatT Z :=
  t <- get ;; opt (map_test NAT_ENTRY_PER_BLK (nat_dirty t) nid).

(** * Allocation *)
Definition build_free : M NatT Z :=
  modify (set_scan INVALID16) ;;;
  modify (set_nat_free 0) ;;;
  mfor (range 0 NODE_NR) (fun ii =>
    t <- get ;;
    b <- opt (aget (nat_table t) ii) ;;
    when (is_invalid16 b) (
      modify (fun t => set_nat_free (w32 (free_nr t + 1)) t) ;;;
      t <- get ;;
      when (is_invalid16 (next_scan t)) (modify (set_scan ii)))) ;;;
  gets free_nr.

Definition nat_Reset : M NatT unit :=
  put (mkNat (rep NODE_NR INVALID32) 0 (rep NODE_NR INVALID16) (rep NAT_BLK_NR 0) 0).
Definition nat_CopyFrom (src : NatT) : M NatT unit := put src.

(** The body of the scan; it is left with the node that was found, or with
    [INVALID16] when the scan is back at its start. *)
Definition get_node_step (cur : Z) (_ : Z) : M NatT (flow Z) :=
  t <- get ;;
  let here := next_scan t in
  b <- opt (aget (nat_table t) here) ;;
  if is_invalid16 b then
    modify (fun t => set_nat_free (w32 (free_nr t - 1)) t) ;;;
    set_nat_entry here NID_IN_USE ;;;
    nat_set_dirty here ;;;
    modify (set_scan (w16 (here + 1))) ;;;
    ret (Break here)
  else
    let n1 := w16 (here + 1) in
    let n2 := if NODE_NR <=? n1 then 0 else n1 in
    modify (set_scan n2) ;;;
    if n2 =? cur then ret (Break INVALID16) else ret (Next INVALID16).

(** The scan visits every entry before it is back at its start. *)
Definition get_node : M NatT Z :=
  t <- get ;;
  let cur := next_scan t in
  if free_nr t =? 0 then ret INVALID16 else
  when (NODE_NR <=? cur) (modify (set_scan 0)) ;;;
  mwhile (Z.to_nat (NODE_NR + 1)) INVALID16 (get_node_step cur).

Definition get_phy_blk (nid : Z) : M NatT Z :=
  if NODE_NR <=? nid then throw (FsError ERR_INVALID_NID)
  else t <- get ;; opt (aget (nat_table t) nid).
Definition set_phy_blk (nid phy_blk : Z) : M NatT unit :=
  if NODE_NR <=? nid then throw ERR_APP
  else set_nat_entry nid phy_blk ;;; nat_set_dirty nid.

Section NatFs.
Context {St : Type} `{BlockStore St}.
Abbreviation Fs := (CF2fsSimulator St).

(** [m_pages->free(m_pages->page(i))] *)
Definition free_page_id (i : Z) : M Fs unit :=
  s <- get ;; on_pages (free (page i (fs_pages s))).

Definition put_node (nid : Z) : M Fs unit :=
  if NODE_NR <=? nid then throw ERR_USER else
  s <- get ;;
  blk <- opt (aget (nat_table (fs_nat s)) nid) ;;
  (if is_valid16 blk && negb (blk =? NID_IN_USE)
   then on_segs (InvalidBlock blk) ;;; ret tt else ret tt) ;;;
  c <- on_nat (node_cache_at nid) ;;
  when (is_valid32 c) (free_page_id c ;;; on_nat (set_node_cache nid INVALID32)) ;;;
  on_nat (set_nat_entry nid INVALID16) ;;;
  on_nat (modify (fun t => set_nat_free (w32 (free_nr t + 1)) t)) ;;;
  on_nat (nat_set_dirty nid).

(** One block of the table. *)
Definition nat_slice (nid : Z) (t : NatT) : list Z :=
  take (Z.to_nat NAT_ENTRY_PER_BLK) (drop (Z.to_nat nid) (nat_table t)).

(** [Sync] *)
Definition nat_Sync : M Fs unit :=
  mfor (range 0 NAT_BLK_NR) (fun nat_blk =>
    s <- get ;;
    w <- opt (aget (nat_dirty (fs_nat s)) nat_blk) ;;
    when (negb (w =? 0)) (
      pg <- on_pages allocate ;;
      upd_body pg (fun _ => U_nat (mkNatBlock (nat_slice (nat_blk * NAT_ENTRY_PER_BLK) (fs_nat s)))) ;;;
      write_page (nat_blk + NAT_START_BLK) (InCache pg) ;;;
      l <- opt (aset (nat_dirty (fs_nat s)) nat_blk 0) ;;
      on_nat (modify (set_nat_dirty_map l)))).

(** [Init]; its argument is not used. *)
Definition nat_Init : M Fs Z :=
  on_nat (modify (fun t => mkNat (rep NODE_NR INVALID32) (free_nr t) (rep NODE_NR INVALID16)
                             (rep NAT_BLK_NR INVALID32) (next_scan t))) ;;;
  n <- on_nat build_free ;;
  if n =? 0 then throw (FsError ERR_NO_SPACE) else
  nat_Sync ;;;
  ret 0.

Definition get_dirty_node_nr : M Fs Z :=
  mfold (range 0 NODE_NR) 0 (fun dirty_nr ii =>
    pid <- on_nat (node_cache_at ii) ;;
    if is_invalid32 pid then ret dirty_nr else
    s <- get ;;
    match page pid (fs_pages s) with
    | None => ret dirty_nr
    | Some pg => p <- on_pages (page_at pg) ;;
                 ret (if dirty p then w32 (dirty_nr + 1) else dirty_nr)
    end).
End NatFs.
