(* ===== verification/NatInv.v ===== *)
(** NatInv: the invariant of the node address table, and what allocating and
    releasing a node do to it. *)
From S2P Require Export Nat SegmentInv.

(** * The invariant of the table *)
Definition free_count (l : list Z) : Z := Z.of_nat (length (filter (fun v => v = INVALID16) l)).

Record nat_ok (t : NatT) : Prop := {
  no_len : Z.of_nat (length (nat_table t)) = NODE_NR;
  no_cache : Z.of_nat (length (node_cache t)) = NODE_NR;
  no_dirty : Z.of_nat (length (nat_dirty t)) = NAT_BLK_NR;
  no_free : free_nr t = free_count (nat_table t);
  no_scan : 0 <= next_scan t <= INVALID16
}.

Lemma free_count_insert l i v w : aget l i = Some v ->
  free_count (<[Z.to_nat i := w]> l) =
  free_count l - (if decide (v = INVALID16) then 1 else 0) + (if decide (w = INVALID16) then 1 else 0).
Proof.
  intros [_ Hi]%aget_Some. revert Hi. generalize (Z.to_nat i) as k. clear i. unfold free_count.
  induction l as [|h l IH]; intros [|k] Hk; [done|done| |].
  - injection Hk as ->. change (<[O := w]> (v :: l)) with (w :: l). rewrite !filter_cons.
    repeat case_decide; cbn [length]; lia.
  - change (<[S k := w]> (h :: l)) with (h :: <[k := w]> l). rewrite !filter_cons.
    specialize (IH k Hk). repeat case_decide; cbn [length]; lia.
Qed.

Lemma free_count_bounds l : 0 <= free_count l <= Z.of_nat (length l).
Proof.
  unfold free_count. pose proof (length_filter (fun v => v = INVALID16) l). lia.
Qed.

Lemma free_count_pos l : 0 < free_count l -> exists i, aget l i = Some INVALID16.
Proof.
  unfold free_count. destruct (filter _ l) as [|v r] eqn:E; [cbn; lia|]. intros _.
  assert (Hv : v ∈ filter (fun v => v = INVALID16) l) by (rewrite E; set_solver).
  apply list_elem_of_filter in Hv as [-> Hv]. apply list_elem_of_lookup in Hv as [i Hi].
  exists (Z.of_nat i). apply aget_Some. split; [lia|by rewrite Nat2Z.id].
Qed.

(** The entry [d] steps after [s], around the table. *)
Definition scan_at (s d : Z) : Z := (s + d) mod NODE_NR.
Definition scan_start (t : NatT) : Z := if NODE_NR <=? next_scan t then 0 else next_scan t.
(** [nid] is the first free entry at or after the position of the scan. *)
Definition first_free (t : NatT) (nid : Z) : Prop :=
  exists d, 0 <= d < NODE_NR /\ nid = scan_at (scan_start t) d /\
    aget (nat_table t) nid = Some INVALID16 /\
    forall e, 0 <= e < d -> aget (nat_table t) (scan_at (scan_start t) e) <> Some INVALID16.

Lemma scan_at_range s d : 0 <= scan_at s d < NODE_NR.
Proof. unfold scan_at. apply Z.mod_pos_bound. clia. Qed.

Lemma first_free_exists t : nat_ok t -> 0 < free_nr t -> exists nid, first_free t nid.
Proof.
  intros H Hf. rewrite (no_free _ H) in Hf. apply free_count_pos in Hf as [i Hi].
  pose proof (aget_bounds _ _ _ Hi) as Hb. rewrite (no_len _ H) in Hb.
  set (s := scan_start t). set (P := fun d => aget (nat_table t) (scan_at s d) = Some INVALID16).
  assert (Hd : exists d, 0 <= d < NODE_NR /\ P d).
  { exists ((i - s) mod NODE_NR). split; [apply Z.mod_pos_bound; clia|].
    unfold P, scan_at. rewrite Zplus_mod_idemp_r. replace (s + (i - s)) with i by lia.
    by rewrite Z.mod_small. }
  destruct Hd as (d & Hd & HP).
  destruct (least_or_none P (Z.to_nat NODE_NR)) as [(d0 & Hd0 & HP0 & Hno)|Hno].
  - exists (scan_at s d0), d0. split_and!; [lia|lia|done|done|done].
  - exfalso. apply (Hno d); [lia|done].
Qed.

(** * The scan *)
Definition nat_taken (t : NatT) (nid : Z) (dirty : list Z) : NatT :=
  mkNat (node_cache t) (free_nr t - 1) (<[Z.to_nat nid := NID_IN_USE]> (nat_table t)) dirty
    (nid + 1).

Lemma scan_at_succ s d : 0 <= s < NODE_NR ->
  scan_at s (d + 1) = if NODE_NR <=? scan_at s d + 1 then 0 else scan_at s d + 1.
Proof.
  intros Hs. unfold scan_at. rewrite Z.add_assoc.
  pose proof (Z.mod_pos_bound (s + d) NODE_NR ltac:(clia)) as Hb.
  pose proof (Z.div_mod (s + d) NODE_NR ltac:(clia)) as Hd.
  destruct (Z.leb_spec NODE_NR ((s + d) mod NODE_NR + 1)).
  - symmetry. apply (Z.mod_unique _ _ ((s + d) / NODE_NR + 1)); [clia|]. clia.
  - symmetry. apply (Z.mod_unique _ _ ((s + d) / NODE_NR)); [clia|]. clia.
Qed.

Lemma get_node_found t : nat_ok t -> 0 <= next_scan t < NODE_NR -> 0 < free_nr t ->
  forall cur acc, aget (nat_table t) (next_scan t) = Some INVALID16 ->
  exists l, runs (get_node_step cur acc) t (Break (next_scan t)) (nat_taken t (next_scan t) l) /\
    map_set NAT_ENTRY_PER_BLK (nat_dirty t) (next_scan t) = Some l.
Proof.
  intros H Hs Hf cur acc Hi.
  destruct (map_set_Some NAT_ENTRY_PER_BLK (nat_dirty t) (next_scan t)) as (w & _ & Hm).
  { clia. } { rewrite (no_dirty _ H). clia. }
  pose proof (free_count_bounds (nat_table t)) as Hb. rewrite (no_len _ H), <- (no_free _ H) in Hb.
  eexists. split; [|exact Hm].
  unfold runs, get_node_step, set_nat_entry, nat_set_dirty, modify, put, bind, get, opt. rewrite Hi. cbn.
  rewrite aset_is_Some by (rewrite (no_len _ H); lia). cbn. rewrite Hm. cbn.
  unfold set_nat_dirty_map, set_scan, nat_taken, w32, w16, ret. cbn. rewrite (Z.mod_small (_ - 1)), (Z.mod_small (_ + 1)) by clia. done.
Qed.

Lemma get_node_scan t d : nat_ok t -> 0 < free_nr t -> 0 <= d < NODE_NR ->
  let s := scan_start t in
  aget (nat_table t) (scan_at s d) = Some INVALID16 ->
  (forall e, 0 <= e < d -> aget (nat_table t) (scan_at s e) <> Some INVALID16) ->
  forall k (fuel : nat), 0 <= k <= d -> d - k < Z.of_nat fuel ->
  exists l, runs (mwhile fuel INVALID16 (get_node_step (next_scan t))) (set_scan (scan_at s k) t)
      (scan_at s d) (nat_taken t (scan_at s d) l) /\
    map_set NAT_ENTRY_PER_BLK (nat_dirty t) (scan_at s d) = Some l.
Proof.
  intros H Hf Hd s Hi Hmin k fuel. revert k. induction fuel as [|fuel IH]; intros k Hk Hfuel; [lia|].
  set (t1 := set_scan (scan_at s k) t). pose proof (scan_at_range s k) as Hr.
  assert (H1 : nat_ok t1). { destruct H. constructor; try done. cbn. clia. }
  assert (Hs : 0 <= s < NODE_NR).
  { subst s. unfold scan_start. pose proof (no_scan _ H). destruct (Z.leb_spec NODE_NR (next_scan t)); clia. }
  destruct (decide (k = d)) as [->|Hne].
  - destruct (get_node_found t1 H1 Hr Hf (next_scan t) INVALID16 Hi) as (l & Hl & Hm).
    exists l. split; [|exact Hm]. cbn [mwhile]. eapply runs_bind; [exact Hl|done].
  - destruct (IH (k + 1)) as (l & Hl & Hm); [lia|lia|]. exists l. split; [|exact Hm].
    cbn [mwhile]. apply (runs_bind _ _ _ (Next INVALID16) (set_scan (scan_at s (k + 1)) t)); [|exact Hl].
    fold t1.
    unfold runs, get_node_step. unfold bind at 1, get at 1.
    destruct (aget_is_Some (nat_table t) (scan_at s k)) as [v Hv]; [rewrite (no_len _ H); done|].
    cbn [next_scan t1 nat_table set_scan]. rewrite Hv.
    assert (v <> INVALID16) as Hvn by (intros ->; apply (Hmin k); [lia|done]).
    unfold bind, opt, modify. cbn. rewrite (proj2 (Z.eqb_neq _ _)) by done.
    assert (w16 (scan_at s k + 1) = scan_at s k + 1) as -> by (unfold w16; rewrite Z.mod_small; clia).
    rewrite <- (scan_at_succ s k Hs). rewrite (proj2 (Z.eqb_neq _ _)); [done|].
    intros Heq. apply (Hmin 0); [lia|]. exfalso.
    (* the scan is not back at its start before it has found the entry *)
    assert (next_scan t = s) as Hns.
    { subst s. unfold scan_start in *. pose proof (scan_at_range (scan_start t) (k + 1)).
      unfold scan_start in *. destruct (Z.leb_spec NODE_NR (next_scan t)); [lia|done]. }
    rewrite Hns in Heq. unfold scan_at in Heq.
    apply (f_equal (fun x => (x - s) mod NODE_NR)) in Heq.
    rewrite Zminus_mod_idemp_l, Z.sub_diag in Heq. replace (s + (k + 1) - s) with (k + 1) in Heq by lia.
    rewrite (Z.mod_small (k + 1)) in Heq by lia. rewrite Z.mod_0_l in Heq by clia. lia.
Qed.

Lemma nat_ok_taken t nid l :
  nat_ok t -> 0 <= nid < NODE_NR -> aget (nat_table t) nid = Some INVALID16 ->
  map_set NAT_ENTRY_PER_BLK (nat_dirty t) nid = Some l -> nat_ok (nat_taken t nid l).
Proof.
  intros H Hn Hi Hm. pose proof (no_free _ H) as Hf. destruct H as [Hl Hc Hd _ Hs].
  constructor; cbn.
  - by rewrite length_insert.
  - done.
  - by rewrite (map_set_length _ _ _ _ Hm).
  - rewrite (free_count_insert _ _ _ _ Hi). rewrite decide_True, decide_False by done. lia.
  - clia.
Qed.

Lemma get_node_spec t : nat_ok t -> 0 < free_nr t ->
  exists nid l, runs get_node t nid (nat_taken t nid l) /\ first_free t nid /\
    map_set NAT_ENTRY_PER_BLK (nat_dirty t) nid = Some l /\ nat_ok (nat_taken t nid l).
Proof.
  intros H Hf. destruct (first_free_exists t H Hf) as (nid & Hnid).
  pose proof Hnid as (d & Hd & -> & Hi & Hmin). set (s := scan_start t) in *.
  destruct (get_node_scan t d H Hf Hd Hi Hmin 0 (Z.to_nat (NODE_NR + 1))) as (l & Hl & Hm); [lia|clia|].
  exists (scan_at s d), l. split_and!; [|done|done|].
  - unfold get_node. eapply runs_bind; [done|]. rewrite (proj2 (Z.eqb_neq _ _)) by lia.
    assert (Hs : 0 <= s < NODE_NR).
    { subst s. unfold scan_start. pose proof (no_scan _ H). destruct (Z.leb_spec NODE_NR (next_scan t)); clia. }
    assert (E : scan_at s 0 = s) by (unfold scan_at; rewrite Z.add_0_r; by apply Z.mod_small).
    fold s in Hl. rewrite E in Hl. eapply runs_bind; [|exact Hl]. clear. subst s. unfold scan_start.
    destruct (NODE_NR <=? next_scan t); [done|]. unfold runs, when, ret. f_equal. by destruct t.
  - apply nat_ok_taken; [done|apply scan_at_range|done|done].
Qed.

(** Recounting the free entries. *)
Lemma take_succ_aget {A} (l : list A) i a : aget l i = Some a ->
  take (Z.to_nat (i + 1)) l = take (Z.to_nat i) l ++ [a].
Proof.
  intros [H0 Hi]%aget_Some. replace (Z.to_nat (i + 1)) with (S (Z.to_nat i)) by lia. by apply take_S_r.
Qed.
Lemma free_count_app l1 l2 : free_count (l1 ++ l2) = free_count l1 + free_count l2.
Proof. unfold free_count. rewrite filter_app, length_app. lia. Qed.

(** The position [sc] is that of the first free entry, or no position when no
    entry is free. *)
Definition scan_first (l : list Z) (sc : Z) : Prop :=
  (sc = INVALID16 /\ INVALID16 ∉ l) \/
  (aget l sc = Some INVALID16 /\ forall i, 0 <= i < sc -> aget l i <> Some INVALID16).

Lemma scan_first_snoc l v sc : Z.of_nat (length l) < INVALID16 -> scan_first l sc ->
  scan_first (l ++ [v]) (if (v =? INVALID16) && (sc =? INVALID16) then Z.of_nat (length l) else sc).
Proof.
  intros Hl H. assert (Hat : forall i, 0 <= i < Z.of_nat (length l) -> aget (l ++ [v]) i = aget l i).
  { intros i Hi. unfold aget. destruct (0 <=? i); [|done]. apply lookup_app_l. lia. }
  destruct H as [[-> Hno]|[Hat0 Hmin]].
  - rewrite Z.eqb_refl, andb_true_r. destruct (Z.eqb_spec v INVALID16) as [->|Hv].
    + right. split.
      * apply aget_Some. split; [lia|]. rewrite Nat2Z.id. by apply list_lookup_middle.
      * intros i Hi. rewrite Hat by done. intros [_ Hin]%aget_Some. apply Hno. by eapply list_elem_of_lookup_2.
    + left. split; [done|]. rewrite elem_of_app, list_elem_of_singleton. naive_solver.
  - pose proof (aget_bounds _ _ _ Hat0) as Hb. rewrite (proj2 (Z.eqb_neq sc INVALID16)) by lia.
    rewrite andb_false_r. right. split; [by rewrite Hat|]. intros i Hi. rewrite Hat by lia. by apply Hmin.
Qed.

Lemma build_free_spec t : Z.of_nat (length (nat_table t)) = NODE_NR ->
  exists sc, (0 <= sc <= INVALID16 /\ scan_first (nat_table t) sc) /\
    runs build_free t (free_count (nat_table t)) (set_nat_free (free_count (nat_table t)) (set_scan sc t)).
Proof.
  intros Hl. set (Inv := fun i u => exists sc, (0 <= sc <= INVALID16 /\ scan_first (take (Z.to_nat i) (nat_table t)) sc) /\
    u = set_nat_free (free_count (take (Z.to_nat i) (nat_table t))) (set_scan sc t)).
  enough (H : wp build_free (fun r u => Inv NODE_NR u /\ r = free_nr u) (fun _ _ => False) t).
  { apply wp_runs in H as (r & u & Hr & (sc & Hsc & ->) & ->). exists sc.
    assert (take (Z.to_nat NODE_NR) (nat_table t) = nat_table t) as Et by (apply take_ge; lia).
    rewrite Et in Hr, Hsc. split; [exact Hsc|exact Hr]. }
  unfold build_free. apply wp_bind_modify, wp_bind_modify.
  eapply (wp_then _ _ (fun _ => Inv NODE_NR)); [|by intros [] u Hu]. apply wp_for; [clia| |].
  - exists INVALID16. split; [|done]. split; [clia|]. left. split; [done|]. cbn. set_solver.
  - intros i u Hi (sc & [Hsc Hfirst] & ->). destruct (aget_is_Some (nat_table t) i) as [v Hv]; [lia|].
    apply wp_runs. exists tt. unfold runs, bind, get, opt. cbn [nat_table set_nat_free set_scan].
    rewrite Hv. cbn [ret]. pose proof (take_succ_aget _ _ _ Hv) as Ht.
    pose proof (free_count_bounds (take (Z.to_nat i) (nat_table t))) as Hb.
    rewrite length_take in Hb.
    apply (scan_first_snoc _ v) in Hfirst; [|rewrite length_take; clia].
    rewrite <- Ht, length_take in Hfirst. replace (Z.of_nat (Z.to_nat i `min` length (nat_table t))) with i in Hfirst by lia.
    revert Hfirst. destruct (Z.eqb_spec v INVALID16) as [->|Hne]; cbn [when andb]; intros Hfirst.
    + assert (Hw : w32 (free_count (take (Z.to_nat i) (nat_table t)) + 1) = free_count (take (Z.to_nat (i + 1)) (nat_table t))).
      { rewrite Ht, free_count_app. change (free_count [INVALID16]) with 1. unfold w32. apply Z.mod_small. clia. }
      unfold modify. cbn. rewrite Hw. destruct (Z.eqb_spec sc INVALID16); cbn.
      * eexists. split; [done|]. exists i. split; [split; [clia|done]|]. done.
      * eexists. split; [done|]. exists sc. split; [done|]. done.
    + eexists. split; [done|]. exists sc. split; [done|]. rewrite Ht, free_count_app.
      replace (free_count [v]) with 0; [by rewrite Z.add_0_r|].
      unfold free_count. rewrite filter_cons, decide_False by done. done.
Qed.

(** Allocating a node number.  With no free entry the table is left alone
    and the invalid number is returned.  Otherwise the scan, wherever it
    starts, ends within its bound with the first free entry at or after its
    position, cyclically; the entry is marked in use and dirty, exactly one
    entry less is free, and no other entry changes. *)
Theorem get_node_first_free t :
  nat_ok t ->
  (free_nr t = 0 -> runs get_node t INVALID16 t) /\
  (free_nr t <> 0 -> exists nid l, runs get_node t nid (nat_taken t nid l) /\
     first_free t nid /\ map_set NAT_ENTRY_PER_BLK (nat_dirty t) nid = Some l /\
     nat_ok (nat_taken t nid l)).
Proof.
  intros H. split; intros Hf.
  - unfold get_node. eapply runs_bind; [done|]. by rewrite (proj2 (Z.eqb_eq _ _)) by done.
  - apply get_node_spec; [done|]. pose proof (free_count_bounds (nat_table t)).
    rewrite <- (no_free _ H) in *. lia.
Qed.

(** A table with two free entries, scanned from behind both. *)
Definition nat_example : NatT :=
  mkNat (rep NODE_NR INVALID32) 2
    (<[3%nat := INVALID16]> (<[7%nat := INVALID16]> (rep NODE_NR 5))) (rep NAT_BLK_NR 0) 100.
Lemma nat_example_ok : nat_ok nat_example.
Proof. constructor; [by vm_compute..|]. cbn. clia. Qed.
Lemma get_node_first_free_witness :
  get_node nat_example = (Ret 3, nat_taken nat_example 3 [8; 0; 0; 0]) /\
  exists nid l, runs get_node nat_example nid (nat_taken nat_example nid l) /\
    first_free nat_example nid /\ map_set NAT_ENTRY_PER_BLK (nat_dirty nat_example) nid = Some l /\
    nat_ok (nat_taken nat_example nid l).
Proof.
  split; [by vm_compute|]. apply (get_node_first_free nat_example); [apply nat_example_ok|by vm_compute].
Defined.

(** * Releasing a node *)
Section PutNode.
Context {St : Type} `{HB : BlockStore St}.
Abbreviation Fs := (CF2fsSimulator St).
Implicit Types s : Fs.

(** The table after an entry is released. *)
Definition nat_freed (t : NatT) (nid : Z) (dirty : list Z) : NatT :=
  mkNat (<[Z.to_nat nid := INVALID32]> (node_cache t)) (free_nr t + 1)
    (<[Z.to_nat nid := INVALID16]> (nat_table t)) dirty (next_scan t).

Lemma nat_ok_freed t nid blk l : nat_ok t -> aget (nat_table t) nid = Some blk -> blk <> INVALID16 ->
  map_set NAT_ENTRY_PER_BLK (nat_dirty t) nid = Some l -> nat_ok (nat_freed t nid l).
Proof.
  intros H Hi Hb Hm. pose proof (no_free _ H) as Hf. destruct H as [Hl Hc Hd _ Hs].
  constructor; cbn; rewrite ?length_insert; try done.
  - by rewrite (map_set_length _ _ _ _ Hm).
  - rewrite (free_count_insert _ _ _ _ Hi). rewrite decide_False, decide_True by done. lia.
Qed.

(** The block of the node: none yet, or one in use in the main area. *)
Definition node_blk_ok (g : Segs) (blk : Z) : Prop :=
  blk = NID_IN_USE \/ (0 <= blk < MAIN_BLK_NR /\ blk_live g blk).

(** The three steps of [put_node]. *)
Lemma put_blk s q blk : segs_wf (fs_segs s) q -> node_blk_ok (fs_segs s) blk ->
  exists g q', runs (if is_valid16 blk && negb (blk =? NID_IN_USE)
        then on_segs (InvalidBlock blk) ;;; ret tt else ret tt) s tt (set_segs g s) /\
    segs_wf g q' /\ (blk = NID_IN_USE -> g = fs_segs s /\ q' = q) /\
    (blk <> NID_IN_USE -> m_used_blk_nr g = m_used_blk_nr (fs_segs s) - 1 /\ ~ blk_live g blk /\
      forall other, 0 <= other < MAIN_BLK_NR -> other <> blk ->
        (blk_live g other <-> blk_live (fs_segs s) other) /\ owner_of g other = owner_of (fs_segs s) other).
Proof.
  intros Hw Hb. destruct (decide (blk = NID_IN_USE)) as [->|Hne].
  - exists (fs_segs s), q. split_and!; [by destruct s|done|done|done].
  - destruct Hb as [|[Hb Hl]]; [done|].
    destruct (InvalidBlock_spec _ _ _ Hw Hb Hl) as (g & b & Hr & Hw' & Hu & _ & Hd & Ho & How & _).
    eexists g, _. split_and!; [|exact Hw'|done|intros _; split_and!; [done|done|by intros; split; auto]].
    assert (is_valid16 blk && negb (blk =? NID_IN_USE) = true) as ->.
    { rewrite !(proj2 (Z.eqb_neq _ _)) by clia. done. }
    eapply runs_bind; [by apply runs_zoom|done].
Qed.

Lemma put_cache s nid c fl : pages_wf (fs_pages s) fl ->
  aget (node_cache (fs_nat s)) nid = Some c ->
  c = INVALID32 \/ (exists p, aget (m_pages (fs_pages s)) c = Some p /\ in_use p = true) ->
  exists pa l, runs (when (is_valid32 c) (free_page_id c ;;; on_nat (set_node_cache nid INVALID32))) s tt
      (set_nat (mkNat l (free_nr (fs_nat s)) (nat_table (fs_nat s)) (nat_dirty (fs_nat s))
         (next_scan (fs_nat s))) (set_pages pa s)) /\
    l = <[Z.to_nat nid := INVALID32]> (node_cache (fs_nat s)) /\
    pages_wf pa (if c =? INVALID32 then fl else c :: fl) /\
    (c = INVALID32 -> pa = fs_pages s).
Proof.
  intros Hp Hc Hu. pose proof (aget_bounds _ _ _ Hc) as Hb. destruct (Z.eqb_spec c INVALID32) as [->|Hne].
  - exists (fs_pages s), (node_cache (fs_nat s)). split_and!; [|..|done|done].
    + by destruct s as [? ? [] ? ? ? ? ? ? ? ? ? ? ? ?].
    + symmetry. apply list_insert_id. by apply aget_Some in Hc as [_ Hc].
  - destruct Hu as [|(p & Hpg & Hin)]; [done|].
    destruct (free_spec _ _ _ _ Hp Hpg Hin) as (pa & Hr & Hwf & _ & Ho).
    eexists pa, _. split_and!; [|done|done|done]. cbn [negb when].
    eapply runs_bind.
    { eapply runs_bind; [done|]. eapply runs_zoom. unfold page. rewrite (proj2 (Z.leb_gt _ _)); [exact Hr|].
      pose proof (aget_bounds _ _ _ Hpg) as Hc'. rewrite (pw_len _ _ Hp) in Hc'. lia. }
    unfold on_nat, zoom, runs, set_node_cache, bind, get, opt, put. cbn.
    by rewrite aset_is_Some by lia.
Qed.
Lemma put_node_spec s q fl nid blk c :
  nat_ok (fs_nat s) -> segs_wf (fs_segs s) q -> pages_wf (fs_pages s) fl ->
  aget (nat_table (fs_nat s)) nid = Some blk -> node_blk_ok (fs_segs s) blk ->
  aget (node_cache (fs_nat s)) nid = Some c ->
  c = INVALID32 \/ (exists p, aget (m_pages (fs_pages s)) c = Some p /\ in_use p = true) ->
  exists g q' pa l,
    runs (put_node nid) s tt (set_nat (nat_freed (fs_nat s) nid l) (set_pages pa (set_segs g s))) /\
    nat_ok (nat_freed (fs_nat s) nid l) /\ map_set NAT_ENTRY_PER_BLK (nat_dirty (fs_nat s)) nid = Some l /\
    segs_wf g q' /\ pages_wf pa (if c =? INVALID32 then fl else c :: fl) /\
    (c = INVALID32 -> pa = fs_pages s) /\
    (blk = NID_IN_USE -> g = fs_segs s /\ q' = q) /\
    (blk <> NID_IN_USE -> m_used_blk_nr g = m_used_blk_nr (fs_segs s) - 1 /\ ~ blk_live g blk /\
      forall other, 0 <= other < MAIN_BLK_NR -> other <> blk ->
        (blk_live g other <-> blk_live (fs_segs s) other) /\ owner_of g other = owner_of (fs_segs s) other).
Proof.
  intros Hn Hw Hp Hblk Hbok Hc Hcu.
  pose proof (aget_bounds _ _ _ Hblk) as Hb. rewrite (no_len _ Hn) in Hb.
  destruct (put_blk s q blk Hw Hbok) as (g & q' & Hr1 & Hw' & Hg1 & Hg2).
  destruct (put_cache (set_segs g s) nid c fl Hp Hc Hcu) as (pa & lc & Hr2 & Hlc & Hp' & Hoth).
  destruct (map_set_Some NAT_ENTRY_PER_BLK (nat_dirty (fs_nat s)) nid) as (w & _ & Hm).
  { clia. } { rewrite (no_dirty _ Hn). clia. }
  assert (Hbi : blk <> INVALID16). { destruct Hbok as [->|[Hr _]]; clia. }
  pose proof (nat_ok_freed _ _ _ _ Hn Hblk Hbi Hm) as Hok.
  match type of Hm with _ = Some ?l0 => set (l := l0) in * end.
  exists g, q', pa, l. split_and!; [|done|done|done|done|done|done|done].
  unfold put_node. rewrite (proj2 (Z.leb_gt _ _)) by lia.
  eapply runs_bind; [done|]. rewrite Hblk. eapply runs_bind; [done|].
  eapply runs_bind; [exact Hr1|].
  eapply runs_bind; [eapply runs_zoom; unfold runs, node_cache_at, bind, get, opt; cbn; rewrite Hc; done|].
  cbn [set_nat set_segs fs_nat] in *. eapply runs_bind; [exact Hr2|].
  rewrite Hlc.
  unfold runs, on_nat, zoom, set_nat_entry, nat_set_dirty, modify, bind, get, opt, put. cbn.
  rewrite aset_is_Some by (rewrite (no_len _ Hn); lia). cbn. rewrite Hm. unfold nat_freed, set_nat_dirty_map, set_nat. cbn.
  assert (w32 (free_nr (fs_nat s) + 1) = free_nr (fs_nat s) + 1) as ->; [|done].
  rewrite (no_free _ Hn). pose proof (free_count_bounds (nat_table (fs_nat s))) as Hfb.
  rewrite (no_len _ Hn) in Hfb. unfold w32. apply Z.mod_small. clia.
Qed.
End PutNode.

Section PutNodeThm.
Context {St : Type} `{HB : BlockStore St}.
Abbreviation Fs := (CF2fsSimulator St).

(** Releasing a node number.  Its block, when it has one, is invalidated,
    its cached page, when there is one, goes back to the allocator, its entry
    becomes free and dirty and exactly one entry more is free; the other
    entries and the other blocks stay what they are.  A number outside the
    table is refused. *)
Theorem put_node_correct (s : Fs) q fl nid blk c :
  nat_ok (fs_nat s) -> segs_wf (fs_segs s) q -> pages_wf (fs_pages s) fl ->
  aget (nat_table (fs_nat s)) nid = Some blk -> node_blk_ok (fs_segs s) blk ->
  aget (node_cache (fs_nat s)) nid = Some c ->
  c = INVALID32 \/ (exists p, aget (m_pages (fs_pages s)) c = Some p /\ in_use p = true) ->
  (forall n, NODE_NR <= n -> throws (put_node n) s ERR_USER s) /\
  exists s' q' l, runs (put_node nid) s tt s' /\
    fs_nat s' = nat_freed (fs_nat s) nid l /\ nat_ok (fs_nat s') /\
    map_set NAT_ENTRY_PER_BLK (nat_dirty (fs_nat s)) nid = Some l /\
    segs_wf (fs_segs s') q' /\ pages_wf (fs_pages s') (if c =? INVALID32 then fl else c :: fl) /\
    m_storage s' = m_storage s /\
    (blk = NID_IN_USE -> fs_segs s' = fs_segs s) /\
    (blk <> NID_IN_USE -> m_used_blk_nr (fs_segs s') = m_used_blk_nr (fs_segs s) - 1 /\
       ~ blk_live (fs_segs s') blk /\
       forall other, 0 <= other < MAIN_BLK_NR -> other <> blk ->
         blk_live (fs_segs s') other <-> blk_live (fs_segs s) other).
Proof.
  intros Hn Hw Hp Hblk Hbok Hc Hcu. split.
  { intros n Hge. unfold throws, put_node. by rewrite (proj2 (Z.leb_le _ _)). }
  destruct (put_node_spec s q fl nid blk c Hn Hw Hp Hblk Hbok Hc Hcu)
    as (g & q' & pa & l & Hr & Hok & Hm & Hw' & Hp' & _ & Hg1 & Hg2).
  eexists _, q', l. split_and!; [exact Hr|done|done|done|done|done|done|by intros ?%Hg1; naive_solver|].
  intros Hne. destruct (Hg2 Hne) as (H1 & H2 & H3). split_and!; [done|done|by intros; apply H3].
Qed.
End PutNodeThm.

(** A file system in which node 9 is block 3 and is cached in page 0. *)
Definition pages_example : CPageAllocator := (allocate (pages_Init (mkPages (rep 2 page_local) 0 0 2))).2.
Definition nat_example2 : NatT :=
  mkNat (<[9%nat := 0]> (rep NODE_NR INVALID32)) 126
    (<[9%nat := 3]> (<[0%nat := NID_IN_USE]> (rep NODE_NR INVALID16))) (rep NAT_BLK_NR 0) 10.
Definition fs_example : CF2fsSimulator LogStore :=
  mkFs CKPT_BLOCK_zero one_block nat_example2 (mkLog [] 0) (mkInfo 0 0 0 0 0 0 0 0 0 0 0 0 0)
    pages_example [] 0 0 0 0 0 0 0 page_local.
Lemma pages_example_wf : pages_wf pages_example [1].
Proof.
  assert (H : pages_wf (pages_Init (mkPages (rep 2 page_local) 0 0 2)) (0 :: [1])).
  { apply (pages_Init_wf (mkPages (rep 2 page_local) 0 0 2)); by vm_compute. }
  destruct (allocate_spec _ _ _ H) as (pa & Hr & Hw & _). unfold runs in Hr.
  unfold pages_example. by rewrite Hr.
Qed.
Lemma nat_example2_ok : nat_ok nat_example2.
Proof. constructor; [by vm_compute..|]. cbn. clia. Qed.
Lemma put_node_correct_witness :
  throws (put_node 128) fs_example ERR_USER fs_example /\
  exists s' q' l, runs (put_node 9) fs_example tt s' /\
    fs_nat s' = nat_freed nat_example2 9 l /\ nat_ok (fs_nat s') /\
    map_set NAT_ENTRY_PER_BLK (nat_dirty nat_example2) 9 = Some l /\
    segs_wf (fs_segs s') q' /\ pages_wf (fs_pages s') [0; 1] /\ m_storage s' = m_storage fs_example.
Proof.
  destruct (put_node_correct fs_example (range 1 MAIN_SEG_NR) [1] 9 3 0) as [H1 H2].
  - apply nat_example2_ok.
  - apply one_block_wf.
  - apply pages_example_wf.
  - by vm_compute.
  - right. split; [clia|apply one_block_live].
  - by vm_compute.
  - right. exists page_Init. by split; vm_compute.
  - split; [apply H1; clia|]. destruct H2 as (s' & q' & l & A & B & C & D & E & F & G & _).
    exists s', q', l. exact (conj A (conj B (conj C (conj D (conj E (conj F G)))))).
Defined.
