(* ===== verification/GcHeap.v ===== *)
(** GcHeap: the pool from which garbage collection takes its victims, the class
    template [GcPoolHeap] of f2fs_segment.h.  An element is a segment, given by
    its index; [val] is its number of valid blocks. *)
From S2P Require Export Config.

Record GcPoolHeap := mkPool {
  large_len : Z; small_len : Z;
  large_heap : list (option Z); small_heap : list (option Z);
  pop_ptr : Z
}.

Section Pool.
Context (N : Z) (val : Z -> Z).
Abbreviation Pool := GcPoolHeap.

Definition pool_new : Pool := mkPool 0 0 (replicate (Z.to_nat N) None) (replicate (Z.to_nat N) None) 0.

Definition large_at (i : Z) : M Pool Z :=
  p <- get ;; e <- opt (aget (large_heap p) i) ;; opt e.
Definition large_set (i : Z) (e : Z) : M Pool unit :=
  p <- get ;; l <- opt (aset (large_heap p) i (Some e)) ;;
  put (mkPool (large_len p) (small_len p) l (small_heap p) (pop_ptr p)).
Definition set_large_len (n : Z) : M Pool unit :=
  modify (fun p => mkPool n (small_len p) (large_heap p) (small_heap p) (pop_ptr p)).

(** The walk towards the root; the index halves. *)
Definition large_add (key : Z) : M Pool unit :=
  p <- get ;;
  cur <- mwhile (Z.to_nat (N + 1)) (large_len p) (fun cur =>
    if negb (0 <? cur) then ret (Break cur) else
    let pp := Z.shiftr (cur - 1) 1 in
    e <- large_at pp ;;
    if val key <=? val e then ret (Break cur)
    else large_set cur e ;;; ret (Next pp)) ;;
  large_set cur key ;;;
  set_large_len (large_len p + 1).

(** The walk towards the leaves; the index doubles. *)
Definition large_heapify (key : Z) : M Pool unit :=
  p <- get ;;
  let len := large_len p in
  cur <- mwhile (Z.to_nat (N + 1)) 0 (fun cur =>
    let left := cur * 2 + 1 in
    let right := left + 1 in
    lv <- (if left <? len
           then e <- large_at left ;;
                ret (if val key <? val e then (left, val e) else (cur, val key))
           else ret (cur, val key)) ;;
    largest <- (if right <? len
                then e <- large_at right ;; ret (if lv.2 <? val e then right else lv.1)
                else ret lv.1) ;;
    if largest =? cur then ret (Break cur) else
    e <- large_at largest ;; large_set cur e ;;; ret (Next largest)) ;;
  large_set cur key.

Definition Push (seg : Z) : M Pool unit :=
  p <- get ;;
  if large_len p <? N - 1 then large_add seg
  else e <- large_at 0 ;; when (val seg <? val e) (large_heapify seg).

(** [small_heap[large_len] = large_heap[0]] then shrink. *)
Definition Sort : M Pool unit :=
  p <- get ;;
  modify (fun p => mkPool (large_len p) (large_len p) (large_heap p) (small_heap p) (pop_ptr p)) ;;;
  mwhile (Z.to_nat (N + 1)) tt (fun _ =>
    p <- get ;;
    let len := large_len p - 1 in
    set_large_len len ;;;
    e <- opt (aget (large_heap p) 0) ;;
    sh <- opt (aset (small_heap p) len e) ;;
    modify (fun p => mkPool (large_len p) (small_len p) (large_heap p) sh (pop_ptr p)) ;;;
    if len <=? 0 then ret (Break tt)
    else k <- large_at len ;; large_heapify k ;;; ret (Next tt)) ;;;
  modify (fun p => mkPool (large_len p) (small_len p) (large_heap p) (small_heap p) 0).

Definition Pop : M Pool (option Z) :=
  p <- get ;;
  if small_len p <=? pop_ptr p then ret None
  else
    e <- opt (aget (small_heap p) (pop_ptr p)) ;;
    put (mkPool (large_len p) (small_len p) (large_heap p) (small_heap p) (pop_ptr p + 1)) ;;;
    ret e.
End Pool.
