(* ===== verification/GcHeapInv.v ===== *)
(** GcHeapInv: the pool of garbage-collection victims is correct: it keeps the
    segments with the fewest valid blocks and hands them out in ascending order
    of valid blocks. *)
From S2P Require Export GcHeap.
From Stdlib Require Import Sorting.Sorted.
Open Scope Z_scope.

(** ** Permutations by assignments to an array *)

(** Replacing the first element of [l] by the last one and dropping the last. *)
Lemma first_by_last {A} (l : list A) n x y : length l = S n -> (0 < n)%nat ->
  l !! 0%nat = Some x -> l !! n = Some y -> x :: <[0%nat:=y]> (take n l) ≡ₚ l.
Proof.
  intros Hl Hn Hx Hy. rewrite (insert_exchange (take n l) 0 x y).
  2:{ by rewrite lookup_take_lt. }
  rewrite Permutation_cons_append, <- (take_S_r l n y Hy). by rewrite take_ge by lia.
Qed.

(** ** The heap order *)
Section Heap.
Context (N : Z) (val : Z -> Z).
Abbreviation Pool := GcPoolHeap.
Abbreviation len l := (Z.of_nat (length l)).

(** The number of valid blocks of the segment in cell [i]. *)
Definition cell (v : list Z) (i : Z) : Z := val (default 0 (aget v i)).
Definition parent (i : Z) : Z := Z.shiftr (i - 1) 1.

Lemma parent_spec i : parent i = (i - 1) / 2.
Proof. unfold parent. by rewrite Z.shiftr_div_pow2 by lia. Qed.

Lemma parent_lt i : 0 < i -> 0 <= parent i < i.
Proof. rewrite parent_spec. intros. split; [apply Z.div_pos; lia|apply Z.div_lt_upper_bound; lia]. Qed.

Lemma parent_child i c : 0 <= c -> 0 < i -> parent i = c <-> i = c * 2 + 1 \/ i = c * 2 + 1 + 1.
Proof. rewrite parent_spec. intros. pose proof (Z.div_mod (i - 1) 2). pose proof (Z.mod_pos_bound (i - 1) 2). lia. Qed.

Definition is_heap (v : list Z) : Prop :=
  forall i, 0 < i < len v -> cell v i <= cell v (parent i).

(** The order holds but for [c] against its parent, or but for the children of
    [c]; the children of [c] are below its parent. *)
Definition heap_but_up (c : Z) (v : list Z) : Prop :=
  (forall i, 0 < i < len v -> i <> c -> cell v i <= cell v (parent i)) /\
  (forall i, 0 < i < len v -> parent i = c -> 0 < c -> cell v i <= cell v (parent c)).
Definition heap_but_down (c : Z) (v : list Z) : Prop :=
  (forall i, 0 < i < len v -> parent i <> c -> cell v i <= cell v (parent i)) /\
  (forall i, 0 < i < len v -> parent i = c -> 0 < c -> cell v i <= cell v (parent c)).

(** [v] is the array with [key] in the free cell [c]. *)
Definition with_hole (c key : Z) (v : list Z) (p : Pool) : Prop :=
  aget v c = Some key /\
  forall i, 0 <= i < len v -> i <> c -> exists e, aget v i = Some e /\ aget (large_heap p) i = Some (Some e).
Definition holds (v : list Z) (p : Pool) : Prop :=
  forall i, 0 <= i < len v -> exists e, aget v i = Some e /\ aget (large_heap p) i = Some (Some e).

Lemma cell_at v i e : aget v i = Some e -> cell v i = val e.
Proof. unfold cell. by intros ->. Qed.

Lemma cell_insert v i e j : 0 <= i < len v -> 0 <= j ->
  cell (<[Z.to_nat i:=e]> v) j = if i =? j then val e else cell v j.
Proof. intros. unfold cell. rewrite aget_insert by done. by destruct (i =? j). Qed.

Lemma is_heap_top v i : is_heap v -> 0 <= i < len v -> cell v i <= cell v 0.
Proof.
  intros H. revert i. refine (well_founded_ind (Z.lt_wf 0) _ _). intros i IH Hi.
  destruct (decide (i = 0)) as [->|Hne]; [done|].
  pose proof (parent_lt i ltac:(lia)). specialize (IH (parent i) ltac:(lia) ltac:(lia)).
  specialize (H i ltac:(lia)). lia.
Qed.

Lemma is_heap_max v e x : is_heap v -> aget v 0 = Some e -> x ∈ v -> val x <= val e.
Proof.
  intros H He (k & Hk)%list_elem_of_lookup.
  assert (aget v (Z.of_nat k) = Some x) as Hx by (apply aget_Some; rewrite Nat2Z.id; split; [lia|done]).
  rewrite <- (cell_at _ _ _ Hx), <- (cell_at _ _ _ He). apply is_heap_top; [done|]. by eapply aget_bounds.
Qed.

(** Swapping the content of cell [c] with that of cell [d]. *)
Definition swap (c d : Z) (key e : Z) (v : list Z) : list Z :=
  <[Z.to_nat c:=e]> (<[Z.to_nat d:=key]> v).

Lemma swap_perm c d key e v : c <> d -> aget v c = Some key -> aget v d = Some e -> swap c d key e v ≡ₚ v.
Proof. intros Hne [? Hc]%aget_Some [? Hd]%aget_Some. apply insert_swap; [lia|done|done]. Qed.

Lemma swap_length c d key e v : length (swap c d key e v) = length v.
Proof. unfold swap. by rewrite !length_insert. Qed.

Lemma swap_cell c d key e v j : aget v c = Some key -> aget v d = Some e -> 0 <= j ->
  cell (swap c d key e v) j = if c =? j then cell v d else if d =? j then cell v c else cell v j.
Proof.
  intros Hc Hd Hj. unfold swap. rewrite (cell_at _ _ _ Hc), (cell_at _ _ _ Hd).
  apply aget_bounds in Hc, Hd. rewrite cell_insert by (rewrite ?length_insert; lia).
  by rewrite cell_insert by lia.
Qed.

(** One step of the walk to the root, or to the leaves. *)
Lemma up_step c key e v : 0 < c < len v -> aget v c = Some key -> aget v (parent c) = Some e ->
  heap_but_up c v -> cell v (parent c) < cell v c ->
  heap_but_up (parent c) (swap c (parent c) key e v).
Proof.
  intros Hc Hk He [H1 H2] Hlt. pose proof (parent_lt c ltac:(lia)) as Hp.
  split; rewrite swap_length.
  - intros i Hi Hne. pose proof (parent_lt i ltac:(lia)).
    rewrite !(swap_cell _ _ _ _ _ _ Hk He) by lia.
    destruct (Z.eqb_spec c i), (Z.eqb_spec (parent c) i), (Z.eqb_spec c (parent i)),
      (Z.eqb_spec (parent c) (parent i)); try (subst; lia); try (specialize (H2 i); lia); specialize (H1 i); try lia.
    replace (parent i) with (parent c) in H1 by lia. lia.
  - intros i Hi Hpi Hp0. pose proof (parent_lt (parent c) Hp0).
    rewrite !(swap_cell _ _ _ _ _ _ Hk He) by lia.
    pose proof (H1 (parent c) ltac:(lia) ltac:(lia)).
    destruct (Z.eqb_spec c i), (Z.eqb_spec (parent c) i), (Z.eqb_spec c (parent (parent c))),
      (Z.eqb_spec (parent c) (parent (parent c))); try (subst; lia). specialize (H1 i). rewrite Hpi in H1. lia.
Qed.

Lemma up_done c v : 0 <= c -> heap_but_up c v -> (0 < c < len v -> cell v c <= cell v (parent c)) -> is_heap v.
Proof. intros Hc [H1 _] H i Hi. destruct (decide (i = c)) as [->|]; [by apply H|by apply H1]. Qed.

Lemma down_step c d key e v : 0 <= c -> 0 < d < len v -> parent d = c ->
  aget v c = Some key -> aget v d = Some e ->
  heap_but_down c v -> cell v c < cell v d ->
  (forall i, 0 < i < len v -> parent i = c -> cell v i <= cell v d) ->
  heap_but_down d (swap c d key e v).
Proof.
  intros Hc Hd Hpd Hk He [H1 H2] Hlt Hmax. pose proof (parent_lt d ltac:(lia)) as Hp.
  split; rewrite swap_length.
  - intros i Hi Hne. pose proof (parent_lt i ltac:(lia)).
    rewrite !(swap_cell _ _ _ _ _ _ Hk He) by lia.
    destruct (Z.eqb_spec c i), (Z.eqb_spec d i), (Z.eqb_spec c (parent i)),
      (Z.eqb_spec d (parent i)); try (subst; lia); try (specialize (Hmax i); lia);
      try (specialize (H1 i); lia). subst i. specialize (H2 d). lia.
  - intros i Hi Hpi _. pose proof (parent_lt i ltac:(lia)).
    rewrite !(swap_cell _ _ _ _ _ _ Hk He) by lia. rewrite Hpd, Z.eqb_refl.
    destruct (Z.eqb_spec c i), (Z.eqb_spec d i); try lia.
    specialize (H1 i). rewrite Hpi in H1. lia.
Qed.

Lemma down_done c v : heap_but_down c v -> (forall i, 0 < i < len v -> parent i = c -> cell v i <= cell v c) -> is_heap v.
Proof.
  intros [H1 _] H i Hi. destruct (decide (parent i = c)) as [E|]; [rewrite E; by apply H|by apply H1].
Qed.
End Heap.

(** ** The operations *)
Section Ops.
Context (N : Z) (val : Z -> Z).
Hypothesis N_pos : 2 <= N.
Abbreviation Pool := GcPoolHeap.
Abbreviation len l := (Z.of_nat (length l)).
Abbreviation cell := (cell val).
Abbreviation is_heap := (is_heap val).
Implicit Types p q : Pool.

Definition sized p : Prop := len (large_heap p) = N /\ len (small_heap p) = N.

(** Only the large array has changed. *)
Definition same_but_large p q : Prop :=
  large_len q = large_len p /\ small_len q = small_len p /\ small_heap q = small_heap p /\
  pop_ptr q = pop_ptr p /\ length (large_heap q) = length (large_heap p).

Lemma same_but_large_refl p : same_but_large p p.
Proof. done. Qed.
Lemma same_but_large_trans p q r : same_but_large p q -> same_but_large q r -> same_but_large p r.
Proof. unfold same_but_large. intuition congruence. Qed.

Lemma wp_large_at i e Q E p : aget (large_heap p) i = Some (Some e) -> Q e p -> wp (large_at i) Q E p.
Proof. intros H HQ. unfold large_at. wp_steps. eapply wp_bind_opt; [exact H|]. by apply (wp_opt _ e). Qed.

Lemma wp_large_set i e (Q : unit -> Pool -> Prop) E p : 0 <= i < len (large_heap p) ->
  Q tt (mkPool (large_len p) (small_len p) (<[Z.to_nat i:=Some e]> (large_heap p)) (small_heap p) (pop_ptr p)) ->
  wp (large_set i e) Q E p.
Proof. intros H HQ. unfold large_set. wp_steps. eapply wp_bind_opt; [by apply aset_is_Some|]. done. Qed.

(** Writing the key into the free cell. *)
Lemma fill_hole c key v p : len v <= len (large_heap p) -> with_hole c key v p ->
  wp (large_set c key) (fun _ q => holds v q /\ same_but_large p q) (fun _ _ => False) p.
Proof.
  intros Hl [Hc Hh]. pose proof (aget_bounds _ _ _ Hc). apply wp_large_set; [lia|].
  split; [|unfold same_but_large; cbn; by rewrite length_insert].
  intros i Hi. cbn. destruct (decide (i = c)) as [->|Hne].
  - exists key. split; [done|]. by apply aget_insert_eq; lia.
  - destruct (Hh i Hi Hne) as (e & ? & ?). exists e. split; [done|]. by rewrite aget_insert_ne by lia.
Qed.

(** Moving the content [e] of cell [d] into the free cell [c]. *)
Lemma move_hole c d key e v p : len v <= len (large_heap p) -> c <> d -> 0 <= d < len v ->
  with_hole c key v p -> aget v d = Some e ->
  wp (large_set c e) (fun _ q => with_hole d key (swap c d key e v) q /\ same_but_large p q) (fun _ _ => False) p.
Proof.
  intros Hl Hne Hd [Hc Hh] He. pose proof (aget_bounds _ _ _ Hc). apply wp_large_set; [lia|].
  split; [|unfold same_but_large; cbn; by rewrite length_insert].
  split; unfold swap; cbn.
  - rewrite aget_insert_ne by lia. by apply aget_insert_eq.
  - intros i Hi Hid. rewrite !length_insert in Hi.
    rewrite !aget_insert by (rewrite ?length_insert; lia).
    destruct (Z.eqb_spec c i) as [<-|Hci]; [by exists e|].
    rewrite (proj2 (Z.eqb_neq d i)) by done. by apply Hh.
Qed.

Lemma hole_cell c key v p i : with_hole c key v p -> 0 <= i < len v -> i <> c ->
  exists e, aget v i = Some e /\ aget (large_heap p) i = Some (Some e) /\ val e = cell v i.
Proof.
  intros [_ H] Hi Hne. destruct (H i Hi Hne) as (e & He & ?). exists e. split_and!; [done|done|].
  by rewrite (cell_at _ _ _ _ He).
Qed.

Lemma wp_hole_at c key v p i Q E : with_hole c key v p -> 0 <= i < len v -> i <> c ->
  (forall e, aget v i = Some e -> val e = cell v i -> Q e p) -> wp (large_at i) Q E p.
Proof. intros H Hi Hne HQ. destruct (hole_cell _ _ _ _ _ H Hi Hne) as (e & ? & ? & ?). eapply wp_large_at; eauto. Qed.

(** [large_add] puts the key into the heap. *)
Lemma large_add_spec key v p : sized p -> large_len p = len v -> len v < N ->
  is_heap v -> holds v p ->
  wp (large_add N val key) (fun _ q => exists v', v' ≡ₚ key :: v /\ is_heap v' /\ holds v' q /\
      large_len q = len v' /\ same_but_large (mkPool (large_len q) (small_len p) (large_heap p) (small_heap p) (pop_ptr p)) q)
    (fun _ _ => False) p.
Proof using N_pos.
  intros [Hs1 Hs2] Hlen Hlt Hheap Hh. unfold large_add. wp_steps.
  apply (wp_then _ _ (fun c q => exists v', v' ≡ₚ v ++ [key] /\ same_but_large p q /\ is_heap v' /\ with_hole c key v' q)).
  - apply (wp_mwhile _ _ _
      (fun c q => exists v', v' ≡ₚ v ++ [key] /\ same_but_large p q /\ heap_but_up val c v' /\ with_hole c key v' q)
      (fun c _ => c)).
    + exists (v ++ [key]). rewrite Hlen. split_and!; [done|done| |].
      * split; rewrite length_app; cbn [length]; intros i Hi Hc; [|intros; pose proof (parent_lt i ltac:(lia)); lia].
        pose proof (parent_lt i ltac:(lia)).
        assert (forall j, 0 <= j < len v -> GcHeapInv.cell val (v ++ [key]) j = cell v j) as Hcell.
        { intros j Hj. unfold GcHeapInv.cell, aget. rewrite (proj2 (Z.leb_le 0 j)) by lia. by rewrite lookup_app_l by lia. }
        rewrite !Hcell by lia. apply Hheap. lia.
      * split.
        { apply aget_Some. split; [lia|]. rewrite lookup_app_r by lia. by replace (_ - _)%nat with 0%nat by lia. }
        rewrite length_app; cbn [length]. intros i Hi Hne. destruct (Hh i ltac:(lia)) as (e & [? He]%aget_Some & ?).
        exists e. split; [|done]. apply aget_Some. split; [lia|]. by rewrite lookup_app_l by lia.
    + intros c q (v' & _ & _ & _ & [Hc _]). apply aget_bounds in Hc. lia.
    + lia.
    + intros c q (v' & Hp & Hsame & Hup & Hhole). pose proof Hhole as [Hc _].
      pose proof (aget_bounds _ _ _ Hc) as Hcb.
      assert (len v' = len v + 1) as Hl'. { rewrite Hp, length_app. cbn. lia. }
      destruct (Z.ltb_spec 0 c) as [Hc0|Hc0]; cbn [negb].
      2:{ wp_steps. exists v'. split_and!; try done. eapply up_done; [|done|]; lia. }
      pose proof (parent_lt c Hc0) as Hpar.
      apply wp_bind. fold (parent c). eapply wp_hole_at; [exact Hhole|lia|lia|]. intros e He Hve.
      apply wp_if; intros Hb.
      * wp_steps. exists v'. split_and!; try done. eapply (up_done _ c); [lia|done|]. intros _.
        rewrite (cell_at _ _ _ _ Hc), <- Hve. lia.
      * eapply wp_then; [eapply (move_hole c (parent c) key e v'); [|lia|lia|exact Hhole|done]|].
        { destruct Hsame as (_&_&_&_&->). lia. }
        intros _ u [Hu Hsu]. wp_steps. split; [|lia].
        exists (swap c (parent c) key e v'). split_and!.
        { rewrite swap_perm; [done|lia|done|done]. }
        { by eapply same_but_large_trans. }
        { apply up_step; try done; [lia|]. rewrite (cell_at _ _ _ _ Hc), <- Hve. lia. }
        { done. }
  - intros c q (v' & Hp & Hsame & Hv' & Hhole).
    assert (len v' = len v + 1) as Hl'. { rewrite Hp, length_app. cbn. lia. }
    eapply wp_then; [eapply fill_hole; [|exact Hhole]|].
    { destruct Hsame as (_&_&_&_&->). lia. }
    intros _ u [Hu Hsu]. unfold set_large_len. wp_steps. exists v'. split_and!.
    + rewrite Hp. by rewrite Permutation_app_comm.
    + done.
    + done.
    + cbn. lia.
    + destruct (same_but_large_trans _ _ _ Hsame Hsu) as (_ & ? & ? & ? & ?). by split_and!.
Qed.

(** The choice of the larger child that is above the key, [c] when none is. *)
Definition chosen c (v : list Z) (d : Z) : Prop :=
  (d = c \/ 0 < d < len v /\ parent d = c /\ cell v c < cell v d) /\
  forall i, 0 < i < len v -> parent i = c -> cell v i <= cell v d.

(** [large_heapify] puts the key into the heap with a free root. *)
Lemma large_heapify_spec key v p : sized p -> large_len p = len v -> len v <= N ->
  (forall i, 0 < i < len v -> 0 < parent i -> cell v i <= cell v (parent i)) -> with_hole 0 key v p ->
  wp (large_heapify N val key) (fun _ q => exists v', v' ≡ₚ v /\ is_heap v' /\ holds v' q /\ same_but_large p q)
    (fun _ _ => False) p.
Proof using N_pos.
  intros [Hs1 Hs2] Hlen Hle Hheap Hhole0. unfold large_heapify. wp_steps.
  apply (wp_then _ _ (fun c q => exists v', v' ≡ₚ v /\ same_but_large p q /\ is_heap v' /\ with_hole c key v' q)).
  - apply (wp_mwhile _ _ _
      (fun c q => exists v', v' ≡ₚ v /\ same_but_large p q /\ heap_but_down val c v' /\ with_hole c key v' q)
      (fun c _ => len v - c)).
    + exists v. split_and!; [done|done| |done]. split; intros i Hi Hp; [|lia].
      pose proof (parent_lt i ltac:(lia)). apply Hheap; lia.
    + intros c q (v' & Hp & _ & _ & [Hc _]). apply aget_bounds in Hc. rewrite Hp in Hc. lia.
    + lia.
    + intros c q (v' & Hp & Hsame & Hdown & Hhole). pose proof Hhole as [Hc _].
      pose proof (aget_bounds _ _ _ Hc) as Hcb. pose proof (cell_at val _ _ _ Hc) as Hck.
      assert (len v' = len v) as Hl' by (by rewrite Hp). rewrite <- Hl', Hlen, <- Hl'.
      set (lt := c * 2 + 1). assert (forall i, 0 < i -> parent i = c <-> i = lt \/ i = lt + 1) as Hch
        by (intros; apply parent_child; lia).
      apply (wp_then _ _ (fun lv u => u = q /\ (lv.1 = c \/ lv.1 = lt /\ lt < len v' /\ cell v' c < cell v' lt) /\
               lv.2 = cell v' lv.1 /\ (lt < len v' -> cell v' lt <= cell v' lv.1))).
      { apply wp_if; intros Hb; [|apply wp_ret; cbn; rewrite Hck; split_and!; [done|by left|done|lia]].
        apply wp_bind. eapply wp_hole_at; [exact Hhole|lia|lia|]. intros e He Hve. wp_steps.
        rewrite Hve, <- Hck. destruct (Z.ltb_spec (cell v' c) (cell v' lt)); cbn; split_and!; try done; lia. }
      intros [d dv] u (-> & Hd1 & Hd2 & Hd3). cbn [fst snd] in *.
      apply (wp_then _ _ (fun d u => u = q /\ chosen c v' d)).
      { apply wp_if; intros Hb.
        - apply wp_bind. eapply wp_hole_at; [exact Hhole|lia|lia|]. intros e He Hve. wp_steps.
          split; [done|]. rewrite Hve, Hd2. destruct (Z.ltb_spec (cell v' d) (cell v' (lt + 1))); split.
          + right. split_and!; [lia|lia|apply Hch; lia|]. destruct Hd1 as [->|(-> & _ & ?)]; lia.
          + intros i Hi [->| ->]%Hch; lia.
          + destruct Hd1 as [->|(-> & ? & ?)]; [by left|right]. split_and!; [lia|lia|apply Hch; lia|lia].
          + intros i Hi [->| ->]%Hch; lia.
        - wp_steps. split; [done|]. split.
          + destruct Hd1 as [->|(-> & ? & ?)]; [by left|right]. split_and!; [lia|lia|apply Hch; lia|lia].
          + intros i Hi [->| ->]%Hch; lia. }
      intros d' u (-> & Hd & Hmax). destruct (Z.eqb_spec d' c) as [->|Hne].
      * wp_steps. exists v'. split_and!; try done. by eapply down_done.
      * destruct Hd as [->|(Hdb & Hdp & Hlt)]; [done|]. pose proof (parent_lt d' ltac:(lia)).
        apply wp_bind. eapply wp_hole_at; [exact Hhole|lia|lia|]. intros e He Hve.
        eapply wp_then; [eapply (move_hole c d' key e v'); [|lia|lia|exact Hhole|done]|].
        { destruct Hsame as (_&_&_&_&->). lia. }
        intros _ u [Hu Hsu]. wp_steps. split; [|lia].
        exists (swap c d' key e v'). split_and!.
        { rewrite swap_perm; [done|lia|done|done]. }
        { by eapply same_but_large_trans. }
        { apply down_step; try done; lia. }
        { done. }
  - intros c q (v' & Hp & Hsame & Hv' & Hhole).
    eapply wp_mono; [eapply fill_hole; [|exact Hhole]| |done].
    { destruct Hsame as (_&_&_&_&->). rewrite Hp. lia. }
    intros _ u [Hu Hsu]. exists v'. split_and!; try done. by eapply same_but_large_trans.
Qed.

(** ** Filling the pool *)

(** The heap [v] holds the smallest of the segments pushed, [rest] the others. *)
Definition filled (pushed : list Z) p : Prop := exists v rest,
  pushed ≡ₚ v ++ rest /\ is_heap v /\ holds v p /\ large_len p = len v /\ sized p /\
  len v = Z.min (len pushed) (N - 1) /\ (forall x y, x ∈ v -> y ∈ rest -> val x <= val y).

Lemma top_of (v : list Z) : 0 < len v -> exists e, aget v 0 = Some e.
Proof. intros. apply aget_is_Some. lia. Qed.

(** Replacing the root. *)
Lemma replace_root v e k n : is_heap v -> aget v 0 = Some e -> 0 < n <= len v ->
  forall i, 0 < i < n -> 0 < parent i ->
  cell (<[0%nat:=k]> (take (Z.to_nat n) v)) i <= cell (<[0%nat:=k]> (take (Z.to_nat n) v)) (parent i).
Proof.
  intros Hv He Hn i Hi Hp. pose proof (parent_lt i ltac:(lia)).
  assert (forall j, 0 < j < n -> cell (<[0%nat:=k]> (take (Z.to_nat n) v)) j = cell v j) as Hj.
  { intros j Hj. change 0%nat with (Z.to_nat 0). rewrite cell_insert by (rewrite ?length_take; lia).
    rewrite (proj2 (Z.eqb_neq 0 j)) by lia. unfold GcHeapInv.cell, aget.
    rewrite (proj2 (Z.leb_le 0 j)) by lia. by rewrite lookup_take_lt by lia. }
  rewrite !Hj by lia. apply Hv. lia.
Qed.

Lemma holds_hole v p k n : holds v p -> 0 < n <= len v ->
  with_hole 0 k (<[0%nat:=k]> (take (Z.to_nat n) v)) p.
Proof.
  intros Hh Hn. split.
  - apply (aget_insert_eq _ 0). rewrite length_take. lia.
  - rewrite length_insert, length_take. intros i Hi Hne. destruct (Hh i ltac:(lia)) as (e & [? He]%aget_Some & ?).
    exists e. split; [|done]. rewrite (aget_insert_ne _ 0) by lia. apply aget_Some. split; [lia|].
    by rewrite lookup_take_lt by lia.
Qed.

Lemma Push_spec seg pushed p : filled pushed p ->
  wp (Push N val seg) (fun _ q => filled (pushed ++ [seg]) q) (fun _ _ => False) p.
Proof using N_pos.
  intros (v & rest & Hp & Hv & Hh & Hl & Hs & Hn & Hle). pose proof (Permutation_length Hp) as Hpl.
  rewrite length_app in Hpl. unfold Push. wp_steps. rewrite Hl. apply wp_if; intros Hb.
  - eapply wp_mono; [apply (large_add_spec seg v); [done|done|lia|done|done]| |done].
    intros _ q (v' & Hp' & Hv' & Hh' & Hl' & (_&?&?&?&?)). exists v', rest.
    assert (rest = []) as -> by (destruct rest; [done|cbn in *; lia]).
    pose proof (Permutation_length Hp') as Hlv. rewrite length_app. cbn in *. destruct Hs. split_and!; try done.
    + rewrite app_nil_r, Hp', Permutation_app_comm. cbn. by rewrite Hp, app_nil_r.
    + split; congruence.
    + lia.
    + intros x y _ []%elem_of_nil.
  - destruct (top_of v ltac:(lia)) as [e He]. destruct (Hh 0 ltac:(lia)) as (e' & He' & Hat). simplify_eq.
    apply wp_bind. eapply wp_large_at; [exact Hat|].
    assert (forall x, x ∈ v -> val x <= val e) as Hmax by (intros; by eapply is_heap_max).
    assert (e ∈ v) as Hin by (apply aget_Some in He as [_ He]; by eapply list_elem_of_lookup_2).
    apply wp_when; intros Hb2.
    + pose proof (holds_hole v p seg (len v) Hh ltac:(lia)) as Hhole.
      pose proof (replace_root v e seg (len v) Hv He ltac:(lia)) as Hroot.
      rewrite Nat2Z.id, take_ge in Hhole, Hroot by lia.
      apply aget_Some in He as [_ He].
      eapply wp_mono; [apply (large_heapify_spec seg (<[0%nat:=seg]> v)); rewrite ?length_insert; done || lia| |done].
      intros _ q (v' & Hp' & Hv' & Hh' & (Hl' & ? & ? & ? & ?)). exists v', (e :: rest).
      assert (e :: v' ≡ₚ seg :: v) as Hex by (rewrite Hp'; by apply insert_exchange).
      assert (forall x, x ∈ v' -> x = seg \/ x ∈ v) as Hsub.
      { intros x Hx. apply (list_elem_of_further _ e) in Hx. rewrite Hex in Hx. by apply elem_of_cons in Hx. }
      assert (length v' = length v) as Hlv by (apply Permutation_length in Hex; cbn in Hex; lia).
      destruct Hs. rewrite length_app, Hlv. cbn. split_and!; try done.
      * transitivity (e :: v' ++ rest); [|apply Permutation_middle]. rewrite (app_comm_cons v' rest e), Hex. cbn. by rewrite <- Hp, Permutation_app_comm.
      * congruence.
      * split; congruence.
      * lia.
      * intros x y Hx [->|Hy]%elem_of_cons; apply Hsub in Hx as [->|Hx]; [lia|by apply Hmax| |by apply Hle].
        pose proof (Hle e y Hin Hy). lia.
    + exists v, (seg :: rest). rewrite length_app. cbn. split_and!; try done.
      * rewrite Permutation_app_comm. cbn. rewrite Hp. by rewrite Permutation_middle.
      * lia.
      * intros x y Hx [->|Hy]%elem_of_cons; [|by apply Hle]. pose proof (Hmax x Hx). lia.
Qed.

(** ** Emptying it in ascending order *)

Definition ascending : list Z -> Prop := StronglySorted (fun x y => val x <= val y).

(** The cells of [small_heap] from [k] on hold [s]. *)
Definition sorted_from k (s : list Z) p : Prop :=
  forall j e, s !! j = Some e -> aget (small_heap p) (k + Z.of_nat j) = Some (Some e).

(** After [n - k] turns of the loop of [Sort]. *)
Definition sorting (v0 : list Z) n p (v s : list Z) : Prop :=
  v ++ s ≡ₚ v0 /\ is_heap v /\ holds v p /\ large_len p = len v /\ sized p /\ 1 <= len v /\
  small_len p = n /\ len v + len s = n /\ n < N /\ sorted_from (len v) s p /\ ascending s /\
  (forall x y, x ∈ v -> y ∈ s -> val x <= val y).

(** The pool hands out [sel]. *)
Definition emptying (sel : list Z) p : Prop :=
  sized p /\ large_len p = 0 /\ small_len p = len sel /\ pop_ptr p = 0 /\ sorted_from 0 sel p /\ ascending sel.

Lemma sorted_from_cons k e s p h' : len (small_heap p) = N -> sorted_from (k + 1) s p -> 0 <= k < N ->
  h' = <[Z.to_nat k:=Some e]> (small_heap p) ->
  forall j e', (e :: s) !! j = Some e' -> aget h' (k + Z.of_nat j) = Some (Some e').
Proof.
  intros Hl Hs Hk -> [|j] e' He; cbn in He.
  - injection He as ->. rewrite Z.add_0_r. apply aget_insert_eq. lia.
  - rewrite aget_insert_ne by lia. apply Hs in He. rewrite <- He. f_equal. lia.
Qed.

Lemma Sort_turn v0 n p v s e : sorting v0 n p v s -> aget v 0 = Some e ->
  v ++ s ≡ₚ v0 -> ascending (e :: s) /\ (forall x y, x ∈ v -> y ∈ e :: s -> val x <= val y).
Proof using N_pos.
  intros (Hp & Hv & Hh & Hl & Hsz & Hlv & Hsl & Hn & HnN & Hsf & Has & Hle) He _.
  assert (forall x, x ∈ v -> val x <= val e) as Hmax by (intros; by eapply is_heap_max).
  assert (e ∈ v) as Hin by (apply aget_Some in He as [_ He]; by eapply list_elem_of_lookup_2).
  split.
  - constructor; [done|]. apply List.Forall_forall. intros y Hy%list_elem_of_In. by apply Hle.
  - intros x y Hx [->|Hy]%elem_of_cons; [by apply Hmax|by apply Hle].
Qed.

Lemma Sort_spec pushed p : filled pushed p -> pushed <> [] ->
  wp (Sort N val) (fun _ q => exists sel rest, pushed ≡ₚ sel ++ rest /\ emptying sel q /\
      len sel = Z.min (len pushed) (N - 1) /\ (forall x y, x ∈ sel -> y ∈ rest -> val x <= val y))
    (fun _ _ => False) p.
Proof using N_pos.
  intros (v0 & rest & Hp0 & Hv0 & Hh0 & Hl0 & Hs0 & Hn0 & Hle0) Hne.
  assert (1 <= len pushed) by (destruct pushed; [done|cbn; lia]).
  unfold Sort. wp_steps.
  apply (wp_then _ _ (fun _ q => exists sel, sel ≡ₚ v0 /\ emptying sel
    (mkPool (large_len q) (small_len q) (large_heap q) (small_heap q) 0))).
  - eapply (wp_mwhile _ _ _ (fun _ q => exists v s, sorting v0 (len v0) q v s) (fun _ q => large_len q)).
    + exists v0, []. unfold sorting. cbn. rewrite app_nil_r. split_and!; try done; try lia.
      * constructor.
      * intros x y _ []%elem_of_nil.
    + intros _ q (v & s & _ & _ & _ & -> & _). lia.
    + cbn. lia.
    + intros _ q (v & s & Hst). destruct (top_of v) as [e He]; [unfold sorting in Hst; lia|].
      destruct (Sort_turn _ _ _ _ _ _ Hst He (proj1 Hst)) as [Has' Hle'].
      destruct Hst as (Hp & Hv & Hh & Hl & [Hsz1 Hsz2] & Hlv & Hsl & Hn & HnN & Hsf & Has & Hle).
      destruct (Hh 0 ltac:(lia)) as (e' & He' & Hat). simplify_eq.
      unfold set_large_len. wp_steps. cbn [large_heap small_heap].
      eapply wp_bind_opt; [exact Hat|]. eapply wp_bind_opt; [apply aset_is_Some; cbn; lia|]. wp_steps. cbn [large_len].
      pose proof (sorted_from_cons (large_len q - 1) e s q (<[Z.to_nat (large_len q - 1):=Some e]> (small_heap q)) Hsz2) as Hc.
      specialize (Hc ltac:(by replace (large_len q - 1 + 1) with (len v) by lia) ltac:(lia) eq_refl).
      destruct (Z.leb_spec (large_len q - 1) 0).
      * wp_steps. exists (e :: s). destruct v as [|x [|y v]]; cbn in *; [lia| |lia].
        change (Some x = Some e) in He. injection He as ->. unfold emptying. cbn. split_and!; try done; try lia.
        -- split; cbn; rewrite ?length_insert; lia.
        -- replace (large_len q - 1) with 0 in Hc |- * by lia. exact Hc.
      * destruct (aget_is_Some v (large_len q - 1) ltac:(lia)) as [k Hk].
        destruct (Hh (large_len q - 1) ltac:(lia)) as (k' & Hk' & Hat'). simplify_eq.
        apply wp_bind. eapply wp_large_at; [exact Hat'|]. 
        pose proof (replace_root v e k (len v - 1) Hv He ltac:(lia)) as Hroot.
        pose proof (holds_hole v q k (len v - 1) Hh ltac:(lia)) as Hhole.
        eapply wp_then; [apply (large_heapify_spec k (<[0%nat:=k]> (take (Z.to_nat (len v - 1)) v)))|].
        { split; cbn; rewrite ?length_insert; lia. }
        { cbn. rewrite length_insert, length_take. lia. }
        { rewrite length_insert, length_take. lia. }
        { rewrite length_insert, length_take. intros i Hi. apply Hroot. lia. }
        { exact Hhole. }
        intros _ u (v' & Hp' & Hv' & Hh' & (Hl' & Hsl' & Hsh' & Hpp' & Hlh')). cbn in *. wp_steps.
        assert (e :: v' ≡ₚ v) as Hex.
        { rewrite Hp'. change (v !! 0%nat = Some e) in He. apply aget_Some in Hk as [_ Hk].
          apply first_by_last; [lia|lia|done|]. rewrite <- Hk. f_equal. lia. }
        pose proof (Permutation_length Hex) as Hlex. cbn in Hlex.
        split; [|lia]. exists v', (e :: s). unfold sorting. cbn [length]. rewrite ?Hl'.
        split_and!; try done; try lia.
        -- rewrite <- Hp, <- Hex. cbn. by rewrite <- Permutation_middle.
        -- split; [|rewrite Hsh', length_insert]; lia.
        -- intros j e' Hj. rewrite Hsh'. apply Hc in Hj. rewrite <- Hj. f_equal. lia.
        -- intros x y Hx Hy. apply Hle'; [|done]. rewrite <- Hex. by apply list_elem_of_further.
  - intros _ q (sel & Hsel & Hem). wp_steps. exists sel, rest. split_and!; try done.
    + by rewrite Hsel.
    + by rewrite Hsel.
    + intros x y Hx. apply Hle0. by rewrite <- Hsel.
Qed.

(** Pop until the pool answers that it is empty. *)
Fixpoint pop_all (fuel : nat) : M Pool (list Z) :=
  match fuel with
  | O => ret []
  | S fuel' => e <- Pop ;; match e with Some x => l <- pop_all fuel' ;; ret (x :: l) | None => ret [] end
  end.

Lemma pop_all_spec sel p k : sorted_from 0 sel p -> small_len p = len sel -> pop_ptr p = Z.of_nat k ->
  (k <= length sel)%nat -> forall fuel, (length sel - k <= fuel)%nat ->
  exists q, runs (pop_all fuel) p (drop k sel) q.
Proof.
  intros Hs Hl Hk Hle fuel. revert p k Hs Hl Hk Hle. induction fuel as [|fuel IH]; intros p k Hs Hl Hk Hle Hf; cbn.
  - exists p. rewrite drop_ge by lia. done.
  - unfold Pop. destruct (decide (k = length sel)) as [->|Hne].
    + exists p. rewrite drop_ge by lia. unfold runs, bind, get. cbn.
      by rewrite (proj2 (Z.leb_le _ _)) by lia.
    + destruct (lookup_lt_is_Some_2 sel k) as [e He]; [lia|].
      destruct (IH (mkPool (large_len p) (small_len p) (large_heap p) (small_heap p) (pop_ptr p + 1)) (S k))
        as [q Hq]; cbn; try done; [lia|lia|lia|].
      exists q. pose proof (Hs _ _ He) as Hat. rewrite Z.add_0_l, <- Hk in Hat.
      unfold runs, bind, get, put, opt. cbn.
      rewrite (proj2 (Z.leb_gt _ _)) by lia. rewrite Hat. cbn. unfold runs in Hq. rewrite Hq.
      by rewrite (drop_S sel e k He).
Qed.

Lemma filled_empty p : sized p -> large_len p = 0 -> filled [] p.
Proof using N_pos.
  intros. exists [], []. split_and!; try done; cbn; try lia; intros i; cbn; try lia.
  intros y []%elem_of_nil.
Qed.

(** C30: the choice of the victims of garbage collection.  When any segments, at
    least one, are pushed into an empty pool of capacity [N - 1] and the pool is
    sorted, no loop runs on and no array is left; the pool then hands out, until
    it is empty, segments in ascending order of their valid blocks; they are as
    many of the segments pushed as fit, each as often as it was pushed, and none
    of those left out has fewer valid blocks than one handed out. *)
Theorem victims_are_smallest pushed p :
  sized p -> large_len p = 0 -> pushed <> [] ->
  exists sel rest q r,
    runs (mfor pushed (Push N val) ;;; Sort N val) p tt q /\
    runs (pop_all (S (length sel))) q sel r /\
    pushed ≡ₚ sel ++ rest /\ len sel = Z.min (len pushed) (N - 1) /\ ascending sel /\
    (forall x y, x ∈ sel -> y ∈ rest -> val x <= val y).
Proof using N_pos.
  intros Hs Hl Hne.
  enough (exists q, runs (mfor pushed (Push N val) ;;; Sort N val) p tt q /\
    exists sel rest, pushed ≡ₚ sel ++ rest /\ emptying sel q /\
      len sel = Z.min (len pushed) (N - 1) /\ (forall x y, x ∈ sel -> y ∈ rest -> val x <= val y)) as (q & Hq & sel & rest & Hp & Hem & Hn & Hle).
  { destruct Hem as (_ & _ & Hsl & Hpp & Hsf & Hasc).
    destruct (pop_all_spec sel q 0 Hsf Hsl ltac:(lia) ltac:(lia) (S (length sel)) ltac:(lia)) as [r Hr].
    by exists sel, rest, q, r. }
  apply (wp_runs_unit (S := Pool)). eapply wp_then.
  - apply (wp_mfor _ _ (fun pushed q => filled pushed q)); [by apply filled_empty|].
    intros dn x tl t _ Hf. by apply Push_spec.
  - intros u t Ht. by apply Sort_spec.
Qed.
End Ops.

(** Six segments into a pool with room for four. *)
Lemma victims_are_smallest_witness : exists sel rest q r,
  runs (mfor [9; 3; 7; 5; 12; 8] (Push 5 (fun s => s * 2)) ;;; Sort 5 (fun s => s * 2)) (pool_new 5) tt q /\
  runs (pop_all (S (length sel))) q sel r /\
  [9; 3; 7; 5; 12; 8] ≡ₚ sel ++ rest /\ Z.of_nat (length sel) = 4 /\ ascending (fun s => s * 2) sel /\
  (forall x y, x ∈ sel -> y ∈ rest -> x * 2 <= y * 2).
Proof.
  apply (victims_are_smallest 5 (fun s => s * 2) ltac:(lia) [9; 3; 7; 5; 12; 8] (pool_new 5));
    [by vm_compute | reflexivity | discriminate].
Defined.

