(* ===== verification/Node.v ===== *)
(** Node: node blocks in the page cache, and the path from a file offset to its
    block (f2fs_simulator.cpp). *)
From S2P Require Export Nat.

Section Node.
Context {St : Type} `{BlockStore St} `{External}.
Abbreviation Fs := (CF2fsSimulator St).

(** [ReadNode]: the page that holds the node, read from the medium when it
    is not cached. *)
Definition ReadNode (nid : Z) : M Fs Z :=
  if NODE_NR <=? nid then throw (FsError ERR_GENERAL) else
  c <- on_nat (node_cache_at nid) ;;
  pg <- (if is_valid32 c then page_ptr c
         else
           blk <- on_nat (get_phy_blk nid) ;;
           if is_invalid16 blk then throw (FsError ERR_INVALID_NID) else
           pg <- on_pages allocate ;;
           read_page (phyblk_to_lba blk) (InCache pg) ;;;
           on_pages (page_upd pg (fun p => set_addr nid INVALID16 (set_phy_blk_of blk p))) ;;;
           on_nat (set_node_cache nid pg) ;;;
           d <- data_at pg ;;
           if negb (m_type d =? BLOCK_INDEX) && negb (m_type d =? BLOCK_INODE)
           then throw (FsError ERR_WRONG_BLOCK_TYPE) else
           when (m_type d =? BLOCK_INODE) (upd_inode pg (set_ref_count 0)) ;;;
           ret pg) ;;
  set_page_id pg pg ;;;
  ret pg.

(** [UpdateIndex] *)
Definition UpdateIndex (nid offset phy_blk : Z) : M Fs unit :=
  pg <- ReadNode nid ;;
  x <- index_of pg ;;
  v <- opt (aget (index_index x) offset) ;;
  if is_invalid16 v then throw (FsError ERR_INVALID_BLK) else
  l <- opt (aset (index_index x) offset phy_blk) ;;
  upd_index pg (set_index_index l) ;;;
  set_dirty_page pg true.

Definition UpdateNat (nid phy_blk : Z) : M Fs unit := on_nat (set_phy_blk nid phy_blk).

(** [GetBlockTemp], [GetAlgorithmBlockTemp] *)
Definition GetBlockTemp (d : BLOCK_DATA) : Z :=
  if (m_type d =? BLOCK_INODE) || (m_type d =? BLOCK_INDEX) then BT_HOT__NODE else BT_HOT__DATA.
Definition GetAlgorithmBlockTemp (temp : Z) : Z := temp.

(** [OffsetToBlock]: the blocks of a byte range. *)
Definition OffsetToBlock (start_lba secs : Z) : Z * Z :=
  let end_pos := w32 (start_lba + secs) in
  (w16 (start_lba / BLOCK_SIZE), w16 (ROUND_UP_DIV end_pos BLOCK_SIZE)).

Definition get_file_blks (i : INODE) : Z := ROUND_UP_DIV (file_size i) BLOCK_SIZE.

(** [ReadNodeNoCache], [ReadBlockNoCache] *)
Definition ReadNodeNoCache (nid : Z) : M Fs NODE_INFO :=
  c <- on_nat (node_cache_at nid) ;;
  if is_valid32 c then pg <- page_ptr c ;; node_of pg
  else
    blk <- on_nat (get_phy_blk nid) ;;
    if MAIN_BLK_NR <=? blk then throw (FsError ERR_LOST_NID) else
    d <- store_read (phyblk_to_lba blk) ;;
    if negb (m_type d =? BLOCK_INODE) && negb (m_type d =? BLOCK_INDEX)
    then throw (FsError ERR_WRONG_BLOCK_TYPE) else
    n <- opt (as_node (body d)) ;;
    if negb (m_nid n =? nid) then throw (FsError ERR_INVALID_NID) else ret n.
Definition ReadBlockNoCache (blk : Z) : M Fs BLOCK_DATA := store_read (phyblk_to_lba blk).

(** [InitInode], [InitIndexNode]: the page [pg] becomes a new node. *)
Definition set_ff_block (ty pg : Z) : M Fs unit :=
  on_pages (page_upd pg (set_data (mkBlock ty U_ff))).
Definition INODE_new (type : Z) : INODE := mkInode 0 0 type 0 0 (rep INDEX_TABLE_SIZE INVALID16).
Definition INDEX_new : INDEX_NODE := mkIndexNode 0 (rep INDEX_SIZE INVALID16).

Definition InitInode (pg type : Z) : M Fs bool :=
  set_ff_block BLOCK_INODE pg ;;;
  n <- on_nat get_node ;;
  if is_invalid16 n then ret false else
  put_node_body pg (mkNode n n pg (N_inode (INODE_new type))) ;;;
  on_pages (page_upd pg (fun p => set_dirty_flag true (set_addr n INVALID16 p))) ;;;
  ret true.

Definition InitIndexNode (pg parent : Z) : M Fs bool :=
  set_ff_block BLOCK_INDEX pg ;;;
  n <- on_nat get_node ;;
  if is_invalid16 n then ret false else
  put_node_body pg (mkNode n parent pg (N_index INDEX_new)) ;;;
  on_pages (page_upd pg (fun p => set_dirty_flag true (set_addr n INVALID16 p))) ;;;
  ret true.
End Node.
