(* ===== verification/Gc.v ===== *)
(** Gc: writing a block to a segment and garbage collection (f2fs_segment.cpp).

    [AllocSegment] calls the collector, which calls [WriteBlockToSeg], which
    calls [AllocSegment], but a write made by the collector ([by_gc]) never
    starts the collector again.  The functions take the collector as an
    argument, and the collector is the one whose own writes have none. *)
From S2P Require Export Node GcHeap.

Section Gc.
Context {St : Type} `{BlockStore St} `{External}.
Abbreviation Fs := (CF2fsSimulator St).

Section Write.
Context (gc : M Fs ERROR_CODE).

Definition AllocSegment_with (temp : Z) (by_gc force : bool) : M Fs Z :=
  s <- get ;;
  let g := fs_segs s in
  if (m_free_nr g =? 0) || is_invalid16 (m_free_head g) || is_invalid16 (m_free_tail g)
  then throw ERR_USER else
  enough <-
    (if (m_free_nr g <=? RESERVED_SEG) && negb by_gc then
       ir <- gc ;;
       s <- get ;;
       let nr := m_free_nr (fs_segs s) in
       if (nr <=? 1) || bool_decide (ir <> ERR_OK) then throw (FsError ERR_NO_SPACE)
       else ret (negb (negb force && (nr <=? RESERVED_SEG)))
     else ret true) ;;
  if enough : bool then on_segs (take_free_segment temp) else ret INVALID16.

(** The steps of [WriteBlockToSeg] once the current segment is chosen. *)
Definition write_to_curseg (page : PPAGE) (temp : Z) (by_gc : bool) : M Fs Z :=
  curseg <- on_segs (curseg_at temp) ;;
  let seg := seg_no curseg in
  let blk_id := blk_offset curseg in
  on_segs (seg_upd seg (fun g => set_bmp_nr (set_bitmap (valid_bmp g) blk_id) (valid_blk_nr g) g)) ;;;
  write_page (seg_to_lba seg blk_id) page ;;;
  p <- pg_at page ;;
  on_segs (
    g <- seg_at seg ;;
    g' <- opt (set_owner blk_id (nid p) (offset p)
                 (set_bmp_nr (valid_bmp g) (w32 (valid_blk_nr g + 1)) g)) ;;
    seg_put seg g' ;;;
    modify (fun s => set_used (w16 (m_used_blk_nr s + 1)) s) ;;;
    curseg_put temp (mkCurseg seg (w16 (blk_id + 1))) ;;;
    seg_set_dirty seg) ;;;
  (if is_valid16 (phy_blk p)
   then let '(src_seg, src_blk) := BlockToSeg (phy_blk p) in
        on_segs (InvalidBlock_at src_seg src_blk) ;;; ret tt
   else ret tt) ;;;
  let phy := PhyBlock seg blk_id in
  pg_upd page (set_phy_blk_of phy) ;;;
  when (negb by_gc) (pg_upd page (set_dirty_flag false)) ;;;
  c <- on_segs (curseg_at temp) ;;
  when (BLOCK_PER_SEG <=? blk_offset c)
    (on_segs (curseg_put temp (mkCurseg INVALID16 (blk_offset c)))) ;;;
  when (negb by_gc) (on_segs clear_data_cache) ;;;
  ret phy.

Definition WriteBlockToSeg_with (page : PPAGE) (force by_gc : bool) : M Fs Z :=
  p <- pg_at page ;;
  let temp0 := GetBlockTemp (data p) in
  pg_upd page (set_ttemp temp0) ;;;
  let temp := GetAlgorithmBlockTemp temp0 in
  when (negb by_gc) (on_segs (modify (set_data_cache (nid p) (offset p)))) ;;;
  curseg <- on_segs (curseg_at temp) ;;
  if is_invalid16 (seg_no curseg) then
    seg <- AllocSegment_with temp by_gc force ;;
    if is_invalid16 seg then on_segs clear_data_cache ;;; ret INVALID16
    else
      on_segs (curseg_put temp (mkCurseg seg 0)) ;;;
      write_to_curseg page temp by_gc
  else write_to_curseg page temp by_gc.
End Write.

(** A write made by the collector. *)
Definition gc_write (page : PPAGE) : M Fs Z := WriteBlockToSeg_with fault page true true.

(** The victims: every segment in use that is not a current segment. *)
Definition gc_collect : M Fs GcPoolHeap :=
  mfold (range 0 MAIN_SEG_NR) (pool_new 64) (fun pool ss =>
    seg <- on_segs (seg_at ss) ;;
    if (valid_blk_nr seg =? 0) && is_invalid16 (free_next seg) then
      (if negb (valid_bmp seg =? 0) then throw ERR_USER else on_segs (FreeSegment ss)) ;;;
      ret pool
    else
      n <- on_segs (cur_seg_no (seg_temp seg)) ;;
      if n =? ss then ret pool else
      s <- get ;;
      let val i := default 0 (valid_blk_nr <$> aget (m_segments (fs_segs s)) i) in
      match Push 64 val ss pool with
      | (Ret _, pool') => ret pool'
      | (Throw e, _) => throw e
      | (Fault, _) => fault
      end).

(** Move one valid block; [false] when the block is left where it is. *)
Definition gc_move (src_seg bb : Z) : M Fs bool :=
  src <- on_segs (seg_at src_seg) ;;
  nid <- opt (aget (nids src) bb) ;;
  offset <- opt (aget (offsets src) bb) ;;
  let org_phy := PhyBlock src_seg bb in
  node_page <- ReadNode nid ;;
  if is_invalid16 offset then
    l2p <- on_nat (get_phy_blk nid) ;;
    if negb (l2p =? org_phy) then throw (FsError ERR_PHY_ADDR_MISMATCH) else
    phy_blk <- gc_write (InCache node_page) ;;
    set_dirty_page node_page false ;;;
    on_nat (set_phy_blk nid phy_blk) ;;;
    ret true
  else
    s <- get ;;
    if (cache_nid (fs_segs s) =? nid) && (cache_offset (fs_segs s) =? offset) then ret false else
    d <- data_at node_page ;;
    if negb (m_type d =? BLOCK_INDEX) then throw (FsError ERR_WRONG_BLOCK_TYPE) else
    if INDEX_SIZE <? offset then throw (FsError ERR_INVALID_INDEX) else
    x <- index_of node_page ;;
    l2p <- opt (aget (index_index x) offset) ;;
    if negb (l2p =? org_phy) then throw (FsError ERR_PHY_ADDR_MISMATCH) else
    read_page (phyblk_to_lba org_phy) OnStack ;;;
    pg_upd OnStack (fun p => set_addr nid offset (set_phy_blk_of org_phy p)) ;;;
    phy_blk <- gc_write OnStack ;;
    UpdateIndex nid offset phy_blk ;;;
    ret true.

(** Move the valid blocks of a victim. *)
Definition gc_segment (src_seg : Z) : M Fs unit :=
  src <- on_segs (seg_at src_seg) ;;
  modify (fun s => let i := m_fs_info s in
    set_info (mkInfo (main_seg_nr i) (main_blk_nr i) (node_nr i) (page_nr i) (used_blk i)
      (free_blk i) (used_seg i) (free_seg i) (host_write i) (media_write i) (free_node i)
      (w32 (gc_count i + 1)) (free_page i)) s) ;;;
  mloop (range 0 BLOCK_PER_SEG) (valid_blk_nr src) (fun valid_blk bb =>
    g <- on_segs (seg_at src_seg) ;;
    if test_bitmap (valid_bmp g) bb =? 0 then ret (Next valid_blk) else
    moved <- gc_move src_seg bb ;;
    if negb moved then ret (Next valid_blk) else
    let v := w32 (valid_blk - 1) in
    ret (if v =? 0 then Break v else Next v)) ;;;
  ret tt.

Definition GarbageCollection : M Fs ERROR_CODE :=
  pool0 <- gc_collect ;;
  s <- get ;;
  let val i := default 0 (valid_blk_nr <$> aget (m_segments (fs_segs s)) i) in
  pool <- (match Sort 64 val pool0 with
           | (Ret _, pool) => ret pool
           | (Throw e, _) => throw e
           | (Fault, _) => fault
           end) ;;
  modify (set_gc_page page_local) ;;;
  mwhile 65 pool (fun pool =>
    s <- get ;;
    if negb (m_free_nr (fs_segs s) <? 15) then ret (Break pool) else
    match Pop pool with
    | (Ret (Some src), pool') => gc_segment src ;;; ret (Next pool')
    | (Ret None, pool') => ret (Break pool')
    | _ => fault
    end) ;;;
  ret ERR_OK.

Definition AllocSegment : Z -> bool -> bool -> M Fs Z := AllocSegment_with GarbageCollection.
Definition WriteBlockToSeg (page : PPAGE) (force : bool) : M Fs Z :=
  WriteBlockToSeg_with GarbageCollection page force false.
End Gc.
