(* ===== verification/WriteInv.v ===== *)
(** WriteInv: what writing a block to the current segment of its temperature
    does to the segment table, the medium and the page. *)
From S2P Require Export Gc NatInv.

(** The segment after block [blk] is written for the owner [(n, o)]. *)
Definition written (blk n o : Z) (g : SegmentInfo) : SegmentInfo :=
  set_owners (<[Z.to_nat blk := n]> (nids g)) (<[Z.to_nat blk := o]> (offsets g))
    (set_bmp_nr (set_bitmap (valid_bmp g) blk) (valid_blk_nr g + 1) g).
Definition table_written (temp seg blk n o : Z) (d : list Z) (g : SegmentInfo) (s : Segs) : Segs :=
  set_dirty_map d
    (set_cur_segs (<[Z.to_nat temp := mkCurseg seg (blk + 1)]> (m_cur_segs s))
       (set_used (m_used_blk_nr s + 1)
          (with_segs (<[Z.to_nat seg := written blk n o g]> (m_segments s)) s))).

(** The next block of the current segment of [temp]. *)
Record cur_block (s : Segs) (q : list Z) (temp seg blk : Z) (g : SegmentInfo) : Prop := {
  cb_cur : aget (m_cur_segs s) temp = Some (mkCurseg seg blk);
  cb_blk : 0 <= blk < BLOCK_PER_SEG;
  cb_seg : aget (m_segments s) seg = Some g;
  cb_queue : seg ∉ q;
  cb_free : Z.testbit (valid_bmp g) blk = false
}.

Section Table.
Context (s : Segs) (q : list Z) (temp seg blk n o : Z) (g : SegmentInfo).
Context (Hw : segs_wf s q) (Hc : cur_block s q temp seg blk g).

Lemma cb_range : 0 <= seg < MAIN_SEG_NR.
Proof. pose proof (aget_bounds _ _ _ (cb_seg _ _ _ _ _ _ Hc)) as H. by rewrite (sw_len _ _ Hw) in H. Qed.
Lemma cb_ok : seg_ok g.
Proof. eapply seg_ok_at; [apply Hw|apply Hc]. Qed.

Lemma written_ok : seg_ok (written blk n o g).
Proof.
  pose proof cb_ok as []. destruct Hc. constructor; cbn.
  - by rewrite length_insert.
  - by rewrite length_insert.
  - apply lor_mask_word; [clia|done].
  - unfold set_bitmap. rewrite popcount_set by (done || clia). by rewrite so_nr.
  - done.
Qed.

Lemma write_total : total_valid (<[Z.to_nat seg := written blk n o g]> (m_segments s)) = m_used_blk_nr s + 1.
Proof. rewrite (total_insert _ _ _ _ (cb_seg _ _ _ _ _ _ Hc)), (sw_used _ _ Hw). cbn. lia. Qed.

Lemma write_used : m_used_blk_nr s + 1 <= MAIN_BLK_NR.
Proof.
  rewrite <- write_total. pose proof (total_bounds (<[Z.to_nat seg := written blk n o g]> (m_segments s))) as H.
  rewrite length_insert, (sw_len _ _ Hw) in H. apply H. apply Forall_insert; [apply Hw|apply written_ok].
Qed.

Lemma write_table_runs : exists d, Z.of_nat (length d) = SIT_BLK_NR /\
  runs (g <- seg_at seg ;;
        g' <- opt (set_owner blk n o (set_bmp_nr (valid_bmp g) (w32 (valid_blk_nr g + 1)) g)) ;;
        seg_put seg g' ;;;
        modify (fun s => set_used (w16 (m_used_blk_nr s + 1)) s) ;;;
        curseg_put temp (mkCurseg seg (w16 (blk + 1))) ;;;
        seg_set_dirty seg)
    (with_segs (<[Z.to_nat seg := set_bmp_nr (set_bitmap (valid_bmp g) blk) (valid_blk_nr g) g]> (m_segments s)) s)
    tt (table_written temp seg blk n o d g s).
Proof.
  pose proof cb_ok as Hok. pose proof cb_range as Hsr. pose proof write_used as Hu. destruct Hc as [C1 C2 C3 C4 C5].
  destruct (map_set_Some SIT_ENTRY_PER_BLK (m_dirty_map s) seg) as (w & _ & Hm).
  { clia. } { rewrite (sw_map _ _ Hw). clia. }
  match type of Hm with _ = Some ?l => exists l end.
  split; [by rewrite (map_set_length _ _ _ _ Hm), (sw_map _ _ Hw)|].
  pose proof (aget_bounds _ _ _ C1) as Hb1. pose proof (aget_bounds _ _ _ C3) as Hb3.
  eapply runs_bind; [apply seg_at_runs; cbn; by rewrite aget_insert_eq by lia|].
  pose proof (popcount_bounds BLOCK_PER_SEG (valid_bmp g) ltac:(clia)) as Hp. rewrite <- (so_nr _ Hok) in Hp.
  pose proof (total_bounds _ (sw_seg _ _ Hw)) as Htb. rewrite <- (sw_used _ _ Hw) in Htb.
  assert (E1 : w32 (valid_blk_nr g + 1) = valid_blk_nr g + 1) by (unfold w32; apply Z.mod_small; clia).
  assert (E2 : w16 (m_used_blk_nr s + 1) = m_used_blk_nr s + 1) by (unfold w16; apply Z.mod_small; clia).
  assert (E3 : w16 (blk + 1) = blk + 1) by (unfold w16; apply Z.mod_small; clia).
  cbn [valid_blk_nr set_bmp_nr valid_bmp]. rewrite E1, E3.
  unfold set_owner. cbn [nids offsets set_bmp_nr].
  rewrite (aset_is_Some (nids g)) by (rewrite (so_nids _ Hok); done). cbn [mbind option_bind].
  rewrite (aset_is_Some (offsets g)) by (rewrite (so_offs _ Hok); done). cbn [mbind option_bind].
  eapply runs_bind; [done|].
  eapply runs_bind; [eapply seg_put_runs; cbn; by rewrite aget_insert_eq by lia|].
  unfold runs, curseg_put, seg_set_dirty, modify, bind, get, opt, put. cbn. rewrite E2.
  rewrite aset_is_Some by lia. cbn. rewrite Hm. cbn. unfold table_written, with_segs. cbn.
  rewrite list_insert_insert_eq. done.
Qed.

Lemma table_written_wf d : Z.of_nat (length d) = SIT_BLK_NR -> segs_wf (table_written temp seg blk n o d g s) q.
Proof.
  intros Hd. constructor; [|cbn; by rewrite write_total].
  apply q_dirty; [|done]. apply (q_cur _ _ (<[Z.to_nat temp := mkCurseg seg (blk + 1)]> (m_cur_segs s)));
    [|rewrite length_insert; apply Hw].
  apply (q_used (with_segs (<[Z.to_nat seg := written blk n o g]> (m_segments s)) s)).
  eapply q_outside; [apply Hw|apply Hc|apply written_ok|apply Hc].
Qed.

Lemma table_written_live d other : 0 <= other < MAIN_BLK_NR ->
  blk_live (table_written temp seg blk n o d g s) other <->
  other = seg * BLOCK_PER_SEG + blk \/ blk_live s other.
Proof.
  intros Ho. destruct (BlockToSeg_main _ Ho) as (_ & Hs & Hk). pose proof cb_range as Hsr.
  destruct Hc as [C1 C2 C3 C4 C5]. pose proof (aget_bounds _ _ _ C3) as Hb3.
  pose proof (Z.div_mod other BLOCK_PER_SEG ltac:(clia)) as Hdm.
  unfold blk_live. cbn. destruct (decide (other / BLOCK_PER_SEG = seg)) as [E|Hne].
  - rewrite E, aget_insert_eq by lia.
    assert (Hbit : Z.testbit (set_bitmap (valid_bmp g) blk) (other mod BLOCK_PER_SEG) =
      Z.testbit (valid_bmp g) (other mod BLOCK_PER_SEG) || (other mod BLOCK_PER_SEG =? blk)).
    { unfold set_bitmap. apply testbit_lor_mask; lia. }
    split.
    + intros (h & [= <-] & Ht). cbn in Ht. rewrite Hbit in Ht.
      apply orb_true_iff in Ht as [Ht|Ht%Z.eqb_eq]; [right; by exists g|left; clia].
    + intros Hor. eexists. split; [done|]. cbn. rewrite Hbit. apply orb_true_iff.
      destruct Hor as [Heq|(h & Hh & Ht)]; [right; apply Z.eqb_eq; clia|left; congruence].
  - rewrite aget_insert_ne by lia. split; [by right|]. intros [Heq|]; [|done]. exfalso. apply Hne.
    rewrite Heq. symmetry. apply (Z.div_unique _ _ _ blk); clia.
Qed.

Lemma table_written_owners d b : b <> seg * BLOCK_PER_SEG + blk -> 0 <= b < MAIN_BLK_NR ->
  owner_of (table_written temp seg blk n o d g s) b = owner_of s b.
Proof.
  intros Hb Hr. destruct (BlockToSeg_main _ Hr) as (_ & Hs & Hk). pose proof cb_range as Hsr.
  destruct Hc as [C1 C2 C3 C4 C5]. pose proof (aget_bounds _ _ _ C3) as Hb3.
  pose proof (Z.div_mod b BLOCK_PER_SEG ltac:(clia)) as Hdm. unfold owner_of. cbn.
  destruct (decide (b / BLOCK_PER_SEG = seg)) as [E|Hne]; [|by rewrite aget_insert_ne by lia].
  rewrite E, aget_insert_eq, C3 by lia. cbn. rewrite !aget_insert_ne by clia. done.
Qed.
Lemma table_written_owner d : owner_of (table_written temp seg blk n o d g s) (seg * BLOCK_PER_SEG + blk) = Some (n, o).
Proof.
  pose proof cb_range as Hsr. pose proof cb_ok as Hok. destruct Hc as [C1 C2 C3 C4 C5].
  pose proof (aget_bounds _ _ _ C3) as Hb3. unfold owner_of.
  assert ((seg * BLOCK_PER_SEG + blk) / BLOCK_PER_SEG = seg) as -> by (symmetry; apply (Z.div_unique _ _ _ blk); clia).
  assert ((seg * BLOCK_PER_SEG + blk) mod BLOCK_PER_SEG = blk) as -> by (symmetry; apply (Z.mod_unique _ _ seg); clia).
  cbn. rewrite aget_insert_eq by lia. cbn.
  pose proof (so_nids _ Hok). pose proof (so_offs _ Hok).
  rewrite !aget_insert_eq by lia. done.
Qed.
Lemma cur_block_dead : ~ blk_live s (seg * BLOCK_PER_SEG + blk).
Proof.
  pose proof cb_range as Hsr. destruct Hc as [C1 C2 C3 C4 C5]. intros (h & Hh & Hth).
  assert ((seg * BLOCK_PER_SEG + blk) / BLOCK_PER_SEG = seg) as E1 by (symmetry; apply (Z.div_unique _ _ _ blk); clia).
  assert ((seg * BLOCK_PER_SEG + blk) mod BLOCK_PER_SEG = blk) as E2 by (symmetry; apply (Z.mod_unique _ _ seg); clia).
  rewrite E1 in Hh. rewrite E2 in Hth. congruence.
Qed.
End Table.

Section Write.
Context {St : Type} `{HB : BlockStore St, HL : !BlockStoreLaws St}.
Abbreviation Fs := (CF2fsSimulator St).
Implicit Types s : Fs.

Lemma store_write_spec s l lba d : bs_rep (m_storage s) l -> lba_ok lba ->
  exists st, runs (store_write lba d) s tt (set_store st s) /\ bs_rep st ((lba, d) :: l).
Proof.
  intros Hs Hok. assert (w16 lba = lba) as E.
  { unfold w16. apply Z.mod_small. unfold lba_ok in Hok. clia. }
  destruct (bs_write_law _ _ _ d Hs Hok) as (st & Hr & Hs'). exists st. split; [|done].
  unfold store_write. rewrite E. by apply runs_zoom.
Qed.

Lemma store_read_spec s l lba b : bs_rep (m_storage s) l -> lba_ok lba -> log_read lba l = Some b ->
  runs (store_read lba) s b s.
Proof.
  intros Hs Hok Hl. assert (w16 lba = lba) as E.
  { unfold w16. apply Z.mod_small. unfold lba_ok in Hok. clia. }
  unfold store_read, on_store, zoom, runs. rewrite E, (bs_read_law _ _ _ Hs Hok), Hl. by destruct s.
Qed.

(** The block a page occupied is none, or one in use. *)
Definition page_blk_ok (g : Segs) (p : CPageInfo) : Prop :=
  phy_blk p = INVALID16 \/ (0 <= phy_blk p < MAIN_BLK_NR /\ blk_live g (phy_blk p)).

(** Invalidating the block the page occupied before. *)
Lemma write_invalid (s : Fs) q p :
  segs_wf (fs_segs s) q -> page_blk_ok (fs_segs s) p ->
  exists g ext, runs (if is_valid16 (phy_blk p)
       then let '(src_seg, src_blk) := BlockToSeg (phy_blk p) in
            on_segs (InvalidBlock_at src_seg src_blk) ;;; ret tt
       else ret tt) s tt (set_segs g s) /\
    segs_wf g (q ++ ext) /\ m_cur_segs g = m_cur_segs (fs_segs s) /\
    m_used_blk_nr g = m_used_blk_nr (fs_segs s) - (if phy_blk p =? INVALID16 then 0 else 1) /\
    (forall b, 0 <= b < MAIN_BLK_NR -> blk_live g b <-> blk_live (fs_segs s) b /\ b <> phy_blk p) /\
    (forall b, 0 <= b < MAIN_BLK_NR -> b <> phy_blk p -> owner_of g b = owner_of (fs_segs s) b).
Proof.
  intros Hw Hb. destruct (Z.eqb_spec (phy_blk p) INVALID16) as [E|Hne].
  - exists (fs_segs s), []. rewrite E, app_nil_r. split_and!; [by destruct s|done|done|lia| |done].
    intros b Hbr. split; [|by intros [? _]]. intros Hl. split; [done|clia].
  - destruct Hb as [|[Hr Hl]]; [done|].
    destruct (InvalidBlock_spec _ _ _ Hw Hr Hl) as (g & b & Hrun & Hw' & Hu & Hc & Hd & Ho & Hown & _).
    exists g, (if b then [phy_blk p / BLOCK_PER_SEG] else []).
    split_and!; [|by destruct b; rewrite ?app_nil_r|done|done| |done].
    + cbn [negb]. unfold InvalidBlock in Hrun. rewrite (proj2 (Z.eqb_neq _ _)) in Hrun by done.
      destruct (BlockToSeg (phy_blk p)) as [ss sb]. eapply runs_bind; [by apply runs_zoom|done].
    + intros x Hx. destruct (decide (x = phy_blk p)) as [->|Hn]; [naive_solver|].
      rewrite (Ho x Hx Hn). naive_solver.
Qed.

(** What the write of page [pg] to block [blk] of segment [seg] leaves. *)
Record write_post (s : Fs) (q : list Z) (fl : list Z) (l : wlog) (pg : Z) (p : CPageInfo)
    (temp seg blk : Z) (by_gc : bool) (s' : Fs) : Prop := {
  wp_store : bs_rep (m_storage s') ((seg_to_lba seg blk, data p) :: l);
  wp_segs : exists ext, segs_wf (fs_segs s') (q ++ ext);
  wp_used : m_used_blk_nr (fs_segs s') =
    m_used_blk_nr (fs_segs s) + (if phy_blk p =? INVALID16 then 1 else 0);
  wp_live b : 0 <= b < MAIN_BLK_NR ->
    blk_live (fs_segs s') b <->
    b = seg * BLOCK_PER_SEG + blk \/ (blk_live (fs_segs s) b /\ b <> phy_blk p);
  wp_owner : owner_of (fs_segs s') (seg * BLOCK_PER_SEG + blk) = Some (nid p, offset p);
  wp_owners b : 0 <= b < MAIN_BLK_NR -> blk_live (fs_segs s) b -> b <> phy_blk p ->
    owner_of (fs_segs s') b = owner_of (fs_segs s) b;
  wp_cur : aget (m_cur_segs (fs_segs s')) temp =
    Some (mkCurseg (if BLOCK_PER_SEG <=? blk + 1 then INVALID16 else seg) (blk + 1));
  wp_cur_others t : t <> temp -> aget (m_cur_segs (fs_segs s')) t = aget (m_cur_segs (fs_segs s)) t;
  wp_pages : pages_wf (fs_pages s') fl;
  wp_page : exists p', aget (m_pages (fs_pages s')) pg = Some p' /\
    data p' = data p /\ phy_blk p' = seg * BLOCK_PER_SEG + blk /\ in_use p' = true /\
    nid p' = nid p /\ offset p' = offset p /\ dirty p' = (if by_gc then dirty p else false);
  wp_others y : y <> pg -> aget (m_pages (fs_pages s')) y = aget (m_pages (fs_pages s)) y;
  wp_rest : fs_nat s' = fs_nat s /\ m_checkpoint s' = m_checkpoint s
}.

Lemma on_pages_upd s fl pg p f : pages_wf (fs_pages s) fl -> aget (m_pages (fs_pages s)) pg = Some p ->
  in_use p = true -> in_use (f p) = true ->
  exists pa, runs (pg_upd (InCache pg) f) s tt (set_pages pa s) /\ pages_wf pa fl /\
    aget (m_pages pa) pg = Some (f p) /\
    (forall y, y <> pg -> aget (m_pages pa) y = aget (m_pages (fs_pages s)) y).
Proof.
  intros Hp Hg Hu Hf. destruct (page_upd_spec _ _ _ _ f Hp Hg Hu Hf) as (pa & Hr & H').
  exists pa. split; [by apply runs_zoom|done].
Qed.

Lemma on_pages_at s pg p : aget (m_pages (fs_pages s)) pg = Some p -> runs (pg_at (InCache pg)) s p s.
Proof.
  intros Hg. unfold pg_at, on_pages, zoom, runs, page_at, bind, get, opt. rewrite Hg. by destruct s.
Qed.

(** The last steps: the page learns its block. *)
Lemma write_finish s fl pg p by_gc phy : pages_wf (fs_pages s) fl ->
  aget (m_pages (fs_pages s)) pg = Some p -> in_use p = true ->
  exists pa p', runs (pg_upd (InCache pg) (set_phy_blk_of phy) ;;;
        when (negb by_gc) (pg_upd (InCache pg) (set_dirty_flag false))) s tt (set_pages pa s) /\
    pages_wf pa fl /\ aget (m_pages pa) pg = Some p' /\
    p' = mkPage phy (ttemp p) (nid p) (offset p) (if by_gc then dirty p else false) true (data p) /\
    (forall y, y <> pg -> aget (m_pages pa) y = aget (m_pages (fs_pages s)) y).
Proof.
  intros Hp Hg Hu.
  destruct (on_pages_upd s fl pg p (set_phy_blk_of phy) Hp Hg Hu Hu) as (pa & Hr & Hp1 & Hg1 & Ho1).
  destruct by_gc; cbn [negb when].
  - eexists pa, _. split_and!; [|exact Hp1|exact Hg1|by destruct p; cbn in *; subst|exact Ho1].
    by eapply runs_bind.
  - destruct (on_pages_upd (set_pages pa s) fl pg _ (set_dirty_flag false) Hp1 Hg1 Hu Hu)
      as (pa' & Hr' & Hp2 & Hg2 & Ho2).
    eexists pa', _. split_and!; [|exact Hp2|exact Hg2|by destruct p; cbn in *; subst|].
    + by eapply runs_bind.
    + intros y Hy. rewrite Ho2 by done. by apply Ho1.
Qed.

(** The end of [write_to_curseg]: a full segment is closed. *)
Lemma write_close (s : Fs) temp seg blk by_gc (phy : Z) :
  aget (m_cur_segs (fs_segs s)) temp = Some (mkCurseg seg (blk + 1)) ->
  exists g, runs (c <- on_segs (curseg_at temp) ;;
      when (BLOCK_PER_SEG <=? blk_offset c)
        (on_segs (curseg_put temp (mkCurseg INVALID16 (blk_offset c)))) ;;;
      when (negb by_gc) (on_segs clear_data_cache) ;;;
      ret phy) s phy (set_segs g s) /\
    aget (m_cur_segs g) temp =
      Some (mkCurseg (if BLOCK_PER_SEG <=? blk + 1 then INVALID16 else seg) (blk + 1)) /\
    m_segments g = m_segments (fs_segs s) /\ m_used_blk_nr g = m_used_blk_nr (fs_segs s) /\
    (forall q, segs_wf (fs_segs s) q -> segs_wf g q) /\
    (forall t, t <> temp -> aget (m_cur_segs g) t = aget (m_cur_segs (fs_segs s)) t).
Proof.
  intros Hc. pose proof (aget_bounds _ _ _ Hc) as Hb.
  set (cur := if BLOCK_PER_SEG <=? blk + 1
    then <[Z.to_nat temp := mkCurseg INVALID16 (blk + 1)]> (m_cur_segs (fs_segs s)) else m_cur_segs (fs_segs s)).
  set (g1 := set_cur_segs cur (fs_segs s)).
  exists (if by_gc then g1 else set_data_cache INVALID16 INVALID32 g1).
  assert (Hwf : forall q, segs_wf (fs_segs s) q -> segs_wf g1 q).
  { intros q [Hq Hu]. constructor; [|exact Hu]. apply q_cur; [done|]. subst cur.
    destruct (BLOCK_PER_SEG <=? blk + 1); rewrite ?length_insert; apply Hq. }
  split_and!.
  - eapply runs_bind.
    { apply on_segs_keeps. unfold runs, curseg_at, bind, get, opt. by rewrite Hc. }
    cbn [blk_offset]. apply (runs_bind _ _ _ tt (set_segs g1 s)).
    + subst g1 cur. destruct (BLOCK_PER_SEG <=? blk + 1); cbn [when].
      * apply on_segs_runs. unfold runs, curseg_put, bind, get, opt, put. cbn. by rewrite aset_is_Some by lia.
      * by destruct s as [? [] ? ? ? ? ? ? ? ? ? ? ? ? ?].
    + by destruct by_gc.
  - destruct by_gc; cbn; subst cur; destruct (BLOCK_PER_SEG <=? blk + 1); try done; by rewrite aget_insert_eq by lia.
  - by destruct by_gc.
  - by destruct by_gc.
  - intros q Hq. destruct by_gc; [by apply Hwf|]. destruct (Hwf q Hq) as [Hq1 Hu1].
    constructor; [by apply q_cache|exact Hu1].
  - intros t Ht. destruct by_gc; cbn; subst cur; destruct (BLOCK_PER_SEG <=? blk + 1); try done;
      by rewrite aget_insert_ne by lia.
Qed.

Lemma write_to_curseg_spec (s : Fs) q fl l pg p temp seg blk g by_gc :
  segs_wf (fs_segs s) q -> cur_block (fs_segs s) q temp seg blk g ->
  pages_wf (fs_pages s) fl -> aget (m_pages (fs_pages s)) pg = Some p -> in_use p = true ->
  page_blk_ok (fs_segs s) p -> bs_rep (m_storage s) l ->
  exists s', runs (write_to_curseg (InCache pg) temp by_gc) s (seg * BLOCK_PER_SEG + blk) s' /\
    write_post s q fl l pg p temp seg blk by_gc s'.
Proof.
  intros Hw Hc Hp Hg Hu Hb Hs. pose proof (cb_range _ _ _ _ _ _ Hw Hc) as Hsr.
  pose proof (cb_blk _ _ _ _ _ _ Hc) as Hbr.
  set (s1 := set_segs (with_segs (<[Z.to_nat seg := set_bmp_nr (set_bitmap (valid_bmp g) blk) (valid_blk_nr g) g]>
    (m_segments (fs_segs s))) (fs_segs s)) s).
  destruct (store_write_spec s1 l (seg_to_lba seg blk) (data p)) as (st & Hst & Hst').
  { done. } { unfold lba_ok, seg_to_lba. clia. }
  destruct (write_table_runs _ _ _ _ _ (nid p) (offset p) _ Hw Hc) as (d & Hd & Hrt).
  set (s3 := set_segs (table_written temp seg blk (nid p) (offset p) d g (fs_segs s)) (set_store st s1)).
  pose proof (table_written_wf _ _ _ _ _ (nid p) (offset p) _ Hw Hc d Hd) as Hw3.
  pose proof (table_written_live _ _ _ _ _ (nid p) (offset p) _ Hw Hc d) as Hl3.
  destruct (write_invalid s3 q p Hw3) as (g4 & ext & Hr4 & Hw4 & Hc4 & Hu4 & Hl4 & Ho4).
  { destruct Hb as [|[Hb1 Hb2]]; [by left|right; split; [done|]]. apply Hl3; [done|by right]. }
  destruct (write_finish (set_segs g4 s3) fl pg p by_gc (seg * BLOCK_PER_SEG + blk) Hp Hg Hu)
    as (pa & p' & Hr5 & Hp5 & Hg5 & Hpe & Ho5).
  pose proof (aget_bounds _ _ _ (cb_cur _ _ _ _ _ _ Hc)) as Hcb.
  destruct (write_close (set_pages pa (set_segs g4 s3)) temp seg blk by_gc (seg * BLOCK_PER_SEG + blk))
    as (g6 & Hr6 & Hc6 & Hs6 & Hu6 & Hw6 & Hco6).
  { cbn. rewrite Hc4. cbn. by rewrite aget_insert_eq by lia. }
  assert (Hphy : PhyBlock seg blk = seg * BLOCK_PER_SEG + blk).
  { unfold PhyBlock, w16. apply Z.mod_small. clia. }
  assert (Hnew : seg * BLOCK_PER_SEG + blk <> phy_blk p).
  { intros E. destruct Hb as [Hb|[_ Hb2]]; [clia|]. rewrite <- E in Hb2. by apply (cur_block_dead _ _ _ _ _ _ Hw Hc). }
  eexists. split.
  - unfold write_to_curseg. eapply runs_bind.
    { apply on_segs_keeps. unfold runs, curseg_at, bind, get, opt. by rewrite (cb_cur _ _ _ _ _ _ Hc). }
    cbn [seg_no blk_offset]. apply (runs_bind _ _ _ tt s1).
    { apply (on_segs_runs _ s), (seg_upd_runs (fs_segs s) seg g
        (fun g => set_bmp_nr (set_bitmap (valid_bmp g) blk) (valid_blk_nr g) g)), Hc. }
    eapply runs_bind; [eapply runs_bind; [by apply on_pages_at|exact Hst]|].
    eapply runs_bind; [by apply on_pages_at|].
    apply (runs_bind _ _ _ tt s3); [apply (on_segs_runs _ (set_store st s1)); exact Hrt|].
    eapply runs_bind; [exact Hr4|]. cbn zeta. rewrite Hphy.
    apply runs_assoc. eapply runs_bind; [exact Hr5|exact Hr6].
  - constructor; cbn.
    + exact Hst'.
    + exists ext. by apply Hw6.
    + rewrite Hu6. cbn. rewrite Hu4. cbn. destruct (phy_blk p =? INVALID16); lia.
    + intros b Hbb. unfold blk_live at 1. rewrite Hs6. change (blk_live g4 b <->
        b = seg * BLOCK_PER_SEG + blk \/ (blk_live (fs_segs s) b /\ b <> phy_blk p)). rewrite Hl4 by done.
      cbn [fs_segs set_segs s3]. rewrite Hl3 by done. naive_solver.
    + unfold owner_of. rewrite Hs6. change (owner_of g4 (seg * BLOCK_PER_SEG + blk) = Some (nid p, offset p)).
      rewrite Ho4; [|clear -Hsr Hbr; clia|exact Hnew]. by apply table_written_owner with (q := q).
    + intros b Hbb Hlb Hne. unfold owner_of at 1. rewrite Hs6. change (owner_of g4 b = owner_of (fs_segs s) b).
      rewrite Ho4 by done. apply (table_written_owners _ _ _ _ _ _ _ _ Hw Hc); [|done].
      intros ->. by apply (cur_block_dead _ _ _ _ _ _ Hw Hc).
    + exact Hc6.
    + intros t Ht. rewrite Hco6 by done. cbn. rewrite Hc4. cbn. by rewrite aget_insert_ne by lia.
    + exact Hp5.
    + exists p'. split; [exact Hg5|]. by rewrite Hpe.
    + exact Ho5.
    + done.
Qed.
End Write.

(** * Choosing the segment *)
Section Choose.
Context {St : Type} `{HB : BlockStore St, HL : !BlockStoreLaws St}.
Abbreviation Fs := (CF2fsSimulator St).

(** Where the next block of a temperature goes: on in its current segment, or
    to the start of the first free segment. *)
Inductive target (s : Segs) (q : list Z) (temp : Z) : Z -> Z -> Prop :=
  | target_open seg blk g : cur_block s q temp seg blk g -> target s q temp seg blk
  | target_new seg q' b : aget (m_cur_segs s) temp = Some (mkCurseg INVALID16 b) ->
      q = seg :: q' -> RESERVED_SEG < m_free_nr s -> target s q temp seg 0.

Definition same_live (s s' : Segs) : Prop :=
  forall b, 0 <= b < MAIN_BLK_NR -> blk_live s' b <-> blk_live s b.

(** The owners of the live blocks are the same. *)
Definition same_owner (s s' : Segs) : Prop :=
  forall b, 0 <= b < MAIN_BLK_NR -> blk_live s b -> owner_of s' b = owner_of s b.

(** The queue once the segment is chosen. *)
Definition q_rest (s : Segs) (q : list Z) (temp : Z) : list Z :=
  match aget (m_cur_segs s) temp with
  | Some c => if is_invalid16 (seg_no c) then tail q else q
  | None => q
  end.

Lemma free_dead s q x b : segs_wf s q -> x ∈ q -> b / BLOCK_PER_SEG = x -> 0 <= b -> ~ blk_live s b.
Proof.
  intros H Hx E H0 (k & Hk0 & Hk1). rewrite E in Hk0.
  destruct (sw_empty _ _ H x Hx) as (h & Hh & Hz). assert (h = k) as -> by congruence.
  pose proof (seg_ok_at _ _ _ _ H Hk0) as Hok. rewrite (so_nr _ Hok) in Hz.
  assert (0 <= b mod BLOCK_PER_SEG < BLOCK_PER_SEG) as Hb by (apply Z.mod_pos_bound; clia).
  pose proof (popcount_pos _ _ _ Hb Hk1). lia.
Qed.

Lemma take_live s q x temp : segs_wf s (x :: q) -> BT_FF <= temp <= BT_TEMP_NR ->
  exists s' g, runs (take_free_segment temp) s x s' /\ segs_wf s' q /\ same_live s s' /\
    m_used_blk_nr s' = m_used_blk_nr s /\ m_cur_segs s' = m_cur_segs s /\ x ∉ q /\
    aget (m_segments s') x = Some g /\ valid_bmp g = 0 /\ same_owner s s'.
Proof.
  intros H Ht. destruct (take_free_segment_spec s q x temp H Ht)
    as (s' & n & Hr & Hw & Hu & Hc & Hx & Hg & Ho).
  eexists s', _. split_and!; [done|done| |done|done|done|exact Hg|done|].
  2: { intros b Hb Hl. destruct (BlockToSeg_main _ Hb) as (_ & Hs & Hk).
    destruct (decide (b / BLOCK_PER_SEG = x)) as [E|Hne].
    { exfalso. by apply (free_dead s (x :: q) x b H ltac:(set_solver) E ltac:(lia)). }
    unfold owner_of. destruct (segs_at _ _ _ H Hs) as [h Hh]. destruct (Ho _ _ Hne Hh) as [n' Hn'].
    by rewrite Hn', Hh. }
  intros b Hb. destruct (BlockToSeg_main _ Hb) as (_ & Hs & Hk).
  destruct (decide (b / BLOCK_PER_SEG = x)) as [E|Hne].
  - split; [|intros Hl; by destruct (free_dead s (x :: q) x b H ltac:(set_solver) E ltac:(lia))].
    unfold blk_live. rewrite E, Hg. intros (k & [= <-] & Hk1). cbn in Hk1. by rewrite Z.bits_0 in Hk1.
  - unfold blk_live. destruct (segs_at _ _ _ H Hs) as [h Hh]. destruct (Ho _ _ Hne Hh) as [n' Hn']. rewrite Hn', Hh.
    split; intros (k & [= <-] & Hk1); eexists; (split; [done|]); exact Hk1.
Qed.

Lemma live_cur s l : same_live s (set_cur_segs l s).
Proof. intros b Hb. done. Qed.
Lemma live_cache s n o : same_live s (set_data_cache n o s).
Proof. intros b Hb. done. Qed.

(** The segment is chosen: [cur_block] holds and nothing else changed. *)
Lemma choose_spec gc (s : Fs) q temp seg blk :
  segs_wf (fs_segs s) q -> target (fs_segs s) q temp seg blk -> BT_FF < temp < BT_TEMP_NR ->
  forall page force, exists g gg,
    (forall phy s', runs (write_to_curseg page temp false) (set_segs gg s) phy s' ->
      runs (curseg <- on_segs (curseg_at temp) ;;
        if is_invalid16 (seg_no curseg) then
          seg <- AllocSegment_with gc temp false force ;;
          if is_invalid16 seg then on_segs clear_data_cache ;;; ret INVALID16
          else
            on_segs (curseg_put temp (mkCurseg seg 0)) ;;;
            write_to_curseg page temp false
        else write_to_curseg page temp false) s phy s') /\
    segs_wf gg (q_rest (fs_segs s) q temp) /\ cur_block gg (q_rest (fs_segs s) q temp) temp seg blk g /\
    same_live (fs_segs s) gg /\ same_owner (fs_segs s) gg /\
    m_used_blk_nr gg = m_used_blk_nr (fs_segs s) /\
    (forall t, t <> temp -> aget (m_cur_segs gg) t = aget (m_cur_segs (fs_segs s)) t).
Proof.
  intros Hw Ht Htemp page force. destruct Ht as [seg blk g Hc|seg q' b Hc -> Hfree].
  - assert (q_rest (fs_segs s) q temp = q) as ->.
    { unfold q_rest. rewrite (cb_cur _ _ _ _ _ _ Hc). cbn [seg_no].
      pose proof (cb_range _ _ _ _ _ _ Hw Hc). by rewrite (proj2 (Z.eqb_neq _ _)) by clia. }
    exists g, (fs_segs s). split_and!; [|done..]. intros phy s' Hr.
    eapply runs_bind; [apply on_segs_keeps; unfold runs, curseg_at, bind, get, opt; by rewrite (cb_cur _ _ _ _ _ _ Hc)|].
    cbn [seg_no]. pose proof (cb_range _ _ _ _ _ _ Hw Hc). rewrite (proj2 (Z.eqb_neq _ _)) by clia.
    by destruct s.
  - assert (q_rest (fs_segs s) (seg :: q') temp = q') as -> by (unfold q_rest; by rewrite Hc).
    destruct (take_live (fs_segs s) q' seg temp Hw) as (g1 & g & Hr1 & Hw1 & Hl1 & Hu1 & Hc1 & Hx & Hg & Hb0 & Ho1);
      [lia|].
    pose proof (aget_bounds _ _ _ Hc) as Hb. pose proof (queue_range _ _ seg Hw ltac:(set_solver)) as Hsr.
    exists g, (set_cur_segs (<[Z.to_nat temp := mkCurseg seg 0]> (m_cur_segs g1)) g1).
    split_and!.
    + intros phy s' Hr.
      eapply runs_bind; [apply on_segs_keeps; unfold runs, curseg_at, bind, get, opt; by rewrite Hc|].
      cbn [seg_no]. change (is_invalid16 INVALID16) with true. cbn match.
      apply (runs_bind _ _ _ seg (set_segs g1 s)).
      * unfold AllocSegment_with. eapply runs_bind; [done|].
        destruct (sw_queue _ _ Hw) as (Htl & Hhd & _).
        assert (Hh : 0 <= m_free_head (fs_segs s) < MAIN_SEG_NR).
        { eapply queue_range; [apply Hw|]. by apply last_Some_elem_of. }
        rewrite Htl. rewrite !(proj2 (Z.eqb_neq _ _)) by clia. cbn [orb].
        rewrite (proj2 (Z.leb_gt _ _)) by done. cbn [andb].
        eapply runs_bind; [done|]. by apply on_segs_runs.
      * rewrite (proj2 (Z.eqb_neq _ _)) by clia. eapply runs_bind; [|exact Hr].
        apply (on_segs_runs _ (set_segs g1 s)). unfold runs, curseg_put, bind, get, opt, put. cbn.
        rewrite aset_is_Some by (rewrite Hc1; lia). done.
    + destruct Hw1 as [Hq1 Hus1]. constructor; [|exact Hus1]. apply q_cur; [done|].
      rewrite length_insert. apply Hq1.
    + constructor; cbn.
      * rewrite aget_insert_eq by (rewrite Hc1; lia). done.
      * clia.
      * done.
      * done.
      * by rewrite Hb0.
    + intros x Hxr. rewrite <- (Hl1 x Hxr). done.
    + intros x Hxr Hxl. rewrite <- (Ho1 x Hxr Hxl). done.
    + done.
    + intros t Ht. cbn. rewrite aget_insert_ne by lia. by rewrite Hc1.
Qed.
End Choose.

Section WriteBlock.
Context {St : Type} `{HB : BlockStore St, HL : !BlockStoreLaws St}.
Abbreviation Fs := (CF2fsSimulator St).

Lemma WriteBlockToSeg_spec (s : Fs) q fl l pg p seg blk force :
  segs_wf (fs_segs s) q -> pages_wf (fs_pages s) fl ->
  aget (m_pages (fs_pages s)) pg = Some p -> in_use p = true ->
  page_blk_ok (fs_segs s) p -> bs_rep (m_storage s) l ->
  target (fs_segs s) q (GetBlockTemp (data p)) seg blk ->
  exists s', runs (WriteBlockToSeg (InCache pg) force) s (seg * BLOCK_PER_SEG + blk) s' /\
    write_post s (q_rest (fs_segs s) q (GetBlockTemp (data p))) fl l pg p (GetBlockTemp (data p)) seg blk false s'.
Proof.
  intros Hw Hp Hg Hu Hb Hs Ht. set (temp := GetBlockTemp (data p)) in *.
  assert (Htemp : BT_FF < temp < BT_TEMP_NR).
  { subst temp. unfold GetBlockTemp. destruct (_ || _); clia. }
  destruct (on_pages_upd s fl pg p (set_ttemp temp) Hp Hg Hu Hu) as (pa & Hr1 & Hp1 & Hg1 & Ho1).
  set (g0 := set_data_cache (nid p) (offset p) (fs_segs s)).
  set (s2 := set_segs g0 (set_pages pa s)).
  assert (Hw2 : segs_wf g0 q). { destruct Hw as [Hq Hus]. constructor; [by apply q_cache|exact Hus]. }
  assert (Ht2 : target g0 q temp seg blk).
  { destruct Ht as [? ? g []|]; [eapply target_open; by constructor|by eapply target_new]. }
  destruct (choose_spec GarbageCollection s2 q temp seg blk Hw2 Ht2 Htemp (InCache pg) force)
    as (g & gg & Hrun & Hw3 & Hc3 & Hl3 & Ho3 & Hu3 & Hcu3).
  destruct (write_to_curseg_spec (set_segs gg s2) (q_rest (fs_segs s) q temp) fl l pg (set_ttemp temp p) temp seg blk g false)
    as (s' & Hr4 & Hpost); [done|done|done|done|done| |done|].
  { destruct Hb as [Hb|[Hb1 Hb2]]; [by left|right; split; [done|]]. by apply (Hl3 _ Hb1). }
  exists s'. split.
  - unfold WriteBlockToSeg, WriteBlockToSeg_with. eapply runs_bind; [by apply on_pages_at|].
    cbn zeta. eapply runs_bind; [exact Hr1|]. eapply runs_bind; [by apply (on_segs_runs _ (set_pages pa s))|].
    apply Hrun. exact Hr4.
  - destruct Hpost as [P1 P2 P3 P4 P5 P5' P6 P6' P7 P8 P9 P10]. constructor; try done.
    + rewrite P3. cbn. by rewrite Hu3.
    + intros b Hbr. rewrite (P4 b Hbr). cbn. rewrite (Hl3 b Hbr). done.
    + intros b Hbr Hlb Hne. rewrite (P5' b Hbr); [exact (Ho3 b Hbr Hlb)|by apply (Hl3 b Hbr)|exact Hne].
    + intros t Htt. rewrite (P6' t Htt). exact (Hcu3 t Htt).
    + intros y Hy. etrans; [exact (P9 y Hy)|exact (Ho1 y Hy)].
Qed.

(** C5: writing a block.  When the current segment of the page's temperature
    has room, or more segments than the reserve are free, [WriteBlockToSeg]
    appends the page's data to the medium at the next block of that segment,
    or at the start of the first free one; that block becomes live and is
    recorded as owned by the page's node and offset, the block the page had
    before, and no other, stops being live, every other live block keeps its
    owner, segments are only added to the queue of free ones, the count of used
    blocks stays exact, the segment is closed when it is full, and the page is
    clean and knows its block.  Nothing else of the cache, the node table or the
    checkpoint changes. *)
Theorem WriteBlockToSeg_correct (s : Fs) q fl l pg p seg blk force :
  segs_wf (fs_segs s) q -> pages_wf (fs_pages s) fl ->
  aget (m_pages (fs_pages s)) pg = Some p -> in_use p = true ->
  page_blk_ok (fs_segs s) p -> bs_rep (m_storage s) l ->
  target (fs_segs s) q (GetBlockTemp (data p)) seg blk ->
  exists s', runs (WriteBlockToSeg (InCache pg) force) s (seg * BLOCK_PER_SEG + blk) s' /\
    write_post s (q_rest (fs_segs s) q (GetBlockTemp (data p))) fl l pg p (GetBlockTemp (data p)) seg blk false s'.
Proof. apply WriteBlockToSeg_spec. Qed.
End WriteBlock.

(** A formatted volume and one page of file data, never written. *)
Definition page_filled : CPageInfo :=
  set_addr 9 2 (set_data (mkBlock BLOCK_FILE_DATA (U_file (mkFileData 9 2 1))) page_Init).
Definition pages_filled : CPageAllocator :=
  (page_upd 0 (fun _ => page_filled) pages_example).2.
Definition fs_formatted : CF2fsSimulator LogStore :=
  mkFs CKPT_BLOCK_zero formatted nat_example2 (mkLog [] 0) (mkInfo 0 0 0 0 0 0 0 0 0 0 0 0 0)
    pages_filled [] 0 0 0 0 0 0 0 page_local.
Lemma pages_filled_wf : pages_wf pages_filled [1].
Proof.
  destruct (page_upd_spec pages_example [1] 0 page_Init (fun _ => page_filled)) as (pa & Hr & Hw & _);
    [apply pages_example_wf|by vm_compute..|].
  unfold pages_filled. unfold runs in Hr. by rewrite Hr.
Qed.
Lemma formatted_target : target formatted (range 0 MAIN_SEG_NR) BT_HOT__DATA 0 0.
Proof.
  apply (target_new _ _ _ 0 (range 1 MAIN_SEG_NR) INVALID16); vm_compute; reflexivity.
Qed.
Lemma WriteBlockToSeg_correct_witness :
  exists s', runs (WriteBlockToSeg (InCache 0) false) fs_formatted 0 s' /\
    log (m_storage s') = [(seg_to_lba 0 0, data page_filled)] /\ blk_live (fs_segs s') 0 /\
    owner_of (fs_segs s') 0 = Some (9, 2).
Proof.
  destruct (WriteBlockToSeg_correct fs_formatted (range 0 MAIN_SEG_NR) [1] [] 0
    page_filled 0 0 false) as (s' & Hr & []).
  - exact formatted_wf.
  - exact pages_filled_wf.
  - by vm_compute.
  - by vm_compute.
  - left. by vm_compute.
  - reflexivity.
  - exact formatted_target.
  - exists s'. split; [exact Hr|]. split; [exact wp_store0|]. split; [|exact wp_owner0].
    apply wp_live0; [clia|by left].
Defined.
