(* ===== verification/WriteRoom.v ===== *)
(** WriteRoom: how many blocks can still be written without collecting
    garbage, and that one write takes one of them. *)
From S2P Require Export WriteInv.

(** Where the blocks of a temperature go: its current segment is closed, or it
    is not queued and every block from the next one on is free. *)
Inductive cur_ok (s : Segs) (q : list Z) (temp : Z) : Prop :=
  | cur_closed b : aget (m_cur_segs s) temp = Some (mkCurseg INVALID16 b) -> cur_ok s q temp
  | cur_open seg blk g : aget (m_cur_segs s) temp = Some (mkCurseg seg blk) ->
      0 <= blk < BLOCK_PER_SEG -> aget (m_segments s) seg = Some g -> seg ∉ q ->
      (forall j, blk <= j < BLOCK_PER_SEG -> Z.testbit (valid_bmp g) j = false) -> cur_ok s q temp.

(** The blocks left in the current segment, and in the segments that are free
    beyond the reserve. *)
Definition cur_room (s : Segs) (temp : Z) : Z :=
  match aget (m_cur_segs s) temp with
  | Some c => if is_invalid16 (seg_no c) then 0 else BLOCK_PER_SEG - blk_offset c
  | None => 0
  end.
Definition write_room (s : Segs) (q : list Z) (temp : Z) : Z :=
  cur_room s temp + BLOCK_PER_SEG * Z.max 0 (Z.of_nat (length q) - RESERVED_SEG).

Lemma seg_range s q seg g : segs_wf s q -> aget (m_segments s) seg = Some g -> 0 <= seg < MAIN_SEG_NR.
Proof. intros H Hg%aget_bounds. by rewrite (sw_len _ _ H) in Hg. Qed.

Lemma room_target s q temp : segs_wf s q -> cur_ok s q temp -> 0 < write_room s q temp ->
  exists seg blk, target s q temp seg blk.
Proof.
  intros Hw Hc. destruct Hc as [b Hc|seg blk g Hc Hb Hg Hq Hfree].
  - unfold write_room, cur_room. rewrite Hc. cbn. intros Hr. destruct q as [|seg q']; [cbn in Hr; clia|].
    exists seg, 0. eapply target_new; [exact Hc|done|]. rewrite (sw_nr _ _ Hw). lia.
  - intros _. exists seg, blk. eapply target_open. constructor; [done|done|exact Hg|done|]. apply Hfree. lia.
Qed.

Lemma target_range s q temp seg blk : segs_wf s q -> target s q temp seg blk ->
  0 <= seg < MAIN_SEG_NR /\ 0 <= blk < BLOCK_PER_SEG.
Proof.
  intros Hw [? ? g Hc|? q' b Hc -> _].
  - split; [by eapply cb_range|apply Hc].
  - split; [eapply queue_range; [apply Hw|set_solver]|clia].
Qed.

Lemma div_block seg blk : 0 <= blk < BLOCK_PER_SEG ->
  (seg * BLOCK_PER_SEG + blk) / BLOCK_PER_SEG = seg /\ (seg * BLOCK_PER_SEG + blk) mod BLOCK_PER_SEG = blk.
Proof.
  intros Hb. split.
  - symmetry. apply (Z.div_unique _ _ _ blk); clia.
  - symmetry. apply (Z.mod_unique _ _ seg); clia.
Qed.

Lemma target_dead s q temp seg blk : segs_wf s q -> target s q temp seg blk ->
  ~ blk_live s (seg * BLOCK_PER_SEG + blk).
Proof.
  intros Hw Ht. pose proof (target_range _ _ _ _ _ Hw Ht) as [Hs Hb].
  destruct Ht as [seg blk g Hc|seg q' b Hc -> _]; [by apply (cur_block_dead _ _ _ _ _ _ Hw Hc)|].
  apply (free_dead s (seg :: q') seg); [done|set_solver|by apply div_block|clia].
Qed.

Section Room.
Context {St : Type} `{HB : BlockStore St, HL : !BlockStoreLaws St}.
Abbreviation Fs := (CF2fsSimulator St).
Implicit Types s : Fs.

(** A segment that holds a live block is not queued. *)
Lemma live_not_queued (g : Segs) q seg blk : segs_wf g q -> 0 <= seg -> 0 <= blk < BLOCK_PER_SEG ->
  blk_live g (seg * BLOCK_PER_SEG + blk) -> seg ∉ q.
Proof.
  intros Hw Hs Hb Hl Hq. revert Hl. apply (free_dead g q seg); [done|done|by apply div_block|clia].
Qed.

(** After a write, the segment written to is open behind the block, or closed;
    one block less can be written. *)
Lemma write_keeps_room s q fl l pg p temp seg blk by_gc s' :
  segs_wf (fs_segs s) q -> cur_ok (fs_segs s) q temp -> target (fs_segs s) q temp seg blk ->
  page_blk_ok (fs_segs s) p ->
  write_post s (q_rest (fs_segs s) q temp) fl l pg p temp seg blk by_gc s' ->
  exists q', segs_wf (fs_segs s') q' /\ cur_ok (fs_segs s') q' temp /\
    write_room (fs_segs s) q temp - 1 <= write_room (fs_segs s') q' temp.
Proof.
  intros Hw Hc Ht Hp Hpost. pose proof (target_range _ _ _ _ _ Hw Ht) as [Hsr Hbr].
  destruct (wp_segs _ _ _ _ _ _ _ _ _ _ _ Hpost) as [ext Hw'].
  pose proof (wp_cur _ _ _ _ _ _ _ _ _ _ _ Hpost) as Hcur.
  pose proof (wp_live _ _ _ _ _ _ _ _ _ _ _ Hpost) as Hlive.
  exists (q_rest (fs_segs s) q temp ++ ext). split; [done|]. split.
  - destruct (Z.leb_spec BLOCK_PER_SEG (blk + 1)) as [Hfull|Hlt]; [by eapply cur_closed|].
    destruct (segs_at _ _ _ Hw' Hsr) as [g' Hg']. eapply cur_open; [exact Hcur|lia|exact Hg'| |].
    + apply (live_not_queued _ _ seg blk Hw'); [lia|lia|]. apply Hlive; [clia|by left].
    + intros j Hj. apply not_true_iff_false. intros Hbit.
      destruct (div_block seg j ltac:(lia)) as [Ed Em].
      assert (Hl : blk_live (fs_segs s') (seg * BLOCK_PER_SEG + j)) by (exists g'; by rewrite Ed, Em).
      apply Hlive in Hl as [Heq|[Hl _]]; [lia| |clia]. revert Hl.
      destruct Ht as [seg blk g Hcb|seg q1 b Hc1 -> _].
      * destruct Hc as [b Hc|seg1 blk1 g1 Hc H1 Hg Hq Hfree].
        { destruct Hcb as [C1 _ _ _ _]. rewrite Hc in C1. injection C1 as ? ?. clia. }
        destruct Hcb as [C1 _ _ _ _]. rewrite Hc in C1. injection C1 as -> ->.
        intros (h & Hh & Hth). rewrite Ed in Hh. rewrite Em in Hth.
        assert (g1 = h) as -> by congruence. rewrite Hfree in Hth by lia. done.
      * apply (free_dead (fs_segs s) (seg :: q1) seg); [done|set_solver|done|clear -Hsr Hj; clia].
  - assert (Hcr : cur_room (fs_segs s') temp = BLOCK_PER_SEG - (blk + 1)).
    { unfold cur_room. rewrite Hcur. cbn. destruct (Z.leb_spec BLOCK_PER_SEG (blk + 1)); cbn; [clia|].
      by rewrite (proj2 (Z.eqb_neq _ _)) by clia. }
    unfold write_room. rewrite Hcr, length_app. unfold cur_room, q_rest.
    destruct Ht as [seg blk g Hcb|seg q1 b Hc1 -> Hnr].
    + rewrite (cb_cur _ _ _ _ _ _ Hcb). cbn [seg_no blk_offset]. rewrite (proj2 (Z.eqb_neq _ _)) by clia. clear -Hbr. clia.
    + rewrite Hc1. cbn [seg_no blk_offset tail length]. change (is_invalid16 INVALID16) with true. cbn match.
      rewrite (sw_nr _ _ Hw) in Hnr. cbn [length] in *. clia.
Qed.
End Room.
