(* ===== verification/Journal.v ===== *)
(** Journal: the NAT and SIT journals of the checkpoint, the flushing of the
    tables and their loading (f2fs_nat.cpp, f2fs_segment.cpp).

    [nat_pages], [sit_pages]: the local arrays of page pointers, threaded
    through the functions that fill them. *)
From S2P Require Export Node.

Definition set_nat_bits (jnr bits : Z) (h : CKPT_HEAD) : CKPT_HEAD :=
  mkCkptHead (cur_segs h) jnr (sit_journal_nr h) (sit_ver_bitmap h) bits (ver_open h) (ver_close h).
Definition set_sit_bits (jnr bits : Z) (h : CKPT_HEAD) : CKPT_HEAD :=
  mkCkptHead (cur_segs h) (nat_journal_nr h) jnr bits (nat_ver_bitmap h) (ver_open h) (ver_close h).
Definition set_header (h : CKPT_HEAD) (c : CKPT_BLOCK) : CKPT_BLOCK :=
  mkCkpt h (nat_journals c) (sit_journals c).
Definition set_nat_journal_nr (n : Z) (c : CKPT_BLOCK) : CKPT_BLOCK :=
  set_header (set_nat_bits n (nat_ver_bitmap (header c)) (header c)) c.
Definition set_nat_ver (b : Z) (c : CKPT_BLOCK) : CKPT_BLOCK :=
  set_header (set_nat_bits (nat_journal_nr (header c)) b (header c)) c.
Definition set_nat_journals (l : list NAT_JOURNAL_ENTRY) (c : CKPT_BLOCK) : CKPT_BLOCK :=
  mkCkpt (header c) l (sit_journals c).
Definition set_sit_journal_nr (n : Z) (c : CKPT_BLOCK) : CKPT_BLOCK :=
  set_header (set_sit_bits n (sit_ver_bitmap (header c)) (header c)) c.
Definition set_sit_ver (b : Z) (c : CKPT_BLOCK) : CKPT_BLOCK :=
  set_header (set_sit_bits (sit_journal_nr (header c)) b (header c)) c.
Definition set_sit_journals (l : list SIT_JOURNAL_ENTRY) (c : CKPT_BLOCK) : CKPT_BLOCK :=
  mkCkpt (header c) (nat_journals c) l.

Section Journal.
Context {St : Type} `{BlockStore St}.
Abbreviation Fs := (CF2fsSimulator St).
Abbreviation pages_t := (list (option Z)).

(** * Where the current and the next copy of a metadata block are *)
Definition get_nat_block (nn : Z) (c : CKPT_BLOCK) : Z :=
  let blk := nn + NAT_START_BLK in
  if Z.land (nat_ver_bitmap (header c)) (mask nn) =? 0 then blk else blk + NAT_BLK_NR.
Definition get_nat_next_block (nn : Z) : M Fs Z :=
  on_ckpt (modify (fun c => set_nat_ver (Z.lxor (nat_ver_bitmap (header c)) (mask nn)) c)) ;;;
  s <- get ;; ret (get_nat_block nn (m_checkpoint s)).
Definition get_sit_block (sit_blk : Z) (c : CKPT_BLOCK) : Z :=
  let blk := sit_blk + SIT_START_BLK in
  if Z.land (sit_ver_bitmap (header c)) (mask sit_blk) =? 0 then blk else blk + SIT_BLK_NR.
Definition get_sit_next_block (sit_blk : Z) : M Fs Z :=
  on_ckpt (modify (fun c => set_sit_ver (Z.lxor (sit_ver_bitmap (header c)) (mask sit_blk)) c)) ;;;
  s <- get ;; ret (get_sit_block sit_blk (m_checkpoint s)).

(** The page of a metadata block, read when the array has none for it. *)
Definition cached_page (pages : pages_t) (i : Z) (blk : CKPT_BLOCK -> Z) : M Fs (pages_t * Z) :=
  e <- opt (aget pages i) ;;
  match e with
  | Some pg => ret (pages, pg)
  | None =>
      pg <- on_pages allocate ;;
      s <- get ;;
      read_page (blk (m_checkpoint s)) (InCache pg) ;;;
      pages' <- opt (aset pages i (Some pg)) ;;
      ret (pages', pg)
  end.

(** * NAT *)
Definition f2fs_out_nat_journal (nat_pages : pages_t) : M Fs pages_t :=
  s <- get ;;
  pages <- mfold (range 0 (nat_journal_nr (header (m_checkpoint s)))) nat_pages (fun pages ii =>
    s <- get ;;
    j <- opt (aget (nat_journals (m_checkpoint s)) ii) ;;
    let nat_blk_id := nj_nid j / NAT_ENTRY_PER_BLK in
    let offset := nj_nid j mod NAT_ENTRY_PER_BLK in
    r <- cached_page pages nat_blk_id (get_nat_block nat_blk_id) ;;
    b <- body_at r.2 ;;
    t <- opt (as_nat b) ;;
    l <- opt (aset (nat_entries t) offset (nj_phy_blk j)) ;;
    upd_body r.2 (fun _ => U_nat (mkNatBlock l)) ;;;
    ret r.1) ;;
  on_ckpt (modify (set_nat_journal_nr 0)) ;;;
  ret pages.

Definition f2fs_flush_nat_entries : M Fs unit :=
  pages0 <- f2fs_out_nat_journal (replicate (Z.to_nat NAT_BLK_NR) None) ;;
  pages <- mfold (range 0 NODE_NR) pages0 (fun pages nid =>
    d <- on_nat (nat_is_dirty nid) ;;
    if d =? 0 then ret pages else
    s <- get ;;
    pages' <- (if JOURNAL_NR <=? nat_journal_nr (header (m_checkpoint s))
               then f2fs_out_nat_journal pages else ret pages) ;;
    s <- get ;;
    let index := nat_journal_nr (header (m_checkpoint s)) in
    v <- opt (aget (nat_table (fs_nat s)) nid) ;;
    js <- opt (aset (nat_journals (m_checkpoint s)) index (mkNatJ nid v)) ;;
    on_ckpt (modify (set_nat_journals js)) ;;;
    on_nat (nat_clear_dirty nid) ;;;
    on_ckpt (modify (set_nat_journal_nr (w32 (index + 1)))) ;;;
    ret pages') ;;
  mfor (range 0 NAT_BLK_NR) (fun nn =>
    e <- opt (aget pages nn) ;;
    match e with
    | None => ret tt
    | Some pg =>
        blk <- get_nat_next_block nn ;;
        write_page blk (InCache pg) ;;;
        on_pages (free (Some pg))
    end).

(** [CNodeAddressTable::Load].  The pages it reads into are not freed. *)
Definition nat_Load : M Fs unit :=
  mfor (range 0 NAT_BLK_NR) (fun nn =>
    pg <- on_pages allocate ;;
    s <- get ;;
    read_page (get_nat_block nn (m_checkpoint s)) (InCache pg) ;;;
    b <- body_at pg ;;
    t <- opt (as_nat b) ;;
    on_nat (modify (fun n =>
      let at_ := Z.to_nat (nn * NAT_ENTRY_PER_BLK) in
      mkNat (node_cache n) (free_nr n)
        (take at_ (nat_table n) ++ nat_entries t ++ drop (at_ + Z.to_nat NAT_ENTRY_PER_BLK) (nat_table n))
        (nat_dirty n) (next_scan n)))) ;;;
  s <- get ;;
  if JOURNAL_NR <? nat_journal_nr (header (m_checkpoint s))
  then throw (FsError ERR_INVALID_CHECKPOINT) else
  mfor (range 0 (nat_journal_nr (header (m_checkpoint s)))) (fun ii =>
    s <- get ;;
    j <- opt (aget (nat_journals (m_checkpoint s)) ii) ;;
    on_nat (set_nat_entry (nj_nid j) (nj_phy_blk j))) ;;;
  on_nat build_free ;;;
  on_nat (modify (set_nat_dirty_map (rep NAT_BLK_NR 0))).

(** * SIT *)
Definition f2fs_out_sit_journal (sit_pages : pages_t) : M Fs pages_t :=
  s <- get ;;
  pages <- mfold (range 0 (sit_journal_nr (header (m_checkpoint s)))) sit_pages (fun pages ii =>
    s <- get ;;
    j <- opt (aget (sit_journals (m_checkpoint s)) ii) ;;
    let sit_blk_id := sj_seg_no j / SIT_ENTRY_PER_BLK in
    let offset := sj_seg_no j mod SIT_ENTRY_PER_BLK in
    r <- cached_page pages sit_blk_id (get_sit_block sit_blk_id) ;;
    b <- body_at r.2 ;;
    t <- opt (as_sit b) ;;
    l <- opt (aset (sit_entries t) offset (sj_seg_info j)) ;;
    upd_body r.2 (fun _ => U_sit (mkSitBlock l)) ;;;
    ret r.1) ;;
  on_ckpt (modify (set_sit_journal_nr 0)) ;;;
  ret pages.

Definition f2fs_flush_sit_entries : M Fs unit :=
  pages0 <- f2fs_out_sit_journal (replicate (Z.to_nat SIT_BLK_NR) None) ;;
  pages <- mfold (range 0 MAIN_SEG_NR) pages0 (fun pages seg =>
    d <- on_segs (seg_is_dirty seg) ;;
    if d =? 0 then ret pages else
    s <- get ;;
    pages' <- (if JOURNAL_NR <=? sit_journal_nr (header (m_checkpoint s))
               then f2fs_out_sit_journal pages else ret pages) ;;
    s <- get ;;
    let index := sit_journal_nr (header (m_checkpoint s)) in
    info <- on_segs (fill_seg_info seg) ;;
    js <- opt (aset (sit_journals (m_checkpoint s)) index (mkSitJ seg info)) ;;
    on_ckpt (modify (set_sit_journals js)) ;;;
    on_segs (seg_clear_dirty seg) ;;;
    on_ckpt (modify (set_sit_journal_nr (w32 (index + 1)))) ;;;
    ret pages') ;;
  mfor (range 0 SIT_BLK_NR) (fun ii =>
    e <- opt (aget pages ii) ;;
    match e with
    | None => ret tt
    | Some pg =>
        blk <- get_sit_next_block ii ;;
        write_page blk (InCache pg) ;;;
        on_pages (free (Some pg))
    end).

(** The number of segments in a block of the table. *)
Definition sit_copy_nr (seg_id : Z) : Z :=
  if MAIN_SEG_NR <? seg_id + SIT_ENTRY_PER_BLK then MAIN_SEG_NR - seg_id else SIT_ENTRY_PER_BLK.

(** [SyncSIT].  The page keeps the entries of the block written before. *)
Definition SyncSIT : M Fs unit :=
  pg <- on_pages allocate ;;
  mfor (range 0 (MAIN_SEG_NR / SIT_ENTRY_PER_BLK)) (fun blk =>
    s <- get ;;
    w <- opt (aget (m_dirty_map (fs_segs s)) blk) ;;
    when (negb (w =? 0)) (
      let seg_id := blk * SIT_ENTRY_PER_BLK in
      mfor (range 0 (sit_copy_nr seg_id)) (fun ii =>
        b <- body_at pg ;;
        t <- opt (as_sit b) ;;
        info <- on_segs (fill_seg_info (seg_id + ii)) ;;
        l <- opt (aset (sit_entries t) ii info) ;;
        upd_body pg (fun _ => U_sit (mkSitBlock l))) ;;;
      write_page (blk + SIT_START_BLK) (InCache pg))) ;;;
  on_pages (free (Some pg)).

(** [SyncSSA] *)
Definition SyncSSA : M Fs unit :=
  pg <- on_pages allocate ;;
  mfor (range 0 MAIN_SEG_NR) (fun seg_id =>
    d <- on_segs (seg_is_dirty seg_id) ;;
    when (negb (d =? 0)) (
      g <- on_segs (seg_at seg_id) ;;
      upd_body pg (fun _ => U_ssa (mkSummaryBlock (zip_with mkSummary (nids g) (offsets g)))) ;;;
      write_page (seg_id + SSA_START_BLK) (InCache pg))) ;;;
  on_pages (free (Some pg)).

(** [CF2fsSegmentManager::Load] *)
Definition segs_Load : M Fs unit :=
  pg <- on_pages allocate ;;
  mfor (range 0 (MAIN_SEG_NR / SIT_ENTRY_PER_BLK)) (fun ss =>
    s <- get ;;
    read_page (get_sit_block ss (m_checkpoint s)) (InCache pg) ;;;
    b <- body_at pg ;;
    t <- opt (as_sit b) ;;
    let seg_id := ss * SIT_ENTRY_PER_BLK in
    mfor (range 0 (sit_copy_nr seg_id)) (fun ii =>
      info <- opt (aget (sit_entries t) ii) ;;
      on_segs (read_seg_info info (seg_id + ii)))) ;;;
  s <- get ;;
  on_segs (modify (set_cur_segs (cur_segs (header (m_checkpoint s))))) ;;;
  if JOURNAL_NR <? sit_journal_nr (header (m_checkpoint s))
  then throw (FsError ERR_INVALID_CHECKPOINT) else
  mfor (range 0 (sit_journal_nr (header (m_checkpoint s)))) (fun ii =>
    s <- get ;;
    j <- opt (aget (sit_journals (m_checkpoint s)) ii) ;;
    on_segs (read_seg_info (sj_seg_info j) (sj_seg_no j))) ;;;
  mfor (range 0 MAIN_SEG_NR) (fun seg_id =>
    read_page (SSA_START_BLK + seg_id) (InCache pg) ;;;
    b <- body_at pg ;;
    t <- opt (as_ssa b) ;;
    on_segs (seg_upd seg_id (set_owners (sum_nid <$> sum_entries t) (sum_offset <$> sum_entries t)))) ;;;
  on_pages (free (Some pg)) ;;;
  on_segs (modify (set_dirty_map (rep SIT_BLK_NR 0))) ;;;
  on_segs build_free_link.
End Journal.

(** Checkpoint: two copies, of which a mount takes the newer valid one
    (f2fs_simulator.cpp). *)
Section Checkpoint.
Context {St : Type} `{BlockStore St}.
Abbreviation Fs := (CF2fsSimulator St).

Definition set_vers (o c : Z) (h : CKPT_HEAD) : CKPT_HEAD :=
  mkCkptHead (cur_segs h) (nat_journal_nr h) (sit_journal_nr h) (sit_ver_bitmap h)
    (nat_ver_bitmap h) o c.
Definition set_header_cur_segs (l : list CURSEG_INFO) (c : CKPT_BLOCK) : CKPT_BLOCK :=
  let h := header c in
  set_header (mkCkptHead l (nat_journal_nr h) (sit_journal_nr h) (sit_ver_bitmap h)
                (nat_ver_bitmap h) (ver_open h) (ver_close h)) c.

Definition ckpt_base (ckpt_id : Z) : Z := CKPT_START_BLK + ckpt_id * CKPT_BLK_NR.
(** The entries of the SIT journal in block [ii] of a checkpoint. *)
Definition sit_slice (ii : Z) (js : list SIT_JOURNAL_ENTRY) : list SIT_JOURNAL_ENTRY :=
  take (Z.to_nat SIT_JOURNAL_PER_BLK) (drop (Z.to_nat (ii * SIT_JOURNAL_PER_BLK)) js).

Definition save_checkpoint (ckpt_id : Z) : M Fs unit :=
  check ((ckpt_id =? 0) || (ckpt_id =? 1)) ;;;
  let base_blk := ckpt_base ckpt_id in
  on_ckpt (modify (fun c =>
    let h := header c in set_header (set_vers (w32 (ver_open h + 1)) (ver_close h) h) c)) ;;;
  s <- get ;;
  store_write base_blk (mkBlock BLOCK_CKPT_HEADER (U_ckpt_header (header (m_checkpoint s)))) ;;;
  store_write (base_blk + 1)
    (mkBlock BLOCK_CKPT_NAT_JOURNAL (U_ckpt_nat (nat_journals (m_checkpoint s)))) ;;;
  mfor (range 0 SIT_JOURNAL_BLK) (fun ii =>
    s <- get ;;
    store_write (base_blk + 2 + ii)
      (mkBlock BLOCK_CKPT_SIT_JOURNAL (U_ckpt_sit (sit_slice ii (sit_journals (m_checkpoint s)))))) ;;;
  on_ckpt (modify (fun c =>
    let h := header c in set_header (set_vers (ver_open h) (w32 (ver_close h + 1)) h) c)) ;;;
  s <- get ;;
  store_write base_blk (mkBlock BLOCK_CKPT_HEADER (U_ckpt_header (header (m_checkpoint s)))).

Definition f2fs_write_checkpoint : M Fs unit :=
  f2fs_flush_nat_entries ;;;
  f2fs_flush_sit_entries ;;;
  s <- get ;;
  on_ckpt (modify (set_header_cur_segs (m_cur_segs (fs_segs s)))) ;;;
  modify (fun s => set_cur_ckpt (Z.lxor (m_cur_ckpt s) 1) s) ;;;
  s <- get ;;
  save_checkpoint (m_cur_ckpt s).

(** The version of a checkpoint, 0 when it is not valid, and its header. *)
Definition ckpt_version (ii : Z) : M Fs (Z * CKPT_HEAD) :=
  d <- store_read (CKPT_START_BLK + ii * CKPT_BLK_NR) ;;
  if negb (m_type d =? BLOCK_CKPT_HEADER) then ret (0, CKPT_HEAD_zero) else
  h <- opt (as_ckpt_header (body d)) ;;
  if negb (ver_open h =? ver_close h) then ret (0, h) else
  modify (fun s => set_health_ckpt (m_health_ckpt s + 1) s) ;;;
  ret (ver_close h, h).

Definition load_checkpoint : M Fs Z :=
  modify (set_health_ckpt 0) ;;;
  c0 <- ckpt_version 0 ;;
  c1 <- ckpt_version 1 ;;
  let v0 := c0.1 in
  let v1 := c1.1 in
  cur_ckpt <-
    (if negb (v0 =? 0) && negb (v1 =? 0) then
       if v0 =? v1 then throw (FsError ERR_CKPT_FAIL) else ret (if v0 <? v1 then 1 else 0)
     else if negb (v0 =? 0) then ret 0
     else if negb (v1 =? 0) then ret 1
     else throw (FsError ERR_CKPT_FAIL)) ;;
  let base_blk := ckpt_base cur_ckpt in
  on_ckpt (modify (set_header (if cur_ckpt =? 0 then c0.2 else c1.2))) ;;;
  d <- store_read (base_blk + 1) ;;
  nj <- opt (as_ckpt_nat (body d)) ;;
  on_ckpt (modify (set_nat_journals nj)) ;;;
  mfor (range 0 SIT_JOURNAL_BLK) (fun ii =>
    d <- store_read (base_blk + 2 + ii) ;;
    sj <- opt (as_ckpt_sit (body d)) ;;
    on_ckpt (modify (fun c =>
      let at_ := Z.to_nat (ii * SIT_JOURNAL_PER_BLK) in
      set_sit_journals (take at_ (sit_journals c) ++ sj ++
        drop (at_ + Z.to_nat SIT_JOURNAL_PER_BLK) (sit_journals c)) c))) ;;;
  modify (set_cur_ckpt cur_ckpt) ;;;
  ret cur_ckpt.
End Checkpoint.
