(* ===== verification/TableFlush.v ===== *)
(** TableFlush: the journaled tables of the checkpoint.

    The node address table and the segment information table are kept the same
    way: the medium has two copies of every block of the table, a bitmap in the
    checkpoint says which is current, and the newest changes are in a journal
    in the checkpoint.  The functions of f2fs_nat.cpp and f2fs_segment.cpp that
    flush them are two copies of one algorithm, which is verified here once;
    both are instances of it. *)
From S2P Require Export Journal WriteInv.

(** The value a journal gives to a key: the last one. *)
Definition jlast {J E} (jkey : J -> Z) (jval : J -> E) (js : list J) (i : Z) : option E :=
  foldl (fun acc j => if jkey j =? i then Some (jval j) else acc) None js.

Lemma jlast_snoc {J E} (jkey : J -> Z) (jval : J -> E) js j i :
  jlast jkey jval (js ++ [j]) i = if jkey j =? i then Some (jval j) else jlast jkey jval js i.
Proof. unfold jlast. by rewrite foldl_app. Qed.

(** The pages an array of page pointers holds. *)
Definition held (pages : list (option Z)) : nat := length (omap id pages).

Lemma held_insert pages nn pg : aget pages nn = Some None ->
  held (<[Z.to_nat nn := Some pg]> pages) = S (held pages).
Proof.
  intros [_ H]%aget_Some. revert H. generalize (Z.to_nat nn). unfold held.
  induction pages as [|e pages IH]; intros [|k] H; [done|done| |].
  - injection H as ->. done.
  - change (<[S k := Some pg]> (e :: pages)) with (e :: <[k := Some pg]> pages). cbn in H |- *.
    destruct e; cbn [length]; by rewrite (IH _ H).
Qed.
Lemma held_delete pages nn pg : aget pages nn = Some (Some pg) ->
  S (held (<[Z.to_nat nn := None]> pages)) = held pages.
Proof.
  intros [_ H]%aget_Some. revert H. generalize (Z.to_nat nn). unfold held.
  induction pages as [|e pages IH]; intros [|k] H; [done|done| |].
  - injection H as ->. done.
  - change (<[S k := None]> (e :: pages)) with (e :: <[k := None]> pages). cbn in H |- *.
    destruct e; cbn [length]; by rewrite <- (IH _ H).
Qed.
Lemma held_le pages : (held pages <= length pages)%nat.
Proof. unfold held. induction pages as [|[pg|] pages IH]; cbn; lia. Qed.
Lemma held_lt pages nn : aget pages nn = Some None -> (held pages < length pages)%nat.
Proof.
  intros [_ H]%aget_Some. revert H. generalize (Z.to_nat nn). unfold held.
  induction pages as [|e pages IH]; intros [|k] H; [done|done| |].
  - injection H as ->. pose proof (held_le pages) as Hp. unfold held in Hp. cbn. lia.
  - cbn in H |- *. specialize (IH _ H). destruct e; cbn [length]; lia.
Qed.
Lemma held_none n : held (replicate n None) = 0%nat.
Proof. induction n as [|n IH]; [done|exact IH]. Qed.

Section Flush.
Context {St : Type} `{HB : BlockStore St, HL : !BlockStoreLaws St}.
Abbreviation Fs := (CF2fsSimulator St).
Abbreviation pages_t := (list (option Z)).

(** ** The table: its blocks, its journal and its bitmap *)
Context {E J T : Type} (as_t : BLOCK_UNION -> option T) (ents : T -> list E) (mk : list E -> BLOCK_UNION).
Context (per nblk start n : Z) (jkey : J -> Z) (jval : J -> E) (mkj : Z -> E -> J).
Context (jnr : CKPT_BLOCK -> Z) (set_jnr : Z -> CKPT_BLOCK -> CKPT_BLOCK).
Context (journals : CKPT_BLOCK -> list J) (set_journals : list J -> CKPT_BLOCK -> CKPT_BLOCK).
Context (ver : CKPT_BLOCK -> Z) (set_ver : Z -> CKPT_BLOCK -> CKPT_BLOCK).
(** ** The table in memory *)
Context (is_dirty : Z -> M Fs Z) (value : Fs -> Z -> M Fs E) (clear : Z -> M Fs unit).

Definition dec (u : BLOCK_UNION) : option (list E) := ents <$> as_t u.
Definition addr (nn : Z) (c : CKPT_BLOCK) : Z :=
  let blk := nn + start in
  if Z.land (ver c) (mask nn) =? 0 then blk else blk + nblk.
Definition next_addr (nn : Z) : M Fs Z :=
  on_ckpt (modify (fun c => set_ver (Z.lxor (ver c) (mask nn)) c)) ;;;
  s <- get ;; ret (addr nn (m_checkpoint s)).

(** ** The algorithm *)
Definition out_entry (pages : pages_t) (ii : Z) : M Fs pages_t :=
  s <- get ;;
  j <- opt (aget (journals (m_checkpoint s)) ii) ;;
  let blk_id := jkey j / per in
  let offset := jkey j mod per in
  r <- cached_page pages blk_id (addr blk_id) ;;
  b <- body_at r.2 ;;
  t <- opt (as_t b) ;;
  l <- opt (aset (ents t) offset (jval j)) ;;
  upd_body r.2 (fun _ => mk l) ;;;
  ret r.1.
Definition out_journal (pages : pages_t) : M Fs pages_t :=
  s <- get ;;
  pages <- mfold (range 0 (jnr (m_checkpoint s))) pages out_entry ;;
  on_ckpt (modify (set_jnr 0)) ;;;
  ret pages.
Definition flush_entry (pages : pages_t) (i : Z) : M Fs pages_t :=
  d <- is_dirty i ;;
  if d =? 0 then ret pages else
  s <- get ;;
  pages' <- (if JOURNAL_NR <=? jnr (m_checkpoint s) then out_journal pages else ret pages) ;;
  s <- get ;;
  let index := jnr (m_checkpoint s) in
  v <- value s i ;;
  js <- opt (aset (journals (m_checkpoint s)) index (mkj i v)) ;;
  on_ckpt (modify (set_journals js)) ;;;
  clear i ;;;
  on_ckpt (modify (set_jnr (w32 (index + 1)))) ;;;
  ret pages'.
Definition write_back (pages : pages_t) (nn : Z) : M Fs unit :=
  e <- opt (aget pages nn) ;;
  match e with
  | None => ret tt
  | Some pg =>
      blk <- next_addr nn ;;
      write_page blk (InCache pg) ;;;
      on_pages (free (Some pg))
  end.
Definition flush : M Fs unit :=
  pages0 <- out_journal (replicate (Z.to_nat nblk) None) ;;
  pages <- mfold (range 0 n) pages0 flush_entry ;;
  mfor (range 0 nblk) (write_back pages).

(** ** Meaning

    The blocks on the medium, the blocks as the page array has them, and the
    table they make with the journal. *)
Definition disk (l : wlog) (c : CKPT_BLOCK) (nn : Z) : option (list E) :=
  b ← log_read (addr nn c) l; dec (body b).
Definition vblk (pa : CPageAllocator) (pages : pages_t) (l : wlog) (c : CKPT_BLOCK) (nn : Z) : option (list E) :=
  e ← aget pages nn;
  match e with
  | Some pg => p ← aget (m_pages pa) pg; dec (body (data p))
  | None => disk l c nn
  end.
Definition entry (blk : Z -> option (list E)) (i : Z) : option E := t ← blk (i / per); aget t (i mod per).
Definition logged (c : CKPT_BLOCK) : list J := take (Z.to_nat (jnr c)) (journals c).
Definition eff (blk : Z -> option (list E)) (c : CKPT_BLOCK) (i : Z) : option E :=
  match jlast jkey jval (logged c) i with Some v => Some v | None => entry blk i end.
(** The table a mount would find. *)
Definition stored (l : wlog) (c : CKPT_BLOCK) (i : Z) : option E := eff (disk l c) c i.

(** ** Laws of the parts *)
Context (Hdec : forall l, dec (mk l) = Some l).
Context (Hper : 0 < per) (Hnblk : 0 < nblk) (Hstart : 0 <= start) (Hend : start + 2 * nblk <= TOTAL_BLOCK_NR)
  (Hn : 0 <= n <= per * nblk).

Lemma addr_cases nn c : 0 <= nn ->
  addr nn c = if Z.testbit (ver c) nn then nn + start + nblk else nn + start.
Proof. intros H. unfold addr. rewrite land_mask by done. by destruct (Z.testbit (ver c) nn). Qed.

Lemma addr_range nn c : 0 <= nn < nblk -> start <= addr nn c < start + 2 * nblk.
Proof. intros H. rewrite addr_cases by lia. destruct (Z.testbit _ _); lia. Qed.

Lemma addr_ok nn c : 0 <= nn < nblk -> lba_ok (addr nn c).
Proof. intros H%(addr_range _ c). unfold lba_ok. lia. Qed.

Lemma addr_inj nn k c c' : 0 <= nn < nblk -> 0 <= k < nblk -> addr nn c = addr k c' -> nn = k.
Proof. intros H1 H2. rewrite !addr_cases by lia. repeat destruct (Z.testbit _ _); lia. Qed.

(** The state of a flush: the page array [pages], the free pages [fl] and the
    log [l]; [K] pages are free or held. *)
Record finv (K : nat) (l : wlog) (s : Fs) (pages : pages_t) (fl : list Z) : Prop := {
  fi_store : bs_rep (m_storage s) l;
  fi_pages : pages_wf (fs_pages s) fl;
  fi_len : Z.of_nat (length pages) = nblk;
  fi_room : (length fl + held pages)%nat = K;
  fi_blk nn : 0 <= nn < nblk -> exists t,
    vblk (fs_pages s) pages l (m_checkpoint s) nn = Some t /\ Z.of_nat (length t) = per;
  fi_used nn pg : aget pages nn = Some (Some pg) ->
    exists p, aget (m_pages (fs_pages s)) pg = Some p /\ in_use p = true;
  fi_inj nn k pg : aget pages nn = Some (Some pg) -> aget pages k = Some (Some pg) -> nn = k
}.
Definition blocks (l : wlog) (s : Fs) (pages : pages_t) : Z -> option (list E) :=
  vblk (fs_pages s) pages l (m_checkpoint s).

Lemma page_of K l s pages fl nn : finv K l s pages fl -> 0 <= nn < nblk ->
  exists e, aget pages nn = Some e.
Proof. intros H Hb. apply aget_is_Some. by rewrite (fi_len _ _ _ _ _ H). Qed.

(** Reading a block into a page, when there is none yet. *)
Lemma cached_page_spec K l s pages fl nn :
  finv K l s pages fl -> nblk <= Z.of_nat K -> 0 <= nn < nblk ->
  exists pages' pg pa fl', runs (cached_page pages nn (addr nn)) s (pages', pg) (set_pages pa s) /\
    finv K l (set_pages pa s) pages' fl' /\ aget pages' nn = Some (Some pg) /\
    (forall k, 0 <= k < nblk -> blocks l (set_pages pa s) pages' k = blocks l s pages k).
Proof.
  intros H HK Hb. destruct (page_of _ _ _ _ _ _ H Hb) as [[pg|] He].
  { exists pages, pg, (fs_pages s), fl. rewrite set_pages_id.
    split_and!; [unfold cached_page; by rewrite He|exact H|exact He|reflexivity]. }
  pose proof (held_lt _ _ He) as Hlt. pose proof (fi_room _ _ _ _ _ H) as Hroom.
  pose proof (fi_len _ _ _ _ _ H) as Hlen.
  destruct fl as [|x fl]; [cbn in *; lia|]. pose proof (aget_bounds _ _ _ He) as Hbn.
  destruct (allocate_spec _ _ _ (fi_pages _ _ _ _ _ H)) as (pa & Hr & Hp & Hx & Ho).
  destruct (fi_blk _ _ _ _ _ H nn Hb) as (t & Ht & Htl).
  pose proof Ht as Hd. unfold vblk in Hd. rewrite He in Hd. cbn in Hd. unfold disk in Hd.
  destruct (log_read (addr nn (m_checkpoint s)) l) as [b|] eqn:Hlog; [|done]. cbn in Hd.
  destruct (page_upd_spec pa fl x page_Init (set_data b) Hp Hx) as (pa' & Hr' & Hp' & Hx' & Ho'); [done|done|].
  assert (Hother : forall k pg, aget pages k = Some (Some pg) -> pg <> x /\
    aget (m_pages pa') pg = aget (m_pages (fs_pages s)) pg).
  { intros k pg Hk. destruct (fi_used _ _ _ _ _ H k pg Hk) as (p & Hpg & Hin).
    assert (pg <> x).
    { intros ->. pose proof (proj2 (pw_free _ _ (fi_pages _ _ _ _ _ H) x p Hpg) (list_elem_of_here x fl)). congruence. }
    split; [done|]. by rewrite Ho', Ho. }
  assert (Hsame : forall k, 0 <= k < nblk ->
    blocks l (set_pages pa' s) (<[Z.to_nat nn := Some x]> pages) k = blocks l s pages k).
  { intros k Hk. unfold blocks, vblk. cbn. rewrite aget_insert by lia.
    destruct (Z.eqb_spec nn k) as [<-|Hne].
    - cbn. rewrite Hx', He. cbn. unfold disk. by rewrite Hlog.
    - destruct (page_of _ _ _ _ _ _ H Hk) as [[pg|] Hk']; rewrite Hk'; cbn; [|done].
      by rewrite (proj2 (Hother _ _ Hk')). }
  exists (<[Z.to_nat nn := Some x]> pages), x, pa', fl. split_and!.
  - unfold cached_page. rewrite He. eapply runs_bind; [done|]. cbn match.
    eapply runs_bind; [by apply on_pages_runs|]. eapply runs_bind; [done|].
    eapply runs_bind.
    { unfold read_page. eapply runs_bind.
      - eapply store_read_spec; [apply H|by apply addr_ok|exact Hlog].
      - apply (on_pages_runs _ (set_pages pa s)). exact Hr'. }
    rewrite aset_is_Some by lia. done.
  - constructor; cbn; [apply H|done|by rewrite length_insert| | | |].
    + rewrite (held_insert _ _ _ He). cbn in Hroom. lia.
    + intros k Hk. pose proof (Hsame k Hk) as Hs. unfold blocks in Hs. cbn in Hs. rewrite Hs. by apply H.
    + intros k pg. destruct (decide (k = nn)) as [->|Hne].
      * rewrite aget_insert_eq by lia. intros [= <-]. by eexists.
      * rewrite aget_insert_ne by lia. intros Hk. rewrite (proj2 (Hother _ _ Hk)). by eapply fi_used.
    + intros k1 k2 pg. destruct (decide (k1 = nn)) as [->|N1], (decide (k2 = nn)) as [->|N2];
        rewrite ?aget_insert_eq, ?aget_insert_ne by lia; try done.
      * intros [= <-] Hk. by destruct (Hother _ _ Hk).
      * intros Hk [= <-]. by destruct (Hother _ _ Hk).
      * apply H.
  - by rewrite aget_insert_eq by lia.
  - done.
Qed.

(** Changing a block in its page. *)
Lemma put_block_spec K l s pages fl nn pg l' :
  finv K l s pages fl -> aget pages nn = Some (Some pg) -> Z.of_nat (length l') = per ->
  exists pa, runs (upd_body pg (fun _ => mk l')) s tt (set_pages pa s) /\
    finv K l (set_pages pa s) pages fl /\
    (forall k, 0 <= k < nblk -> blocks l (set_pages pa s) pages k = if k =? nn then Some l' else blocks l s pages k).
Proof.
  intros H Hpg Hl'. destruct (fi_used _ _ _ _ _ H nn pg Hpg) as (p & Hp & Hu).
  destruct (page_upd_spec (fs_pages s) fl pg p (fun p => set_data (mkBlock (m_type (data p)) (mk l')) p)
    (fi_pages _ _ _ _ _ H) Hp Hu Hu) as (pa & Hr & Hwf & Hpg' & Ho).
  assert (Hsame : forall k, 0 <= k < nblk ->
    blocks l (set_pages pa s) pages k = if k =? nn then Some l' else blocks l s pages k).
  { intros k Hk. unfold blocks, vblk. cbn. destruct (Z.eqb_spec k nn) as [->|Hne].
    - rewrite Hpg. cbn. rewrite Hpg'. cbn. apply Hdec.
    - destruct (page_of _ _ _ _ _ _ H Hk) as [[pg'|] Hk']; rewrite Hk'; cbn; [|done].
      rewrite Ho; [done|]. intros ->. apply Hne. eapply (fi_inj _ _ _ _ _ H); [exact Hk'|exact Hpg]. }
  exists pa. split_and!; [by apply on_pages_runs| |exact Hsame].
  constructor; cbn; try apply H; [done| |].
  - intros k Hk. pose proof (Hsame k Hk) as Hs. unfold blocks in Hs. cbn in Hs. rewrite Hs.
    destruct (k =? nn); [by eexists|by apply H].
  - intros k pg' Hk. destruct (decide (pg' = pg)) as [->|Hne]; [by eexists|].
    rewrite Ho by done. by eapply fi_used.
Qed.

(** ** The journal *)
Context (Hjnr : forall m c, jnr (set_jnr m c) = m) (Hjnr_js : forall l c, jnr (set_journals l c) = jnr c)
  (Hjnr_v : forall v c, jnr (set_ver v c) = jnr c).
Context (Hjs : forall l c, journals (set_journals l c) = l) (Hjs_nr : forall m c, journals (set_jnr m c) = journals c)
  (Hjs_v : forall v c, journals (set_ver v c) = journals c).
Context (Hver : forall v c, ver (set_ver v c) = v) (Hver_nr : forall m c, ver (set_jnr m c) = ver c)
  (Hver_js : forall l c, ver (set_journals l c) = ver c).
Context (Hkey : forall i v, jkey (mkj i v) = i) (Hval : forall i v, jval (mkj i v) = v).

Record cinv (c : CKPT_BLOCK) : Prop := {
  ci_len : Z.of_nat (length (journals c)) = JOURNAL_NR;
  ci_nr : 0 <= jnr c <= JOURNAL_NR;
  ci_key j : j ∈ logged c -> 0 <= jkey j < n
}.

Lemma addr_ver nn c c' : ver c' = ver c -> addr nn c' = addr nn c.
Proof. intros H. unfold addr. by rewrite H. Qed.
Lemma disk_ver l nn c c' : ver c' = ver c -> disk l c' nn = disk l c nn.
Proof. intros H. unfold disk. by rewrite (addr_ver nn c c' H). Qed.
Lemma blocks_ckpt l s pages c k : ver c = ver (m_checkpoint s) ->
  blocks l (set_ckpt c s) pages k = blocks l s pages k.
Proof.
  intros H. unfold blocks, vblk. cbn. destruct (aget pages k) as [[pg|]|]; cbn; [done| |done].
  by apply disk_ver.
Qed.
Lemma finv_ckpt K l s pages fl c : ver c = ver (m_checkpoint s) ->
  finv K l s pages fl -> finv K l (set_ckpt c s) pages fl.
Proof.
  intros Hv H. constructor; try apply H. intros nn Hb.
  pose proof (blocks_ckpt l s pages c nn Hv) as Eb. unfold blocks in Eb. cbn in Eb |- *. rewrite Eb. by apply H.
Qed.

Lemma key_block i : 0 <= i < n -> 0 <= i / per < nblk /\ 0 <= i mod per < per.
Proof.
  intros Hi. split; [|by apply Z.mod_pos_bound]. split; [apply Z.div_pos; lia|].
  apply Z.div_lt_upper_bound; nia.
Qed.

Lemma entry_put (blk blk' : Z -> option (list E)) t i v : 0 <= i < n ->
  blk (i / per) = Some t -> Z.of_nat (length t) = per ->
  (forall k, 0 <= k < nblk ->
     blk' k = if k =? i / per then Some (<[Z.to_nat (i mod per) := v]> t) else blk k) ->
  forall i', 0 <= i' < n -> entry blk' i' = if i =? i' then Some v else entry blk i'.
Proof.
  intros Hi Ht Hl Hb i' Hi'. destruct (key_block i Hi) as [Hq Hr], (key_block i' Hi') as [Hq' Hr'].
  unfold entry. rewrite (Hb _ Hq'). destruct (Z.eqb_spec (i' / per) (i / per)) as [E1|N1].
  - cbn. rewrite aget_insert by lia. rewrite E1, Ht. cbn.
    destruct (Z.eqb_spec (i mod per) (i' mod per)) as [E2|N2].
    + rewrite (proj2 (Z.eqb_eq i i')); [done|].
      rewrite (Z.div_mod i per), (Z.div_mod i' per) by lia. by rewrite E1, E2.
    + rewrite (proj2 (Z.eqb_neq i i')); [done|]. by intros ->.
  - rewrite (proj2 (Z.eqb_neq i i')); [done|]. by intros ->.
Qed.

Lemma out_entry_spec K l s pages fl ii j :
  finv K l s pages fl -> nblk <= Z.of_nat K -> aget (journals (m_checkpoint s)) ii = Some j ->
  0 <= jkey j < n ->
  exists pages' pa fl', runs (out_entry pages ii) s pages' (set_pages pa s) /\
    finv K l (set_pages pa s) pages' fl' /\
    (forall i, 0 <= i < n -> entry (blocks l (set_pages pa s) pages') i =
       if jkey j =? i then Some (jval j) else entry (blocks l s pages) i).
Proof.
  intros H HK Hj Hk. destruct (key_block _ Hk) as [Hq Hr].
  destruct (cached_page_spec K l s pages fl (jkey j / per) H HK Hq)
    as (pages' & pg & pa & fl' & Hrun & H1 & Hpg & Hsame).
  destruct (fi_blk _ _ _ _ _ H1 _ Hq) as (t & Ht & Hlen).
  destruct (fi_used _ _ _ _ _ H1 _ _ Hpg) as (p & Hp & Hu).
  pose proof Ht as Hd. unfold vblk in Hd. rewrite Hpg in Hd. cbn in Hd, Hp. rewrite Hp in Hd. cbn in Hd.
  unfold dec in Hd. destruct (as_t (body (data p))) as [tt'|] eqn:Has; [|done]. cbn in Hd. injection Hd as Hd.
  destruct (put_block_spec K l _ pages' fl' _ pg (<[Z.to_nat (jkey j mod per) := jval j]> t) H1 Hpg)
    as (pa' & Hrun' & H2 & Hsame'); [by rewrite length_insert|].
  exists pages', pa', fl'. split_and!; [|exact H2|].
  - unfold out_entry. eapply runs_bind; [done|]. rewrite Hj. eapply runs_bind; [done|]. cbn zeta.
    eapply runs_bind; [exact Hrun|]. cbn [snd fst].
    eapply runs_bind.
    { unfold body_at, data_at. eapply runs_bind; [|done]. eapply runs_bind; [|done].
      apply on_pages_keeps. unfold runs, page_at, bind, get, opt. cbn. by rewrite Hp. }
    rewrite Has. eapply runs_bind; [done|]. rewrite Hd. rewrite aset_is_Some by lia.
    eapply runs_bind; [done|]. eapply runs_bind; [exact Hrun'|done].
  - apply (entry_put _ _ t); [done| |done|].
    + rewrite <- (Hsame _ Hq). exact Ht.
    + intros k Hkb. rewrite <- (Hsame k Hkb). exact (Hsame' k Hkb).
Qed.

Lemma jlast_take_succ (js : list J) ii j i : aget js ii = Some j ->
  jlast jkey jval (take (Z.to_nat (ii + 1)) js) i =
  if jkey j =? i then Some (jval j) else jlast jkey jval (take (Z.to_nat ii) js) i.
Proof.
  intros [H0 Hj]%aget_Some. replace (Z.to_nat (ii + 1)) with (S (Z.to_nat ii)) by lia.
  by rewrite (take_S_r _ _ _ Hj), jlast_snoc.
Qed.

Lemma out_loop_spec K l s pages fl : finv K l s pages fl -> nblk <= Z.of_nat K -> cinv (m_checkpoint s) ->
  exists pages' pa fl',
    runs (mfold (range 0 (jnr (m_checkpoint s))) pages out_entry) s pages' (set_pages pa s) /\
    finv K l (set_pages pa s) pages' fl' /\
    (forall i, 0 <= i < n -> entry (blocks l (set_pages pa s) pages') i = eff (blocks l s pages) (m_checkpoint s) i).
Proof.
  intros H HK [C1 C2 C3]. set (c := m_checkpoint s) in *.
  set (Inv := fun (m : Z) (pages' : pages_t) (t : Fs) => exists pa fl', t = set_pages pa s /\ finv K l t pages' fl' /\
    forall i, 0 <= i < n -> entry (blocks l t pages') i =
      match jlast jkey jval (take (Z.to_nat m) (journals c)) i with
      | Some v => Some v | None => entry (blocks l s pages) i end).
  enough (Hl : wp (mfold (range 0 (jnr c)) pages out_entry) (fun pages' t => Inv (jnr c) pages' t) (fun _ _ => False) s).
  { apply wp_runs in Hl as (pages' & t & Hr & (pa & fl' & -> & H' & He)). by exists pages', pa, fl'. }
  assert (Hlen : forall dn x rest, range 0 (jnr c) = dn ++ x :: rest -> Z.of_nat (length dn) = x /\ 0 <= x < jnr c).
  { intros dn x rest Hs. pose proof (range_split _ _ _ _ _ Hs) as (Hd & _ & Hx).
    split; [|lia]. rewrite Hd. unfold range. rewrite length_seqZ. lia. }
  eapply wp_mono; [apply (wp_mfold _ _ _ (fun dn a t => Inv (Z.of_nat (length dn)) a t) (fun _ _ => False))| |done].
  - exists (fs_pages s), fl. rewrite set_pages_id. split_and!; [done|done|]. intros i Hi. done.
  - intros dn x rest pages1 t Hs (pa & fl1 & -> & H1 & He1). destruct (Hlen _ _ _ Hs) as [Hx Hxr].
    destruct (aget_is_Some (journals c) x) as [j Hj]; [lia|].
    assert (Hkj : 0 <= jkey j < n).
    { apply C3. unfold logged. pose proof Hj as [_ Hl]%aget_Some. apply list_elem_of_lookup.
      exists (Z.to_nat x). rewrite lookup_take_lt by lia. done. }
    destruct (out_entry_spec K l (set_pages pa s) pages1 fl1 x j H1 HK Hj Hkj)
      as (pages2 & pa2 & fl2 & Hr & H2 & He2).
    apply (runs_wp _ _ _ _ _ _ Hr). exists pa2, fl2. split_and!; [done|exact H2|].
    intros i Hi. rewrite length_app. cbn [length].
    replace (Z.of_nat (length dn + 1)) with (x + 1) by lia.
    rewrite (jlast_take_succ _ _ j) by done.
    etrans; [exact (He2 i Hi)|]. destruct (jkey j =? i); [done|]. rewrite Hx in He1. by apply He1.
  - intros pages' t Hi. unfold range in Hi. rewrite length_seqZ in Hi. replace (Z.of_nat _) with (jnr c) in Hi by lia. exact Hi.
Qed.

Lemma out_journal_spec K l s pages fl : finv K l s pages fl -> nblk <= Z.of_nat K -> cinv (m_checkpoint s) ->
  exists pages' pa fl', let s' := set_ckpt (set_jnr 0 (m_checkpoint s)) (set_pages pa s) in
    runs (out_journal pages) s pages' s' /\ finv K l s' pages' fl' /\
    (forall i, 0 <= i < n -> entry (blocks l s' pages') i = eff (blocks l s pages) (m_checkpoint s) i).
Proof.
  intros H HK Hc. destruct (out_loop_spec K l s pages fl H HK Hc) as (pages' & pa & fl' & Hr & H' & He).
  exists pages', pa, fl'. cbn zeta. split_and!.
  - unfold out_journal. eapply runs_bind; [done|]. eapply runs_bind; [exact Hr|]. done.
  - apply finv_ckpt; [by rewrite Hver_nr|done].
  - intros i Hi. rewrite <- (He i Hi). unfold entry. destruct (key_block i Hi) as [Hq _].
    rewrite blocks_ckpt by (by rewrite Hver_nr). done.
Qed.

(** ** The table in memory: a part of the state *)
Context {Mem : Type} (mem : Fs -> Mem) (set_mem : Mem -> Fs -> Fs).
Context (mem_ok : Mem -> Prop) (dirtyp : Mem -> Z -> bool) (tab : Mem -> Z -> option E).
(** What the flush leaves alone, in the state and in the checkpoint. *)
Context (frame : Fs -> Fs -> Prop) (cframe : CKPT_BLOCK -> CKPT_BLOCK -> Prop).
Context `{!PreOrder frame, !PreOrder cframe}.
Context (Hmem_pages : forall pa s, mem (set_pages pa s) = mem s) (Hmem_ckpt : forall c s, mem (set_ckpt c s) = mem s)
  (Hmem_store : forall st s, mem (set_store st s) = mem s) (Hmem : forall m s, mem (set_mem m s) = m).
Context (Hset_pages : forall m s, fs_pages (set_mem m s) = fs_pages s)
  (Hset_ckpt : forall m s, m_checkpoint (set_mem m s) = m_checkpoint s)
  (Hset_store : forall m s, m_storage (set_mem m s) = m_storage s).
Context (Hf_pages : forall pa s, frame s (set_pages pa s)) (Hf_ckpt : forall c s, frame s (set_ckpt c s))
  (Hf_store : forall st s, frame s (set_store st s)) (Hf_mem : forall m s, frame s (set_mem m s)).
Context (Hc_nr : forall m c, cframe c (set_jnr m c)) (Hc_js : forall l c, cframe c (set_journals l c))
  (Hc_v : forall v c, cframe c (set_ver v c)).
Context (His_dirty : forall s i, mem_ok (mem s) -> 0 <= i < n ->
  exists d, runs (is_dirty i) s d s /\ (d =? 0) = negb (dirtyp (mem s) i)).
Context (Hvalue : forall s i, mem_ok (mem s) -> 0 <= i < n ->
  exists v, runs (value s i) s v s /\ tab (mem s) i = Some v).
Context (Hclear : forall s i, mem_ok (mem s) -> 0 <= i < n ->
  exists m, runs (clear i) s tt (set_mem m s) /\ mem_ok m /\
    (forall j, 0 <= j < n -> dirtyp m j = dirtyp (mem s) j && negb (j =? i)) /\
    (forall j, 0 <= j < n -> tab m j = tab (mem s) j)).

Lemma finv_mem K l s pages fl m : finv K l s pages fl -> finv K l (set_mem m s) pages fl.
Proof.
  intros []. constructor; rewrite ?Hset_pages, ?Hset_ckpt, ?Hset_store; done.
Qed.
Lemma blocks_mem l s pages m k : blocks l (set_mem m s) pages k = blocks l s pages k.
Proof. unfold blocks. by rewrite Hset_pages, Hset_ckpt. Qed.

Lemma eff_ext blk blk' c i : 0 <= i < n -> (forall k, 0 <= k < nblk -> blk' k = blk k) -> eff blk' c i = eff blk c i.
Proof. intros Hi H. unfold eff, entry. by rewrite (H _ (proj1 (key_block i Hi))). Qed.

(** The state of the loop over the entries, before entry [i]. *)
Record linv (K : nat) (l : wlog) (s0 : Fs) (i : Z) (pages : pages_t) (s : Fs) : Prop := {
  ln_f : exists fl, finv K l s pages fl;
  ln_c : cinv (m_checkpoint s);
  ln_mem : mem_ok (mem s);
  ln_eff j : 0 <= j < n -> dirtyp (mem s) j = false ->
    eff (blocks l s pages) (m_checkpoint s) j = tab (mem s) j;
  ln_tab j : 0 <= j < n -> tab (mem s) j = tab (mem s0) j;
  ln_clean j : 0 <= j < i -> dirtyp (mem s) j = false;
  ln_frame : frame s0 s;
  ln_cframe : cframe (m_checkpoint s0) (m_checkpoint s);
  ln_ver : ver (m_checkpoint s) = ver (m_checkpoint s0)
}.

(** Making room in the journal. *)
Lemma make_room K l s pages fl : finv K l s pages fl -> nblk <= Z.of_nat K -> cinv (m_checkpoint s) ->
  exists pages' pa c' fl', let s' := set_ckpt c' (set_pages pa s) in
    runs (if JOURNAL_NR <=? jnr (m_checkpoint s) then out_journal pages else ret pages) s pages' s' /\
    finv K l s' pages' fl' /\ cinv c' /\ jnr c' < JOURNAL_NR /\
    (forall i, 0 <= i < n -> eff (blocks l s' pages') c' i = eff (blocks l s pages) (m_checkpoint s) i) /\
    cframe (m_checkpoint s) c' /\ ver c' = ver (m_checkpoint s).
Proof.
  intros H HK Hc. destruct (Z.leb_spec JOURNAL_NR (jnr (m_checkpoint s))) as [Hfull|Hroom].
  - destruct (out_journal_spec K l s pages fl H HK Hc) as (pages' & pa & fl' & Hr & H' & He).
    assert (Hl : logged (set_jnr 0 (m_checkpoint s)) = []) by (unfold logged; by rewrite Hjnr).
    exists pages', pa, (set_jnr 0 (m_checkpoint s)), fl'. cbn zeta. split_and!; [done|done| |by rewrite Hjnr| |done|done].
    + destruct Hc as [C1 C2 C3]. constructor; [by rewrite Hjs_nr|rewrite Hjnr; clia|]. rewrite Hl. set_solver.
    + intros i Hi. rewrite <- (He i Hi). unfold eff. by rewrite Hl.
  - exists pages, (fs_pages s), (m_checkpoint s), fl. cbn zeta.
    assert (set_ckpt (m_checkpoint s) (set_pages (fs_pages s) s) = s) as -> by (by destruct s).
    split_and!; done.
Qed.

Lemma log_entry c i v : cinv c -> jnr c < JOURNAL_NR -> 0 <= i < n ->
  let c' := set_jnr (w32 (jnr c + 1)) (set_journals (<[Z.to_nat (jnr c) := mkj i v]> (journals c)) c) in
  cinv c' /\ (forall blk j, eff blk c' j = if i =? j then Some v else eff blk c j).
Proof.
  intros [C1 C2 C3] Hr Hi c'.
  assert (Hw : w32 (jnr c + 1) = jnr c + 1) by (unfold w32; apply Z.mod_small; clia).
  assert (Hl : logged c' = logged c ++ [mkj i v]).
  { unfold logged. subst c'. rewrite Hjnr, Hjs_nr, Hjs, Hw.
    replace (Z.to_nat (jnr c + 1)) with (S (Z.to_nat (jnr c))) by lia.
    rewrite (take_S_r _ _ (mkj i v)) by (apply list_lookup_insert_eq; clia).
    by rewrite take_insert_ge by lia. }
  split.
  - constructor.
    + subst c'. rewrite Hjs_nr, Hjs. by rewrite length_insert.
    + subst c'. rewrite Hjnr, Hw. lia.
    + intros j. rewrite Hl. intros [Hj| ->%list_elem_of_singleton]%elem_of_app; [by apply C3|by rewrite Hkey].
  - intros blk j. unfold eff. rewrite Hl, jlast_snoc, Hkey, Hval. by destruct (i =? j).
Qed.

Lemma flush_entry_spec K l s0 i pages s :
  linv K l s0 i pages s -> nblk <= Z.of_nat K -> 0 <= i < n ->
  exists pages' s', runs (flush_entry pages i) s pages' s' /\ linv K l s0 (i + 1) pages' s'.
Proof.
  intros L HK Hi. pose proof L as [[fl H] Hc Hm He Ht Hcl Hf Hcf Hv].
  destruct (His_dirty s i Hm Hi) as (d & Hd & Hdb). destruct (dirtyp (mem s) i) eqn:Hdirty.
  2: { exists pages, s. split.
    - unfold flush_entry. eapply runs_bind; [exact Hd|]. cbn in Hdb. by rewrite Hdb.
    - constructor; try done; [by exists fl|]. intros j Hj. destruct (decide (j = i)) as [->|]; [done|]. apply Hcl. lia. }
  destruct (make_room K l s pages fl H HK Hc) as (pages' & pa & c1 & fl' & Hr & H1 & Hc1 & Hnr & He1 & Hcf1 & Hv1).
  set (s1 := set_ckpt c1 (set_pages pa s)) in *.
  assert (Hm1 : mem s1 = mem s) by (subst s1; by rewrite Hmem_ckpt, Hmem_pages).
  destruct (Hvalue s1 i) as (v & Hval1 & Htab); [by rewrite Hm1|done|].
  set (c2 := set_journals (<[Z.to_nat (jnr c1) := mkj i v]> (journals c1)) c1).
  destruct (Hclear (set_ckpt c2 s1) i) as (m & Hr2 & Hm2 & Hd2 & Ht2); [by rewrite Hmem_ckpt, Hm1|done|].
  rewrite Hmem_ckpt, Hm1 in Hd2, Ht2.
  destruct (log_entry c1 i v Hc1 Hnr Hi) as [Hc3 He3]. set (c3 := set_jnr (w32 (jnr c1 + 1)) c2) in *.
  set (s3 := set_ckpt c3 (set_mem m (set_ckpt c2 s1))).
  assert (Hv3 : ver c3 = ver (m_checkpoint s)) by (unfold c3, c2; by rewrite Hver_nr, Hver_js).
  assert (Hck : m_checkpoint s3 = c3) by done.
  assert (Hfin : finv K l s3 pages' fl').
  { apply finv_ckpt; [rewrite Hset_ckpt; cbn; by rewrite Hv3, <- Hv1; unfold c2; rewrite Hver_js|].
    apply finv_mem. apply finv_ckpt; [|done]. cbn. unfold c2. by rewrite Hver_js. }
  assert (Hbl : forall k, blocks l s3 pages' k = blocks l s1 pages' k).
  { intros k. unfold s3. rewrite blocks_ckpt, blocks_mem, blocks_ckpt; [done| |].
    - cbn. unfold c2. by rewrite Hver_js.
    - rewrite Hset_ckpt. cbn. rewrite Hv3, <- Hv1. unfold c2. by rewrite Hver_js. }
  assert (Hmem3 : mem s3 = m) by (unfold s3; by rewrite Hmem_ckpt, Hmem).
  exists pages', s3. split.
  - unfold flush_entry. eapply runs_bind; [exact Hd|]. cbn in Hdb. rewrite Hdb.
    eapply runs_bind; [done|]. eapply runs_bind; [exact Hr|]. eapply runs_bind; [done|]. cbn zeta.
    eapply runs_bind; [exact Hval1|]. cbn [m_checkpoint s1 set_ckpt].
    destruct Hc1 as [C1 C2 C3]. rewrite aset_is_Some by clia.
    eapply runs_bind; [done|]. eapply runs_bind; [done|]. eapply runs_bind; [exact Hr2|].
    apply (runs_bind _ _ _ tt s3); [|done]. unfold s3, runs, on_ckpt, zoom, modify. by rewrite Hset_ckpt.
  - constructor; rewrite ?Hck, ?Hmem3; try done.
    + by exists fl'.
    + intros j Hj Hdj. rewrite He3, Ht2 by done. destruct (Z.eqb_spec i j) as [<-|Hne].
      * by rewrite <- Hm1.
      * rewrite Hd2, (proj2 (Z.eqb_neq j i)), andb_true_r in Hdj by (done || lia).
        rewrite <- (He j Hj Hdj), <- (He1 j Hj). unfold eff. destruct (jlast _ _ _ _); [done|].
        unfold entry. by rewrite Hbl.
    + intros j Hj. rewrite Ht2 by done. by apply Ht.
    + intros j Hj. rewrite Hd2 by lia. destruct (decide (j = i)) as [->|Hne].
      * by rewrite Z.eqb_refl, andb_false_r.
      * by rewrite Hcl by lia.
    + etrans; [exact Hf|]. etrans; [apply (Hf_pages pa)|]. etrans; [apply (Hf_ckpt c1)|].
      etrans; [apply (Hf_ckpt c2)|]. etrans; [apply (Hf_mem m)|]. apply Hf_ckpt.
    + etrans; [exact Hcf|]. etrans; [exact Hcf1|]. unfold c3, c2. etrans; [apply Hc_js|apply Hc_nr].
    + by rewrite Hv3.
Qed.

Lemma flush_loop_spec K l s0 pages s : linv K l s0 0 pages s -> nblk <= Z.of_nat K ->
  exists pages' s', runs (mfold (range 0 n) pages flush_entry) s pages' s' /\ linv K l s0 n pages' s'.
Proof.
  intros H HK. enough (Hl : wp (mfold (range 0 n) pages flush_entry) (fun a t => linv K l s0 n a t)
    (fun _ _ => False) s) by (apply wp_runs in Hl as (a & t & ? & ?); by exists a, t).
  assert (Hlen : forall dn x rest, range 0 n = dn ++ x :: rest -> Z.of_nat (length dn) = x /\ 0 <= x < n).
  { intros dn x rest Hs. pose proof (range_split _ _ _ _ _ Hs) as (Hd & _ & Hx).
    split; [|lia]. rewrite Hd. unfold range. rewrite length_seqZ. lia. }
  eapply wp_mono; [apply (wp_mfold _ _ _ (fun dn a t => linv K l s0 (Z.of_nat (length dn)) a t) (fun _ _ => False))| |done].
  - exact H.
  - intros dn x rest a t Hs Ha. destruct (Hlen _ _ _ Hs) as [Hx Hxr]. rewrite Hx in Ha.
    destruct (flush_entry_spec _ _ _ _ _ _ Ha HK Hxr) as (a' & t' & Hr & Ha').
    apply (runs_wp _ _ _ _ _ _ Hr). rewrite length_app. cbn [length].
    by replace (Z.of_nat (length dn + 1)) with (x + 1) by lia.
  - intros a t Ha. unfold range in Ha. rewrite length_seqZ in Ha. by replace (Z.of_nat _) with n in Ha by lia.
Qed.

(** ** Writing the blocks back, each to the copy that is not current *)
Lemma free_run (s : Fs) fl pg p : pages_wf (fs_pages s) fl -> aget (m_pages (fs_pages s)) pg = Some p -> in_use p = true ->
  exists pa, runs (on_pages (free (Some pg))) s tt (set_pages pa s) /\ pages_wf pa (pg :: fl) /\
    (forall y, y <> pg -> aget (m_pages pa) y = aget (m_pages (fs_pages s)) y).
Proof.
  intros H Hp Hu. destruct (free_spec _ _ _ _ H Hp Hu) as (pa & Hr & Hwf & _ & Ho).
  exists pa. split; [by apply on_pages_runs|done].
Qed.

Lemma disk_cons l c k a b : k < nblk -> 0 <= k -> a <> addr k c -> disk ((a, b) :: l) c k = disk l c k.
Proof. intros H1 H2 Ha. unfold disk. cbn. by rewrite (proj2 (Z.eqb_neq _ _)). Qed.

(** The block was written before: its page is no longer in the array. *)
Lemma write_back_page K l s g fl nn pg :
  finv K l s g fl -> 0 <= nn < nblk -> aget g nn = Some (Some pg) ->
  let c := m_checkpoint s in let c' := set_ver (Z.lxor (ver c) (mask nn)) c in
  exists b s', runs (blk <- next_addr nn ;; write_page blk (InCache pg) ;;; on_pages (free (Some pg))) s tt s' /\
    m_checkpoint s' = c' /\ mem s' = mem s /\ frame s s' /\
    finv K ((addr nn c', b) :: l) s' (<[Z.to_nat nn := None]> g) (pg :: fl) /\
    (forall k, 0 <= k < nblk -> blocks ((addr nn c', b) :: l) s' (<[Z.to_nat nn := None]> g) k = blocks l s g k) /\
    (forall k, 0 <= k -> k <> nn -> Z.testbit (ver c') k = Z.testbit (ver c) k) /\
    addr nn c' <> addr nn c.
Proof.
  intros H Hb Hpg c c'. pose proof (aget_bounds _ _ _ Hpg) as Hgb.
  destruct (fi_used _ _ _ _ _ H nn pg Hpg) as (p & Hp & Hu).
  assert (Hbit : forall k, 0 <= k -> Z.testbit (ver c') k = xorb (Z.testbit (ver c) k) (k =? nn)).
  { intros k Hk. unfold c'. rewrite Hver. apply testbit_lxor_mask; lia. }
  assert (Hne : forall k, 0 <= k < nblk -> k <> nn -> addr k c' = addr k c).
  { intros k Hk Hkn. rewrite !addr_cases by lia. rewrite Hbit by lia.
    by rewrite (proj2 (Z.eqb_neq k nn)), xorb_false_r by done. }
  assert (Hnew : addr nn c' <> addr nn c).
  { rewrite !addr_cases by lia. rewrite Hbit by lia. rewrite Z.eqb_refl.
    destruct (Z.testbit (ver c) nn); cbn; lia. }
  destruct (store_write_spec (set_ckpt c' s) l (addr nn c') (data p)) as (st & Hst & Hst').
  { apply H. } { by apply addr_ok. }
  set (s2 := set_store st (set_ckpt c' s)).
  destruct (free_run s2 fl pg p (fi_pages _ _ _ _ _ H) Hp Hu) as (pa & Hr & Hwf & Ho).
  assert (Hsame : forall k, 0 <= k < nblk ->
    blocks ((addr nn c', data p) :: l) (set_pages pa s2) (<[Z.to_nat nn := None]> g) k = blocks l s g k).
  { intros k Hk. unfold blocks, vblk. cbn [fs_pages m_checkpoint set_pages s2 set_store set_ckpt].
    rewrite aget_insert by lia. destruct (Z.eqb_spec nn k) as [<-|Hnk].
    - rewrite Hpg. cbn. rewrite Hp. cbn. unfold disk. cbn. by rewrite Z.eqb_refl.
    - destruct (page_of _ _ _ _ _ _ H Hk) as [[pg'|] Hk']; rewrite Hk'; cbn.
      + rewrite Ho; [done|]. intros ->. apply Hnk. eapply (fi_inj _ _ _ _ _ H); [exact Hpg|exact Hk'].
      + change (disk ((addr nn c', data p) :: l) c' k = disk l (m_checkpoint s) k).
        rewrite disk_cons; [|lia|lia|].
        * unfold disk. by rewrite (Hne k Hk) by done.
        * rewrite (Hne k Hk) by done. intros Heq. apply Hnk. by eapply addr_inj. }
  exists (data p), (set_pages pa s2). split_and!; [|done|by rewrite Hmem_pages; unfold s2; rewrite Hmem_store, Hmem_ckpt| | | | |done].
  - unfold next_addr. eapply runs_bind.
    { eapply runs_bind; [done|]. by eapply runs_bind. }
    eapply runs_bind; [|exact Hr]. unfold write_page. eapply runs_bind; [by apply on_pages_at|exact Hst].
  - etrans; [apply (Hf_ckpt c')|]. etrans; [apply (Hf_store st)|]. apply Hf_pages.
  - constructor.
    + exact Hst'.
    + exact Hwf.
    + rewrite length_insert. apply H.
    + pose proof (held_delete _ _ _ Hpg). pose proof (fi_room _ _ _ _ _ H). cbn [length]. lia.
    + intros k Hk. pose proof (Hsame k Hk) as Hs. unfold blocks in Hs. rewrite Hs. by apply H.
    + intros k pg' Hk. destruct (decide (k = nn)) as [->|Hkn]; [rewrite aget_insert_eq in Hk by lia; congruence|].
      rewrite aget_insert_ne in Hk by lia. cbn. rewrite Ho; [exact (fi_used _ _ _ _ _ H k pg' Hk)|].
      intros ->. apply Hkn. eapply (fi_inj _ _ _ _ _ H); [exact Hk|exact Hpg].
    + intros k1 k2 pg' H1 H2.
      destruct (decide (k1 = nn)) as [->|N1]; [rewrite aget_insert_eq in H1 by lia; congruence|].
      destruct (decide (k2 = nn)) as [->|N2]; [rewrite aget_insert_eq in H2 by lia; congruence|].
      rewrite aget_insert_ne in H1, H2 by lia. by eapply fi_inj.
  - exact Hsame.
  - intros k Hk Hkn. rewrite Hbit by done. by rewrite (proj2 (Z.eqb_neq k nn)), xorb_false_r by done.
Qed.

(** The state of the last loop before block [nn]; [g] is the array without the
    pages already written. *)
Record winv (K : nat) (l : wlog) (s0 : Fs) (pages : pages_t) (nn : Z) (s : Fs) : Prop := {
  wn_ws : exists ws g fl, finv K (ws ++ l) s g fl /\
    (forall k, 0 <= k < nblk -> aget g k = if k <? nn then Some None else aget pages k) /\
    (forall k, 0 <= k < nblk -> blocks (ws ++ l) s g k = blocks l s0 pages k) /\
    (forall a, a ∈ ws.*1 -> start <= a < start + 2 * nblk /\
       forall k, 0 <= k < nblk -> a <> addr k (m_checkpoint s0));
  wn_bits k : nn <= k < nblk -> Z.testbit (ver (m_checkpoint s)) k = Z.testbit (ver (m_checkpoint s0)) k;
  wn_mem : mem s = mem s0;
  wn_frame : frame s0 s;
  wn_log : jnr (m_checkpoint s) = jnr (m_checkpoint s0) /\ journals (m_checkpoint s) = journals (m_checkpoint s0);
  wn_cframe : cframe (m_checkpoint s0) (m_checkpoint s)
}.

Lemma write_back_step K l s0 pages nn s : winv K l s0 pages nn s -> 0 <= nn < nblk -> Z.of_nat (length pages) = nblk ->
  exists s', runs (write_back pages nn) s tt s' /\ winv K l s0 pages (nn + 1) s'.
Proof.
  intros [(ws & g & fl & Hf & Hg & Hbl & Hws) Hbits Hmm Hfr [Hj1 Hj2] Hcf] Hb Hlp.
  pose proof (Hg nn Hb) as Hgn. rewrite (proj2 (Z.ltb_ge nn nn)) in Hgn by lia.
  destruct (aget_is_Some pages nn) as [[pg|] Hpg]; [lia| |].
  - rewrite Hpg in Hgn. destruct (write_back_page K _ s g fl nn pg Hf Hb Hgn)
      as (b & s' & Hr & Hc' & Hm' & Hfr' & Hf' & Hbl' & Hbit' & Hne').
    set (c' := set_ver (Z.lxor (ver (m_checkpoint s)) (mask nn)) (m_checkpoint s)) in *.
    exists s'. split; [unfold write_back; rewrite Hpg; exact Hr|]. constructor.
    + exists ((addr nn c', b) :: ws), (<[Z.to_nat nn := None]> g), (pg :: fl). split_and!; [exact Hf'| | |].
      * intros k Hk. pose proof (aget_bounds _ _ _ Hgn). rewrite aget_insert by lia.
        destruct (Z.eqb_spec nn k) as [<-|Hnk]; [by rewrite (proj2 (Z.ltb_lt _ _)) by lia|].
        rewrite (Hg k Hk). replace (k <? nn + 1) with (k <? nn); [done|].
        apply Bool.eq_iff_eq_true. rewrite !Z.ltb_lt. lia.
      * intros k Hk. rewrite <- (Hbl k Hk). apply (Hbl' k Hk).
      * cbn. intros a [->|Ha]%elem_of_cons; [|by apply Hws]. split; [by apply addr_range|].
        intros k Hk Heq. pose proof (addr_inj _ _ _ _ Hb Hk Heq) as <-. apply Hne'.
        rewrite Heq. rewrite !addr_cases by lia. by rewrite Hbits by lia.
    + intros k Hk. rewrite Hc'. rewrite Hbit' by lia. apply Hbits. lia.
    + by rewrite Hm'.
    + by etrans.
    + rewrite Hc'. unfold c'. by rewrite Hjnr_v, Hjs_v.
    + rewrite Hc'. etrans; [exact Hcf|apply Hc_v].
  - exists s. split; [unfold write_back; by rewrite Hpg|]. constructor; [|..|done|done|done]; try done.
    + exists ws, g, fl. split_and!; [done| |done|done]. intros k Hk. rewrite (Hg k Hk).
      destruct (decide (k = nn)) as [->|Hnk].
      * rewrite (proj2 (Z.ltb_ge nn nn)), (proj2 (Z.ltb_lt nn (nn + 1))) by lia. done.
      * replace (k <? nn + 1) with (k <? nn); [done|]. apply Bool.eq_iff_eq_true. rewrite !Z.ltb_lt. lia.
    + intros k Hk. apply Hbits. lia.
Qed.

(** ** The whole flush *)
Record flushed (l : wlog) (s : Fs) (fl : list Z) (s' : Fs) (ws : wlog) : Prop := {
  fd_store : bs_rep (m_storage s') (ws ++ l);
  fd_pages : exists fl', pages_wf (fs_pages s') fl' /\ length fl' = length fl;
  fd_table i : 0 <= i < n -> stored (ws ++ l) (m_checkpoint s') i = tab (mem s) i;
  fd_mem : mem_ok (mem s');
  fd_tab i : 0 <= i < n -> tab (mem s') i = tab (mem s) i;
  fd_clean i : 0 <= i < n -> dirtyp (mem s') i = false;
  fd_ckpt : cinv (m_checkpoint s');
  fd_blk nn : 0 <= nn < nblk -> exists t, disk (ws ++ l) (m_checkpoint s') nn = Some t /\ Z.of_nat (length t) = per;
  fd_apart a : a ∈ ws.*1 -> start <= a < start + 2 * nblk /\
    forall k, 0 <= k < nblk -> a <> addr k (m_checkpoint s);
  fd_frame : frame s s';
  fd_cframe : cframe (m_checkpoint s) (m_checkpoint s')
}.
(** Before: every current block can be read, and an entry that is not dirty
    is stored. *)
Record flushable (l : wlog) (s : Fs) (fl : list Z) : Prop := {
  fa_store : bs_rep (m_storage s) l;
  fa_pages : pages_wf (fs_pages s) fl;
  fa_room : nblk <= Z.of_nat (length fl);
  fa_blk nn : 0 <= nn < nblk -> exists t, disk l (m_checkpoint s) nn = Some t /\ Z.of_nat (length t) = per;
  fa_ckpt : cinv (m_checkpoint s);
  fa_mem : mem_ok (mem s);
  fa_table i : 0 <= i < n -> dirtyp (mem s) i = false -> stored l (m_checkpoint s) i = tab (mem s) i
}.

Lemma write_back_loop K l s0 pages s : winv K l s0 pages 0 s -> Z.of_nat (length pages) = nblk ->
  exists s', runs (mfor (range 0 nblk) (write_back pages)) s tt s' /\ winv K l s0 pages nblk s'.
Proof.
  intros H Hlp. enough (Hl : wp (mfor (range 0 nblk) (write_back pages)) (fun _ t => winv K l s0 pages nblk t)
    (fun _ _ => False) s) by (apply wp_runs in Hl as ([] & t & ? & ?); by exists t).
  apply wp_for; [lia|done|]. intros i t Hi Ht.
  destruct (write_back_step _ _ _ _ _ _ Ht Hi Hlp) as (t' & Hr & Ht'). by apply (runs_wp _ _ _ _ _ _ Hr).
Qed.

Lemma finv_start l s fl : flushable l s fl ->
  finv (length fl) l s (replicate (Z.to_nat nblk) None) fl /\
  (forall k, 0 <= k < nblk -> blocks l s (replicate (Z.to_nat nblk) None) k = disk l (m_checkpoint s) k).
Proof.
  intros H. assert (Hb : forall k, 0 <= k < nblk ->
    blocks l s (replicate (Z.to_nat nblk) None) k = disk l (m_checkpoint s) k).
  { intros k Hk. unfold blocks, vblk. by rewrite aget_replicate. }
  split; [|exact Hb]. assert (Hno : forall nn (pg : Z), aget (replicate (Z.to_nat nblk) None) nn <> Some (Some pg)).
  { intros nn pg [_ Hl]%aget_Some. by apply lookup_replicate in Hl as [? _]. }
  constructor; try apply H.
  - rewrite length_replicate. lia.
  - rewrite held_none. lia.
  - intros nn Hn'. pose proof (Hb nn Hn') as E1. unfold blocks in E1. rewrite E1. by apply H.
  - intros nn pg Hk. by destruct (Hno _ _ Hk).
  - intros nn k pg Hk. by destruct (Hno _ _ Hk).
Qed.

Theorem flush_spec l s fl : flushable l s fl ->
  exists s' ws, runs flush s tt s' /\ flushed l s fl s' ws.
Proof.
  intros H. destruct (finv_start _ _ _ H) as [Hf Hb0]. pose proof (fa_room _ _ _ H) as HK.
  destruct (out_journal_spec _ l s _ fl Hf HK (fa_ckpt _ _ _ H)) as (pages1 & pa1 & fl1 & Hr1 & Hf1 & He1).
  set (c1 := set_jnr 0 (m_checkpoint s)) in *. set (s1 := set_ckpt c1 (set_pages pa1 s)) in *.
  assert (Hm1 : mem s1 = mem s) by (unfold s1; by rewrite Hmem_ckpt, Hmem_pages).
  assert (Hl1 : logged c1 = []) by (unfold logged, c1; by rewrite Hjnr).
  assert (L1 : linv (length fl) l s 0 pages1 s1).
  { constructor; rewrite ?Hm1; try done.
    - by exists fl1.
    - change (m_checkpoint s1) with c1. destruct (fa_ckpt _ _ _ H) as [C1 C2 C3].
      constructor; [unfold c1; by rewrite Hjs_nr|unfold c1; rewrite Hjnr; clia|rewrite Hl1; set_solver].
    - apply H.
    - intros j Hj Hd. rewrite <- (fa_table _ _ _ H j Hj Hd). unfold eff at 1.
      change (m_checkpoint s1) with c1. rewrite Hl1. cbn. rewrite (He1 j Hj). unfold stored.
      apply eff_ext; [done|exact Hb0].
    - intros j Hj. lia.
    - etrans; [apply (Hf_pages pa1)|apply Hf_ckpt].
    - apply Hc_nr.
    - cbn. unfold c1. by rewrite Hver_nr. }
  destruct (flush_loop_spec _ _ _ _ _ L1 HK) as (pages2 & s2 & Hr2 & L2).
  destruct (ln_f _ _ _ _ _ _ L2) as [fl2 Hf2].
  assert (W2 : winv (length fl) l s2 pages2 0 s2).
  { constructor; try done. exists [], pages2, fl2. split_and!; [done| |done|set_solver].
    intros k Hk. by rewrite (proj2 (Z.ltb_ge k 0)) by lia. }
  destruct (write_back_loop _ _ _ _ _ W2 (fi_len _ _ _ _ _ Hf2)) as (s3 & Hr3 & W3).
  destruct W3 as [(ws & g & fl3 & Hf3 & Hg3 & Hb3 & Hws) _ Hm3 Hfr3 [Hj3 Hjs3] Hcf3].
  assert (Hg : forall k, 0 <= k < nblk -> aget g k = Some None).
  { intros k Hk. rewrite (Hg3 k Hk). by rewrite (proj2 (Z.ltb_lt k nblk)) by lia. }
  assert (Hdisk : forall k, 0 <= k < nblk -> disk (ws ++ l) (m_checkpoint s3) k = blocks l s2 pages2 k).
  { intros k Hk. rewrite <- (Hb3 k Hk). unfold blocks, vblk. by rewrite (Hg k Hk). }
  exists s3, ws. split.
  { unfold flush. eapply runs_bind; [exact Hr1|]. eapply runs_bind; [exact Hr2|exact Hr3]. }
  assert (Hheld : held g = 0%nat).
  { unfold held. destruct (omap id g) as [|x r] eqn:Eo; [done|].
    assert (Hx : x ∈ omap id g) by (rewrite Eo; left).
    apply list_elem_of_omap in Hx as ([y|] & Hy & Hid); [|done]. apply list_elem_of_lookup in Hy as [k Hk].
    assert (Hb : 0 <= Z.of_nat k < nblk).
    { apply lookup_lt_Some in Hk. pose proof (fi_len _ _ _ _ _ Hf3). lia. }
    pose proof (Hg _ Hb) as [_ Hgk]%aget_Some. rewrite Nat2Z.id in Hgk. congruence. }
  constructor.
  - apply Hf3.
  - exists fl3. split; [apply Hf3|]. pose proof (fi_room _ _ _ _ _ Hf3). lia.
  - intros i Hi. unfold stored. transitivity (eff (blocks l s2 pages2) (m_checkpoint s2) i).
    + etrans; [apply (eff_ext _ _ _ _ Hi Hdisk)|]. unfold eff, logged. by rewrite Hj3, Hjs3.
    + rewrite (ln_eff _ _ _ _ _ _ L2 i Hi) by (apply (ln_clean _ _ _ _ _ _ L2); lia).
      by apply (ln_tab _ _ _ _ _ _ L2).
  - rewrite Hm3. apply L2.
  - intros i Hi. rewrite Hm3. by apply (ln_tab _ _ _ _ _ _ L2).
  - intros i Hi. rewrite Hm3. apply (ln_clean _ _ _ _ _ _ L2). lia.
  - destruct (ln_c _ _ _ _ _ _ L2) as [C1 C2 C3]. constructor; [by rewrite Hjs3|by rewrite Hj3|].
    intros j. unfold logged. rewrite Hj3, Hjs3. apply C3.
  - intros nn Hn'. rewrite (Hdisk nn Hn'). by apply Hf2.
  - intros a Ha. destruct (Hws a Ha) as [Hr Hk]. split; [done|]. intros k Hkb.
    rewrite <- (addr_ver k (m_checkpoint s) (m_checkpoint s2)); [by apply Hk|apply L2].
  - etrans; [apply L2|exact Hfr3].
  - etrans; [apply L2|exact Hcf3].
Qed.
End Flush.
