(* ===== verification/JournalInv.v ===== *)
(** JournalInv: the node address table and the segment information table as
    instances of the journaled tables, and what loading the first gives. *)
From S2P Require Export TableFlush.

(** * Dirty maps *)
Definition map_bit (per : Z) (map : list Z) (i : Z) : bool :=
  match aget map (i / per) with Some w => Z.testbit w (i mod per) | None => false end.

Section Maps.
Context (per : Z) (Hper : 0 < per <= 32).

Lemma map_test_bit map i : 0 <= i < per * Z.of_nat (length map) ->
  exists d, map_test per map i = Some d /\ (d =? 0) = negb (map_bit per map i).
Proof.
  intros Hi. destruct (map_set_Some per map i) as (w & Hw & _); [lia|done|].
  unfold map_test, map_bit. rewrite Hw. eexists. split; [done|]. apply land_mask.
  pose proof (Z.mod_pos_bound i per ltac:(lia)). lia.
Qed.

Lemma map_clear_bit map i : 0 <= i < per * Z.of_nat (length map) ->
  exists l, map_clear per map i = Some l /\ length l = length map /\
    forall j, 0 <= j -> map_bit per l j = map_bit per map j && negb (j =? i).
Proof.
  intros Hi. destruct (map_clear_Some per map i) as (w & Hw & Hc); [lia|done|].
  eexists. split; [exact Hc|]. split; [by rewrite length_insert|]. intros j Hj.
  pose proof (aget_bounds _ _ _ Hw) as Hb.
  assert (0 <= j / per) by (apply Z.div_pos; lia).
  pose proof (Z.mod_pos_bound i per ltac:(lia)). pose proof (Z.mod_pos_bound j per ltac:(lia)).
  unfold map_bit. rewrite aget_insert by lia.
  destruct (Z.eqb_spec (i / per) (j / per)) as [E|N].
  - rewrite <- E, Hw. rewrite testbit_clear_mask by lia. f_equal. f_equal.
    apply Bool.eq_iff_eq_true. rewrite !Z.eqb_eq. split; [|by intros ->].
    intros Hm. rewrite (Z.div_mod i per), (Z.div_mod j per) by lia. by rewrite E, Hm.
  - rewrite (proj2 (Z.eqb_neq j i)) by (by intros ->). by rewrite andb_true_r.
Qed.
End Maps.

(** * The node address table *)
Section NatTable.
Context {St : Type} `{HB : BlockStore St, HL : !BlockStoreLaws St}.
Abbreviation Fs := (CF2fsSimulator St).

Definition nat_jnr (c : CKPT_BLOCK) : Z := nat_journal_nr (header c).
Definition nat_ver (c : CKPT_BLOCK) : Z := nat_ver_bitmap (header c).
Record nat_shape (t : NatT) : Prop := {
  ns_table : Z.of_nat (length (nat_table t)) = NODE_NR;
  ns_dirty : Z.of_nat (length (nat_dirty t)) = NAT_BLK_NR
}.
(** The table a mount would find on the medium, through the checkpoint [c]. *)
Definition nat_stored (l : wlog) (c : CKPT_BLOCK) (i : Z) : option Z :=
  stored as_nat nat_entries NAT_ENTRY_PER_BLK NAT_BLK_NR NAT_START_BLK nj_nid nj_phy_blk
    nat_jnr nat_journals nat_ver l c i.
Definition nat_isdirty (t : NatT) (i : Z) : bool := map_bit NAT_ENTRY_PER_BLK (nat_dirty t) i.
Definition nat_value (t : NatT) (i : Z) : option Z := aget (nat_table t) i.

Definition nat_flushable (l : wlog) (s : Fs) (fl : list Z) : Prop :=
  flushable as_nat nat_entries NAT_ENTRY_PER_BLK NAT_BLK_NR NAT_START_BLK NODE_NR nj_nid nj_phy_blk
    nat_jnr nat_journals nat_ver fs_nat nat_shape nat_isdirty nat_value l s fl.
(** The rest of the state and of the checkpoint. *)
Definition nat_frame (s s' : Fs) : Prop := fs_segs s' = fs_segs s /\ m_cur_ckpt s' = m_cur_ckpt s.
Definition nat_cframe (c c' : CKPT_BLOCK) : Prop :=
  sit_journals c' = sit_journals c /\ sit_journal_nr (header c') = sit_journal_nr (header c) /\
  sit_ver_bitmap (header c') = sit_ver_bitmap (header c) /\ cur_segs (header c') = cur_segs (header c) /\
  ver_open (header c') = ver_open (header c) /\ ver_close (header c') = ver_close (header c).
Definition nat_flushed (l : wlog) (s : Fs) (fl : list Z) (s' : Fs) (ws : wlog) : Prop :=
  flushed as_nat nat_entries NAT_ENTRY_PER_BLK NAT_BLK_NR NAT_START_BLK NODE_NR nj_nid nj_phy_blk
    nat_jnr nat_journals nat_ver fs_nat nat_shape nat_isdirty nat_value nat_frame nat_cframe l s fl s' ws.

#[local] Instance nat_frame_po : PreOrder nat_frame.
Proof. split; unfold nat_frame; [done|]. intros ??? [] []. split; congruence. Qed.
#[local] Instance nat_cframe_po : PreOrder nat_cframe.
Proof. split; unfold nat_cframe; [done|]. intros ??? (?&?&?&?&?&?) (?&?&?&?&?&?). split_and!; congruence. Qed.

Lemma nat_is_dirty_spec (s : Fs) i : nat_shape (fs_nat s) -> 0 <= i < NODE_NR ->
  exists d, runs (on_nat (nat_is_dirty i)) s d s /\ (d =? 0) = negb (nat_isdirty (fs_nat s) i).
Proof.
  intros [Ht Hd] Hi. destruct (map_test_bit NAT_ENTRY_PER_BLK ltac:(clia) (nat_dirty (fs_nat s)) i) as (d & Hm & Hz).
  { rewrite Hd. clia. }
  exists d. split; [|done]. apply on_nat_keeps. unfold runs, nat_is_dirty, bind, get, opt. by rewrite Hm.
Qed.
Lemma nat_clear_spec (s : Fs) i : nat_shape (fs_nat s) -> 0 <= i < NODE_NR ->
  exists m, runs (on_nat (nat_clear_dirty i)) s tt (set_nat m s) /\ nat_shape m /\
    (forall j, 0 <= j < NODE_NR -> nat_isdirty m j = nat_isdirty (fs_nat s) j && negb (j =? i)) /\
    (forall j, 0 <= j < NODE_NR -> nat_value m j = nat_value (fs_nat s) j).
Proof.
  intros [Ht Hd] Hi. destruct (map_clear_bit NAT_ENTRY_PER_BLK ltac:(clia) (nat_dirty (fs_nat s)) i) as (l & Hm & Hl & Hb).
  { rewrite Hd. clia. }
  exists (set_nat_dirty_map l (fs_nat s)). split_and!.
  - apply on_nat_runs. unfold runs, nat_clear_dirty, bind, get, opt. by rewrite Hm.
  - constructor; [done|cbn; by rewrite Hl].
  - intros j Hj. apply Hb. lia.
  - done.
Qed.

Lemma nat_flush_spec l (s : Fs) fl : nat_flushable l s fl ->
  exists s' ws, runs f2fs_flush_nat_entries s tt s' /\ nat_flushed l s fl s' ws.
Proof.
  intros H. apply (flush_spec as_nat nat_entries (fun l => U_nat (mkNatBlock l)) NAT_ENTRY_PER_BLK NAT_BLK_NR
    NAT_START_BLK NODE_NR nj_nid nj_phy_blk mkNatJ nat_jnr set_nat_journal_nr nat_journals set_nat_journals
    nat_ver set_nat_ver (fun i => on_nat (nat_is_dirty i)) (fun s i => opt (aget (nat_table (fs_nat s)) i))
    (fun i => on_nat (nat_clear_dirty i))) with (set_mem := set_nat); try done; try clia; try apply _.
  - exact nat_is_dirty_spec.
  - intros t i [Ht _] Hi. destruct (aget_is_Some (nat_table (fs_nat t)) i) as [v Hv]; [by rewrite Ht|].
    exists v. rewrite Hv. done.
  - exact nat_clear_spec.
Qed.
End NatTable.

(** * The segment information table *)
Section SitTable.
Context {St : Type} `{HB : BlockStore St, HL : !BlockStoreLaws St}.
Abbreviation Fs := (CF2fsSimulator St).

Definition sit_jnr (c : CKPT_BLOCK) : Z := sit_journal_nr (header c).
Definition sit_ver (c : CKPT_BLOCK) : Z := sit_ver_bitmap (header c).
(** The segments [gs] and the current segments [cs] do not change. *)
Record sit_shape (gs : list SegmentInfo) (cs : list CURSEG_INFO) (m : Segs) : Prop := {
  ss_len : Z.of_nat (length (m_segments m)) = MAIN_SEG_NR;
  ss_dirty : Z.of_nat (length (m_dirty_map m)) = SIT_BLK_NR;
  ss_segs : m_segments m = gs;
  ss_cur : m_cur_segs m = cs
}.
Definition sit_stored (l : wlog) (c : CKPT_BLOCK) (i : Z) : option SEG_INFO :=
  stored as_sit sit_entries SIT_ENTRY_PER_BLK SIT_BLK_NR SIT_START_BLK sj_seg_no sj_seg_info
    sit_jnr sit_journals sit_ver l c i.
Definition sit_isdirty (m : Segs) (i : Z) : bool := map_bit SIT_ENTRY_PER_BLK (m_dirty_map m) i.
Definition sit_value (m : Segs) (i : Z) : option SEG_INFO :=
  (fun g => mkSegInfo (valid_bmp g) (valid_blk_nr g) (seg_temp g)) <$> aget (m_segments m) i.

Definition sit_flushable (l : wlog) (s : Fs) (fl : list Z) : Prop :=
  flushable as_sit sit_entries SIT_ENTRY_PER_BLK SIT_BLK_NR SIT_START_BLK MAIN_SEG_NR sj_seg_no sj_seg_info
    sit_jnr sit_journals sit_ver fs_segs
    (sit_shape (m_segments (fs_segs s)) (m_cur_segs (fs_segs s))) sit_isdirty sit_value l s fl.
Definition sit_frame (s s' : Fs) : Prop := fs_nat s' = fs_nat s /\ m_cur_ckpt s' = m_cur_ckpt s.
Definition sit_cframe (c c' : CKPT_BLOCK) : Prop :=
  nat_journals c' = nat_journals c /\ nat_journal_nr (header c') = nat_journal_nr (header c) /\
  nat_ver_bitmap (header c') = nat_ver_bitmap (header c) /\ cur_segs (header c') = cur_segs (header c) /\
  ver_open (header c') = ver_open (header c) /\ ver_close (header c') = ver_close (header c).
Definition sit_flushed (l : wlog) (s : Fs) (fl : list Z) (s' : Fs) (ws : wlog) : Prop :=
  flushed as_sit sit_entries SIT_ENTRY_PER_BLK SIT_BLK_NR SIT_START_BLK MAIN_SEG_NR sj_seg_no sj_seg_info
    sit_jnr sit_journals sit_ver fs_segs
    (sit_shape (m_segments (fs_segs s)) (m_cur_segs (fs_segs s))) sit_isdirty sit_value sit_frame sit_cframe
    l s fl s' ws.

#[local] Instance sit_frame_po : PreOrder sit_frame.
Proof. split; unfold sit_frame; [done|]. intros ??? [] []. split; congruence. Qed.
#[local] Instance sit_cframe_po : PreOrder sit_cframe.
Proof. split; unfold sit_cframe; [done|]. intros ??? (?&?&?&?&?&?) (?&?&?&?&?&?). split_and!; congruence. Qed.

Lemma sit_is_dirty_spec gs cs (s : Fs) i : sit_shape gs cs (fs_segs s) -> 0 <= i < MAIN_SEG_NR ->
  exists d, runs (on_segs (seg_is_dirty i)) s d s /\ (d =? 0) = negb (sit_isdirty (fs_segs s) i).
Proof.
  intros [Ht Hd _ _] Hi.
  destruct (map_test_bit SIT_ENTRY_PER_BLK ltac:(clia) (m_dirty_map (fs_segs s)) i) as (d & Hm & Hz).
  { rewrite Hd. clia. }
  exists d. split; [|done]. apply on_segs_keeps. unfold runs, seg_is_dirty, bind, get, opt. by rewrite Hm.
Qed.
Lemma sit_clear_spec gs cs (s : Fs) i : sit_shape gs cs (fs_segs s) -> 0 <= i < MAIN_SEG_NR ->
  exists m, runs (on_segs (seg_clear_dirty i)) s tt (set_segs m s) /\ sit_shape gs cs m /\
    (forall j, 0 <= j < MAIN_SEG_NR -> sit_isdirty m j = sit_isdirty (fs_segs s) j && negb (j =? i)) /\
    (forall j, 0 <= j < MAIN_SEG_NR -> sit_value m j = sit_value (fs_segs s) j).
Proof.
  intros [Ht Hd Hg Hc] Hi.
  destruct (map_clear_bit SIT_ENTRY_PER_BLK ltac:(clia) (m_dirty_map (fs_segs s)) i) as (l & Hm & Hl & Hb).
  { rewrite Hd. clia. }
  exists (set_dirty_map l (fs_segs s)). split_and!.
  - apply on_segs_runs. unfold runs, seg_clear_dirty, bind, get, opt. by rewrite Hm.
  - constructor; [done|cbn; by rewrite Hl|done|done].
  - intros j Hj. apply Hb. lia.
  - done.
Qed.
Lemma sit_value_spec gs cs (s : Fs) i : sit_shape gs cs (fs_segs s) -> 0 <= i < MAIN_SEG_NR ->
  exists v, runs (on_segs (fill_seg_info i)) s v s /\ sit_value (fs_segs s) i = Some v.
Proof.
  intros [Ht _ _ _] Hi. destruct (aget_is_Some (m_segments (fs_segs s)) i) as [g Hg]; [by rewrite Ht|].
  unfold sit_value. rewrite Hg. eexists. split; [|done]. apply on_segs_keeps. unfold fill_seg_info.
  eapply runs_bind; [by apply seg_at_runs|done].
Qed.

Definition sit_disk (l : wlog) (c : CKPT_BLOCK) (nn : Z) : option (list SEG_INFO) :=
  disk as_sit sit_entries SIT_BLK_NR SIT_START_BLK sit_ver l c nn.
(** The checkpoint and the blocks it refers to can be read. *)
Definition sit_loadable (l : wlog) (c : CKPT_BLOCK) : Prop :=
  cinv MAIN_SEG_NR sj_seg_no sit_jnr sit_journals c /\ forall nn, 0 <= nn < SIT_BLK_NR ->
    exists t, sit_disk l c nn = Some t /\ Z.of_nat (length t) = SIT_ENTRY_PER_BLK.

Lemma sit_flush_spec l (s : Fs) fl : sit_flushable l s fl ->
  exists s' ws, runs f2fs_flush_sit_entries s tt s' /\ sit_flushed l s fl s' ws.
Proof.
  intros H. apply (flush_spec as_sit sit_entries (fun l => U_sit (mkSitBlock l)) SIT_ENTRY_PER_BLK SIT_BLK_NR
    SIT_START_BLK MAIN_SEG_NR sj_seg_no sj_seg_info mkSitJ sit_jnr set_sit_journal_nr sit_journals set_sit_journals
    sit_ver set_sit_ver (fun i => on_segs (seg_is_dirty i)) (fun _ i => on_segs (fill_seg_info i))
    (fun i => on_segs (seg_clear_dirty i))) with (set_mem := set_segs); try done; try clia; try apply _.
  - apply sit_is_dirty_spec.
  - apply sit_value_spec.
  - apply sit_clear_spec.
Qed.
End SitTable.

(** * The properties *)
Section Flushes.
Context {St : Type} `{HB : BlockStore St, HL : !BlockStoreLaws St}.
Abbreviation Fs := (CF2fsSimulator St).

(** C13: flushing the node address table.  When every entry that is not dirty
    is on the medium, in its block or in the checkpoint's journal, the flush
    returns, and the medium together with the new checkpoint holds the whole
    table of memory, however the changes were split between the journal and
    the blocks; nothing is dirty, every page it took is free again, and it
    wrote no block that the old checkpoint refers to. *)
Theorem nat_flush_correct l (s : Fs) fl : nat_flushable l s fl ->
  exists s' ws, runs f2fs_flush_nat_entries s tt s' /\ nat_flushed l s fl s' ws.
Proof. apply nat_flush_spec. Qed.

(** C14: the same for the segment information table. *)
Theorem sit_flush_correct l (s : Fs) fl : sit_flushable l s fl ->
  exists s' ws, runs f2fs_flush_sit_entries s tt s' /\ sit_flushed l s fl s' ws.
Proof. apply sit_flush_spec. Qed.
End Flushes.

(** * Loading the node address table *)
Section NatLoad.
Context {St : Type} `{HB : BlockStore St, HL : !BlockStoreLaws St}.
Abbreviation Fs := (CF2fsSimulator St).

Definition nat_disk (l : wlog) (c : CKPT_BLOCK) (nn : Z) : option (list Z) :=
  disk as_nat nat_entries NAT_BLK_NR NAT_START_BLK nat_ver l c nn.
Definition nat_cinv (c : CKPT_BLOCK) : Prop := cinv NODE_NR nj_nid nat_jnr nat_journals c.
(** The checkpoint and the blocks it refers to can be read. *)
Definition nat_loadable (l : wlog) (c : CKPT_BLOCK) : Prop :=
  nat_cinv c /\ forall nn, 0 <= nn < NAT_BLK_NR ->
    exists t, nat_disk l c nn = Some t /\ Z.of_nat (length t) = NAT_ENTRY_PER_BLK.

Definition load_block (at_ : nat) (es : list Z) (n : NatT) : NatT :=
  mkNat (node_cache n) (free_nr n)
    (take at_ (nat_table n) ++ es ++ drop (at_ + Z.to_nat NAT_ENTRY_PER_BLK) (nat_table n))
    (nat_dirty n) (next_scan n).

Lemma load_block_at nn es n i : 0 <= nn < NAT_BLK_NR -> Z.of_nat (length es) = NAT_ENTRY_PER_BLK ->
  Z.of_nat (length (nat_table n)) = NODE_NR -> 0 <= i < NODE_NR ->
  let n' := load_block (Z.to_nat (nn * NAT_ENTRY_PER_BLK)) es n in
  Z.of_nat (length (nat_table n')) = NODE_NR /\
  aget (nat_table n') i =
    if i / NAT_ENTRY_PER_BLK =? nn then aget es (i mod NAT_ENTRY_PER_BLK) else aget (nat_table n) i.
Proof.
  intros Hn He Hl Hi. cbn zeta. cbn [nat_table load_block]. split.
  { rewrite !length_app, length_take, length_drop. clia. }
  pose proof (Z.div_mod i NAT_ENTRY_PER_BLK ltac:(clia)) as Hd.
  pose proof (Z.mod_pos_bound i NAT_ENTRY_PER_BLK ltac:(clia)) as Hm.
  unfold aget. rewrite !(proj2 (Z.leb_le 0 _)) by lia.
  destruct (Z.eqb_spec (i / NAT_ENTRY_PER_BLK) nn) as [E|N].
  - rewrite lookup_app_r by (rewrite length_take; clia).
    rewrite lookup_app_l by (rewrite length_take; clia). f_equal. rewrite length_take. clia.
  - destruct (decide (i / NAT_ENTRY_PER_BLK < nn)) as [Hlt|Hge].
    + rewrite lookup_app_l by (rewrite length_take; clia). by rewrite lookup_take_lt by clia.
    + rewrite lookup_app_r by (rewrite length_take; clia).
      rewrite lookup_app_r by (rewrite length_take; clia). rewrite lookup_drop. f_equal.
      rewrite length_take. clia.
Qed.

(** The state of the first loop before block [nn]. *)
Record load_inv (l : wlog) (s0 : Fs) (room nn : Z) (s : Fs) : Prop := {
  lo_store : bs_rep (m_storage s) l;
  lo_pages : exists fl, pages_wf (fs_pages s) fl /\ room <= Z.of_nat (length fl) + nn;
  lo_segs : fs_segs s = fs_segs s0;
  lo_ckpt : m_checkpoint s = m_checkpoint s0;
  lo_len : Z.of_nat (length (nat_table (fs_nat s))) = NODE_NR;
  lo_dirty : length (nat_dirty (fs_nat s)) = length (nat_dirty (fs_nat s0));
  lo_cache : node_cache (fs_nat s) = node_cache (fs_nat s0);
  lo_at i : 0 <= i < nn * NAT_ENTRY_PER_BLK ->
    aget (nat_table (fs_nat s)) i = entry NAT_ENTRY_PER_BLK (nat_disk l (m_checkpoint s0)) i
}.

Lemma load_blocks l (s : Fs) fl : nat_loadable l (m_checkpoint s) -> bs_rep (m_storage s) l ->
  pages_wf (fs_pages s) fl -> NAT_BLK_NR <= Z.of_nat (length fl) ->
  Z.of_nat (length (nat_table (fs_nat s))) = NODE_NR ->
  exists s', runs (mfor (range 0 NAT_BLK_NR) (fun nn =>
    pg <- on_pages allocate ;;
    s <- get ;;
    read_page (get_nat_block nn (m_checkpoint s)) (InCache pg) ;;;
    b <- body_at pg ;;
    t <- opt (as_nat b) ;;
    on_nat (modify (load_block (Z.to_nat (nn * NAT_ENTRY_PER_BLK)) (nat_entries t))))) s tt s' /\
    load_inv l s (Z.of_nat (length fl)) NAT_BLK_NR s'.
Proof.
  intros [Hc Hd] Hs Hp Hroom Hl.
  match goal with |- exists s', runs ?m _ _ _ /\ _ =>
    enough (Hloop : wp m (fun _ t => load_inv l s (Z.of_nat (length fl)) NAT_BLK_NR t) (fun _ _ => False) s)
      by (apply wp_runs in Hloop as ([] & u & ? & ?); by exists u) end.
  apply wp_for; [clia| |].
  { constructor; try done; [exists fl; split; [done|lia]|]. intros i Hi. lia. }
  intros nn t Hn [Ls (fl' & Lp & Lr) Lsg Lc Ll Ld Lca La]. destruct fl' as [|x fl']; [cbn in Lr; lia|].
  destruct (allocate_spec _ _ _ Lp) as (pa & Hr & Hp' & Hx & _).
  destruct (Hd nn Hn) as (es & Hes & Hel). pose proof Hes as Hes'. unfold nat_disk, disk in Hes'.
  destruct (log_read _ l) as [b|] eqn:Hlog; [|done]. cbn in Hes'. unfold dec in Hes'.
  destruct (as_nat (body b)) as [tb|] eqn:Has; [|done]. injection Hes' as Hes'.
  destruct (page_upd_spec pa fl' x page_Init (set_data b) Hp' Hx) as (pa' & Hr' & Hp'' & Hx' & _); [done|done|].
  apply wp_runs. exists tt. eexists. split.
  - eapply runs_bind; [by apply on_pages_runs|]. eapply runs_bind; [done|].
    eapply runs_bind.
    { unfold read_page. eapply runs_bind.
      - eapply store_read_spec; [exact Ls| |rewrite <- Lc in Hlog; exact Hlog].
        apply (addr_ok NAT_BLK_NR NAT_START_BLK nat_ver); clia.
      - apply (on_pages_runs _ (set_pages pa t)). exact Hr'. }
    eapply runs_bind.
    { unfold body_at, data_at. eapply runs_bind; [|done]. eapply runs_bind; [|done].
      apply on_pages_keeps. unfold runs, page_at, bind, get, opt. cbn. rewrite Hx'. done. }
    cbn [data set_data body]. rewrite Has. eapply runs_bind; [done|]. apply on_nat_runs. done.
  - rewrite Hes'. cbn [set_nat set_pages fs_nat].
    constructor; cbn [m_storage fs_pages m_checkpoint fs_nat set_nat set_pages]; try done.
    + exists fl'. split; [done|]. cbn [length] in Lr. lia.
    + apply (load_block_at nn es (fs_nat t) 0); [done|done|done|clia].
    + intros i Hi. destruct (load_block_at nn es (fs_nat t) i Hn Hel Ll) as [_ E]; [clia|]. rewrite E.
      unfold entry. destruct (Z.eqb_spec (i / NAT_ENTRY_PER_BLK) nn) as [->|N].
      * rewrite Hes. done.
      * rewrite La; [done|]. pose proof (Z.div_mod i NAT_ENTRY_PER_BLK ltac:(clia)).
        pose proof (Z.mod_pos_bound i NAT_ENTRY_PER_BLK ltac:(clia)). clia.
Qed.

(** The second loop: the journal. *)
Lemma load_journal l (s0 s : Fs) room : nat_cinv (m_checkpoint s0) -> load_inv l s0 room NAT_BLK_NR s ->
  exists t, runs (mfor (range 0 (nat_journal_nr (header (m_checkpoint s)))) (fun ii =>
    s <- get ;;
    j <- opt (aget (nat_journals (m_checkpoint s)) ii) ;;
    on_nat (set_nat_entry (nj_nid j) (nj_phy_blk j)))) s tt (set_nat t s) /\
    Z.of_nat (length (nat_table t)) = NODE_NR /\ nat_dirty t = nat_dirty (fs_nat s) /\
    node_cache t = node_cache (fs_nat s) /\
    (forall i, 0 <= i < NODE_NR -> aget (nat_table t) i = nat_stored l (m_checkpoint s0) i).
Proof.
  intros [C1 C2 C3] [Ls Lp Lsg Lc Ll Ld Lca La]. set (c := m_checkpoint s0) in *.
  set (Inv := fun (m : Z) (u : Fs) => exists t, u = set_nat t s /\
    Z.of_nat (length (nat_table t)) = NODE_NR /\ nat_dirty t = nat_dirty (fs_nat s) /\
    node_cache t = node_cache (fs_nat s) /\
    forall i, 0 <= i < NODE_NR -> aget (nat_table t) i =
      match jlast nj_nid nj_phy_blk (take (Z.to_nat m) (nat_journals c)) i with
      | Some v => Some v | None => entry NAT_ENTRY_PER_BLK (nat_disk l c) i end).
  match goal with |- exists t, runs ?m _ _ _ /\ _ =>
    enough (Hloop : wp m (fun _ u => Inv (nat_jnr c) u) (fun _ _ => False) s)
      by (apply wp_runs in Hloop as ([] & u & ? & (t & -> & ? & ? & ? & ?)); by exists t) end.
  rewrite Lc. fold c. apply wp_for; [apply C2| |].
  { exists (fs_nat s). split_and!; [by destruct s|done|done|done|]. intros i Hi. cbn. apply La.
    clia. }
  intros ii u Hii (t & -> & Ht & Hd & Hc & Hat).
  destruct (aget_is_Some (nat_journals c) ii) as [j Hj]; [unfold nat_jnr in *; clia|].
  assert (Hkj : 0 <= nj_nid j < NODE_NR).
  { apply C3. pose proof Hj as [_ Hlk]%aget_Some. apply list_elem_of_lookup. exists (Z.to_nat ii).
    unfold logged, nat_jnr in *. rewrite lookup_take_lt by lia. done. }
  apply wp_runs. exists tt. eexists. split.
  - eapply runs_bind; [done|]. cbn [m_checkpoint set_nat]. rewrite Lc. fold c. rewrite Hj.
    eapply runs_bind; [done|]. apply (on_nat_runs _ (set_nat t s)).
    unfold runs, set_nat_entry, bind, get, opt. cbn [fs_nat set_nat].
    rewrite aset_is_Some by (rewrite Ht; done). done.
  - eexists. split; [done|]. cbn [nat_table nat_dirty node_cache]. split_and!; [by rewrite length_insert|done|done|].
    intros i Hi. rewrite aget_insert by lia. rewrite (jlast_take_succ _ _ _ _ j) by done.
    destruct (nj_nid j =? i); [done|]. by apply Hat.
Qed.

Lemma nat_Load_spec l (s : Fs) fl : nat_loadable l (m_checkpoint s) -> bs_rep (m_storage s) l ->
  pages_wf (fs_pages s) fl -> NAT_BLK_NR <= Z.of_nat (length fl) ->
  Z.of_nat (length (nat_table (fs_nat s))) = NODE_NR -> Z.of_nat (length (node_cache (fs_nat s))) = NODE_NR ->
  exists s', runs nat_Load s tt s' /\ nat_ok (fs_nat s') /\ bs_rep (m_storage s') l /\
    m_checkpoint s' = m_checkpoint s /\ scan_first (nat_table (fs_nat s')) (next_scan (fs_nat s')) /\
    (forall i, 0 <= i < NODE_NR -> aget (nat_table (fs_nat s')) i = nat_stored l (m_checkpoint s) i /\
       nat_isdirty (fs_nat s') i = false) /\
    fs_segs s' = fs_segs s /\ node_cache (fs_nat s') = node_cache (fs_nat s) /\
    (exists fl', pages_wf (fs_pages s') fl' /\ Z.of_nat (length fl) <= Z.of_nat (length fl') + NAT_BLK_NR).
Proof.
  intros Hload Hs Hp Hroom Hl Hc. destruct (load_blocks l s fl Hload Hs Hp Hroom Hl) as (s1 & Hr1 & L1).
  pose proof Hload as [[C1 C2 C3] _].
  destruct (load_journal l s s1 _ (proj1 Hload) L1) as (t & Hr2 & Ht & Hd & Hca & Hat).
  destruct (build_free_spec t Ht) as (sc & [Hsc Hfirst] & Hr3).
  set (t3 := set_nat_free (free_count (nat_table t)) (set_scan sc t)) in *.
  exists (set_nat (set_nat_dirty_map (rep NAT_BLK_NR 0) t3) s1). split_and!.
  - unfold nat_Load. eapply runs_bind; [exact Hr1|]. eapply runs_bind; [done|].
    rewrite (lo_ckpt _ _ _ _ _ L1) at 1. rewrite (proj2 (Z.ltb_ge _ _)) by (unfold nat_jnr in *; lia).
    eapply runs_bind; [exact Hr2|]. eapply runs_bind; [apply (on_nat_runs _ (set_nat t s1)); exact Hr3|].
    done.
  - constructor; cbn; [done| |by vm_compute|done|done]. rewrite Hca, (lo_cache _ _ _ _ _ L1). done.
  - apply L1.
  - apply L1.
  - exact Hfirst.
  - intros i Hi. split; [by apply Hat|]. unfold nat_isdirty, map_bit. cbn.
    assert (0 <= i / NAT_ENTRY_PER_BLK < NAT_BLK_NR).
    { split; [apply Z.div_pos; clia|]. apply Z.div_lt_upper_bound; clia. }
    unfold rep. rewrite aget_replicate by done. apply Z.bits_0.
  - apply L1.
  - etrans; [exact Hca|]. apply L1.
  - apply L1.
Qed.

(** C15: loading the node address table.  Every entry is the one of the
    checkpoint's journal, or else of its block, as the medium has them; the
    number of free entries is counted, the scan for a free entry starts at the
    first one (nowhere when none is free), and nothing is dirty. *)
Theorem nat_Load_correct l (s : Fs) fl : nat_loadable l (m_checkpoint s) -> bs_rep (m_storage s) l ->
  pages_wf (fs_pages s) fl -> NAT_BLK_NR <= Z.of_nat (length fl) ->
  Z.of_nat (length (nat_table (fs_nat s))) = NODE_NR -> Z.of_nat (length (node_cache (fs_nat s))) = NODE_NR ->
  exists s', runs nat_Load s tt s' /\ nat_ok (fs_nat s') /\ bs_rep (m_storage s') l /\
    m_checkpoint s' = m_checkpoint s /\ scan_first (nat_table (fs_nat s')) (next_scan (fs_nat s')) /\
    (forall i, 0 <= i < NODE_NR -> aget (nat_table (fs_nat s')) i = nat_stored l (m_checkpoint s) i /\
       nat_isdirty (fs_nat s') i = false).
Proof.
  intros H1 H2 H3 H4 H5 H6. destruct (nat_Load_spec l s fl H1 H2 H3 H4 H5 H6) as (s' & A & B & C & D & E & F & _). by exists s'.
Qed.
End NatLoad.

(** * A concrete volume

    The medium holds a checkpoint in slot 0 whose journals are empty, and none
    in slot 1; in memory one node has moved and one segment has been written
    since. *)
Definition table_block {A} (per : Z) (l : list A) (nn : Z) : list A :=
  take (Z.to_nat per) (drop (Z.to_nat (nn * per)) l).
Definition ckpt_old : CKPT_BLOCK :=
  set_header (mkCkptHead (rep BT_TEMP_NR CURSEG_ff) 0 0 0 0 1 1) CKPT_BLOCK_zero.
Definition nat_old : list Z := <[0%nat := NID_IN_USE]> (rep NODE_NR INVALID16).
Definition nat_blocks (l : list Z) : wlog :=
  (fun nn => (NAT_START_BLK + nn, mkBlock BLOCK_NAT (U_nat (mkNatBlock (table_block NAT_ENTRY_PER_BLK l nn))))) <$>
    range 0 NAT_BLK_NR.
Definition sit_blocks (l : list SEG_INFO) : wlog :=
  (fun nn => (SIT_START_BLK + nn, mkBlock BLOCK_SIT (U_sit (mkSitBlock (table_block SIT_ENTRY_PER_BLK l nn))))) <$>
    range 0 SIT_BLK_NR.
Definition slot_blocks (id : Z) (c : CKPT_BLOCK) : wlog :=
  (ckpt_base id, mkBlock BLOCK_CKPT_HEADER (U_ckpt_header (header c))) ::
  (ckpt_base id + 1, mkBlock BLOCK_CKPT_NAT_JOURNAL (U_ckpt_nat (nat_journals c))) ::
  ((fun ii => (ckpt_base id + 2 + ii, mkBlock BLOCK_CKPT_SIT_JOURNAL (U_ckpt_sit (sit_slice ii (sit_journals c))))) <$>
    range 0 SIT_JOURNAL_BLK).
Definition seg_value (g : SegmentInfo) : SEG_INFO := mkSegInfo (valid_bmp g) (valid_blk_nr g) (seg_temp g).
Definition volume_log : wlog :=
  slot_blocks 0 ckpt_old ++ [(ckpt_base 1, mkBlock BLOCK_CKPT_HEADER U_zero)] ++
  nat_blocks nat_old ++ sit_blocks (seg_value <$> m_segments formatted).
Definition nat_moved : NatT :=
  mkNat (<[9%nat := 0]> (rep NODE_NR INVALID32)) 126
    (<[9%nat := 3]> (<[0%nat := NID_IN_USE]> (rep NODE_NR INVALID16))) [512; 0; 0; 0] 10.
Definition pages_sixteen : CPageAllocator := pages_Init (mkPages (rep 16 page_local) 0 0 16).
Definition fs_volume : CF2fsSimulator LogStore :=
  mkFs ckpt_old (set_dirty_map (1 :: rep (SIT_BLK_NR - 1) 0) one_block) nat_moved (mkLog volume_log 0)
    (mkInfo 0 0 0 0 0 0 0 0 0 0 0 0 0) pages_sixteen [] 0 0 0 0 0 0 0 page_local.

Lemma pages_sixteen_wf : pages_wf pages_sixteen (range 0 16).
Proof. apply (pages_Init_wf (mkPages (rep 16 page_local) 0 0 16)); by vm_compute. Qed.
Lemma volume_nat_flushable : nat_flushable volume_log fs_volume (range 0 16).
Proof.
  constructor.
  - reflexivity.
  - exact pages_sixteen_wf.
  - by vm_compute.
  - apply (forall_range _ 0 NAT_BLK_NR (fun nn => has_length NAT_ENTRY_PER_BLK
      (disk as_nat nat_entries NAT_BLK_NR NAT_START_BLK nat_ver volume_log ckpt_old nn))).
    { intros nn. apply has_length_spec. } by vm_compute.
  - constructor; [by vm_compute|by vm_compute|]. intros j. vm_compute. intros Hj. by inversion Hj.
  - constructor; by vm_compute.
  - apply (forall_range (fun i => nat_isdirty nat_moved i = false -> nat_stored volume_log ckpt_old i = nat_value nat_moved i)
      0 NODE_NR (fun i => nat_isdirty nat_moved i ||
      bool_decide (nat_stored volume_log ckpt_old i = nat_value nat_moved i))).
    { intros i [Hd|Hb%bool_decide_eq_true]%orb_true_iff Hn; [|exact Hb]. congruence. }
    by vm_compute.
Qed.

#[export] Instance SEG_INFO_eq_dec : EqDecision SEG_INFO.
Proof. solve_decision. Defined.
Lemma volume_sit_flushable : sit_flushable volume_log fs_volume (range 0 16).
Proof.
  constructor.
  - reflexivity.
  - exact pages_sixteen_wf.
  - by vm_compute.
  - apply (forall_range _ 0 SIT_BLK_NR (fun nn => has_length SIT_ENTRY_PER_BLK
      (disk as_sit sit_entries SIT_BLK_NR SIT_START_BLK sit_ver volume_log ckpt_old nn))).
    { intros nn. apply has_length_spec. } by vm_compute.
  - constructor; [by vm_compute|by vm_compute|]. intros j. vm_compute. intros Hj. by inversion Hj.
  - constructor; by vm_compute.
  - apply (forall_range (fun i => sit_isdirty (fs_segs fs_volume) i = false -> sit_stored volume_log ckpt_old i = sit_value (fs_segs fs_volume) i)
      0 MAIN_SEG_NR (fun i => sit_isdirty (fs_segs fs_volume) i ||
      bool_decide (sit_stored volume_log ckpt_old i = sit_value (fs_segs fs_volume) i))).
    { intros i [Hd|Hb%bool_decide_eq_true]%orb_true_iff Hn; [|exact Hb].
      congruence. }
    by vm_compute.
Qed.
Lemma volume_nat_loadable : nat_loadable volume_log ckpt_old.
Proof. split; [apply volume_nat_flushable|apply volume_nat_flushable]. Qed.

Lemma nat_flush_correct_witness :
  nat_flushable volume_log fs_volume (range 0 16) /\
  exists s' ws, runs f2fs_flush_nat_entries fs_volume tt s' /\ bs_rep (m_storage s') (ws ++ volume_log) /\
    nat_stored (ws ++ volume_log) (m_checkpoint s') 9 = Some 3 /\
    nat_stored volume_log (m_checkpoint fs_volume) 9 = Some INVALID16.
Proof.
  split; [exact volume_nat_flushable|].
  destruct (nat_flush_correct volume_log fs_volume (range 0 16) volume_nat_flushable) as (s' & ws & Hr & F).
  exists s', ws. split; [exact Hr|]. split; [exact (fd_store _ _ _ _ _ _ _ _ _ _ _ _ _ _ _ _ _ _ _ _ _ _ F)|].
  split; [|by vm_compute].
  etrans; [apply (fd_table _ _ _ _ _ _ _ _ _ _ _ _ _ _ _ _ _ _ _ _ _ _ F); clia|by vm_compute].
Defined.

Lemma sit_flush_correct_witness :
  sit_flushable volume_log fs_volume (range 0 16) /\
  exists s' ws, runs f2fs_flush_sit_entries fs_volume tt s' /\ bs_rep (m_storage s') (ws ++ volume_log) /\
    sit_stored (ws ++ volume_log) (m_checkpoint s') 0 = Some (mkSegInfo 8 1 BT_HOT__DATA) /\
    sit_stored volume_log (m_checkpoint fs_volume) 0 <> Some (mkSegInfo 8 1 BT_HOT__DATA).
Proof.
  split; [exact volume_sit_flushable|].
  destruct (sit_flush_correct volume_log fs_volume (range 0 16) volume_sit_flushable) as (s' & ws & Hr & F).
  exists s', ws. split; [exact Hr|]. split; [exact (fd_store _ _ _ _ _ _ _ _ _ _ _ _ _ _ _ _ _ _ _ _ _ _ F)|].
  split; [|by vm_compute].
  etrans; [apply (fd_table _ _ _ _ _ _ _ _ _ _ _ _ _ _ _ _ _ _ _ _ _ _ F); clia|by vm_compute].
Defined.

Lemma nat_Load_correct_witness :
  exists s', runs nat_Load fs_volume tt s' /\ nat_ok (fs_nat s') /\
    aget (nat_table (fs_nat s')) 0 = Some NID_IN_USE /\ aget (nat_table (fs_nat s')) 9 = Some INVALID16.
Proof.
  destruct (nat_Load_correct volume_log fs_volume (range 0 16)) as (s' & Hr & Hok & _ & _ & _ & Ht).
  - exact volume_nat_loadable.
  - reflexivity.
  - exact pages_sixteen_wf.
  - by vm_compute.
  - by vm_compute.
  - by vm_compute.
  - exists s'. split; [exact Hr|]. split; [exact Hok|].
    split; (etrans; [apply Ht; clia|by vm_compute]).
Defined.
