(* ===== verification/CkptInv.v ===== *)
(** CkptInv: saving and loading the checkpoint, and what a crash at any point of
    a checkpoint leaves on the medium. *)
From S2P Require Export JournalInv.

(** * Logs *)
Lemma log_read_app a (w l : wlog) : a ∉ w.*1 -> log_read a (w ++ l) = log_read a l.
Proof.
  induction w as [|[x b] w IH]; [done|]. cbn. intros Ha. rewrite (proj2 (Z.eqb_neq _ _)) by set_solver.
  apply IH. set_solver.
Qed.

Lemma elem_drop {A} (x : A) k (l : list A) : x ∈ drop k l -> x ∈ l.
Proof. revert k. induction l as [|y l IH]; intros [|k]; cbn; [done|done|done|]. intros H. right. by eapply IH. Qed.

(** * What a slot of the medium holds *)
Section Slots.
Implicit Types (l : wlog) (c : CKPT_BLOCK) (id : Z).

(** The slot holds checkpoint [c], completely written. *)
Record slot_holds l id c : Prop := {
  sh_header : log_read (ckpt_base id) l = Some (mkBlock BLOCK_CKPT_HEADER (U_ckpt_header (header c)));
  sh_nat : exists ty, log_read (ckpt_base id + 1) l = Some (mkBlock ty (U_ckpt_nat (nat_journals c)));
  sh_sit ii : 0 <= ii < SIT_JOURNAL_BLK -> exists ty,
    log_read (ckpt_base id + 2 + ii) l = Some (mkBlock ty (U_ckpt_sit (sit_slice ii (sit_journals c))));
  sh_ver : ver_open (header c) = ver_close (header c) /\ 0 < ver_close (header c);
  sh_len : Z.of_nat (length (sit_journals c)) = JOURNAL_NR
}.
(** A mount does not take the slot when a version [v] is there. *)
Definition slot_older l id (v : Z) : Prop :=
  exists b, log_read (ckpt_base id) l = Some b /\
    (m_type b <> BLOCK_CKPT_HEADER \/
     exists h, as_ckpt_header (body b) = Some h /\ 0 <= ver_close h /\
       (ver_open h <> ver_close h \/ ver_close h < v)).

Lemma slot_older_same l l' id v : log_read (ckpt_base id) l' = log_read (ckpt_base id) l ->
  slot_older l id v -> slot_older l' id v.
Proof. intros H (b & Hb & Hv). exists b. by rewrite H. Qed.

Lemma slot_holds_same l l' id c :
  (forall a, ckpt_base id <= a < ckpt_base id + CKPT_BLK_NR -> log_read a l' = log_read a l) ->
  slot_holds l id c -> slot_holds l' id c.
Proof.
  intros H []. constructor; [rewrite H by clia; done|rewrite H by clia; done| |done|done].
  intros ii Hi. rewrite H by clia. by apply sh_sit0.
Qed.

Lemma base_ok id : id = 0 \/ id = 1 -> 0 <= ckpt_base id /\ ckpt_base id + CKPT_BLK_NR <= SIT_START_BLK.
Proof. unfold ckpt_base. intros [->| ->]; clia. Qed.
Lemma slot_addr id a : id = 0 \/ id = 1 -> ckpt_base id <= a < ckpt_base id + CKPT_BLK_NR -> lba_ok a.
Proof. intros H%base_ok Ha. unfold lba_ok. clia. Qed.
End Slots.

Lemma slices_join {A} (n p : nat) (J cur : list A) : length J = length cur ->
  (n * p <= length J)%nat -> take (n * p) cur = take (n * p) J ->
  let cur' := take (n * p) cur ++ take p (drop (n * p) J) ++ drop (n * p + p) cur in
  (n * p + p <= length J)%nat ->
  length cur' = length cur /\ take (S n * p) cur' = take (S n * p) J.
Proof.
  intros Hl Hn Ht cur' Hp. subst cur'. split.
  - rewrite !length_app, !length_take, !length_drop. lia.
  - rewrite Ht, app_assoc. replace (S n * p)%nat with (n * p + p)%nat by lia.
    rewrite <- (take_take_drop J (n * p) p). rewrite take_app_le by (rewrite length_app, !length_take, length_drop; lia).
    rewrite take_ge by (rewrite length_app, !length_take, length_drop; lia). done.
Qed.

(** * Loading *)
Section Load.
Context {St : Type} `{HB : BlockStore St, HL : !BlockStoreLaws St}.
Abbreviation Fs := (CF2fsSimulator St).

Lemma version_holds (s : Fs) l id c : id = 0 \/ id = 1 -> bs_rep (m_storage s) l -> slot_holds l id c ->
  exists n, runs (ckpt_version id) s (ver_close (header c), header c) (set_health_ckpt n s).
Proof.
  intros Hid Hs [Hh _ _ [Ho Hv] _]. eexists. unfold ckpt_version. eapply runs_bind.
  - eapply store_read_spec; [exact Hs| |exact Hh]. apply (slot_addr id); [done|]. unfold ckpt_base. clia.
  - cbn [m_type]. rewrite Z.eqb_refl. cbn [negb body as_ckpt_header]. eapply runs_bind; [done|].
    rewrite Ho, Z.eqb_refl. cbn [negb]. eapply runs_bind; [done|]. done.
Qed.

Lemma version_older (s : Fs) l id v : id = 0 \/ id = 1 -> bs_rep (m_storage s) l -> slot_older l id v -> 0 < v ->
  exists v' h n, runs (ckpt_version id) s (v', h) (set_health_ckpt n s) /\ 0 <= v' < v.
Proof.
  intros Hid Hs (b & Hb & Hold) Hv.
  assert (Hread : runs (store_read (ckpt_base id)) s b s).
  { eapply store_read_spec; [exact Hs| |exact Hb]. apply (slot_addr id); [done|]. clia. }
  assert (Hsame : set_health_ckpt (m_health_ckpt s) s = s) by (by destruct s).
  destruct (decide (m_type b = BLOCK_CKPT_HEADER)) as [Ht|Ht].
  - destruct Hold as [|(h & Hh & Hc0 & Hc)]; [done|].
    destruct (decide (ver_open h = ver_close h)) as [He|He].
    + exists (ver_close h), h, (m_health_ckpt s + 1). split; [|lia].
      unfold ckpt_version. eapply runs_bind; [exact Hread|]. rewrite Ht, Z.eqb_refl. cbn [negb]. rewrite Hh.
      eapply runs_bind; [done|]. rewrite He, Z.eqb_refl. cbn [negb]. eapply runs_bind; [done|]. done.
    + exists 0, h, (m_health_ckpt s). split; [|lia]. rewrite Hsame.
      unfold ckpt_version. eapply runs_bind; [exact Hread|]. rewrite Ht, Z.eqb_refl. cbn [negb]. rewrite Hh.
      eapply runs_bind; [done|]. by rewrite (proj2 (Z.eqb_neq _ _)).
  - exists 0, CKPT_HEAD_zero, (m_health_ckpt s). split; [|lia]. rewrite Hsame.
    unfold ckpt_version. eapply runs_bind; [exact Hread|]. by rewrite (proj2 (Z.eqb_neq _ _)).
Qed.

(** The loop that puts the SIT journal together. *)
Lemma load_sit (s : Fs) l id c : id = 0 \/ id = 1 -> bs_rep (m_storage s) l -> slot_holds l id c ->
  Z.of_nat (length (sit_journals (m_checkpoint s))) = JOURNAL_NR ->
  runs (mfor (range 0 SIT_JOURNAL_BLK) (fun ii =>
    d <- store_read (ckpt_base id + 2 + ii) ;;
    sj <- opt (as_ckpt_sit (body d)) ;;
    on_ckpt (modify (fun c =>
      let at_ := Z.to_nat (ii * SIT_JOURNAL_PER_BLK) in
      set_sit_journals (take at_ (sit_journals c) ++ sj ++
        drop (at_ + Z.to_nat SIT_JOURNAL_PER_BLK) (sit_journals c)) c)))) s tt
    (set_ckpt (set_sit_journals (sit_journals c) (m_checkpoint s)) s).
Proof.
  intros Hid Hs Hc Hlen. set (J := sit_journals c). pose proof (sh_len _ _ _ Hc) as HJ.
  set (Inv := fun (i : Z) (u : Fs) => exists js, u = set_ckpt (set_sit_journals js (m_checkpoint s)) s /\
    length js = length J /\ take (Z.to_nat i * 4) js = take (Z.to_nat i * 4) J).
  match goal with |- runs ?m _ _ _ =>
    enough (Hloop : wp m (fun _ u => Inv SIT_JOURNAL_BLK u) (fun _ _ => False) s) end.
  { apply wp_runs in Hloop as ([] & u & Hr & (js & -> & Hl & Ht)).
    assert (js = J) as -> by (rewrite !take_ge in Ht by (subst J; clia); done). exact Hr. }
  apply wp_for; [clia| |].
  { exists (sit_journals (m_checkpoint s)). split_and!; [by destruct s as [[] ? ? ? ? ? ? ? ? ? ? ? ? ? ?]|subst J; lia|done]. }
  intros i u Hi (js & -> & Hl & Ht). destruct (sh_sit _ _ _ Hc i Hi) as (ty & Hb).
  apply wp_runs. exists tt. eexists. split.
  - eapply runs_bind.
    + eapply store_read_spec; [exact Hs| |exact Hb]. apply (slot_addr id); [done|]. clia.
    + cbn [body as_ckpt_sit]. eapply runs_bind; [done|]. by apply on_ckpt_runs.
  - cbn zeta. cbn [m_checkpoint set_ckpt]. eexists. split; [done|]. cbn [sit_journals set_sit_journals].
    assert (Hat : Z.to_nat (i * SIT_JOURNAL_PER_BLK) = (Z.to_nat i * 4)%nat).
    { change SIT_JOURNAL_PER_BLK with 4. lia. }
    unfold sit_slice. rewrite Hat. change (Z.to_nat SIT_JOURNAL_PER_BLK) with 4%nat.
    destruct (slices_join (Z.to_nat i) 4 J js) as [L1 L2]; [done|subst J; clia|done|subst J; clia|].
    split; [by etrans; [exact L1|]|]. replace (Z.to_nat (i + 1)) with (S (Z.to_nat i)) by lia. exact L2.
Qed.

Lemma load_checkpoint_spec (s : Fs) l id c : id = 0 \/ id = 1 -> bs_rep (m_storage s) l ->
  slot_holds l id c -> slot_older l (1 - id) (ver_close (header c)) ->
  Z.of_nat (length (sit_journals (m_checkpoint s))) = JOURNAL_NR ->
  exists n, runs load_checkpoint s id (set_cur_ckpt id (set_ckpt c (set_health_ckpt n s))).
Proof.
  intros Hid Hs Hc Ho Hlen. pose proof (sh_ver _ _ _ Hc) as [Hvo Hv].
  assert (Hboth : exists c0 c1 n, runs (ckpt_version 0) (set_health_ckpt 0 s) c0 (set_health_ckpt c1.1.1 s) /\
    runs (ckpt_version 1) (set_health_ckpt c1.1.1 s) (c1.1.2, c1.2) (set_health_ckpt n s) /\
    0 <= c0.1 /\ 0 <= c1.1.2 /\
    (if id =? 0 then c0 = (ver_close (header c), header c) /\ c1.1.2 < c0.1
     else (c1.1.2, c1.2) = (ver_close (header c), header c) /\ c0.1 < c1.1.2)).
  { destruct Hid as [-> | ->]; cbn [Z.eqb].
    - destruct (version_holds (set_health_ckpt 0 s) l 0 c) as (n0 & H0); [by left|done|done|].
      destruct (version_older (set_health_ckpt n0 s) l 1 (ver_close (header c))) as (v1 & h1 & n1 & H1 & Hv1);
        [by right|done|exact Ho|lia|].
      exists (ver_close (header c), header c), (n0, v1, h1), n1. cbn. split_and!; [done|done|lia|lia|done|lia].
    - destruct (version_older (set_health_ckpt 0 s) l 0 (ver_close (header c))) as (v0 & h0 & n0 & H0 & Hv0);
        [by left|done|exact Ho|lia|].
      destruct (version_holds (set_health_ckpt n0 s) l 1 c) as (n1 & H1); [by right|done|done|].
      exists (v0, h0), (n0, ver_close (header c), header c), n1. cbn. split_and!; [done|done|lia|lia|done|lia]. }
  destruct Hboth as (c0 & [[n0 v1] h1] & n & Hr0 & Hr1 & Hp0 & Hp1 & Hsel). cbn [fst snd] in *.
  exists n. unfold load_checkpoint. eapply runs_bind; [done|]. eapply runs_bind; [exact Hr0|].
  eapply runs_bind; [exact Hr1|]. cbn zeta. cbn [fst snd].
  apply (runs_bind _ _ _ id (set_health_ckpt n s)).
  { destruct Hid as [-> | ->]; cbn [Z.eqb] in Hsel; destruct Hsel as [Heq Hlt].
    - subst c0. cbn [fst] in *. rewrite (proj2 (Z.eqb_neq (ver_close (header c)) 0)) by lia. cbn [negb andb].
      destruct (Z.eqb_spec v1 0); cbn [negb]; [done|]. rewrite (proj2 (Z.eqb_neq _ v1)) by lia.
      by rewrite (proj2 (Z.ltb_ge _ _)) by lia.
    - injection Heq as -> ->. rewrite (proj2 (Z.eqb_neq (ver_close (header c)) 0)) by lia. cbn [negb].
      destruct (Z.eqb_spec c0.1 0); cbn [negb andb]; [done|].
      rewrite (proj2 (Z.eqb_neq _ (ver_close (header c)))) by lia. by rewrite (proj2 (Z.ltb_lt _ _)) by lia. }
  set (hd := if id =? 0 then c0.2 else h1).
  assert (Hhd : hd = header c).
  { unfold hd. destruct (id =? 0); destruct Hsel as [Heq _]; [by subst c0|by injection Heq]. }
  eapply runs_bind; [by apply on_ckpt_runs|]. cbn zeta. rewrite Hhd.
  destruct (sh_nat _ _ _ Hc) as (ty & Hnj). cbn [m_checkpoint set_health_ckpt].
  set (s1 := set_ckpt (set_header (header c) (m_checkpoint s)) (set_health_ckpt n s)).
  eapply runs_bind.
  { eapply (store_read_spec s1); [exact Hs| |exact Hnj]. apply (slot_addr id); [done|]. clia. }
  cbn [body as_ckpt_nat]. eapply runs_bind; [done|]. eapply runs_bind; [by apply on_ckpt_runs|].
  set (s2 := set_ckpt (set_nat_journals (nat_journals c) (m_checkpoint s1)) s1).
  eapply runs_bind; [apply (load_sit s2 l id c Hid Hs Hc); exact Hlen|].
  eapply runs_bind; [done|]. unfold runs, ret. f_equal.
  unfold s2, s1. cbn. unfold set_sit_journals. cbn. by destruct c.
Qed.
End Load.

(** * Saving *)
Section Save.
Context {St : Type} `{HB : BlockStore St, HL : !BlockStoreLaws St}.
Abbreviation Fs := (CF2fsSimulator St).

Definition opened (c : CKPT_BLOCK) : CKPT_BLOCK :=
  set_header (set_vers (w32 (ver_open (header c) + 1)) (ver_close (header c)) (header c)) c.
Definition closed (c : CKPT_BLOCK) : CKPT_BLOCK :=
  let h := header (opened c) in
  set_header (set_vers (ver_open h) (w32 (ver_close h + 1)) h) (opened c).
Definition header_block (c : CKPT_BLOCK) : BLOCK_DATA :=
  mkBlock BLOCK_CKPT_HEADER (U_ckpt_header (header c)).
Definition sit_block (c : CKPT_BLOCK) (ii : Z) : BLOCK_DATA :=
  mkBlock BLOCK_CKPT_SIT_JOURNAL (U_ckpt_sit (sit_slice ii (sit_journals c))).

(** The writes of a save, newest first. *)
Definition save_writes (id : Z) (c : CKPT_BLOCK) : wlog :=
  let b := ckpt_base id in
  [(b, header_block (closed c)); (b + 2 + 3, sit_block c 3); (b + 2 + 2, sit_block c 2);
   (b + 2 + 1, sit_block c 1); (b + 2 + 0, sit_block c 0);
   (b + 1, mkBlock BLOCK_CKPT_NAT_JOURNAL (U_ckpt_nat (nat_journals c))); (b, header_block (opened c))].

Lemma store_step (s : Fs) l lba d : bs_rep (m_storage s) l -> lba_ok lba ->
  exists st, runs (store_write lba d) s tt (set_store st s) /\ bs_rep st ((lba, d) :: l).
Proof. apply store_write_spec. Qed.

Lemma save_checkpoint_spec (s : Fs) l id : id = 0 \/ id = 1 -> bs_rep (m_storage s) l ->
  exists st, runs (save_checkpoint id) s tt (set_store st (set_ckpt (closed (m_checkpoint s)) s)) /\
    bs_rep st (save_writes id (m_checkpoint s) ++ l).
Proof.
  intros Hid Hs. set (c := m_checkpoint s).
  assert (Hok : forall k, 0 <= k < CKPT_BLK_NR -> lba_ok (ckpt_base id + k)).
  { intros k Hk. apply (slot_addr id); [done|]. lia. }
  set (s1 := set_ckpt (opened c) s).
  destruct (store_step s1 l (ckpt_base id) (header_block (opened c)) Hs) as (t1 & R1 & L1).
  { rewrite <- (Z.add_0_r (ckpt_base id)). apply Hok. clia. }
  destruct (store_step (set_store t1 s1) _ (ckpt_base id + 1)
    (mkBlock BLOCK_CKPT_NAT_JOURNAL (U_ckpt_nat (nat_journals c))) L1) as (t2 & R2 & L2); [apply Hok; clia|].
  assert (Hi : forall t l' ii, 0 <= ii < SIT_JOURNAL_BLK -> bs_rep t l' ->
    exists t', runs (s <- get ;; store_write (ckpt_base id + 2 + ii)
      (mkBlock BLOCK_CKPT_SIT_JOURNAL (U_ckpt_sit (sit_slice ii (sit_journals (m_checkpoint s))))))
      (set_store t s1) tt (set_store t' s1) /\ bs_rep t' ((ckpt_base id + 2 + ii, sit_block c ii) :: l')).
  { intros t l' ii Hii Ht. destruct (store_step (set_store t s1) l' (ckpt_base id + 2 + ii) (sit_block c ii) Ht)
      as (t' & R & L); [rewrite <- Z.add_assoc; apply Hok; clia|].
    exists t'. split; [|exact L]. eapply runs_bind; [done|]. exact R. }
  destruct (Hi t2 _ 0 ltac:(clia) L2) as (t3 & R3 & L3). destruct (Hi t3 _ 1 ltac:(clia) L3) as (t4 & R4 & L4).
  destruct (Hi t4 _ 2 ltac:(clia) L4) as (t5 & R5 & L5). destruct (Hi t5 _ 3 ltac:(clia) L5) as (t6 & R6 & L6).
  set (s7 := set_ckpt (closed c) (set_store t6 s1)).
  destruct (store_step s7 _ (ckpt_base id) (header_block (closed c)) L6) as (t7 & R7 & L7).
  { rewrite <- (Z.add_0_r (ckpt_base id)). apply Hok. clia. }
  exists t7. split; [|exact L7]. unfold save_checkpoint.
  assert (Hck : check ((id =? 0) || (id =? 1)) = (ret tt : M Fs unit)) by (by destruct Hid as [-> | ->]).
  rewrite Hck. eapply runs_bind; [done|]. cbn zeta. eapply runs_bind; [by apply on_ckpt_runs|].
  eapply runs_bind; [done|]. eapply runs_bind; [exact R1|]. eapply runs_bind; [exact R2|].
  eapply runs_bind.
  { change (range 0 SIT_JOURNAL_BLK) with [0; 1; 2; 3]. cbn [mfor].
    eapply runs_bind; [exact R3|]. eapply runs_bind; [exact R4|]. eapply runs_bind; [exact R5|].
    eapply runs_bind; [exact R6|]. done. }
  eapply runs_bind; [by apply on_ckpt_runs|]. eapply runs_bind; [done|]. exact R7.
Qed.

Lemma save_addr id c a : a ∈ (save_writes id c).*1 -> ckpt_base id <= a < ckpt_base id + CKPT_BLK_NR.
Proof. unfold save_writes. cbn. intros H. set_unfold. clia. Qed.

(** After a whole save the slot holds the new checkpoint. *)
Lemma save_holds id c l : ver_open (header c) = ver_close (header c) ->
  0 < ver_close (header c) < INVALID32 -> Z.of_nat (length (sit_journals c)) = JOURNAL_NR ->
  slot_holds (save_writes id c ++ l) id (closed c) /\
  ver_close (header (closed c)) = ver_close (header c) + 1.
Proof.
  intros Hv Hr Hl. assert (Hw : w32 (ver_close (header c) + 1) = ver_close (header c) + 1).
  { unfold w32. apply Z.mod_small. clia. }
  split; [|cbn; by rewrite Hw]. set (b := ckpt_base id).
  assert (Hread : forall k x, 0 < k < CKPT_BLK_NR -> log_read (b + k)
    ((b, header_block (closed c)) :: x) = log_read (b + k) x).
  { intros k x Hk. cbn. by rewrite (proj2 (Z.eqb_neq _ _)) by lia. }
  assert (Hskip : forall a d k x, a <> b + k -> log_read (b + k) ((a, d) :: x) = log_read (b + k) x).
  { intros a d k x Hk. cbn. by rewrite (proj2 (Z.eqb_neq _ _)). }
  constructor.
  - cbn. by rewrite Z.eqb_refl.
  - exists BLOCK_CKPT_NAT_JOURNAL. unfold save_writes. fold b. cbn [app].
    rewrite Hread by clia. rewrite !Hskip by lia. cbn. by rewrite Z.eqb_refl.
  - intros ii Hi. exists BLOCK_CKPT_SIT_JOURNAL. unfold save_writes. fold b. cbn [app].
    rewrite <- Z.add_assoc. rewrite Hread by clia. rewrite <- !(Z.add_assoc b 2).
    assert (Hc : ii = 3 \/ ii = 2 \/ ii = 1 \/ ii = 0) by clia.
    destruct Hc as [->|[->|[->| ->]]]; rewrite ?Hskip by lia; cbn [log_read]; by rewrite Z.eqb_refl.
  - cbn. rewrite Hv. rewrite Hw. split; [done|lia].
  - exact Hl.
Qed.
End Save.

(** * The whole checkpoint *)
Section Checkpoint.
Context {St : Type} `{HB : BlockStore St, HL : !BlockStoreLaws St}.
Abbreviation Fs := (CF2fsSimulator St).

(** What [f2fs_write_checkpoint] starts from: the tables can be flushed and the
    checkpoint in memory is the newest on the medium. *)
Record ckpt_ready (l : wlog) (s : Fs) (fl : list Z) : Prop := {
  cr_nat : nat_flushable l s fl;
  cr_sit : sit_flushable l s fl;
  cr_id : m_cur_ckpt s = 0 \/ m_cur_ckpt s = 1;
  cr_slot : slot_holds l (m_cur_ckpt s) (m_checkpoint s);
  cr_old : slot_older l (1 - m_cur_ckpt s) (ver_close (header (m_checkpoint s)));
  cr_ver : ver_close (header (m_checkpoint s)) < INVALID32
}.

(** A mount from [l] finds checkpoint [c] in slot [id], and the tables. *)
Record found (l : wlog) (id : Z) (c : CKPT_BLOCK) (nt : Z -> option Z) (st : Z -> option SEG_INFO) : Prop := {
  fo_slot : slot_holds l id c;
  fo_old : slot_older l (1 - id) (ver_close (header c));
  fo_nat i : 0 <= i < NODE_NR -> nat_stored l c i = nt i;
  fo_sit i : 0 <= i < MAIN_SEG_NR -> sit_stored l c i = st i;
  fo_load : nat_loadable l c;
  fo_sload : sit_loadable l c
}.

(** The metadata areas do not overlap. *)
Definition in_nat (a : Z) : Prop := NAT_START_BLK <= a < NAT_START_BLK + 2 * NAT_BLK_NR.
Definition in_sit (a : Z) : Prop := SIT_START_BLK <= a < SIT_START_BLK + 2 * SIT_BLK_NR.
Definition in_slot (id a : Z) : Prop := ckpt_base id <= a < ckpt_base id + CKPT_BLK_NR.

Definition nat_addr (nn : Z) (c : CKPT_BLOCK) : Z := addr NAT_BLK_NR NAT_START_BLK nat_ver nn c.
Definition sit_addr (nn : Z) (c : CKPT_BLOCK) : Z := addr SIT_BLK_NR SIT_START_BLK sit_ver nn c.
Lemma nat_addr_in nn c : 0 <= nn < NAT_BLK_NR -> in_nat (nat_addr nn c).
Proof. apply addr_range; clia. Qed.
Lemma sit_addr_in nn c : 0 <= nn < SIT_BLK_NR -> in_sit (sit_addr nn c).
Proof. apply addr_range; clia. Qed.

(** A table's meaning depends on its own blocks only. *)
Lemma stored_same {E J T} (as_t : BLOCK_UNION -> option T) (ents : T -> list E) per nblk start n jkey (jval : J -> E)
    jnr journals ver l l' c i :
  0 < per -> 0 <= n <= per * nblk -> 0 <= i < n ->
  (forall nn, 0 <= nn < nblk -> log_read (addr nblk start ver nn c) l' = log_read (addr nblk start ver nn c) l) ->
  stored as_t ents per nblk start jkey jval jnr journals ver l' c i =
  stored as_t ents per nblk start jkey jval jnr journals ver l c i.
Proof.
  intros Hp Hn Hi H. unfold stored, eff, entry, disk.
  destruct (jlast _ _ _ _); [done|]. rewrite H; [done|]. split; [apply Z.div_pos; lia|].
  apply Z.div_lt_upper_bound; nia.
Qed.

Lemma found_same l l' id c nt st : id = 0 \/ id = 1 ->
  (forall a, in_slot id a -> log_read a l' = log_read a l) ->
  (forall nn, 0 <= nn < NAT_BLK_NR -> log_read (nat_addr nn c) l' = log_read (nat_addr nn c) l) ->
  (forall nn, 0 <= nn < SIT_BLK_NR -> log_read (sit_addr nn c) l' = log_read (sit_addr nn c) l) ->
  slot_older l' (1 - id) (ver_close (header c)) -> found l id c nt st -> found l' id c nt st.
Proof.
  intros Hid Hs Hn Hi Ho [F1 F2 F3 F4 [F5 F6] [F7 F8]]. constructor.
  - by eapply slot_holds_same.
  - exact Ho.
  - intros i Hr. rewrite <- (F3 i Hr). apply (stored_same _ _ _ _ _ NODE_NR); [clia..|done|exact Hn].
  - intros i Hr. rewrite <- (F4 i Hr). apply (stored_same _ _ _ _ _ MAIN_SEG_NR); [clia..|done|exact Hi].
  - split; [done|]. intros nn Hr. destruct (F6 nn Hr) as (t & Ht & Hl). exists t. split; [|done].
    rewrite <- Ht. unfold nat_disk, disk. pose proof (Hn nn Hr) as E. unfold nat_addr in E. by rewrite E.
  - split; [done|]. intros nn Hr. destruct (F8 nn Hr) as (t & Ht & Hl). exists t. split; [|done].
    rewrite <- Ht. unfold sit_disk, disk. pose proof (Hi nn Hr) as E. unfold sit_addr in E. by rewrite E.
Qed.

(** After the node table, the segment table can still be flushed. *)
Lemma sit_after_nat l (s : Fs) fl s1 ws1 fl1 :
  sit_flushable l s fl -> nat_flushed l s fl s1 ws1 -> pages_wf (fs_pages s1) fl1 -> length fl1 = length fl ->
  sit_flushable (ws1 ++ l) s1 fl1.
Proof.
  intros [S1 S2 S3 S4 S5 S6 S7] F Hp Hlen.
  destruct (fd_frame _ _ _ _ _ _ _ _ _ _ _ _ _ _ _ _ _ _ _ _ _ _ F) as [Hsegs _].
  destruct (fd_cframe _ _ _ _ _ _ _ _ _ _ _ _ _ _ _ _ _ _ _ _ _ _ F) as (Hj & Hn & Hv & _).
  assert (Haddr : forall nn, sit_addr nn (m_checkpoint s1) = sit_addr nn (m_checkpoint s)).
  { intros nn. unfold sit_addr, addr, sit_ver. by rewrite Hv. }
  assert (Hread : forall nn, 0 <= nn < SIT_BLK_NR ->
    log_read (sit_addr nn (m_checkpoint s)) (ws1 ++ l) = log_read (sit_addr nn (m_checkpoint s)) l).
  { intros nn Hnn. apply log_read_app. intros Ha.
    destruct (fd_apart _ _ _ _ _ _ _ _ _ _ _ _ _ _ _ _ _ _ _ _ _ _ F _ Ha) as [Hr _].
    pose proof (sit_addr_in nn (m_checkpoint s) Hnn) as Hr'. unfold in_sit in Hr'. clia. }
  assert (Hdisk : forall nn, 0 <= nn < SIT_BLK_NR ->
    disk as_sit sit_entries SIT_BLK_NR SIT_START_BLK sit_ver (ws1 ++ l) (m_checkpoint s1) nn =
    disk as_sit sit_entries SIT_BLK_NR SIT_START_BLK sit_ver l (m_checkpoint s) nn).
  { intros nn Hnn. unfold disk. pose proof (Haddr nn) as Ha. unfold sit_addr in Ha. rewrite Ha.
    pose proof (Hread nn Hnn) as Hr. unfold sit_addr in Hr. by rewrite Hr. }
  unfold sit_flushable. rewrite Hsegs. constructor.
  - apply F.
  - exact Hp.
  - lia.
  - intros nn Hnn. rewrite (Hdisk nn Hnn). by apply S4.
  - destruct S5 as [C1 C2 C3]. constructor; unfold sit_jnr, logged in *; rewrite ?Hj, ?Hn; done.
  - by rewrite Hsegs.
  - intros i Hi. rewrite Hsegs. intros Hd. rewrite <- (S7 i Hi Hd). unfold stored, eff, logged, sit_jnr.
    rewrite Hj, Hn. destruct (jlast _ _ _ _); [done|]. unfold entry. rewrite Hdisk; [done|].
    split; [apply Z.div_pos; clia|]. apply Z.div_lt_upper_bound; clia.
Qed.

(** A save cut short leaves its header open. *)
Lemma save_partial id c (R l : wlog) k : (1 <= k)%nat ->
  log_read (ckpt_base id) (drop k (save_writes id c ++ R) ++ l) =
  if decide (k < 7)%nat then Some (header_block (opened c)) else log_read (ckpt_base id) (drop (k - 7) R ++ l).
Proof.
  intros Hk. unfold save_writes. set (b := ckpt_base id).
  assert (Hskip : forall j d x, 0 < j -> log_read b ((b + j, d) :: x) = log_read b x).
  { intros j d x Hj. cbn. by rewrite (proj2 (Z.eqb_neq _ _)) by lia. }
  do 7 (destruct k as [|k]; [try lia; cbn [drop app];
    rewrite <- ?(Z.add_assoc b 2), ?Hskip by lia; cbn [log_read]; rewrite Z.eqb_refl; by rewrite decide_True by lia|]).
  rewrite decide_False by lia. cbn [drop app]. by replace (S (S (S (S (S (S (S k)))))) - 7)%nat with k by lia.
Qed.

Lemma open_older l id c v : log_read (ckpt_base id) l = Some (header_block (opened c)) ->
  ver_open (header c) = ver_close (header c) -> 0 < ver_close (header c) < INVALID32 -> slot_older l id v.
Proof.
  intros Hr Hv Hb. eexists. split; [exact Hr|]. right. eexists. split; [done|]. cbn.
  split; [lia|]. left. rewrite Hv. unfold w32. rewrite Z.mod_small by clia. lia.
Qed.

Lemma ready_found l (s : Fs) fl : ckpt_ready l s fl ->
  found l (m_cur_ckpt s) (m_checkpoint s) (nat_stored l (m_checkpoint s)) (sit_stored l (m_checkpoint s)).
Proof. intros [[] [] ? ? ? ?]. constructor; try done. Qed.

(** The two flushes. *)
Lemma flush_both l (s : Fs) fl : ckpt_ready l s fl ->
  exists s2 ws1 ws2, runs (f2fs_flush_nat_entries ;;; f2fs_flush_sit_entries) s tt s2 /\
    bs_rep (m_storage s2) (ws2 ++ ws1 ++ l) /\ m_cur_ckpt s2 = m_cur_ckpt s /\
    m_segments (fs_segs s2) = m_segments (fs_segs s) /\ m_cur_segs (fs_segs s2) = m_cur_segs (fs_segs s) /\
    (forall i, 0 <= i < NODE_NR -> aget (nat_table (fs_nat s2)) i = aget (nat_table (fs_nat s)) i) /\
    (forall i, 0 <= i < NODE_NR -> nat_stored (ws2 ++ ws1 ++ l) (m_checkpoint s2) i = aget (nat_table (fs_nat s)) i) /\
    (forall i, 0 <= i < MAIN_SEG_NR -> sit_stored (ws2 ++ ws1 ++ l) (m_checkpoint s2) i = sit_value (fs_segs s) i) /\
    nat_loadable (ws2 ++ ws1 ++ l) (m_checkpoint s2) /\
    sit_loadable (ws2 ++ ws1 ++ l) (m_checkpoint s2) /\
    Z.of_nat (length (sit_journals (m_checkpoint s2))) = JOURNAL_NR /\
    ver_open (header (m_checkpoint s2)) = ver_open (header (m_checkpoint s)) /\
    ver_close (header (m_checkpoint s2)) = ver_close (header (m_checkpoint s)) /\
    (forall a, a ∈ ws1.*1 -> in_nat a /\ forall nn, 0 <= nn < NAT_BLK_NR -> a <> nat_addr nn (m_checkpoint s)) /\
    (forall a, a ∈ ws2.*1 -> in_sit a /\ forall nn, 0 <= nn < SIT_BLK_NR -> a <> sit_addr nn (m_checkpoint s)) /\
    (exists fl2, pages_wf (fs_pages s2) fl2 /\ length fl2 = length fl).
Proof.
  intros H. destruct (nat_flush_spec l s fl (cr_nat _ _ _ H)) as (s1 & ws1 & Hr1 & F1).
  destruct (fd_pages _ _ _ _ _ _ _ _ _ _ _ _ _ _ _ _ _ _ _ _ _ _ F1) as (fl1 & Hp1 & Hlen1).
  pose proof (sit_after_nat l s fl s1 ws1 fl1 (cr_sit _ _ _ H) F1 Hp1 Hlen1) as Hsit.
  destruct (sit_flush_spec _ s1 fl1 Hsit) as (s2 & ws2 & Hr2 & F2).
  destruct (fd_frame _ _ _ _ _ _ _ _ _ _ _ _ _ _ _ _ _ _ _ _ _ _ F1) as [Hsegs1 Hcur1]. destruct (fd_frame _ _ _ _ _ _ _ _ _ _ _ _ _ _ _ _ _ _ _ _ _ _ F2) as [Hnat2 Hcur2].
  destruct (fd_cframe _ _ _ _ _ _ _ _ _ _ _ _ _ _ _ _ _ _ _ _ _ _ F1) as (Hj1 & Hn1 & Hv1 & Hcs1 & Ho1 & Hcl1).
  destruct (fd_cframe _ _ _ _ _ _ _ _ _ _ _ _ _ _ _ _ _ _ _ _ _ _ F2) as (Hj2 & Hn2 & Hv2 & Hcs2 & Ho2 & Hcl2).
  destruct (fd_mem _ _ _ _ _ _ _ _ _ _ _ _ _ _ _ _ _ _ _ _ _ _ F2) as [_ _ Hsg2 Hcg2]. destruct (fd_pages _ _ _ _ _ _ _ _ _ _ _ _ _ _ _ _ _ _ _ _ _ _ F2) as (fl2 & Hp2 & Hlen2).
  assert (Hsit_addr : forall nn, sit_addr nn (m_checkpoint s1) = sit_addr nn (m_checkpoint s)).
  { intros nn. unfold sit_addr, addr, sit_ver. by rewrite Hv1. }
  assert (Hnat_addr : forall nn, nat_addr nn (m_checkpoint s2) = nat_addr nn (m_checkpoint s1)).
  { intros nn. unfold nat_addr, addr, nat_ver. by rewrite Hv2. }
  assert (Hread : forall nn, 0 <= nn < NAT_BLK_NR ->
    log_read (nat_addr nn (m_checkpoint s2)) (ws2 ++ ws1 ++ l) = log_read (nat_addr nn (m_checkpoint s1)) (ws1 ++ l)).
  { intros nn Hnn. rewrite Hnat_addr. apply log_read_app. intros Ha.
    destruct (fd_apart _ _ _ _ _ _ _ _ _ _ _ _ _ _ _ _ _ _ _ _ _ _ F2 _ Ha) as [Hr _]. pose proof (nat_addr_in nn (m_checkpoint s1) Hnn) as Hr'.
    unfold in_nat in Hr'. clia. }
  assert (Hdisk : forall nn, 0 <= nn < NAT_BLK_NR ->
    nat_disk (ws2 ++ ws1 ++ l) (m_checkpoint s2) nn = nat_disk (ws1 ++ l) (m_checkpoint s1) nn).
  { intros nn Hnn. pose proof (Hread nn Hnn) as E. unfold nat_addr in E. unfold nat_disk, disk. by rewrite E. }
  exists s2, ws1, ws2. split_and!.
  - eapply runs_bind; [exact Hr1|exact Hr2].
  - apply F2.
  - by rewrite Hcur2.
  - by rewrite Hsg2, Hsegs1.
  - by rewrite Hcg2, Hsegs1.
  - intros i Hi. rewrite Hnat2. exact (fd_tab _ _ _ _ _ _ _ _ _ _ _ _ _ _ _ _ _ _ _ _ _ _ F1 i Hi).
  - intros i Hi. etrans; [|exact (fd_table _ _ _ _ _ _ _ _ _ _ _ _ _ _ _ _ _ _ _ _ _ _ F1 i Hi)]. unfold nat_stored, stored, eff, logged, nat_jnr.
    rewrite Hj2, Hn2. destruct (jlast _ _ _ _); [done|]. unfold entry.
    pose proof (Hdisk (i / NAT_ENTRY_PER_BLK)) as E. unfold nat_disk in E. rewrite E; [done|].
    split; [apply Z.div_pos; clia|]. apply Z.div_lt_upper_bound; clia.
  - intros i Hi. etrans; [exact (fd_table _ _ _ _ _ _ _ _ _ _ _ _ _ _ _ _ _ _ _ _ _ _ F2 i Hi)|]. by rewrite Hsegs1.
  - split.
    + destruct (fd_ckpt _ _ _ _ _ _ _ _ _ _ _ _ _ _ _ _ _ _ _ _ _ _ F1) as [C1 C2 C3]. constructor; unfold nat_jnr, logged in *; rewrite ?Hj2, ?Hn2; done.
    + intros nn Hnn. rewrite (Hdisk nn Hnn). exact (fd_blk _ _ _ _ _ _ _ _ _ _ _ _ _ _ _ _ _ _ _ _ _ _ F1 nn Hnn).
  - split; [exact (fd_ckpt _ _ _ _ _ _ _ _ _ _ _ _ _ _ _ _ _ _ _ _ _ _ F2)|exact (fd_blk _ _ _ _ _ _ _ _ _ _ _ _ _ _ _ _ _ _ _ _ _ _ F2)].
  - apply (fd_ckpt _ _ _ _ _ _ _ _ _ _ _ _ _ _ _ _ _ _ _ _ _ _ F2).
  - by rewrite Ho2.
  - by rewrite Hcl2.
  - exact (fd_apart _ _ _ _ _ _ _ _ _ _ _ _ _ _ _ _ _ _ _ _ _ _ F1).
  - intros a Ha. destruct (fd_apart _ _ _ _ _ _ _ _ _ _ _ _ _ _ _ _ _ _ _ _ _ _ F2 a Ha) as [Hr Hk]. split; [exact Hr|].
    intros nn Hnn. rewrite <- Hsit_addr. exact (Hk nn Hnn).
  - exists fl2. split; [done|]. lia.
Qed.

Lemma other_slot id : id = 0 \/ id = 1 -> Z.lxor id 1 = 1 - id /\ (1 - id = 0 \/ 1 - id = 1).
Proof. intros [->| ->]; split; [done|by right|done|by left]. Qed.

(** Cutting the log of a checkpoint anywhere before its last write. *)
Lemma crash_found l (s : Fs) fl ws1 ws2 c3 k :
  ckpt_ready l s fl ->
  (forall a, a ∈ ws1.*1 -> in_nat a /\ forall nn, 0 <= nn < NAT_BLK_NR -> a <> nat_addr nn (m_checkpoint s)) ->
  (forall a, a ∈ ws2.*1 -> in_sit a /\ forall nn, 0 <= nn < SIT_BLK_NR -> a <> sit_addr nn (m_checkpoint s)) ->
  ver_open (header c3) = ver_close (header c3) -> ver_close (header c3) = ver_close (header (m_checkpoint s)) ->
  let ws := save_writes (1 - m_cur_ckpt s) c3 ++ ws2 ++ ws1 in
  (1 <= k <= length ws)%nat ->
  found (drop k (ws ++ l)) (m_cur_ckpt s) (m_checkpoint s)
    (nat_stored l (m_checkpoint s)) (sit_stored l (m_checkpoint s)).
Proof.
  intros H H1 H2 Hvo Hvc ws Hk. set (id := m_cur_ckpt s) in *. set (c0 := m_checkpoint s) in *.
  pose proof (cr_id _ _ _ H) as Hid. fold id in Hid. destruct (other_slot id Hid) as [_ Hid'].
  rewrite drop_app_le by lia.
  assert (Hin : forall a, a ∈ (drop k ws).*1 -> in_slot (1 - id) a \/ a ∈ ws2.*1 \/ a ∈ ws1.*1).
  { intros a. rewrite fmap_drop. intros Ha%elem_drop. subst ws. rewrite !fmap_app, !elem_of_app in Ha.
    destruct Ha as [Ha|[Ha|Ha]]; [left; by apply save_addr in Ha|by right; left|by right; right]. }
  pose proof (base_ok (1 - id) Hid') as Hb'. pose proof (base_ok id Hid) as Hb.
  assert (Hdis : forall a, in_slot id a -> in_slot (1 - id) a -> False).
  { unfold in_slot, ckpt_base. intros a. destruct Hid as [-> | ->]; clia. }
  apply (found_same l); [done| | | | |by eapply ready_found].
  - intros a Ha. apply log_read_app. intros [Hs|[Hs|Hs]]%Hin.
    + by eapply Hdis.
    + destruct (H2 a Hs) as [Hr _]. unfold in_slot, in_sit in *. clia.
    + destruct (H1 a Hs) as [Hr _]. unfold in_slot, in_nat in *. clia.
  - intros nn Hnn. pose proof (nat_addr_in nn c0 Hnn) as Hr0. apply log_read_app. intros [Hs|[Hs|Hs]]%Hin.
    + unfold in_slot, in_nat in *. clia.
    + destruct (H2 _ Hs) as [Hr _]. unfold in_sit, in_nat in *. clia.
    + destruct (H1 _ Hs) as [_ Hr]. by apply (Hr nn Hnn).
  - intros nn Hnn. pose proof (sit_addr_in nn c0 Hnn) as Hr0. apply log_read_app. intros [Hs|[Hs|Hs]]%Hin.
    + unfold in_slot, in_sit in *. clia.
    + destruct (H2 _ Hs) as [_ Hr]. by apply (Hr nn Hnn).
    + destruct (H1 _ Hs) as [Hr _]. unfold in_sit, in_nat in *. clia.
  - pose proof (save_partial (1 - id) c3 (ws2 ++ ws1) l k ltac:(lia)) as Hp.
    destruct (decide (k < 7)%nat).
    + apply (open_older _ _ c3); [exact Hp|done|]. rewrite Hvc. pose proof (sh_ver _ _ _ (cr_slot _ _ _ H)) as [_ ?].
      pose proof (cr_ver _ _ _ H). change (0 < ver_close (header (m_checkpoint s)) < INVALID32). lia.
    + apply (slot_older_same l); [|apply H]. etrans; [exact Hp|]. apply log_read_app.
      rewrite fmap_drop. intros Ha%elem_drop. rewrite fmap_app, elem_of_app in Ha. destruct Ha as [Ha|Ha].
      * destruct (H2 _ Ha) as [Hr _]. unfold in_sit in Hr. clia.
      * destruct (H1 _ Ha) as [Hr _]. unfold in_nat in Hr. clia.
Qed.

(** The result of a checkpoint, and of a crash in it. *)
Record ckpt_done (l : wlog) (s : Fs) (s' : Fs) (ws : wlog) : Prop := {
  cd_store : bs_rep (m_storage s') (ws ++ l);
  cd_cur : m_cur_ckpt s' = 1 - m_cur_ckpt s;
  cd_segs : cur_segs (header (m_checkpoint s')) = m_cur_segs (fs_segs s);
  cd_found : found (ws ++ l) (1 - m_cur_ckpt s) (m_checkpoint s') (nat_value (fs_nat s)) (sit_value (fs_segs s));
  cd_meta a : a ∈ ws.*1 -> a < SSA_START_BLK;
  cd_crash k : (1 <= k <= length ws)%nat ->
    found (drop k (ws ++ l)) (m_cur_ckpt s) (m_checkpoint s)
      (nat_stored l (m_checkpoint s)) (sit_stored l (m_checkpoint s))
}.

Lemma write_checkpoint_spec l (s : Fs) fl : ckpt_ready l s fl ->
  exists s' ws, runs f2fs_write_checkpoint s tt s' /\ ckpt_done l s s' ws.
Proof.
  intros H. destruct (flush_both l s fl H) as (s2 & ws1 & ws2 & Hr & Hs2 & Hc2 & _ & Hg2 & _ & Hn2 & Hi2 & Hl2 & Hsl2 & Hj2 & Ho2 & Hv2 & H1 & H2 & _).
  pose proof (cr_id _ _ _ H) as Hid. set (id := m_cur_ckpt s) in *. destruct (other_slot id Hid) as [Hx Hid'].
  pose proof (sh_ver _ _ _ (cr_slot _ _ _ H)) as [Hvo Hvp]. pose proof (cr_ver _ _ _ H) as Hvb.
  set (c3 := set_header_cur_segs (m_cur_segs (fs_segs s2)) (m_checkpoint s2)).
  set (s3 := set_cur_ckpt (1 - id) (set_ckpt c3 s2)).
  destruct (save_checkpoint_spec s3 (ws2 ++ ws1 ++ l) (1 - id) Hid' Hs2) as (st & Hsave & Hst).
  assert (Hvo3 : ver_open (header c3) = ver_close (header c3)) by (cbn; lia).
  assert (Hvc3 : ver_close (header c3) = ver_close (header (m_checkpoint s))) by exact Hv2.
  destruct (save_holds (1 - id) c3 (ws2 ++ ws1 ++ l)) as [Hholds Hver]; [done|lia|exact Hj2|].
  exists (set_store st (set_ckpt (closed c3) s3)), (save_writes (1 - id) c3 ++ ws2 ++ ws1). split.
  - unfold f2fs_write_checkpoint. apply runs_assoc. eapply runs_bind; [exact Hr|].
    eapply runs_bind; [done|]. eapply runs_bind; [by apply on_ckpt_runs|].
    eapply runs_bind; [done|]. eapply runs_bind; [done|]. cbn [m_cur_ckpt set_cur_ckpt set_ckpt].
    rewrite Hc2, Hx. exact Hsave.
  - assert (Hread : forall a, SIT_START_BLK <= a ->
      log_read a (save_writes (1 - id) c3 ++ ws2 ++ ws1 ++ l) = log_read a (ws2 ++ ws1 ++ l)).
    { intros a Ha. apply log_read_app. intros Hw%save_addr. pose proof (base_ok _ Hid'). lia. }
    constructor; rewrite <- ?app_assoc.
    + exact Hst.
    + done.
    + exact Hg2.
    + constructor.
      * exact Hholds.
      * cbn [m_checkpoint set_store set_ckpt]. rewrite Hver, Hvc3. replace (1 - (1 - id)) with id by lia.
        destruct (cr_slot _ _ _ H) as [Hh _ _ _ _]. fold id in Hh.
        replace (1 - (1 - m_cur_ckpt s)) with id by lia.
        exists (header_block (m_checkpoint s)). split; [|right; eexists; split; [done|split; [|right]]].
        -- etrans; [|exact Hh]. rewrite app_assoc, app_assoc. apply log_read_app.
           rewrite !fmap_app, !elem_of_app. intros [[Ha%save_addr|Ha]|Ha].
           ++ unfold ckpt_base in *. destruct Hid as [Hi0|Hi0]; rewrite Hi0 in *; clia.
           ++ destruct (H2 _ Ha) as [Hr' _]. pose proof (base_ok id Hid). unfold in_sit in Hr'. clia.
           ++ destruct (H1 _ Ha) as [Hr' _]. pose proof (base_ok id Hid). unfold in_nat in Hr'. clia.
        -- cbn. lia.
        -- cbn. lia.
      * intros i Hi. etrans; [|exact (Hn2 i Hi)].
        change (nat_stored (save_writes (1 - id) c3 ++ ws2 ++ ws1 ++ l) (m_checkpoint s2) i =
          nat_stored (ws2 ++ ws1 ++ l) (m_checkpoint s2) i).
        apply (stored_same _ _ _ _ _ NODE_NR); [clia..|done|]. intros nn Hnn. apply (Hread (nat_addr nn c3)).
        pose proof (nat_addr_in nn c3 Hnn) as Hr'. unfold in_nat in Hr'. clia.
      * intros i Hi. etrans; [|exact (Hi2 i Hi)].
        change (sit_stored (save_writes (1 - id) c3 ++ ws2 ++ ws1 ++ l) (m_checkpoint s2) i =
          sit_stored (ws2 ++ ws1 ++ l) (m_checkpoint s2) i).
        apply (stored_same _ _ _ _ _ MAIN_SEG_NR); [clia..|done|]. intros nn Hnn. apply (Hread (sit_addr nn c3)).
        pose proof (sit_addr_in nn c3 Hnn) as Hr'. unfold in_sit in Hr'. clia.
      * destruct Hl2 as [[A1 A2 A3] Hb2]. split; [constructor; [exact A1|exact A2|exact A3]|]. intros nn Hnn. destruct (Hb2 nn Hnn) as (t & Ht & Hlt).
        exists t. split; [|done]. rewrite <- Ht. unfold nat_disk, disk.
        pose proof (Hread (nat_addr nn c3)) as E. unfold nat_addr in E.
        change (addr NAT_BLK_NR NAT_START_BLK nat_ver nn (m_checkpoint (set_store st (set_ckpt (closed c3) s3))))
          with (addr NAT_BLK_NR NAT_START_BLK nat_ver nn c3). rewrite E; [done|].
        pose proof (nat_addr_in nn c3 Hnn) as Hr'. unfold in_nat, nat_addr in Hr'. clia.
      * destruct Hsl2 as [[A1 A2 A3] Hb2]. split; [constructor; [exact A1|exact A2|exact A3]|]. intros nn Hnn. destruct (Hb2 nn Hnn) as (t & Ht & Hlt).
        exists t. split; [|done]. rewrite <- Ht. unfold sit_disk, disk.
        pose proof (Hread (sit_addr nn c3)) as E. unfold sit_addr in E.
        change (addr SIT_BLK_NR SIT_START_BLK sit_ver nn (m_checkpoint (set_store st (set_ckpt (closed c3) s3))))
          with (addr SIT_BLK_NR SIT_START_BLK sit_ver nn c3). rewrite E; [done|].
        pose proof (sit_addr_in nn c3 Hnn) as Hr'. unfold in_sit, sit_addr in Hr'. clia.
    + intros a. rewrite !fmap_app, !elem_of_app. pose proof (base_ok _ Hid'). intros [Ha%save_addr|[Ha|Ha]].
      * clia.
      * destruct (H2 _ Ha) as [Hr' _]. unfold in_sit in Hr'. clia.
      * destruct (H1 _ Ha) as [Hr' _]. unfold in_nat in Hr'. clia.
    + intros k Hk. pose proof (crash_found l s fl ws1 ws2 c3 k H H1 H2 Hvo3 Hvc3 Hk) as Hf.
      fold id in Hf. by rewrite <- !app_assoc in Hf.
Qed.

(** C36: what [save_checkpoint] writes to a slot, [load_checkpoint] reads back:
    the header with its new version, the node journal, and the segment
    journal put together from its four blocks; the slot is chosen because its
    version is the greater. *)
Theorem checkpoint_roundtrip (s : Fs) l id : id = 0 \/ id = 1 -> bs_rep (m_storage s) l ->
  ver_open (header (m_checkpoint s)) = ver_close (header (m_checkpoint s)) ->
  0 < ver_close (header (m_checkpoint s)) < INVALID32 ->
  Z.of_nat (length (sit_journals (m_checkpoint s))) = JOURNAL_NR ->
  slot_older l (1 - id) (ver_close (header (m_checkpoint s)) + 1) ->
  exists s', runs (save_checkpoint id ;;; load_checkpoint) s id s' /\
    m_checkpoint s' = closed (m_checkpoint s) /\ m_cur_ckpt s' = id.
Proof.
  intros Hid Hs Hv Hb Hl Ho. destruct (save_checkpoint_spec s l id Hid Hs) as (st & Hr & Hst).
  destruct (save_holds id (m_checkpoint s) l Hv Hb Hl) as [Hh Hver].
  destruct (load_checkpoint_spec (set_store st (set_ckpt (closed (m_checkpoint s)) s)) _ id _ Hid Hst Hh) as (n & Hr').
  - rewrite Hver. apply (slot_older_same l); [|exact Ho]. apply log_read_app. intros Ha%save_addr.
    unfold ckpt_base in Ha. destruct Hid as [-> | ->]; clia.
  - exact Hl.
  - eexists. split; [by eapply runs_bind|done].
Qed.
End Checkpoint.

(** The volume of JournalInv.v. *)
Lemma volume_slot : slot_holds volume_log 0 ckpt_old.
Proof.
  constructor.
  - by vm_compute.
  - eexists. by vm_compute.
  - intros ii Hi. exists BLOCK_CKPT_SIT_JOURNAL. assert (H : ii = 0 \/ ii = 1 \/ ii = 2 \/ ii = 3) by clia.
    destruct H as [->|[->|[->| ->]]]; by vm_compute.
  - by vm_compute.
  - by vm_compute.
Qed.
Lemma volume_other v : 0 < v -> slot_older volume_log 1 v.
Proof.
  intros Hv. eexists. split; [by vm_compute|]. right. exists CKPT_HEAD_zero. split; [done|]. cbn.
  split; [lia|right; lia].
Qed.
Lemma volume_ready : ckpt_ready volume_log fs_volume (range 0 16).
Proof.
  constructor.
  - exact volume_nat_flushable.
  - exact volume_sit_flushable.
  - by left.
  - exact volume_slot.
  - by apply volume_other.
  - by vm_compute.
Qed.
Lemma checkpoint_roundtrip_witness :
  exists s', runs (save_checkpoint 0 ;;; load_checkpoint) fs_volume 0 s' /\
    m_checkpoint s' = closed ckpt_old /\ ver_close (header (m_checkpoint s')) = 2.
Proof.
  destruct (checkpoint_roundtrip fs_volume volume_log 0) as (s' & Hr & Hc & _).
  - by left.
  - reflexivity.
  - reflexivity.
  - by vm_compute.
  - by vm_compute.
  - by apply volume_other.
  - exists s'. split; [exact Hr|]. split; [exact Hc|]. rewrite Hc. reflexivity.
Defined.
