(* ===== verification/FileIO.v ===== *)
(** FileIO: the blocks of a file: reading, writing, truncating, closing
    (f2fs_simulator.cpp).

    A reference to a node is the page that holds it; it stays what it is when
    the page is freed or used for something else. *)
From S2P Require Export Gc Journal.

(** [CIndexPath]: [None] is level -1; otherwise the offset in the inode, the
    offset in the index block, and the page of the index block, if any. *)
Record CIndexPath := mkPath { offset0 : Z; offset1 : Z; index_page : option Z }.

Section FileIO.
Context {St : Type} `{BlockStore St} `{External}.
Abbreviation Fs := (CF2fsSimulator St).

(** [InvalidBlock(reason, phy_blk)] *)
Definition fs_InvalidBlock (phy_blk : Z) : M Fs bool :=
  if is_invalid16 phy_blk then ret false else on_segs (InvalidBlock phy_blk).

Definition inode_index_at (ip i : Z) : M Fs Z :=
  x <- inode_of ip ;; opt (aget (inode_index x) i).
Definition set_inode_index_at (ip i nid : Z) : M Fs unit :=
  x <- inode_of ip ;; l <- opt (aset (inode_index x) i nid) ;; upd_inode ip (set_inode_index l).
Definition index_at (di i : Z) : M Fs Z :=
  x <- index_of di ;; opt (aget (index_index x) i).
Definition set_index_at (di i blk : Z) : M Fs unit :=
  x <- index_of di ;; l <- opt (aset (index_index x) i blk) ;; upd_index di (set_index_index l).

(** [OffsetToIndex]: [None] when the index block cannot be created. *)
Definition OffsetToIndex (ip offset : Z) (alloc : bool) : M Fs (option CIndexPath) :=
  let off0 := offset / INDEX_SIZE in
  let path di := mkPath off0 (offset mod INDEX_SIZE) di in
  nid <- inode_index_at ip off0 ;;
  if is_invalid16 nid then
    if alloc then
      pg <- on_pages allocate ;;
      n <- node_of ip ;;
      ok <- InitIndexNode pg (m_ino n) ;;
      if negb ok then ret None else
      x <- node_of pg ;;
      let nid := m_nid x in
      set_inode_index_at ip off0 nid ;;;
      n <- node_of ip ;;
      ipage <- page_ptr (page_id n) ;;
      set_dirty_page ipage true ;;;
      on_nat (set_node_cache nid pg) ;;;
      phy <- WriteBlockToSeg (InCache pg) false ;;
      if is_invalid16 phy then ret None else
      on_nat (set_phy_blk nid phy) ;;;
      ret (Some (path (Some pg)))
    else ret (Some (path None))
  else
    pg <- ReadNode nid ;;
    ret (Some (path (Some pg))).

Definition NextOffset (p : CIndexPath) : option CIndexPath :=
  if INDEX_SIZE <=? offset1 p + 1 then None
  else Some (mkPath (offset0 p) (offset1 p + 1) (index_page p)).

Definition add_host_write (n : Z) (s : Fs) : Fs :=
  let i := m_fs_info s in
  set_info (mkInfo (main_seg_nr i) (main_blk_nr i) (node_nr i) (page_nr i) (used_blk i)
    (free_blk i) (used_seg i) (free_seg i) (host_write i + n) (media_write i) (free_node i)
    (gc_count i) (free_page i)) s.

(** The number of blocks [FileWriteInternal] believes it may use, a WORD. *)
Definition available_blk (force : bool) (s : Fs) : Z :=
  if force then w16 (get_free_blk_nr (fs_segs s) - RESERVED_SEG * BLOCK_PER_SEG)
  else w16 (get_free_blk_nr (fs_segs s) - (RESERVED_SEG + m_op_segs s) * BLOCK_PER_SEG).

(** The path kept from the block before, or the path to [blk]. *)
Definition path_to (ip blk : Z) (alloc : bool) (path : option CIndexPath) : M Fs (option CIndexPath) :=
  match path with
  | Some p => ret (Some p)
  | None => OffsetToIndex ip blk alloc
  end.

(** The body of the loop of [FileWriteInternal]. *)
Definition write_block (ip ipage : Z) (pages : list Z) (force : bool) (st : option CIndexPath * Z) (blk : Z)
    : M Fs (flow (option CIndexPath * Z)) :=
  let '(path, page_index) := st in
  path <- path_to ip blk true path ;;
  match path with
  | None => ret (Break (None, page_index))
  | Some p =>
      di <- opt (index_page p) ;;
      let off := offset1 p in
      phy_blk <- index_at di off ;;
      dpage <- opt (aget pages page_index) ;;
      dn <- node_of di ;;
      on_pages (page_upd dpage (fun q => set_addr (m_nid dn) off (set_phy_blk_of phy_blk q))) ;;;
      new_phy_blk <- WriteBlockToSeg (InCache dpage) force ;;
      if is_invalid16 new_phy_blk then ret (Break (path, page_index)) else
      set_index_at di off new_phy_blk ;;;
      when (is_invalid16 phy_blk) (
        upd_inode ip (fun i => set_blk_num (w32 (blk_num i + 1)) i) ;;;
        upd_index di (fun x => set_valid_data (w32 (valid_data x + 1)) x) ;;;
        set_dirty_page ipage true) ;;;
      set_dirty_page di true ;;;
      ret (Next (NextOffset p, page_index + 1))
  end.

Definition FileWriteInternal (ip start_blk end_blk : Z) (pages : list Z) (force : bool) : M Fs Z :=
  let data_blk_nr := w32 (end_blk - start_blk) in
  let node_blk_nr := ROUND_UP_DIV data_blk_nr INDEX_SIZE in
  s <- get ;;
  if available_blk force s <? w32 (data_blk_nr + node_blk_nr) then ret 0 else
  n <- node_of ip ;;
  ipage <- page_ptr (page_id n) ;;
  r <- mloop (range start_blk end_blk) (None, 0) (write_block ip ipage pages force) ;;
  modify (add_host_write r.2) ;;;
  ret r.2.

(** The body of the loop of [FileReadInternal]; a hole has no page. *)
Definition read_block (ip : Z) (st : option CIndexPath * list (option Z)) (blk : Z)
    : M Fs (option CIndexPath * list (option Z)) :=
  let '(path, pages) := st in
  path <- path_to ip blk false path ;;
  p <- opt path ;;
  match index_page p with
  | None => ret (Some p, pages ++ [None])
  | Some di =>
      let index := offset1 p in
      blk <- index_at di index ;;
      pg <- (if is_valid16 blk then
               pg <- on_pages allocate ;;
               read_page (phyblk_to_lba blk) (InCache pg) ;;;
               dn <- node_of di ;;
               on_pages (page_upd pg (fun q => set_addr (m_nid dn) index (set_phy_blk_of blk q))) ;;;
               ret (Some pg)
             else ret None) ;;
      ret (NextOffset p, pages ++ [pg])
  end.

Definition FileReadInternal (ip start_blk end_blk : Z) : M Fs (list (option Z)) :=
  r <- mfold (range start_blk end_blk) (None, []) (read_block ip) ;;
  ret r.2.

(** The body of the loop of [FileTruncateInternal]: the block is invalidated, an
    index block without data is given up. *)
Definition truncate_entry (ip di index : Z) : M Fs unit :=
  phy_blk <- index_at di index ;;
  when (is_valid16 phy_blk) (
    fs_InvalidBlock phy_blk ;;;
    set_index_at di index INVALID16 ;;;
    set_dirty_page di true ;;;
    upd_index di (fun x => set_valid_data (w32 (valid_data x - 1)) x) ;;;
    upd_inode ip (fun i => set_blk_num (w32 (blk_num i - 1)) i) ;;;
    set_dirty_page ip true).
Definition release_index (ip di off0 : Z) : M Fs unit :=
  dn <- node_of di ;;
  on_nat (set_node_cache (m_nid dn) INVALID32) ;;;
  on_pages (free (Some di)) ;;;
  put_node (m_nid dn) ;;;
  set_inode_index_at ip off0 INVALID16.
Definition truncate_block (ip : Z) (path : option CIndexPath) (blk : Z) : M Fs (option CIndexPath) :=
  path <- path_to ip blk false path ;;
  p <- opt path ;;
  match index_page p with
  | None => ret (Some p)
  | Some di =>
      truncate_entry ip di (offset1 p) ;;;
      x <- index_of di ;;
      when (valid_data x =? 0) (release_index ip di (offset0 p)) ;;;
      ret (NextOffset p)
  end.

Definition FileTruncateInternal (ip start_blk end_blk : Z) : M Fs unit :=
  mfold (range start_blk end_blk) None (truncate_block ip) ;;;
  ret tt.

Definition add_node_blks (n : Z) : M Fs unit :=
  modify (fun s => set_node_blks (w32 (m_node_blks s + n)) s).

Definition FileRemove (ip : Z) : M Fs unit :=
  x <- inode_of ip ;;
  FileTruncateInternal ip 0 (w16 (ROUND_UP_DIV (file_size x) BLOCK_SIZE)) ;;;
  n <- node_of ip ;;
  on_nat (set_node_cache (m_nid n) INVALID32) ;;;
  on_pages (free (Some ip)) ;;;
  put_node (m_nid n) ;;;
  add_node_blks (-1).

(** The first loops of [CloseInode] and [UpdateInode] visit the index blocks
    [ii] of the file while [ii * INDEX_SIZE < last_blk]. *)
Definition index_range (last_blk : Z) : list Z :=
  filter (fun ii => ii * INDEX_SIZE < last_blk) (range 0 INDEX_TABLE_SIZE).

Definition CloseInode (ip : Z) : M Fs bool :=
  d <- data_at ip ;;
  if negb (m_type d =? BLOCK_INODE) then throw (FsError ERR_WRONG_BLOCK_TYPE) else
  n <- node_of ip ;;
  p <- on_pages (page_at ip) ;;
  let ino := m_nid n in
  if negb (nid p =? ino) then throw (FsError ERR_INVALID_NID) else
  x <- inode_of ip ;;
  if negb (ref_count x =? 0) then ret false else
  if nlink x =? 0 then FileRemove ip ;;; ret true else
  let '(_, last_blk) := OffsetToBlock 0 (file_size x) in
  dirty1 <- mfold (index_range last_blk) false (fun is_dirty ii =>
    nid_ <- inode_index_at ip ii ;;
    if is_invalid16 nid_ then ret is_dirty else
    c <- on_nat (node_cache_at nid_) ;;
    if is_invalid32 c then ret is_dirty else
    pg <- page_ptr c ;;
    q <- on_pages (page_at pg) ;;
    is_dirty' <- (if dirty q then
        if negb (nid q =? nid_) then throw (FsError ERR_INVALID_NID) else
        phy <- WriteBlockToSeg (InCache pg) true ;;
        if is_invalid16 phy then on_pages (free (Some pg)) ;;; throw (FsError ERR_GENERAL) else
        on_nat (set_phy_blk nid_ phy) ;;;
        ret true
      else ret is_dirty) ;;
    on_nat (set_node_cache nid_ INVALID32) ;;;
    on_pages (free (Some pg)) ;;;
    ret is_dirty') ;;
  q <- on_pages (page_at ip) ;;
  dirty2 <- (if dirty q then
      phy <- WriteBlockToSeg (InCache ip) true ;;
      if is_invalid16 phy then on_pages (free (Some ip)) ;;; throw (FsError ERR_GENERAL) else
      on_nat (set_phy_blk ino phy) ;;;
      ret true
    else ret dirty1) ;;
  on_nat (set_node_cache ino INVALID32) ;;;
  on_pages (free (Some ip)) ;;;
  ret dirty2.

(** [UpdateInode] returns the block of the inode, [INVALID16] when a segment
    is missing. *)
Definition UpdateInode (ip : Z) : M Fs Z :=
  x <- inode_of ip ;;
  let '(_, last_blk) := OffsetToBlock 0 (file_size x) in
  failed <- mloop (index_range last_blk) false (fun _ ii =>
    nid_ <- inode_index_at ip ii ;;
    if is_invalid16 nid_ then ret (Next false) else
    c <- on_nat (node_cache_at nid_) ;;
    if is_invalid32 c then ret (Next false) else
    s <- get ;;
    match page c (fs_pages s) with
    | None => throw ERR_USER
    | Some di =>
        dn <- node_of di ;;
        if negb (page_id dn =? c) then throw ERR_USER else
        y <- index_of di ;;
        dp <- on_pages (page_at di) ;;
        if valid_data y =? 0 then
          fs_InvalidBlock (phy_blk dp) ;;;
          add_node_blks (-1) ;;;
          on_nat (set_node_cache nid_ INVALID32) ;;;
          on_pages (free (Some di)) ;;;
          put_node (m_nid dn) ;;;
          set_inode_index_at ip ii INVALID16 ;;;
          set_dirty_page ip true ;;;
          ret (Next false)
        else if dirty dp then
          when (is_invalid16 (phy_blk dp)) (add_node_blks 1) ;;;
          phy <- WriteBlockToSeg (InCache di) false ;;
          if is_invalid16 phy then ret (Break true) else
          on_nat (set_phy_blk nid_ phy) ;;;
          set_dirty_page ip true ;;;
          ret (Next false)
        else set_dirty_page ip true ;;; ret (Next false)
    end) ;;
  if failed : bool then ret INVALID16 else
  q <- on_pages (page_at ip) ;;
  if dirty q then
    when (is_invalid16 (phy_blk q)) (add_node_blks 1) ;;;
    new_phy <- WriteBlockToSeg (InCache ip) false ;;
    if is_invalid16 new_phy then ret INVALID16 else
    n <- node_of ip ;;
    on_nat (set_phy_blk (m_nid n) new_phy) ;;;
    ret new_phy
  else ret (phy_blk q).

(** * Flushing *)
Definition f2fs_sync_node_page : M Fs ERROR_CODE :=
  r <- mloop [0; 1] ERR_OK (fun _ phase =>
    ir <- mloop (range 0 NODE_NR) ERR_OK (fun _ ii =>
      c <- on_nat (node_cache_at ii) ;;
      if is_invalid32 c then ret (Next ERR_OK) else
      pg <- page_ptr c ;;
      p <- on_pages (page_at pg) ;;
      if negb (dirty p) then ret (Next ERR_OK) else
      if (phase =? 0) && negb (m_type (data p) =? BLOCK_INDEX) then ret (Next ERR_OK) else
      phy <- WriteBlockToSeg (InCache pg) true ;;
      if is_invalid16 phy then ret (Break ERR_NO_SPACE) else
      on_nat (set_phy_blk ii phy) ;;;
      set_dirty_page pg false ;;;
      ret (Next ERR_OK)) ;;
    ret (if bool_decide (ir = ERR_OK) then Next ERR_OK else Break ir)) ;;
  ret r.

(** At most 10 rounds. *)
Definition sync_fs : M Fs ERROR_CODE :=
  retry <- mloop (range 0 10) 10 (fun retry _ =>
    nr <- get_dirty_node_nr ;;
    if nr =? 0 then ret (Break retry) else
    ir <- f2fs_sync_node_page ;;
    if bool_decide (ir <> ERR_OK) then throw (FsError ERR_SYNC) else
    ret (Next (retry - 1))) ;;
  if retry <=? 0 then throw (FsError ERR_SYNC) else
  SyncSSA ;;;
  f2fs_write_checkpoint ;;;
  ret ERR_OK.
End FileIO.
