(* ===== verification/FileInv.v ===== *)
(** FileInv: what the pages, the node table and the medium hold of an open file
    whose index blocks are cached, and what reading and writing its blocks do. *)
From S2P Require Export FileIO WriteRoom.

(** The content of a file: a block, or a hole. *)
Definition content := Z -> option BLOCK_DATA.
Definition content_set (c : content) (blk : Z) (o : option BLOCK_DATA) : content :=
  fun b => if b =? blk then o else c b.

(** * The pages *)

(** The page [pg] is in use and holds the node [n]. *)
Definition node_at (pa : CPageAllocator) (pg : Z) (n : NODE_INFO) : Prop :=
  exists p, aget (m_pages pa) pg = Some p /\ in_use p = true /\ body (data p) = U_node n.
(** Data of a file or a directory, not a node. *)
Definition is_data (d : BLOCK_DATA) : Prop :=
  GetBlockTemp d = BT_HOT__DATA /\ forall n, body d <> U_node n.
Definition data_page (pa : CPageAllocator) (pg : Z) (d : BLOCK_DATA) : Prop :=
  exists p, aget (m_pages pa) pg = Some p /\ in_use p = true /\ data p = d.

(** The pages in use keep their data; a node may learn its own page. *)
Definition same_block (y : Z) (d d' : BLOCK_DATA) : Prop :=
  d' = d \/ exists n, body d = U_node n /\
    d' = mkBlock (m_type d) (U_node (mkNode (m_nid n) (m_ino n) y (node_body n))).
Definition keeps_pages (pa pa' : CPageAllocator) : Prop :=
  forall y p, aget (m_pages pa) y = Some p -> in_use p = true ->
    exists p', aget (m_pages pa') y = Some p' /\ in_use p' = true /\ same_block y (data p) (data p').
(** The pages with data keep it. *)
Definition keeps_data (pa pa' : CPageAllocator) : Prop :=
  forall y d, (forall n, body d <> U_node n) -> data_page pa y d -> data_page pa' y d.

#[export] Instance keeps_pages_preorder : PreOrder keeps_pages.
Proof.
  split.
  - intros pa y p Hp Hu. exists p. split_and!; [done|done|by left].
  - intros p1 p2 p3 H1 H2 y p Hp Hu. destruct (H1 y p Hp Hu) as (q & Hq & Hqu & Hpq).
    destruct (H2 y q Hq Hqu) as (r & Hr & Hru & Hqr). exists r. split_and!; [done|done|].
    destruct Hpq as [E|(n & Hn & E)]; rewrite E in Hqr; [exact Hqr|].
    destruct Hqr as [->|(m & Hm & ->)]; right; exists n; (split; [done|]); [done|].
    cbn in Hm. injection Hm as <-. done.
Qed.
#[export] Instance keeps_data_preorder : PreOrder keeps_data.
Proof. split; [by intros pa y d|]. intros p1 p2 p3 H1 H2 y d Hd Hp. apply H2, H1; done. Qed.

Lemma keeps_pages_data pa pa' : keeps_pages pa pa' -> keeps_data pa pa'.
Proof.
  intros H y d Hd (p & Hp & Hu & <-). destruct (H y p Hp Hu) as (p' & Hp' & Hu' & [E|(n & Hn & _)]).
  - by exists p'.
  - by destruct (Hd n).
Qed.
Lemma keeps_pages_node pa pa' pg n : keeps_pages pa pa' -> node_at pa pg n ->
  exists pid, node_at pa' pg (mkNode (m_nid n) (m_ino n) pid (node_body n)) /\ (pid = page_id n \/ pid = pg).
Proof.
  intros H (p & Hp & Hu & Hn). destruct (H pg p Hp Hu) as (p' & Hp' & Hu' & [E|(m & Hm & E)]).
  - exists (page_id n). split; [|by left]. exists p'. split_and!; [done|done|]. rewrite E, Hn. by destruct n.
  - exists pg. split; [|by right]. exists p'. split_and!; [done|done|]. rewrite E. cbn. congruence.
Qed.

(** Updates that keep the block of a page. *)
Lemma keeps_upd pa pa' pg p p' : aget (m_pages pa) pg = Some p -> aget (m_pages pa') pg = Some p' ->
  in_use p' = true -> same_block pg (data p) (data p') ->
  (forall y, y <> pg -> aget (m_pages pa') y = aget (m_pages pa) y) -> keeps_pages pa pa'.
Proof.
  intros Hp Hp' Hu Hd Ho y q Hq Hqu. destruct (decide (y = pg)) as [->|Hne].
  - assert (p = q) as <- by congruence. by exists p'.
  - exists q. rewrite Ho by done. split_and!; [done|done|by left].
Qed.
(** A page that is not in use may become anything. *)
Lemma keeps_fresh pa pa' pg p : aget (m_pages pa) pg = Some p -> in_use p = false ->
  (forall y, y <> pg -> aget (m_pages pa') y = aget (m_pages pa) y) -> keeps_pages pa pa'.
Proof.
  intros Hp Hu Ho y q Hq Hqu. destruct (decide (y = pg)) as [->|Hne]; [congruence|].
  exists q. rewrite Ho by done. split_and!; [done|done|by left].
Qed.

(** * Nodes in the cache *)
Section Nodes.
Context {St : Type} `{HB : BlockStore St, HL : !BlockStoreLaws St}.
Abbreviation Fs := (CF2fsSimulator St).
Implicit Types s : Fs.

Lemma node_of_runs s pg n : node_at (fs_pages s) pg n -> runs (node_of pg) s n s.
Proof.
  intros (p & Hp & Hu & Hn). unfold node_of, body_at, data_at.
  eapply runs_bind; [eapply runs_bind; [eapply runs_bind; [by apply (on_pages_at s pg p)|done]|done]|].
  by rewrite Hn.
Qed.
Lemma inode_of_runs s pg n k pid i : node_at (fs_pages s) pg (mkNode n k pid (N_inode i)) ->
  runs (inode_of pg) s i s.
Proof. intros H. unfold inode_of. eapply runs_bind; [by apply node_of_runs|done]. Qed.
Lemma index_of_runs s pg n k pid x : node_at (fs_pages s) pg (mkNode n k pid (N_index x)) ->
  runs (index_of pg) s x s.
Proof. intros H. unfold index_of. eapply runs_bind; [by apply node_of_runs|done]. Qed.

(** Writing a node in its page. *)
Definition node_step (s : Fs) fl pg (n : NODE_INFO) (pa : CPageAllocator) : Prop :=
  pages_wf pa fl /\ node_at pa pg n /\
  forall y, y <> pg -> aget (m_pages pa) y = aget (m_pages (fs_pages s)) y.

Lemma put_body_runs s fl pg n n' : pages_wf (fs_pages s) fl -> node_at (fs_pages s) pg n ->
  exists pa, runs (put_node_body pg n') s tt (set_pages pa s) /\ node_step s fl pg n' pa /\
    (exists p p', aget (m_pages (fs_pages s)) pg = Some p /\ aget (m_pages pa) pg = Some p' /\
       in_use p' = true /\ data p' = mkBlock (m_type (data p)) (U_node n')).
Proof.
  intros Hw (p & Hp & Hu & Hn).
  destruct (on_pages_upd s fl pg p (fun p => set_data (mkBlock (m_type (data p)) (U_node n')) p) Hw Hp Hu Hu)
    as (pa & Hr & Hw' & Hg & Ho). cbn in Hg.
  exists pa. split_and!; [exact Hr| |by exists p, (set_data (mkBlock (m_type (data p)) (U_node n')) p)].
  split_and!; [done| |done]. by eexists.
Qed.
Lemma upd_inode_runs s fl pg n k pid i f : pages_wf (fs_pages s) fl ->
  node_at (fs_pages s) pg (mkNode n k pid (N_inode i)) ->
  exists pa, runs (upd_inode pg f) s tt (set_pages pa s) /\ node_step s fl pg (mkNode n k pid (N_inode (f i))) pa.
Proof.
  intros Hw Hn. destruct (put_body_runs s fl pg _ (mkNode n k pid (N_inode (f i))) Hw Hn) as (pa & Hr & Hp & _).
  exists pa. split; [|done]. unfold upd_inode. eapply runs_bind; [by apply node_of_runs|]. by eapply runs_bind.
Qed.
Lemma upd_index_runs s fl pg n k pid x f : pages_wf (fs_pages s) fl ->
  node_at (fs_pages s) pg (mkNode n k pid (N_index x)) ->
  exists pa, runs (upd_index pg f) s tt (set_pages pa s) /\ node_step s fl pg (mkNode n k pid (N_index (f x))) pa.
Proof.
  intros Hw Hn. destruct (put_body_runs s fl pg _ (mkNode n k pid (N_index (f x))) Hw Hn) as (pa & Hr & Hp & _).
  exists pa. split; [|done]. unfold upd_index. eapply runs_bind; [by apply node_of_runs|]. by eapply runs_bind.
Qed.
Lemma set_dirty_runs s fl pg n b : pages_wf (fs_pages s) fl -> node_at (fs_pages s) pg n ->
  exists pa, runs (set_dirty_page pg b) s tt (set_pages pa s) /\ node_step s fl pg n pa.
Proof.
  intros Hw (p & Hp & Hu & Hn).
  destruct (on_pages_upd s fl pg p (set_dirty_flag b) Hw Hp Hu Hu) as (pa & Hr & Hw' & Hg & Ho).
  exists pa. split; [exact Hr|]. split_and!; [done| |done]. by eexists.
Qed.
Lemma set_page_id_runs s fl pg n : pages_wf (fs_pages s) fl -> node_at (fs_pages s) pg n ->
  exists pa, runs (set_page_id pg pg) s tt (set_pages pa s) /\ pages_wf pa fl /\
    keeps_pages (fs_pages s) pa.
Proof.
  intros Hw Hn. pose proof Hn as (p & Hp & Hu & Hb).
  destruct (put_body_runs s fl pg _ (mkNode (m_nid n) (m_ino n) pg (node_body n)) Hw Hn)
    as (pa & Hr & (Hw' & _ & Ho) & (p0 & p' & Hp0 & Hp' & Hu' & Hd')).
  exists pa. split_and!; [|done|].
  - unfold set_page_id. eapply runs_bind; [by apply node_of_runs|exact Hr].
  - assert (p0 = p) as -> by congruence. eapply keeps_upd; [exact Hp|exact Hp'|exact Hu'| |exact Ho].
    right. by exists n.
Qed.
Lemma node_page s fl pg n : pages_wf (fs_pages s) fl -> node_at (fs_pages s) pg n ->
  runs (page_ptr pg) s pg s /\ is_invalid32 pg = false.
Proof.
  intros Hw (p & Hp & _). apply aget_bounds in Hp. rewrite (pw_len _ _ Hw) in Hp. pose proof (pw_nr _ _ Hw).
  split; [|apply Z.eqb_neq; lia]. unfold page_ptr, page. eapply runs_bind; [done|].
  by rewrite (proj2 (Z.leb_gt _ _)) by lia.
Qed.
End Nodes.

(** * The file *)
Section File.
Context {St : Type} `{HB : BlockStore St, HL : !BlockStoreLaws St} `{HE : External}.
Abbreviation Fs := (CF2fsSimulator St).
Implicit Types (s : Fs) (c : content) (l : wlog).

Record fs_rep s (q fl : list Z) l : Prop := {
  fp_segs : segs_wf (fs_segs s) q;
  fp_pages : pages_wf (fs_pages s) fl;
  fp_store : bs_rep (m_storage s) l
}.

(** Entry [off] of the index block [nid] is [b]: a hole, or a live block that
    records its owner and holds the data on the medium. *)
Definition entry_rep s l (nid off b : Z) (d : option BLOCK_DATA) : Prop :=
  match d with
  | None => b = INVALID16
  | Some d => 0 <= b < MAIN_BLK_NR /\ blk_live (fs_segs s) b /\ owner_of (fs_segs s) b = Some (nid, off) /\
      log_read (phyblk_to_lba b) l = Some d
  end.
Definition index_rep s l (nid di : Z) c : Prop :=
  exists k pid x, node_at (fs_pages s) di (mkNode nid k pid (N_index x)) /\
    Z.of_nat (length (index_index x)) = INDEX_SIZE /\
    forall off, 0 <= off < INDEX_SIZE ->
      exists b, aget (index_index x) off = Some b /\ entry_rep s l nid off b (c off).
(** An index block of the file is missing, or is the node [nid] in the page
    [di]. *)
Definition slot_rep s l (m : option (Z * Z)) (nid : Z) c : Prop :=
  match m with
  | None => nid = INVALID16 /\ forall off, 0 <= off < INDEX_SIZE -> c off = None
  | Some (nid', di) => nid = nid' /\ 0 <= nid < NODE_NR /\
      aget (node_cache (fs_nat s)) nid = Some di /\ index_rep s l nid di c
  end.
(** The inode in the page [ip] has the index blocks [m] and the content [c]. *)
Record file_rep s l (ip : Z) (m : Z -> option (Z * Z)) c : Prop := {
  fr_inode : exists n k i, node_at (fs_pages s) ip (mkNode n k ip (N_inode i)) /\
    Z.of_nat (length (inode_index i)) = INDEX_TABLE_SIZE /\
    forall ii, 0 <= ii < INDEX_TABLE_SIZE ->
      exists nid, aget (inode_index i) ii = Some nid /\
        slot_rep s l (m ii) nid (fun off => c (ii * INDEX_SIZE + off));
  fr_apart ii jj nid di dj : m ii = Some (nid, di) -> m jj = Some (nid, dj) -> ii = jj;
  fr_data blk d : c blk = Some d -> is_data d
}.

Lemma slot_rep_pages s l m nid c pa : slot_rep s l m nid c -> keeps_pages (fs_pages s) pa ->
  slot_rep (set_pages pa s) l m nid c.
Proof.
  intros Hs Hk. destruct m as [[nid' di]|]; [|done]. destruct Hs as (E & Hr & Hc & (k & pid & x & Hn & Hl & He)).
  split_and!; [done|lia|lia|done|]. destruct (keeps_pages_node _ _ _ _ Hk Hn) as (pid' & Hn' & _).
  by exists k, pid', x.
Qed.
Lemma file_rep_pages s l ip m c pa : file_rep s l ip m c -> keeps_pages (fs_pages s) pa ->
  file_rep (set_pages pa s) l ip m c.
Proof.
  intros [(n & k & i & Hn & Hl & Hs) Ha Hd] Hk. constructor; [|done|done].
  destruct (keeps_pages_node _ _ _ _ Hk Hn) as (pid' & Hn' & Hp). cbn in Hn', Hp. assert (pid' = ip) as -> by naive_solver.
  exists n, k, i. split_and!; [done|done|]. intros ii Hi. destruct (Hs ii Hi) as (nid & Hg & Hr).
  exists nid. split; [done|]. by apply slot_rep_pages.
Qed.
Lemma fs_rep_pages s q fl l pa fl' : fs_rep s q fl l -> pages_wf pa fl' -> fs_rep (set_pages pa s) q fl' l.
Proof. by intros [H1 H2 H3] H. Qed.

(** The index block of the slot [ii]. *)
Lemma file_slot s l ip m c ii nid di : file_rep s l ip m c -> 0 <= ii < INDEX_TABLE_SIZE -> m ii = Some (nid, di) ->
  0 <= nid < NODE_NR /\ aget (node_cache (fs_nat s)) nid = Some di /\
  index_rep s l nid di (fun off => c (ii * INDEX_SIZE + off)) /\
  exists n k i, node_at (fs_pages s) ip (mkNode n k ip (N_inode i)) /\ aget (inode_index i) ii = Some nid.
Proof.
  intros [(n & k & i & Hn & Hl & Hs) Ha _] Hi Hm. destruct (Hs ii Hi) as (nid' & Hg & Hr). rewrite Hm in Hr.
  destruct Hr as (-> & Hb & Hc & Hx). split_and!; [lia|lia|done|done|]. by exists n, k, i.
Qed.

(** * The path to a block *)
Definition path_of (blk di : Z) : CIndexPath := mkPath (blk / INDEX_SIZE) (blk mod INDEX_SIZE) (Some di).
Definition path_ok (m : Z -> option (Z * Z)) (st : option CIndexPath) (blk : Z) : Prop :=
  st = None \/ exists nid di, m (blk / INDEX_SIZE) = Some (nid, di) /\ st = Some (path_of blk di).

Lemma ReadNode_cached s q fl l nid di n : fs_rep s q fl l -> 0 <= nid < NODE_NR ->
  aget (node_cache (fs_nat s)) nid = Some di -> node_at (fs_pages s) di n ->
  exists pa, runs (ReadNode nid) s di (set_pages pa s) /\ pages_wf pa fl /\ keeps_pages (fs_pages s) pa.
Proof.
  intros Hs Hr Hc Hn. destruct (node_page s fl di n (fp_pages _ _ _ _ Hs) Hn) as [Hpp Hv].
  destruct (set_page_id_runs s fl di n (fp_pages _ _ _ _ Hs) Hn) as (pa & Hsp & Hw & Hk).
  exists pa. split_and!; [|done|done]. unfold ReadNode. rewrite (proj2 (Z.leb_gt _ _)) by lia.
  eapply runs_bind.
  { apply on_nat_keeps. unfold runs, node_cache_at, bind, get, opt. by rewrite Hc. }
  rewrite Hv. cbn [negb]. eapply runs_bind; [exact Hpp|]. by eapply runs_bind.
Qed.

Lemma path_to_runs s q fl l ip m c st blk nid di alloc :
  fs_rep s q fl l -> file_rep s l ip m c -> 0 <= blk < MAX_FILE_BLKS ->
  m (blk / INDEX_SIZE) = Some (nid, di) -> path_ok m st blk ->
  exists pa, runs (path_to ip blk alloc st) s (Some (path_of blk di)) (set_pages pa s) /\
    pages_wf pa fl /\ keeps_pages (fs_pages s) pa.
Proof.
  intros Hs Hf Hb Hm Hst.
  assert (Hii : 0 <= blk / INDEX_SIZE < INDEX_TABLE_SIZE).
  { split; [apply Z.div_pos; clia|apply Z.div_lt_upper_bound; clia]. }
  destruct (file_slot _ _ _ _ _ _ _ _ Hf Hii Hm) as (Hnr & Hc & (k & pid & x & Hx & _) & (n & k' & i & Hn & Hg)).
  destruct Hst as [->|(nid' & di' & Hm' & ->)]; cbn [path_to].
  - destruct (ReadNode_cached _ _ _ _ _ _ _ Hs Hnr Hc Hx) as (pa & Hr & Hw & Hk).
    exists pa. split_and!; [|done|done]. unfold OffsetToIndex. eapply runs_bind.
    { unfold inode_index_at. eapply runs_bind; [by eapply inode_of_runs|]. by rewrite Hg. }
    rewrite (proj2 (Z.eqb_neq _ _)) by clia. by eapply runs_bind.
  - assert (di' = di) as -> by congruence. exists (fs_pages s). split_and!; [by rewrite set_pages_id|apply Hs|done].
Qed.

Lemma next_path m blk nid di : 0 <= blk -> m (blk / INDEX_SIZE) = Some (nid, di) ->
  path_ok m (NextOffset (path_of blk di)) (blk + 1).
Proof.
  intros Hb Hm. unfold NextOffset, path_of. cbn [offset0 offset1 index_page].
  destruct (Z.leb_spec INDEX_SIZE (blk mod INDEX_SIZE + 1)) as [|Hlt]; [by left|]. right.
  pose proof (Z.mod_pos_bound blk INDEX_SIZE ltac:(clia)). pose proof (Z.div_mod blk INDEX_SIZE ltac:(clia)).
  assert ((blk + 1) / INDEX_SIZE = blk / INDEX_SIZE) as Ed
    by (symmetry; apply (Z.div_unique _ _ _ (blk mod INDEX_SIZE + 1)); clia).
  assert ((blk + 1) mod INDEX_SIZE = blk mod INDEX_SIZE + 1) as Em
    by (symmetry; apply (Z.mod_unique _ _ (blk / INDEX_SIZE)); clia).
  exists nid, di. unfold path_of. by rewrite Ed, Em.
Qed.

(** * Reading *)

(** A page for a block, none for a hole. *)
Definition read_ok (pa : CPageAllocator) c (blk : Z) (r : option Z) : Prop :=
  match c blk with
  | None => r = None
  | Some d => exists pg, r = Some pg /\ data_page pa pg d
  end.

(** The entry of [blk] in its index block. *)
Lemma file_entry s l ip m c blk nid di : file_rep s l ip m c -> 0 <= blk < MAX_FILE_BLKS ->
  m (blk / INDEX_SIZE) = Some (nid, di) ->
  exists k pid x b, node_at (fs_pages s) di (mkNode nid k pid (N_index x)) /\
    Z.of_nat (length (index_index x)) = INDEX_SIZE /\
    aget (index_index x) (blk mod INDEX_SIZE) = Some b /\ entry_rep s l nid (blk mod INDEX_SIZE) b (c blk).
Proof.
  intros Hf Hb Hm. assert (Hii : 0 <= blk / INDEX_SIZE < INDEX_TABLE_SIZE).
  { split; [apply Z.div_pos; clia|apply Z.div_lt_upper_bound; clia]. }
  destruct (file_slot _ _ _ _ _ _ _ _ Hf Hii Hm) as (_ & _ & (k & pid & x & Hx & Hl & He) & _).
  pose proof (Z.mod_pos_bound blk INDEX_SIZE ltac:(clia)) as Hmb.
  destruct (He (blk mod INDEX_SIZE) Hmb) as (b & Hb1 & Hb2). exists k, pid, x, b.
  replace (blk / INDEX_SIZE * INDEX_SIZE + blk mod INDEX_SIZE) with blk in Hb2; [done|].
  pose proof (Z.div_mod blk INDEX_SIZE ltac:(clia)). lia.
Qed.
Lemma index_at_runs s di nid k pid x off b : node_at (fs_pages s) di (mkNode nid k pid (N_index x)) ->
  aget (index_index x) off = Some b -> runs (index_at di off) s b s.
Proof. intros Hn Hb. unfold index_at. eapply runs_bind; [by eapply index_of_runs|]. by rewrite Hb. Qed.
Lemma entry_lba s l nid off b d : entry_rep s l nid off b (Some d) ->
  is_invalid16 b = false /\ lba_ok (phyblk_to_lba b) /\ log_read (phyblk_to_lba b) l = Some d.
Proof.
  intros (Hb & _ & _ & Hl). split_and!; [apply Z.eqb_neq; clia|unfold lba_ok, phyblk_to_lba; clia|done].
Qed.

(** Reading a block that is there. *)
Lemma load_runs s q x fl l di n b d index : fs_rep s q (x :: fl) l -> node_at (fs_pages s) di n ->
  lba_ok (phyblk_to_lba b) -> log_read (phyblk_to_lba b) l = Some d ->
  exists pa, runs (pg <- on_pages allocate ;;
       read_page (phyblk_to_lba b) (InCache pg) ;;;
       dn <- node_of di ;;
       on_pages (page_upd pg (fun q => set_addr (m_nid dn) index (set_phy_blk_of b q))) ;;;
       ret (Some pg)) s (Some x) (set_pages pa s) /\
    pages_wf pa fl /\ keeps_pages (fs_pages s) pa /\ data_page pa x d.
Proof.
  intros Hs Hn Hb Hd. pose proof (fp_pages _ _ _ _ Hs) as Hw.
  destruct (free_chain_in _ _ _ x (pw_chain _ _ Hw) ltac:(set_solver)) as [p Hp].
  assert (in_use p = false) as Hpu by (apply (pw_free _ _ Hw _ _ Hp); set_solver).
  destruct (allocate_spec _ _ _ Hw) as (p1 & Hr1 & Hw1 & Hg1 & Ho1).
  destruct (on_pages_upd (set_pages p1 s) fl x page_Init (set_data d) Hw1 Hg1 eq_refl eq_refl)
    as (p2 & Hr2 & Hw2 & Hg2 & Ho2).
  assert (Hk2 : keeps_pages (fs_pages s) p2).
  { apply (keeps_fresh _ _ x p Hp Hpu). intros y Hy. rewrite Ho2 by done. by apply Ho1. }
  destruct (keeps_pages_node _ _ _ _ Hk2 Hn) as (pid & Hn2 & _).
  destruct (on_pages_upd (set_pages p2 s) fl x _ (fun q => set_addr (m_nid n) index (set_phy_blk_of b q)) Hw2 Hg2 eq_refl eq_refl)
    as (p3 & Hr3 & Hw3 & Hg3 & Ho3).
  exists p3. split_and!.
  - eapply runs_bind; [by apply on_pages_runs|]. eapply runs_bind.
    { unfold read_page. eapply runs_bind; [|exact Hr2]. by apply (store_read_spec (set_pages p1 s) l _ d (fp_store _ _ _ _ Hs)). }
    eapply runs_bind; [by apply (node_of_runs (set_pages p2 s))|].
    eapply runs_bind; [exact Hr3|]. done.
  - done.
  - apply (keeps_fresh _ _ x p Hp Hpu). intros y Hy. rewrite Ho3, Ho2 by done. by apply Ho1.
  - eexists. split; [exact Hg3|]. done.
Qed.

Lemma read_block_runs s q fl l ip m c st blk nid di pages :
  fs_rep s q fl l -> file_rep s l ip m c -> 0 <= blk < MAX_FILE_BLKS ->
  m (blk / INDEX_SIZE) = Some (nid, di) -> path_ok m st blk -> (c blk <> None -> fl <> []) ->
  exists r pa fl', runs (read_block ip (st, pages) blk) s (NextOffset (path_of blk di), pages ++ [r]) (set_pages pa s) /\
    pages_wf pa fl' /\ keeps_pages (fs_pages s) pa /\ read_ok pa c blk r /\
    fl = option_list r ++ fl'.
Proof.
  intros Hs Hf Hb Hm Hst Hfl.
  destruct (path_to_runs _ _ _ _ _ _ _ _ _ _ _ false Hs Hf Hb Hm Hst) as (p1 & Hr1 & Hw1 & Hk1).
  set (s1 := set_pages p1 s).
  assert (Hs1 : fs_rep s1 q fl l) by (by eapply fs_rep_pages).
  assert (Hf1 : file_rep s1 l ip m c) by (by apply file_rep_pages).
  destruct (file_entry _ _ _ _ _ _ _ _ Hf1 Hb Hm) as (k & pid & x & b & Hx & Hl & Hg & He).
  pose proof (index_at_runs _ _ _ _ _ _ _ _ Hx Hg) as Hia. unfold read_ok.
  destruct (c blk) as [d|].
  - destruct fl as [|y fl]; [by destruct (Hfl ltac:(done))|].
    destruct (entry_lba _ _ _ _ _ _ He) as (Hv & Hlba & Hlog).
    destruct (load_runs s1 q y fl l di _ b d (blk mod INDEX_SIZE) Hs1 Hx Hlba Hlog) as (p2 & Hr2 & Hw2 & Hk2 & Hd).
    exists (Some y), p2, fl. split_and!; [|done|by trans p1|by exists y|done].
    unfold read_block. eapply runs_bind; [exact Hr1|]. eapply runs_bind; [done|]. cbn [index_page path_of].
    eapply runs_bind; [exact Hia|]. rewrite Hv. cbn [negb]. eapply runs_bind; [exact Hr2|done].
  - cbn in He. subst b. exists None, p1, fl. split_and!; [|done|done|done|done].
    unfold read_block. eapply runs_bind; [exact Hr1|]. eapply runs_bind; [done|]. cbn [index_page path_of].
    eapply runs_bind; [exact Hia|]. done.
Qed.

Lemma read_ok_keeps pa pa' c blk r : (forall d, c blk = Some d -> is_data d) -> keeps_pages pa pa' ->
  read_ok pa c blk r -> read_ok pa' c blk r.
Proof.
  intros Hd Hk. unfold read_ok. destruct (c blk) as [d|]; [|done]. intros (pg & -> & Hp).
  exists pg. split; [done|]. eapply keeps_pages_data; [done| |done]. by apply Hd.
Qed.

(** The loop, from block [lo] on. *)
Lemma read_loop ip m c l q (hi : Z) : forall (k : nat) (lo : Z) s st pages fl, Z.of_nat k = hi - lo ->
  fs_rep s q fl l -> file_rep s l ip m c -> 0 <= lo -> hi <= MAX_FILE_BLKS ->
  (forall blk, lo <= blk < hi -> m (blk / INDEX_SIZE) <> None) -> path_ok m st lo ->
  (length (omap c (range lo hi)) <= length fl)%nat ->
  exists rs st' pa fl', runs (mfold (range lo hi) (st, pages) (read_block ip)) s (st', pages ++ rs) (set_pages pa s) /\
    pages_wf pa fl' /\ keeps_pages (fs_pages s) pa /\ Forall2 (read_ok pa c) (range lo hi) rs /\
    fl = omap id rs ++ fl'.
Proof.
  induction k as [|k IH]; intros lo s st pages fl Hk Hs Hf Hlo Hhi Hm Hst Hfl.
  - rewrite range_nil by lia. exists [], st, (fs_pages s), fl.
    split_and!; [by rewrite app_nil_r, set_pages_id|apply Hs|done|constructor|done].
  - rewrite range_cons in Hfl |- * by lia. cbn [omap list_omap] in Hfl.
    destruct (m (lo / INDEX_SIZE)) as [[nid di]|] eqn:Hml; [|by destruct (Hm lo ltac:(lia))].
    destruct (read_block_runs s q fl l ip m c st lo nid di pages) as (r & p1 & fl1 & Hr1 & Hw1 & Hk1 & Hok & ->);
      [done|done|lia|done|done| |].
    { intros Hc. destruct (c lo); [|done]. by destruct fl; cbn in Hfl; [lia|]. }
    assert (Hf1 : file_rep (set_pages p1 s) l ip m c) by (by apply file_rep_pages).
    destruct (IH (lo + 1) (set_pages p1 s) (NextOffset (path_of lo di)) (pages ++ [r]) fl1)
      as (rs & st' & p2 & fl2 & Hr2 & Hw2 & Hk2 & Hok2 & ->);
      [lia|by eapply fs_rep_pages|done|lia|lia|intros blk Hb; apply Hm; lia|by eapply next_path| |].
    { unfold read_ok in Hok. rewrite length_app in Hfl. destruct (c lo).
      - destruct Hok as (pg & -> & _). cbn in Hfl. lia.
      - subst r. cbn in Hfl. lia. }
    exists (r :: rs), st', p2, fl2. split_and!; [|done|by trans p1| |].
    + cbn [mfold]. eapply runs_bind; [exact Hr1|]. rewrite <- app_assoc in Hr2. exact Hr2.
    + constructor; [|done]. eapply read_ok_keeps; [|exact Hk2|done]. intros d. apply Hf.
    + by destruct r.
Qed.

Lemma FileReadInternal_spec s q fl l ip m c lo hi :
  fs_rep s q fl l -> file_rep s l ip m c -> 0 <= lo <= hi -> hi <= MAX_FILE_BLKS ->
  (forall blk, lo <= blk < hi -> m (blk / INDEX_SIZE) <> None) ->
  (length (omap c (range lo hi)) <= length fl)%nat ->
  exists rs pa fl', runs (FileReadInternal ip lo hi) s rs (set_pages pa s) /\
    Forall2 (read_ok pa c) (range lo hi) rs /\ fl = omap id rs ++ fl' /\
    fs_rep (set_pages pa s) q fl' l /\ file_rep (set_pages pa s) l ip m c /\ keeps_pages (fs_pages s) pa.
Proof.
  intros Hs Hf Hlo Hhi Hm Hfl.
  destruct (read_loop ip m c l q hi (Z.to_nat (hi - lo)) lo s None [] fl)
    as (rs & st' & pa & fl' & Hr & Hw & Hk & Hok & E); [lia|done..|lia|lia|done|by left|done|].
  exists rs, pa, fl'. split_and!; [|done|done|by eapply fs_rep_pages|by apply file_rep_pages|done].
  unfold FileReadInternal. by eapply runs_bind.
Qed.
End File.
