(* ===== verification/FileWriteInv.v ===== *)
(** FileWriteInv: what writing the blocks of an open file does, and that what
    was written is what is read. *)
From S2P Require Export FileInv.

Section Write.
Context {St : Type} `{HB : BlockStore St, HL : !BlockStoreLaws St} `{HE : External, HX : !ExternalLaws}.
Abbreviation Fs := (CF2fsSimulator St).
Implicit Types (s : Fs) (c : content) (l : wlog).

(** * What a write leaves *)

(** Entry [off] of the index block [nid] is replaced by a block or a hole, the
    other entries are what they were. *)
Record entry_written (s s' : Fs) (l l' : wlog) ip nid di off new d : Prop := {
  ew_nat : fs_nat s' = fs_nat s;
  ew_others nid' off' b o : nid' <> nid \/ off' <> off ->
    entry_rep s l nid' off' b o -> entry_rep s' l' nid' off' b o;
  ew_new : entry_rep s' l' nid off new d;
  ew_inode n k i : node_at (fs_pages s) ip (mkNode n k ip (N_inode i)) ->
    exists i', node_at (fs_pages s') ip (mkNode n k ip (N_inode i')) /\ inode_index i' = inode_index i;
  ew_index k pid x : node_at (fs_pages s) di (mkNode nid k pid (N_index x)) ->
    exists pid' x', node_at (fs_pages s') di (mkNode nid k pid' (N_index x')) /\
      index_index x' = <[Z.to_nat off := new]> (index_index x);
  ew_nodes y n : y <> ip -> y <> di -> node_at (fs_pages s) y n ->
    exists pid, node_at (fs_pages s') y (mkNode (m_nid n) (m_ino n) pid (node_body n))
}.

Lemma node_at_inj pa pg n n' : node_at pa pg n -> node_at pa pg n' -> n = n'.
Proof. intros (p & Hp & _ & Hn) (p' & Hp' & _ & Hn'). congruence. Qed.

Lemma index_written s s' l l' ip nid di off new d c :
  0 <= off < INDEX_SIZE -> entry_written s s' l l' ip nid di off new d ->
  index_rep s l nid di c -> index_rep s' l' nid di (content_set c off d).
Proof.
  intros Ho Hw (k & pid & x & Hn & Hl & He).
  destruct (ew_index _ _ _ _ _ _ _ _ _ _ Hw _ _ _ Hn) as (pid' & x' & Hn' & Hx').
  exists k, pid', x'. split_and!; [done|by rewrite Hx', length_insert|].
  intros j Hj. rewrite Hx'. unfold content_set. destruct (Z.eqb_spec j off) as [->|Hne].
  - exists new. rewrite aget_insert_eq by lia. split; [done|]. exact (ew_new _ _ _ _ _ _ _ _ _ _ Hw).
  - rewrite aget_insert_ne by lia. destruct (He j Hj) as (b & Hb & Hr). exists b. split; [done|].
    eapply ew_others; [exact Hw|by right|done].
Qed.

Lemma slot_written s s' l l' ip nid di off new d m nid' c n k i :
  entry_written s s' l l' ip nid di off new d -> node_at (fs_pages s) ip (mkNode n k ip (N_inode i)) ->
  (forall dj, m <> Some (nid, dj)) -> (exists k pid x, node_at (fs_pages s) di (mkNode nid k pid (N_index x))) ->
  slot_rep s l m nid' c -> slot_rep s' l' m nid' c.
Proof.
  intros Hw Hip Hm (k1 & pid1 & x1 & Hdi) Hs. destruct m as [[nid2 dj]|]; [|done].
  destruct Hs as (-> & Hr & Hc & (k2 & pid & x & Hn & Hl & He)).
  assert (nid2 <> nid) as Hne by (intros ->; by apply (Hm dj)).
  split_and!; [done|lia|lia|by rewrite (ew_nat _ _ _ _ _ _ _ _ _ _ Hw)|].
  assert (dj <> ip) as N1 by (intros ->; pose proof (node_at_inj _ _ _ _ Hip Hn); congruence).
  assert (dj <> di) as N2 by (intros ->; pose proof (node_at_inj _ _ _ _ Hdi Hn); congruence).
  destruct (ew_nodes _ _ _ _ _ _ _ _ _ _ Hw dj _ N1 N2 Hn) as (pid' & Hn').
  exists k2, pid', x. split_and!; [done|done|]. intros j Hj. destruct (He j Hj) as (b & Hb & Hr').
  exists b. split; [done|]. eapply ew_others; [exact Hw|by left|done].
Qed.

Lemma file_rep_ext s l ip m c c' : (forall b, c b = c' b) -> file_rep s l ip m c -> file_rep s l ip m c'.
Proof.
  intros E [(n & k & i & Hn & Hl & Hs) Ha Hd]. constructor; [|done|by intros b d; rewrite <- E; apply Hd].
  exists n, k, i. split_and!; [done|done|]. intros ii Hi. destruct (Hs ii Hi) as (nid & Hg & Hr).
  exists nid. split; [done|]. destruct (m ii) as [[nid' di]|].
  - destruct Hr as (-> & Hb & Hc & (k2 & pid & x & Hx & Hxl & He)). split_and!; [done|lia|lia|done|].
    exists k2, pid, x. split_and!; [done|done|]. intros j Hj. rewrite <- E. by apply He.
  - destruct Hr as [-> Hr]. split; [done|]. intros j Hj. rewrite <- E. by apply Hr.
Qed.

Lemma file_written s s' l l' ip m c nid di blk new d :
  file_rep s l ip m c -> 0 <= blk < MAX_FILE_BLKS -> m (blk / INDEX_SIZE) = Some (nid, di) -> (forall e, d = Some e -> is_data e) ->
  entry_written s s' l l' ip nid di (blk mod INDEX_SIZE) new d ->
  file_rep s' l' ip m (content_set c blk d).
Proof.
  intros Hf Hb Hm Hd Hw. pose proof (Z.mod_pos_bound blk INDEX_SIZE ltac:(clia)) as Hmb.
  pose proof (Z.div_mod blk INDEX_SIZE ltac:(clia)) as Hdm.
  destruct (file_entry _ _ _ _ _ _ _ _ Hf Hb Hm) as (k2 & pid & x & b & Hx & _).
  destruct Hf as [(n & k & i & Hn & Hl & Hs) Ha Hcd].
  constructor; [|done|intros j e; unfold content_set; destruct (j =? blk); [apply Hd|apply Hcd]].
  destruct (ew_inode _ _ _ _ _ _ _ _ _ _ Hw _ _ _ Hn) as (i' & Hn' & Hi').
  exists n, k, i'. rewrite Hi'. split_and!; [done|done|]. intros ii Hi.
  destruct (Hs ii Hi) as (nid' & Hg & Hr). exists nid'. split; [done|].
  destruct (decide (ii = blk / INDEX_SIZE)) as [->|Hne].
  - rewrite Hm in Hr |- *. destruct Hr as (-> & Hnr & Hc & Hr). split_and!; [done|lia|lia| |].
    + by rewrite (ew_nat _ _ _ _ _ _ _ _ _ _ Hw).
    + destruct (index_written _ _ _ _ _ _ _ _ _ _ _ Hmb Hw Hr) as (k3 & pid3 & x3 & H1 & H2 & H3).
      exists k3, pid3, x3. split_and!; [done|done|]. intros j Hj. destruct (H3 j Hj) as (e & He & Her).
      exists e. split; [done|]. unfold content_set in Her |- *.
      destruct (Z.eqb_spec j (blk mod INDEX_SIZE)) as [->|Hnj].
      * by rewrite (proj2 (Z.eqb_eq _ _)) by lia.
      * by rewrite (proj2 (Z.eqb_neq _ _)) by lia.
  - assert (Hr' : slot_rep s' l' (m ii) nid' (fun off => c (ii * INDEX_SIZE + off))).
    { eapply slot_written; [exact Hw|exact Hn| |by exists k2, pid, x|done]. intros dj Hj. apply Hne. by eapply Ha. }
    destruct (m ii) as [[nid2 dj]|].
    + destruct Hr' as (-> & Hnr & Hc & (k3 & pid3 & x3 & H1 & H2 & H3)). split_and!; [done|lia|lia|done|].
      exists k3, pid3, x3. split_and!; [done|done|]. intros j Hj. unfold content_set.
      rewrite (proj2 (Z.eqb_neq _ _)); [by apply H3|].
      intros E. apply Hne. rewrite <- E. apply (Z.div_unique _ _ _ j); clia.
    + destruct Hr' as [-> Hr']. split; [done|]. intros j Hj. unfold content_set.
      rewrite (proj2 (Z.eqb_neq _ _)); [by apply Hr'|].
      intros E. apply Hne. rewrite <- E. apply (Z.div_unique _ _ _ j); clia.
Qed.

(** The block of a page is written. *)
Section Written.
Context (s : Fs) (q fl : list Z) (l : wlog) (pg : Z) (p : CPageInfo) (seg blk : Z) (s' : Fs).
Context (Hs : fs_rep s q fl l) (Hg : aget (m_pages (fs_pages s)) pg = Some p) (Hu : in_use p = true).
Context (Ht : target (fs_segs s) q (GetBlockTemp (data p)) seg blk).
Context (Hp : write_post s (q_rest (fs_segs s) q (GetBlockTemp (data p))) fl l pg p (GetBlockTemp (data p))
  seg blk false s').
Let new := seg * BLOCK_PER_SEG + blk.

Lemma new_range : 0 <= new < MAIN_BLK_NR /\ phyblk_to_lba new = seg_to_lba seg blk.
Proof.
  pose proof (target_range _ _ _ _ _ (fp_segs _ _ _ _ Hs) Ht) as [H1 H2].
  split; [subst new; clia|]. subst new. unfold phyblk_to_lba, seg_to_lba. clia.
Qed.
Lemma written_entry nid off b o : entry_rep s l nid off b o -> (o <> None -> b <> phy_blk p) ->
  entry_rep s' ((seg_to_lba seg blk, data p) :: l) nid off b o.
Proof.
  destruct o as [d|]; [|done]. intros (Hb & Hl & Ho & Hlog) Hne. specialize (Hne ltac:(done)).
  pose proof new_range as [Hn He]. split_and!; [lia|lia| | |].
  - apply (wp_live _ _ _ _ _ _ _ _ _ _ _ Hp b Hb). by right.
  - by rewrite (wp_owners _ _ _ _ _ _ _ _ _ _ _ Hp b Hb Hl Hne).
  - cbn [log_read]. rewrite (proj2 (Z.eqb_neq _ _)); [done|]. rewrite <- He. intros E.
    apply (target_dead _ _ _ _ _ (fp_segs _ _ _ _ Hs) Ht). fold new.
    replace new with b; [done|]. unfold phyblk_to_lba in E. clia.
Qed.
Lemma written_new : entry_rep s' ((seg_to_lba seg blk, data p) :: l) (Pages.nid p) (offset p) new (Some (data p)).
Proof.
  pose proof new_range as [Hn He]. split_and!; [lia|lia| | |].
  - apply (wp_live _ _ _ _ _ _ _ _ _ _ _ Hp new Hn). by left.
  - apply (wp_owner _ _ _ _ _ _ _ _ _ _ _ Hp).
  - rewrite He. cbn [log_read]. by rewrite Z.eqb_refl.
Qed.
Lemma written_keeps : keeps_pages (fs_pages s) (fs_pages s').
Proof.
  destruct (wp_page _ _ _ _ _ _ _ _ _ _ _ Hp) as (p' & Hp' & Hd & _ & Hu' & _).
  eapply keeps_upd; [exact Hg|exact Hp'|done|by left|]. apply (wp_others _ _ _ _ _ _ _ _ _ _ _ Hp).
Qed.
Lemma written_rep q' : segs_wf (fs_segs s') q' -> fs_rep s' q' fl ((seg_to_lba seg blk, data p) :: l).
Proof.
  intros Hq. constructor; [done|apply (wp_pages _ _ _ _ _ _ _ _ _ _ _ Hp)|apply (wp_store _ _ _ _ _ _ _ _ _ _ _ Hp)].
Qed.
End Written.

Lemma node_at_move pa pb pg m : (forall y, y <> pg -> aget (m_pages pb) y = aget (m_pages pa) y) ->
  forall z, z <> pg -> node_at pa z m -> node_at pb z m.
Proof. intros H z Hz (p & Hp & Hq). exists p. by rewrite H. Qed.

(** The index block and the inode are updated. *)
Lemma install_runs {A} s fl ip di nid k pid x n k' i off new old (r : A) :
  pages_wf (fs_pages s) fl -> node_at (fs_pages s) di (mkNode nid k pid (N_index x)) ->
  node_at (fs_pages s) ip (mkNode n k' ip (N_inode i)) -> 0 <= off < Z.of_nat (length (index_index x)) ->
  exists pa x' i', runs (set_index_at di off new ;;;
      when (is_invalid16 old) (
        upd_inode ip (fun i => set_blk_num (w32 (blk_num i + 1)) i) ;;;
        upd_index di (fun x => set_valid_data (w32 (valid_data x + 1)) x) ;;;
        set_dirty_page ip true) ;;;
      set_dirty_page di true ;;;
      ret r) s r (set_pages pa s) /\ pages_wf pa fl /\
    node_at pa di (mkNode nid k pid (N_index x')) /\ index_index x' = <[Z.to_nat off := new]> (index_index x) /\
    node_at pa ip (mkNode n k' ip (N_inode i')) /\ inode_index i' = inode_index i /\
    (forall y, y <> ip -> y <> di -> aget (m_pages pa) y = aget (m_pages (fs_pages s)) y).
Proof.
  intros Hw Hd Hi Ho. assert (ip <> di) as Hne by (intros ->; pose proof (node_at_inj _ _ _ _ Hd Hi); congruence).
  destruct (upd_index_runs s fl di nid k pid x (set_index_index (<[Z.to_nat off := new]> (index_index x))) Hw Hd)
    as (p1 & Hr1 & Hw1 & Hd1 & Ho1).
  assert (Hi1 : node_at p1 ip (mkNode n k' ip (N_inode i))) by (by eapply node_at_move).
  assert (Hset : runs (set_index_at di off new) s tt (set_pages p1 s)).
  { unfold set_index_at. eapply runs_bind; [by eapply index_of_runs|]. rewrite aset_is_Some by done.
    eapply runs_bind; [done|exact Hr1]. }
  assert (Hfin : forall p x' i', pages_wf p fl -> node_at p di (mkNode nid k pid (N_index x')) ->
     index_index x' = <[Z.to_nat off := new]> (index_index x) -> node_at p ip (mkNode n k' ip (N_inode i')) ->
     inode_index i' = inode_index i -> (forall y, y <> ip -> y <> di -> aget (m_pages p) y = aget (m_pages (fs_pages s)) y) ->
     exists pa x' i', runs (set_dirty_page di true ;;; ret r) (set_pages p s) r (set_pages pa s) /\ pages_wf pa fl /\
    node_at pa di (mkNode nid k pid (N_index x')) /\ index_index x' = <[Z.to_nat off := new]> (index_index x) /\
    node_at pa ip (mkNode n k' ip (N_inode i')) /\ inode_index i' = inode_index i /\
    (forall y, y <> ip -> y <> di -> aget (m_pages pa) y = aget (m_pages (fs_pages s)) y)).
  { intros p x' i' Hwp Hdp Hx' Hip Hi' Hop.
    destruct (set_dirty_runs (set_pages p s) fl di _ true Hwp Hdp) as (pa & Hr & Hwa & Hda & Hoa).
    exists pa, x', i'. split_and!; [by eapply runs_bind|done|done|done|by eapply node_at_move|done|].
    intros y H1 H2. rewrite Hoa by done. by apply Hop. }
  destruct (is_invalid16 old); cbn [when].
  - destruct (upd_inode_runs (set_pages p1 s) fl ip n k' ip i (fun i => set_blk_num (w32 (blk_num i + 1)) i) Hw1 Hi1)
      as (p2 & Hr2 & Hw2 & Hi2 & Ho2).
    assert (Hd2 := node_at_move _ _ _ _ Ho2 di ltac:(done) Hd1).
    destruct (upd_index_runs (set_pages p2 s) fl di nid k pid _ (fun x => set_valid_data (w32 (valid_data x + 1)) x) Hw2 Hd2)
      as (p3 & Hr3 & Hw3 & Hd3 & Ho3).
    assert (Hi3 := node_at_move _ _ _ _ Ho3 ip Hne Hi2).
    destruct (set_dirty_runs (set_pages p3 s) fl ip _ true Hw3 Hi3) as (p4 & Hr4 & Hw4 & Hi4 & Ho4).
    destruct (Hfin p4 _ _ Hw4 (node_at_move _ _ _ _ Ho4 di ltac:(done) Hd3) eq_refl Hi4 eq_refl) as (pa & x' & i' & Hr & Hrest).
    { intros y H1 H2. rewrite Ho4, Ho3, Ho2 by done. by apply Ho1. }
    exists pa, x', i'. split; [|exact Hrest]. eapply runs_bind; [exact Hset|].
    eapply runs_bind; [|exact Hr]. eapply runs_bind; [exact Hr2|]. eapply runs_bind; [exact Hr3|exact Hr4].
  - destruct (Hfin p1 _ _ Hw1 Hd1 eq_refl Hi1 eq_refl) as (pa & x' & i' & Hr & Hrest); [by intros; apply Ho1|].
    exists pa, x', i'. split; [|exact Hrest]. eapply runs_bind; [exact Hset|]. by eapply runs_bind.
Qed.

(** * One block *)

(** The page learns where the block goes. *)
Lemma address_runs s q fl l pg d nid off b : fs_rep s q fl l -> data_page (fs_pages s) pg d ->
  exists pa p, runs (on_pages (page_upd pg (fun p => set_addr nid off (set_phy_blk_of b p)))) s tt (set_pages pa s) /\
    pages_wf pa fl /\ keeps_pages (fs_pages s) pa /\ aget (m_pages pa) pg = Some p /\ in_use p = true /\
    data p = d /\ phy_blk p = b /\ Pages.nid p = nid /\ offset p = off.
Proof.
  intros Hs (p & Hp & Hu & Hd).
  destruct (on_pages_upd s fl pg p (fun p => set_addr nid off (set_phy_blk_of b p)) (fp_pages _ _ _ _ Hs) Hp Hu Hu)
    as (pa & Hr & Hw & Hg & Ho).
  exists pa, (set_addr nid off (set_phy_blk_of b p)). split_and!; try done.
  eapply keeps_upd; [exact Hp|exact Hg|done|by left|done].
Qed.

(** The entry that is overwritten is not the one of another block. *)
Lemma entry_apart s l nid off b o nid' off' b' o' : entry_rep s l nid off b o -> entry_rep s l nid' off' b' o' ->
  nid' <> nid \/ off' <> off -> o' <> None -> b' <> b.
Proof.
  destruct o' as [d'|]; [|done]. intros Hb (Hr & _ & Ho' & _) Hne _ ->. destruct o as [d|].
  - destruct Hb as (_ & _ & Ho & _). destruct Hne; congruence.
  - cbn in Hb. clia.
Qed.

Lemma write_block_written s q fl l ip m c blk nid di pg p d old seg b s2 pa (new := seg * BLOCK_PER_SEG + b) :
  fs_rep s q fl l -> file_rep s l ip m c -> 0 <= blk < MAX_FILE_BLKS -> m (blk / INDEX_SIZE) = Some (nid, di) ->
  aget (m_pages (fs_pages s)) pg = Some p -> in_use p = true -> data p = d ->
  phy_blk p = old -> Pages.nid p = nid -> offset p = blk mod INDEX_SIZE ->
  entry_rep s l nid (blk mod INDEX_SIZE) old (c blk) ->
  target (fs_segs s) q (GetBlockTemp (data p)) seg b ->
  write_post s (q_rest (fs_segs s) q (GetBlockTemp (data p))) fl l pg p (GetBlockTemp (data p)) seg b false s2 ->
  (forall n k i, node_at (fs_pages s2) ip (mkNode n k ip (N_inode i)) ->
     exists i', node_at pa ip (mkNode n k ip (N_inode i')) /\ inode_index i' = inode_index i) ->
  (forall k pid x, node_at (fs_pages s2) di (mkNode nid k pid (N_index x)) ->
     exists x', node_at pa di (mkNode nid k pid (N_index x')) /\
       index_index x' = <[Z.to_nat (blk mod INDEX_SIZE) := new]> (index_index x)) ->
  (forall y, y <> ip -> y <> di -> aget (m_pages pa) y = aget (m_pages (fs_pages s2)) y) ->
  entry_written s (set_pages pa s2) l ((seg_to_lba seg b, d) :: l) ip nid di (blk mod INDEX_SIZE) new (Some d).
Proof.
  intros Hs Hf Hb Hm Hg Hu <- Ho Hn Hoff He Ht Hp Hi Hd Hother.
  pose proof (written_keeps _ _ _ _ _ _ _ _ _ Hg Hp) as Hk.
  constructor.
  - apply (wp_rest _ _ _ _ _ _ _ _ _ _ _ Hp).
  - intros nid' off' b' o Hne He'.
    apply (written_entry _ _ _ _ _ _ _ _ _ Hs Ht Hp _ _ _ _ He'). rewrite Ho. by eapply entry_apart.
  - pose proof (written_new _ _ _ _ _ _ _ _ _ Hs Ht Hp) as Hnew. by rewrite Hn, Hoff in Hnew.
  - intros n k i Hip. destruct (keeps_pages_node _ _ _ _ Hk Hip) as (pid & Hip' & Hpid). cbn in Hip', Hpid.
    assert (pid = ip) as -> by naive_solver. by apply Hi.
  - intros k pid x Hdi. destruct (keeps_pages_node _ _ _ _ Hk Hdi) as (pid' & Hdi' & _).
    destruct (Hd _ _ _ Hdi') as (x' & Hx' & E). by exists pid', x'.
  - intros y n H1 H2 Hy. destruct (keeps_pages_node _ _ _ _ Hk Hy) as (pid & (p' & Hp' & Hq) & _).
    exists pid, p'. cbn. by rewrite Hother.
Qed.

Lemma write_block_runs s q fl l ip m c st blk nid di pages j pg d force :
  fs_rep s q fl l -> file_rep s l ip m c -> 0 <= blk < MAX_FILE_BLKS -> m (blk / INDEX_SIZE) = Some (nid, di) ->
  path_ok m st blk -> cur_ok (fs_segs s) q BT_HOT__DATA -> 0 < write_room (fs_segs s) q BT_HOT__DATA ->
  aget pages j = Some pg -> data_page (fs_pages s) pg d -> is_data d ->
  exists s' q' l', runs (write_block ip ip pages force (st, j) blk) s (Next (NextOffset (path_of blk di), j + 1)) s' /\
    fs_rep s' q' fl l' /\ file_rep s' l' ip m (content_set c blk (Some d)) /\
    cur_ok (fs_segs s') q' BT_HOT__DATA /\
    write_room (fs_segs s) q BT_HOT__DATA - 1 <= write_room (fs_segs s') q' BT_HOT__DATA /\
    keeps_data (fs_pages s) (fs_pages s').
Proof.
  intros Hs Hf Hb Hm Hst Hc Hroom Hpg Hdp [Htemp Hnn].
  destruct (path_to_runs _ _ _ _ _ _ _ _ _ _ _ true Hs Hf Hb Hm Hst) as (p1 & Hr1 & Hw1 & Hk1).
  assert (Hs1 := fs_rep_pages _ _ _ _ _ _ Hs Hw1). assert (Hf1 := file_rep_pages _ _ _ _ _ _ Hf Hk1).
  destruct (file_entry _ _ _ _ _ _ _ _ Hf1 Hb Hm) as (k & pid & x & old & Hx & Hl & Hg & He).
  destruct (address_runs _ _ _ _ pg d nid (blk mod INDEX_SIZE) old Hs1 (keeps_pages_data _ _ Hk1 _ _ Hnn Hdp))
    as (p2 & p & Hr2 & Hw2 & Hk2 & Hgp & Hu & Hd & Ho & Hn & Hoff).
  set (s2 := set_pages p2 (set_pages p1 s)).
  assert (Hs2 : fs_rep s2 q fl l) by (by eapply fs_rep_pages).
  assert (Hf2 : file_rep s2 l ip m c) by (by apply file_rep_pages).
  destruct (room_target _ _ _ (fp_segs _ _ _ _ Hs2) Hc Hroom) as (seg & b & Ht).
  assert (Hpb : page_blk_ok (fs_segs s2) p).
  { unfold page_blk_ok. rewrite Ho. destruct (c blk); [|by left]. right. split; apply He. }
  rewrite <- Htemp, <- Hd in Ht, Hc, Hroom |- *.
  destruct (WriteBlockToSeg_spec s2 q fl l pg p seg b force) as (s3 & Hr3 & Hp3); try done; try apply Hs2.
  destruct (write_keeps_room _ _ _ _ _ _ _ _ _ _ _ (fp_segs _ _ _ _ Hs2) Hc Ht Hpb Hp3) as (q' & Hq' & Hc' & Hroom').
  pose proof (written_keeps s2 _ _ _ _ _ _ _ _ Hgp Hp3) as Hk3.
  destruct (keeps_pages_node _ _ _ _ (transitivity Hk2 Hk3) Hx) as (pid' & Hx3 & _).
  destruct (fr_inode _ _ _ _ _ Hf2) as (n & k' & i & Hi2 & _).
  destruct (keeps_pages_node _ _ _ _ Hk3 Hi2) as (pid2 & Hi3 & Hpid2). cbn in Hx3, Hi3, Hpid2.
  assert (pid2 = ip) as -> by naive_solver.
  destruct (install_runs s3 fl ip di nid k pid' x n k' i (blk mod INDEX_SIZE) (seg * BLOCK_PER_SEG + b) old
    (Next (NextOffset (path_of blk di), j + 1)) (wp_pages _ _ _ _ _ _ _ _ _ _ _ Hp3) Hx3 Hi3)
    as (p4 & x' & i' & Hr4 & Hw4 & Hx4 & Ex & Hi4 & Ei & Ho4).
  { rewrite Hl. apply Z.mod_pos_bound. clia. }
  pose proof (new_range _ _ _ _ _ _ _ Hs2 Ht) as [Hnr _].
  exists (set_pages p4 s3), q', ((seg_to_lba seg b, data p) :: l). split_and!.
  - unfold write_block. eapply runs_bind; [exact Hr1|]. eapply runs_bind; [done|]. cbn [offset1 path_of].
    eapply runs_bind; [by eapply index_at_runs|]. rewrite Hpg. eapply runs_bind; [done|].
    eapply runs_bind; [by apply node_of_runs|]. eapply runs_bind; [exact Hr2|].
    eapply runs_bind; [exact Hr3|]. rewrite (proj2 (Z.eqb_neq _ _)) by clia. exact Hr4.
  - eapply fs_rep_pages; [|done]. eapply written_rep; [exact Hp3|exact Hq'].
  - eapply file_written; [exact Hf2|exact Hb|exact Hm|by intros e [= <-]; rewrite Hd|].
    apply (write_block_written s2 q fl l ip m c blk nid di pg p (data p) old); try done.
    + intros n1 k1 i1 Hi1. pose proof (node_at_inj _ _ _ _ Hi1 Hi3) as E. injection E as -> -> ->. by exists i'.
    + intros k1 pid1 x1 Hx1. pose proof (node_at_inj _ _ _ _ Hx1 Hx3) as E. injection E as -> -> ->. by exists x'.
  - exact Hc'.
  - exact Hroom'.
  - trans p2; [apply keeps_pages_data; by trans p1|]. trans (fs_pages s3); [by apply keeps_pages_data|].
    intros y e Hnn' (py & Hy & Huy & Hdy). exists py. rewrite Ho4; [done| |]; intros ->.
    + destruct Hi3 as (z & Hz & _ & Hzn). apply (Hnn' (mkNode n k' ip (N_inode i))). congruence.
    + destruct Hx3 as (z & Hz & _ & Hzn). apply (Hnn' (mkNode nid k pid' (N_index x))). congruence.
Qed.

(** * A range of blocks *)
Definition content_write c (lo : Z) (ds : list BLOCK_DATA) : content :=
  fun b => match aget ds (b - lo) with Some d => Some d | None => c b end.
Lemma content_write_cons c lo d ds b :
  content_write (content_set c lo (Some d)) (lo + 1) ds b = content_write c lo (d :: ds) b.
Proof.
  unfold content_write, content_set, aget. destruct (Z.leb_spec 0 (b - (lo + 1))) as [H|H].
  - rewrite (proj2 (Z.leb_le 0 (b - lo))) by lia. replace (Z.to_nat (b - lo)) with (S (Z.to_nat (b - (lo + 1)))) by lia.
    rewrite (proj2 (Z.eqb_neq _ _)) by lia. done.
  - destruct (Z.eqb_spec b lo) as [->|Hne].
    + by rewrite Z.sub_diag.
    + by rewrite (proj2 (Z.leb_gt 0 (b - lo))) by lia.
Qed.
Lemma content_write_at c lo ds b d : aget ds (b - lo) = Some d -> content_write c lo ds b = Some d.
Proof. unfold content_write. by intros ->. Qed.
Lemma content_write_out c lo ds b : b < lo \/ lo + Z.of_nat (length ds) <= b -> content_write c lo ds b = c b.
Proof.
  intros H. unfold content_write. destruct (aget ds (b - lo)) eqn:E; [|done]. apply aget_bounds in E. lia.
Qed.

Lemma content_write_present c lo ds :
  length (omap (content_write c lo ds) (range lo (lo + Z.of_nat (length ds)))) = length ds.
Proof.
  assert (H : forall b, b ∈ range lo (lo + Z.of_nat (length ds)) -> content_write c lo ds b <> None).
  { intros b Hb%elem_of_range. unfold content_write. destruct (aget_is_Some ds (b - lo)) as [d ->]; [lia|done]. }
  trans (length (range lo (lo + Z.of_nat (length ds)))); [|unfold range; rewrite length_seqZ; lia].
  revert H. generalize (range lo (lo + Z.of_nat (length ds))) as bs. induction bs as [|b bs IH]; [done|]. intros H.
  cbn [omap list_omap]. destruct (content_write c lo ds b) eqn:Hb; [|by destruct (H b ltac:(set_solver))].
  cbn [length]. f_equal. apply IH. intros; apply H; set_solver.
Qed.

Definition writable s q (n : Z) : Prop :=
  cur_ok (fs_segs s) q BT_HOT__DATA /\ n <= write_room (fs_segs s) q BT_HOT__DATA.
Definition mapped (m : Z -> option (Z * Z)) (lo hi : Z) : Prop :=
  forall blk, lo <= blk < hi -> m (blk / INDEX_SIZE) <> None.

Lemma write_loop ip m pages force fl ds : forall s q l c lo j st,
  fs_rep s q fl l -> file_rep s l ip m c -> 0 <= lo -> lo + Z.of_nat (length ds) <= MAX_FILE_BLKS ->
  mapped m lo (lo + Z.of_nat (length ds)) -> path_ok m st lo -> writable s q (Z.of_nat (length ds)) -> 0 <= j ->
  (forall i d, aget ds i = Some d ->
     is_data d /\ exists pg, aget pages (j + i) = Some pg /\ data_page (fs_pages s) pg d) ->
  exists s' q' l' st', runs (mloop (range lo (lo + Z.of_nat (length ds))) (st, j) (write_block ip ip pages force)) s
      (st', j + Z.of_nat (length ds)) s' /\
    fs_rep s' q' fl l' /\ file_rep s' l' ip m (content_write c lo ds) /\ writable s' q' 0 /\
    write_room (fs_segs s) q BT_HOT__DATA - Z.of_nat (length ds) <= write_room (fs_segs s') q' BT_HOT__DATA /\
    keeps_data (fs_pages s) (fs_pages s').
Proof.
  induction ds as [|d ds IH]; intros s q l c lo j st Hs Hf Hlo Hhi Hm Hst [Hc Hroom] Hj Hpg.
  - cbn [length] in *. rewrite range_nil by lia. exists s, q, l, st.
    split_and!; [by rewrite Z.add_0_r|done| |done|lia|done].
    eapply file_rep_ext; [|exact Hf]. intros b. symmetry. apply content_write_out. cbn. lia.
  - cbn [length] in *. rewrite range_cons by lia.
    destruct (m (lo / INDEX_SIZE)) as [[nid di]|] eqn:Hml; [|by destruct (Hm lo ltac:(lia))].
    destruct (Hpg 0 d ltac:(done)) as (Hd & pg & Hpg0 & Hdp). rewrite Z.add_0_r in Hpg0.
    destruct (write_block_runs s q fl l ip m c st lo nid di pages j pg d force Hs Hf ltac:(lia) Hml Hst Hc ltac:(lia) Hpg0 Hdp Hd)
      as (s1 & q1 & l1 & Hr1 & Hs1 & Hf1 & Hc1 & Hroom1 & Hk1).
    destruct (IH s1 q1 l1 (content_set c lo (Some d)) (lo + 1) (j + 1) (NextOffset (path_of lo di)) Hs1 Hf1)
      as (s2 & q2 & l2 & st2 & Hr2 & Hs2 & Hf2 & Hw2 & Hroom2 & Hk2); [lia|lia| |by eapply next_path| |lia| |].
    { intros b Hb. apply Hm. lia. }
    { split; [done|lia]. }
    { intros i e Hi. pose proof (aget_bounds _ _ _ Hi) as Hib. destruct (Hpg (i + 1) e) as (He & pg' & Hp' & Hdp').
      - apply aget_Some in Hi as [Hi0 Hi]. apply aget_Some. split; [lia|].
        by replace (Z.to_nat (i + 1)) with (S (Z.to_nat i)) by lia.
      - split; [done|]. exists pg'. replace (j + 1 + i) with (j + (i + 1)) by lia. split; [done|].
        apply Hk1; [apply He|done]. }
    exists s2, q2, l2, st2. split_and!; [|done| |done|lia|by trans (fs_pages s1)].
    + cbn [mloop]. eapply runs_bind; [exact Hr1|].
      replace (lo + Z.of_nat (S (length ds))) with (lo + 1 + Z.of_nat (length ds)) by lia.
      by replace (j + Z.of_nat (S (length ds))) with (j + 1 + Z.of_nat (length ds)) by lia.
    + eapply file_rep_ext; [|exact Hf2]. intros b. apply content_write_cons.
Qed.

(** The blocks [FileWriteInternal] asks for: the data and its index blocks. *)
Definition space_needed (n : Z) : Z := w32 (n + ROUND_UP_DIV n INDEX_SIZE).

Lemma FileWriteInternal_spec s q fl l ip m c lo pages ds force (n := Z.of_nat (length ds)) :
  fs_rep s q fl l -> file_rep s l ip m c -> 0 <= lo -> lo + n <= MAX_FILE_BLKS -> mapped m lo (lo + n) ->
  writable s q n -> Forall2 (data_page (fs_pages s)) pages ds -> Forall is_data ds ->
  space_needed n <= available_blk force s ->
  exists s' q' l', runs (FileWriteInternal ip lo (lo + n) pages force) s n s' /\
    fs_rep s' q' fl l' /\ file_rep s' l' ip m (content_write c lo ds) /\ writable s' q' 0 /\
    write_room (fs_segs s) q BT_HOT__DATA - n <= write_room (fs_segs s') q' BT_HOT__DATA /\
    keeps_data (fs_pages s) (fs_pages s').
Proof.
  intros Hs Hf Hlo Hhi Hm Hw Hpg Hd Hav.
  destruct (write_loop ip m pages force fl ds s q l c lo 0 None Hs Hf Hlo Hhi Hm (or_introl eq_refl) Hw ltac:(lia))
    as (s' & q' & l' & st' & Hr & Hs' & Hf' & Hw' & Hroom & Hk).
  { intros i d Hi. pose proof Hi as [Hi0 Hin]%aget_Some. split; [by eapply Forall_lookup_1|].
    destruct (Forall2_lookup_r _ _ _ _ _ Hpg Hin) as (pg & Hp1 & Hp2). exists pg. split; [|done].
    apply aget_Some. by rewrite Z.add_0_l. }
  destruct (fr_inode _ _ _ _ _ Hf) as (nn & k & i & Hn & _).
  exists (set_info (m_fs_info (add_host_write n s')) s'), q', l'. split_and!; [|by destruct Hs'|by destruct Hf'|done|done|done].
  unfold FileWriteInternal. replace (lo + n - lo) with n by lia.
  assert (w32 n = n) as -> by (unfold w32; apply Z.mod_small; subst n; clia).
  eapply runs_bind; [done|]. fold (space_needed n). rewrite (proj2 (Z.ltb_ge _ _)) by done.
  eapply runs_bind; [by apply node_of_runs|]. cbn [page_id].
  eapply runs_bind; [by apply (node_page _ _ _ _ (fp_pages _ _ _ _ Hs) Hn)|].
  eapply runs_bind; [exact Hr|]. by destruct s' as [? ? ? ? [] ? ? ? ? ? ? ? ? ? ?].
Qed.

(** * Properties *)

(** C7: reading.  On a file whose index blocks in the range are cached, with a
    free page for every block of the range that has data, [FileReadInternal]
    gives, in order, a page for each block that is there and none for each hole; the pages are taken from the free ones in their order,
    hold what the medium holds for the block, and nothing else changes: not the
    segments, the node table or the medium, nor any page in use, nor the file. *)
Theorem FileReadInternal_correct s q fl l ip m c lo hi :
  fs_rep s q fl l -> file_rep s l ip m c -> 0 <= lo <= hi -> hi <= MAX_FILE_BLKS -> mapped m lo hi ->
  (length (omap c (range lo hi)) <= length fl)%nat ->
  exists rs pa fl', runs (FileReadInternal ip lo hi) s rs (set_pages pa s) /\
    Forall2 (read_ok pa c) (range lo hi) rs /\ fl = omap id rs ++ fl' /\
    fs_rep (set_pages pa s) q fl' l /\ file_rep (set_pages pa s) l ip m c /\ keeps_pages (fs_pages s) pa.
Proof. apply FileReadInternal_spec. Qed.

(** C6: writing.  On a file whose index blocks in the range are cached, with pages
    of data and a segment table that has room for them without collecting
    garbage.  When the number of blocks that the code computes as available
    ([available_blk], in 16 bits, where it can wrap) is below what it asks for,
    [FileWriteInternal] writes nothing and returns 0, and the state is unchanged.
    Otherwise it writes every page: the file then has the data of the pages in
    the range and what it had outside, every other page with data keeps it, the
    table of segments stays well formed, and at most as many blocks as were
    written are taken from the room. *)
Theorem FileWriteInternal_correct s q fl l ip m c lo pages ds force (n := Z.of_nat (length ds)) :
  fs_rep s q fl l -> file_rep s l ip m c -> 0 <= lo -> lo + n <= MAX_FILE_BLKS -> mapped m lo (lo + n) ->
  writable s q n -> Forall2 (data_page (fs_pages s)) pages ds -> Forall is_data ds ->
  (available_blk force s < space_needed n -> runs (FileWriteInternal ip lo (lo + n) pages force) s 0 s) /\
  (space_needed n <= available_blk force s ->
   exists s' q' l', runs (FileWriteInternal ip lo (lo + n) pages force) s n s' /\
    fs_rep s' q' fl l' /\ file_rep s' l' ip m (content_write c lo ds) /\ writable s' q' 0 /\
    write_room (fs_segs s) q BT_HOT__DATA - n <= write_room (fs_segs s') q' BT_HOT__DATA /\
    keeps_data (fs_pages s) (fs_pages s')).
Proof.
  intros Hs Hf Hlo Hhi Hm Hw Hpg Hd. split; [|by apply (FileWriteInternal_spec s q fl l ip m c)].
  intros Hav. unfold FileWriteInternal. replace (lo + n - lo) with n by lia.
  assert (w32 n = n) as -> by (unfold w32; apply Z.mod_small; subst n; clia).
  eapply runs_bind; [done|]. fold (space_needed n). by rewrite (proj2 (Z.ltb_lt _ _)).
Qed.

(** C3: what was written is what is read.  After [FileWriteInternal] has written
    the pages at [lo], [FileReadInternal] of that range gives as many pages,
    with the same data in the same order. *)
Theorem file_write_read s q fl l ip m c lo pages ds force (n := Z.of_nat (length ds)) :
  fs_rep s q fl l -> file_rep s l ip m c -> 0 <= lo -> lo + n <= MAX_FILE_BLKS -> mapped m lo (lo + n) ->
  writable s q n -> Forall2 (data_page (fs_pages s)) pages ds -> Forall is_data ds ->
  space_needed n <= available_blk force s -> (length ds <= length fl)%nat ->
  exists rs s' q' fl' l', runs (FileWriteInternal ip lo (lo + n) pages force ;;; FileReadInternal ip lo (lo + n)) s rs s' /\
    Forall2 (fun d r => exists pg, r = Some pg /\ data_page (fs_pages s') pg d) ds rs /\
    fs_rep s' q' fl' l' /\ file_rep s' l' ip m (content_write c lo ds).
Proof.
  intros Hs Hf Hlo Hhi Hm Hw Hpg Hd Hav Hfl.
  destruct (FileWriteInternal_spec s q fl l ip m c lo pages ds force Hs Hf Hlo Hhi Hm Hw Hpg Hd Hav)
    as (s1 & q1 & l1 & Hr1 & Hs1 & Hf1 & _).
  assert (Hlen : length (omap (content_write c lo ds) (range lo (lo + n))) = length ds) by apply content_write_present.
  destruct (FileReadInternal_spec s1 q1 fl l1 ip m (content_write c lo ds) lo (lo + n))
    as (rs & pa & fl' & Hr2 & Hok & _ & Hs2 & Hf2 & _); [done|done|lia|done|done|by rewrite Hlen|].
  exists rs, (set_pages pa s1), q1, fl', l1. split_and!; [by eapply runs_bind| |done|done].
  apply Forall2_same_length_lookup_2.
  - rewrite <- (Forall2_length _ _ _ Hok). unfold range. rewrite length_seqZ. lia.
  - intros i d r Hi Hr. destruct (Forall2_lookup_r _ _ _ _ _ Hok Hr) as (blk & Hb & Hrb).
    unfold range in Hb. apply lookup_seqZ in Hb as [-> _]. revert Hrb. unfold read_ok.
    rewrite (content_write_at _ _ _ _ d); [done|]. replace (lo + Z.of_nat i - lo) with (Z.of_nat i) by lia.
    apply aget_Some. split; [lia|]. by rewrite Nat2Z.id.
Qed.

(** C27: reading from a missing index block.  When the index block of the first
    block is missing, the path that is kept makes [FileReadInternal] give a hole
    for every block of the range, also for blocks of later index blocks that
    hold data. *)
Theorem read_from_hole s q fl l ip m c lo hi :
  fs_rep s q fl l -> file_rep s l ip m c -> 0 <= lo < hi -> hi <= MAX_FILE_BLKS -> m (lo / INDEX_SIZE) = None ->
  runs (FileReadInternal ip lo hi) s (replicate (Z.to_nat (hi - lo)) None) s.
Proof.
  intros Hs Hf Hlo Hhi Hm. destruct (fr_inode _ _ _ _ _ Hf) as (n & k & i & Hn & Hl & Hslot).
  destruct (Hslot (lo / INDEX_SIZE)) as (nid & Hg & Hr).
  { split; [apply Z.div_pos; clia|apply Z.div_lt_upper_bound; clia]. }
  rewrite Hm in Hr. destruct Hr as [-> _]. set (p := mkPath (lo / INDEX_SIZE) (lo mod INDEX_SIZE) None).
  assert (Hloop : forall bs pages, runs (mfold bs (Some p, pages) (read_block ip)) s
    (Some p, pages ++ replicate (length bs) None) s).
  { induction bs as [|b bs IH]; intros pages; cbn [mfold length replicate]; [by rewrite app_nil_r|].
    eapply runs_bind; [done|]. pose proof (IH (pages ++ [None])) as H. by rewrite <- app_assoc in H. }
  unfold FileReadInternal. rewrite range_cons by lia. cbn [mfold]. eapply runs_bind.
  - eapply runs_bind.
    + unfold read_block, path_to, OffsetToIndex. eapply runs_bind.
      { eapply (runs_bind _ _ _ INVALID16 s); [|done]. unfold inode_index_at.
        eapply runs_bind; [by eapply inode_of_runs|]. by rewrite Hg. }
      done.
    + apply Hloop.
  - cbn. unfold range. rewrite length_seqZ. unfold runs, ret. do 2 f_equal.
    replace (Z.to_nat (hi - lo)) with (S (Z.to_nat (hi - (lo + 1)))) by lia. done.
Qed.
End Write.

(** * A file without its first index block, for the witnesses *)
Section Example.
#[local] Existing Instance sample_external.
#[local] Existing Instance sample_laws.

Definition node_block (ty n k pg : Z) (b : NODE_UNION) (p : CPageInfo) : CPageInfo :=
  set_data (mkBlock ty (U_node (mkNode n k pg b))) p.
Definition file_inode : INODE := mkInode 0 0 0 1 1 (<[1%nat := 9]> (rep INDEX_TABLE_SIZE INVALID16)).
Definition file_block : BLOCK_DATA := mkBlock BLOCK_FILE_DATA (U_file (mkFileData 5 32 1)).
Definition alloc_with (f : CPageInfo -> CPageInfo) : M CPageAllocator unit :=
  x <- allocate ;; page_upd x f.
Definition pages_file : CPageAllocator :=
  ((alloc_with (node_block BLOCK_INODE 5 5 0 (N_inode file_inode)) ;;;
    alloc_with (node_block BLOCK_INDEX 9 5 1 (N_index INDEX_new)) ;;;
    alloc_with (set_data file_block)) (pages_Init (mkPages (rep 5 page_local) 0 0 5))).2.
Definition nat_file : NatT :=
  mkNat (<[9%nat := 1]> (rep NODE_NR INVALID32)) 126 (rep NODE_NR INVALID16) (rep NAT_BLK_NR 0) 10.
Definition fs_file : CF2fsSimulator LogStore :=
  mkFs CKPT_BLOCK_zero formatted nat_file (mkLog [] 0) (mkInfo 0 0 0 0 0 0 0 0 0 0 0 0 0)
    pages_file [] 0 0 0 0 0 0 0 page_local.
Definition file_map (ii : Z) : option (Z * Z) := if ii =? 1 then Some (9, 1) else None.

Lemma alloc_with_wf pa x fl f : pages_wf pa (x :: fl) -> in_use (f page_Init) = true ->
  runs (alloc_with f) pa tt (alloc_with f pa).2 /\ pages_wf (alloc_with f pa).2 fl.
Proof.
  intros H Hf. destruct (allocate_spec _ _ _ H) as (p1 & Hr1 & Hw1 & Hg1 & _).
  destruct (page_upd_spec _ _ _ _ f Hw1 Hg1 eq_refl Hf) as (p2 & Hr2 & Hw2 & _).
  assert (Hr : runs (alloc_with f) pa tt p2) by (by eapply runs_bind).
  unfold runs in Hr. rewrite Hr. split; [exact Hr|done].
Qed.
Lemma pages_file_wf : pages_wf pages_file [3; 4].
Proof.
  assert (H : pages_wf (pages_Init (mkPages (rep 5 page_local) 0 0 5)) (range 0 5)).
  { apply (pages_Init_wf (mkPages (rep 5 page_local) 0 0 5)); by vm_compute. }
  destruct (alloc_with_wf _ 0 [1; 2; 3; 4] (node_block BLOCK_INODE 5 5 0 (N_inode file_inode)) H eq_refl) as [R1 H1].
  destruct (alloc_with_wf _ 1 _ (node_block BLOCK_INDEX 9 5 1 (N_index INDEX_new)) H1 eq_refl) as [R2 H2].
  destruct (alloc_with_wf _ 2 _ (set_data file_block) H2 eq_refl) as [R3 H3].
  unfold pages_file. unfold bind at 1. rewrite R1. unfold bind at 1. rewrite R2. exact H3.
Qed.

Lemma file_fs_rep : fs_rep fs_file (range 0 MAIN_SEG_NR) [3; 4] [].
Proof. constructor; [exact formatted_wf|exact pages_file_wf|reflexivity]. Qed.
Lemma file_file_rep : file_rep fs_file [] 0 file_map (fun _ => None).
Proof.
  constructor; [|intros ii jj nid di dj; unfold file_map|done].
  - exists 5, 5, file_inode. split_and!; [by eexists; vm_compute|by vm_compute|]. intros ii Hi.
    unfold file_map. destruct (Z.eqb_spec ii 1) as [->|Hne].
    + exists 9. split; [by vm_compute|]. split_and!; [done|done|done|by vm_compute|].
      exists 5, 1, INDEX_new. split_and!; [by eexists; vm_compute|by vm_compute|]. intros off Ho.
      exists INVALID16. split; [|done]. cbn [index_index INDEX_new]. by apply aget_replicate.
    + exists INVALID16. split; [|done]. cbn [inode_index file_inode].
      change 1%nat with (Z.to_nat 1). rewrite aget_insert_ne by lia. by apply aget_replicate.
  - destruct (Z.eqb_spec ii 1), (Z.eqb_spec jj 1); intros; simplify_eq; done.
Qed.
Lemma file_writable : writable fs_file (range 0 MAIN_SEG_NR) 1.
Proof. split; [apply (cur_closed _ _ _ INVALID16); by vm_compute|by vm_compute]. Qed.
Lemma file_mapped hi : hi <= 64 -> mapped file_map 32 hi.
Proof.
  intros Hhi blk Hb. unfold file_map. rewrite (proj2 (Z.eqb_eq _ _)); [done|].
  symmetry. apply (Z.div_unique _ _ _ (blk - 32)); clia.
Qed.
Lemma file_data : Forall2 (data_page (fs_pages fs_file)) [2] [file_block] /\ Forall is_data [file_block].
Proof. split; repeat constructor; [by eexists; vm_compute|done]. Qed.

Lemma FileWriteInternal_correct_witness :
  (exists s' q' l', runs (FileWriteInternal 0 32 33 [2] false) fs_file 1 s' /\ fs_rep s' q' [3; 4] l' /\
    file_rep s' l' 0 file_map (content_write (fun _ => None) 32 [file_block])) /\
  available_blk false fs_file = 864.
Proof.
  split; [|by vm_compute].
  destruct (FileWriteInternal_correct fs_file _ _ _ _ _ _ 32 [2] [file_block] false file_fs_rep file_file_rep)
    as [_ H].
  - lia.
  - by vm_compute.
  - by apply file_mapped.
  - exact file_writable.
  - apply file_data.
  - apply file_data.
  - destruct H as (s' & q' & l' & Hr & Hs & Hf & _); [by vm_compute|].
    exists s', q', l'. split; [exact Hr|split; [exact Hs|exact Hf]].
Defined.

(** The file after block 32 is written. *)
Lemma file_after_write : exists s' q' l', fs_rep s' q' [3; 4] l' /\
  file_rep s' l' 0 file_map (content_write (fun _ => None) 32 [file_block]).
Proof.
  destruct (FileWriteInternal_spec fs_file _ _ _ _ _ _ 32 [2] [file_block] false file_fs_rep file_file_rep)
    as (s' & q' & l' & _ & Hs & Hf & _); [lia|by vm_compute|by apply file_mapped|exact file_writable|
      apply file_data|apply file_data|by vm_compute|].
  exists s', q', l'. split; [exact Hs|exact Hf].
Qed.

Lemma FileReadInternal_correct_witness :
  exists s' q' l' pa, file_rep s' l' 0 file_map (content_write (fun _ => None) 32 [file_block]) /\
    fs_rep s' q' [3; 4] l' /\
    runs (FileReadInternal 0 32 34) s' [Some 3; None] (set_pages pa s') /\ data_page pa 3 file_block.
Proof.
  destruct file_after_write as (s' & q' & l' & Hs & Hf).
  destruct (FileReadInternal_correct s' _ _ _ _ _ _ 32 34 Hs Hf) as (rs & pa & fl' & Hr & Hok & Hfl & _).
  - lia.
  - by vm_compute.
  - by apply file_mapped.
  - vm_compute. lia.
  - exists s', q', l', pa. split; [exact Hf|]. split; [exact Hs|].
    change (range 32 34) with [32; 33] in Hok.
    apply Forall2_cons_inv_l in Hok as (r1 & rs1 & H1 & Hok & ->).
    apply Forall2_cons_inv_l in Hok as (r2 & rs2 & H2 & Hok & ->). apply Forall2_nil_inv_l in Hok as ->.
    destruct H1 as (pg & -> & Hd). change (r2 = None) in H2. subst r2. injection Hfl as <- _.
    split; [exact Hr|exact Hd].
Defined.

Lemma file_write_read_witness :
  exists s' pg, runs (FileWriteInternal 0 32 33 [2] false ;;; FileReadInternal 0 32 33) fs_file [Some pg] s' /\
    data_page (fs_pages s') pg file_block.
Proof.
  destruct (file_write_read fs_file _ _ _ _ _ _ 32 [2] [file_block] false file_fs_rep file_file_rep)
    as (rs & s' & q' & fl' & l' & Hr & Hd & _).
  - lia.
  - by vm_compute.
  - by apply file_mapped.
  - exact file_writable.
  - apply file_data.
  - apply file_data.
  - by vm_compute.
  - cbn. lia.
  - apply Forall2_cons_inv_l in Hd as (r & rs' & (pg & -> & Hd) & Hnil & ->).
    apply Forall2_nil_inv_l in Hnil as ->. exists s', pg. split; [exact Hr|exact Hd].
Defined.

(** Block 32 holds data, but is read as a hole together with block 31. *)
Lemma read_from_hole_witness :
  exists s' q' l', fs_rep s' q' [3; 4] l' /\
    file_rep s' l' 0 file_map (content_write (fun _ => None) 32 [file_block]) /\
    content_write (fun _ => None) 32 [file_block] 32 = Some file_block /\
    runs (FileReadInternal 0 31 33) s' [None; None] s'.
Proof.
  destruct file_after_write as (s' & q' & l' & Hs & Hf). exists s', q', l'.
  split; [exact Hs|]. split; [exact Hf|]. split; [by vm_compute|].
  apply (read_from_hole s' _ _ _ _ _ _ 31 33 Hs Hf); [lia|by vm_compute|by vm_compute].
Defined.
End Example.
