(* ===== verification/FileTruncInv.v ===== *)
(** FileTruncInv: what truncating the blocks of an open file does: the blocks of
    the range are given back, an index block without data is given up with its
    node and its page, and an index block that is emptied before the range
    leaves it is freed twice, which throws. *)
From S2P Require Export FileWriteInv.

(** * The content of a truncated file *)

(** The blocks of the index block [ii]. *)
Definition block_count (c : content) (ii : Z) : Z :=
  Z.of_nat (length (omap (fun off => c (ii * INDEX_SIZE + off)) (range 0 INDEX_SIZE))).
Definition content_clear (c : content) (lo hi : Z) : content :=
  fun b => if (lo <=? b) && (b <? hi) then None else c b.
Definition touched (lo hi ii : Z) : bool := existsb (fun blk => blk / INDEX_SIZE =? ii) (range lo hi).
(** The index blocks that are left. *)
Definition map_clear (m : Z -> option (Z * Z)) (c : content) (lo hi : Z) : Z -> option (Z * Z) :=
  fun ii => if touched lo hi ii && (block_count (content_clear c lo hi) ii =? 0) then None else m ii.
(** At [blk] the index block has lost its last data, and the range goes on in
    it. *)
Definition emptied_inside (c : content) (lo hi blk : Z) : bool :=
  (blk + 1 <? hi) && ((blk + 1) / INDEX_SIZE =? blk / INDEX_SIZE) &&
  (block_count (content_clear c lo (blk + 1)) (blk / INDEX_SIZE) =? 0).
Definition freed_twice (c : content) (lo hi : Z) : bool := existsb (emptied_inside c lo hi) (range lo hi).

Lemma omap_drop_one {A B} `{EqDecision A} (f g : A -> option B) (x : A) l :
  NoDup l -> x ∈ l -> f x <> None -> g x = None -> (forall y, y ∈ l -> y <> x -> g y = f y) ->
  Z.of_nat (length (omap g l)) = Z.of_nat (length (omap f l)) - 1.
Proof.
  induction l as [|a l IH]; intros Hnd Hx Hf Hg Ho; [by apply elem_of_nil in Hx|].
  apply NoDup_cons in Hnd as [Ha Hnd]. cbn [omap list_omap]. destruct (decide (a = x)) as [->|Hne].
  - rewrite Hg. assert (omap g l = omap f l) as ->.
    { apply list_omap_ext, Forall_Forall2_diag, Forall_forall. intros y Hy. apply Ho; set_solver. }
    destruct (f x); [cbn [length]; lia|done].
  - rewrite (Ho a) by set_solver. assert (Hxl : x ∈ l) by set_solver.
    specialize (IH Hnd Hxl Hf Hg ltac:(intros; apply Ho; set_solver)).
    destruct (f a); cbn [length]; [lia|exact IH].
Qed.

Lemma block_count_ext c c' ii : (forall off, 0 <= off < INDEX_SIZE -> c (ii * INDEX_SIZE + off) = c' (ii * INDEX_SIZE + off)) ->
  block_count c ii = block_count c' ii.
Proof.
  intros E. unfold block_count. do 2 f_equal. apply list_omap_ext, Forall_Forall2_diag, Forall_forall.
  intros off Ho%elem_of_range. by apply E.
Qed.
Lemma omap_length_zero {A B} (f : A -> option B) l : length (omap f l) = 0%nat <-> forall x, x ∈ l -> f x = None.
Proof.
  induction l as [|a l IH]; [split; [by intros _ x Hx%elem_of_nil|done]|]. cbn [omap list_omap].
  destruct (f a) eqn:E; cbn [length].
  - split; [done|]. intros H. rewrite (H a) in E; [done|set_solver].
  - rewrite IH. split; intros H x; [intros [->|Hx]%elem_of_cons; auto|]. intros Hx. apply H. set_solver.
Qed.
Lemma block_count_zero c ii : block_count c ii = 0 <-> forall off, 0 <= off < INDEX_SIZE -> c (ii * INDEX_SIZE + off) = None.
Proof.
  unfold block_count. split.
  - intros H off Ho. apply (Nat2Z.inj _ 0) in H. apply (proj1 (omap_length_zero _ _) H off). by apply elem_of_range.
  - intros H. assert (length (omap (fun off => c (ii * INDEX_SIZE + off)) (range 0 INDEX_SIZE)) = 0%nat) as ->; [|done].
    apply omap_length_zero. intros off Ho%elem_of_range. by apply H.
Qed.
Lemma omap_length_le {A B} (f : A -> option B) l : (length (omap f l) <= length l)%nat.
Proof. induction l as [|a l IH]; [done|]. cbn [omap list_omap]. destruct (f a); cbn [length]; lia. Qed.
Lemma block_count_bounds c ii : 0 <= block_count c ii <= INDEX_SIZE.
Proof.
  unfold block_count. pose proof (omap_length_le (fun off => c (ii * INDEX_SIZE + off)) (range 0 INDEX_SIZE)) as H.
  change (length (range 0 INDEX_SIZE)) with (Z.to_nat INDEX_SIZE) in H. clia.
Qed.

(** A block of the file and its place in an index block. *)
Lemma blk_place blk : blk / INDEX_SIZE * INDEX_SIZE + blk mod INDEX_SIZE = blk.
Proof. pose proof (Z.div_mod blk INDEX_SIZE ltac:(clia)). lia. Qed.
Lemma blk_place_inj ii off blk : 0 <= off < INDEX_SIZE -> ii * INDEX_SIZE + off = blk ->
  ii = blk / INDEX_SIZE /\ off = blk mod INDEX_SIZE.
Proof. intros Ho <-. split; [apply (Z.div_unique _ _ _ off); clia|apply (Z.mod_unique _ _ ii); clia]. Qed.

Lemma block_count_drop c blk : c blk <> None ->
  block_count (content_set c blk None) (blk / INDEX_SIZE) = block_count c (blk / INDEX_SIZE) - 1.
Proof.
  intros Hc. pose proof (Z.mod_pos_bound blk INDEX_SIZE ltac:(clia)). unfold block_count.
  apply (omap_drop_one _ _ (blk mod INDEX_SIZE)).
  - apply NoDup_seqZ.
  - by apply elem_of_range.
  - by rewrite blk_place.
  - unfold content_set. by rewrite blk_place, Z.eqb_refl.
  - intros off Ho%elem_of_range Hne. unfold content_set. rewrite (proj2 (Z.eqb_neq _ _)); [done|].
    intros E%blk_place_inj; [|done]. by destruct E.
Qed.
Lemma block_count_other c blk o ii : ii <> blk / INDEX_SIZE -> block_count (content_set c blk o) ii = block_count c ii.
Proof.
  intros Hne. apply block_count_ext. intros off Ho. unfold content_set. rewrite (proj2 (Z.eqb_neq _ _)); [done|].
  intros E%blk_place_inj; [|done]. by destruct E.
Qed.
Lemma content_clear_step c lo hi b : lo < hi ->
  content_clear (content_set c lo None) (lo + 1) hi b = content_clear c lo hi b.
Proof.
  intros H. unfold content_clear, content_set.
  destruct (Z.leb_spec (lo + 1) b), (Z.leb_spec lo b), (Z.ltb_spec b hi), (Z.eqb_spec b lo); cbn [andb]; lia || done.
Qed.
Lemma content_clear_one c lo b : content_clear c lo (lo + 1) b = content_set c lo None b.
Proof.
  unfold content_clear, content_set. destruct (Z.leb_spec lo b), (Z.ltb_spec b (lo + 1)), (Z.eqb_spec b lo); cbn [andb]; lia || done.
Qed.

(** * The file and its nodes *)
Section Trunc.
Context {St : Type} `{HB : BlockStore St, HL : !BlockStoreLaws St} `{HE : External}.
Abbreviation Fs := (CF2fsSimulator St).
Implicit Types (s : Fs) (c : content) (l : wlog) (m : Z -> option (Z * Z)).

(** The block of an index block: not written yet, or a live block that records
    it. *)
Definition index_blk s nid : Prop :=
  exists blk, aget (nat_table (fs_nat s)) nid = Some blk /\
    (blk = NID_IN_USE \/
     (0 <= blk < MAIN_BLK_NR /\ blk_live (fs_segs s) blk /\ owner_of (fs_segs s) blk = Some (nid, INVALID16))).
(** A file whose index blocks count their data. *)
Record trunc_rep s l ip m c : Prop := {
  tr_file : file_rep s l ip m c;
  tr_nat : nat_ok (fs_nat s);
  tr_blk ii nid di : 0 <= ii < INDEX_TABLE_SIZE -> m ii = Some (nid, di) -> index_blk s nid;
  tr_count ii nid di k pid x : 0 <= ii < INDEX_TABLE_SIZE -> m ii = Some (nid, di) ->
    node_at (fs_pages s) di (mkNode nid k pid (N_index x)) -> valid_data x = block_count c ii
}.

(** The blocks that truncating gives back are those of the range, and those of
    the index blocks that are given up. *)
Definition dropped m m' (lo hi nid off : Z) : Prop :=
  exists ii di, m ii = Some (nid, di) /\
    ((0 <= off < INDEX_SIZE /\ lo <= ii * INDEX_SIZE + off < hi) \/ (off = INVALID16 /\ m' ii = None)).
Definition keeps_blocks (drop : Z -> Z -> Prop) (g g' : Segs) : Prop :=
  forall b nid off, 0 <= b < MAIN_BLK_NR -> blk_live g b -> owner_of g b = Some (nid, off) -> ~ drop nid off ->
    blk_live g' b /\ owner_of g' b = Some (nid, off).

Lemma keeps_blocks_refl drop g : keeps_blocks drop g g.
Proof. by intros b nid off. Qed.
Lemma keeps_blocks_trans (d1 d2 d : Z -> Z -> Prop) g1 g2 g3 :
  (forall nid off, d1 nid off \/ d2 nid off -> d nid off) ->
  keeps_blocks d1 g1 g2 -> keeps_blocks d2 g2 g3 -> keeps_blocks d g1 g3.
Proof.
  intros Hd H1 H2 b nid off Hb Hl Ho Hn. destruct (H1 b nid off Hb Hl Ho) as [Hl2 Ho2]; [by intros ?; apply Hn, Hd; left|].
  apply H2; [done..|]. by intros ?; apply Hn, Hd; right.
Qed.
(** One block is given back. *)
Lemma keeps_blocks_one (drop : Z -> Z -> Prop) g g' blk nid0 off0 : owner_of g blk = Some (nid0, off0) -> drop nid0 off0 ->
  (forall b, 0 <= b < MAIN_BLK_NR -> b <> blk -> (blk_live g' b <-> blk_live g b) /\ owner_of g' b = owner_of g b) ->
  keeps_blocks drop g g'.
Proof.
  intros Ho Hd H b nid off Hb Hl Hob Hn. destruct (decide (b = blk)) as [->|Hne]; [exfalso; apply Hn; congruence|].
  destruct (H b Hb Hne) as [Hl' ->]. split; [by apply Hl'|done].
Qed.

Lemma entry_rep_keeps s s' l nid off b o (drop : Z -> Z -> Prop) :
  keeps_blocks drop (fs_segs s) (fs_segs s') -> ~ drop nid off -> entry_rep s l nid off b o -> entry_rep s' l nid off b o.
Proof.
  intros Hk Hd. destruct o as [d|]; [|done]. intros (Hb & Hl & Ho & Hlog).
  destruct (Hk b nid off Hb Hl Ho Hd) as [Hl' Ho']. exact (conj Hb (conj Hl' (conj Ho' Hlog))).
Qed.
Lemma index_blk_keeps s s' nid (drop : Z -> Z -> Prop) :
  keeps_blocks drop (fs_segs s) (fs_segs s') -> ~ drop nid INVALID16 ->
  aget (nat_table (fs_nat s')) nid = aget (nat_table (fs_nat s)) nid -> index_blk s nid -> index_blk s' nid.
Proof.
  intros Hk Hd Ht (blk & Hb & Hc). exists blk. rewrite Ht. split; [done|].
  destruct Hc as [|(Hr & Hl & Ho)]; [by left|right]. by destruct (Hk _ _ _ Hr Hl Ho Hd).
Qed.

(** The inode keeps its number, and nodes that are not index blocks of the file
    keep their addresses and pages. *)
Record others_kept m ip s s' : Prop := {
  ok_inode n k i : node_at (fs_pages s) ip (mkNode n k ip (N_inode i)) ->
    exists i', node_at (fs_pages s') ip (mkNode n k ip (N_inode i'));
  ok_nat j : (forall ii di, m ii <> Some (j, di)) ->
    aget (nat_table (fs_nat s')) j = aget (nat_table (fs_nat s)) j /\
    aget (node_cache (fs_nat s')) j = aget (node_cache (fs_nat s)) j
}.
Lemma others_kept_refl m ip s : others_kept m ip s s.
Proof. by constructor; [intros n k i; exists i|]. Qed.
Lemma others_kept_trans m m' ip s s1 s2 : (forall ii x, m' ii = Some x -> m ii = Some x) ->
  others_kept m ip s s1 -> others_kept m' ip s1 s2 -> others_kept m ip s s2.
Proof.
  intros Hm [H1 H2] [H3 H4]. constructor.
  - intros n k i (i1 & Hi)%H1. by eapply H3.
  - intros j Hj. destruct (H2 j Hj) as [<- <-]. apply H4. intros ii di E%Hm. by eapply Hj.
Qed.
Lemma others_kept_same m ip s s' n k i i' : fs_nat s' = fs_nat s ->
  node_at (fs_pages s) ip (mkNode n k ip (N_inode i)) -> node_at (fs_pages s') ip (mkNode n k ip (N_inode i')) ->
  others_kept m ip s s'.
Proof.
  intros En Hi Hi'. constructor; [|by rewrite En]. intros n1 k1 i1 H1. pose proof (node_at_inj _ _ _ _ H1 Hi) as E.
  injection E as -> -> ->. by exists i'.
Qed.

Lemma trunc_rep_pages s l ip m c pa : trunc_rep s l ip m c -> keeps_pages (fs_pages s) pa ->
  trunc_rep (set_pages pa s) l ip m c.
Proof.
  intros [Hf Hn Hb Hc] Hk. constructor; [by apply file_rep_pages|done|by intros; eapply Hb|].
  intros ii nid di k pid x Hi Hm Hx. destruct (file_slot _ _ _ _ _ _ _ _ Hf Hi Hm) as (_ & _ & (k0 & pid0 & x0 & Hx0 & _) & _).
  destruct (keeps_pages_node _ _ _ _ Hk Hx0) as (pid' & Hx' & _). pose proof (node_at_inj _ _ _ _ Hx Hx') as E.
  injection E as -> -> ->. by eapply Hc.
Qed.
Lemma trunc_rep_ext s l ip m m' c c' : (forall ii, m ii = m' ii) -> (forall b, c b = c' b) ->
  trunc_rep s l ip m c -> trunc_rep s l ip m' c'.
Proof.
  intros Em Ec [Hf Hn Hb Hc]. apply (file_rep_ext _ _ _ _ _ _ Ec) in Hf. constructor; [|done| |].
  - destruct Hf as [(n & k & i & H1 & H2 & H3) Ha Hd]. constructor; [|by intros ii jj nid di dj; rewrite <- !Em; apply Ha|done].
    exists n, k, i. split_and!; [done|done|]. intros ii Hi. rewrite <- Em. by apply H3.
  - intros ii nid di Hi. rewrite <- Em. by apply Hb.
  - intros ii nid di k pid x Hi. rewrite <- Em. intros Hm Hx. rewrite (Hc _ _ _ _ _ _ Hi Hm Hx).
    apply block_count_ext. by intros; rewrite Ec.
Qed.

(** * One entry *)
Lemma set_index_at_runs s fl di nid k pid x off v : pages_wf (fs_pages s) fl ->
  node_at (fs_pages s) di (mkNode nid k pid (N_index x)) -> 0 <= off < Z.of_nat (length (index_index x)) ->
  exists pa, runs (set_index_at di off v) s tt (set_pages pa s) /\
    node_step s fl di (mkNode nid k pid (N_index (set_index_index (<[Z.to_nat off := v]> (index_index x)) x))) pa.
Proof.
  intros Hw Hd Ho.
  destruct (upd_index_runs s fl di nid k pid x (set_index_index (<[Z.to_nat off := v]> (index_index x))) Hw Hd) as (pa & Hr & Hs).
  exists pa. split; [|done]. unfold set_index_at. eapply runs_bind; [by eapply index_of_runs|].
  rewrite aset_is_Some by done. by eapply runs_bind.
Qed.

(** The entry, the two counters and the flags. *)
Lemma clear_entry_runs s fl ip di nid k pid x n k' i off :
  pages_wf (fs_pages s) fl -> node_at (fs_pages s) di (mkNode nid k pid (N_index x)) ->
  node_at (fs_pages s) ip (mkNode n k' ip (N_inode i)) -> 0 <= off < Z.of_nat (length (index_index x)) ->
  exists pa x' i', runs (set_index_at di off INVALID16 ;;;
      set_dirty_page di true ;;;
      upd_index di (fun x => set_valid_data (w32 (valid_data x - 1)) x) ;;;
      upd_inode ip (fun i => set_blk_num (w32 (blk_num i - 1)) i) ;;;
      set_dirty_page ip true) s tt (set_pages pa s) /\ pages_wf pa fl /\
    node_at pa di (mkNode nid k pid (N_index x')) /\ index_index x' = <[Z.to_nat off := INVALID16]> (index_index x) /\
    valid_data x' = w32 (valid_data x - 1) /\
    node_at pa ip (mkNode n k' ip (N_inode i')) /\ inode_index i' = inode_index i /\
    (forall y, y <> ip -> y <> di -> aget (m_pages pa) y = aget (m_pages (fs_pages s)) y).
Proof.
  intros Hw Hd Hi Ho. assert (ip <> di) as Hne by (intros ->; pose proof (node_at_inj _ _ _ _ Hd Hi); congruence).
  destruct (set_index_at_runs s fl di nid k pid x off INVALID16 Hw Hd Ho) as (p1 & R1 & W1 & D1 & O1).
  destruct (set_dirty_runs (set_pages p1 s) fl di _ true W1 D1) as (p2 & R2 & W2 & D2 & O2).
  destruct (upd_index_runs (set_pages p2 s) fl di nid k pid _ (fun x => set_valid_data (w32 (valid_data x - 1)) x) W2 D2)
    as (p3 & R3 & W3 & D3 & O3).
  assert (I3 : node_at p3 ip (mkNode n k' ip (N_inode i))).
  { eapply (node_at_move p2), (node_at_move p1), (node_at_move (fs_pages s)); try done. }
  destruct (upd_inode_runs (set_pages p3 s) fl ip n k' ip i (fun i => set_blk_num (w32 (blk_num i - 1)) i) W3 I3)
    as (p4 & R4 & W4 & I4 & O4).
  destruct (set_dirty_runs (set_pages p4 s) fl ip _ true W4 I4) as (p5 & R5 & W5 & I5 & O5).
  eexists p5, _, _. split_and!; [|exact W5| |shelve|shelve|exact I5|shelve|].
  - eapply runs_bind; [exact R1|]. eapply runs_bind; [exact R2|]. eapply runs_bind; [exact R3|].
    eapply runs_bind; [exact R4|exact R5].
  - eapply (node_at_move p4), (node_at_move p3); [exact O5|done|exact O4|done|exact D3].
  - intros y H1 H2. by rewrite O5, O4, O3, O2, O1.
  Unshelve. all: done.
Qed.

(** What the entry of [blk] leaves. *)
Lemma entry_cleared s l ip m c blk nid di g pa n k' i i' k pid x x' b d :
  trunc_rep s l ip m c -> 0 <= blk < MAX_FILE_BLKS -> m (blk / INDEX_SIZE) = Some (nid, di) -> c blk = Some d ->
  entry_rep s l nid (blk mod INDEX_SIZE) b (Some d) ->
  node_at (fs_pages s) di (mkNode nid k pid (N_index x)) -> node_at (fs_pages s) ip (mkNode n k' ip (N_inode i)) ->
  node_at pa di (mkNode nid k pid (N_index x')) -> index_index x' = <[Z.to_nat (blk mod INDEX_SIZE) := INVALID16]> (index_index x) ->
  valid_data x' = w32 (valid_data x - 1) ->
  node_at pa ip (mkNode n k' ip (N_inode i')) -> inode_index i' = inode_index i ->
  (forall y, y <> ip -> y <> di -> aget (m_pages pa) y = aget (m_pages (fs_pages s)) y) ->
  (forall b', 0 <= b' < MAIN_BLK_NR -> b' <> b -> (blk_live g b' <-> blk_live (fs_segs s) b') /\ owner_of g b' = owner_of (fs_segs s) b') ->
  trunc_rep (set_pages pa (set_segs g s)) l ip m (content_set c blk None).
Proof.
  intros [Hf Hn Hb Hc] Hr Hm Hd He Hdi Hip Hdi' Ex Ev Hip' Ei Ho Hs.
  assert (Hii : 0 <= blk / INDEX_SIZE < INDEX_TABLE_SIZE).
  { split; [apply Z.div_pos; clia|apply Z.div_lt_upper_bound; clia]. }
  pose proof (Z.mod_pos_bound blk INDEX_SIZE ltac:(clia)) as Hoff.
  assert (Hk : keeps_blocks (fun nid' off => nid' = nid /\ off = blk mod INDEX_SIZE) (fs_segs s) g).
  { eapply keeps_blocks_one; [apply He|done|exact Hs]. }
  constructor.
  - eapply file_written; [exact Hf|exact Hr|exact Hm|by intros e|]. constructor.
    + done.
    + intros nid' off' b' o Hne. eapply entry_rep_keeps; [exact Hk|]. intros [-> ->]. by destruct Hne.
    + done.
    + intros n1 k1 i1 H1. pose proof (node_at_inj _ _ _ _ H1 Hip) as E. injection E as -> -> ->. by exists i'.
    + intros k1 pid1 x1 H1. pose proof (node_at_inj _ _ _ _ H1 Hdi) as E. injection E as -> -> ->. by exists pid, x'.
    + intros y m1 H1 H2 (p & Hp & Hq). exists (page_id m1), p. cbn. rewrite Ho by done. by destruct m1.
  - done.
  - intros ii nid1 di1 Hi Hm1. eapply index_blk_keeps; [exact Hk| |done|by eapply Hb]. intros [_ E]. clia.
  - intros ii nid1 di1 k1 pid1 x1 Hi Hm1 H1. cbn in H1. destruct (decide (ii = blk / INDEX_SIZE)) as [->|Hne].
    + rewrite Hm in Hm1. injection Hm1 as <- <-. pose proof (node_at_inj _ _ _ _ H1 Hdi') as E. injection E as -> -> ->.
      rewrite Ev, (Hc _ _ _ _ _ _ Hii Hm Hdi), block_count_drop by by rewrite Hd.
      pose proof (block_count_bounds (content_set c blk None) (blk / INDEX_SIZE)) as Hcb.
      rewrite block_count_drop in Hcb by by rewrite Hd. unfold w32. apply Z.mod_small. clia.
    + rewrite block_count_other by done. apply (Hc _ _ _ k1 pid1 x1 Hi Hm1).
      destruct H1 as (p & Hp & Hq). exists p. rewrite <- Ho; [done| |]; intros ->.
      * destruct Hip' as (p' & Hp' & _ & Hq'). destruct Hq. congruence.
      * destruct Hdi' as (p' & Hp' & _ & Hq'). destruct Hq as [_ Hq]. apply Hne.
        assert (p' = p) as -> by congruence. assert (nid1 = nid) as -> by congruence.
        by eapply (fr_apart _ _ _ _ _ Hf).
Qed.

Lemma truncate_entry_runs s q fl l ip m c blk nid di :
  fs_rep s q fl l -> trunc_rep s l ip m c -> 0 <= blk < MAX_FILE_BLKS -> m (blk / INDEX_SIZE) = Some (nid, di) ->
  exists s' q', runs (truncate_entry ip di (blk mod INDEX_SIZE)) s tt s' /\ fs_rep s' q' fl l /\
    trunc_rep s' l ip m (content_set c blk None) /\
    keeps_blocks (fun nid' off => nid' = nid /\ off = blk mod INDEX_SIZE) (fs_segs s) (fs_segs s') /\
    keeps_data (fs_pages s) (fs_pages s') /\ others_kept m ip s s' /\
    m_used_blk_nr (fs_segs s') = m_used_blk_nr (fs_segs s) - (if c blk then 1 else 0).
Proof.
  intros Hs Ht Hr Hm. pose proof (tr_file _ _ _ _ _ Ht) as Hf.
  destruct (file_entry _ _ _ _ _ _ _ _ Hf Hr Hm) as (k & pid & x & b & Hx & Hl & Hg & He).
  unfold truncate_entry. destruct (c blk) as [d|] eqn:Hd.
  - destruct (fr_inode _ _ _ _ _ Hf) as (n & k' & i & Hi & _). destruct (entry_lba _ _ _ _ _ _ He) as (Hv & _).
    pose proof He as (Hb & Hlive & Hown & _).
    destruct (InvalidBlock_spec _ _ _ (fp_segs _ _ _ _ Hs) Hb Hlive) as (g & r & Hri & Hwg & Hu & _ & _ & Hlo & Hoo & _).
    destruct (clear_entry_runs (set_segs g s) fl ip di nid k pid x n k' i (blk mod INDEX_SIZE) (fp_pages _ _ _ _ Hs) Hx Hi)
      as (pa & x' & i' & Hrc & Hwp & Hx' & Ex & Ev & Hi' & Ei & Ho).
    { rewrite Hl. apply Z.mod_pos_bound. clia. }
    assert (Hsame : forall b', 0 <= b' < MAIN_BLK_NR -> b' <> b ->
      (blk_live g b' <-> blk_live (fs_segs s) b') /\ owner_of g b' = owner_of (fs_segs s) b') by (intros; split; auto).
    exists (set_pages pa (set_segs g s)), (if r then q ++ [b / BLOCK_PER_SEG] else q). split_and!.
    + eapply runs_bind; [by eapply index_at_runs|]. rewrite Hv. cbn [negb when].
      eapply runs_bind; [|exact Hrc]. unfold fs_InvalidBlock. rewrite Hv. by apply on_segs_runs.
    + by constructor; [exact Hwg|exact Hwp|apply Hs].
    + by eapply entry_cleared.
    + eapply keeps_blocks_one; [exact Hown|done|exact Hsame].
    + intros y e Hnn (py & Hy & Huy & Hdy). exists py. cbn. rewrite Ho; [done| |]; intros ->.
      * destruct Hi as (z & Hz & _ & Hzn). apply (Hnn (mkNode n k' ip (N_inode i))). congruence.
      * destruct Hx as (z & Hz & _ & Hzn). apply (Hnn (mkNode nid k pid (N_index x))). congruence.
    + by eapply (others_kept_same _ _ _ _ n k' i i').
    + exact Hu.
  - cbn in He. subst b. exists s, q. split_and!; [|done| |apply keeps_blocks_refl|done|apply others_kept_refl|lia].
    + by eapply runs_bind; [by eapply index_at_runs|].
    + eapply trunc_rep_ext; [done| |exact Ht]. intros b. unfold content_set. destruct (Z.eqb_spec b blk) as [->|]; done.
Qed.

(** * Giving up an index block *)
Definition map_drop m ii : Z -> option (Z * Z) := fun jj => if jj =? ii then None else m jj.
(** The page of an index block that was given up still holds it. *)
Definition freed_index (pa : CPageAllocator) (di nid : Z) : Prop :=
  exists p k pid x, aget (m_pages pa) di = Some p /\ in_use p = false /\
    body (data p) = U_node (mkNode nid k pid (N_index x)) /\ valid_data x = 0 /\
    forall off, 0 <= off < INDEX_SIZE -> aget (index_index x) off = Some INVALID16.

Lemma nat_ok_cache t nid v : nat_ok t ->
  nat_ok (mkNat (<[Z.to_nat nid := v]> (node_cache t)) (free_nr t) (nat_table t) (nat_dirty t) (next_scan t)).
Proof. intros []. constructor; cbn; rewrite ?length_insert; done. Qed.

(** What is left of the file. *)
Lemma index_released s l ip m c ii nid di g pa t n k i i' :
  trunc_rep s l ip m c -> 0 <= ii < INDEX_TABLE_SIZE -> m ii = Some (nid, di) -> block_count c ii = 0 ->
  node_at (fs_pages s) ip (mkNode n k ip (N_inode i)) ->
  node_at pa ip (mkNode n k ip (N_inode i')) -> inode_index i' = <[Z.to_nat ii := INVALID16]> (inode_index i) ->
  (forall y, y <> ip -> y <> di -> aget (m_pages pa) y = aget (m_pages (fs_pages s)) y) ->
  nat_ok t -> (forall j, j <> nid -> aget (nat_table t) j = aget (nat_table (fs_nat s)) j /\
    aget (node_cache t) j = aget (node_cache (fs_nat s)) j) ->
  keeps_blocks (fun nid' off => nid' = nid /\ off = INVALID16) (fs_segs s) g ->
  trunc_rep (set_nat t (set_pages pa (set_segs g s))) l ip (map_drop m ii) c.
Proof.
  intros [Hf Hn Hb Hc] Hii Hm Hz Hip Hip' Ei Ho Ht Htj Hk. pose proof (fr_apart _ _ _ _ _ Hf) as Ha.
  destruct (file_slot _ _ _ _ _ _ _ _ Hf Hii Hm) as (_ & _ & (k0 & pid0 & x0 & Hx0 & _) & _).
  assert (Hother : forall jj nid' dj n', m jj = Some (nid', dj) -> jj <> ii ->
    node_at (fs_pages s) dj n' -> m_nid n' = nid' -> (forall z, node_body n' <> N_inode z) ->
    nid' <> nid /\ aget (m_pages pa) dj = aget (m_pages (fs_pages s)) dj).
  { intros jj nid' dj n' Hmj Hne Hn' En Hni. assert (nid' <> nid) as Hnn by (intros ->; apply Hne; by eapply Ha).
    split; [done|]. apply Ho; intros ->.
    - apply (Hni i). by rewrite (node_at_inj _ _ _ _ Hn' Hip).
    - apply Hnn. rewrite <- En. by rewrite (node_at_inj _ _ _ _ Hn' Hx0). }
  assert (Hpages : forall jj nid' dj k1 pid x, m jj = Some (nid', dj) -> jj <> ii ->
    node_at pa dj (mkNode nid' k1 pid (N_index x)) -> 0 <= jj < INDEX_TABLE_SIZE ->
    node_at (fs_pages s) dj (mkNode nid' k1 pid (N_index x))).
  { intros jj nid' dj k1 pid x Hmj Hne (p & Hp & Hq) Hj.
    destruct (file_slot _ _ _ _ _ _ _ _ Hf Hj Hmj) as (_ & _ & (k2 & pid2 & x2 & Hx2 & _) & _).
    destruct (Hother _ _ _ _ Hmj Hne Hx2 eq_refl) as [_ E]; [done|]. exists p. by rewrite <- E. }
  destruct Hf as [(n1 & k1 & i1 & Hn1 & Hl & Hs) _ Hd].
  pose proof (node_at_inj _ _ _ _ Hip Hn1) as E. injection E as <- <- <-.
  constructor; [constructor| | |].
  - exists n, k, i'. rewrite Ei, length_insert. split_and!; [done|done|]. intros jj Hj. unfold map_drop.
    destruct (Z.eqb_spec jj ii) as [->|Hne].
    + exists INVALID16. split; [apply aget_insert_eq; lia|]. split; [done|]. by apply block_count_zero.
    + destruct (Hs jj Hj) as (nid' & Hg & Hr). exists nid'. rewrite aget_insert_ne by lia. split; [done|].
      destruct (m jj) as [[nid2 dj]|] eqn:Hmj; [|done]. destruct Hr as (-> & Hnr & Hca & (k2 & pid2 & x2 & Hx2 & Hlx & He)).
      destruct (Hother _ _ _ _ Hmj Hne Hx2 eq_refl) as [Hnn Ep]; [done|].
      split_and!; [done|lia|lia|exact (eq_trans (proj2 (Htj _ Hnn)) Hca)|]. exists k2, pid2, x2. split_and!.
      * destruct Hx2 as (p & Hp & Hq). exists p. cbn. by rewrite Ep.
      * done.
      * intros off Hoff. destruct (He off Hoff) as (b & Hb' & Her). exists b. split; [done|].
        eapply entry_rep_keeps; [exact Hk|naive_solver|exact Her].
  - intros j1 j2 nid' d1 d2. unfold map_drop. destruct (j1 =? ii), (j2 =? ii); try done. apply Ha.
  - exact Hd.
  - exact Ht.
  - intros jj nid' dj Hj. unfold map_drop. destruct (Z.eqb_spec jj ii) as [|Hne]; [done|]. intros Hmj.
    assert (nid' <> nid) as Hnn by (intros ->; apply Hne; by eapply Ha).
    eapply index_blk_keeps; [exact Hk|naive_solver|apply Htj; done|by eapply Hb].
  - intros jj nid' dj k2 pid x Hj. unfold map_drop. destruct (Z.eqb_spec jj ii) as [|Hne]; [done|]. intros Hmj Hx.
    eapply Hc; [done|exact Hmj|]. by eapply Hpages.
Qed.

(** The page goes back to the allocator, the number to the table. *)
Lemma on_nat_cache s nid v : 0 <= nid < Z.of_nat (length (node_cache (fs_nat s))) ->
  runs (on_nat (set_node_cache nid v)) s tt
    (set_nat (mkNat (<[Z.to_nat nid := v]> (node_cache (fs_nat s))) (free_nr (fs_nat s)) (nat_table (fs_nat s))
      (nat_dirty (fs_nat s)) (next_scan (fs_nat s))) s).
Proof. intros H. unfold runs, on_nat, zoom, set_node_cache, bind, get, opt. by rewrite aset_is_Some. Qed.
Lemma free_index_page s q fl l di n : fs_rep s q fl l -> node_at (fs_pages s) di n ->
  exists pa p, runs (free (Some di)) (fs_pages s) tt pa /\ pages_wf pa (di :: fl) /\
    aget (m_pages pa) di = Some p /\ (in_use p = false /\ body (data p) = U_node n) /\
    forall y, y <> di -> aget (m_pages pa) y = aget (m_pages (fs_pages s)) y.
Proof.
  intros Hs (p & Hp & Hu & Hb). destruct (free_spec _ _ _ _ (fp_pages _ _ _ _ Hs) Hp Hu) as (pa & R & W & G & O).
  eexists pa, _. split_and!; [exact R|exact W|exact G|done|done|exact O].
Qed.
Lemma put_index_node s q fl nid blk : nat_ok (fs_nat s) -> segs_wf (fs_segs s) q -> pages_wf (fs_pages s) fl ->
  aget (nat_table (fs_nat s)) nid = Some blk ->
  blk = NID_IN_USE \/ (0 <= blk < MAIN_BLK_NR /\ blk_live (fs_segs s) blk /\ owner_of (fs_segs s) blk = Some (nid, INVALID16)) ->
  exists g q' t,
    runs (put_node nid) (set_nat (mkNat (<[Z.to_nat nid := INVALID32]> (node_cache (fs_nat s))) (free_nr (fs_nat s))
      (nat_table (fs_nat s)) (nat_dirty (fs_nat s)) (next_scan (fs_nat s))) s) tt (set_nat t (set_segs g s)) /\
    nat_ok t /\ (forall j, j <> nid -> aget (nat_table t) j = aget (nat_table (fs_nat s)) j /\
      aget (node_cache t) j = aget (node_cache (fs_nat s)) j) /\
    aget (nat_table t) nid = Some INVALID16 /\ free_nr t = free_nr (fs_nat s) + 1 /\ segs_wf g q' /\ keeps_blocks (fun nid' off => nid' = nid /\ off = INVALID16) (fs_segs s) g /\
    m_used_blk_nr g <= m_used_blk_nr (fs_segs s).
Proof.
  intros Hn Hw Hp Hblk Hbk. pose proof (aget_bounds _ _ _ Hblk) as Hb. rewrite (no_len _ Hn) in Hb.
  assert (Hok : node_blk_ok (fs_segs s) blk) by (destruct Hbk as [|(? & ? & _)]; [by left|by right]).
  match goal with |- context [runs _ ?u tt] => set (s1 := u) end.
  destruct (put_node_spec s1 q fl nid blk INVALID32 (nat_ok_cache _ _ _ Hn) Hw Hp Hblk Hok)
    as (g & q' & pa & dl & R & Hnf & _ & Wg & _ & Epa & Hg1 & Hg2).
  { cbn. apply aget_insert_eq. rewrite (no_cache _ Hn). lia. }
  { by left. }
  rewrite (Epa eq_refl) in R. eexists g, q', _. split_and!; [exact R|exact Hnf| | |done|exact Wg| |].
  - intros j Hj. cbn. destruct (decide (0 <= j)); [|by rewrite !(proj2 (aget_None _ _)) by lia].
    by rewrite !aget_insert_ne by lia.
  - cbn. apply aget_insert_eq. rewrite (no_len _ Hn). lia.
  - destruct Hbk as [E|(Hr & Hl & Ho)]; [by destruct (Hg1 E) as [-> _]; apply keeps_blocks_refl|].
    destruct (Hg2 ltac:(clia)) as (_ & _ & Hsame). by eapply keeps_blocks_one.
  - destruct (decide (blk = NID_IN_USE)) as [E|E]; [by destruct (Hg1 E) as [-> _]|].
    destruct (Hg2 E) as (-> & _). cbn. lia.
Qed.

Lemma release_index_runs s q fl l ip m c ii nid di :
  fs_rep s q fl l -> trunc_rep s l ip m c -> 0 <= ii < INDEX_TABLE_SIZE -> m ii = Some (nid, di) -> block_count c ii = 0 ->
  exists s' q', runs (release_index ip di ii) s tt s' /\ fs_rep s' q' (di :: fl) l /\
    trunc_rep s' l ip (map_drop m ii) c /\
    keeps_blocks (fun nid' off => nid' = nid /\ off = INVALID16) (fs_segs s) (fs_segs s') /\
    keeps_data (fs_pages s) (fs_pages s') /\ others_kept m ip s s' /\ m_used_blk_nr (fs_segs s') <= m_used_blk_nr (fs_segs s) /\
    freed_index (fs_pages s') di nid.
Proof.
  intros Hs Ht Hii Hm Hz. pose proof (tr_file _ _ _ _ _ Ht) as Hf. pose proof (tr_nat _ _ _ _ _ Ht) as Hn.
  destruct (file_slot _ _ _ _ _ _ _ _ Hf Hii Hm) as (Hnr & Hca & (k0 & pid0 & x & Hx & Hlx & He) & _).
  pose proof (tr_count _ _ _ _ _ Ht _ _ _ _ _ _ Hii Hm Hx) as Hv. rewrite Hz in Hv.
  destruct (fr_inode _ _ _ _ _ Hf) as (n & k & i & Hi & Hli & _).
  assert (ip <> di) as Hne by (intros ->; pose proof (node_at_inj _ _ _ _ Hx Hi); congruence).
  destruct (free_index_page s q fl l di _ Hs Hx) as (p1 & p & Rf & Wf & Gf & Pf & Of).
  destruct (tr_blk _ _ _ _ _ Ht _ _ _ Hii Hm) as (blk & Hblk & Hbk).
  destruct (put_index_node (set_pages p1 s) q (di :: fl) nid blk Hn (fp_segs _ _ _ _ Hs) Wf Hblk Hbk)
    as (g & q' & t & Rp & Hnt & Htj & _ & _ & Wg & Hk & Hu).
  assert (Hi1 : node_at p1 ip (mkNode n k ip (N_inode i))).
  { destruct Hi as (y & Hy & Hq). exists y. by rewrite Of. }
  destruct (upd_inode_runs (set_nat t (set_pages p1 (set_segs g s))) (di :: fl) ip n k ip i
    (set_inode_index (<[Z.to_nat ii := INVALID16]> (inode_index i))) Wf Hi1) as (p2 & R2 & W2 & I2 & O2).
  exists (set_nat t (set_pages p2 (set_segs g s))), q'. split_and!.
  - unfold release_index. eapply runs_bind; [by apply node_of_runs|]. cbn [m_nid].
    eapply runs_bind; [eapply on_nat_cache; rewrite (no_cache _ Hn); lia|].
    eapply runs_bind; [by apply on_pages_runs|]. eapply runs_bind; [exact Rp|].
    unfold set_inode_index_at. eapply runs_bind; [by eapply inode_of_runs|].
    rewrite aset_is_Some by lia. by eapply runs_bind.
  - by constructor; [exact Wg|exact W2|apply Hs].
  - eapply index_released; try done. intros y H1 H2. by rewrite O2, Of.
  - exact Hk.
  - intros y e Hnn (py & Hy & Huy & Hdy). exists py. cbn. rewrite O2, Of; [done| |]; intros ->.
    + destruct Hx as (z & Hz1 & _ & Hzn). eapply Hnn. rewrite <- Hdy, <- Hzn. congruence.
    + destruct Hi as (z & Hz1 & _ & Hzn). eapply Hnn. rewrite <- Hdy, <- Hzn. congruence.
  - constructor.
    + intros n1 k1 i1 H1. pose proof (node_at_inj _ _ _ _ H1 Hi) as E. injection E as -> -> ->. by eexists.
    + intros j Hj. apply Htj. intros ->. by eapply Hj.
  - exact Hu.
  - exists p, k0, pid0, x. cbn. rewrite O2 by done. split_and!; try done.
    1, 2: apply Pf.
    intros off Ho. destruct (He off Ho) as (b & Hb & Her).
    rewrite (proj1 (block_count_zero c ii) Hz off Ho) in Her. cbn in Her. by subst b.
Qed.

(** * One block *)
Definition map_emptied m c blk : Z -> option (Z * Z) :=
  if block_count (content_set c blk None) (blk / INDEX_SIZE) =? 0 then map_drop m (blk / INDEX_SIZE) else m.

Lemma map_emptied_some m c blk ii x : map_emptied m c blk ii = Some x -> m ii = Some x.
Proof. unfold map_emptied, map_drop. destruct (_ =? 0); [|done]. by destruct (ii =? _). Qed.

Lemma truncate_block_runs s q fl l ip m c st blk nid di :
  fs_rep s q fl l -> trunc_rep s l ip m c -> 0 <= blk < MAX_FILE_BLKS -> m (blk / INDEX_SIZE) = Some (nid, di) ->
  path_ok m st blk ->
  exists s' q' fl', runs (truncate_block ip st blk) s (NextOffset (path_of blk di)) s' /\ fs_rep s' q' fl' l /\
    trunc_rep s' l ip (map_emptied m c blk) (content_set c blk None) /\
    keeps_blocks (dropped m (map_emptied m c blk) blk (blk + 1)) (fs_segs s) (fs_segs s') /\
    keeps_data (fs_pages s) (fs_pages s') /\ others_kept m ip s s' /\
    m_used_blk_nr (fs_segs s') <= m_used_blk_nr (fs_segs s) - (if c blk then 1 else 0) /\
    (block_count (content_set c blk None) (blk / INDEX_SIZE) = 0 -> freed_index (fs_pages s') di nid).
Proof.
  intros Hs Ht Hr Hm Hst. pose proof (Z.mod_pos_bound blk INDEX_SIZE ltac:(clia)) as Hoff. pose proof (blk_place blk) as Hbp.
  assert (Hii : 0 <= blk / INDEX_SIZE < INDEX_TABLE_SIZE).
  { split; [apply Z.div_pos; clia|apply Z.div_lt_upper_bound; clia]. }
  destruct (path_to_runs _ _ _ _ _ _ _ _ _ _ _ false Hs (tr_file _ _ _ _ _ Ht) Hr Hm Hst) as (p1 & Hr1 & Hw1 & Hk1).
  pose proof (trunc_rep_pages _ _ _ _ _ _ Ht Hk1) as Ht1.
  destruct (truncate_entry_runs _ _ _ _ _ _ _ _ _ _ (fs_rep_pages _ _ _ _ _ _ Hs Hw1) Ht1 Hr Hm)
    as (s2 & q2 & Hr2 & Hs2 & Ht2 & Hk2 & Hd2 & Hot2 & Hu2).
  assert (Hot : others_kept m ip s s2).
  { eapply others_kept_trans; [done| |exact Hot2]. destruct (fr_inode _ _ _ _ _ (tr_file _ _ _ _ _ Ht)) as (n & k & i & Hi & _).
    destruct (keeps_pages_node _ _ _ _ Hk1 Hi) as (pid' & Hi' & Hp). cbn in Hi', Hp. assert (pid' = ip) as -> by naive_solver.
    by eapply (others_kept_same _ _ _ _ n k i i). }
  assert (Hd : keeps_data (fs_pages s) (fs_pages s2)) by (trans p1; [by apply keeps_pages_data|done]).
  destruct (file_slot _ _ _ _ _ _ _ _ (tr_file _ _ _ _ _ Ht2) Hii Hm) as (_ & _ & (k & pid & x & Hx & _) & _).
  pose proof (tr_count _ _ _ _ _ Ht2 _ _ _ _ _ _ Hii Hm Hx) as Hv.
  assert (Hrun : forall s' m', runs (when (valid_data x =? 0) (release_index ip di (blk / INDEX_SIZE))) s2 tt s' ->
    keeps_blocks (dropped m m' blk (blk + 1)) (fs_segs s) (fs_segs s2) /\
    runs (truncate_block ip st blk) s (NextOffset (path_of blk di)) s').
  { intros s' m' Hrel. split.
    - intros b nid0 off0 Hb Hl Ho Hn0. apply Hk2; try done. intros [-> ->]. apply Hn0. exists (blk / INDEX_SIZE), di.
      split; [done|]. left. lia.
    - unfold truncate_block. eapply runs_bind; [exact Hr1|]. eapply runs_bind; [done|]. cbn [index_page path_of offset1 offset0].
      eapply runs_bind; [exact Hr2|]. eapply runs_bind; [by eapply index_of_runs|]. by eapply runs_bind. }
  unfold map_emptied. rewrite Hv in Hrun. destruct (Z.eqb_spec (block_count (content_set c blk None) (blk / INDEX_SIZE)) 0) as [Hz|Hnz].
  - destruct (release_index_runs _ _ _ _ _ _ _ _ _ _ Hs2 Ht2 Hii Hm Hz) as (s3 & q3 & Hr3 & Hs3 & Ht3 & Hk3 & Hd3 & Hot3 & Hu3 & Hf3).
    destruct (Hrun s3 (map_drop m (blk / INDEX_SIZE)) Hr3) as [Hkb Hr'].
    exists s3, q3, (di :: fl). split_and!; [exact Hr'|done|done| |by trans (fs_pages s2)|by eapply others_kept_trans|cbn in Hu2; lia|done].
    eapply keeps_blocks_trans; [|exact Hkb|exact Hk3]. intros nid0 off0 [|[-> ->]]; [done|].
    exists (blk / INDEX_SIZE), di. split; [done|]. right. unfold map_drop. by rewrite Z.eqb_refl.
  - destruct (Hrun s2 m eq_refl) as [Hkb Hr']. exists s2, q2, fl. split_and!; [exact Hr'|done|done|exact Hkb|done|exact Hot|cbn in Hu2; lia|done].
Qed.

(** The page of an index block that was given up is freed again. *)
Lemma truncate_again_throws s q fl l ip m c di nid blk : fs_rep s q fl l -> trunc_rep s l ip m c ->
  0 <= nid < NODE_NR -> freed_index (fs_pages s) di nid ->
  exists s', throws (truncate_block ip (Some (path_of blk di)) blk) s ERR_USER s'.
Proof.
  intros Hs Ht Hn (p & k & pid & x & Hp & Hu & Hb & Hv & Hx).
  assert (Hnode : runs (node_of di) s (mkNode nid k pid (N_index x)) s).
  { unfold node_of, body_at, data_at.
    eapply runs_bind; [eapply runs_bind; [eapply runs_bind; [by apply (on_pages_at s di p)|done]|done]|]. by rewrite Hb. }
  assert (Hidx : runs (index_of di) s x s) by (unfold index_of; by eapply runs_bind).
  pose proof (no_cache _ (tr_nat _ _ _ _ _ Ht)) as Hc.
  match goal with |- exists s', throws _ _ _ s' =>
    exists (set_nat (mkNat (<[Z.to_nat nid := INVALID32]> (node_cache (fs_nat s))) (free_nr (fs_nat s)) (nat_table (fs_nat s))
      (nat_dirty (fs_nat s)) (next_scan (fs_nat s))) s) end.
  unfold truncate_block. cbn [path_to]. eapply throws_later; [done|]. eapply throws_later; [done|].
  cbn [index_page path_of offset1 offset0]. eapply throws_later.
  { unfold truncate_entry. eapply runs_bind.
    - unfold index_at. eapply runs_bind; [exact Hidx|]. rewrite Hx by (apply Z.mod_pos_bound; clia). done.
    - done. }
  eapply throws_later; [exact Hidx|]. rewrite Hv, Z.eqb_refl. apply throws_here. unfold release_index.
  eapply throws_later; [exact Hnode|]. eapply throws_later; [eapply on_nat_cache; cbn [m_nid]; lia|]. apply throws_here.
  pose proof (free_twice _ _ _ _ (fp_pages _ _ _ _ Hs) Hp Hu) as Hf. unfold throws, on_pages, zoom in *. cbn [fs_pages set_nat] in *.
  rewrite Hf. by destruct s.
Qed.

(** * A range of blocks *)
Lemma touched_cons lo hi ii : lo < hi -> touched lo hi ii = (lo / INDEX_SIZE =? ii) || touched (lo + 1) hi ii.
Proof. intros H. unfold touched. by rewrite range_cons. Qed.
Lemma touched_false lo hi ii blk : touched lo hi ii = false -> lo <= blk < hi -> blk / INDEX_SIZE <> ii.
Proof.
  intros H Hb <-. apply not_true_iff_false in H. apply H. apply existsb_exists. exists blk.
  split; [by apply list_elem_of_In, elem_of_range|apply Z.eqb_refl].
Qed.
Lemma emptied_inside_cons c lo hi blk : lo < blk + 1 ->
  emptied_inside (content_set c lo None) (lo + 1) hi blk = emptied_inside c lo hi blk.
Proof.
  intros H. unfold emptied_inside. f_equal. f_equal. apply block_count_ext. intros off _. by apply content_clear_step.
Qed.
Lemma freed_twice_cons c lo hi : lo < hi ->
  freed_twice c lo hi = emptied_inside c lo hi lo || freed_twice (content_set c lo None) (lo + 1) hi.
Proof.
  intros H. unfold freed_twice. rewrite range_cons by done. cbn [existsb]. f_equal.
  assert (E : forall bs, (forall b, b ∈ bs -> lo < b) ->
    existsb (emptied_inside c lo hi) bs = existsb (emptied_inside (content_set c lo None) (lo + 1) hi) bs).
  { induction bs as [|b bs IH]; [done|]. intros Hb. cbn [existsb].
    rewrite IH by (intros; apply Hb; set_solver). f_equal. symmetry. apply emptied_inside_cons.
    specialize (Hb b ltac:(set_solver)). lia. }
  apply E. intros b ?%elem_of_range. lia.
Qed.
Lemma emptied_now c lo hi : emptied_inside c lo hi lo =
  (lo + 1 <? hi) && ((lo + 1) / INDEX_SIZE =? lo / INDEX_SIZE) && (block_count (content_set c lo None) (lo / INDEX_SIZE) =? 0).
Proof.
  unfold emptied_inside. do 2 f_equal. apply block_count_ext. intros off _. apply content_clear_one.
Qed.

(** The index blocks that are left after the first block and the others. *)
Lemma map_clear_cons m c lo hi ii : lo < hi ->
  map_clear (map_emptied m c lo) (content_set c lo None) (lo + 1) hi ii = map_clear m c lo hi ii.
Proof.
  intros H. unfold map_clear. rewrite (touched_cons lo hi) by done.
  set (F := content_clear c lo hi). set (c1 := content_set c lo None).
  assert (EF : forall b, content_clear c1 (lo + 1) hi b = F b) by (intros; by apply content_clear_step).
  rewrite (block_count_ext _ F ii) by (intros; apply EF). unfold map_emptied. fold c1.
  destruct (Z.eqb_spec (lo / INDEX_SIZE) ii) as [<-|Hne]; cbn [orb].
  - destruct (Z.eqb_spec (block_count c1 (lo / INDEX_SIZE)) 0) as [Hz|Hz].
    + assert (block_count F (lo / INDEX_SIZE) = 0) as ->.
      { apply block_count_zero. intros off Ho. subst F. unfold content_clear.
        pose proof (proj1 (block_count_zero _ _) Hz off Ho) as Hc. subst c1. unfold content_set in Hc.
        destruct (Z.leb_spec lo (lo / INDEX_SIZE * INDEX_SIZE + off)), (Z.ltb_spec (lo / INDEX_SIZE * INDEX_SIZE + off) hi),
          (Z.eqb_spec (lo / INDEX_SIZE * INDEX_SIZE + off) lo); cbn [andb]; lia || done. }
      unfold map_drop. rewrite !Z.eqb_refl. by destruct (touched _ _ _).
    + destruct (touched (lo + 1) hi (lo / INDEX_SIZE)) eqn:Et; [done|]. cbn [andb].
      assert (block_count F (lo / INDEX_SIZE) = block_count c1 (lo / INDEX_SIZE)) as ->; [|by rewrite (proj2 (Z.eqb_neq _ _))].
      apply block_count_ext. intros off Ho. rewrite <- EF. unfold content_clear.
      destruct (Z.leb_spec (lo + 1) (lo / INDEX_SIZE * INDEX_SIZE + off)), (Z.ltb_spec (lo / INDEX_SIZE * INDEX_SIZE + off) hi); try done.
      exfalso. eapply (touched_false _ _ _ (lo / INDEX_SIZE * INDEX_SIZE + off) Et); [lia|].
      symmetry. by eapply (blk_place_inj _ off).
  - destruct (block_count c1 _ =? 0); [|done]. unfold map_drop. by rewrite (proj2 (Z.eqb_neq ii _)) by done.
Qed.

Lemma dropped_cons m c lo hi nid off : lo < hi ->
  dropped m (map_emptied m c lo) lo (lo + 1) nid off \/
  dropped (map_emptied m c lo) (map_clear m c lo hi) (lo + 1) hi nid off ->
  dropped m (map_clear m c lo hi) lo hi nid off.
Proof.
  intros H [(ii & di & Hm & Hd)|(ii & di & Hm & Hd)]; exists ii, di.
  - split; [done|]. destruct Hd as [Hd|[-> Hd]]; [left; lia|right]. split; [done|]. rewrite <- map_clear_cons by done.
    unfold map_clear. by destruct (_ && _).
  - apply map_emptied_some in Hm. split; [done|]. destruct Hd as [Hd|Hd]; [left; lia|by right].
Qed.

(** The walk goes on: the next path, and the index blocks of the rest. *)
Lemma next_path_emptied m c lo hi nid di : 0 <= lo -> m (lo / INDEX_SIZE) = Some (nid, di) ->
  emptied_inside c lo hi lo = false -> path_ok (map_emptied m c lo) (NextOffset (path_of lo di)) (lo + 1) \/ lo + 1 = hi \/ hi <= lo.
Proof.
  intros H0 Hm He. destruct (decide (lo + 1 < hi)) as [Hlt|]; [|lia]. left.
  rewrite emptied_now, (proj2 (Z.ltb_lt _ _)) in He by done. rewrite andb_true_l in He.
  pose proof (next_path m lo nid di H0 Hm) as [->|(nid' & di' & Hm' & E)]; [by left|right].
  exists nid', di'. split; [|done]. unfold map_emptied.
  destruct (Z.eqb_spec ((lo + 1) / INDEX_SIZE) (lo / INDEX_SIZE)) as [Hsame|Hne]; [rewrite andb_true_l in He; by rewrite He|].
  destruct (block_count _ _ =? 0); [|done]. unfold map_drop. by rewrite (proj2 (Z.eqb_neq _ _)).
Qed.
Lemma mapped_emptied m c lo hi : 0 <= lo -> mapped m lo hi -> emptied_inside c lo hi lo = false ->
  mapped (map_emptied m c lo) (lo + 1) hi.
Proof.
  intros H0 Hm He blk Hb. unfold map_emptied. rewrite emptied_now, (proj2 (Z.ltb_lt _ _)) in He by lia. rewrite andb_true_l in He.
  destruct (block_count _ _ =? 0); [|by apply Hm; lia]. unfold map_drop.
  rewrite (proj2 (Z.eqb_neq _ _)); [by apply Hm; lia|]. intros E. rewrite andb_true_r in He. apply Z.eqb_neq in He. apply He.
  pose proof (Z.div_le_mono lo (lo + 1) INDEX_SIZE ltac:(clia) ltac:(lia)).
  pose proof (Z.div_le_mono (lo + 1) blk INDEX_SIZE ltac:(clia) ltac:(lia)). lia.
Qed.
Lemma range_count_cons c lo hi : lo < hi ->
  Z.of_nat (length (omap c (range lo hi))) =
  (if c lo then 1 else 0) + Z.of_nat (length (omap (content_set c lo None) (range (lo + 1) hi))).
Proof.
  intros H. rewrite range_cons by done. cbn [omap list_omap].
  assert (omap (content_set c lo None) (range (lo + 1) hi) = omap c (range (lo + 1) hi)) as ->.
  { apply list_omap_ext, Forall_Forall2_diag, Forall_forall. intros b Hb%elem_of_range. unfold content_set.
    by rewrite (proj2 (Z.eqb_neq _ _)) by lia. }
  destruct (c lo); cbn [length]; lia.
Qed.

(** What truncating leaves. *)
Definition truncated s l ip m c lo hi (s' : Fs) : Prop :=
  trunc_rep s' l ip (map_clear m c lo hi) (content_clear c lo hi) /\
  keeps_blocks (dropped m (map_clear m c lo hi) lo hi) (fs_segs s) (fs_segs s') /\
  keeps_data (fs_pages s) (fs_pages s') /\ others_kept m ip s s' /\
  m_used_blk_nr (fs_segs s') <= m_used_blk_nr (fs_segs s) - Z.of_nat (length (omap c (range lo hi))).

Lemma truncated_nil s l ip m c lo : trunc_rep s l ip m c -> truncated s l ip m c lo lo s.
Proof.
  intros Ht. split_and!; [|apply keeps_blocks_refl|done|apply others_kept_refl|].
  - eapply trunc_rep_ext; [| |exact Ht].
    + intros ii. unfold map_clear, touched. by rewrite range_nil by lia.
    + intros b. unfold content_clear. destruct (Z.leb_spec lo b), (Z.ltb_spec b lo); cbn [andb]; lia || done.
  - rewrite range_nil by lia. cbn. lia.
Qed.
Lemma truncated_cons s s1 s2 l ip m c lo hi : lo < hi ->
  keeps_blocks (dropped m (map_emptied m c lo) lo (lo + 1)) (fs_segs s) (fs_segs s1) ->
  keeps_data (fs_pages s) (fs_pages s1) -> others_kept m ip s s1 ->
  m_used_blk_nr (fs_segs s1) <= m_used_blk_nr (fs_segs s) - (if c lo then 1 else 0) ->
  truncated s1 l ip (map_emptied m c lo) (content_set c lo None) (lo + 1) hi s2 -> truncated s l ip m c lo hi s2.
Proof.
  intros H Hk Hd Hot Hu (Ht2 & Hk2 & Hd2 & Hot2 & Hu2).
  assert (Em : forall ii, map_clear (map_emptied m c lo) (content_set c lo None) (lo + 1) hi ii = map_clear m c lo hi ii)
    by (intros; by apply map_clear_cons).
  split_and!.
  - eapply trunc_rep_ext; [exact Em| |exact Ht2]. intros b. by apply content_clear_step.
  - eapply keeps_blocks_trans; [|exact Hk|exact Hk2]. intros nid off Hor. apply dropped_cons; [done|].
    destruct Hor as [|(ii & di & Hm & Hor)]; [by left|right]. exists ii, di. by rewrite <- Em.
  - by trans (fs_pages s1).
  - eapply others_kept_trans; [apply map_emptied_some|exact Hot|exact Hot2].
  - rewrite (range_count_cons c lo hi) by done. lia.
Qed.

Lemma truncate_loop ip l hi : forall (k : nat) lo s q fl m c st, Z.of_nat k = hi - lo ->
  fs_rep s q fl l -> trunc_rep s l ip m c -> 0 <= lo -> hi <= MAX_FILE_BLKS -> mapped m lo hi ->
  path_ok m st lo \/ lo = hi ->
  if freed_twice c lo hi then exists s', throws (mfold (range lo hi) st (truncate_block ip)) s ERR_USER s'
  else exists s' q' fl' st', runs (mfold (range lo hi) st (truncate_block ip)) s st' s' /\
    fs_rep s' q' fl' l /\ truncated s l ip m c lo hi s'.
Proof.
  induction k as [|k IH]; intros lo s q fl m c st Hk Hs Ht Hlo Hhi Hm Hst.
  - assert (hi = lo) as -> by lia. unfold freed_twice. rewrite range_nil by lia. exists s, q, fl, st.
    split_and!; [done|done|by apply truncated_nil].
  - assert (Hlt : lo < hi) by lia. destruct Hst as [Hst|]; [|lia].
    destruct (m (lo / INDEX_SIZE)) as [[nid di]|] eqn:Hml; [|by destruct (Hm lo ltac:(lia))].
    destruct (truncate_block_runs _ _ _ _ _ _ _ _ lo _ _ Hs Ht ltac:(lia) Hml Hst)
      as (s1 & q1 & fl1 & Hr1 & Hs1 & Ht1 & Hk1 & Hd1 & Hot1 & Hu1 & Hf1).
    rewrite freed_twice_cons, range_cons by done. cbn [mfold].
    destruct (emptied_inside c lo hi lo) eqn:He; cbn [orb].
    + rewrite emptied_now in He. apply andb_true_iff in He as [[H1%Z.ltb_lt H2%Z.eqb_eq]%andb_true_iff H3%Z.eqb_eq].
      assert (Hnr : 0 <= nid < NODE_NR).
      { apply (file_slot s l ip m c (lo / INDEX_SIZE) nid di (tr_file _ _ _ _ _ Ht)); [|done].
        split; [apply Z.div_pos; clia|apply Z.div_lt_upper_bound; clia]. }
      destruct (truncate_again_throws s1 q1 fl1 l ip _ _ di nid (lo + 1) Hs1 Ht1 Hnr (Hf1 H3)) as (s2 & Hr2).
      assert (Hnext : NextOffset (path_of lo di) = Some (path_of (lo + 1) di)).
      { pose proof (next_path m lo nid di Hlo Hml) as [E|(nid' & di' & Hm' & E)].
        - exfalso. unfold NextOffset, path_of in E. cbn [offset1] in E. destruct (Z.leb_spec INDEX_SIZE (lo mod INDEX_SIZE + 1)); [|done].
          pose proof (blk_place lo). pose proof (blk_place (lo + 1)). pose proof (Z.mod_pos_bound (lo + 1) INDEX_SIZE ltac:(clia)).
          pose proof (Z.mod_pos_bound lo INDEX_SIZE ltac:(clia)). lia.
        - rewrite E. rewrite H2, Hml in Hm'. injection Hm' as <- <-. done. }
      exists s2. eapply throws_later; [exact Hr1|]. rewrite Hnext, range_cons by lia. cbn [mfold]. by apply throws_here.
    + specialize (IH (lo + 1) s1 q1 fl1 (map_emptied m c lo) (content_set c lo None) (NextOffset (path_of lo di))
        ltac:(lia) Hs1 Ht1 ltac:(lia) Hhi (mapped_emptied _ _ _ _ Hlo Hm He)).
      destruct (freed_twice _ _ _).
      * destruct IH as (s2 & Hr2); [destruct (next_path_emptied m c lo hi nid di Hlo Hml He) as [|[]]; [by left|by right|lia]|].
        exists s2. by eapply throws_later.
      * destruct IH as (s2 & q2 & fl2 & st2 & Hr2 & Hs2 & Ht2);
          [destruct (next_path_emptied m c lo hi nid di Hlo Hml He) as [|[]]; [by left|by right|lia]|].
        exists s2, q2, fl2, st2. split_and!; [by eapply runs_bind|done|]. by eapply truncated_cons.
Qed.

(** Without an index block for its first block, a range is skipped. *)
Lemma truncate_missing s l ip m c lo hi : trunc_rep s l ip m c -> 0 <= lo < hi -> hi <= MAX_FILE_BLKS ->
  m (lo / INDEX_SIZE) = None -> runs (FileTruncateInternal ip lo hi) s tt s.
Proof.
  intros Ht Hlo Hhi Hm. unfold FileTruncateInternal.
  destruct (fr_inode _ _ _ _ _ (tr_file _ _ _ _ _ Ht)) as (n & k & i & Hn & Hl & Hslot).
  destruct (Hslot (lo / INDEX_SIZE)) as (nid & Hg & Hr).
  { split; [apply Z.div_pos; clia|apply Z.div_lt_upper_bound; clia]. }
  rewrite Hm in Hr. destruct Hr as [-> _]. set (p := mkPath (lo / INDEX_SIZE) (lo mod INDEX_SIZE) None).
  assert (Hloop : forall bs, runs (mfold bs (Some p) (truncate_block ip)) s (Some p) s).
  { induction bs as [|b bs IH]; [done|]. cbn [mfold]. by eapply runs_bind. }
  rewrite range_cons by lia. cbn [mfold]. apply (runs_bind _ _ _ (Some p) s); [|done].
  eapply runs_bind; [|apply Hloop]. unfold truncate_block. apply (runs_bind _ _ _ (Some p) s); [|done]. unfold path_to, OffsetToIndex. eapply runs_bind.
  { unfold inode_index_at. eapply runs_bind; [by eapply inode_of_runs|]. by rewrite Hg. }
  done.
Qed.

(** C8: truncating.  When the index block of the first block is missing,
    nothing happens, whatever the rest of the range holds.  When the index
    blocks of the range are there, the outcome depends on the content alone: an
    index block that loses its last data while the range goes on in it is freed
    twice, and the second time throws; otherwise truncating returns, the file
    keeps exactly the blocks outside the range, the index blocks left without
    data are given up with their nodes, the segments and the free pages stay
    well formed, at least the blocks of the range are given back, and every
    live block of another file and every page of data stays as it was, and so do
    the table and the pages of all other nodes. *)
Theorem FileTruncateInternal_correct s q fl l ip m c lo hi :
  fs_rep s q fl l -> trunc_rep s l ip m c -> 0 <= lo < hi -> hi <= MAX_FILE_BLKS ->
  (m (lo / INDEX_SIZE) = None -> runs (FileTruncateInternal ip lo hi) s tt s) /\
  (mapped m lo hi -> freed_twice c lo hi = true -> exists s', throws (FileTruncateInternal ip lo hi) s ERR_USER s') /\
  (mapped m lo hi -> freed_twice c lo hi = false -> exists s' q' fl',
     runs (FileTruncateInternal ip lo hi) s tt s' /\ fs_rep s' q' fl' l /\ truncated s l ip m c lo hi s').
Proof.
  intros Hs Ht Hlo Hhi. split_and!; [by eapply truncate_missing|unfold FileTruncateInternal..].
  - intros Hm Ef. pose proof (truncate_loop ip l hi (Z.to_nat (hi - lo)) lo s q fl m c None ltac:(lia) Hs Ht ltac:(lia) Hhi Hm
      (or_introl (or_introl eq_refl))) as H. rewrite Ef in H. destruct H as (s' & H). exists s'. by apply throws_here.
  - intros Hm Ef. pose proof (truncate_loop ip l hi (Z.to_nat (hi - lo)) lo s q fl m c None ltac:(lia) Hs Ht ltac:(lia) Hhi Hm
      (or_introl (or_introl eq_refl))) as H. rewrite Ef in H. destruct H as (s' & q' & fl' & st' & H & Hs' & Ht').
    exists s', q', fl'. split; [by eapply runs_bind|]. by split.
Qed.
End Trunc.

(** * A file with one block, the first of its index block [ii] *)
Section Example.
#[local] Existing Instance sample_external.

Definition trunc_inode (ii : Z) : INODE :=
  mkInode 1 (ii * INDEX_SIZE * BLOCK_SIZE + 100) F2FS_FILE_REG 1 1 (<[Z.to_nat ii := 7]> (rep INDEX_TABLE_SIZE INVALID16)).
Definition trunc_index : INDEX_NODE := mkIndexNode 1 (<[0%nat := 3]> (rep INDEX_SIZE INVALID16)).
Definition pages_trunc (ii : Z) : CPageAllocator :=
  ((alloc_with (node_block BLOCK_INODE 5 5 0 (N_inode (trunc_inode ii))) ;;;
    alloc_with (node_block BLOCK_INDEX 7 5 1 (N_index trunc_index))) (pages_Init (mkPages (rep 5 page_local) 0 0 5))).2.
Definition nat_trunc : NatT :=
  mkNat (<[7%nat := 1]> (rep NODE_NR INVALID32)) 126
    (<[7%nat := NID_IN_USE]> (<[5%nat := NID_IN_USE]> (rep NODE_NR INVALID16))) (rep NAT_BLK_NR 0) 10.
Definition log_trunc : wlog := [(phyblk_to_lba 3, file_block)].
Definition fs_trunc (ii : Z) : CF2fsSimulator LogStore :=
  mkFs CKPT_BLOCK_zero one_block nat_trunc (mkLog log_trunc 0) (mkInfo 0 0 0 0 0 0 0 0 0 0 0 0 0)
    (pages_trunc ii) [] 0 0 0 0 0 0 0 page_local.
Definition trunc_map (ii jj : Z) : option (Z * Z) := if jj =? ii then Some (7, 1) else None.
Definition trunc_content (ii b : Z) : option BLOCK_DATA := if b =? ii * INDEX_SIZE then Some file_block else None.

Lemma pages_trunc_runs ii : pages_wf (pages_trunc ii) [2; 3; 4] /\
  node_at (pages_trunc ii) 0 (mkNode 5 5 0 (N_inode (trunc_inode ii))) /\
  node_at (pages_trunc ii) 1 (mkNode 7 5 1 (N_index trunc_index)).
Proof.
  assert (H : pages_wf (pages_Init (mkPages (rep 5 page_local) 0 0 5)) (range 0 5)).
  { apply (pages_Init_wf (mkPages (rep 5 page_local) 0 0 5)); by vm_compute. }
  destruct (alloc_with_wf _ 0 [1; 2; 3; 4] (node_block BLOCK_INODE 5 5 0 (N_inode (trunc_inode ii))) H eq_refl) as [R1 H1].
  destruct (alloc_with_wf _ 1 _ (node_block BLOCK_INDEX 7 5 1 (N_index trunc_index)) H1 eq_refl) as [R2 H2].
  split_and!; [|by eexists; vm_compute..]. unfold pages_trunc. unfold bind at 1. rewrite R1. exact H2.
Qed.
Lemma trunc_fs_rep ii : fs_rep (fs_trunc ii) (range 1 MAIN_SEG_NR) [2; 3; 4] log_trunc.
Proof. constructor; [exact one_block_wf|apply pages_trunc_runs|reflexivity]. Qed.
Lemma trunc_entry ii off : 0 <= off < INDEX_SIZE ->
  exists b, aget (index_index trunc_index) off = Some b /\
    entry_rep (fs_trunc ii) log_trunc 7 off b (trunc_content ii (ii * INDEX_SIZE + off)).
Proof.
  intros Ho. unfold trunc_content, trunc_index. cbn [index_index]. destruct (Z.eqb_spec (ii * INDEX_SIZE + off) (ii * INDEX_SIZE)) as [E|Hne].
  - assert (off = 0) as -> by lia. exists 3. split; [by vm_compute|]. split_and!; [done|done|apply one_block_live|by vm_compute|by vm_compute].
  - exists INVALID16. split; [|done]. change 0%nat with (Z.to_nat 0). rewrite aget_insert_ne by lia. by apply aget_replicate.
Qed.
Lemma trunc_file_rep ii : 0 <= ii < INDEX_TABLE_SIZE -> file_rep (fs_trunc ii) log_trunc 0 (trunc_map ii) (trunc_content ii).
Proof.
  intros Hii. destruct (pages_trunc_runs ii) as (_ & Hino & Hidx). constructor.
  - exists 5, 5, (trunc_inode ii). split_and!; [exact Hino|unfold trunc_inode; cbn [inode_index]; by rewrite length_insert|]. intros jj Hj.
    unfold trunc_map, trunc_inode. cbn [inode_index]. destruct (Z.eqb_spec jj ii) as [->|Hne].
    + exists 7. split; [apply aget_insert_eq; change (length (rep INDEX_TABLE_SIZE INVALID16)) with (Z.to_nat INDEX_TABLE_SIZE); clia|]. split_and!; [done|done|done|by vm_compute|].
      exists 5, 1, trunc_index. split_and!; [exact Hidx|by vm_compute|by apply trunc_entry].
    + exists INVALID16. rewrite aget_insert_ne by lia. split; [by apply aget_replicate|].
      split; [done|]. intros off Ho. unfold trunc_content. rewrite (proj2 (Z.eqb_neq _ _)); [done|].
      intros E. apply Hne. assert (Eo : jj * INDEX_SIZE + off = ii * INDEX_SIZE + 0) by lia.
      pose proof (f_equal (fun z => z / INDEX_SIZE) Eo) as Ed. cbn beta in Ed.
      rewrite !Z.div_add_l, !Z.div_small in Ed by clia. lia.
  - unfold trunc_map. intros jj kk nid di dj. destruct (Z.eqb_spec jj ii), (Z.eqb_spec kk ii); intros; simplify_eq; done.
  - unfold trunc_content. intros b d. destruct (b =? _); [|done]. by intros [= <-].
Qed.
Lemma trunc_count ii : block_count (trunc_content ii) ii = 1.
Proof.
  unfold block_count, trunc_content.
  rewrite (list_omap_ext _ (fun off => if off =? 0 then Some file_block else None) _ (range 0 INDEX_SIZE)).
  - by vm_compute.
  - apply Forall_Forall2_diag, Forall_forall. intros off _. destruct (Z.eqb_spec (ii * INDEX_SIZE + off) (ii * INDEX_SIZE)), (Z.eqb_spec off 0); lia || done.
Qed.
Lemma trunc_trunc_rep ii : 0 <= ii < INDEX_TABLE_SIZE -> trunc_rep (fs_trunc ii) log_trunc 0 (trunc_map ii) (trunc_content ii).
Proof.
  intros Hii. constructor; [by apply trunc_file_rep|constructor; [by vm_compute..|cbn; clia]| |].
  - unfold trunc_map. intros jj nid di _. destruct (jj =? ii); [|done]. intros [= <- <-].
    exists NID_IN_USE. split; [by vm_compute|by left].
  - unfold trunc_map. intros jj nid di k pid x _. destruct (Z.eqb_spec jj ii) as [->|]; [|done]. intros [= <- <-] Hx.
    pose proof (node_at_inj _ _ _ _ Hx (proj2 (proj2 (pages_trunc_runs ii)))) as E. injection E as _ _ ->. by rewrite trunc_count.
Qed.
Lemma trunc_mapped ii hi : hi <= (ii + 1) * INDEX_SIZE -> mapped (trunc_map ii) (ii * INDEX_SIZE) hi.
Proof.
  intros Hhi blk Hb. unfold trunc_map. rewrite (proj2 (Z.eqb_eq _ _)); [done|].
  symmetry. apply (Z.div_unique _ _ _ (blk - ii * INDEX_SIZE)); clia.
Qed.

(** The block alone, the block and the hole behind it, and from block 0 on. *)
Lemma FileTruncateInternal_correct_witness :
  (exists s' q' fl', runs (FileTruncateInternal 0 32 33) (fs_trunc 1) tt s' /\ fs_rep s' q' fl' log_trunc /\
     truncated (fs_trunc 1) log_trunc 0 (trunc_map 1) (trunc_content 1) 32 33 s') /\
  (exists s', throws (FileTruncateInternal 0 32 34) (fs_trunc 1) ERR_USER s') /\
  runs (FileTruncateInternal 0 0 34) (fs_trunc 1) tt (fs_trunc 1).
Proof.
  assert (Hii : 0 <= 1 < INDEX_TABLE_SIZE) by clia. split_and!.
  - apply (FileTruncateInternal_correct (fs_trunc 1) _ _ _ 0 (trunc_map 1) (trunc_content 1) 32 33 (trunc_fs_rep 1) (trunc_trunc_rep 1 Hii));
      [lia|by vm_compute|by apply (trunc_mapped 1)|by vm_compute].
  - apply (FileTruncateInternal_correct (fs_trunc 1) _ _ _ 0 (trunc_map 1) (trunc_content 1) 32 34 (trunc_fs_rep 1) (trunc_trunc_rep 1 Hii));
      [lia|by vm_compute|by apply (trunc_mapped 1)|by vm_compute].
  - apply (FileTruncateInternal_correct (fs_trunc 1) _ _ _ 0 (trunc_map 1) (trunc_content 1) 0 34 (trunc_fs_rep 1) (trunc_trunc_rep 1 Hii));
      [lia|by vm_compute|by vm_compute].
Defined.
End Example.
