(* ===== verification/FileRemoveInv.v ===== *)
(** FileRemoveInv: what removing a file without links does: its blocks, its index
    blocks, its node and its page are given back, unless its first index block is
    missing or one of its index blocks is freed twice. *)
From S2P Require Export FileTruncInv.

Section Remove.
Context {St : Type} `{HB : BlockStore St, HL : !BlockStoreLaws St} `{HE : External, HX : !ExternalLaws}.
Abbreviation Fs := (CF2fsSimulator St).
Implicit Types (s : Fs) (c : content) (l : wlog) (m : Z -> option (Z * Z)).

(** The inode of the file: node [n], which is no index block of the file. *)
Record inode_rep s ip m n i : Prop := {
  ir_node : exists k, node_at (fs_pages s) ip (mkNode n k ip (N_inode i));
  ir_blk : index_blk s n;
  ir_apart ii di : m ii <> Some (n, di);
  ir_size : 0 <= file_size i <= MAX_FILE_BLKS * BLOCK_SIZE
}.
(** The blocks up to the end of the file. *)
Definition blocks_of (i : INODE) : Z := (file_size i + BLOCK_SIZE - 1) / BLOCK_SIZE.

(** The node and the page are free, and only blocks in [drop] are given back. *)
Record removed s l ip n (drop : Z -> Z -> Prop) (s' : Fs) : Prop := {
  rm_node : aget (nat_table (fs_nat s')) n = Some INVALID16;
  rm_page : exists p, aget (m_pages (fs_pages s')) ip = Some p /\ in_use p = false;
  rm_nat : nat_ok (fs_nat s');
  rm_blocks : keeps_blocks drop (fs_segs s) (fs_segs s');
  rm_data : keeps_data (fs_pages s) (fs_pages s')
}.

(** The end of [FileRemove]. *)
Definition remove_inode (ip : Z) : M Fs unit :=
  n <- node_of ip ;;
  on_nat (set_node_cache (m_nid n) INVALID32) ;;;
  on_pages (free (Some ip)) ;;;
  put_node (m_nid n) ;;;
  add_node_blks (-1).

Lemma remove_inode_runs s q fl l ip n k i : fs_rep s q fl l -> nat_ok (fs_nat s) ->
  node_at (fs_pages s) ip (mkNode n k ip (N_inode i)) -> index_blk s n ->
  exists s' q', runs (remove_inode ip) s tt s' /\ fs_rep s' q' (ip :: fl) l /\
    removed s l ip n (fun nid off => nid = n /\ off = INVALID16) s' /\
    free_nr (fs_nat s') = free_nr (fs_nat s) + 1 /\
    m_used_blk_nr (fs_segs s') <= m_used_blk_nr (fs_segs s).
Proof.
  intros Hs Hn Hi (blk & Hblk & Hbk).
  pose proof (aget_bounds _ _ _ Hblk) as Hb. rewrite (no_len _ Hn) in Hb.
  destruct (free_index_page s q fl l ip _ Hs Hi) as (p1 & p & Rf & Wf & Gf & Pf & Of).
  destruct (put_index_node (set_pages p1 s) q (ip :: fl) n blk Hn (fp_segs _ _ _ _ Hs) Wf Hblk Hbk)
    as (g & q' & t & Rp & Hnt & Htj & Ht & Hfr & Wg & Hk & Hu).
  eexists (set_node_blks _ (set_nat t (set_segs g (set_pages p1 s)))), q'. split_and!.
  - unfold remove_inode. eapply runs_bind; [by apply node_of_runs|]. cbn [m_nid].
    eapply runs_bind; [eapply on_nat_cache; rewrite (no_cache _ Hn); lia|].
    eapply runs_bind; [by apply on_pages_runs|]. eapply runs_bind; [exact Rp|]. done.
  - by constructor; [exact Wg|exact Wf|apply Hs].
  - constructor; [exact Ht| |exact Hnt|exact Hk|].
    + exists p. split; [exact Gf|apply Pf].
    + intros y e Hnn (py & Hy & Huy & Hdy). exists py. cbn. rewrite Of; [done|]. intros ->.
      destruct Hi as (z & Hz1 & _ & Hzn). eapply Hnn. rewrite <- Hdy, <- Hzn. congruence.
  - exact Hfr.
  - exact Hu.
Qed.

Lemma blocks_of_bounds i : 0 <= file_size i <= MAX_FILE_BLKS * BLOCK_SIZE -> 0 <= blocks_of i <= MAX_FILE_BLKS.
Proof.
  intros H. unfold blocks_of. split; [apply Z.div_pos; clia|].
  apply Z.lt_succ_r, Z.div_lt_upper_bound; clia.
Qed.
Lemma FileRemove_runs s ip n k i (b : outcome unit) s' : node_at (fs_pages s) ip (mkNode n k ip (N_inode i)) ->
  0 <= file_size i <= MAX_FILE_BLKS * BLOCK_SIZE ->
  (FileTruncateInternal ip 0 (blocks_of i) ;;; remove_inode ip) s = (b, s') -> FileRemove ip s = (b, s').
Proof.
  intros Hi Hsz Hr. unfold FileRemove. unfold bind at 1.
  assert (inode_of ip s = (Ret i, s)) as -> by (by eapply inode_of_runs). cbn beta iota.
  pose proof (blocks_of_bounds i Hsz). rewrite ROUND_UP_DIV_spec by clia. unfold w16.
  rewrite Z.mod_small by (fold (blocks_of i); clia). exact Hr.
Qed.

(** ** Files without holes *)
Definition dense c (n : Z) : Prop := forall b, 0 <= b < n -> c b <> None.
Lemma dense_mapped s l ip m c n : file_rep s l ip m c -> n <= MAX_FILE_BLKS -> dense c n -> mapped m 0 n.
Proof.
  intros Hf Hn Hd b Hb Hm. destruct (fr_inode _ _ _ _ _ Hf) as (nd & k & i & _ & _ & Hslot).
  destruct (Hslot (b / INDEX_SIZE)) as (nid & _ & Hr).
  { split; [apply Z.div_pos; clia|apply Z.div_lt_upper_bound; clia]. }
  rewrite Hm in Hr. destruct Hr as [_ Hr]. apply (Hd b Hb). rewrite <- (blk_place b). apply Hr, Z.mod_pos_bound. clia.
Qed.
Lemma dense_freed_once c n : dense c n -> freed_twice c 0 n = false.
Proof.
  intros Hd. unfold freed_twice. apply Bool.not_true_iff_false. intros (b & Hb & He)%existsb_exists.
  apply list_elem_of_In, elem_of_range in Hb. unfold emptied_inside in He.
  apply andb_true_iff in He as [[H1%Z.ltb_lt H2%Z.eqb_eq]%andb_true_iff H3%Z.eqb_eq].
  rewrite <- H2 in H3. apply (Hd (b + 1)); [lia|]. pose proof (Z.mod_pos_bound (b + 1) INDEX_SIZE ltac:(clia)) as Hm.
  pose proof (proj1 (block_count_zero _ _) H3 _ Hm) as Hz. rewrite blk_place in Hz. unfold content_clear in Hz.
  by rewrite (proj2 (Z.ltb_ge (b + 1) (b + 1))), andb_false_r in Hz by lia.
Qed.

(** What removing gives back of a file: its blocks up to its end, the index blocks
    left without data, and the inode. *)
Definition file_dropped m c hi n (nid off : Z) : Prop :=
  dropped m (map_clear m c 0 hi) 0 hi nid off \/ (nid = n /\ off = INVALID16).

(** C9: removing.  When the index blocks of the file are there and none is emptied
    before the end, the file is removed: its node is free, its page is free, at
    least as many blocks as it had up to its end are given back, only its own
    blocks are, and the segments, the pages and the table stay well formed.  A
    file without holes is such a file.  When an index block would be freed twice,
    removing throws.  When the first index block is missing, the node and the page
    are given up, and every block of the file but that of the inode stays live and
    is lost. *)
Theorem FileRemove_correct s q fl l ip m c n i :
  fs_rep s q fl l -> trunc_rep s l ip m c -> inode_rep s ip m n i ->
  let hi := blocks_of i in
  (mapped m 0 hi -> freed_twice c 0 hi = false -> exists s' q' fl',
     runs (FileRemove ip) s tt s' /\ fs_rep s' q' fl' l /\ removed s l ip n (file_dropped m c hi n) s' /\
     m_used_blk_nr (fs_segs s') <= m_used_blk_nr (fs_segs s) - Z.of_nat (length (omap c (range 0 hi)))) /\
  (dense c hi -> mapped m 0 hi /\ freed_twice c 0 hi = false) /\
  (mapped m 0 hi -> freed_twice c 0 hi = true -> exists s', throws (FileRemove ip) s ERR_USER s') /\
  (m 0 = None -> exists s' q',
     runs (FileRemove ip) s tt s' /\ fs_rep s' q' (ip :: fl) l /\
     removed s l ip n (fun nid off => nid = n /\ off = INVALID16) s').
Proof.
  intros Hs Ht [[k Hi] Hb Ha Hsz] hi. pose proof (blocks_of_bounds i Hsz) as Hhi. fold hi in Hhi.
  pose proof (fun k' => truncate_loop ip l hi k' 0 s q fl m c None) as Hloop.
  specialize (Hloop (Z.to_nat hi) ltac:(lia) Hs Ht ltac:(lia) ltac:(lia)).
  split_and!.
  - intros Hm Ef. specialize (Hloop Hm (or_introl (or_introl eq_refl))). rewrite Ef in Hloop.
    destruct Hloop as (s1 & q1 & fl1 & st1 & Hr1 & Hs1 & Ht1 & Hk1 & Hd1 & Ho1 & Hu1).
    destruct (ok_inode _ _ _ _ Ho1 _ _ _ Hi) as [i1 Hi1].
    destruct (remove_inode_runs s1 q1 fl1 l ip n k i1 Hs1 (tr_nat _ _ _ _ _ Ht1) Hi1) as (s2 & q2 & Hr2 & Hs2 & Hrm & Hfr & Hu2).
    { eapply index_blk_keeps; [exact Hk1| |apply (ok_nat _ _ _ _ Ho1 n Ha)|exact Hb]. intros (ii & di & E & _). by eapply Ha. }
    exists s2, q2, (ip :: fl1). split_and!; [|done| |lia].
    + eapply FileRemove_runs; [exact Hi|exact Hsz|]. fold hi. eapply runs_bind; [|exact Hr2]. by eapply runs_bind.
    + destruct Hrm as [R1 R2 R3 R4 R5]. constructor; [done|done|done| |by trans (fs_pages s1)].
      eapply keeps_blocks_trans; [|exact Hk1|exact R4]. by intros nid off [|]; [left|right].
  - intros Hd. split; [eapply dense_mapped; [apply Ht|lia|done]|by apply dense_freed_once].
  - intros Hm Ef. specialize (Hloop Hm (or_introl (or_introl eq_refl))). rewrite Ef in Hloop. destruct Hloop as (s1 & Hr1).
    exists s1. eapply FileRemove_runs; [exact Hi|exact Hsz|]. fold hi. apply throws_here, throws_here. exact Hr1.
  - intros Hm. destruct (remove_inode_runs s q fl l ip n k i Hs (tr_nat _ _ _ _ _ Ht) Hi Hb) as (s2 & q2 & Hr2 & Hs2 & Hrm & _).
    exists s2, q2. split_and!; [|done|done]. eapply FileRemove_runs; [exact Hi|exact Hsz|]. fold hi.
    eapply runs_bind; [|exact Hr2]. destruct (decide (hi = 0)) as [->|Hne]; [done|].
    eapply truncate_missing; [exact Ht|lia|lia|done].
Qed.
End Remove.

(** * A file of one block, and one whose only block is behind a missing index block *)
Section Example.
#[local] Existing Instance sample_external.

Lemma trunc_inode_rep ii : 0 <= ii < INDEX_TABLE_SIZE -> inode_rep (fs_trunc ii) 0 (trunc_map ii) 5 (trunc_inode ii).
Proof.
  intros Hii. constructor.
  - exists 5. apply pages_trunc_runs.
  - exists NID_IN_USE. split; [by vm_compute|by left].
  - unfold trunc_map. intros jj di. by destruct (jj =? ii).
  - cbn [trunc_inode file_size]. clia.
Qed.
Lemma FileRemove_correct_witness :
  (exists s' q' fl', runs (FileRemove 0) (fs_trunc 0) tt s' /\ fs_rep s' q' fl' log_trunc /\
     removed (fs_trunc 0) log_trunc 0 5 (file_dropped (trunc_map 0) (trunc_content 0) 1 5) s' /\
     m_used_blk_nr (fs_segs s') <= m_used_blk_nr (fs_segs (fs_trunc 0)) - 1) /\
  (exists s' q', runs (FileRemove 0) (fs_trunc 1) tt s' /\ fs_rep s' q' [0; 2; 3; 4] log_trunc /\
     removed (fs_trunc 1) log_trunc 0 5 (fun nid off => nid = 5 /\ off = INVALID16) s').
Proof.
  split.
  - apply (FileRemove_correct (HX := sample_laws) (fs_trunc 0) _ _ _ 0 (trunc_map 0) (trunc_content 0) 5 (trunc_inode 0) (trunc_fs_rep 0)
      (trunc_trunc_rep 0 ltac:(clia)) (trunc_inode_rep 0 ltac:(clia))); [by apply (trunc_mapped 0)|by vm_compute].
  - apply (FileRemove_correct (HX := sample_laws) (fs_trunc 1) _ _ _ 0 (trunc_map 1) (trunc_content 1) 5 (trunc_inode 1) (trunc_fs_rep 1)
      (trunc_trunc_rep 1 ltac:(clia)) (trunc_inode_rep 1 ltac:(clia))). by vm_compute.
Defined.
End Example.
