(* ===== verification/Dir.v ===== *)
(** Dir: directories and paths (f2fs_simulator.cpp).  A string is the list of
    its characters, without the terminating zero. *)
From S2P Require Export FileIO.

Abbreviation cstring := (list Z).
Definition BACKSLASH : Z := 92.

(** * Names and paths *)
Definition FileNameHash `{External} (fn : cstring) : Z :=
  Z.land (fold_left hash_combine fn 0) 65535.
Definition strlen16 (fn : cstring) : Z := w16 (Z.of_nat (length fn)).

(** [strrchr(path, '\\')]: the text before and after the last backslash. *)
Fixpoint strrchr (path : cstring) : option (cstring * cstring) :=
  match path with
  | [] => None
  | c :: path' =>
      match strrchr path' with
      | Some (d, f) => Some (c :: d, f)
      | None => if c =? BACKSLASH then Some ([], path') else None
      end
  end.
(** [SplitPath]: the error, the path as it is left, the name. *)
Definition SplitPath (path : cstring) : ERROR_CODE * cstring * option cstring :=
  match strrchr path with
  | None => (ERR_WRONG_PATH, path, None)
  | Some (d, f) => (ERR_OK, d, Some f)
  end.

(** [strtok_s(.., "\\", ..)]: the next token and the text after it. *)
Fixpoint skip_slash (s : cstring) : cstring :=
  match s with [] => [] | c :: s' => if c =? BACKSLASH then skip_slash s' else s end.
Fixpoint token (s : cstring) : cstring * cstring :=
  match s with
  | [] => ([], [])
  | c :: s' => if c =? BACKSLASH then ([], s') else let '(t, r) := token s' in (c :: t, r)
  end.
Definition strtok (s : cstring) : option (cstring * cstring) :=
  match skip_slash s with [] => None | s' => Some (token s') end.

(** * The shape of a directory: 2^level blocks on each level *)
Fixpoint depth_loop (fuel : nat) (blk_nr : Z) : Z :=
  match fuel with
  | O => 0
  | S fuel' => if blk_nr =? 0 then 0 else 1 + depth_loop fuel' (Z.shiftr blk_nr 1)
  end.
Definition DepthFromBlkNr (blk_nr : Z) : Z := depth_loop 32 blk_nr.

(** * Directory blocks *)
Definition set_dentry (i : Z) (e : DENTRY) (b : DENTRY_BLOCK) : option DENTRY_BLOCK :=
  l ← aset (dentries b) i e; Some (mkDentryBlock (de_bitmap b) (de_filenames b) l).
Definition set_de_bitmap (m : Z) (b : DENTRY_BLOCK) : DENTRY_BLOCK :=
  mkDentryBlock m (de_filenames b) (dentries b).
(** [n] bytes at [filenames[i]]; a copy must stay inside the array. *)
Definition name_at (i n : Z) (b : DENTRY_BLOCK) : option cstring :=
  let at_ := i * FN_SLOT_LEN in
  if at_ + n <=? DENTRY_PER_BLOCK * FN_SLOT_LEN
  then Some (take (Z.to_nat n) (drop (Z.to_nat at_) (de_filenames b))) else None.
Definition set_name (i : Z) (bytes : cstring) (b : DENTRY_BLOCK) : option DENTRY_BLOCK :=
  let at_ := Z.to_nat (i * FN_SLOT_LEN) in
  if i * FN_SLOT_LEN + Z.of_nat (length bytes) <=? DENTRY_PER_BLOCK * FN_SLOT_LEN
  then Some (mkDentryBlock (de_bitmap b)
         (take at_ (de_filenames b) ++ bytes ++ drop (at_ + length bytes) (de_filenames b))
         (dentries b))
  else None.

(** [InitDentry] *)
Definition DENTRY_new : DENTRY_BLOCK := set_de_bitmap 0 DENTRY_BLOCK_ff.

(** The test that [FindFile] and [unlink] make on an entry. *)
Definition dentry_matches (b : DENTRY_BLOCK) (hash : Z) (fn : cstring) (index : Z) : option bool :=
  e ← aget (dentries b) index;
  if is_invalid16 (de_ino e) || negb (de_hash e =? hash) then Some false else
  if negb (de_name_len e =? strlen16 fn) then Some false else
  ff ← name_at index (strlen16 fn) b;
  Some (bool_decide (ff = take (Z.to_nat (strlen16 fn)) fn)).

(** The first match in a block: the inode, [INVALID16] when there is none. *)
Fixpoint find_dentry (idx : list Z) (b : DENTRY_BLOCK) (hash : Z) (fn : cstring) : option Z :=
  match idx with
  | [] => Some INVALID16
  | i :: idx' =>
      m ← dentry_matches b hash fn i;
      if m : bool then e ← aget (dentries b) i; Some (de_ino e)
      else find_dentry idx' b hash fn
  end.

(** The search for [slot_num] free slots in a bitmap; the result is not below
    [DENTRY_PER_BLOCK] when there are none.  The mask is a DWORD. *)
Fixpoint skip_used (fuel : nat) (bitmap msk i : Z) : Z * Z :=
  match fuel with
  | O => (msk, i)
  | S f => if Z.land bitmap msk =? 0 then (msk, i)
           else skip_used f bitmap (w32 (Z.shiftl msk 1)) (i + 1)
  end.
Fixpoint skip_free (fuel : nat) (bitmap msk i : Z) : Z * Z :=
  match fuel with
  | O => (msk, i)
  | S f => if (Z.land bitmap msk =? 0) && (i <? DENTRY_PER_BLOCK)
           then skip_free f bitmap (w32 (Z.shiftl msk 1)) (i + 1) else (msk, i)
  end.
Fixpoint find_slots (fuel : nat) (bitmap msk index_start slot_num : Z) : Z :=
  match fuel with
  | O => index_start
  | S f =>
      let '(m1, start) := skip_used 33 bitmap msk index_start in
      if DENTRY_PER_BLOCK <=? start then start else
      let '(m2, index) := skip_free 33 bitmap m1 start in
      if slot_num <=? index - start then start
      else find_slots f bitmap m2 index slot_num
  end.
Definition free_slots (bitmap slot_num : Z) : Z := find_slots 6 bitmap 1 0 slot_num.

(** Set or clear the [n] bits from [i]. *)
Fixpoint set_bits (n : nat) (bitmap msk : Z) : Z :=
  match n with O => bitmap | S n' => set_bits n' (Z.lor bitmap msk) (w32 (Z.shiftl msk 1)) end.
Fixpoint clear_bits (n : nat) (bitmap msk : Z) : Z :=
  match n with O => bitmap | S n' => clear_bits n' (clear_mask bitmap msk) (w32 (Z.shiftl msk 1)) end.

(** The entry that [add_link] writes: the source of the copy is the name and
    its terminating zero, cut to the slots. *)
Definition fill_dentry (i : Z) (fid hash slot_num : Z) (fn : cstring) (b : DENTRY_BLOCK)
    : option DENTRY_BLOCK :=
  e ← aget (dentries b) i;
  b1 ← set_dentry i (mkDentry fid hash (strlen16 fn) (de_file_type e)) b;
  b2 ← set_name i (take (Z.to_nat (FN_SLOT_LEN * slot_num)) (fn ++ [0])) b1;
  Some (set_de_bitmap (set_bits (Z.to_nat slot_num) (de_bitmap b2) (mask i)) b2).
(** The entry that [unlink] erases. *)
Definition erase_dentry (i slot_num : Z) (b : DENTRY_BLOCK) : option DENTRY_BLOCK :=
  b1 ← set_name i (rep (FN_SLOT_LEN * slot_num) 0)
         (set_de_bitmap (clear_bits (Z.to_nat slot_num) (de_bitmap b) (mask i)) b);
  set_dentry i DENTRY_ff b1.

Section Dir.
Context {St : Type} `{BlockStore St} `{External}.
Abbreviation Fs := (CF2fsSimulator St).

Definition dentry_of (pg : Z) : M Fs DENTRY_BLOCK := b <- body_at pg ;; opt (as_dentry b).
Definition put_dentry (pg : Z) (b : DENTRY_BLOCK) : M Fs unit := upd_body pg (fun _ => U_dentry b).

(** [FileReadInternal(&page, parent, blk, blk + 1)] *)
Definition read_one (ip blk : Z) : M Fs (option Z) :=
  l <- FileReadInternal ip blk (blk + 1) ;; opt (l !! 0%nat).

Definition FindFile (ip : Z) (fn : cstring) : M Fs Z :=
  x <- inode_of ip ;;
  let blk_nr := get_file_blks x in
  if blk_nr =? 0 then ret INVALID16 else
  let hash := FileNameHash fn in
  r <- mloop (range 0 (DepthFromBlkNr blk_nr)) (INVALID16, 1, 0) (fun st _ =>
    let '(_, blk_num, blk_index) := st in
    let next := (INVALID16, blk_num * 2, blk_index + blk_num) in
    let hh := w16 (hash mod blk_num) in
    pg <- read_one ip (blk_index + hh) ;;
    match pg with
    | None => ret (Next next)
    | Some pg =>
        d <- data_at pg ;;
        fid <- (if m_type d =? BLOCK_DENTRY
                then b <- dentry_of pg ;; opt (find_dentry (range 0 DENTRY_PER_BLOCK) b hash fn)
                else ret INVALID16) ;;
        on_pages (free (Some pg)) ;;;
        ret (if is_valid16 fid then Break (fid, blk_num, blk_index) else Next next)
    end) ;;
  ret r.1.1.

Definition AllocateDentryBlock : M Fs Z :=
  pg <- on_pages allocate ;;
  on_pages (page_upd pg (set_data (mkBlock BLOCK_DENTRY (U_dentry DENTRY_new)))) ;;;
  ret pg.

(** The place that [add_link] finds on the existing levels: the block, its
    page and the slot; [None] when every level is full. *)
Definition find_place (ip hash slot_num max_depth : Z) : M Fs (option (Z * Z * Z)) :=
  r <- mloop (range 0 max_depth) (None, 1, 0) (fun st _ =>
    let '(_, blk_num, blk_index) := st in
    let blk_offset := blk_index + w16 (hash mod blk_num) in
    pg <- read_one ip blk_offset ;;
    match pg with
    | Some pg =>
        b <- dentry_of pg ;;
        let i := free_slots (de_bitmap b) slot_num in
        if i <? DENTRY_PER_BLOCK
        then ret (Break (Some (blk_offset, pg, i), blk_num, blk_index))
        else on_pages (free (Some pg)) ;;; ret (Next (None, blk_num * 2, blk_index + blk_num))
    | None =>
        pg <- AllocateDentryBlock ;;
        ret (Break (Some (blk_offset, pg, 0), blk_num, blk_index))
    end) ;;
  ret r.1.1.

Definition add_link (ip : Z) (fn : cstring) (fid : Z) : M Fs ERROR_CODE :=
  let hash := FileNameHash fn in
  let slot_num := ROUND_UP_DIV (strlen16 fn) FN_SLOT_LEN in
  x <- inode_of ip ;;
  let max_depth := DepthFromBlkNr (get_file_blks x) in
  place <- find_place ip hash slot_num max_depth ;;
  place <- (match place with
            | Some p => ret (Some p)
            | None =>
                let max_depth := max_depth + 1 in
                if MAX_DENTRY_LEVEL <? max_depth then ret None else
                let blk_num := Z.shiftl 1 (max_depth - 1) in
                let blk_offset := blk_num - 1 + w16 (hash mod blk_num) in
                pg <- AllocateDentryBlock ;;
                upd_inode ip (set_file_size ((Z.shiftl 1 max_depth - 1) * BLOCK_SIZE)) ;;;
                n <- node_of ip ;;
                parent_page <- page_ptr (page_id n) ;;
                set_dirty_page parent_page true ;;;
                ret (Some (blk_offset, pg, 0))
            end) ;;
  match place with
  | None => ret ERR_NO_SPACE
  | Some (blk_offset, pg, i) =>
      b <- dentry_of pg ;;
      b' <- opt (fill_dentry i fid hash slot_num fn b) ;;
      put_dentry pg b' ;;;
      written <- FileWriteInternal ip blk_offset (blk_offset + 1) [pg] false ;;
      on_pages (free (Some pg)) ;;;
      ret (if written =? 0 then ERR_NO_SPACE else ERR_OK)
  end.

(** The entry of a block that names [fn] and has the inode [fid]. *)
Fixpoint find_link (idx : list Z) (b : DENTRY_BLOCK) (hash fid : Z) (fn : cstring)
    : option (option Z) :=
  match idx with
  | [] => Some None
  | i :: idx' =>
      m ← dentry_matches b hash fn i;
      e ← aget (dentries b) i;
      if (m : bool) && (de_ino e =? fid) then Some (Some i)
      else find_link idx' b hash fid fn
  end.

Definition unlink (fid : Z) (fn : cstring) (ip : Z) : M Fs unit :=
  x <- inode_of ip ;;
  let hash := FileNameHash fn in
  r <- mloop (range 0 (DepthFromBlkNr (get_file_blks x))) (false, 1, 0) (fun st _ =>
    let '(_, blk_num, blk_index) := st in
    let next := (false, blk_num * 2, blk_index + blk_num) in
    let blk := w16 (blk_index + w16 (hash mod blk_num)) in
    pg <- read_one ip blk ;;
    match pg with
    | None => ret (Next next)
    | Some pg =>
        d <- data_at pg ;;
        hit <- (if m_type d =? BLOCK_DENTRY
                then b <- dentry_of pg ;; opt (find_link (range 0 DENTRY_PER_BLOCK) b hash fid fn)
                else ret None) ;;
        match hit with
        | None => on_pages (free (Some pg)) ;;; ret (Next next)
        | Some i =>
            b <- dentry_of pg ;;
            e <- opt (aget (dentries b) i) ;;
            b' <- opt (erase_dentry i (ROUND_UP_DIV (de_name_len e) FN_SLOT_LEN) b) ;;
            put_dentry pg b' ;;;
            set_dirty_page pg true ;;;
            (if de_bitmap b' =? 0 then FileTruncateInternal ip blk (blk + 1)
             else
               written <- FileWriteInternal ip blk (blk + 1) [pg] true ;;
               if written =? 0 then throw (FsError ERR_DELETE_DIR) else ret tt) ;;;
            on_pages (free (Some pg)) ;;;
            ret (Break (true, blk_num, blk_index))
        end
    end) ;;
  if negb r.1.1 then throw ERR_APP else
  sync_fs ;;;
  ret tt.

(** [GetChildNumber] *)
Definition GetChildNumber (ip : Z) : M Fs Z :=
  x <- inode_of ip ;;
  mfold (range 0 (get_file_blks x)) 0 (fun child ii =>
    pg <- read_one ip ii ;;
    match pg with
    | None => ret child
    | Some pg =>
        b <- dentry_of pg ;;
        on_pages (free (Some pg)) ;;;
        ret (child + Z.of_nat (length (filter (fun e => de_ino e <> INVALID16) (dentries b))))
    end).

(** [FileOpenInternal]: the inode, the page of its parent directory, the last
    name of the path. *)
Definition FileOpenInternal (fn : cstring) : M Fs (Z * Z * option cstring) :=
  root <- ReadNode ROOT_FID ;;
  match strtok fn with
  | None => ret (ROOT_FID, root, None)
  | Some (dir, rest) =>
      r <- mwhile (S (length fn)) (INVALID16, root, None, dir, rest) (fun st =>
        let '(_, parent, file_name, dir, rest) := st in
        fid <- FindFile parent dir ;;
        if is_invalid16 fid then ret (Break (INVALID16, parent, file_name, dir, rest)) else
        match strtok rest with
        | None => ret (Break (fid, parent, Some dir, dir, rest))
        | Some (dir', rest') =>
            CloseInode parent ;;;
            parent' <- ReadNode fid ;;
            ret (Next (fid, parent', Some dir, dir', rest'))
        end) ;;
      let '(fid, parent, file_name, _, _) := r in
      ret (fid, parent, file_name)
  end.
End Dir.
