(* ===== verification/DirInv.v ===== *)
(** DirInv: paths, and a directory block as a finite map from names to inodes. *)
From S2P Require Import Bits.
From S2P Require Export Dir.

(** * Paths *)
Definition name_chars (n : cstring) : Prop := BACKSLASH ∉ n.
Definition join (ns : list cstring) : cstring := flat_map (fun n => BACKSLASH :: n) ns.

(** What the calls of [strtok] on a path give, one after the other. *)
Fixpoint tokens (fuel : nat) (s : cstring) : list cstring :=
  match fuel with
  | O => []
  | S f => match strtok s with None => [] | Some (t, r) => t :: tokens f r end
  end.

Lemma strrchr_app d f : name_chars f -> strrchr (d ++ BACKSLASH :: f) = Some (d, f).
Proof.
  intros Hf. assert (Hn : strrchr f = None).
  { induction f as [|c f IH]; [done|]. unfold name_chars in Hf. rewrite not_elem_of_cons in Hf. destruct Hf as [Hc Hf].
    cbn. rewrite IH by done. by rewrite (proj2 (Z.eqb_neq _ _)). }
  induction d as [|c d IH]; cbn; [by rewrite Hn|by rewrite IH].
Qed.

Lemma strrchr_none p : name_chars p -> strrchr p = None.
Proof.
  induction p as [|c p IH]; [done|]. unfold name_chars. rewrite not_elem_of_cons. intros [Hc Hp].
  cbn. rewrite IH by done. by rewrite (proj2 (Z.eqb_neq _ _)).
Qed.

Lemma token_name n r : name_chars n -> token (n ++ BACKSLASH :: r) = (n, r) /\ token n = (n, []).
Proof.
  induction n as [|c n IH]; [done|]. unfold name_chars. rewrite not_elem_of_cons. intros [Hc Hn].
  destruct (IH Hn) as [E1 E2]. cbn. by rewrite (proj2 (Z.eqb_neq c _)), E1, E2 by done.
Qed.

Lemma skip_name n r : name_chars n -> n <> [] -> skip_slash (n ++ r) = n ++ r.
Proof.
  destruct n as [|c n]; [done|]. unfold name_chars. rewrite not_elem_of_cons. intros [Hc _] _. cbn.
  by rewrite (proj2 (Z.eqb_neq c _)).
Qed.

(** After the first token the leading separator of the rest is gone. *)
Definition rest_of (ns : list cstring) : cstring := match ns with [] => [] | n :: ns' => n ++ join ns' end.

Lemma strtok_rest n ns : name_chars n -> n <> [] -> strtok (rest_of (n :: ns)) = Some (n, rest_of ns).
Proof.
  intros Hn Hne. unfold strtok. cbn [rest_of]. rewrite skip_name by done.
  destruct n as [|c n']; [done|]. cbn [app]. f_equal.
  destruct ns as [|m ns]; cbn [join flat_map rest_of].
  - rewrite app_nil_r. apply (token_name (c :: n') []). done.
  - apply (token_name (c :: n') (m ++ join ns)). done.
Qed.

Lemma tokens_rest ns : Forall (fun n => name_chars n /\ n <> []) ns ->
  forall fuel, (length ns < fuel)%nat -> tokens fuel (rest_of ns) = ns.
Proof.
  induction 1 as [|n ns [Hn Hne] _ IH]; intros [|fuel] Hf; cbn in Hf; try lia; [done|].
  cbn [tokens]. rewrite strtok_rest by done. f_equal. apply IH. lia.
Qed.

Lemma length_join ns : Forall (fun n : cstring => n <> []) ns -> (length ns <= length (join ns))%nat.
Proof.
  induction 1 as [|n ns Hn _ IH]; [done|]. change (join (n :: ns)) with ((BACKSLASH :: n) ++ join ns).
  rewrite length_app. cbn [length]. lia.
Qed.

Lemma tokens_join ns : Forall (fun n => name_chars n /\ n <> []) ns ->
  tokens (S (length (join ns))) (join ns) = ns.
Proof.
  intros H. destruct ns as [|n ns]; [done|].
  assert (E : strtok (join (n :: ns)) = strtok (rest_of (n :: ns))).
  { unfold strtok. change (join (n :: ns)) with (BACKSLASH :: rest_of (n :: ns)). cbn [skip_slash]. by rewrite Z.eqb_refl. }
  assert (Hlen : (length (n :: ns) <= length (join (n :: ns)))%nat) by (apply length_join; eapply Forall_impl; [exact H|naive_solver]).
  change (tokens (S (length (join (n :: ns)))) (join (n :: ns))) with
    (match strtok (join (n :: ns)) with None => [] | Some (t, r) => t :: tokens (length (join (n :: ns))) r end).
  inversion H as [|? ? [Hn Hne] Hns]; subst. rewrite E, strtok_rest by done. f_equal. apply tokens_rest; [done|].
  cbn [length] in Hlen. lia.
Qed.

(** C35: paths.  Cutting the path made of the names [ns] gives back [ns], one
    after the other, and splitting it at its last separator gives the path of
    the parent and the last name; a text without a separator is refused. *)
Theorem path_roundtrip ns f :
  Forall (fun n => name_chars n /\ n <> []) (ns ++ [f]) ->
  let path := join (ns ++ [f]) in
  tokens (S (length path)) path = ns ++ [f] /\
  SplitPath path = (ERR_OK, join ns, Some f) /\
  SplitPath f = (ERR_WRONG_PATH, f, None).
Proof.
  intros H path. split; [by apply tokens_join|]. apply Forall_app in H as [_ [Hf _]%Forall_cons]. destruct Hf as [Hf _].
  unfold SplitPath. rewrite (strrchr_none f) by done. split; [|done].
  subst path. unfold join. rewrite flat_map_app. cbn [flat_map]. rewrite app_nil_r. by rewrite strrchr_app.
Qed.
Lemma path_roundtrip_witness :
  let path := [92; 65; 66; 92; 67] in
  tokens 6 path = [[65; 66]; [67]] /\ SplitPath path = (ERR_OK, [92; 65; 66], Some [67]).
Proof.
  destruct (path_roundtrip [[65; 66]] [67]) as (H1 & H2 & _).
  - repeat constructor; unfold name_chars, BACKSLASH; try done;
      intros H; repeat (apply elem_of_cons in H as [H|H]; [lia|]); by apply elem_of_nil in H.
  - split; [exact H1|exact H2].
Defined.

(** * Slots *)
Ltac bool_z :=
  repeat match goal with
  | |- context [?a <=? ?b] => destruct (Z.leb_spec a b)
  | |- context [?a <? ?b] => destruct (Z.ltb_spec a b)
  | |- context [?a =? ?b] => destruct (Z.eqb_spec a b)
  end; cbn [andb orb negb]; rewrite ?orb_true_r, ?orb_false_r, ?andb_true_r, ?andb_false_r; try done; try lia.

Lemma next_mask i : 0 <= i <= 30 -> w32 (Z.shiftl (mask i) 1) = mask (i + 1).
Proof.
  intros Hi. unfold w32, mask. rewrite Z.shiftl_shiftl by lia. rewrite Z.mod_small; [done|].
  rewrite Z.shiftl_1_l. split; [lia|]. change 4294967296 with (2 ^ 32). apply Z.pow_lt_mono_r; lia.
Qed.
Lemma set_bits_spec n : forall bm i j, 0 <= i -> i + Z.of_nat n <= 31 -> 0 <= j ->
  Z.testbit (set_bits n bm (mask i)) j = Z.testbit bm j || ((i <=? j) && (j <? i + Z.of_nat n)).
Proof.
  induction n as [|n IH]; intros bm i j Hi Hn Hj; cbn [set_bits]; [bool_z|].
  rewrite next_mask by lia. rewrite IH, testbit_lor_mask by lia. destruct (Z.testbit bm j); cbn [orb]; bool_z.
Qed.
Lemma clear_bits_spec n : forall bm i j, 0 <= i -> i + Z.of_nat n <= 31 -> 0 <= j < 32 ->
  Z.testbit (clear_bits n bm (mask i)) j = Z.testbit bm j && negb ((i <=? j) && (j <? i + Z.of_nat n)).
Proof.
  induction n as [|n IH]; intros bm i j Hi Hn Hj; cbn [clear_bits]; [destruct (Z.testbit bm j); bool_z|].
  rewrite next_mask by lia. rewrite IH, testbit_clear_mask by lia. destruct (Z.testbit bm j); cbn [andb]; bool_z.
Qed.
Lemma set_bits_word w n : forall bm i, 0 <= i -> i + Z.of_nat n <= w -> w <= 31 -> 0 <= bm < 2 ^ w ->
  0 <= set_bits n bm (mask i) < 2 ^ w.
Proof.
  induction n as [|n IH]; intros bm i Hi Hn Hw Hb; cbn [set_bits]; [done|].
  rewrite next_mask by lia. apply IH; try lia. apply lor_mask_word; [lia|done].
Qed.
Lemma clear_bits_word w n : forall bm i, 0 <= i -> i + Z.of_nat n <= 31 -> 0 <= w -> 0 <= bm < 2 ^ w ->
  0 <= clear_bits n bm (mask i) < 2 ^ w.
Proof.
  induction n as [|n IH]; intros bm i Hi Hn Hw Hb; cbn [clear_bits]; [done|].
  rewrite next_mask by lia. apply IH; try lia. by apply clear_mask_word.
Qed.

(** [n] free slots from [i]. *)
Definition slots_free (bm i n : Z) : bool := forallb (fun j => negb (Z.testbit bm j)) (range i (i + n)).
Lemma slots_free_spec bm i n : slots_free bm i n = true <-> forall j, i <= j < i + n -> Z.testbit bm j = false.
Proof.
  unfold slots_free. rewrite forallb_forall. split.
  - intros H j Hj. apply negb_true_iff, H, list_elem_of_In, elem_of_range, Hj.
  - intros H j Hj%list_elem_of_In%elem_of_range. apply negb_true_iff, H, Hj.
Qed.

(** What [free_slots] promises, as a test. *)
Definition first_fit (bm n i : Z) : bool :=
  (0 <=? i) &&
  if i <? DENTRY_PER_BLOCK
  then (i + n <=? DENTRY_PER_BLOCK) && slots_free bm i n && forallb (fun k => negb (slots_free bm k n)) (range 0 i)
  else forallb (fun k => negb (slots_free bm k n)) (range 0 (DENTRY_PER_BLOCK - n + 1)).
Lemma free_slots_fit bm n : 0 <= bm < 16 -> 0 < n <= DENTRY_PER_BLOCK -> first_fit bm n (free_slots bm n) = true.
Proof.
  intros Hb Hn. revert bm Hb. apply (forall_range _ 0 16 (fun bm => forallb (fun n => first_fit bm n (free_slots bm n)) (range 1 5))).
  - intros bm H. rewrite forallb_forall in H. apply H, list_elem_of_In, elem_of_range. clia.
  - by vm_compute.
Qed.

(** C34: the search for free slots.  The result is the first place in the block
    with enough free slots in a row, or a number not below the number of slots
    when there is none. *)
Theorem free_slots_first_fit bm n :
  0 <= bm < 16 -> 0 < n <= DENTRY_PER_BLOCK ->
  let i := free_slots bm n in
  0 <= i /\
  (i < DENTRY_PER_BLOCK -> i + n <= DENTRY_PER_BLOCK /\ slots_free bm i n = true /\
     forall k, 0 <= k < i -> slots_free bm k n = false) /\
  (DENTRY_PER_BLOCK <= i -> forall k, 0 <= k <= DENTRY_PER_BLOCK - n -> slots_free bm k n = false).
Proof.
  intros Hb Hn i. pose proof (free_slots_fit bm n Hb Hn) as H. fold i in H. unfold first_fit in H.
  assert (Hall : forall hi, forallb (fun k => negb (slots_free bm k n)) (range 0 hi) = true ->
    forall k, 0 <= k < hi -> slots_free bm k n = false).
  { intros hi Hf k Hk. rewrite forallb_forall in Hf. apply negb_true_iff, Hf, list_elem_of_In, elem_of_range, Hk. }
  apply andb_true_iff in H as [H0 H]. split; [lia|]. destruct (Z.ltb_spec i DENTRY_PER_BLOCK) as [Hi|Hi].
  - apply andb_true_iff in H as [[H1 H2]%andb_true_iff H3]. split; [|lia]. intros _.
    split; [lia|split; [done|by apply Hall]].
  - split; [lia|]. intros _ k Hk. apply (Hall _ H). lia.
Qed.
Lemma free_slots_first_fit_witness :
  let i := free_slots 2 2 in i = 2 /\ (i < 4 -> i + 2 <= 4 /\ slots_free 2 i 2 = true /\
    forall k, 0 <= k < i -> slots_free 2 k 2 = false).
Proof. split; [by vm_compute|]. apply (free_slots_first_fit 2 2); clia. Defined.

(** * Replacing a part of an array *)
Section Splice.
Context {A : Type}.
Definition splice (at_ : nat) (bytes l : list A) : list A := take at_ l ++ bytes ++ drop (at_ + length bytes) l.

Lemma splice_length at_ bytes l : (at_ + length bytes <= length l)%nat -> length (splice at_ bytes l) = length l.
Proof. intros H. unfold splice. rewrite !length_app, length_take, length_drop. lia. Qed.
Lemma splice_lookup at_ bytes l k : (at_ + length bytes <= length l)%nat ->
  splice at_ bytes l !! k =
    if decide (at_ <= k < at_ + length bytes)%nat then bytes !! (k - at_)%nat else l !! k.
Proof.
  intros H. unfold splice. destruct (decide (k < at_)%nat) as [Hk|Hk].
  - rewrite decide_False by lia. rewrite lookup_app_l by (rewrite length_take; lia). by apply lookup_take_lt.
  - rewrite lookup_app_r by (rewrite length_take; lia). rewrite length_take, Nat.min_l by lia.
    destruct (decide (k < at_ + length bytes)%nat) as [Hk'|Hk'].
    + rewrite decide_True by lia. by apply lookup_app_l; lia.
    + rewrite decide_False by lia. rewrite lookup_app_r by lia. rewrite lookup_drop. f_equal. lia.
Qed.
Lemma slice_same at_ bytes l n : (at_ + length bytes <= length l)%nat -> (n <= length bytes)%nat ->
  take n (drop at_ (splice at_ bytes l)) = take n bytes.
Proof.
  intros H Hn. unfold splice. rewrite drop_app_length' by (rewrite length_take; lia). by apply take_app_le.
Qed.
Lemma slice_apart at_ bytes l a n : (at_ + length bytes <= length l)%nat ->
  (a + n <= at_ \/ at_ + length bytes <= a)%nat ->
  take n (drop a (splice at_ bytes l)) = take n (drop a l).
Proof.
  intros H Hn. apply list_eq. intros k. destruct (decide (k < n)%nat) as [Hk|Hk].
  - rewrite !lookup_take_lt, !lookup_drop, splice_lookup by lia. by rewrite decide_False by lia.
  - by rewrite !lookup_take_ge by lia.
Qed.
End Splice.

(** * A directory block

    The entries in use, each with its name. *)
Section Block.
Context `{EX : External, EL : !ExternalLaws}.
Implicit Types (b : DENTRY_BLOCK) (fn : cstring).

Definition name_ok fn : Prop := 0 < Z.of_nat (length fn) <= MAX_FILENAME_LEN.
Definition slots_of (n : Z) : Z := ROUND_UP_DIV n FN_SLOT_LEN.
(** The entry at [i], when it is in use. *)
Definition used b (i : Z) : option DENTRY :=
  e ← aget (dentries b) i; if is_invalid16 (de_ino e) then None else Some e.
(** The slots of entry [i]. *)
Definition covers b (i : Z) (e : DENTRY) (j : Z) : Prop := i <= j < i + slots_of (de_name_len e).

Record block_ok b : Prop := {
  bo_len : Z.of_nat (length (dentries b)) = DENTRY_PER_BLOCK;
  bo_names : Z.of_nat (length (de_filenames b)) = MAX_FILENAME_LEN;
  bo_bitmap : 0 <= de_bitmap b < 2 ^ 4;
  (** An entry stays inside the block, its slots are taken, and its hash is
      the one of its name. *)
  bo_entry i e : used b i = Some e -> exists fn, name_ok fn /\
    de_name_len e = Z.of_nat (length fn) /\ de_hash e = FileNameHash fn /\
    name_at i (Z.of_nat (length fn)) b = Some fn /\
    (forall j, covers b i e j -> Z.testbit (de_bitmap b) j = true);
  (** A taken slot belongs to an entry. *)
  bo_taken j : 0 <= j -> Z.testbit (de_bitmap b) j = true -> exists i e, used b i = Some e /\ covers b i e j;
  (** Entries do not overlap and have different names. *)
  bo_apart i i' e e' : used b i = Some e -> used b i' = Some e' -> i <> i' ->
    (forall j, covers b i e j -> covers b i' e' j -> False) /\
    (forall fn, name_at i (Z.of_nat (length fn)) b = Some fn -> name_at i' (Z.of_nat (length fn)) b = Some fn ->
       de_name_len e = Z.of_nat (length fn) -> de_name_len e' = Z.of_nat (length fn) -> False)
}.

(** The inode of a name, as [FindFile] looks for it in the block. *)
Definition block_find b fn : option Z := find_dentry (range 0 DENTRY_PER_BLOCK) b (FileNameHash fn) fn.

Lemma slots_of_bounds n : 0 < n <= MAX_FILENAME_LEN ->
  0 < slots_of n <= DENTRY_PER_BLOCK /\ n <= FN_SLOT_LEN * slots_of n <= n + 1.
Proof.
  intros Hn. unfold slots_of. rewrite ROUND_UP_DIV_spec by clia.
  pose proof (Z.div_mod (n + FN_SLOT_LEN - 1) FN_SLOT_LEN ltac:(clia)).
  pose proof (Z.mod_pos_bound (n + FN_SLOT_LEN - 1) FN_SLOT_LEN ltac:(clia)). clia.
Qed.

Lemma strlen_ok fn : name_ok fn -> strlen16 fn = Z.of_nat (length fn).
Proof. intros H. unfold strlen16, w16, name_ok in *. apply Z.mod_small. clia. Qed.
Lemma name_at_fits i n b fn : name_at i n b = Some fn -> i * FN_SLOT_LEN + n <= MAX_FILENAME_LEN.
Proof. unfold name_at. destruct (Z.leb_spec (i * FN_SLOT_LEN + n) (DENTRY_PER_BLOCK * FN_SLOT_LEN)); [|done]. clia. Qed.
Lemma used_at b i e : used b i = Some e -> aget (dentries b) i = Some e /\ de_ino e <> INVALID16.
Proof.
  unfold used. destruct (aget (dentries b) i) as [x|]; [|done]. cbn.
  destruct (Z.eqb_spec (de_ino x) INVALID16); [done|]. by intros [= ->].
Qed.
Lemma used_range b i e : block_ok b -> used b i = Some e -> 0 <= i < DENTRY_PER_BLOCK.
Proof. intros H [He%aget_bounds _]%used_at. by rewrite (bo_len _ H) in He. Qed.
Lemma used_covers b i e : block_ok b -> used b i = Some e -> covers b i e i.
Proof.
  intros H He. destruct (bo_entry _ H i e He) as (fn & Hf & Hl & _). unfold covers. rewrite Hl.
  pose proof (slots_of_bounds _ Hf). lia.
Qed.

(** Entry [i] is in use with name [fn]. *)
Definition named b i fn : Prop := exists e, used b i = Some e /\
  de_name_len e = Z.of_nat (length fn) /\ name_at i (Z.of_nat (length fn)) b = Some fn.

Lemma named_unique b i i' fn : block_ok b -> named b i fn -> named b i' fn -> i = i'.
Proof.
  intros H (e & He & Hl & Hn) (e' & He' & Hl' & Hn'). destruct (decide (i = i')) as [|Hne]; [done|].
  destruct (bo_apart _ H i i' e e' He He' Hne) as [_ Hd]. destruct (Hd fn Hn Hn' Hl Hl').
Qed.

Lemma matches_spec b i fn : block_ok b -> name_ok fn -> 0 <= i < DENTRY_PER_BLOCK ->
  exists m, dentry_matches b (FileNameHash fn) fn i = Some m /\ (m = true <-> named b i fn).
Proof.
  intros H Hf Hi. destruct (aget_is_Some (dentries b) i) as [e He]; [by rewrite (bo_len _ H)|].
  unfold dentry_matches. rewrite He. cbn. rewrite strlen_ok by done.
  destruct (Z.eqb_spec (de_ino e) INVALID16) as [Ei|Ei]; cbn [orb].
  { exists false. split; [done|]. split; [done|]. intros (x & [Hx Hx']%used_at & _). congruence. }
  assert (Hu : used b i = Some e) by (unfold used; rewrite He; cbn; by rewrite (proj2 (Z.eqb_neq _ _))).
  destruct (bo_entry _ H i e Hu) as (g & Hg & Hgl & Hgh & Hgn & _).
  destruct (Z.eqb_spec (de_hash e) (FileNameHash fn)) as [Eh|Eh]; cbn [negb].
  - destruct (Z.eqb_spec (de_name_len e) (Z.of_nat (length fn))) as [El|El]; cbn [negb].
    + rewrite El in Hgl. rewrite <- Hgl in Hgn. rewrite Hgn. cbn. rewrite Nat2Z.id, take_ge by done.
      eexists. split; [done|]. rewrite bool_decide_eq_true. split.
      * intros ->. by exists e.
      * intros (x & Hx & _ & Hn). rewrite Hgn in Hn. by injection Hn.
    + exists false. split; [done|]. split; [done|]. intros (x & Hx & Hl & _). congruence.
  - exists false. split; [done|]. split; [done|]. intros (x & Hx & Hl & Hn). assert (x = e) as -> by congruence.
    assert (g = fn) as ->; [|done]. rewrite Hgl in Hl. rewrite <- Hl in Hn. congruence.
Qed.

Lemma find_spec b fn : block_ok b -> name_ok fn ->
  exists r, block_find b fn = Some r /\
    ((exists i e, named b i fn /\ used b i = Some e /\ r = de_ino e) \/
     (r = INVALID16 /\ forall i, 0 <= i < DENTRY_PER_BLOCK -> ~ named b i fn)).
Proof.
  intros H Hf. unfold block_find.
  enough (G : forall lo, 0 <= lo <= DENTRY_PER_BLOCK -> (forall i, 0 <= i < lo -> ~ named b i fn) ->
    exists r, find_dentry (range lo DENTRY_PER_BLOCK) b (FileNameHash fn) fn = Some r /\
      ((exists i e, named b i fn /\ used b i = Some e /\ r = de_ino e) \/
       (r = INVALID16 /\ forall i, 0 <= i < DENTRY_PER_BLOCK -> ~ named b i fn))).
  { apply G; [clia|]. intros i Hi. lia. }
  intros lo Hlo. remember (Z.to_nat (DENTRY_PER_BLOCK - lo)) as k eqn:Hk. revert lo Hlo Hk.
  induction k as [|k IH]; intros lo Hlo Hk Hno.
  - rewrite range_nil by lia. exists INVALID16. split; [done|]. right. split; [done|]. intros i Hi. apply Hno. lia.
  - rewrite range_cons by lia. cbn [find_dentry].
    destruct (matches_spec b lo fn H Hf ltac:(lia)) as (m & -> & Hm). cbn. destruct m.
    + destruct (proj1 Hm eq_refl) as (e & He & Hl & Hn). pose proof (used_at _ _ _ He) as [Ha _]. rewrite Ha. cbn.
      exists (de_ino e). split; [done|]. left. exists lo, e. split; [by exists e|done].
    + apply IH; [lia|lia|]. intros i Hi. destruct (decide (i = lo)) as [->|]; [|apply Hno; lia].
      intros Hb%Hm. done.
Qed.

(** Two blocks with the same names, but one. *)
Lemma find_by_names b b' fn ino : block_ok b -> block_ok b' ->
  (forall i fn', fn' <> fn -> named b' i fn' <-> named b i fn') ->
  (forall i fn' e, fn' <> fn -> named b i fn' -> used b i = Some e -> used b' i = Some e) ->
  block_find b' fn = Some ino -> name_ok fn ->
  forall fn', name_ok fn' -> block_find b' fn' = if decide (fn' = fn) then Some ino else block_find b fn'.
Proof.
  intros H H' Hnm Hu Hfind Hf fn' Hf'. destruct (decide (fn' = fn)) as [->|Hne]; [done|].
  destruct (find_spec b fn' H Hf') as (r & -> & [(i & e & Hn & He & ->)|[-> Hno]]);
    destruct (find_spec b' fn' H' Hf') as (r' & -> & [(i' & e' & Hn' & He' & ->)|[-> Hno']]).
  - apply Hnm in Hn' as Hn''; [|done]. pose proof (named_unique b i i' fn' H Hn Hn'') as ->.
    pose proof (Hu i' fn' e Hne Hn He) as E. rewrite E in He'. by injection He' as ->.
  - exfalso. apply (Hno' i); [exact (used_range b i e H He)|]. by apply Hnm.
  - exfalso. apply (Hno i'); [exact (used_range b' i' e' H' He')|]. by apply Hnm.
  - done.
Qed.

Lemma set_name_spec i bytes b : 0 <= i -> i * FN_SLOT_LEN + Z.of_nat (length bytes) <= MAX_FILENAME_LEN ->
  set_name i bytes b = Some (mkDentryBlock (de_bitmap b)
    (splice (Z.to_nat (i * FN_SLOT_LEN)) bytes (de_filenames b)) (dentries b)).
Proof. intros Hi Hl. unfold set_name. cbn zeta. by rewrite (proj2 (Z.leb_le _ _)) by clia. Qed.

(** Entries of another block that agree with those of [b]. *)
Lemma name_at_ext b b' i n : (i * FN_SLOT_LEN + n <= MAX_FILENAME_LEN ->
    take (Z.to_nat n) (drop (Z.to_nat (i * FN_SLOT_LEN)) (de_filenames b')) =
    take (Z.to_nat n) (drop (Z.to_nat (i * FN_SLOT_LEN)) (de_filenames b))) ->
  name_at i n b' = name_at i n b.
Proof.
  intros H. unfold name_at. cbn zeta. destruct (Z.leb_spec (i * FN_SLOT_LEN + n) (DENTRY_PER_BLOCK * FN_SLOT_LEN)); [|done].
  f_equal. apply H. clia.
Qed.

(** The slots of an entry and free slots do not meet. *)
Lemma covers_free b k e i n : block_ok b -> used b k = Some e -> 0 < n -> slots_free (de_bitmap b) i n = true ->
  k + slots_of (de_name_len e) <= i \/ i + n <= k.
Proof.
  intros H He Hn Hfree. rewrite slots_free_spec in Hfree. destruct (bo_entry _ H k e He) as (fn & Hf & Hl & _ & _ & Hc).
  pose proof (slots_of_bounds _ Hf) as [Hs _]. rewrite <- Hl in Hs.
  destruct (decide (k + slots_of (de_name_len e) <= i)); [by left|]. destruct (decide (i + n <= k)); [by right|].
  exfalso. specialize (Hc (Z.max i k)). rewrite Hfree in Hc by lia. discriminate Hc. unfold covers. lia.
Qed.

Definition new_entry (fid : Z) fn (ft : Z) : DENTRY := mkDentry fid (FileNameHash fn) (Z.of_nat (length fn)) ft.
Definition padded fn : cstring := take (Z.to_nat (FN_SLOT_LEN * slots_of (Z.of_nat (length fn)))) (fn ++ [0]).
Definition filled b (i fid : Z) fn (ft : Z) : DENTRY_BLOCK :=
  mkDentryBlock (set_bits (Z.to_nat (slots_of (Z.of_nat (length fn)))) (de_bitmap b) (mask i))
    (splice (Z.to_nat (i * FN_SLOT_LEN)) (padded fn) (de_filenames b))
    (<[Z.to_nat i := new_entry fid fn ft]> (dentries b)).

Lemma padded_length fn : name_ok fn -> Z.of_nat (length (padded fn)) = FN_SLOT_LEN * slots_of (Z.of_nat (length fn)).
Proof.
  intros Hf. destruct (slots_of_bounds _ Hf) as [H1 H2]. unfold padded. rewrite length_take, length_app. cbn [length]. clia.
Qed.
Lemma take_padded fn : name_ok fn -> take (length fn) (padded fn) = fn.
Proof.
  intros Hf. destruct (slots_of_bounds _ Hf) as [H1 H2]. unfold padded. rewrite take_take, Nat.min_l by clia.
  by apply take_app_length.
Qed.

(** A place for a name in a block. *)
Record place b (i : Z) fn : Prop := {
  pl_i : 0 <= i;
  pl_fit : i + slots_of (Z.of_nat (length fn)) <= DENTRY_PER_BLOCK;
  pl_free : slots_free (de_bitmap b) i (slots_of (Z.of_nat (length fn))) = true
}.

Section Fill.
Context (b : DENTRY_BLOCK) (i fid : Z) (fn : cstring) (ft : Z) (H : block_ok b) (Hf : name_ok fn) (Hp : place b i fn) (Hid : fid <> INVALID16)
  (Hno : forall k, 0 <= k < DENTRY_PER_BLOCK -> ~ named b k fn).
Abbreviation b' := (filled b i fid fn ft).
Abbreviation n := (slots_of (Z.of_nat (length fn))).

Lemma fill_in : 0 <= i < DENTRY_PER_BLOCK.
Proof. destruct Hp as [Hi Hfit _]. destruct (slots_of_bounds _ Hf). lia. Qed.
Lemma fill_room : (Z.to_nat (i * FN_SLOT_LEN) + length (padded fn) <= length (de_filenames b))%nat.
Proof.
  pose proof (bo_names _ H). pose proof (padded_length _ Hf). destruct Hp. destruct (slots_of_bounds _ Hf). clia.
Qed.
Lemma fill_used k : 0 <= k -> used b' k = if k =? i then Some (new_entry fid fn ft) else used b k.
Proof.
  intros Hk. pose proof fill_in as Hi. unfold used. cbn [dentries filled].
  rewrite aget_insert by (rewrite ?(bo_len _ H); lia). rewrite (Z.eqb_sym k i). destruct (Z.eqb_spec i k); [|done].
  cbn. by rewrite (proj2 (Z.eqb_neq fid INVALID16)).
Qed.
Lemma fill_unused : used b i = None.
Proof.
  destruct (used b i) as [e|] eqn:He; [|done]. exfalso. destruct (slots_of_bounds _ Hf) as [Hs _].
  destruct (covers_free b i e i n H He ltac:(lia) (pl_free _ _ _ Hp)); [|lia].
  pose proof (used_covers b i e H He) as Hc. unfold covers in Hc. lia.
Qed.
Lemma fill_new_name : name_at i (Z.of_nat (length fn)) b' = Some fn.
Proof.
  destruct Hp as [Hi Hfit _]. destruct (slots_of_bounds _ Hf) as [Hs Hs'].
  unfold name_at. cbn zeta. rewrite (proj2 (Z.leb_le _ _)) by clia. cbn [de_filenames filled].
  rewrite slice_same; [|exact fill_room|pose proof (padded_length _ Hf); lia].
  by rewrite Nat2Z.id, take_padded.
Qed.
Lemma fill_other_name k e m : used b k = Some e -> 0 <= m <= FN_SLOT_LEN * slots_of (de_name_len e) ->
  name_at k m b' = name_at k m b.
Proof.
  intros He Hm. destruct Hp as [Hi Hfit Hfr]. destruct (slots_of_bounds _ Hf) as [Hs Hs'].
  pose proof (used_range _ _ _ H He). pose proof (padded_length _ Hf).
  apply name_at_ext. intros Hk. cbn [de_filenames filled]. apply slice_apart; [exact fill_room|].
  destruct (covers_free b k e i n H He ltac:(lia) Hfr); clia.
Qed.
Lemma fill_old_len k e : used b k = Some e ->
  0 <= de_name_len e <= FN_SLOT_LEN * slots_of (de_name_len e).
Proof.
  intros He. destruct (bo_entry _ H k e He) as (g & Hg & Hl & _). rewrite Hl.
  destruct (slots_of_bounds _ Hg) as [_ ?]. lia.
Qed.
Lemma fill_named k fn' : named b' k fn' <-> (k = i /\ fn' = fn) \/ (k <> i /\ named b k fn').
Proof.
  assert (Hrange : forall x e, used x k = Some e -> 0 <= k).
  { intros x e [He _]%used_at. apply aget_bounds in He. lia. }
  split.
  - intros (e & He & Hl & Hn). rewrite fill_used in He by (by eapply Hrange). destruct (Z.eqb_spec k i) as [->|Hne].
    + left. split; [done|]. injection He as <-. cbn in Hl. rewrite <- Hl in Hn. rewrite fill_new_name in Hn. congruence.
    + right. split; [done|]. exists e. split_and!; [done|done|]. rewrite <- Hl in Hn |- *.
      by rewrite <- (fill_other_name k e) by (done || by eapply fill_old_len).
  - intros [[-> ->]|[Hne (e & He & Hl & Hn)]].
    + exists (new_entry fid fn ft). split_and!; [|done|exact fill_new_name].
      rewrite fill_used by apply fill_in. by rewrite Z.eqb_refl.
    + exists e. split_and!; [|done|].
      * rewrite fill_used by (by eapply Hrange). by rewrite (proj2 (Z.eqb_neq _ _)).
      * rewrite <- Hl in Hn |- *. by rewrite (fill_other_name k e) by (done || by eapply fill_old_len).
Qed.
Lemma fill_bits j : 0 <= j -> Z.testbit (de_bitmap b') j = Z.testbit (de_bitmap b) j || ((i <=? j) && (j <? i + n)).
Proof.
  intros Hj. destruct Hp as [Hi Hfit _]. destruct (slots_of_bounds _ Hf) as [Hs Hs'].
  cbn [de_bitmap filled]. rewrite set_bits_spec by clia. by rewrite Z2Nat.id by lia.
Qed.

Lemma fill_ok : block_ok b'.
Proof.
  pose proof fill_in as Hin. destruct (slots_of_bounds _ Hf) as [Hs Hs'].
  assert (Hwho : forall k e, used b' k = Some e ->
    (k = i /\ e = new_entry fid fn ft) \/ (k <> i /\ used b k = Some e)).
  { intros k e He. pose proof (used_at _ _ _ He) as [Hb%aget_bounds _]. rewrite fill_used in He by lia.
    destruct (Z.eqb_spec k i); [left; split; congruence|by right]. }
  assert (Hcov : forall k e j, k <> i -> used b k = Some e -> covers b k e j -> i <= j < i + n -> False).
  { intros k e j Hne He Hc Hj. unfold covers in Hc.
    destruct (covers_free b k e i n H He ltac:(lia) (pl_free _ _ _ Hp)); lia. }
  constructor.
  - cbn [dentries filled]. rewrite length_insert. apply H.
  - cbn [de_filenames filled]. rewrite splice_length by apply fill_room. apply H.
  - destruct Hp. cbn [de_bitmap filled]. apply set_bits_word; [done|clia|done|apply H].
  - intros k e [[-> ->]|[Hne He]]%Hwho.
    + exists fn. split_and!; [done|done|done|exact fill_new_name|]. intros j Hj. unfold covers in Hj. cbn in Hj.
      rewrite fill_bits by lia. apply orb_true_iff. right. lia.
    + destruct (bo_entry _ H k e He) as (g & Hg & Hl & Hh & Hn & Hc). exists g. split_and!; [done|done|done| |].
      * rewrite <- Hl in Hn |- *. by rewrite (fill_other_name k e) by (done || by eapply fill_old_len).
      * intros j Hj. pose proof (used_range _ _ _ H He). rewrite fill_bits by (unfold covers in Hj; lia).
        apply orb_true_iff. left. by apply Hc.
  - intros j Hj. rewrite fill_bits by done. intros [Hb|Hb]%orb_true_iff.
    + destruct (bo_taken _ H j Hj Hb) as (k & e & He & Hc). exists k, e. split; [|done].
      pose proof (used_range _ _ _ H He). rewrite fill_used by lia. destruct (Z.eqb_spec k i) as [->|]; [|done].
      by rewrite fill_unused in He.
    + exists i, (new_entry fid fn ft). split; [rewrite fill_used by lia; by rewrite Z.eqb_refl|]. unfold covers. cbn. lia.
  - intros k k' e e' He He' Hne. split.
    + intros j Hj Hj'. destruct (Hwho _ _ He) as [[-> ->]|[N1 U1]], (Hwho _ _ He') as [[-> ->]|[N2 U2]]; [done| | |].
      * by eapply (Hcov k' e' j).
      * by eapply (Hcov k e j).
      * by destruct (bo_apart _ H k k' e e' U1 U2 Hne) as [Hd _]; apply (Hd j).
    + intros g Hg Hg' Hl Hl'. assert (N1 : named b' k g) by (by exists e). assert (N2 : named b' k' g) by (by exists e').
      apply fill_named in N1 as [[-> ->]|[X1 N1]], N2 as [[-> Hgf]|[X2 N2]]; [done| | |].
      * destruct N2 as (x & Hx & ? & ?). apply (Hno k'); [by eapply used_range|]. by exists x.
      * subst g. destruct N1 as (x & Hx & ? & ?). apply (Hno k); [by eapply used_range|]. by exists x.
      * by apply Hne, (named_unique b k k' g).
Qed.

Lemma fill_find : block_find b' fn = Some fid.
Proof.
  destruct (find_spec b' fn fill_ok Hf) as (r & -> & [(k & e & Hn & He & ->)|[-> Hno']]).
  - apply fill_named in Hn as [[-> _]|[Hne Hn]].
    + rewrite fill_used in He by (by apply fill_in). rewrite Z.eqb_refl in He. by injection He as <-.
    + exfalso. apply (Hno k); [|done]. destruct Hn as (x & Hx & _). by eapply used_range.
  - exfalso. apply (Hno' i); [exact fill_in|]. apply fill_named. by left.
Qed.
End Fill.

Lemma find_absent b fn : block_ok b -> name_ok fn -> block_find b fn = Some INVALID16 ->
  forall k, 0 <= k < DENTRY_PER_BLOCK -> ~ named b k fn.
Proof.
  intros H Hf Hfind. destruct (find_spec b fn H Hf) as (r & Hr & [(k & e & Hn & He & ->)|[-> Hno]]); [|done].
  rewrite Hfind in Hr. injection Hr as Hr. by apply used_at in He as [_ []].
Qed.

Lemma fill_dentry_runs b i fid fn : block_ok b -> name_ok fn -> place b i fn ->
  exists ft, fill_dentry i fid (FileNameHash fn) (slots_of (Z.of_nat (length fn))) fn b = Some (filled b i fid fn ft).
Proof.
  intros H Hf Hp. pose proof (fill_in b i fn Hf Hp) as Hi.
  destruct (aget_is_Some (dentries b) i) as [e He]; [rewrite (bo_len _ H); lia|]. exists (de_file_type e).
  unfold fill_dentry, set_dentry. rewrite He. cbn [mbind option_bind]. rewrite aset_is_Some by (rewrite (bo_len _ H); lia).
  cbn [mbind option_bind]. fold (padded fn). rewrite set_name_spec.
  - cbn [mbind option_bind]. unfold filled, set_de_bitmap. cbn. by rewrite strlen_ok.
  - lia.
  - rewrite padded_length by done. destruct Hp. clia.
Qed.

(** C32: adding a name to a directory block.  When the search finds a place and
    the name is not in the block, the entry that [add_link] writes keeps the
    block well formed (entries inside the block, not overlapping, their slots
    taken, names different), the name is found with its inode, and every other
    name is found, or not found, as before. *)
Theorem directory_block_add b fn fid :
  block_ok b -> name_ok fn -> fid <> INVALID16 -> block_find b fn = Some INVALID16 ->
  let n := ROUND_UP_DIV (strlen16 fn) FN_SLOT_LEN in
  let i := free_slots (de_bitmap b) n in
  i < DENTRY_PER_BLOCK ->
  exists b', fill_dentry i fid (FileNameHash fn) n fn b = Some b' /\ block_ok b' /\
    block_find b' fn = Some fid /\
    forall fn', name_ok fn' -> fn' <> fn -> block_find b' fn' = block_find b fn'.
Proof.
  intros H Hf Hid Hfind. cbn zeta. rewrite strlen_ok by done. fold (slots_of (Z.of_nat (length fn))).
  set (n := slots_of (Z.of_nat (length fn))). set (i := free_slots (de_bitmap b) n). intros Hi.
  destruct (slots_of_bounds _ Hf) as [Hs _]. pose proof (free_slots_fit (de_bitmap b) n (bo_bitmap _ H) Hs) as Hfit.
  fold i in Hfit. unfold first_fit in Hfit. rewrite (proj2 (Z.ltb_lt _ _) Hi) in Hfit.
  apply andb_true_iff in Hfit as [H0 [[H1 H2]%andb_true_iff _]%andb_true_iff].
  assert (Hp : place b i fn) by (constructor; [lia|lia|exact H2]).
  pose proof (find_absent b fn H Hf Hfind) as Hno.
  destruct (fill_dentry_runs b i fid fn H Hf Hp) as [ft Hrun]. exists (filled b i fid fn ft).
  pose proof (fill_ok b i fid fn ft H Hf Hp Hid Hno) as Hok.
  pose proof (fill_find b i fid fn ft H Hf Hp Hid Hno) as Hnew.
  split_and!; [exact Hrun|exact Hok|exact Hnew|].
  intros fn' Hf' Hne. rewrite (find_by_names b (filled b i fid fn ft) fn fid); try done.
  - by rewrite decide_False.
  - intros k g Hg. rewrite (fill_named b i fid fn ft H Hf Hp Hid). split; [intros [[_ ?]|[_ ?]]; done|].
    intros Hn. right. split; [|done]. intros ->. destruct Hn as (e & He & _). by rewrite (fill_unused b i fn H Hf Hp) in He.
  - intros k g e Hg Hn He. pose proof (used_range _ _ _ H He). rewrite fill_used by (done || lia).
    destruct (Z.eqb_spec k i) as [->|]; [|done]. by rewrite (fill_unused b i fn H Hf Hp) in He.
Qed.

(** * Removing *)
Definition erased b (i : Z) (e : DENTRY) : DENTRY_BLOCK :=
  mkDentryBlock (clear_bits (Z.to_nat (slots_of (de_name_len e))) (de_bitmap b) (mask i))
    (splice (Z.to_nat (i * FN_SLOT_LEN)) (rep (FN_SLOT_LEN * slots_of (de_name_len e)) 0) (de_filenames b))
    (<[Z.to_nat i := DENTRY_ff]> (dentries b)).

Section Erase.
Context (b : DENTRY_BLOCK) (i : Z) (e : DENTRY) (H : block_ok b) (He : used b i = Some e).
Abbreviation b' := (erased b i e).
Abbreviation n := (slots_of (de_name_len e)).

Lemma erase_slots : 0 <= i /\ 0 < n /\ i + n <= DENTRY_PER_BLOCK /\ 0 < de_name_len e <= FN_SLOT_LEN * n.
Proof.
  destruct (bo_entry _ H i e He) as (g & Hg & Hl & _ & Hn & Hc). pose proof (used_range _ _ _ H He).
  destruct (slots_of_bounds _ Hg) as [Hs Hs']. rewrite <- Hl in *. split_and!; try lia; [|unfold name_ok in Hg; lia].
  destruct (decide (i + n <= DENTRY_PER_BLOCK)) as [|Hk1]; [done|]. exfalso.
  assert (Hb : Z.testbit (de_bitmap b) DENTRY_PER_BLOCK = true) by (apply Hc; unfold covers; lia).
  pose proof (bo_bitmap _ H) as [_ Hw]%word_bits; [|lia]. rewrite Hw in Hb by clia. done.
Qed.
Lemma erase_room : (Z.to_nat (i * FN_SLOT_LEN) + length (rep (FN_SLOT_LEN * n) 0%Z) <= length (de_filenames b))%nat.
Proof. pose proof (bo_names _ H). pose proof erase_slots. unfold rep. rewrite length_replicate. clia. Qed.
Lemma erase_used k : 0 <= k -> used b' k = if k =? i then None else used b k.
Proof.
  intros Hk. pose proof (used_range _ _ _ H He). unfold used. cbn [dentries erased].
  rewrite aget_insert by (rewrite ?(bo_len _ H); lia). rewrite (Z.eqb_sym k i). by destruct (Z.eqb_spec i k).
Qed.
Lemma erase_used_inv k x : used b' k = Some x -> k <> i /\ used b k = Some x.
Proof.
  intros Hx. pose proof (used_at _ _ _ Hx) as [Hb%aget_bounds _]. rewrite erase_used in Hx by lia.
  by destruct (Z.eqb_spec k i).
Qed.
Lemma erase_name k x m : k <> i -> used b k = Some x -> 0 <= m <= FN_SLOT_LEN * slots_of (de_name_len x) ->
  name_at k m b' = name_at k m b.
Proof.
  intros Hne Hx Hm. pose proof erase_slots as (Hi & Hs & Hfit & _). pose proof (used_range _ _ _ H Hx).
  assert (Hap : k + slots_of (de_name_len x) <= i \/ i + n <= k).
  { destruct (bo_apart _ H k i x e Hx He Hne) as [Hd _].
    destruct (decide (k + slots_of (de_name_len x) <= i)) as [|Hk1]; [by left|]. destruct (decide (i + n <= k)) as [|Hk2]; [by right|].
    exfalso. pose proof (used_covers b k x H Hx) as Hc. unfold covers in Hc.
    apply (Hd (Z.max i k)); unfold covers; lia. }
  apply name_at_ext. intros Hk. cbn [de_filenames erased]. apply slice_apart; [exact erase_room|].
  unfold rep. rewrite length_replicate. clia.
Qed.
Lemma erase_named k g : named b' k g <-> k <> i /\ named b k g.
Proof.
  split.
  - intros (x & [Hne Hx]%erase_used_inv & Hl & Hn). split; [done|]. exists x. split_and!; [done|done|].
    rewrite <- Hl in Hn |- *. by rewrite <- (erase_name k x) by (done || by eapply fill_old_len).
  - intros [Hne (x & Hx & Hl & Hn)]. exists x. split_and!; [|done|].
    + rewrite erase_used by (apply used_at in Hx as [?%aget_bounds _]; lia). by rewrite (proj2 (Z.eqb_neq _ _)).
    + rewrite <- Hl in Hn |- *. by rewrite (erase_name k x) by (done || by eapply fill_old_len).
Qed.
Lemma erase_bits j : 0 <= j < 32 -> Z.testbit (de_bitmap b') j = Z.testbit (de_bitmap b) j && negb ((i <=? j) && (j <? i + n)).
Proof.
  intros Hj. pose proof erase_slots. cbn [de_bitmap erased]. rewrite clear_bits_spec by clia. by rewrite Z2Nat.id by lia.
Qed.
Lemma erase_ok : block_ok b'.
Proof.
  pose proof erase_slots as (Hi & Hs & Hfit & _).
  assert (Hw : 0 <= de_bitmap b' < 2 ^ 4).
  { cbn [de_bitmap erased]. apply clear_bits_word; [done|clia|done|apply H]. }
  constructor.
  - cbn [dentries erased]. rewrite length_insert. apply H.
  - cbn [de_filenames erased]. rewrite splice_length by apply erase_room. apply H.
  - exact Hw.
  - intros k x [Hne Hx]%erase_used_inv. destruct (bo_entry _ H k x Hx) as (g & Hg & Hl & Hh & Hn & Hc).
    exists g. split_and!; [done|done|done| |].
    + rewrite <- Hl in Hn |- *. by rewrite (erase_name k x) by (done || by eapply fill_old_len).
    + intros j Hj. pose proof (used_range _ _ _ H Hx). destruct (slots_of_bounds _ Hg) as [Hsg _]. rewrite <- Hl in Hsg.
      pose proof Hj as Hj'. unfold covers in Hj'. rewrite erase_bits by clia. rewrite (Hc j Hj). cbn [andb].
      apply negb_true_iff. destruct ((i <=? j) && (j <? i + n)) eqn:E; [|done]. exfalso.
      destruct (bo_apart _ H k i x e Hx He Hne) as [Hd _]. apply (Hd j Hj). unfold covers. lia.
  - intros j Hj Hb. destruct (decide (j < 32)) as [Hlt|]; [|by rewrite (proj2 (proj1 (word_bits 4 _ ltac:(lia)) Hw)) in Hb by lia].
    rewrite erase_bits in Hb by lia. apply andb_true_iff in Hb as [Hb Hout%negb_true_iff].
    destruct (bo_taken _ H j Hj Hb) as (k & x & Hx & Hc). exists k, x. split; [|done].
    rewrite erase_used by (pose proof (used_range _ _ _ H Hx); lia). destruct (Z.eqb_spec k i) as [->|]; [|done].
    rewrite He in Hx. injection Hx as <-. unfold covers in Hc. lia.
  - intros k k' x x' [N1 U1]%erase_used_inv [N2 U2]%erase_used_inv Hne. split.
    + apply (bo_apart _ H k k' x x' U1 U2 Hne).
    + intros g Hg Hg' Hl Hl'. destruct (bo_apart _ H k k' x x' U1 U2 Hne) as [_ Hd]. apply (Hd g); [| |done|done].
      * rewrite <- Hl in Hg |- *. by rewrite <- (erase_name k x) by (done || by eapply fill_old_len).
      * rewrite <- Hl' in Hg' |- *. by rewrite <- (erase_name k' x') by (done || by eapply fill_old_len).
Qed.
Lemma erase_runs : erase_dentry i n b = Some b'.
Proof.
  pose proof erase_slots as (Hi & Hs & Hfit & _). unfold erase_dentry. rewrite set_name_spec.
  - cbn [mbind option_bind]. unfold set_dentry. cbn [dentries set_de_bitmap]. rewrite aset_is_Some; [done|].
    rewrite (bo_len _ H). lia.
  - lia.
  - unfold rep. rewrite length_replicate. clia.
Qed.
End Erase.

Lemma link_spec b fn fid : block_ok b -> name_ok fn -> block_find b fn = Some fid -> fid <> INVALID16 ->
  exists i e, find_link (range 0 DENTRY_PER_BLOCK) b (FileNameHash fn) fid fn = Some (Some i) /\
    named b i fn /\ used b i = Some e /\ de_ino e = fid.
Proof.
  intros H Hf Hfind Hid. destruct (find_spec b fn H Hf) as (r & Hr & Hcase). rewrite Hfind in Hr. injection Hr as <-.
  destruct Hcase as [(i & e & Hn & He & Hfid)|[? _]]; [|done]. exists i, e. split_and!; [|done|done|done].
  pose proof (used_range _ _ _ H He) as Hi.
  enough (G : forall k lo, Z.of_nat k = DENTRY_PER_BLOCK - lo -> 0 <= lo <= i ->
    find_link (range lo DENTRY_PER_BLOCK) b (FileNameHash fn) fid fn = Some (Some i))
    by (apply (G 4%nat 0); [clia|lia]).
  intros k. induction k as [|k IH]; intros lo Hk Hlo; [lia|]. rewrite range_cons by lia. cbn [find_link].
  destruct (matches_spec b lo fn H Hf ltac:(lia)) as (m & -> & Hm). cbn [mbind option_bind].
  destruct (aget_is_Some (dentries b) lo) as [x Hx]; [rewrite (bo_len _ H); lia|]. rewrite Hx. cbn [mbind option_bind].
  destruct (decide (lo = i)) as [->|Hne].
  - rewrite (proj2 Hm Hn). pose proof (used_at _ _ _ He) as [E _]. rewrite E in Hx. injection Hx as <-.
    by rewrite Hfid, Z.eqb_refl.
  - destruct m; cbn [andb]; [|apply IH; lia]. exfalso. apply Hne. apply (named_unique b lo i fn H); [by apply Hm|done].
Qed.

(** C33: removing a name from a directory block.  A name that is found is found
    by [unlink] too; erasing its entry keeps the block well formed, the name is
    not found any more, every other name is found, or not found, as before, and
    the bitmap is 0 exactly when no entry is left, which is when [unlink]
    truncates the block. *)
Theorem directory_block_remove b fn fid :
  block_ok b -> name_ok fn -> block_find b fn = Some fid -> fid <> INVALID16 ->
  exists i e b', find_link (range 0 DENTRY_PER_BLOCK) b (FileNameHash fn) fid fn = Some (Some i) /\
    aget (dentries b) i = Some e /\
    erase_dentry i (ROUND_UP_DIV (de_name_len e) FN_SLOT_LEN) b = Some b' /\
    block_ok b' /\ block_find b' fn = Some INVALID16 /\
    (forall fn', name_ok fn' -> fn' <> fn -> block_find b' fn' = block_find b fn') /\
    (de_bitmap b' = 0 <-> forall k, used b' k = None).
Proof.
  intros H Hf Hfind Hid. destruct (link_spec b fn fid H Hf Hfind Hid) as (i & e & Hl & Hn & He & Hfid).
  pose proof (erase_ok b i e H He) as Hok. exists i, e, (erased b i e).
  assert (Hgone : block_find (erased b i e) fn = Some INVALID16).
  { destruct (find_spec (erased b i e) fn Hok Hf) as (r & -> & [(k & x & Hk & _)|[-> _]]); [|done].
    apply erase_named in Hk as [Hne Hk]; [|done|done]. by destruct Hne; apply (named_unique b k i fn). }
  split_and!; [exact Hl|by apply used_at|by apply erase_runs|exact Hok|exact Hgone| |].
  - intros fn' Hf' Hne. rewrite (find_by_names b (erased b i e) fn INVALID16); try done.
    + by rewrite decide_False.
    + intros k g Hg. rewrite (erase_named b i e H He). split; [naive_solver|]. intros Hk. split; [|done]. intros ->.
      destruct Hn as (x & Hx & Hxl & Hxn), Hk as (y & Hy & Hyl & Hyn). assert (x = y) as -> by congruence.
      apply Hg. rewrite <- Hxl in Hxn. rewrite <- Hyl in Hyn. congruence.
    + intros k g x Hg Hk Hx. rewrite erase_used by (done || (pose proof (used_range _ _ _ H Hx); lia)).
      destruct (Z.eqb_spec k i) as [->|]; [|done]. exfalso. apply Hg.
      destruct Hn as (y & Hy & Hyl & Hyn), Hk as (z & Hz & Hzl & Hzn). assert (z = y) as -> by congruence.
      rewrite <- Hyl in Hyn. rewrite <- Hzl in Hzn. congruence.
  - split.
    + intros Hz k. destruct (used (erased b i e) k) as [x|] eqn:Hx; [|done].
      destruct (bo_entry _ Hok k x Hx) as (g & _ & _ & _ & _ & Hc).
      specialize (Hc k (used_covers _ _ _ Hok Hx)). by rewrite Hz, Z.bits_0 in Hc.
    + intros Hno. apply (word_ext 4); [lia|apply Hok|lia|]. intros j Hj. rewrite Z.bits_0.
      destruct (Z.testbit (de_bitmap (erased b i e)) j) eqn:Hb; [|done].
      destruct (bo_taken _ Hok j ltac:(lia) Hb) as (k & x & Hx & _). by rewrite Hno in Hx.
Qed.

Lemma new_block_used k : used DENTRY_new k = None.
Proof.
  unfold used. destruct (aget (dentries DENTRY_new) k) as [e|] eqn:He; [|done]. cbn [mbind option_bind].
  apply aget_Some in He as [_ He]. apply lookup_replicate in He as [-> _]. done.
Qed.
Lemma new_block_ok : block_ok DENTRY_new.
Proof.
  constructor; [by vm_compute..| | | ].
  - intros i e. by rewrite new_block_used.
  - intros j _. cbn [de_bitmap DENTRY_new set_de_bitmap]. by rewrite Z.bits_0.
  - intros i i' e e'. by rewrite new_block_used.
Qed.
Lemma new_block_absent fn k : ~ named DENTRY_new k fn.
Proof. intros (e & He & _). by rewrite new_block_used in He. Qed.
End Block.

Section Examples.
#[local] Existing Instance sample_external.
#[local] Existing Instance sample_laws.

Lemma directory_block_add_witness :
  block_find DENTRY_new [65; 66; 67] = Some INVALID16 /\
  exists b', fill_dentry 0 3 (FileNameHash [65; 66; 67]) 2 [65; 66; 67] DENTRY_new = Some b' /\
    block_find b' [65; 66; 67] = Some 3 /\ block_find b' [65] = Some INVALID16.
Proof.
  split; [by vm_compute|].
  destruct (directory_block_add DENTRY_new [65; 66; 67] 3) as (b' & Hr & _ & Hn & Ho).
  - exact new_block_ok.
  - unfold name_ok. cbn. clia.
  - clia.
  - by vm_compute.
  - by vm_compute.
  - exists b'. split; [exact Hr|]. split; [exact Hn|]. rewrite Ho; [by vm_compute| |done]. unfold name_ok. cbn. clia.
Defined.

(** A block with one entry. *)
Definition one_name : DENTRY_BLOCK := filled DENTRY_new 0 3 [65; 66; 67] 255.
Lemma one_name_ok : block_ok one_name.
Proof.
  apply fill_ok; [exact new_block_ok|unfold name_ok; cbn; clia|constructor; by vm_compute|clia|].
  intros k _. apply new_block_absent.
Qed.
Lemma directory_block_remove_witness :
  block_find one_name [65; 66; 67] = Some 3 /\
  exists b', erase_dentry 0 2 one_name = Some b' /\ block_find b' [65; 66; 67] = Some INVALID16 /\ block_ok b'.
Proof.
  split; [by vm_compute|].
  destruct (directory_block_remove one_name [65; 66; 67] 3) as (i & e & b' & Hl & He & Hr & Hok & Hn & _).
  - exact one_name_ok.
  - unfold name_ok. cbn. clia.
  - by vm_compute.
  - clia.
  - assert (E : find_link (range 0 DENTRY_PER_BLOCK) one_name (FileNameHash [65; 66; 67]) 3 [65; 66; 67] = Some (Some 0))
      by (by vm_compute).
    rewrite E in Hl. injection Hl as <-. assert (E' : aget (dentries one_name) 0 = Some (new_entry 3 [65; 66; 67] 255)) by (by vm_compute).
    rewrite E' in He. injection He as <-. exists b'. split; [exact Hr|]. split; [exact Hn|exact Hok].
Defined.
End Examples.
