(* ===== verification/Simulator.v ===== *)
(** Simulator: the file system interface, [CF2fsSimulator] of
    f2fs_simulator.cpp. *)
From S2P Require Export Dir.

Definition MAX_PATH_SIZE : Z := 127.

Section Simulator.
Context {St : Type} `{BlockStore St} `{External}.
Abbreviation Fs := (CF2fsSimulator St).

(** [strcpy_s(full_path, fn)] into an array of [MAX_PATH_SIZE + 1]. *)
Definition copy_path (fn : cstring) : M Fs unit :=
  check (Z.of_nat (length fn) <=? MAX_PATH_SIZE).

(** * Open files *)
Definition InitOpenList : M Fs unit :=
  let link ii := if ii =? MAX_OPEN_FILE - 1 then INVALID32 else ii + 1 in
  modify (set_open ((fun ii => mkOpen INVALID16 (link ii)) <$> range 0 MAX_OPEN_FILE) 0 0).

Fixpoint find_open (l : list OPENED_FILE) (fid ii : Z) : option Z :=
  match l with
  | [] => None
  | f :: l' => if of_ino f =? fid then Some ii else find_open l' fid (ii + 1)
  end.
Definition FindOpenFile (fid : Z) : M Fs (option Z) :=
  gets (fun s => find_open (m_open_files s) fid 0).
Definition open_file_at (i : Z) : M Fs OPENED_FILE :=
  s <- get ;; opt (aget (m_open_files s) i).
(** The inode page of an open file. *)
Definition open_page (i : Z) : M Fs Z := f <- open_file_at i ;; page_ptr (of_ipage f).

Definition AddFileToOpenList (fid pg : Z) : M Fs Z :=
  s <- get ;;
  let index := open_free_ptr s in
  f <- opt (aget (m_open_files s) index) ;;
  l <- opt (aset (m_open_files s) index (mkOpen fid pg)) ;;
  modify (set_open l (of_ipage f) (w32 (m_open_nr s + 1))) ;;;
  ret index.

(** * Creating *)

(** [InternalCreatreFile]: the error, the inode, its page. *)
Definition InternalCreatreFile (full_path : cstring) (is_dir : bool) : M Fs (ERROR_CODE * Z * option Z) :=
  let '(_, dir_path, file_name) := SplitPath full_path in
  r <- FileOpenInternal dir_path ;;
  let '(parent_fid, pg, _) := r in
  CloseInode pg ;;;
  if is_invalid16 parent_fid then ret (ERR_PARENT_NOT_EXIST, INVALID16, None) else
  parent_page <- ReadNode parent_fid ;;
  file_name <- opt file_name ;;
  f <- FindFile parent_page file_name ;;
  if is_valid16 f then ret (ERR_CREATE_EXIST, INVALID16, None) else
  file_page <- on_pages allocate ;;
  ok <- InitInode file_page (if is_dir then F2FS_FILE_DIR else F2FS_FILE_REG) ;;
  if negb ok then
    CloseInode parent_page ;;; on_pages (free (Some file_page)) ;;;
    ret (ERR_NO_SPACE, INVALID16, None)
  else
  n <- node_of file_page ;;
  let fid := m_nid n in
  ir <- add_link parent_page file_name fid ;;
  if bool_decide (ir <> ERR_OK) then
    CloseInode parent_page ;;; put_node fid ;;; on_pages (free (Some file_page)) ;;;
    ret (ir, INVALID16, None)
  else
  upd_inode file_page (fun i => set_nlink (w32 (nlink i + 1)) i) ;;;
  phy_blk <- UpdateInode file_page ;;
  if is_invalid16 phy_blk then
    CloseInode parent_page ;;; on_pages (free (Some file_page)) ;;; put_node fid ;;;
    ret (ERR_NO_SPACE, INVALID16, None)
  else
  on_nat (set_phy_blk fid phy_blk) ;;;
  on_nat (set_node_cache fid file_page) ;;;
  upd_inode file_page (fun i => set_ref_count (w32 (ref_count i + 1)) i) ;;;
  CloseInode parent_page ;;;
  ir <- sync_fs ;;
  ret (ir, fid, Some file_page).

Definition FileCreate (fn : cstring) : M Fs (ERROR_CODE * Z) :=
  copy_path fn ;;;
  s <- get ;;
  if MAX_OPEN_FILE <=? m_open_nr s then ret (ERR_MAX_OPEN_FILE, INVALID16) else
  r <- InternalCreatreFile fn false ;;
  let '(ir, fid, pg) := r in
  if bool_decide (ir <> ERR_OK) then ret (ir, INVALID16) else
  if is_invalid16 fid then ret (ERR_CREATE, fid) else
  pg <- opt pg ;;
  AddFileToOpenList fid pg ;;;
  ret (ERR_OK, fid).

Definition DirCreate (fn : cstring) : M Fs (ERROR_CODE * Z) :=
  copy_path fn ;;;
  r <- InternalCreatreFile fn true ;;
  let '(ir, fid, pg) := r in
  if bool_decide (ir <> ERR_OK) then ret (ir, INVALID16) else
  if is_invalid16 fid then ret (ERR_CREATE, fid) else
  pg <- opt pg ;;
  upd_inode pg (fun i => set_ref_count (w32 (ref_count i - 1)) i) ;;;
  CloseInode pg ;;;
  ret (ir, fid).

(** * Opening and closing *)
Definition FileOpen (fn : cstring) : M Fs (ERROR_CODE * Z) :=
  copy_path fn ;;;
  r <- FileOpenInternal fn ;;
  let '(fid, pg, _) := r in
  CloseInode pg ;;;
  if is_invalid16 fid then ret (ERR_OPEN_FILE, fid) else
  file <- FindOpenFile fid ;;
  match file with
  | Some i =>
      pg <- open_page i ;;
      upd_inode pg (fun i => set_ref_count (w32 (ref_count i + 1)) i) ;;;
      ret (ERR_OK, fid)
  | None =>
      s <- get ;;
      if MAX_OPEN_FILE <=? m_open_nr s then ret (ERR_MAX_OPEN_FILE, INVALID16) else
      pg <- ReadNode fid ;;
      AddFileToOpenList fid pg ;;;
      upd_inode pg (fun i => set_ref_count (w32 (ref_count i + 1)) i) ;;;
      ret (ERR_OK, fid)
  end.

Definition ForceClose (i : Z) : M Fs unit :=
  ipage <- open_page i ;;
  upd_inode ipage (set_ref_count 0) ;;;
  CloseInode ipage ;;;
  ret tt.

Definition FileClose (fid : Z) : M Fs unit :=
  file <- FindOpenFile fid ;;
  match file with
  | None => throw (FsError ERR_OPEN_FILE)
  | Some i =>
      ipage <- open_page i ;;
      x <- inode_of ipage ;;
      if ref_count x <=? 0 then throw (FsError ERR_OPEN_FILE) else
      upd_inode ipage (set_ref_count (ref_count x - 1)) ;;;
      when (ref_count x - 1 =? 0) (
        s <- get ;;
        l <- opt (aset (m_open_files s) i (mkOpen INVALID16 (open_free_ptr s))) ;;
        modify (set_open l i (w32 (m_open_nr s - 1))) ;;;
        is_dirty <- CloseInode ipage ;;
        when is_dirty (sync_fs ;;; ret tt))
  end.

(** * Data *)
Definition MaxFileSize : Z := MAX_FILE_BLKS - 10.

Definition FileWrite (fid offset len : Z) : M Fs Z :=
  file <- FindOpenFile fid ;;
  match file with
  | None => throw ERR_USER
  | Some i =>
      ipage <- open_page i ;;
      let '(start_blk, end_blk) := OffsetToBlock offset len in
      if MaxFileSize <? end_blk then ret 0 else
      let blk_num := w32 (end_blk - start_blk) in
      pages <- mfold (range start_blk end_blk) [] (fun pages bb =>
        pg <- on_pages allocate ;;
        on_pages (page_upd pg (set_data
          (mkBlock BLOCK_FILE_DATA (U_file (mkFileData fid bb INVALID32))))) ;;;
        ret (pages ++ [pg])) ;;
      written <- FileWriteInternal ipage start_blk end_blk pages false ;;
      mfor (range 0 blk_num) (fun ii => pg <- opt (aget pages ii) ;; on_pages (free (Some pg))) ;;;
      if written =? 0 then ret 0 else
      let end_pos := if start_blk + written <? end_blk
                     then (start_blk + written) * BLOCK_SIZE else w32 (offset + len) in
      x <- inode_of ipage ;;
      when (file_size x <? end_pos) (upd_inode ipage (set_file_size end_pos)) ;;;
      set_dirty_page ipage true ;;;
      ret (w32 (end_pos - offset))
  end.

Definition FileRead (fid offset secs : Z) : M Fs (list FILE_DATA) :=
  file <- FindOpenFile fid ;;
  match file with
  | None => throw ERR_USER
  | Some i =>
      ipage <- open_page i ;;
      x <- inode_of ipage ;;
      let end_secs := w32 (offset + secs) in
      let secs := if file_size x <? end_secs then w32 (file_size x - offset) else secs in
      let '(start_blk, end_blk) := OffsetToBlock offset secs in
      let page_nr := w32 (end_blk - start_blk) in
      check (page_nr <=? MAX_FILE_BLKS) ;;;
      pages <- FileReadInternal ipage start_blk end_blk ;;
      mfold pages [] (fun blks pg =>
        match pg with
        | Some pg =>
            b <- body_at pg ;;
            f <- opt (as_file b) ;;
            on_pages (free (Some pg)) ;;;
            ret (blks ++ [f])
        | None => ret (blks ++ [FILE_DATA_ff])
        end)
  end.

Definition FileTruncate (fid offset len : Z) : M Fs unit :=
  file <- FindOpenFile fid ;;
  match file with
  | None => throw ERR_USER
  | Some i =>
      ipage <- open_page i ;;
      x <- inode_of ipage ;;
      let over := file_size x <? w32 (offset + len) in
      let end_pos := if over then file_size x else w32 (offset + len) in
      let len := if over then w32 (end_pos - offset) else len in
      let '(start_blk, end_blk) := OffsetToBlock offset len in
      FileTruncateInternal ipage start_blk end_blk ;;;
      x <- inode_of ipage ;;
      when (end_pos =? file_size x) (
        upd_inode ipage (set_file_size offset) ;;;
        set_dirty_page ipage true)
  end.

(** * Removing and moving *)
Definition FileDelete (fn : cstring) : M Fs unit :=
  copy_path fn ;;;
  r <- FileOpenInternal fn ;;
  let '(fid, parent_page, file_name) := r in
  if is_invalid16 fid then CloseInode parent_page ;;; throw (FsError ERR_DELETE_FILE) else
  ipage <- ReadNode fid ;;
  match file_name with
  | None => throw ERR_APP
  | Some file_name =>
      unlink fid file_name parent_page ;;;
      upd_inode ipage (fun i => set_nlink (w32 (nlink i - 1)) i) ;;;
      CloseInode ipage ;;;
      CloseInode parent_page ;;;
      ret tt
  end.

Definition DirDelete (fn : cstring) : M Fs ERROR_CODE :=
  copy_path fn ;;;
  r <- FileOpenInternal fn ;;
  let '(fid, parent_page, file_name) := r in
  if is_invalid16 fid then CloseInode parent_page ;;; throw (FsError ERR_DELETE_DIR) else
  ipage <- ReadNode fid ;;
  child_num <- GetChildNumber ipage ;;
  if 0 <? child_num then
    CloseInode ipage ;;; CloseInode parent_page ;;; ret ERR_NON_EMPTY
  else
  match file_name with
  | None => throw ERR_APP
  | Some file_name =>
      unlink fid file_name parent_page ;;;
      upd_inode ipage (fun i => set_nlink (w32 (nlink i - 1)) i) ;;;
      CloseInode ipage ;;;
      CloseInode parent_page ;;;
      ret ERR_OK
  end.

Definition FileMove (src dst : cstring) : M Fs ERROR_CODE :=
  copy_path src ;;;
  r <- FileOpenInternal src ;;
  let '(src_fid, parent_page, src_file_name) := r in
  if is_invalid16 src_fid then ret ERR_PARENT_NOT_EXIST else
  copy_path dst ;;;
  let '(ir, dst_path, dst_fn) := SplitPath dst in
  match dst_fn with
  | None => CloseInode parent_page ;;; ret ir
  | Some dst_fn =>
      r <- FileOpenInternal dst_path ;;
      let '(dst_parent_fid, dst_parent_page, _) := r in
      CloseInode dst_parent_page ;;;
      if is_invalid16 dst_parent_fid
      then CloseInode parent_page ;;; ret ERR_PARENT_NOT_EXIST else
      dst_parent_node <- ReadNode dst_parent_fid ;;
      f <- FindFile dst_parent_node dst_fn ;;
      if is_valid16 f then CloseInode parent_page ;;; ret ERR_CREATE_EXIST else
      ir <- add_link dst_parent_node dst_fn src_fid ;;
      if bool_decide (ir <> ERR_OK) then CloseInode parent_page ;;; ret ir else
      match src_file_name with
      | None => throw ERR_APP
      | Some src_file_name =>
          unlink src_fid src_file_name parent_page ;;;
          CloseInode parent_page ;;;
          ret ERR_OK
      end
  end.

(** * Queries *)
Definition GetFileSize (fid : Z) : M Fs Z :=
  file <- FindOpenFile fid ;;
  match file with
  | None => throw (FsError ERR_OPEN_FILE)
  | Some i => ipage <- open_page i ;; x <- inode_of ipage ;; ret (file_size x)
  end.
(** [GetFileInfo]: size, node blocks, data blocks. *)
Definition GetFileInfo (fid : Z) : M Fs (Z * Z * Z) :=
  pg <- ReadNode fid ;;
  x <- inode_of pg ;;
  ret (file_size x,
       1 + Z.of_nat (length (filter (fun i => i <> INVALID16) (inode_index x))), blk_num x).
Definition GetFsInfo : M Fs FS_INFO :=
  modify (fun s =>
    let i := m_fs_info s in
    let g := fs_segs s in
    let fs := m_free_nr g in
    let fb := get_free_blk_nr g in
    set_info (mkInfo (main_seg_nr i) (main_blk_nr i) (node_nr i) (page_nr i)
      (w32 (main_blk_nr i - fb)) fb (w32 (main_seg_nr i - fs)) fs (host_write i)
      (bs_media_num (m_storage s)) (w16 (free_nr (fs_nat s))) (gc_count i)
      (free_page_nr (fs_pages s))) s) ;;;
  gets m_fs_info.

(** [GetFileDirNum]: files and directories below an inode.  The tree of
    directories is followed to a depth of [fuel]. *)
Fixpoint GetFileDirNum (fuel : nat) (fid : Z) : M Fs (Z * Z) :=
  match fuel with
  | O => fault
  | S fuel =>
      n <- ReadNodeNoCache fid ;;
      x <- opt (as_inode (node_body n)) ;;
      if negb (file_type x =? F2FS_FILE_DIR) then ret (1, 0) else
      mfold (inode_index x) (0, 1) (fun acc index_nid =>
        if is_invalid16 index_nid then ret acc else
        m <- ReadNodeNoCache index_nid ;;
        y <- opt (as_index (node_body m)) ;;
        mfold (index_index y) acc (fun acc data_blk =>
          if is_invalid16 data_blk then ret acc else
          d <- ReadBlockNoCache data_blk ;;
          if negb (m_type d =? BLOCK_DENTRY) then throw (FsError ERR_WRONG_BLOCK_TYPE) else
          b <- opt (as_dentry (body d)) ;;
          mfold (dentries b) acc (fun acc e =>
            if is_invalid16 (de_ino e) then ret acc else
            sub <- GetFileDirNum fuel (de_ino e) ;;
            ret (w32 (acc.1 + sub.1), w32 (acc.2 + sub.2)))))
  end.

(** * Format, mount, reset *)
Definition SanityCheckConfig : M Fs unit :=
  if SIT_ENTRY_PER_BLK * SIT_BLK_NR <? MAIN_SEG_NR then throw ERR_APP else
  if NAT_BLK_NR * NAT_ENTRY_PER_BLK <? NODE_NR then throw ERR_APP else
  if MAIN_SEG_OFFSET * BLOCK_PER_SEG <? END_META_BLK then throw ERR_APP else ret tt.

Definition FS_INFO_new : FS_INFO :=
  mkInfo MAIN_SEG_NR (MAIN_SEG_NR * BLOCK_PER_SEG) NODE_NR MAX_PAGE_NUM
    0 (MAIN_SEG_NR * BLOCK_PER_SEG) 0 MAIN_SEG_NR 0 0 0 0 0.

(** [Initialzie]; the arguments are the two numbers it takes from its
    configuration. *)
Definition Initialzie (multi_header_num op_segments : Z) : M Fs unit :=
  SanityCheckConfig ;;;
  modify (set_config multi_header_num op_segments) ;;;
  modify (set_info FS_INFO_new) ;;;
  on_store bs_initialize ;;;
  on_segs InitSegmentManager ;;;
  on_pages (modify pages_Init) ;;;
  nat_Init ;;;
  InitOpenList ;;;
  root_page <- on_pages allocate ;;
  ok <- InitInode root_page F2FS_FILE_DIR ;;
  if negb ok then throw (FsError ERR_GENERAL) else
  n <- node_of root_page ;;
  put_node_body root_page (mkNode ROOT_FID ROOT_FID (page_id n) (node_body n)) ;;;
  on_pages (page_upd root_page (fun p => set_addr ROOT_FID (offset p) p)) ;;;
  upd_inode root_page (set_ref_count 1) ;;;
  on_nat (set_node_cache ROOT_FID root_page) ;;;
  root_phy <- UpdateInode root_page ;;
  if is_invalid16 root_phy then throw (FsError ERR_GENERAL) else
  on_nat (set_phy_blk ROOT_FID root_phy) ;;;
  store_write CKPT_START_BLK (mkBlock BLOCK_CKPT_HEADER U_zero) ;;;
  store_write (CKPT_START_BLK + CKPT_BLK_NR) (mkBlock BLOCK_CKPT_HEADER U_zero) ;;;
  on_ckpt (put (set_header (set_vers 1 1 CKPT_HEAD_zero) CKPT_BLOCK_zero)) ;;;
  modify (set_cur_ckpt 1) ;;;
  SyncSSA ;;;
  SyncSIT ;;;
  on_segs reset_dirty_map ;;;
  nat_Sync ;;;
  f2fs_write_checkpoint.

Definition Mount : M Fs unit :=
  load_checkpoint ;;;
  segs_Load ;;;
  nat_Load ;;;
  pg <- ReadNode ROOT_FID ;;
  upd_inode pg (set_ref_count 1) ;;;
  n <- node_of pg ;;
  on_nat (set_node_cache (m_nid n) pg).

Definition Unmount : M Fs unit :=
  mfor (range 0 MAX_OPEN_FILE) (fun ii =>
    f <- open_file_at ii ;;
    when (is_valid16 (of_ino f)) (ForceClose ii)) ;;;
  sync_fs ;;;
  ret tt.

Definition Reset (rollback : Z) : M Fs unit :=
  on_store (bs_rollback rollback) ;;;
  InitOpenList ;;;
  on_segs segs_Reset ;;;
  on_nat nat_Reset ;;;
  on_pages (modify pages_Reset).

(** A simulator that has only been constructed, on the medium [st]. *)
Definition simulator_new (st : St) : Fs :=
  mkFs CKPT_BLOCK_zero
    (mkSegs (rep MAIN_SEG_NR SegmentInfo_ff) (rep BT_TEMP_NR CURSEG_ff) (rep SIT_BLK_NR 0)
       INVALID16 INVALID16 0 0 INVALID16 INVALID32)
    (mkNat (rep NODE_NR INVALID32) 0 (rep NODE_NR INVALID16) (rep NAT_BLK_NR 0) 0)
    st (mkInfo 0 0 0 0 0 0 0 0 0 0 0 0 0) pages_new [] 0 0 0 0 0 0 0 page_local.
End Simulator.

(** [InternalCopyFrom], on the shared pool of storages.  The checkpoint counter
    of [fsck] is not copied. *)
Definition InternalCopyFrom (src : CF2fsSimulator StorageState) : M (CF2fsSimulator StorageState) unit :=
  s <- get ;;
  put (mkFs (m_checkpoint s) (fs_segs s) (fs_nat s) (m_storage s) (m_fs_info src) (fs_pages src)
         (m_open_files s) (open_free_ptr s) (m_open_nr s) (m_multihead_cnt src)
         (m_node_blks src) (m_op_segs s) (m_cur_ckpt s) (m_health_ckpt s) (gc_page s)) ;;;
  on_segs (segs_CopyFrom (fs_segs src)) ;;;
  on_store (CopyFrom (m_storage src).2) ;;;
  on_nat (nat_CopyFrom (fs_nat src)) ;;;
  modify (set_open (m_open_files src) (open_free_ptr src) (m_open_nr src)) ;;;
  on_ckpt (put (m_checkpoint src)) ;;;
  modify (fun s => set_config (m_multihead_cnt s) (m_op_segs src) s) ;;;
  modify (set_cur_ckpt (m_cur_ckpt src)).
