(* ===== verification/Fsck.v ===== *)
(** Fsck: the consistency check and its repairs, fsck.cpp.

    The state is the simulator with the bitmaps of the check.  The path of the
    file being checked is kept by the code for its log messages only and is
    left out. *)
From S2P Require Export Simulator.

Record F2FS_FSCK := mkFsck {
  sit_valid_seg : Z; sit_valid_blk : Z; nat_valid_node : Z;
  main_area_map : list Z; sit_area_map : list Z; nat_area_map : list Z; node_map : list Z;
  fixed : bool; need_to_fix : bool
}.

Definition MAP_WORDS : Z := SEG_NUM * BLOCK_PER_SEG / 32.

(** [fsck_init] *)
Definition FSCK_new (fix_ : bool) : F2FS_FSCK :=
  mkFsck 0 0 0 (rep (MAP_WORDS + 1) 0) (rep (MAP_WORDS + 1) 0)
    (rep (NODE_NR / 32 + 1) 0) (rep (NODE_NR / 32 + 1) 0) false fix_.

(** [set_bitmap], [test_bitmap] of fsck.cpp.  The first returns the word as it
    was before. *)
Definition bm_set (bmp : list Z) (offset : Z) : option (list Z * Z) :=
  let index := Z.shiftr offset 5 in
  if negb (index <? MAP_WORDS) then None else
  w ← aget bmp index;
  l ← aset bmp index (Z.lor w (mask (Z.land offset 31)));
  Some (l, w).
Definition bm_test (bmp : list Z) (offset : Z) : option Z :=
  let index := Z.shiftr offset 5 in
  if negb (index <? MAP_WORDS) then None else
  w ← aget bmp index;
  Some (Z.land w (mask (Z.land offset 31))).

Section Fsck.
Context {St : Type} `{BlockStore St} `{External}.
Abbreviation Fs := (CF2fsSimulator St).
Abbreviation S2 := (Fs * F2FS_FSCK)%type.

Definition on_fs {A} : M Fs A -> M S2 A := zoom fst (fun f s => (f, s.2)).
Definition get_fsck : M S2 F2FS_FSCK := gets snd.
Definition put_fsck (k : F2FS_FSCK) : M S2 unit := modify (fun s => (s.1, k)).
Definition upd_fsck (f : F2FS_FSCK -> F2FS_FSCK) : M S2 unit := modify (fun s => (s.1, f s.2)).

Definition set_main_map (l : list Z) (k : F2FS_FSCK) : F2FS_FSCK :=
  mkFsck (sit_valid_seg k) (sit_valid_blk k) (nat_valid_node k) l (sit_area_map k)
    (nat_area_map k) (node_map k) (fixed k) (need_to_fix k).
Definition set_sit_map (l : list Z) (n : Z) (k : F2FS_FSCK) : F2FS_FSCK :=
  mkFsck (sit_valid_seg k) n (nat_valid_node k) (main_area_map k) l
    (nat_area_map k) (node_map k) (fixed k) (need_to_fix k).
Definition set_nat_map (l : list Z) (n : Z) (k : F2FS_FSCK) : F2FS_FSCK :=
  mkFsck (sit_valid_seg k) (sit_valid_blk k) n (main_area_map k) (sit_area_map k)
    l (node_map k) (fixed k) (need_to_fix k).
Definition set_node_map (l : list Z) (k : F2FS_FSCK) : F2FS_FSCK :=
  mkFsck (sit_valid_seg k) (sit_valid_blk k) (nat_valid_node k) (main_area_map k)
    (sit_area_map k) (nat_area_map k) l (fixed k) (need_to_fix k).
Definition set_valid_seg (n : Z) (k : F2FS_FSCK) : F2FS_FSCK :=
  mkFsck n (sit_valid_blk k) (nat_valid_node k) (main_area_map k) (sit_area_map k)
    (nat_area_map k) (node_map k) (fixed k) (need_to_fix k).
Definition set_fixed (k : F2FS_FSCK) : F2FS_FSCK :=
  mkFsck (sit_valid_seg k) (sit_valid_blk k) (nat_valid_node k) (main_area_map k)
    (sit_area_map k) (nat_area_map k) (node_map k) true (need_to_fix k).

Definition f2fs_test_main_bitmap (blk : Z) : M S2 Z :=
  k <- get_fsck ;; opt (bm_test (main_area_map k) blk).
Definition f2fs_set_main_bitmap (blk : Z) : M S2 Z :=
  k <- get_fsck ;; r <- opt (bm_set (main_area_map k) blk) ;; put_fsck (set_main_map r.1 k) ;;; ret r.2.
Definition f2fs_set_nat_bitmap (nid : Z) : M S2 Z :=
  k <- get_fsck ;; r <- opt (bm_set (nat_area_map k) nid) ;;
  put_fsck (set_nat_map r.1 (nat_valid_node k) k) ;;; ret r.2.
Definition f2fs_test_node_bitmap (nid : Z) : M S2 Z :=
  k <- get_fsck ;; opt (bm_test (node_map k) nid).
Definition f2fs_set_node_bitmap (nid : Z) : M S2 Z :=
  k <- get_fsck ;; r <- opt (bm_set (node_map k) nid) ;; put_fsck (set_node_map r.1 k) ;;; ret r.2.

(** * The tables *)
Definition fsck_chk_metadata : M S2 unit :=
  valid_seg_nr <- mfold (range 0 MAIN_SEG_NR) 0 (fun valid_seg_nr ii =>
    seg <- on_fs (on_segs (get_segment ii)) ;;
    seg_valid_blk <- mfold (range 0 BLOCK_PER_SEG) 0 (fun n bb =>
      if test_bitmap (valid_bmp seg) bb =? 0 then ret n else
      k <- get_fsck ;;
      r <- opt (bm_set (sit_area_map k) (ii * BLOCK_PER_SEG + bb)) ;;
      put_fsck (set_sit_map r.1 (w32 (sit_valid_blk k + 1)) k) ;;;
      ret (n + 1)) ;;
    if negb (seg_valid_blk =? valid_blk_nr seg) then throw (FsError ERR_SIT_MISMATCH) else
    c <- on_fs (on_segs (cur_seg_no (seg_temp seg))) ;;
    ret (if (c =? ii) || negb (valid_blk_nr seg =? 0) then valid_seg_nr + 1 else valid_seg_nr)) ;;
  s <- get ;;
  if negb (valid_seg_nr + m_free_nr (fs_segs s.1) =? MAIN_SEG_NR)
  then throw (FsError ERR_SIT_MISMATCH) else
  upd_fsck (set_valid_seg valid_seg_nr) ;;;
  valid_node_nr <- mfold (range 0 NODE_NR) 0 (fun n nn =>
    blk <- on_fs (on_nat (get_phy_blk nn)) ;;
    if is_invalid16 blk then ret n else
    f2fs_set_nat_bitmap nn ;;; ret (n + 1)) ;;
  upd_fsck (fun k => set_nat_map (nat_area_map k) valid_node_nr k).

(** * The tree

    A node is checked at most once (its bit is tested and set first), so a
    depth of [NODE_NR + 1] is never exhausted. *)

(** The two repairs of the owner recorded for a block. *)
Definition chk_owner (nid offset blk : Z) : M S2 unit :=
  o <- on_fs (on_segs (GetBlockInfo blk)) ;;
  if negb (o.1 =? nid) || negb (o.2 =? offset) then
    k <- get_fsck ;;
    if need_to_fix k then on_fs (on_segs (SetBlockInfo nid offset blk)) ;;; upd_fsck set_fixed
    else throw (FsError ERR_LOST_BLK)
  else ret tt.

Section Rec.
Context (chk_node : Z -> Z -> Z -> M S2 Z).

Definition fsck_chk_data_blk (nid offset blk file_type : Z) : M S2 unit :=
  if MAIN_BLK_NR <=? blk then throw (FsError ERR_INVALID_BLK) else
  t <- f2fs_test_main_bitmap blk ;;
  if negb (t =? 0) then throw (FsError ERR_DOUBLED_BLK) else
  f2fs_set_main_bitmap blk ;;;
  chk_owner nid offset blk ;;;
  if negb (file_type =? F2FS_FILE_DIR) then ret tt else
  pg <- on_fs (on_pages allocate) ;;
  on_fs (read_page (phyblk_to_lba blk) (InCache pg)) ;;;
  d <- on_fs (data_at pg) ;;
  if negb (m_type d =? BLOCK_DENTRY)
  then on_fs (on_pages (free (Some pg))) ;;; throw (FsError ERR_WRONG_BLOCK_TYPE) else
  mfor (range 0 DENTRY_PER_BLOCK) (fun ii =>
    b <- on_fs (dentry_of pg) ;;
    e <- opt (aget (dentries b) ii) ;;
    if is_invalid16 (de_ino e) then ret tt
    else chk_node (de_ino e) F2FS_FILE_UNKNOWN BLOCK_INODE ;;; ret tt) ;;;
  on_fs (on_pages (free (Some pg))).

Definition fsck_chk_index_blk (nid blk file_type : Z) (x : INDEX_NODE) : M S2 Z :=
  f2fs_set_main_bitmap blk ;;;
  valid_index <- mfold (range 0 INDEX_SIZE) 0 (fun n ii =>
    data_blk <- opt (aget (index_index x) ii) ;;
    if is_invalid16 data_blk then ret n else
    fsck_chk_data_blk nid ii data_blk file_type ;;; ret (n + 1)) ;;
  if negb (valid_data x =? valid_index) then throw (FsError ERR_INVALID_NID)
  else ret valid_index.

Definition fsck_chk_inode_blk (blk : Z) (n : NODE_INFO) (x : INODE) : M S2 unit :=
  f2fs_set_main_bitmap blk ;;;
  if negb (m_ino n =? m_nid n) then throw (FsError ERR_INVALID_NID) else
  blk_cnt <- mfold (range 0 INDEX_TABLE_SIZE) 0 (fun cnt ii =>
    index_nid <- opt (aget (inode_index x) ii) ;;
    if is_invalid16 index_nid then ret cnt else
    c <- chk_node index_nid (file_type x) BLOCK_INDEX ;; ret (w32 (cnt + c))) ;;
  if negb (blk_num x =? blk_cnt) then throw (FsError ERR_INVALID_NID) else ret tt.
End Rec.

(** The result is what the call adds to the caller's block count.  The node
    is read from the page as the loops of the code go on. *)
Fixpoint fsck_chk_node_blk (fuel : nat) (nid file_type block_type : Z) : M S2 Z :=
  match fuel with
  | O => fault
  | S fuel =>
      if NODE_NR <=? nid then throw (FsError ERR_INVALID_NID) else
      t <- f2fs_test_node_bitmap nid ;;
      if negb (t =? 0) then throw (FsError ERR_DOUBLED_NID) else
      f2fs_set_node_bitmap nid ;;;
      blk <- on_fs (on_nat (get_phy_blk nid)) ;;
      if MAIN_BLK_NR <=? blk then throw (FsError ERR_LOST_NID) else
      t <- f2fs_test_main_bitmap blk ;;
      if negb (t =? 0) then throw (FsError ERR_DOUBLED_BLK) else
      let '(seg_no, blk_no) := BlockToSeg blk in
      seg <- on_fs (on_segs (get_segment seg_no)) ;;
      if test_bitmap (valid_bmp seg) blk_no =? 0 then throw (FsError ERR_SIT_MISMATCH) else
      chk_owner nid INVALID16 blk ;;;
      pg <- on_fs (on_pages allocate) ;;
      on_fs (read_page (phyblk_to_lba blk) (InCache pg)) ;;;
      d <- on_fs (data_at pg) ;;
      if negb (m_type d =? block_type)
      then on_fs (on_pages (free (Some pg))) ;;; throw (FsError ERR_WRONG_BLOCK_TYPE) else
      n <- opt (as_node (body d)) ;;
      if negb (m_nid n =? nid)
      then on_fs (on_pages (free (Some pg))) ;;; throw (FsError ERR_INVALID_NID) else
      r <- (if block_type =? BLOCK_INODE then
              x <- opt (as_inode (node_body n)) ;;
              fsck_chk_inode_blk (fsck_chk_node_blk fuel) blk n x ;;; ret 0
            else if block_type =? BLOCK_INDEX then
              x <- opt (as_index (node_body n)) ;;
              fsck_chk_index_blk (fsck_chk_node_blk fuel) nid blk file_type x
            else on_fs (on_pages (free (Some pg))) ;;; throw (FsError ERR_WRONG_BLOCK_TYPE)) ;;
      on_fs (on_pages (free (Some pg))) ;;;
      ret r
  end.

(** * What the tree did not reach *)
Definition fsck_verify : M S2 unit :=
  mfor (range 0 NODE_NR) (fun nn =>
    blk <- on_fs (on_nat (get_phy_blk nn)) ;;
    if is_invalid16 blk then ret tt else
    t <- f2fs_test_node_bitmap nn ;;
    when (t =? 0) (
      k <- get_fsck ;;
      if need_to_fix k then on_fs (put_node nn) ;;; upd_fsck set_fixed
      else throw (FsError ERR_DEAD_NID))) ;;;
  mfor (range 0 MAIN_SEG_NR) (fun ii =>
    g <- on_fs (on_segs (seg_at ii)) ;;
    if valid_blk_nr g =? 0 then ret tt else
    mfor (range 0 BLOCK_PER_SEG) (fun bb =>
      g <- on_fs (on_segs (seg_at ii)) ;;
      if test_bitmap (valid_bmp g) bb =? 0 then ret tt else
      t <- f2fs_test_main_bitmap (PhyBlock ii bb) ;;
      when (t =? 0) (
        k <- get_fsck ;;
        if need_to_fix k
        then on_fs (on_segs (InvalidBlock_at ii bb)) ;;; upd_fsck set_fixed
        else throw (FsError ERR_DEAD_BLK)))).

(** The checks between the mount and the write back. *)
Definition fsck_check : M S2 unit :=
  fsck_chk_metadata ;;;
  fsck_chk_node_blk (Z.to_nat (NODE_NR + 1)) ROOT_FID F2FS_FILE_DIR BLOCK_INODE ;;;
  fsck_verify.

Definition fsck (fix_ : bool) : M Fs ERROR_CODE := fun s =>
  match (on_fs Mount ;;;
         put_fsck (FSCK_new fix_) ;;;
         fsck_check ;;;
         s <- get ;;
         ir <- (if fixed s.2 || (m_health_ckpt s.1 <? 2) then
                  ir <- on_fs sync_fs ;;
                  if bool_decide (ir <> ERR_OK) then throw (FsError ir) else ret ir
                else ret ERR_OK) ;;
         on_fs (on_segs segs_Reset) ;;;
         on_fs (on_nat nat_Reset) ;;;
         on_fs (on_pages (modify pages_Reset)) ;;;
         ret ir) (s, FSCK_new fix_) with
  | (r, s') => (r, s'.1)
  end.
End Fsck.
