(* ===== verification/FsckInv.v ===== *)
(** FsckInv: a volume that the consistency check accepts without repairs is
    consistent: what the tree of nodes reaches, what the node address table
    allocates and what the segment table calls valid are the same. *)
From S2P Require Export Fsck FileInv.

(** * The bitmaps of the check *)
Definition bit_at (bmp : list Z) (i : Z) : Prop :=
  0 <= i /\ exists w, aget bmp (Z.shiftr i 5) = Some w /\ Z.testbit w (Z.land i 31) = true.

Lemma word_of i : 0 <= i -> Z.shiftr i 5 = i / 32 /\ Z.land i 31 = i mod 32.
Proof.
  intros H. split; [by rewrite Z.shiftr_div_pow2 by lia|].
  change 31 with (Z.ones 5). by rewrite Z.land_ones by lia.
Qed.
Lemma bm_index_nonneg (bmp : list Z) i w : aget bmp (Z.shiftr i 5) = Some w -> 0 <= i.
Proof.
  intros [H _]%aget_bounds. destruct (Z.le_gt_cases 0 i) as [|Hn]; [done|].
  rewrite Z.shiftr_div_pow2 in H by lia. pose proof (Z.div_lt_upper_bound i (2 ^ 5) 0 ltac:(lia) ltac:(lia)). lia.
Qed.
Lemma bm_set_bits bmp i l w j : bm_set bmp i = Some (l, w) -> bit_at l j <-> bit_at bmp j \/ j = i.
Proof.
  unfold bm_set. destruct (Z.shiftr i 5 <? MAP_WORDS); [|done]. cbn [negb].
  destruct (aget bmp (Z.shiftr i 5)) as [v|] eqn:Hv; [|done]. cbn [mbind option_bind].
  pose proof (bm_index_nonneg _ _ _ Hv) as Hi. pose proof (aget_bounds _ _ _ Hv) as Hb.
  rewrite aset_is_Some by done. cbn [mbind option_bind]. intros [= <- <-].
  destruct (word_of i Hi) as [Ei1 Ei2]. rewrite Ei1, Ei2 in *.
  pose proof (Z.mod_pos_bound i 32 ltac:(lia)). unfold bit_at. split.
  - intros (Hj & u & Hu & Ht). destruct (word_of j Hj) as [Ej1 Ej2]. rewrite Ej1, Ej2 in *.
    pose proof (Z.mod_pos_bound j 32 ltac:(lia)). destruct (decide (j / 32 = i / 32)) as [E|Hne].
    + rewrite E, aget_insert_eq in Hu by done. injection Hu as <-. rewrite testbit_lor_mask in Ht by lia.
      apply orb_true_iff in Ht as [Ht|Ht%Z.eqb_eq].
      * left. split; [done|]. exists v. by rewrite E.
      * right. pose proof (Z.div_mod i 32 ltac:(lia)). pose proof (Z.div_mod j 32 ltac:(lia)). lia.
    + rewrite aget_insert_ne in Hu by lia. left. split; [done|]. by exists u.
  - intros Hor. assert (Hj : 0 <= j) by (destruct Hor as [[? _]| ->]; done). split; [done|].
    destruct (word_of j Hj) as [Ej1 Ej2]. rewrite Ej1, Ej2 in *.
    pose proof (Z.mod_pos_bound j 32 ltac:(lia)). destruct (decide (j / 32 = i / 32)) as [E|Hne].
    + rewrite E, aget_insert_eq by done. eexists. split; [done|]. rewrite testbit_lor_mask by lia.
      destruct Hor as [(_ & u & Hu & Ht)| ->]; [|by rewrite Z.eqb_refl, orb_true_r].
      rewrite E, Hv in Hu. injection Hu as <-. by rewrite Ht.
    + rewrite aget_insert_ne by lia. destruct Hor as [(_ & H')| ->]; [exact H'|done].
Qed.
Lemma bm_test_bit bmp i t : bm_test bmp i = Some t -> (t =? 0) = false <-> bit_at bmp i.
Proof.
  unfold bm_test. destruct (Z.shiftr i 5 <? MAP_WORDS); [|done]. cbn [negb].
  destruct (aget bmp (Z.shiftr i 5)) as [v|] eqn:Hv; [|done]. cbn [mbind option_bind]. intros [= <-].
  pose proof (bm_index_nonneg _ _ _ Hv) as Hi. destruct (word_of i Hi) as [_ E].
  pose proof (Z.mod_pos_bound i 32 ltac:(lia)). rewrite land_mask by lia. unfold bit_at. rewrite Hv. split.
  - intros Ht%negb_false_iff. split; [done|]. by exists v.
  - intros (_ & w & [= <-] & Ht). by rewrite Ht.
Qed.
Lemma bm_zero n i : ~ bit_at (rep n 0) i.
Proof.
  intros (_ & w & [_ Hw]%aget_Some & Ht). apply lookup_replicate in Hw as [-> _]. by rewrite Z.bits_0 in Ht.
Qed.

(** * What the medium says *)
Section Volume.
Context (g : Segs) (nat : NatT) (l : wlog).

(** The node [nid] on the medium, in a block of type [ty]. *)
Definition disk_node (nid ty : Z) (n : NODE_INFO) : Prop :=
  exists blk d, aget (nat_table nat) nid = Some blk /\ log_read (phyblk_to_lba blk) l = Some d /\
    m_type d = ty /\ body d = U_node n.
(** A reference to a node: its number, the type of the file it belongs to and
    the type its block must have. *)
Definition noderef : Type := Z * Z * Z.
(** Entry [off] of the index block of a reference. *)
Definition data_entry (r : noderef) (off blk : Z) : Prop :=
  r.2 = BLOCK_INDEX /\ exists n x, disk_node r.1.1 BLOCK_INDEX n /\ as_index (node_body n) = Some x /\
    0 <= off < INDEX_SIZE /\ aget (index_index x) off = Some blk /\ blk <> INVALID16.
(** The references a node holds: an inode's to its index blocks, a directory's
    entries to inodes. *)
Inductive edge : noderef -> noderef -> Prop :=
  | edge_index nid fty n x ii k :
      disk_node nid BLOCK_INODE n -> as_inode (node_body n) = Some x ->
      0 <= ii < INDEX_TABLE_SIZE -> aget (inode_index x) ii = Some k -> k <> INVALID16 ->
      edge (nid, fty, BLOCK_INODE) (k, file_type x, BLOCK_INDEX)
  | edge_entry nid off blk d b ii e :
      data_entry (nid, F2FS_FILE_DIR, BLOCK_INDEX) off blk ->
      log_read (phyblk_to_lba blk) l = Some d -> as_dentry (body d) = Some b ->
      0 <= ii < DENTRY_PER_BLOCK -> aget (dentries b) ii = Some e -> de_ino e <> INVALID16 ->
      edge (nid, F2FS_FILE_DIR, BLOCK_INDEX) (de_ino e, F2FS_FILE_UNKNOWN, BLOCK_INODE).
Definition root : noderef := (ROOT_FID, F2FS_FILE_DIR, BLOCK_INODE).
Definition reachable (r : noderef) : Prop := rtc edge root r.

(** The entries of an index block in use, and the blocks of a file. *)
Definition is_entry (x : INDEX_NODE) (off : Z) : bool :=
  match aget (index_index x) off with Some blk => negb (blk =? INVALID16) | None => false end.
Definition entry_count (x : INDEX_NODE) : Z := Z.of_nat (length (filter (is_entry x) (range 0 INDEX_SIZE))).
Definition node_blks (nid : Z) : Z :=
  match aget (nat_table nat) nid with
  | Some blk =>
      match log_read (phyblk_to_lba blk) l with
      | Some d => match as_node (body d) with
                  | Some n => match node_body n with N_index x => valid_data x | N_inode _ => 0 end
                  | None => 0
                  end
      | None => 0
      end
  | None => 0
  end.
Definition slot_blks (x : INODE) (c ii : Z) : Z :=
  match aget (inode_index x) ii with
  | Some k => if k =? INVALID16 then c else w32 (c + node_blks k)
  | None => c
  end.
Definition file_blks (x : INODE) : Z := foldl (slot_blks x) 0 (range 0 INDEX_TABLE_SIZE).

(** A block that is referenced is in use by its owner; a block of a directory
    holds entries. *)
Record data_good (nid fty off blk : Z) : Prop := {
  dg_range : 0 <= blk < MAIN_BLK_NR;
  dg_live : blk_live g blk;
  dg_owner : owner_of g blk = Some (nid, off);
  dg_dir : fty = F2FS_FILE_DIR -> exists d, log_read (phyblk_to_lba blk) l = Some d /\ m_type d = BLOCK_DENTRY
}.
(** A node that is referenced is allocated, its block is in use by it and holds
    it, and its counts are right. *)
Record node_good (r : noderef) : Prop := {
  ng_block : exists blk, aget (nat_table nat) r.1.1 = Some blk /\ 0 <= blk < MAIN_BLK_NR /\
    blk_live g blk /\ owner_of g blk = Some (r.1.1, INVALID16);
  ng_node : exists n, disk_node r.1.1 r.2 n /\ m_nid n = r.1.1 /\
    (r.2 = BLOCK_INODE -> m_ino n = r.1.1 /\ exists x, as_inode (node_body n) = Some x /\ blk_num x = file_blks x) /\
    (r.2 = BLOCK_INDEX -> exists x, as_index (node_body n) = Some x /\ valid_data x = entry_count x);
  ng_type : r.2 = BLOCK_INODE \/ r.2 = BLOCK_INDEX;
  ng_data off blk : data_entry r off blk -> data_good r.1.1 r.1.2 off blk
}.
Definition subtree (r : noderef) : Prop := forall r', rtc edge r r' -> node_good r'.

Lemma subtree_intro r : node_good r -> (forall r', edge r r' -> subtree r') -> subtree r.
Proof. intros Hg Hs r' [->|(r1 & H1 & H2)]%rtc_inv; [done|]. by apply (Hs r1). Qed.
Lemma reachable_edge r r' : reachable r -> edge r r' -> reachable r'.
Proof. intros H He. by eapply rtc_r. Qed.
Lemma disk_node_inj nid ty ty' n n' : disk_node nid ty n -> disk_node nid ty' n' -> n = n' /\ ty = ty'.
Proof. intros (b & d & H1 & H2 & H3 & H4) (b' & d' & H1' & H2' & H3' & H4'). simplify_eq. split; congruence. Qed.

(** A block the tree uses, for a node or for data. *)
Definition blk_reached (blk : Z) : Prop :=
  (exists r, reachable r /\ aget (nat_table nat) r.1.1 = Some blk) \/
  (exists r off, reachable r /\ data_entry r off blk).
Definition nid_reached (nid : Z) : Prop := exists r, reachable r /\ r.1.1 = nid.

(** The volume is consistent. *)
Record consistent : Prop := {
  cs_tree r : reachable r -> node_good r;
  cs_nodes nid blk : 0 <= nid < NODE_NR -> aget (nat_table nat) nid = Some blk -> blk <> INVALID16 -> nid_reached nid;
  cs_blocks blk : 0 <= blk < MAIN_BLK_NR -> blk_live g blk -> blk_reached blk;
  cs_counts seg s : 0 <= seg < MAIN_SEG_NR -> aget (m_segments g) seg = Some s ->
    valid_blk_nr s = popcount BLOCK_PER_SEG (valid_bmp s)
}.
End Volume.

(** * One step of the check *)
Section Check.
Context {St : Type} `{HB : BlockStore St, HL : !BlockStoreLaws St} `{HE : External}.
Abbreviation Fs := (CF2fsSimulator St).
Abbreviation S2 := (Fs * F2FS_FSCK)%type.
Context (g : Segs) (nat : NatT) (l : wlog).
Abbreviation edge := (edge nat l).
Abbreviation reachable := (reachable nat l).
Abbreviation subtree := (subtree g nat l).
Abbreviation any := (fun (_ : exn) (_ : S2) => True).

(** The tables and the medium stay, repairs are off, and the marks are on
    things the tree uses. *)
Record checking (s : S2) : Prop := {
  ck_segs : fs_segs s.1 = g;
  ck_nat : fs_nat s.1 = nat;
  ck_store : bs_rep (m_storage s.1) l;
  ck_pages : exists fl, pages_wf (fs_pages s.1) fl;
  ck_fix : need_to_fix s.2 = false;
  ck_nodes nid : bit_at (node_map s.2) nid -> nid_reached nat l nid;
  ck_blks blk : bit_at (main_area_map s.2) blk -> blk_reached nat l blk
}.
(** The pages in use stay as they are. *)
Definition kept (s t : S2) : Prop :=
  forall y p, aget (m_pages (fs_pages s.1)) y = Some p -> in_use p = true -> aget (m_pages (fs_pages t.1)) y = Some p.
#[local] Instance kept_preorder : PreOrder kept.
Proof. split; [by intros s y p|]. intros s t u H1 H2 y p Hp Hu. apply H2; [by apply H1|done]. Qed.
Definition step (s : S2) (F : Prop) (t : S2) : Prop := checking t /\ kept s t /\ F.

Lemma wlp_on_fs {A} (m : M Fs A) Q (s : S2) :
  wlp m (fun a f => Q a (f, s.2)) (fun _ _ => True) s.1 -> wlp (on_fs m) Q any s.
Proof. intros H. apply wlp_zoom. eapply wlp_mono; [exact H|done|done]. Qed.
Lemma wlp_value {A} (m : M S2 A) (s : S2) (r : outcome A) Q : m s = (r, s) ->
  (forall a, r = Ret a -> Q a s) -> wlp m Q any s.
Proof. intros H HQ. unfold wlp. rewrite H. destruct r; [by apply HQ|done|done]. Qed.

Lemma wlp_fs_runs {A B} (m : M Fs A) (k : A -> M S2 B) Q (s : S2) a f :
  runs m s.1 a f -> wlp (k a) Q any (f, s.2) -> wlp (bind (on_fs m) k) Q any s.
Proof. unfold runs, wlp, bind, on_fs, zoom. by intros ->. Qed.
Lemma wlp_fs_throws {A B} (m : M Fs A) (k : A -> M S2 B) Q (s : S2) e f :
  throws m s.1 e f -> wlp (bind (on_fs m) k) Q any s.
Proof. unfold throws, wlp, bind, on_fs, zoom. by intros ->. Qed.

Lemma test_main s blk (Q : Z -> S2 -> Prop) :
  (forall t, (t =? 0) = false <-> bit_at (main_area_map s.2) blk -> Q t s) ->
  wlp (f2fs_test_main_bitmap (St := St) blk) Q any s.
Proof.
  intros H. unfold f2fs_test_main_bitmap, get_fsck. wlp_steps.
  destruct (bm_test (main_area_map s.2) blk) as [t|] eqn:E; [|done]. by apply H, bm_test_bit.
Qed.
Lemma test_node s nid (Q : Z -> S2 -> Prop) :
  (forall t, (t =? 0) = false <-> bit_at (node_map s.2) nid -> Q t s) ->
  wlp (f2fs_test_node_bitmap (St := St) nid) Q any s.
Proof.
  intros H. unfold f2fs_test_node_bitmap, get_fsck. wlp_steps.
  destruct (bm_test (node_map s.2) nid) as [t|] eqn:E; [|done]. by apply H, bm_test_bit.
Qed.
Lemma set_main s blk : checking s -> blk_reached nat l blk ->
  wlp (f2fs_set_main_bitmap (St := St) blk) (fun _ => step s True) any s.
Proof.
  intros H Hb. unfold f2fs_set_main_bitmap, get_fsck. wlp_steps.
  apply wlp_opt. intros [m w] E. unfold put_fsck. wlp_steps. split; [|split; [by intros y p|done]]. destruct H. constructor; try done. cbn.
  intros b [Hm| ->]%(bm_set_bits _ _ _ _ _ E); [by apply ck_blks0|done].
Qed.
Lemma set_node s nid : checking s -> nid_reached nat l nid ->
  wlp (f2fs_set_node_bitmap (St := St) nid) (fun _ => step s True) any s.
Proof.
  intros H Hn. unfold f2fs_set_node_bitmap, get_fsck. wlp_steps.
  apply wlp_opt. intros [m w] E. unfold put_fsck. wlp_steps. split; [|split; [by intros y p|done]]. destruct H. constructor; try done. cbn.
  intros b [Hm| ->]%(bm_set_bits _ _ _ _ _ E); [by apply ck_nodes0|done].
Qed.

(** The owner is the one expected, so that the block is in use. *)
Lemma owner_checked s nid off blk : checking s -> nid <> INVALID16 -> blk <> INVALID16 ->
  wlp (chk_owner (St := St) nid off blk)
    (fun _ t => t = s /\ 0 <= blk /\ blk_live g blk /\ owner_of g blk = Some (nid, off)) any s.
Proof.
  intros H Hnid Hblk. unfold chk_owner. apply wlp_bind, wlp_on_fs.
  apply wlp_zoom. rewrite (ck_segs _ H). unfold GetBlockInfo, BlockToSeg. rewrite (proj2 (Z.eqb_neq _ _)) by done.
  unfold seg_at, bind, get, opt, wlp. destruct (aget (m_segments g) (blk / BLOCK_PER_SEG)) as [sg|] eqn:Hg; [|done]. cbn [ret].
  pose proof (aget_bounds _ _ _ Hg) as Hb. pose proof (Z.div_mod blk BLOCK_PER_SEG ltac:(clia)) as Hdm.
  pose proof (Z.mod_pos_bound blk BLOCK_PER_SEG ltac:(clia)) as Hm.
  assert (Hs : (set_segs g s.1, s.2) = s) by (destruct s as [f k]; cbn; by rewrite <- (ck_segs _ H), set_segs_id).
  unfold test_bitmap. rewrite land_mask by lia. destruct (Z.testbit (valid_bmp sg) (blk mod BLOCK_PER_SEG)) eqn:Ht; cbn [negb].
  - destruct (aget (nids sg) (blk mod BLOCK_PER_SEG)) as [n|] eqn:Hn; [|done]. cbn [ret].
    destruct (aget (offsets sg) (blk mod BLOCK_PER_SEG)) as [o|] eqn:Ho; [|done]. cbn [ret fst snd]. rewrite Hs.
    destruct (Z.eqb_spec n nid) as [->|]; cbn [negb orb].
    + destruct (Z.eqb_spec o off) as [->|]; cbn [negb].
      * split_and!; [done|clia|by exists sg|]. unfold owner_of. rewrite Hg. cbn. rewrite Hn. cbn. by rewrite Ho.
      * unfold get_fsck, gets. rewrite (ck_fix _ H). done.
    + unfold get_fsck, gets. rewrite (ck_fix _ H). done.
  - cbn [ret fst snd]. rewrite Hs. rewrite (proj2 (Z.eqb_neq INVALID16 nid)) by done. cbn [negb orb].
    unfold get_fsck, gets. by rewrite (ck_fix _ H).
Qed.

(** A block is read into a page of its own. *)
Definition page_read (s t : S2) (pg : Z) (d : BLOCK_DATA) : Prop :=
  (exists p, aget (m_pages (fs_pages t.1)) pg = Some p /\ in_use p = true /\ data p = d) /\
  (forall p, aget (m_pages (fs_pages s.1)) pg = Some p -> in_use p = false).
Lemma alloc_read {A} s blk (k : Z -> M S2 A) (Q : A -> S2 -> Prop) :
  checking s -> 0 <= blk < MAIN_BLK_NR ->
  (forall pg d t, log_read (phyblk_to_lba blk) l = Some d -> step s (page_read s t pg d) t -> wlp (k pg) Q any t) ->
  wlp (pg <- on_fs (on_pages allocate) ;; on_fs (read_page (phyblk_to_lba blk) (InCache pg)) ;;; k pg) Q any s.
Proof.
  intros H Hb Hk. destruct (ck_pages _ H) as [[|x fl] Hw].
  - eapply wlp_fs_throws. unfold throws, on_pages, zoom. by rewrite (allocate_full _ Hw).
  - destruct (allocate_spec _ _ _ Hw) as (p1 & Hr1 & Hw1 & Hg1 & Ho1).
    destruct (free_chain_in _ _ _ x (pw_chain _ _ Hw) ltac:(set_solver)) as [p0 Hp0].
    assert (Hu0 : in_use p0 = false) by (apply (pw_free _ _ Hw _ _ Hp0); set_solver).
    eapply wlp_fs_runs; [by apply on_pages_runs|]. set (s1 := set_pages p1 s.1).
    assert (Hlba : lba_ok (phyblk_to_lba blk)) by (unfold lba_ok, phyblk_to_lba; clia).
    assert (Hs1 : bs_rep (m_storage s1) l) by apply H.
    destruct (log_read (phyblk_to_lba blk) l) as [d|] eqn:Hd.
    + destruct (on_pages_upd s1 fl x page_Init (set_data d) Hw1 Hg1 eq_refl eq_refl) as (p2 & Hr2 & Hw2 & Hg2 & Ho2).
      eapply wlp_fs_runs; [eapply runs_bind; [by apply (store_read_spec s1 l _ d)|exact Hr2]|].
      eapply Hk; [done|]. split; [|split; [|split]].
      * destruct H. constructor; try done. by exists fl.
      * intros y p Hp Hu. cbn. rewrite Ho2 by congruence. cbn. by rewrite Ho1 by congruence.
      * by exists (set_data d page_Init).
      * intros p Hp. congruence.
    + eapply wlp_fs_throws, throws_here. assert (E16 : w16 (phyblk_to_lba blk) = phyblk_to_lba blk).
      { unfold w16. apply Z.mod_small. unfold phyblk_to_lba. clia. }
      unfold throws, store_read, on_store, zoom. cbn [fst]. rewrite E16, (bs_read_law _ _ _ Hs1 Hlba), Hd. reflexivity.
Qed.

Lemma free_read s t pg d : step s (page_read s t pg d) t ->
  wlp (on_fs (on_pages (free (Some pg)))) (fun _ => step s True) any t.
Proof.
  intros (H & Hk & (p & Hp & Hu & _) & Hn). destruct (ck_pages _ H) as [fl Hw].
  destruct (free_spec _ _ _ _ Hw Hp Hu) as (pa & Hr & Hw' & Hg & Ho).
  unfold wlp, on_fs, zoom, on_pages, zoom. rewrite Hr. split_and!; [|intros y q Hq Hqu; cbn|done].
  - destruct H. constructor; try done. by exists (pg :: fl).
  - rewrite Ho; [by apply Hk|]. intros ->. rewrite (Hn _ Hq) in Hqu. done.
Qed.

Lemma wlp_gives_up {A} (m : M S2 unit) e (Q : A -> S2 -> Prop) s : wlp (m ;;; throw e) Q any s.
Proof. unfold wlp, bind. by destruct (m s) as [[| |]]. Qed.
Lemma wlp_fs_const {A B} (m : M Fs A) (k : A -> M S2 B) Q (s : S2) :
  (m s.1).2 = s.1 -> (forall a, wlp (k a) Q any s) -> wlp (bind (on_fs m) k) Q any s.
Proof.
  intros Hc Hk. unfold wlp, bind, on_fs, zoom. destruct (m s.1) as [[a|e|] f]; [|done|done].
  cbn in Hc. subst f. specialize (Hk a). by destruct s.
Qed.
Lemma step_trans s t u F G : step s F t -> step t G u -> step s (F /\ G) u.
Proof. intros (_ & H1 & H2) (H3 & H4 & H5). split; [done|]. split; [by trans t|done]. Qed.
Lemma step_weaken s t (F G : Prop) : step s F t -> (F -> G) -> step s G t.
Proof. intros (H1 & H2 & H3) HG. split; [done|]. split; [done|]. by apply HG. Qed.
Lemma page_read_kept s t u pg d : page_read s t pg d -> kept t u -> page_read s u pg d.
Proof. intros [(p & Hp & Hu & Hd) Hn] Hk. split; [|done]. exists p. split_and!; [by apply Hk|done|done]. Qed.
Lemma data_at_runs (f : Fs) pg p : aget (m_pages (fs_pages f)) pg = Some p -> runs (data_at pg) f (data p) f.
Proof. intros Hp. unfold data_at. eapply runs_bind; [by apply (on_pages_at f pg p)|done]. Qed.
Lemma wlp_dentry {A} s t pg d (k : DENTRY_BLOCK -> M S2 A) Q : page_read s t pg d ->
  (forall b, as_dentry (body d) = Some b -> wlp (k b) Q any t) -> wlp (bind (on_fs (dentry_of pg)) k) Q any t.
Proof.
  intros [(p & Hp & _ & <-) _] Hk. unfold wlp, bind at 1, on_fs, zoom, dentry_of, body_at.
  unfold bind at 1 2. rewrite (data_at_runs _ _ _ Hp). cbn [ret].
  destruct (as_dentry (body (data p))) as [b|]; [|done]. specialize (Hk b eq_refl). by destruct t.
Qed.

Lemma fs_const_step {A} (m : M Fs A) s (Q : A -> S2 -> Prop) : (m s.1).2 = s.1 ->
  (forall a, m s.1 = (Ret a, s.1) -> Q a s) -> wlp (on_fs m) Q any s.
Proof.
  intros Hc HQ. unfold wlp, on_fs, zoom. destruct (m s.1) as [[a|e|] f] eqn:E; [|done|done].
  cbn in Hc. subst f. specialize (HQ a eq_refl). by destruct s.
Qed.
Lemma nat_lookup s nn {A} (k : Z -> M S2 A) Q : checking s -> nn < NODE_NR ->
  (forall blk, aget (nat_table nat) nn = Some blk -> wlp (k blk) Q any s) ->
  wlp (blk <- on_fs (on_nat (get_phy_blk nn)) ;; k blk) Q any s.
Proof.
  intros H Hn Hk. apply wlp_bind, fs_const_step.
  - unfold on_nat, zoom, get_phy_blk, throw, bind, get, opt, ret, fault.
    destruct (NODE_NR <=? nn); [by rewrite set_nat_id|]. by destruct (aget (nat_table (fs_nat s.1)) nn); rewrite set_nat_id.
  - intros blk Hr. apply Hk. unfold on_nat, zoom, get_phy_blk in Hr. rewrite (proj2 (Z.leb_gt _ _)) in Hr by lia.
    unfold bind, get, opt in Hr. rewrite (ck_nat _ H) in Hr. by destruct (aget (nat_table nat) nn); cbn in Hr; simplify_eq.
Qed.
(** * The tree *)
Section Rec.
Context (chk_node : Z -> Z -> Z -> M S2 Z).
Definition node_result (nid ty : Z) : Z := if ty =? BLOCK_INDEX then node_blks nat l nid else 0.
Definition node_spec : Prop := forall nid fty ty s, checking s -> reachable (nid, fty, ty) ->
  wlp (chk_node nid fty ty) (fun a => step s (subtree (nid, fty, ty) /\ a = node_result nid ty)) any s.
Context (Hrec : node_spec).

(** The references in a block of a directory. *)
Definition entries_checked (fty blk : Z) : Prop :=
  forall d b ii e, fty = F2FS_FILE_DIR -> log_read (phyblk_to_lba blk) l = Some d -> as_dentry (body d) = Some b ->
    0 <= ii < DENTRY_PER_BLOCK -> aget (dentries b) ii = Some e -> de_ino e <> INVALID16 ->
    subtree (de_ino e, F2FS_FILE_UNKNOWN, BLOCK_INODE).

Lemma entries_loop nid off blk d s t1 pg :
  reachable (nid, F2FS_FILE_DIR, BLOCK_INDEX) -> data_entry nat l (nid, F2FS_FILE_DIR, BLOCK_INDEX) off blk ->
  log_read (phyblk_to_lba blk) l = Some d -> step s (page_read s t1 pg d) t1 ->
  wlp (mfor (range 0 DENTRY_PER_BLOCK) (fun ii =>
    b <- on_fs (dentry_of pg) ;;
    e <- opt (aget (dentries b) ii) ;;
    if is_invalid16 (de_ino e) then ret tt
    else chk_node (de_ino e) F2FS_FILE_UNKNOWN BLOCK_INODE ;;; ret tt))
    (fun _ t => step s (page_read s t pg d /\ entries_checked F2FS_FILE_DIR blk) t) any t1.
Proof.
  intros Hr He Hd (Hc1 & Hk1 & Hp1).
  set (Inv := fun i t => step s (page_read s t pg d /\ forall b ii e, as_dentry (body d) = Some b -> 0 <= ii < i ->
    aget (dentries b) ii = Some e -> de_ino e <> INVALID16 -> subtree (de_ino e, F2FS_FILE_UNKNOWN, BLOCK_INODE)) t).
  eapply wlp_mono; [apply (wlp_for_range 0 DENTRY_PER_BLOCK _ Inv); [clia| |]| |done].
  - split; [done|]. split; [done|]. split; [done|]. intros; lia.
  - intros i t Hi (Hc & Hk & Hp & Hdone). eapply wlp_dentry; [exact Hp|]. intros b Hb.
    apply wlp_opt. intros e Hbe. destruct (Z.eqb_spec (de_ino e) INVALID16) as [E|Hne].
    + split; [done|]. split; [done|]. split; [done|]. intros b' ii e' Hb' Hii He' Hn.
      destruct (decide (ii = i)) as [->|]; [congruence|]. apply (Hdone b' ii); [done|lia|done|done].
    + eapply wlp_then; [apply Hrec; [done|]|].
      { eapply reachable_edge; [exact Hr|]. by eapply edge_entry. }
      intros a u (Hcu & Hku & Hsub & _). split; [done|]. split; [by trans t|].
      split; [by eapply page_read_kept|]. intros b' ii e' Hb' Hii He' Hn.
      destruct (decide (ii = i)) as [->|]; [assert (e' = e) as -> by congruence; exact Hsub|].
      apply (Hdone b' ii); [done|lia|done|done].
  - intros [] t Ht. eapply step_weaken; [exact Ht|]. intros [Hp H]. split; [exact Hp|].
    intros d' b ii e _ Hd' Hb Hii Hbe Hn. assert (d' = d) as -> by congruence. by eapply H.
Qed.

Lemma data_blk_checked nid fty off blk s :
  checking s -> reachable (nid, fty, BLOCK_INDEX) -> data_entry nat l (nid, fty, BLOCK_INDEX) off blk ->
  nid <> INVALID16 ->
  wlp (fsck_chk_data_blk chk_node nid off blk fty)
    (fun _ => step s (data_good g l nid fty off blk /\ entries_checked fty blk)) any s.
Proof.
  intros H Hr He Hnid. unfold fsck_chk_data_blk. destruct (Z.leb_spec MAIN_BLK_NR blk) as [|Hlt]; [done|].
  assert (blk <> INVALID16) as Hbi by clia.
  apply wlp_bind, test_main. intros tb _. cbv beta. destruct (negb (tb =? 0)); [done|].
  eapply wlp_then; [apply set_main; [done|]|].
  { right. exists (nid, fty, BLOCK_INDEX), off. done. }
  intros _ t1 (H1 & K1 & _). eapply wlp_then; [by apply (owner_checked t1 nid off blk)|].
  intros _ t (-> & H0 & Hlive & Hown). destruct (Z.eqb_spec fty F2FS_FILE_DIR) as [->|Hne]; cbn [negb].
  - apply alloc_read; [done|lia|]. intros pg d t2 Hd Ht2.
    pose proof Ht2 as (H2 & K2 & Hp2). pose proof Hp2 as [(p & Hp & _ & Hdp) _].
    eapply wlp_fs_runs; [by apply data_at_runs|]. rewrite Hdp. destruct t2 as [f2 k2]. cbn [fst snd] in *.
    destruct (Z.eqb_spec (m_type d) BLOCK_DENTRY) as [Hty|]; cbn [negb]; [|apply wlp_gives_up].
    eapply wlp_then; [by eapply entries_loop|]. intros _ u (Hu & Ku & Hpu & Hent).
    eapply wlp_mono; [by apply (free_read t1 u pg d)| |done].
    intros _ v (Hv & Kv & _). split; [done|]. split; [by trans t1|]. split; [|done].
    constructor; [lia|done|done|]. intros _. by exists d.
  - split; [done|]. split; [done|]. split; [|intros d b ii e ->; done]. constructor; [lia|done|done|done].
Qed.

Lemma entry_count_step x i : 0 <= i -> Z.of_nat (length (filter (is_entry x) (range 0 (i + 1)))) =
  Z.of_nat (length (filter (is_entry x) (range 0 i))) + (if is_entry x i then 1 else 0).
Proof.
  intros Hi. rewrite range_snoc, filter_app, length_app by lia. rewrite filter_cons.
  destruct (is_entry x i); case_decide; cbn [length filter list_filter]; done || lia.
Qed.

Lemma index_blk_checked nid fty blk n x s :
  checking s -> reachable (nid, fty, BLOCK_INDEX) -> nid <> INVALID16 -> blk_reached nat l blk ->
  disk_node nat l nid BLOCK_INDEX n -> as_index (node_body n) = Some x ->
  wlp (fsck_chk_index_blk chk_node nid blk fty x)
    (fun a => step s ((forall off b, data_entry nat l (nid, fty, BLOCK_INDEX) off b ->
         data_good g l nid fty off b /\ entries_checked fty b) /\
       valid_data x = entry_count x /\ a = valid_data x)) any s.
Proof.
  intros H Hr Hnid Hblk Hn Hx. unfold fsck_chk_index_blk.
  eapply wlp_then; [by apply set_main|]. intros _ t (Ht & Kt & _).
  set (Inv := fun i c u => step s ((forall off b, 0 <= off < i -> aget (index_index x) off = Some b -> b <> INVALID16 ->
     data_good g l nid fty off b /\ entries_checked fty b) /\
     c = Z.of_nat (length (filter (is_entry x) (range 0 i)))) u).
  eapply wlp_then; [apply (wlp_fold_range 0 INDEX_SIZE 0 _ Inv); [clia| |]|].
  - split; [done|]. split; [done|]. split; [intros; lia|by rewrite range_nil by lia].
  - intros i c u Hi (Hu & Ku & Hd & Hc). apply wlp_opt. intros b Hb.
    assert (Hstep := entry_count_step x i ltac:(lia)).
    assert (is_entry x i = negb (b =? INVALID16)) as Hie by (unfold is_entry; by rewrite Hb). rewrite Hie in Hstep.
    destruct (Z.eqb_spec b INVALID16) as [E|Hne]; cbn [negb] in Hstep.
    + split; [done|]. split; [done|]. split; [|lia]. intros off b' Ho Hb' Hn'.
      destruct (decide (off = i)) as [->|]; [congruence|]. apply Hd; [lia|done|done].
    + eapply wlp_then; [apply data_blk_checked; [done|exact Hr| |done]|].
      { split; [done|]. by exists n, x. }
      intros _ v (Hv & Kv & Hgood & Hent). split; [done|]. split; [by trans u|]. split; [|lia].
      intros off b' Ho Hb' Hn'. destruct (decide (off = i)) as [->|].
      * assert (b' = b) as -> by congruence. done.
      * apply Hd; [lia|done|done].
  - intros c u (Hu & Ku & Hd & Hc). fold (entry_count x) in Hc.
    destruct (Z.eqb_spec (valid_data x) c) as [E|]; [|done]. split; [done|]. split; [done|].
    split_and!; [|congruence|congruence]. intros off b (_ & n' & x' & Hn' & Hx' & Ho & Hb & Hbi). cbn in Hn'.
    destruct (disk_node_inj _ _ _ _ _ _ _ Hn' Hn) as [-> _]. assert (x' = x) as -> by congruence. by apply Hd.
Qed.

Lemma inode_blk_checked nid fty blk n x s :
  checking s -> reachable (nid, fty, BLOCK_INODE) -> blk_reached nat l blk -> m_nid n = nid ->
  disk_node nat l nid BLOCK_INODE n -> as_inode (node_body n) = Some x ->
  wlp (fsck_chk_inode_blk chk_node blk n x)
    (fun _ => step s ((forall r', edge (nid, fty, BLOCK_INODE) r' -> subtree r') /\
       m_ino n = nid /\ blk_num x = file_blks nat l x)) any s.
Proof.
  intros H Hr Hblk Hnid Hn Hx. unfold fsck_chk_inode_blk.
  eapply wlp_then; [by apply set_main|]. intros _ t (Ht & Kt & _). rewrite Hnid.
  destruct (Z.eqb_spec (m_ino n) nid) as [Hino|]; cbn [negb]; [|done].
  set (Inv := fun i c u => step s ((forall ii k, 0 <= ii < i -> aget (inode_index x) ii = Some k -> k <> INVALID16 ->
     subtree (k, file_type x, BLOCK_INDEX)) /\ c = foldl (slot_blks nat l x) 0 (range 0 i)) u).
  eapply wlp_then; [apply (wlp_fold_range 0 INDEX_TABLE_SIZE 0 _ Inv); [clia| |]|].
  - split; [done|]. split; [done|]. split; [intros; lia|by rewrite range_nil by lia].
  - intros i c u Hi (Hu & Ku & Hs & Hc). apply wlp_opt. intros k Hk.
    assert (Hstep : foldl (slot_blks nat l x) 0 (range 0 (i + 1)) = if k =? INVALID16 then c else w32 (c + node_blks nat l k)).
    { rewrite range_snoc, foldl_app by lia. cbn [foldl]. rewrite <- Hc. unfold slot_blks. by rewrite Hk. }
    destruct (Z.eqb_spec k INVALID16) as [E|Hne].
    + split; [done|]. split; [done|]. split; [|done]. intros ii k' Hii Hk' Hn'.
      destruct (decide (ii = i)) as [->|]; [congruence|]. apply (Hs ii); [lia|done|done].
    + eapply wlp_then; [apply (Hrec k (file_type x) BLOCK_INDEX); [done|]|].
      { eapply reachable_edge; [exact Hr|]. by eapply edge_index. }
      intros a v (Hv & Kv & Hsub & ->). split; [done|]. split; [by trans u|]. split; [|exact (eq_sym Hstep)].
      intros ii k' Hii Hk' Hn'. destruct (decide (ii = i)) as [->|].
      * assert (k' = k) as -> by congruence. done.
      * apply (Hs ii); [lia|done|done].
  - intros c u (Hu & Ku & Hs & Hc). destruct (Z.eqb_spec (blk_num x) c) as [E|]; [|done].
    split; [done|]. split; [done|]. split_and!; [|done|by rewrite E].
    intros r' He. inversion He; subst. edestruct disk_node_inj as [E1 _]; [apply Hn|eassumption|]. subst.
    match goal with H1 : as_inode _ = Some ?y |- subtree (_, file_type ?y, _) => assert (y = x) as -> by congruence end.
    by eapply Hs.
Qed.
End Rec.

(** The node is in use where the table says. *)
Definition node_in_use (nid : Z) : Prop := exists blk, aget (nat_table nat) nid = Some blk /\ 0 <= blk < MAIN_BLK_NR /\
  blk_live g blk /\ owner_of g blk = Some (nid, INVALID16).

(** The inode or the index block, once it is read. *)
Lemma node_kind_checked chk nid fty ty blk n pg s : node_spec chk ->
  checking s -> reachable (nid, fty, ty) -> nid <> INVALID16 -> aget (nat_table nat) nid = Some blk ->
  node_in_use nid -> disk_node nat l nid ty n -> m_nid n = nid ->
  wlp (if ty =? BLOCK_INODE then
         x <- opt (as_inode (node_body n)) ;; fsck_chk_inode_blk chk blk n x ;;; ret 0
       else if ty =? BLOCK_INDEX then
         x <- opt (as_index (node_body n)) ;; fsck_chk_index_blk chk nid blk fty x
       else on_fs (on_pages (free (Some pg))) ;;; throw (FsError ERR_WRONG_BLOCK_TYPE))
    (fun r => step s (subtree (nid, fty, ty) /\ r = node_result nid ty)) any s.
Proof.
  intros IH H Hr Hnid Hnat Huse Hdn Hmn.
  assert (Hreach : blk_reached nat l blk) by (left; by exists (nid, fty, ty)).
  destruct (Z.eqb_spec ty BLOCK_INODE) as [->|Hni].
  - apply wlp_opt. intros x Hx. eapply wlp_then; [by apply (inode_blk_checked _ IH nid fty blk n x)|].
    intros _ u (Hu & Ku & Hedges & Hino & Hcnt). split; [done|]. split; [done|]. split; [|done].
    apply subtree_intro; [|done]. constructor; cbn [fst snd]; [done| |by left|].
    + exists n. split_and!; [done|done| |done]. intros _. split; [done|]. by exists x.
    + intros off b (E & _). done.
  - destruct (Z.eqb_spec ty BLOCK_INDEX) as [->|]; [|apply wlp_gives_up].
    apply wlp_opt. intros x Hx. eapply wlp_mono; [by apply (index_blk_checked _ IH nid fty blk n x)| |done].
    intros a u (Hu & Ku & Hdata & Hcnt & ->). split; [done|]. split; [done|]. split.
    + apply subtree_intro.
      * constructor; cbn [fst snd]; [done| |by right|intros off b Hb; by apply Hdata].
        exists n. split_and!; [done|done|done|]. intros _. by exists x.
      * intros r' He. inversion He; subst.
        match goal with Hb : data_entry _ _ _ _ _ |- _ => destruct (Hdata _ _ Hb) as [_ He'] end. by eapply He'.
    + destruct Hdn as (b & d & Hb & Hd & _ & Hbody). unfold node_result, node_blks.
      rewrite Z.eqb_refl, Hb, Hd, Hbody. cbn [as_node]. destruct (node_body n) as [i|y]; cbn in Hx; [done|congruence].
Qed.

Lemma node_checked fuel : node_spec (fsck_chk_node_blk (St := St) fuel).
Proof.
  induction fuel as [|fuel IH]; [done|]. intros nid fty ty s H Hr. cbn [fsck_chk_node_blk].
  destruct (Z.leb_spec NODE_NR nid) as [|Hlt]; [done|]. apply wlp_bind, test_node. intros tn _. cbv beta.
  destruct (negb (tn =? 0)); [done|].
  eapply wlp_then; [apply set_node; [done|by exists (nid, fty, ty)]|]. intros _ t (Ht & Kt & _).
  apply nat_lookup; [done|done|]. intros blk Hnat.
  assert (nid <> INVALID16) as Hnid by clia.
  destruct t as [f k]. cbn [fst snd].
  destruct (Z.leb_spec MAIN_BLK_NR blk) as [|Hblt]; [done|]. apply wlp_bind, test_main. intros tb _. cbv beta.
  destruct (negb (tb =? 0)); [done|]. destruct (BlockToSeg blk) as [sn bn]. apply wlp_fs_const.
  { unfold on_segs, zoom, get_segment, check. cbn [fst]. unfold seg_at, bind, get, opt, fault, ret.
    destruct (sn <? MAIN_SEG_NR); [|by rewrite set_segs_id]. destruct (aget _ sn); by rewrite set_segs_id. }
  intros sg. destruct (test_bitmap (valid_bmp sg) bn =? 0); [done|].
  assert (blk <> INVALID16) as Hbi by clia.
  eapply wlp_then; [by apply (owner_checked (f, k) nid INVALID16 blk)|].
  intros _ t2 (-> & H0 & Hlive & Hown). apply alloc_read; [done|lia|].
  intros pg d t3 Hd Ht3. pose proof Ht3 as (H3 & K3 & Hp3). pose proof Hp3 as [(p & Hp & _ & Hdp) _].
  eapply wlp_fs_runs; [by apply data_at_runs|]. rewrite Hdp. destruct t3 as [f3 k3]. cbn [fst snd] in *.
  destruct (Z.eqb_spec (m_type d) ty) as [Hty|]; cbn [negb]; [|apply wlp_gives_up].
  apply wlp_opt. intros n Hnode.
  destruct (Z.eqb_spec (m_nid n) nid) as [Hmn|]; cbn [negb]; [|apply wlp_gives_up].
  assert (Hdn : disk_node nat l nid ty n).
  { exists blk, d. split_and!; [done|done|done|]. destruct (body d); cbn in Hnode; congruence. }
  eapply wlp_then; [apply (node_kind_checked _ nid fty ty blk n pg (f3, k3) IH); try done; by exists blk|].
  intros r u Hu. pose proof Hu as (Hcu & Kcu & Hsub & ->).
  eapply wlp_then; [apply (free_read (f, k) u pg d)|].
  { split; [done|]. split; [by trans (f3, k3)|]. by eapply page_read_kept. }
  intros _ v (Hv & Kv & _). split; [done|]. split; [by trans (f, k)|done].
Qed.

(** * The tables *)
Definition counted (sg : SegmentInfo) : Prop := valid_blk_nr sg = popcount BLOCK_PER_SEG (valid_bmp sg).

Lemma set_checking s k : checking s -> need_to_fix k = false -> node_map k = node_map s.2 ->
  main_area_map k = main_area_map s.2 -> step s True (s.1, k).
Proof.
  intros H Hf Hn Hm. split; [|split; [by intros y p|done]]. destruct H. constructor; try done; cbn; by rewrite ?Hn, ?Hm.
Qed.

Lemma count_bits seg ii s : checking s ->
  wlp (mfold (range 0 BLOCK_PER_SEG) 0 (fun n bb =>
      if test_bitmap (valid_bmp seg) bb =? 0 then ret n else
      k <- get_fsck ;;
      r <- opt (bm_set (sit_area_map k) (ii * BLOCK_PER_SEG + bb)) ;;
      put_fsck (set_sit_map r.1 (w32 (sit_valid_blk k + 1)) k) ;;;
      ret (n + 1)))
    (fun n => step s (n = popcount BLOCK_PER_SEG (valid_bmp seg))) any s.
Proof.
  intros H. apply (wlp_fold_range 0 BLOCK_PER_SEG 0 _ (fun i n => step s (n = popcount i (valid_bmp seg)))); [clia| |].
  - split; [done|]. split; [done|]. unfold popcount. by rewrite range_nil by lia.
  - intros i n t Hi (Ht & Kt & ->).
    assert (E : popcount (i + 1) (valid_bmp seg) = popcount i (valid_bmp seg) + (if Z.testbit (valid_bmp seg) i then 1 else 0)).
    { unfold popcount. rewrite range_snoc, filter_app, length_app by lia. rewrite filter_cons.
      destruct (Z.testbit (valid_bmp seg) i); case_decide; cbn [length filter list_filter]; done || lia. }
    unfold test_bitmap. rewrite land_mask by lia. rewrite E. destruct (Z.testbit (valid_bmp seg) i); cbn [negb].
    + unfold get_fsck. wlp_steps. apply wlp_opt. intros [m w] _. unfold put_fsck. wlp_steps.
      destruct (set_checking t (set_sit_map m (w32 (sit_valid_blk t.2 + 1)) t.2) Ht (ck_fix _ Ht) eq_refl eq_refl) as (H1 & K1 & _).
      split; [done|]. split; [by trans t|done].
    + split; [done|]. split; [done|lia].
Qed.

Lemma metadata_checked s : checking s ->
  wlp (fsck_chk_metadata (St := St))
    (fun _ => step s (forall seg sg, 0 <= seg < MAIN_SEG_NR -> aget (m_segments g) seg = Some sg -> counted sg)) any s.
Proof.
  intros H. unfold fsck_chk_metadata.
  eapply wlp_then; [apply (wlp_fold_range 0 MAIN_SEG_NR 0 _ (fun i (_ : Z) =>
    step s (forall seg sg, 0 <= seg < i -> aget (m_segments g) seg = Some sg -> counted sg))); [clia| |]|].
  - split; [done|]. split; [done|]. intros; lia.
  - intros ii n t Hii (Ht & Kt & Hd).
    destruct (aget (m_segments g) ii) as [sg|] eqn:Hsg.
    2: { unfold wlp, bind at 1, on_fs, zoom, on_segs, zoom, get_segment, check. rewrite (proj2 (Z.ltb_lt _ _)) by lia.
      unfold seg_at, bind, get, opt, ret. rewrite (ck_segs _ Ht). by rewrite Hsg. }
    eapply wlp_fs_runs.
    { apply on_segs_keeps. unfold get_segment, check. rewrite (proj2 (Z.ltb_lt _ _)) by lia.
      unfold runs, seg_at, bind, get, opt, ret. rewrite (ck_segs _ Ht). by rewrite Hsg. }
    destruct t as [f k]. cbn [fst snd]. eapply wlp_then; [by apply (count_bits sg ii (f, k))|].
    intros c u (Hu & Ku & ->). destruct (Z.eqb_spec (popcount BLOCK_PER_SEG (valid_bmp sg)) (valid_blk_nr sg)) as [E|]; [|done].
    cbn [negb]. apply wlp_fs_const.
    { unfold on_segs, zoom, cur_seg_no, seg_at, bind, get, opt, fault, ret.
      repeat (case_match; simplify_eq; try (by rewrite set_segs_id)); by rewrite ?set_segs_id. }
    intros cs. split; [done|]. split; [by trans (f, k)|]. intros seg sg' Hs Hg'.
    destruct (decide (seg = ii)) as [->|]; [assert (sg' = sg) as -> by congruence; done|]. apply (Hd seg); [lia|done].
  - intros n t (Ht & Kt & Hd). wlp_steps. destruct (negb (n + m_free_nr (fs_segs t.1) =? MAIN_SEG_NR)); [done|].
    unfold upd_fsck. wlp_steps.
    destruct (set_checking t (set_valid_seg n t.2) Ht (ck_fix _ Ht) eq_refl eq_refl) as (H1 & K1 & _).
    eapply wlp_then; [apply (wlp_fold_range 0 NODE_NR 0 _ (fun (_ _ : Z) => step s True)); [clia| |]|].
    + split; [done|]. split; [by trans t|done].
    + intros nn c u Hnn (Hu & Ku & _). apply wlp_fs_const.
      { unfold on_nat, zoom, get_phy_blk. destruct (NODE_NR <=? nn); [by destruct u as [[]]|].
        unfold bind, get, opt. destruct (aget _ nn); by destruct u as [[]]. }
      intros blk. destruct (is_invalid16 blk); [done|]. unfold f2fs_set_nat_bitmap, get_fsck.
      apply (wlp_then _ _ (fun _ => step s True)); [|by intros ? v Hv]. wlp_steps. apply wlp_opt. intros [m w] _. unfold put_fsck. wlp_steps.
      destruct (set_checking u (set_nat_map m (nat_valid_node u.2) u.2) Hu (ck_fix _ Hu) eq_refl eq_refl) as (H2 & K2 & _).
      split; [done|]. split; [by trans u|done].
    + intros c u (Hu & Ku & _).
      destruct (set_checking u (set_nat_map (nat_area_map u.2) c u.2) Hu (ck_fix _ Hu) eq_refl eq_refl) as (H2 & K2 & _).
      split; [done|]. split; [by trans u|done].
Qed.

(** * What the tree did not reach *)
Lemma seg_lookup s ii {A} (k : SegmentInfo -> M S2 A) Q : checking s ->
  (forall sg, aget (m_segments g) ii = Some sg -> wlp (k sg) Q any s) ->
  wlp (sg <- on_fs (on_segs (seg_at ii)) ;; k sg) Q any s.
Proof.
  intros H Hk. apply wlp_bind, fs_const_step.
  - unfold on_segs, zoom, seg_at, bind, get, opt, ret, fault.
    by destruct (aget (m_segments (fs_segs s.1)) ii); rewrite set_segs_id.
  - intros sg Hr. apply Hk. unfold on_segs, zoom, seg_at, bind, get, opt in Hr. rewrite (ck_segs _ H) in Hr.
    by destruct (aget (m_segments g) ii); cbn in Hr; simplify_eq.
Qed.

(** With repairs off, a thing without a mark is an error. *)
Lemma must_be_marked t (m : M S2 unit) e s (F : Prop) : checking s -> ((t =? 0) = false -> F) ->
  wlp (when (t =? 0) (k <- get_fsck ;; if need_to_fix k then m else throw (FsError e))) (fun _ u => u = s /\ F) any s.
Proof.
  intros H HF. destruct (t =? 0); [|by split; [|apply HF]]. cbn [when]. unfold get_fsck. wlp_steps.
  by rewrite (ck_fix _ H).
Qed.

Lemma nodes_verified s : checking s ->
  wlp (mfor (range 0 NODE_NR) (fun nn =>
    blk <- on_fs (on_nat (get_phy_blk nn)) ;;
    if is_invalid16 blk then ret tt else
    t <- f2fs_test_node_bitmap nn ;;
    when (t =? 0) (
      k <- get_fsck ;;
      if need_to_fix k then on_fs (put_node nn) ;;; upd_fsck set_fixed
      else throw (FsError ERR_DEAD_NID))))
    (fun _ u => u = s /\ forall nid blk, 0 <= nid < NODE_NR -> aget (nat_table nat) nid = Some blk ->
       blk <> INVALID16 -> nid_reached nat l nid) any s.
Proof.
  intros H. apply (wlp_for_range 0 NODE_NR _ (fun i u => u = s /\ forall nid blk, 0 <= nid < i ->
    aget (nat_table nat) nid = Some blk -> blk <> INVALID16 -> nid_reached nat l nid)); [clia|split; [done|lia]|].
  intros nn u Hnn [-> Hd]. apply nat_lookup; [done|lia|]. intros blk Hblk.
  destruct (Z.eqb_spec blk INVALID16) as [->|Hne].
  - split; [done|]. intros nid b Hn Hb Hbi. destruct (decide (nid = nn)) as [->|]; [congruence|]. apply (Hd nid b); [lia|done|done].
  - apply wlp_bind, test_node. intros t Ht. cbv beta.
    eapply wlp_mono; [apply (must_be_marked t _ _ s (nid_reached nat l nn) H)| |done].
    + intros E. apply (ck_nodes _ H). by apply Ht.
    + intros _ v [-> Hr]. split; [done|]. intros nid b Hn Hb Hbi.
      destruct (decide (nid = nn)) as [->|]; [done|]. apply (Hd nid b); [lia|done|done].
Qed.

Lemma seg_verified s ii sg : checking s -> 0 <= ii < MAIN_SEG_NR -> aget (m_segments g) ii = Some sg ->
  wlp (mfor (range 0 BLOCK_PER_SEG) (fun bb =>
      g <- on_fs (on_segs (seg_at ii)) ;;
      if test_bitmap (valid_bmp g) bb =? 0 then ret tt else
      t <- f2fs_test_main_bitmap (PhyBlock ii bb) ;;
      when (t =? 0) (
        k <- get_fsck ;;
        if need_to_fix k
        then on_fs (on_segs (InvalidBlock_at ii bb)) ;;; upd_fsck set_fixed
        else throw (FsError ERR_DEAD_BLK))))
    (fun _ u => u = s /\ forall bb, 0 <= bb < BLOCK_PER_SEG -> Z.testbit (valid_bmp sg) bb = true ->
       blk_reached nat l (ii * BLOCK_PER_SEG + bb)) any s.
Proof.
  intros H Hii Hsg. apply (wlp_for_range 0 BLOCK_PER_SEG _ (fun i u => u = s /\ forall bb, 0 <= bb < i ->
    Z.testbit (valid_bmp sg) bb = true -> blk_reached nat l (ii * BLOCK_PER_SEG + bb))); [clia|split; [done|lia]|].
  intros bb u Hbb [-> Hd]. apply seg_lookup; [done|]. intros sg' Hsg'. assert (sg' = sg) as -> by congruence.
  unfold test_bitmap. rewrite land_mask by lia. destruct (Z.testbit (valid_bmp sg) bb) eqn:Hbit; cbn [negb].
  - apply wlp_bind, test_main. intros t Ht. cbv beta.
    assert (E : PhyBlock ii bb = ii * BLOCK_PER_SEG + bb) by (unfold PhyBlock, w16; apply Z.mod_small; clia).
    rewrite E in Ht. eapply wlp_mono; [apply (must_be_marked t _ _ s (blk_reached nat l (ii * BLOCK_PER_SEG + bb)) H)| |done].
    + intros E'. apply (ck_blks _ H). by apply Ht.
    + intros _ v [-> Hr]. split; [done|]. intros b Hb Hbb'. destruct (decide (b = bb)) as [->|]; [done|]. apply Hd; [lia|done].
  - split; [done|]. intros b Hb Hbb'. destruct (decide (b = bb)) as [->|]; [congruence|]. apply Hd; [lia|done].
Qed.

Lemma tree_verified s : checking s ->
  (forall seg sg, 0 <= seg < MAIN_SEG_NR -> aget (m_segments g) seg = Some sg -> counted sg) ->
  wlp (fsck_verify (St := St))
    (fun _ u => u = s /\
       (forall nid blk, 0 <= nid < NODE_NR -> aget (nat_table nat) nid = Some blk -> blk <> INVALID16 -> nid_reached nat l nid) /\
       forall blk, 0 <= blk < MAIN_BLK_NR -> blk_live g blk -> blk_reached nat l blk) any s.
Proof.
  intros H Hcnt. unfold fsck_verify. eapply wlp_then; [by apply nodes_verified|]. intros _ u [-> Hnodes].
  eapply wlp_mono; [apply (wlp_for_range 0 MAIN_SEG_NR _ (fun i u => u = s /\ forall ii sg bb, 0 <= ii < i ->
    aget (m_segments g) ii = Some sg -> 0 <= bb < BLOCK_PER_SEG -> Z.testbit (valid_bmp sg) bb = true ->
    blk_reached nat l (ii * BLOCK_PER_SEG + bb))); [clia|split; [done|lia]|]| |done].
  - intros ii u Hii [-> Hd]. apply seg_lookup; [done|]. intros sg Hsg.
    destruct (Z.eqb_spec (valid_blk_nr sg) 0) as [E|Hne].
    + split; [done|]. intros j sg' bb Hj Hsg' Hbb Hbit. destruct (decide (j = ii)) as [->|]; [|apply (Hd j sg'); [lia|done..]].
      assert (sg' = sg) as -> by congruence. pose proof (Hcnt ii sg Hii Hsg) as Hc. unfold counted in Hc.
      pose proof (popcount_pos _ _ _ Hbb Hbit). lia.
    + eapply wlp_mono; [by apply seg_verified| |done]. intros _ v [-> Hr]. split; [done|].
      intros j sg' bb Hj Hsg' Hbb Hbit. destruct (decide (j = ii)) as [->|]; [|apply (Hd j sg'); [lia|done..]].
      assert (sg' = sg) as -> by congruence. by apply Hr.
  - intros [] u [-> Hall]. split; [done|]. split; [exact Hnodes|].
    intros blk Hb (sg & Hsg & Hbit). pose proof (Z.div_mod blk BLOCK_PER_SEG ltac:(clia)) as Hdm.
    pose proof (Z.mod_pos_bound blk BLOCK_PER_SEG ltac:(clia)) as Hm.
    replace blk with (blk / BLOCK_PER_SEG * BLOCK_PER_SEG + blk mod BLOCK_PER_SEG) by lia.
    apply (Hall _ sg); [|done|done|done]. split; [apply Z.div_pos; clia|apply Z.div_lt_upper_bound; clia].
Qed.
End Check.

Section Accepts.
Context {St : Type} `{HB : BlockStore St, HL : !BlockStoreLaws St} `{HE : External}.
Abbreviation Fs := (CF2fsSimulator St).

(** C2: the consistency check is sound.  When the checks accept a mounted volume
    without repairs, whatever the tables and the medium hold, nothing was
    changed but free pages, and the volume is consistent: every node that the
    root reaches through index tables, index blocks and directory entries is
    allocated, its block is in use by it, holds it with the type expected and
    counts its entries and its blocks right; every data block it refers to is in
    use by exactly that node and offset; every node number that is allocated and
    every block that is valid is reached; and every segment counts its valid
    blocks right. *)
Theorem fsck_accepts_consistent (s s' : Fs) fl l k :
  pages_wf (fs_pages s) fl -> bs_rep (m_storage s) l ->
  runs fsck_check (s, FSCK_new false) tt (s', k) ->
  consistent (fs_segs s) (fs_nat s) l /\ fs_segs s' = fs_segs s /\ fs_nat s' = fs_nat s /\ bs_rep (m_storage s') l /\
  forall y p, aget (m_pages (fs_pages s)) y = Some p -> in_use p = true -> aget (m_pages (fs_pages s')) y = Some p.
Proof.
  intros Hw Hs Hrun. set (s0 := (s, FSCK_new false)).
  assert (H0 : checking (fs_segs s) (fs_nat s) l s0).
  { constructor; try done; [by exists fl|by intros ? ?%bm_zero..]. }
  enough (Hc : wlp fsck_check (fun _ u => consistent (fs_segs s) (fs_nat s) l /\
    checking (fs_segs s) (fs_nat s) l u /\ kept s0 u) (fun _ _ => True) s0).
  { unfold wlp in Hc. unfold runs in Hrun. fold s0 in Hrun. rewrite Hrun in Hc. destruct Hc as (Hc & Hu & Hk).
    split_and!; [done|apply Hu|apply Hu|apply Hu|exact Hk]. }
  unfold fsck_check. eapply wlp_then; [by apply metadata_checked|]. intros _ t (Ht & Kt & Hcnt).
  eapply wlp_then; [apply (node_checked (fs_segs s) (fs_nat s) l _ ROOT_FID F2FS_FILE_DIR BLOCK_INODE t Ht); apply rtc_refl|].
  intros _ u (Hu & Ku & Htree & _).
  eapply wlp_mono; [by apply (tree_verified (fs_segs s) (fs_nat s) l)| |done].
  intros _ v (-> & Hn & Hb). split; [|split; [done|]].
  - constructor; [|done|done|done]. intros r Hr. by apply Htree.
  - intros y p Hp Hin. apply Ku; [by apply Kt|done].
Qed.
End Accepts.

(** * A volume with a directory and a file of ten blocks *)
Section Example.
#[local] Existing Instance sample_external.

Definition volume_script : M (CF2fsSimulator LogStore) unit :=
  Initialzie 6 20 ;;;
  Mount ;;;
  DirCreate [BACKSLASH; 65] ;;;
  r <- FileCreate [BACKSLASH; 65; BACKSLASH; 66] ;;
  FileWrite r.2 0 40000 ;;;
  FileClose r.2 ;;;
  Unmount ;;;
  Reset 0 ;;;
  Mount.
Definition checked_volume : CF2fsSimulator LogStore := snd (volume_script (simulator_new (mkLog [] 0))).
Definition checked_end : CF2fsSimulator LogStore * F2FS_FSCK := snd (fsck_check (checked_volume, FSCK_new false)).

Lemma fsck_accepts_consistent_witness :
  fst (volume_script (simulator_new (mkLog [] 0))) = Ret tt /\
  runs fsck_check (checked_volume, FSCK_new false) tt (fst checked_end, snd checked_end) /\
  consistent (fs_segs checked_volume) (fs_nat checked_volume) (log (m_storage checked_volume)).
Proof.
  assert (Hr : runs fsck_check (checked_volume, FSCK_new false) tt checked_end).
  { refine (runs_eval fsck_check (checked_volume, FSCK_new false) tt _). vm_compute. reflexivity. }
  rewrite (surjective_pairing checked_end) in Hr.
  split; [vm_compute; reflexivity|]. split; [exact Hr|].
  refine (proj1 (fsck_accepts_consistent checked_volume (fst checked_end) (range 5 (m_page_nr (fs_pages checked_volume)))
    (log (m_storage checked_volume)) (snd checked_end) _ _ Hr)).
  - apply pages_test_sound. vm_compute. reflexivity.
  - reflexivity.
Defined.
End Example.
