(* ===== verification/MountInv.v ===== *)
(** MountInv: mounting.  What [segs_Load] and the root node give, and why a crash
    at any point of a checkpoint leaves a volume that mounts as before the
    checkpoint or as after it. *)
From S2P Require Export CkptInv Simulator FileInv.

(** * Loading the segment table *)
Section SegsLoad.
Context {St : Type} `{HB : BlockStore St, HL : !BlockStoreLaws St}.
Abbreviation Fs := (CF2fsSimulator St).

(** The summary of a segment on the medium: the owners of its blocks. *)
Definition summary (l : wlog) (i : Z) : option (list SUMMARY) :=
  b ← log_read (SSA_START_BLK + i) l; t ← as_ssa (body b); Some (sum_entries t).
Definition summaries_ok (l : wlog) : Prop := forall i, 0 <= i < MAIN_SEG_NR ->
  exists t, summary l i = Some t /\ Z.of_nat (length t) = BLOCK_PER_SEG.
(** An entry of the table that describes a segment. *)
Record info_ok (e : SEG_INFO) : Prop := {
  io_bmp : 0 <= si_valid_bmp e < 2 ^ 16;
  io_nr : si_valid_blk_nr e = popcount BLOCK_PER_SEG (si_valid_bmp e);
  io_temp : BT_FF <= si_seg_temp e <= BT_TEMP_NR
}.
Definition infos_ok (st : Z -> option SEG_INFO) : Prop :=
  forall i e, 0 <= i < MAIN_SEG_NR -> st i = Some e -> info_ok e.

(** The page [pg] is held, the segments are [m]. *)
Definition loading (s : Fs) fl pg (u : Fs) (m : Segs) : Prop :=
  exists pa p, u = set_segs m (set_pages pa s) /\ pages_wf pa fl /\ aget (m_pages pa) pg = Some p /\ in_use p = true /\
    Z.of_nat (length (m_segments m)) = MAIN_SEG_NR.

(** A block is read into the page. *)
Lemma load_page s l fl pg u m lba b : loading s fl pg u m -> bs_rep (m_storage s) l -> lba_ok lba -> log_read lba l = Some b ->
  exists u', runs (read_page lba (InCache pg) ;;; body_at pg) u (body b) u' /\ loading s fl pg u' m.
Proof.
  intros (pa & p & -> & Hw & Hp & Hu & Hl) Hs Hok Hb.
  destruct (page_upd_spec pa fl pg p (set_data b) Hw Hp Hu) as (pa' & Hr & Hw' & Hp' & _); [by destruct p|].
  exists (set_segs m (set_pages pa' s)). split.
  - eapply runs_bind.
    { unfold read_page. eapply runs_bind; [by eapply store_read_spec|].
      apply (on_pages_runs _ (set_segs m (set_pages pa s))). exact Hr. }
    unfold body_at, data_at. eapply runs_bind; [eapply runs_bind; [by apply (on_pages_at _ pg (set_data b p))|done]|done].
  - exists pa', (set_data b p). split_and!; [done|done|done|by destruct p|done].
Qed.

(** A segment is changed. *)
Lemma load_seg s fl pg u m i g f : loading s fl pg u m -> aget (m_segments m) i = Some g ->
  exists u', runs (on_segs (seg_upd i f)) u tt u' /\ loading s fl pg u' (with_segs (<[Z.to_nat i := f g]> (m_segments m)) m).
Proof.
  intros (pa & p & -> & Hw & Hp & Hu & Hl) Hg. eexists. split.
  - apply on_segs_runs. by apply seg_upd_runs.
  - exists pa, p. split_and!; [done|done|done|done|]. cbn. by rewrite length_insert.
Qed.
Lemma loading_at s fl pg u m i : loading s fl pg u m -> 0 <= i < MAIN_SEG_NR -> exists g, aget (m_segments m) i = Some g.
Proof. intros (? & ? & _ & _ & _ & _ & Hl) Hi. apply aget_is_Some. by rewrite Hl. Qed.

(** An entry of the table is taken over. *)
Lemma load_info s fl pg u m i e : loading s fl pg u m -> 0 <= i < MAIN_SEG_NR ->
  exists u' m', runs (on_segs (read_seg_info e i)) u tt u' /\ loading s fl pg u' m' /\ m_cur_segs m' = m_cur_segs m /\
    (forall j, 0 <= j -> sit_value m' j = if i =? j then Some e else sit_value m j).
Proof.
  intros H Hi. destruct (loading_at _ _ _ _ _ i H Hi) as [g Hg]. pose proof (aget_bounds _ _ _ Hg) as Hb.
  destruct (load_seg s fl pg u m i g (fun g => mkSeg (si_valid_bmp e) (si_valid_blk_nr e) (si_seg_temp e)
    (nids g) (offsets g) (free_next g)) H Hg) as (u' & Hr & H'). exists u'. eexists. split_and!; [exact Hr|exact H'|done|].
  intros j Hj. unfold sit_value. cbn [m_segments with_segs]. rewrite aget_insert by lia. destruct (i =? j); [|done]. by destruct e.
Qed.

(** ** The three loops *)
Definition load_sit_block (pg ss : Z) : M Fs unit :=
  s <- get ;;
  read_page (get_sit_block ss (m_checkpoint s)) (InCache pg) ;;;
  b <- body_at pg ;;
  t <- opt (as_sit b) ;;
  let seg_id := ss * SIT_ENTRY_PER_BLK in
  mfor (range 0 (sit_copy_nr seg_id)) (fun ii =>
    info <- opt (aget (sit_entries t) ii) ;;
    on_segs (read_seg_info info (seg_id + ii))).

Lemma load_sit_block_spec s l c fl pg u m ss : sit_loadable l c -> bs_rep (m_storage s) l -> m_checkpoint s = c ->
  0 <= ss < SIT_BLK_NR -> loading s fl pg u m ->
  (forall i, 0 <= i < ss * SIT_ENTRY_PER_BLK -> sit_value m i = entry SIT_ENTRY_PER_BLK (sit_disk l c) i) ->
  exists u' m', runs (load_sit_block pg ss) u tt u' /\ loading s fl pg u' m' /\
    forall i, 0 <= i < (ss + 1) * SIT_ENTRY_PER_BLK -> sit_value m' i = entry SIT_ENTRY_PER_BLK (sit_disk l c) i.
Proof.
  intros [_ Hd] Hs Hc Hss H Hm. destruct (Hd ss Hss) as (es & Hes & Hel). pose proof Hes as Hes'. unfold sit_disk, disk in Hes'.
  destruct (log_read _ l) as [b|] eqn:Hlog; [|done]. cbn in Hes'. unfold dec in Hes'.
  destruct (as_sit (body b)) as [tb|] eqn:Has; [|done]. injection Hes' as Hes'.
  assert (Hck : m_checkpoint u = c) by (destruct H as (? & ? & -> & _); exact Hc).
  destruct (load_page s l fl pg u m (get_sit_block ss c) b H Hs) as (u1 & Hr1 & H1); [|exact Hlog|].
  { apply (addr_ok SIT_BLK_NR SIT_START_BLK sit_ver); clia. }
  assert (Hcopy : sit_copy_nr (ss * SIT_ENTRY_PER_BLK) = SIT_ENTRY_PER_BLK).
  { unfold sit_copy_nr. rewrite (proj2 (Z.ltb_ge _ _)); [done|]. clia. }
  enough (Hloop : wp (mfor (range 0 SIT_ENTRY_PER_BLK) (fun ii =>
    info <- opt (aget (sit_entries tb) ii) ;; on_segs (read_seg_info info (ss * SIT_ENTRY_PER_BLK + ii))))
    (fun _ v => exists m', loading s fl pg v m' /\ forall i, 0 <= i < ss * SIT_ENTRY_PER_BLK + SIT_ENTRY_PER_BLK ->
       sit_value m' i = entry SIT_ENTRY_PER_BLK (sit_disk l c) i) (fun _ _ => False) u1).
  { apply wp_runs in Hloop as ([] & u2 & Hr2 & m' & H2 & Hm'). exists u2, m'. split_and!; [|done|].
    - unfold load_sit_block. eapply runs_bind; [done|]. rewrite Hck. eapply runs_assoc, runs_bind; [exact Hr1|].
      rewrite Has. eapply runs_bind; [done|]. cbn zeta. rewrite Hcopy. exact Hr2.
    - intros i Hi. apply Hm'. lia. }
  apply wp_for with (Inv := fun ii v => exists m', loading s fl pg v m' /\ forall i, 0 <= i < ss * SIT_ENTRY_PER_BLK + ii ->
       sit_value m' i = entry SIT_ENTRY_PER_BLK (sit_disk l c) i); [clia| |].
  { exists m. split; [done|]. intros i Hi. apply Hm. lia. }
  intros ii v Hii (m1 & Hv & Hm1). destruct (aget_is_Some (sit_entries tb) ii) as [e He]; [rewrite Hes'; clia|].
  destruct (load_info s fl pg v m1 (ss * SIT_ENTRY_PER_BLK + ii) e Hv) as (v' & m2 & Hr & Hv' & _ & Hm2); [clia|].
  apply wp_runs. exists tt, v'. split; [rewrite He; by eapply runs_bind|]. exists m2. split; [done|]. intros i Hi. rewrite Hm2 by lia.
  destruct (Z.eqb_spec (ss * SIT_ENTRY_PER_BLK + ii) i) as [<-|Hne]; [|apply Hm1; lia].
  assert ((ss * SIT_ENTRY_PER_BLK + ii) / SIT_ENTRY_PER_BLK = ss) as E1 by (symmetry; apply (Z.div_unique _ _ _ ii); clia).
  assert ((ss * SIT_ENTRY_PER_BLK + ii) mod SIT_ENTRY_PER_BLK = ii) as E2 by (symmetry; apply (Z.mod_unique _ _ ss); clia).
  unfold entry. rewrite E1, E2, Hes. cbn. by rewrite <- Hes', He.
Qed.

(** The journal of the checkpoint, newer than the blocks. *)
Lemma load_sit_journal s l c fl pg u m : sit_loadable l c -> m_checkpoint s = c -> loading s fl pg u m ->
  (forall i, 0 <= i < MAIN_SEG_NR -> sit_value m i = entry SIT_ENTRY_PER_BLK (sit_disk l c) i) ->
  exists u' m', runs (mfor (range 0 (sit_jnr c)) (fun ii =>
      s <- get ;;
      j <- opt (aget (sit_journals (m_checkpoint s)) ii) ;;
      on_segs (read_seg_info (sj_seg_info j) (sj_seg_no j)))) u tt u' /\ loading s fl pg u' m' /\ m_cur_segs m' = m_cur_segs m /\
    forall i, 0 <= i < MAIN_SEG_NR -> sit_value m' i = sit_stored l c i.
Proof.
  intros [[C1 C2 C3] _] Hc H Hm.
  set (Inv := fun (k : Z) (v : Fs) => exists m', loading s fl pg v m' /\ m_cur_segs m' = m_cur_segs m /\ forall i, 0 <= i < MAIN_SEG_NR -> sit_value m' i =
    match jlast sj_seg_no sj_seg_info (take (Z.to_nat k) (sit_journals c)) i with
    | Some e => Some e | None => entry SIT_ENTRY_PER_BLK (sit_disk l c) i end).
  match goal with |- exists u' m', runs ?b _ _ _ /\ _ =>
    enough (Hloop : wp b (fun _ v => Inv (sit_jnr c) v) (fun _ _ => False) u)
      by (apply wp_runs in Hloop as ([] & u' & ? & m' & ? & ? & ?); by exists u', m') end.
  apply wp_for; [apply C2| |].
  { by exists m. }
  intros ii v Hii (m1 & Hv & Hc1 & Hm1). destruct (aget_is_Some (sit_journals c) ii) as [j Hj]; [unfold sit_jnr in *; clia|].
  assert (Hkj : 0 <= sj_seg_no j < MAIN_SEG_NR).
  { apply C3. pose proof Hj as [_ Hlk]%aget_Some. apply list_elem_of_lookup. exists (Z.to_nat ii).
    unfold logged, sit_jnr in *. rewrite lookup_take_lt by lia. done. }
  destruct (load_info s fl pg v m1 (sj_seg_no j) (sj_seg_info j) Hv Hkj) as (v' & m2 & Hr & Hv' & Hc2 & Hm2).
  assert (Hck : m_checkpoint v = c) by (destruct Hv as (? & ? & -> & _); exact Hc).
  apply wp_runs. exists tt, v'. split.
  - eapply runs_bind; [done|]. rewrite Hck, Hj. by eapply runs_bind.
  - exists m2. split; [done|]. split; [congruence|]. intros i Hi. rewrite Hm2 by lia. rewrite (jlast_take_succ _ _ _ _ j) by (done || lia).
    destruct (sj_seg_no j =? i); [done|]. by apply Hm1.
Qed.

(** The summaries. *)
Definition load_summary (pg seg_id : Z) : M Fs unit :=
  read_page (SSA_START_BLK + seg_id) (InCache pg) ;;;
  b <- body_at pg ;;
  t <- opt (as_ssa b) ;;
  on_segs (seg_upd seg_id (set_owners (sum_nid <$> sum_entries t) (sum_offset <$> sum_entries t))).
(** The owners that a segment has, as a summary. *)
Definition owned_by (g : SegmentInfo) (t : list SUMMARY) : Prop := nids g = sum_nid <$> t /\ offsets g = sum_offset <$> t.

Lemma load_summaries s l fl pg u m : summaries_ok l -> bs_rep (m_storage s) l -> loading s fl pg u m ->
  exists u' m', runs (mfor (range 0 MAIN_SEG_NR) (load_summary pg)) u tt u' /\ loading s fl pg u' m' /\
    m_cur_segs m' = m_cur_segs m /\ m_dirty_map m' = m_dirty_map m /\
    (forall i, 0 <= i < MAIN_SEG_NR -> sit_value m' i = sit_value m i) /\
    forall i, 0 <= i < MAIN_SEG_NR -> exists g t, aget (m_segments m') i = Some g /\ summary l i = Some t /\ owned_by g t.
Proof.
  intros Hssa Hs H.
  set (Inv := fun (k : Z) (v : Fs) => exists m', loading s fl pg v m' /\ m_cur_segs m' = m_cur_segs m /\ m_dirty_map m' = m_dirty_map m /\
    (forall i, 0 <= i < MAIN_SEG_NR -> sit_value m' i = sit_value m i) /\
    forall i, 0 <= i < k -> exists g t, aget (m_segments m') i = Some g /\ summary l i = Some t /\ owned_by g t).
  enough (Hloop : wp (mfor (range 0 MAIN_SEG_NR) (load_summary pg)) (fun _ v => Inv MAIN_SEG_NR v) (fun _ _ => False) u)
    by (apply wp_runs in Hloop as ([] & u' & ? & m' & ? & ? & ? & ? & ?); by exists u', m').
  apply wp_for; [clia| |].
  { exists m. split_and!; [done|done|done|done|]. intros i Hi. lia. }
  intros k v Hk (m1 & Hv & Hc1 & Hd1 & Hm1 & Ho1). destruct (Hssa k Hk) as (t & Ht & Hlt). pose proof Ht as Ht'. unfold summary in Ht'.
  destruct (log_read _ l) as [b|] eqn:Hb; [|done]. cbn in Ht'. destruct (as_ssa (body b)) as [tb|] eqn:Has; [|done]. injection Ht' as Ht'.
  destruct (load_page s l fl pg v m1 (SSA_START_BLK + k) b Hv Hs) as (v1 & Hr1 & Hv1); [unfold lba_ok; clia|exact Hb|].
  destruct (loading_at _ _ _ _ _ k Hv1 Hk) as [g Hg]. pose proof (aget_bounds _ _ _ Hg) as Hgb.
  destruct (load_seg s fl pg v1 m1 k g (set_owners (sum_nid <$> sum_entries tb) (sum_offset <$> sum_entries tb)) Hv1 Hg) as (v2 & Hr2 & Hv2).
  apply wp_runs. exists tt, v2. split.
  - unfold load_summary. eapply runs_assoc, runs_bind; [exact Hr1|]. rewrite Has. eapply runs_bind; [done|exact Hr2].
  - eexists. split_and!; [exact Hv2|done|done| |].
    + intros i Hi. rewrite <- Hm1 by done. unfold sit_value. cbn [m_segments with_segs]. rewrite aget_insert by lia.
      destruct (Z.eqb_spec k i) as [<-|]; [|done]. by rewrite Hg.
    + intros i Hi. cbn [m_segments with_segs]. rewrite aget_insert by lia. destruct (Z.eqb_spec k i) as [<-|Hne].
      * eexists _, t. split_and!; [done|done|]. by rewrite <- Ht'.
      * destruct (Ho1 i) as (g' & t' & ? & ? & ?); [lia|]. by exists g', t'.
Qed.

(** ** The whole table *)

(** The segments of [m] are those the medium and the checkpoint describe; a
    segment that is put into the free queue loses its temperature. *)
Record segs_loaded l (cs : list CURSEG_INFO) (st : Z -> option SEG_INFO) (m : Segs) : Prop := {
  sl_queue : exists q, segs_wf m q /\ forall i g e, aget (m_segments m) i = Some g -> st i = Some e ->
    seg_temp g = if decide (i ∈ q) then BT_TEMP_NR else si_seg_temp e;
  sl_cur : m_cur_segs m = cs;
  sl_seg i : 0 <= i < MAIN_SEG_NR -> exists g e t, aget (m_segments m) i = Some g /\ st i = Some e /\ summary l i = Some t /\
    valid_bmp g = si_valid_bmp e /\ valid_blk_nr g = si_valid_blk_nr e /\ owned_by g t
}.

Lemma loaded_table l cs st m : Z.of_nat (length (m_segments m)) = MAIN_SEG_NR -> Z.of_nat (length cs) = BT_TEMP_NR ->
  infos_ok st -> summaries_ok l -> (forall i, 0 <= i < MAIN_SEG_NR -> sit_value m i = st i) ->
  (forall i, 0 <= i < MAIN_SEG_NR -> exists g t, aget (m_segments m) i = Some g /\ summary l i = Some t /\ owned_by g t) ->
  table_ok (set_dirty_map (rep SIT_BLK_NR 0) (set_cur_segs cs m)).
Proof.
  intros Hl Hcs Hi Hs Hv Ho. constructor; [done| |done|by vm_compute]. apply Forall_lookup. intros k g Hk.
  assert (Hg : aget (m_segments m) (Z.of_nat k) = Some g) by (apply aget_Some; split; [lia|by rewrite Nat2Z.id]).
  pose proof (aget_bounds _ _ _ Hg) as Hb. rewrite Hl in Hb. destruct (Ho _ Hb) as (g' & t & Hg' & Ht & [E1 E2]). rewrite Hg in Hg'. injection Hg' as <-.
  pose proof (Hv _ Hb) as He. unfold sit_value in He. rewrite Hg in He. cbn in He. destruct (Hi _ _ Hb (eq_sym He)) as [I1 I2 I3].
  destruct (Hs _ Hb) as (t' & Ht' & Hlt). rewrite Ht in Ht'. injection Ht' as <-. cbn in *.
  constructor; rewrite ?E1, ?E2, ?length_fmap; done.
Qed.

Lemma table_linked l cs st m : Z.of_nat (length (m_segments m)) = MAIN_SEG_NR -> Z.of_nat (length cs) = BT_TEMP_NR ->
  infos_ok st -> summaries_ok l -> (forall i, 0 <= i < MAIN_SEG_NR -> sit_value m i = st i) ->
  (forall i, 0 <= i < MAIN_SEG_NR -> exists g t, aget (m_segments m) i = Some g /\ summary l i = Some t /\ owned_by g t) ->
  exists m', runs build_free_link (set_dirty_map (rep SIT_BLK_NR 0) (set_cur_segs cs m)) tt m' /\ segs_loaded l cs st m'.
Proof.
  intros Hl Hcs Hi Hs Hv Ho. pose proof (loaded_table l cs st m Hl Hcs Hi Hs Hv Ho) as Ht. set (m0 := set_dirty_map _ _) in *.
  destruct (build_free_link_spec m0 Ht) as (m' & Hr & Hw & Hc & _ & _ & Hseg). exists m'. split; [exact Hr|]. constructor.
  - exists (free_segs m0 MAIN_SEG_NR). split; [done|]. intros i g' e Hg' He. pose proof (aget_bounds _ _ _ Hg') as Hb.
    rewrite (sw_len _ _ (sw_q _ _ Hw)) in Hb. destruct (Ho _ Hb) as (g & _ & Hg & _). destruct (Hseg i g Hg) as [n Hn]. rewrite Hg' in Hn.
    injection Hn as ->. pose proof (Hv _ Hb) as Hve. unfold sit_value in Hve. rewrite Hg, He in Hve. injection Hve as <-.
    unfold unlinked. rewrite andb_true_r. destruct (is_free_seg m0 i) eqn:Hf.
    + rewrite decide_True; [done|]. apply list_elem_of_filter. split; [done|]. apply elem_of_range. lia.
    + rewrite decide_False; [done|]. intros [Hf' _]%list_elem_of_filter. congruence.
  - rewrite Hc. done.
  - intros i Hi'. destruct (Ho _ Hi') as (g & t & Hg & Ht' & [E1 E2]). destruct (Hseg i g Hg) as [n Hn].
    pose proof (Hv _ Hi') as Hve. unfold sit_value in Hve. rewrite Hg in Hve. cbn in Hve.
    eexists _, _, t. split_and!; [exact Hn|by symmetry|done|..]; unfold unlinked, owned_by; by destruct (is_free_seg m0 i && true).
Qed.

Lemma segs_Load_spec s l c x fl : sit_loadable l c -> summaries_ok l -> infos_ok (sit_stored l c) ->
  Z.of_nat (length (cur_segs (header c))) = BT_TEMP_NR -> m_checkpoint s = c -> bs_rep (m_storage s) l ->
  pages_wf (fs_pages s) (x :: fl) -> Z.of_nat (length (m_segments (fs_segs s))) = MAIN_SEG_NR ->
  exists m pa, runs segs_Load s tt (set_segs m (set_pages pa s)) /\ pages_wf pa (x :: fl) /\
    segs_loaded l (cur_segs (header c)) (sit_stored l c) m.
Proof.
  intros Hd Hssa Hinfo Hcs Hc Hs Hp Hl. destruct (allocate_spec _ _ _ Hp) as (pa & Hr & Hp' & Hx & _).
  assert (H0 : loading s fl x (set_pages pa s) (fs_segs s)).
  { exists pa, page_Init. split_and!; [by destruct s|done|done|done|done]. }
  enough (Hloop : wp (mfor (range 0 (MAIN_SEG_NR / SIT_ENTRY_PER_BLK)) (load_sit_block x))
    (fun _ u => exists m, loading s fl x u m /\ forall i, 0 <= i < MAIN_SEG_NR / SIT_ENTRY_PER_BLK * SIT_ENTRY_PER_BLK ->
       sit_value m i = entry SIT_ENTRY_PER_BLK (sit_disk l c) i) (fun _ _ => False) (set_pages pa s)).
  2:{ apply wp_for with (Inv := fun k u => exists m, loading s fl x u m /\ forall i, 0 <= i < k * SIT_ENTRY_PER_BLK ->
       sit_value m i = entry SIT_ENTRY_PER_BLK (sit_disk l c) i); [done| |].
      - exists (fs_segs s). split; [done|]. intros i Hi. lia.
      - intros k u Hk (m & Hu & Hm). destruct (load_sit_block_spec s l c fl x u m k Hd Hs Hc) as (u' & m' & Hr' & Hu' & Hm'); [|done|done|].
        { change (MAIN_SEG_NR / SIT_ENTRY_PER_BLK) with SIT_BLK_NR in Hk. done. }
        apply wp_runs. exists tt, u'. split; [exact Hr'|]. by exists m'. }
  apply wp_runs in Hloop as ([] & u1 & Hr1 & m1 & H1 & Hm1). change (MAIN_SEG_NR / SIT_ENTRY_PER_BLK * SIT_ENTRY_PER_BLK) with MAIN_SEG_NR in Hm1.
  pose proof H1 as (pa1 & p1 & Eu1 & W1 & P1 & U1 & L1).
  set (u2 := set_segs (set_cur_segs (cur_segs (header c)) m1) (set_pages pa1 s)).
  assert (H2 : loading s fl x u2 (set_cur_segs (cur_segs (header c)) m1)) by (by exists pa1, p1).
  destruct (load_sit_journal s l c fl x u2 _ Hd Hc H2 Hm1) as (u3 & m3 & Hr3 & H3 & Hc3 & Hm3).
  destruct (load_summaries s l fl x u3 m3 Hssa Hs H3) as (u4 & m4 & Hr4 & H4 & Hc4 & _ & Hm4 & Ho4).
  pose proof H4 as (pa4 & p4 & -> & W4 & P4 & U4 & L4).
  destruct (free_spec pa4 fl x p4 W4 P4 U4) as (pa5 & Hr5 & W5 & _).
  assert (Hv4 : forall i, 0 <= i < MAIN_SEG_NR -> sit_value m4 i = sit_stored l c i) by (intros i Hi; by rewrite Hm4, Hm3).
  destruct (table_linked l (cur_segs (header c)) (sit_stored l c) m4 L4 Hcs Hinfo Hssa Hv4 Ho4) as (m6 & Hr6 & Hm6).
  exists m6, pa5. split_and!; [|done|done].
  assert (Hc4' : m_cur_segs m4 = cur_segs (header c)).
  { by rewrite Hc4, Hc3. }
  assert (E4 : set_cur_segs (cur_segs (header c)) m4 = m4) by (rewrite <- Hc4'; by destruct m4).
  unfold segs_Load. eapply runs_bind; [by apply on_pages_runs|]. eapply runs_bind; [exact Hr1|]. eapply runs_bind; [done|].
  rewrite Eu1. cbn [m_checkpoint set_segs set_pages]. rewrite Hc. eapply runs_bind; [by apply on_segs_runs|]. fold u2.
  destruct Hd as [[C1 C2 C3] _]. fold (sit_jnr c).
  rewrite (proj2 (Z.ltb_ge JOURNAL_NR (sit_jnr c))) by lia. eapply runs_bind; [exact Hr3|]. eapply runs_bind; [exact Hr4|].
  eapply runs_bind; [by apply on_pages_runs|]. eapply runs_bind; [by apply on_segs_runs|].
  rewrite E4 in Hr6. apply (on_segs_runs _ (set_segs (set_dirty_map (rep SIT_BLK_NR 0) m4) (set_pages pa5 s)) tt m6). exact Hr6.
Qed.
End SegsLoad.

(** * The root node *)
Section Root.
Context {St : Type} `{HB : BlockStore St, HL : !BlockStoreLaws St} `{HE : External}.
Abbreviation Fs := (CF2fsSimulator St).
Implicit Types (s t u : Fs).

(** The address [v] of the medium holds the node of the root. *)
Definition root_block l (v : Z) (i : INODE) : Prop := 0 <= v < MAIN_BLK_NR /\
  exists pid ino, log_read (phyblk_to_lba v) l = Some (mkBlock BLOCK_INODE (U_node (mkNode ROOT_FID ino pid (N_inode i)))).
Definition load_root : M Fs unit :=
  pg <- ReadNode ROOT_FID ;;
  upd_inode pg (set_ref_count 1) ;;;
  n <- node_of pg ;;
  on_nat (set_node_cache (m_nid n) pg).

Definition cached (x : Z) (n : NatT) : NatT :=
  mkNat (<[Z.to_nat ROOT_FID := x]> (node_cache n)) (free_nr n) (nat_table n) (nat_dirty n) (next_scan n).

Lemma cache_root u x : nat_ok (fs_nat u) -> runs (on_nat (set_node_cache ROOT_FID x)) u tt (set_nat (cached x (fs_nat u)) u).
Proof.
  intros H. apply on_nat_runs. unfold runs, set_node_cache, bind, get, opt. rewrite aset_is_Some by (rewrite (no_cache _ H); clia). done.
Qed.

(** The root is read from the medium, and its page entered as the page of its
    number. *)
Lemma read_root u l x fl v i : nat_ok (fs_nat u) -> pages_wf (fs_pages u) (x :: fl) -> bs_rep (m_storage u) l -> root_block l v i ->
  exists pa ino pid, runs (pg <- on_pages allocate ;;
      read_page (phyblk_to_lba v) (InCache pg) ;;;
      on_pages (page_upd pg (fun p => set_addr ROOT_FID INVALID16 (set_phy_blk_of v p))) ;;;
      on_nat (set_node_cache ROOT_FID pg) ;;;
      d <- data_at pg ;;
      if negb (m_type d =? BLOCK_INDEX) && negb (m_type d =? BLOCK_INODE)
      then throw (FsError ERR_WRONG_BLOCK_TYPE) else
      when (m_type d =? BLOCK_INODE) (upd_inode pg (set_ref_count 0)) ;;;
      ret pg) u x (set_nat (cached x (fs_nat u)) (set_pages pa u)) /\ pages_wf pa fl /\
    node_at pa x (mkNode ROOT_FID ino pid (N_inode (set_ref_count 0 i))).
Proof.
  intros Hn Hp Hs (Hv & pid & ino & Hb). destruct (allocate_spec _ _ _ Hp) as (pa1 & R1 & W1 & X1 & _).
  set (b := mkBlock BLOCK_INODE (U_node (mkNode ROOT_FID ino pid (N_inode i)))) in *.
  destruct (page_upd_spec pa1 fl x page_Init (set_data b) W1 X1) as (pa2 & R2 & W2 & X2 & _); [done|done|].
  destruct (page_upd_spec pa2 fl x (set_data b page_Init) (fun p => set_addr ROOT_FID INVALID16 (set_phy_blk_of v p)) W2 X2)
    as (pa3 & R3 & W3 & X3 & _); [done|done|].
  set (u3 := set_pages pa3 u). set (u4 := set_nat (cached x (fs_nat u)) u3).
  destruct (upd_inode_runs u4 fl x ROOT_FID ino pid i (set_ref_count 0) W3) as (pa5 & R5 & W5 & N5 & _); [by eexists|].
  exists pa5, ino, pid. split_and!; [|done|done].
  eapply runs_bind; [by apply on_pages_runs|]. eapply runs_bind.
  { unfold read_page. eapply runs_bind; [eapply store_read_spec; [exact Hs| |exact Hb]|].
    - unfold lba_ok, phyblk_to_lba. clia.
    - apply (on_pages_runs _ (set_pages pa1 u)). exact R2. }
  eapply runs_bind; [apply (on_pages_runs _ (set_pages pa2 (set_pages pa1 u))); exact R3|].
  change (set_pages pa3 (set_pages pa2 (set_pages pa1 u))) with u3.
  eapply runs_bind; [by apply (cache_root u3)|]. change (set_nat (cached x (fs_nat u3)) u3) with u4.
  eapply runs_bind; [unfold data_at; eapply runs_bind; [by apply (on_pages_at u4 x _ X3)|done]|].
  cbn [data set_addr set_phy_blk_of set_data m_type b]. eapply runs_bind; [exact R5|done].
Qed.

Lemma load_root_spec u l x fl v i : nat_ok (fs_nat u) -> aget (nat_table (fs_nat u)) ROOT_FID = Some v ->
  aget (node_cache (fs_nat u)) ROOT_FID = Some INVALID32 -> pages_wf (fs_pages u) (x :: fl) -> bs_rep (m_storage u) l ->
  root_block l v i ->
  exists pa ino, runs load_root u tt (set_nat (cached x (fs_nat u)) (set_pages pa u)) /\ pages_wf pa fl /\
    node_at pa x (mkNode ROOT_FID ino x (N_inode (set_ref_count 1 i))).
Proof.
  intros Hn Hv Hc Hp Hs Hb. destruct (read_root u l x fl v i Hn Hp Hs Hb) as (pa1 & ino & pid & R1 & W1 & N1).
  set (u1 := set_nat (cached x (fs_nat u)) (set_pages pa1 u)) in *.
  destruct (put_body_runs u1 fl x _ (mkNode ROOT_FID ino x (N_inode (set_ref_count 0 i))) W1 N1) as (pa2 & R2 & (W2 & N2 & _) & _).
  destruct (upd_inode_runs (set_pages pa2 u1) fl x ROOT_FID ino x _ (set_ref_count 1) W2 N2) as (pa3 & R3 & W3 & N3 & _).
  exists pa3, ino. split_and!; [|exact W3|by destruct i].
  assert (Hn1 : nat_ok (fs_nat u1)) by (destruct Hn; constructor; cbn; rewrite ?length_insert; done).
  unfold load_root. eapply runs_bind.
  - unfold ReadNode. change (NODE_NR <=? ROOT_FID) with false. cbn iota.
    eapply runs_bind.
    { assert (Rk : runs (node_cache_at ROOT_FID) (fs_nat u) INVALID32 (fs_nat u)).
      { unfold runs, node_cache_at, bind, get, opt. by rewrite Hc. }
      apply on_nat_runs in Rk. replace (set_nat (fs_nat u) u) with u in Rk by (by destruct u). exact Rk. }
    change (is_valid32 INVALID32) with false. cbn iota. eapply runs_bind.
    { eapply runs_bind.
      { assert (Rk : runs (get_phy_blk ROOT_FID) (fs_nat u) v (fs_nat u)).
        { unfold get_phy_blk. change (NODE_NR <=? ROOT_FID) with false. cbn iota. unfold runs, bind, get, opt. by rewrite Hv. }
        apply on_nat_runs in Rk. replace (set_nat (fs_nat u) u) with u in Rk by (by destruct u). exact Rk. }
      destruct Hb as (Hvb & _). rewrite (proj2 (Z.eqb_neq v INVALID16)) by clia. exact R1. }
    eapply runs_bind; [|done]. unfold set_page_id. eapply runs_bind; [by apply (node_of_runs u1)|exact R2].
  - eapply runs_bind; [exact R3|]. eapply runs_bind; [by apply (node_of_runs (set_pages pa3 (set_pages pa2 u1)))|]. cbn [m_nid].
    pose proof (cache_root (set_pages pa3 (set_pages pa2 u1)) x Hn1) as Rc.
    assert (E : cached x (fs_nat (set_pages pa3 (set_pages pa2 u1))) = cached x (fs_nat u)).
    { unfold cached. cbn. by rewrite list_insert_insert_eq. }
    rewrite E in Rc. exact Rc.
Qed.
End Root.

(** * Mounting *)
Section Mount.
Context {St : Type} `{HB : BlockStore St, HL : !BlockStoreLaws St} `{HE : External}.
Abbreviation Fs := (CF2fsSimulator St).
Implicit Types (s t u : Fs) (nt : Z -> option Z) (st : Z -> option SEG_INFO).

(** What a mount needs of the simulator's memory: free pages, arrays of the
    sizes the code declares, and no page for the root, as after [Reset]. *)
Record mountable (t : Fs) (fl : list Z) : Prop := {
  mt_pages : pages_wf (fs_pages t) fl;
  mt_room : NAT_BLK_NR + 1 <= Z.of_nat (length fl);
  mt_table : Z.of_nat (length (nat_table (fs_nat t))) = NODE_NR;
  mt_cache : Z.of_nat (length (node_cache (fs_nat t))) = NODE_NR;
  mt_root : aget (node_cache (fs_nat t)) ROOT_FID = Some INVALID32;
  mt_segs : Z.of_nat (length (m_segments (fs_segs t))) = MAIN_SEG_NR;
  mt_sits : Z.of_nat (length (sit_journals (m_checkpoint t))) = JOURNAL_NR
}.
(** The tables [nt] and [st] describe a volume on the medium [l]: the entries of
    segments are sound, and the root node is where its entry says. *)
Record volume_ok l (cs : list CURSEG_INFO) nt st : Prop := {
  vk_cur : Z.of_nat (length cs) = BT_TEMP_NR;
  vk_info : infos_ok st;
  vk_root : exists v i, nt ROOT_FID = Some v /\ root_block l v i
}.
(** The simulator [t] has mounted [l] with checkpoint [c] and these tables. *)
Record mounted l (c : CKPT_BLOCK) nt st t : Prop := {
  md_ckpt : m_checkpoint t = c;
  md_store : bs_rep (m_storage t) l;
  md_nat : nat_ok (fs_nat t);
  md_table i : 0 <= i < NODE_NR -> aget (nat_table (fs_nat t)) i = nt i;
  md_segs : segs_loaded l (cur_segs (header c)) st (fs_segs t);
  md_root : exists v i x ino, nt ROOT_FID = Some v /\ root_block l v i /\
    aget (node_cache (fs_nat t)) ROOT_FID = Some x /\
    node_at (fs_pages t) x (mkNode ROOT_FID ino x (N_inode (set_ref_count 1 i)))
}.

Lemma segs_loaded_ext l cs st st' m : (forall i, 0 <= i < MAIN_SEG_NR -> st i = st' i) ->
  segs_loaded l cs st m -> segs_loaded l cs st' m.
Proof.
  intros E [(q & Hw & Hq) Hc Hs]. constructor; [exists q; split; [done|]|done|].
  - intros i g e Hg He. apply (Hq i); [done|]. rewrite E; [done|]. apply aget_bounds in Hg. by rewrite (sw_len _ _ (sw_q _ _ Hw)) in Hg.
  - intros i Hi. rewrite <- E by done. by apply Hs.
Qed.

Lemma Mount_spec l id c nt st t fl : id = 0 \/ id = 1 -> found l id c nt st -> summaries_ok l ->
  volume_ok l (cur_segs (header c)) nt st -> bs_rep (m_storage t) l -> mountable t fl ->
  exists t', runs Mount t tt t' /\ mounted l c nt st t'.
Proof.
  intros Hid [F1 F2 F3 F4 F5 F6] Hssa [V1 V2 (v & i & Hv & Hvb)] Hs [M1 M2 M3 M4 Mr Ms M5].
  destruct fl as [|x fl]; [cbn in M2; clia|].
  destruct (load_checkpoint_spec t l id c Hid Hs F1 F2 M5) as (n & R1).
  set (u1 := set_cur_ckpt id (set_ckpt c (set_health_ckpt n t))) in *.
  destruct (segs_Load_spec u1 l c x fl F6 Hssa) as (m & pa & R2 & W2 & Hm); [|done|done|done|done|done|].
  { intros j e Hj He. apply (V2 j); [done|]. by rewrite <- F4. }
  set (u2 := set_segs m (set_pages pa u1)) in *.
  destruct (nat_Load_spec l u2 (x :: fl) F5) as (u3 & R3 & Hok & Hs3 & Hc3 & _ & Ht3 & Hg3 & Hca3 & (fl3 & W3 & L3)); [done|done|lia|done|done|].
  destruct fl3 as [|y fl3]; [cbn in L3, M2; clia|].
  assert (Hroot : aget (nat_table (fs_nat u3)) ROOT_FID = Some v).
  { destruct (Ht3 ROOT_FID) as [E _]; [clia|]. etrans; [exact E|]. etrans; [apply F3; clia|done]. }
  destruct (load_root_spec u3 l y fl3 v i Hok Hroot) as (pa4 & ino & R4 & W4 & N4); [by rewrite Hca3|done|done|done|].
  exists (set_nat (cached y (fs_nat u3)) (set_pages pa4 u3)). split.
  - unfold Mount. eapply runs_bind; [exact R1|]. eapply runs_bind; [exact R2|]. eapply runs_bind; [exact R3|exact R4].
  - constructor; cbn [m_checkpoint m_storage fs_nat fs_segs fs_pages set_nat set_pages].
    + exact Hc3.
    + exact Hs3.
    + destruct Hok. constructor; cbn; rewrite ?length_insert; done.
    + intros j Hj. cbn [nat_table cached]. destruct (Ht3 j Hj) as [E _]. etrans; [exact E|]. by apply F3.
    + rewrite Hg3. by apply (segs_loaded_ext l _ (sit_stored l c)).
    + exists v, i, y, ino. split_and!; [done|done| |exact N4]. cbn [node_cache cached]. apply aget_insert_eq. rewrite (no_cache _ Hok). clia.
Qed.

(** Metadata that a checkpoint does not write. *)
Lemma above_meta l (ws : wlog) k a : (forall a, a ∈ ws.*1 -> a < SSA_START_BLK) -> (k <= length ws)%nat -> SSA_START_BLK <= a ->
  log_read a (drop k (ws ++ l)) = log_read a l.
Proof.
  intros Hm Hk Ha. rewrite drop_app_le by done. apply log_read_app. rewrite fmap_drop. intros Hin%elem_drop%Hm. lia.
Qed.
Lemma root_above l ws k v i : (forall a, a ∈ ws.*1 -> a < SSA_START_BLK) -> (k <= length ws)%nat -> root_block l v i ->
  root_block (drop k (ws ++ l)) v i.
Proof. intros Hm Hk [Hv H]. split; [done|]. rewrite (above_meta l) by (done || unfold phyblk_to_lba; clia). done. Qed.
Lemma summary_above l ws k i : (forall a, a ∈ ws.*1 -> a < SSA_START_BLK) -> (k <= length ws)%nat -> 0 <= i ->
  summary (drop k (ws ++ l)) i = summary l i.
Proof. intros Hm Hk Hi. unfold summary. by rewrite (above_meta l) by (done || lia). Qed.

(** C1: a checkpoint is atomic.  Take a state that can be checkpointed (every
    clean entry of the two tables is on the medium, the checkpoint in memory is
    the newest there) on a medium with a summary for every segment, where both
    the tables on the medium and those in memory describe a volume: sound
    entries of segments, and the root node where its entry says.  Then
    [f2fs_write_checkpoint] returns, and whatever number [k] of its last writes
    a crash loses, [Mount] of what is left, in a simulator with enough free pages
    and no cached root, returns with the node table, the segment table (its
    bitmaps and counts from the table, the owners of blocks from the summaries,
    a well-formed free queue), the current segments and the root node of one of
    two moments: with nothing lost those of memory at the checkpoint; with
    anything lost those that the medium had before it. *)
Theorem checkpoint_atomic l s fl : ckpt_ready l s fl -> summaries_ok l ->
  volume_ok l (cur_segs (header (m_checkpoint s))) (nat_stored l (m_checkpoint s)) (sit_stored l (m_checkpoint s)) ->
  volume_ok l (m_cur_segs (fs_segs s)) (nat_value (fs_nat s)) (sit_value (fs_segs s)) ->
  exists s' ws, runs f2fs_write_checkpoint s tt s' /\ bs_rep (m_storage s') (ws ++ l) /\
    m_cur_ckpt s' = 1 - m_cur_ckpt s /\ cur_segs (header (m_checkpoint s')) = m_cur_segs (fs_segs s) /\
    forall k t flt, (k <= length ws)%nat -> bs_rep (m_storage t) (drop k (ws ++ l)) -> mountable t flt ->
      exists t', runs Mount t tt t' /\
        if decide (k = 0%nat)
        then mounted (drop k (ws ++ l)) (m_checkpoint s') (nat_value (fs_nat s)) (sit_value (fs_segs s)) t'
        else mounted (drop k (ws ++ l)) (m_checkpoint s) (nat_stored l (m_checkpoint s)) (sit_stored l (m_checkpoint s)) t'.
Proof.
  intros H Hssa [V1 V2 (v & i & Hv & Hvb)] [V1' V2' (v' & i' & Hv' & Hvb')].
  destruct (write_checkpoint_spec l s fl H) as (s' & ws & Hr & [D1 D2 D3 D4 Dm D5]).
  pose proof (cr_id _ _ _ H) as Hid. destruct (other_slot _ Hid) as [_ Hid'].
  exists s', ws. split_and!; [exact Hr|exact D1|exact D2|exact D3|]. intros k t flt Hk Ht Hm.
  assert (Hssa' : summaries_ok (drop k (ws ++ l))).
  { intros j Hj. rewrite (summary_above l ws k j) by (done || lia). by apply Hssa. }
  destruct (decide (k = 0%nat)) as [->|Hne].
  - apply (Mount_spec _ _ _ _ _ t flt Hid' D4 Hssa'); [|done|done]. rewrite D3. constructor; [done|done|].
    exists v', i'. split; [done|]. exact (root_above l ws 0 v' i' Dm Hk Hvb').
  - apply (Mount_spec _ _ _ _ _ t flt Hid (D5 k ltac:(lia)) Hssa'); [|done|done]. constructor; [done|done|].
    exists v, i. split; [done|]. by apply root_above.
Qed.
End Mount.

(** * A concrete volume

    The root is at block 20 on the medium; in memory it has been written to block
    36, and one segment has been written, since the checkpoint. *)
Definition root_inode (n : Z) : INODE := mkInode 0 n F2FS_FILE_DIR 0 1 (rep INDEX_TABLE_SIZE INVALID16).
Definition root_written (v n : Z) : Z * BLOCK_DATA :=
  (phyblk_to_lba v, mkBlock BLOCK_INODE (U_node (mkNode ROOT_FID ROOT_FID 0 (N_inode (root_inode n))))).
Definition summary_blocks : wlog :=
  (fun i => (SSA_START_BLK + i, mkBlock (m_type (data page_Init)) (U_ssa (mkSummaryBlock (rep BLOCK_PER_SEG (mkSummary INVALID16 INVALID16)))))) <$>
    range 0 MAIN_SEG_NR.
Definition nat_at (v : Z) : list Z := <[0%nat := v]> (rep NODE_NR INVALID16).
Definition rooted_log : wlog :=
  root_written 36 2 :: root_written 20 1 :: summary_blocks ++ slot_blocks 0 ckpt_old ++
  [(ckpt_base 1, mkBlock BLOCK_CKPT_HEADER U_zero)] ++ nat_blocks (nat_at 20) ++ sit_blocks (seg_value <$> m_segments formatted).
Definition fs_rooted : CF2fsSimulator LogStore :=
  mkFs ckpt_old (set_dirty_map (1 :: rep (SIT_BLK_NR - 1) 0) one_block)
    (mkNat (rep NODE_NR INVALID32) 127 (nat_at 36) [1; 0; 0; 0] 1) (mkLog rooted_log 0)
    (mkInfo 0 0 0 0 0 0 0 0 0 0 0 0 0) pages_sixteen [] 0 0 0 0 0 0 0 page_local.

Lemma rooted_nat : nat_flushable rooted_log fs_rooted (range 0 16).
Proof.
  constructor.
  - reflexivity.
  - exact pages_sixteen_wf.
  - by vm_compute.
  - apply (forall_range _ 0 NAT_BLK_NR (fun nn => has_length NAT_ENTRY_PER_BLK
      (disk as_nat nat_entries NAT_BLK_NR NAT_START_BLK nat_ver rooted_log ckpt_old nn))).
    { intros nn. apply has_length_spec. } by vm_compute.
  - constructor; [by vm_compute|by vm_compute|]. intros j. vm_compute. intros Hj. by inversion Hj.
  - constructor; by vm_compute.
  - apply (forall_range (fun i => nat_isdirty (fs_nat fs_rooted) i = false -> nat_stored rooted_log ckpt_old i = nat_value (fs_nat fs_rooted) i)
      0 NODE_NR (fun i => nat_isdirty (fs_nat fs_rooted) i ||
      bool_decide (nat_stored rooted_log ckpt_old i = nat_value (fs_nat fs_rooted) i))).
    { intros i [Hd|Hb%bool_decide_eq_true]%orb_true_iff Hn; [|exact Hb]. congruence. }
    by vm_compute.
Qed.
Lemma rooted_sit : sit_flushable rooted_log fs_rooted (range 0 16).
Proof.
  constructor.
  - reflexivity.
  - exact pages_sixteen_wf.
  - by vm_compute.
  - apply (forall_range _ 0 SIT_BLK_NR (fun nn => has_length SIT_ENTRY_PER_BLK
      (disk as_sit sit_entries SIT_BLK_NR SIT_START_BLK sit_ver rooted_log ckpt_old nn))).
    { intros nn. apply has_length_spec. } by vm_compute.
  - constructor; [by vm_compute|by vm_compute|]. intros j. vm_compute. intros Hj. by inversion Hj.
  - constructor; by vm_compute.
  - apply (forall_range (fun i => sit_isdirty (fs_segs fs_rooted) i = false -> sit_stored rooted_log ckpt_old i = sit_value (fs_segs fs_rooted) i)
      0 MAIN_SEG_NR (fun i => sit_isdirty (fs_segs fs_rooted) i ||
      bool_decide (sit_stored rooted_log ckpt_old i = sit_value (fs_segs fs_rooted) i))).
    { intros i [Hd|Hb%bool_decide_eq_true]%orb_true_iff Hn; [|exact Hb]. congruence. }
    by vm_compute.
Qed.
Lemma rooted_ready : ckpt_ready rooted_log fs_rooted (range 0 16).
Proof.
  constructor; [exact rooted_nat|exact rooted_sit|by left| | |by vm_compute].
  - constructor; [by vm_compute|eexists; by vm_compute| |by vm_compute|by vm_compute].
    intros ii Hi. exists BLOCK_CKPT_SIT_JOURNAL. assert (H : ii = 0 \/ ii = 1 \/ ii = 2 \/ ii = 3) by clia.
    destruct H as [->|[->|[->| ->]]]; by vm_compute.
  - eexists. split; [by vm_compute|]. right. exists CKPT_HEAD_zero. split; [done|]. cbn. split; [lia|right; vm_compute; done].
Qed.
Lemma rooted_summaries : summaries_ok rooted_log.
Proof.
  unfold summaries_ok. apply (forall_range (fun i => exists t, summary rooted_log i = Some t /\ Z.of_nat (length t) = BLOCK_PER_SEG)
    0 MAIN_SEG_NR (fun i => has_length BLOCK_PER_SEG (summary rooted_log i))); [|by vm_compute].
  intros i. apply has_length_spec.
Qed.
(** Soundness of entries, by evaluation. *)
Definition info_test (e : SEG_INFO) : bool :=
  (0 <=? si_valid_bmp e) && (si_valid_bmp e <? 2 ^ 16) && (si_valid_blk_nr e =? popcount BLOCK_PER_SEG (si_valid_bmp e)) &&
  (BT_FF <=? si_seg_temp e) && (si_seg_temp e <=? BT_TEMP_NR).
Lemma infos_test (st : Z -> option SEG_INFO) :
  forallb (fun i => match st i with Some e => info_test e | None => true end) (range 0 MAIN_SEG_NR) = true -> infos_ok st.
Proof.
  intros H i e Hi He. pose proof (proj1 (forallb_forall _ _) H i) as Ht.
  specialize (Ht (proj1 (list_elem_of_In _ _) (proj2 (elem_of_range _ _ _) Hi))). cbv beta in Ht. rewrite He in Ht. unfold info_test in Ht.
  rewrite !andb_true_iff, !Z.leb_le, Z.ltb_lt, Z.eqb_eq in Ht. constructor; tauto.
Qed.
Lemma rooted_volume : volume_ok rooted_log (cur_segs (header ckpt_old)) (nat_stored rooted_log ckpt_old) (sit_stored rooted_log ckpt_old) /\
  volume_ok rooted_log (m_cur_segs (fs_segs fs_rooted)) (nat_value (fs_nat fs_rooted)) (sit_value (fs_segs fs_rooted)).
Proof.
  split; (constructor; [by vm_compute|apply infos_test; by vm_compute|]).
  - exists 20, (root_inode 1). split; [by vm_compute|]. split; [clia|]. exists 0, ROOT_FID. by vm_compute.
  - exists 36, (root_inode 2). split; [by vm_compute|]. split; [clia|]. exists 0, ROOT_FID. by vm_compute.
Qed.
(** A simulator after [Reset], on the medium [l]. *)
Definition fs_reset (l : wlog) : CF2fsSimulator LogStore :=
  mkFs CKPT_BLOCK_zero (mkSegs (rep MAIN_SEG_NR SegmentInfo_ff) (rep BT_TEMP_NR CURSEG_ff) (rep SIT_BLK_NR 0) INVALID16 INVALID16 0 0 INVALID16 INVALID32)
    (mkNat (rep NODE_NR INVALID32) 0 (rep NODE_NR INVALID16) (rep NAT_BLK_NR 0) 0) (mkLog l 0)
    (mkInfo 0 0 0 0 0 0 0 0 0 0 0 0 0) pages_sixteen [] 0 0 0 0 0 0 0 page_local.
Lemma reset_mountable l : mountable (fs_reset l) (range 0 16).
Proof. constructor; [exact pages_sixteen_wf|by vm_compute..]. Qed.

Section Example.
#[local] Existing Instance sample_external.

(** With nothing lost the root is found at block 36, with one write lost at
    block 20. *)
Lemma checkpoint_atomic_witness :
  ckpt_ready rooted_log fs_rooted (range 0 16) /\
  exists ws, (0 < length ws)%nat /\
    (exists t, runs Mount (fs_reset (ws ++ rooted_log)) tt t /\ aget (nat_table (fs_nat t)) ROOT_FID = Some 36) /\
    (exists t, runs Mount (fs_reset (drop 1 (ws ++ rooted_log))) tt t /\ aget (nat_table (fs_nat t)) ROOT_FID = Some 20).
Proof.
  split; [exact rooted_ready|].
  destruct (checkpoint_atomic rooted_log fs_rooted (range 0 16) rooted_ready rooted_summaries (proj1 rooted_volume) (proj2 rooted_volume))
    as (s' & ws & Hr & Hs & _ & _ & H).
  assert (Hlen : (0 < length ws)%nat).
  { assert (E : (length (log (m_storage (f2fs_write_checkpoint fs_rooted).2)) =? length rooted_log)%nat = false)
      by (vm_compute; reflexivity).
    unfold runs in Hr. rewrite Hr in E. change (log (m_storage s') = ws ++ rooted_log) in Hs.
    cbn [snd] in E. rewrite Hs, length_app in E. apply Nat.eqb_neq in E. lia. }
  exists ws. split; [exact Hlen|]. split.
  - destruct (H 0%nat (fs_reset (ws ++ rooted_log)) (range 0 16)) as (t & Rt & M); [lia|reflexivity|apply reset_mountable|].
    cbn in M. exists t. split; [exact Rt|]. etrans; [apply (md_table _ _ _ _ _ M); clia|by vm_compute].
  - destruct (H 1%nat (fs_reset (drop 1 (ws ++ rooted_log))) (range 0 16)) as (t & Rt & M); [lia|reflexivity|apply reset_mountable|].
    cbn in M. exists t. split; [exact Rt|]. etrans; [apply (md_table _ _ _ _ _ M); clia|by vm_compute].
Defined.
End Example.
