(* ===== verification/RefFs.v ===== *)
(** RefFs: the reference file system that the tester compares the simulator
    with, reference_fs.h and reference_fs.cpp.  A [CRefFile*] is an index into
    [m_files].  The encoding buffers are modelled as memory: an update
    overwrites a prefix and leaves the rest. *)
From S2P Require Export Simulator.

Definition MAX_FILE_NUM : Z := 256.
Definition MAX_CHILD_NUM : Z := 64.
Definition MAX_ENCODE_SIZE : Z := MAX_FILE_NUM * 2.
Definition MAX_FILE_VERSION : Z := 2.

Inductive OP_CODE :=
  | OP_NOP | OP_NO_EFFECT
  | OP_THREAD_CREATE | OP_THREAD_EXIT
  | OP_FILE_CREATE | OP_FILE_CLOSE | OP_FILE_READ | OP_FILE_WRITE | OP_FILE_FLUSH
  | OP_FILE_OPEN | OP_FILE_DELETE | OP_FILE_OVERWRITE
  | OP_DIR_CREATE | OP_DIR_DELETE | OP_MOVE
  | OP_DEMOUNT_MOUNT | OP_POWER_OFF_RECOVER
  | OP_FILE_VERIFY
  | OP_MARK_TRACE_BEGIN.
#[export] Instance OP_CODE_eq_dec : EqDecision OP_CODE.
Proof. solve_decision. Defined.

Record CRefFile := mkRef {
  rf_size : Z; rf_next : Z; m_fn : cstring;
  m_encode : list Z; m_encode_size : Z;
  m_children : list Z; m_parent : Z; m_depth : Z; m_ver : Z; rf_fid : Z;
  m_is_open : bool; m_is_dir : bool
}.
Record CReferenceFs := mkRefFs {
  m_files : list CRefFile;
  m_free_list : Z; m_used_list : Z; m_free_num : Z; m_opened : Z;
  m_op_code : list Z; m_op_code_len : Z;
  m_file_num : Z; m_dir_num : Z; m_reset_count : Z
}.

(** Memory filled with zeros. *)
Definition CRefFile_zero : CRefFile :=
  mkRef 0 0 [] (rep MAX_ENCODE_SIZE 0) 0 (rep MAX_CHILD_NUM 0) 0 0 0 0 false false.

(** * Strings *)
Definition LBRACK : Z := 91.
Definition RBRACK : Z := 93.
Definition LPAR : Z := 40.
Definition RPAR : Z := 41.
Definition SHARP : Z := 35.

(** ["%d"] of a number that is not negative. *)
Fixpoint digits (fuel : nat) (n : Z) (acc : list Z) : list Z :=
  match fuel with
  | O => acc
  | S fuel' =>
      let acc := (48 + n mod 10) :: acc in
      if n <? 10 then acc else digits fuel' (n / 10) acc
  end.
Definition print_dec (n : Z) : list Z := digits 11 n [].

(** [strcmp] on two buffers; running off the end of a buffer has no value. *)
Fixpoint strcmp (a b : list Z) : option comparison :=
  match a, b with
  | x :: a', y :: b' =>
      if x =? y then if x =? 0 then Some Eq else strcmp a' b'
      else Some (x ?= y)
  | _, _ => None
  end.

(** Write [bytes] at the start of a buffer. *)
Definition overwrite (bytes buf : list Z) : list Z := bytes ++ drop (length bytes) buf.

(** [qsort_s].  The code relies on a permutation that is sorted; the order of
    elements that compare equal is not determined, here it is the given one. *)
Section Sort.
Context {A : Type} (cmp : A -> A -> option comparison).
Fixpoint insert_sorted (a : A) (l : list A) : option (list A) :=
  match l with
  | [] => Some [a]
  | b :: l' =>
      c ← cmp a b;
      match c with
      | Gt => r ← insert_sorted a l'; Some (b :: r)
      | _ => Some (a :: l)
      end
  end.
Fixpoint qsort (l : list A) : option (list A) :=
  match l with
  | [] => Some []
  | a :: l' => r ← qsort l'; insert_sorted a r
  end.
End Sort.

(** * Files *)
Abbreviation Files := (list CRefFile).
Definition rf_upd (i : Z) (f : CRefFile -> CRefFile) (l : Files) : option Files :=
  x ← aget l i; aset l i (f x).
Definition set_encode (e : list Z) (n : Z) (f : CRefFile) : CRefFile :=
  mkRef (rf_size f) (rf_next f) (m_fn f) e n (m_children f) (m_parent f) (m_depth f) (m_ver f)
    (rf_fid f) (m_is_open f) (m_is_dir f).
Definition set_children (n : Z) (c : list Z) (f : CRefFile) : CRefFile :=
  mkRef n (rf_next f) (m_fn f) (m_encode f) (m_encode_size f) c (m_parent f) (m_depth f) (m_ver f)
    (rf_fid f) (m_is_open f) (m_is_dir f).
Definition set_next (n : Z) (f : CRefFile) : CRefFile :=
  mkRef (rf_size f) n (m_fn f) (m_encode f) (m_encode_size f) (m_children f) (m_parent f)
    (m_depth f) (m_ver f) (rf_fid f) (m_is_open f) (m_is_dir f).
Definition set_rf_fid (n : Z) (f : CRefFile) : CRefFile :=
  mkRef (rf_size f) (rf_next f) (m_fn f) (m_encode f) (m_encode_size f) (m_children f) (m_parent f)
    (m_depth f) (m_ver f) n (m_is_open f) (m_is_dir f).
Definition set_open_flag (b : bool) (f : CRefFile) : CRefFile :=
  mkRef (rf_size f) (rf_next f) (m_fn f) (m_encode f) (m_encode_size f) (m_children f) (m_parent f)
    (m_depth f) (m_ver f) (rf_fid f) b (m_is_dir f).
Definition set_size_ver (n v : Z) (f : CRefFile) : CRefFile :=
  mkRef n (rf_next f) (m_fn f) (m_encode f) (m_encode_size f) (m_children f) (m_parent f)
    (m_depth f) v (rf_fid f) (m_is_open f) (m_is_dir f).
Definition set_fn (s : cstring) (f : CRefFile) : CRefFile :=
  mkRef (rf_size f) (rf_next f) s (m_encode f) (m_encode_size f) (m_children f) (m_parent f)
    (m_depth f) (m_ver f) (rf_fid f) (m_is_open f) (m_is_dir f).

(** [CRefFile::InitFile] *)
Definition InitFile (parent_id : Z) (parent : option CRefFile) (path : cstring) (isdir : bool)
    (fid : Z) (f : CRefFile) : option CRefFile :=
  if MAX_PATH_SIZE <? Z.of_nat (length path) then None else
  let text := if isdir then [LBRACK; RBRACK] else [LPAR; 48; RPAR] in
  depth ← (if is_invalid32 parent_id then Some 0
           else p ← parent; Some (w32 (m_depth p + 1)));
  Some (mkRef 0 (rf_next f) path (overwrite (text ++ [0]) (m_encode f)) (Z.of_nat (length text))
          (rep MAX_CHILD_NUM 0) parent_id depth 0 fid false isdir).

(** * Encoding *)

(** [CompareEncode] *)
Definition CompareEncode (files : Files) (fid1 fid2 : Z) : option comparison :=
  f1 ← aget files fid1; f2 ← aget files fid2; strcmp (m_encode f1) (m_encode f2).

Definition SCALE : Z := MAIN_BLK_NR / 10.
(** The code of a file: its size in steps of [SCALE] blocks, and whether it is
    open. *)
Definition file_code (f : CRefFile) : list Z :=
  let ver := (w32 (rf_size f + BLOCK_SIZE - 1) / BLOCK_SIZE) / SCALE in
  [LPAR] ++ print_dec ver ++ (if m_is_open f then [SHARP] else []) ++ [RPAR].
(** The code of an entry as it stands in its buffer. *)
Definition code_of (f : CRefFile) : list Z := take (Z.to_nat (m_encode_size f)) (m_encode f).

Definition ref_cell (i : Z) : M Files CRefFile := l <- get ;; opt (aget l i).
Definition ref_cell_upd (i : Z) (f : CRefFile -> CRefFile) : M Files unit :=
  l <- get ;; l <- opt (rf_upd i f l) ;; put l.
(** [*ptr = c], [memcpy_s(ptr, .., len)]: [ptr] is [m_encode + m_encode_size]. *)
Definition append_code (i : Z) (bytes : list Z) : M Files unit :=
  f <- ref_cell i ;;
  let n := Z.to_nat (m_encode_size f) in
  check (m_encode_size f + Z.of_nat (length bytes) <=? MAX_ENCODE_SIZE) ;;;
  ref_cell_upd i (set_encode (take n (m_encode f) ++ bytes ++ drop (n + length bytes) (m_encode f))
                    (m_encode_size f + Z.of_nat (length bytes))).
Definition append_child (i k : Z) : M Files unit :=
  child <- ref_cell k ;;
  f <- ref_cell i ;;
  if MAX_ENCODE_SIZE <=? m_encode_size f + m_encode_size child then throw ERR_APP
  else append_code i (code_of child).
(** [qsort_s] of the children; there are [MAX_CHILD_NUM] cells. *)
Definition sort_children (i : Z) : M Files unit :=
  files <- get ;;
  f <- ref_cell i ;;
  check (rf_size f <=? Z.of_nat (length (m_children f))) ;;;
  let n := Z.to_nat (rf_size f) in
  kids <- opt (qsort (CompareEncode files) (take n (m_children f))) ;;
  ref_cell_upd i (set_children (rf_size f) (kids ++ drop n (m_children f))).

(** One node: the codes of the children of a directory are sorted and joined. *)
Definition encode_node (i : Z) : M Files unit :=
  f <- ref_cell i ;;
  if m_is_dir f then
    sort_children i ;;;
    f <- ref_cell i ;;
    ref_cell_upd i (set_encode (overwrite [LBRACK] (m_encode f)) 1) ;;;
    mfor (take (Z.to_nat (rf_size f)) (m_children f)) (append_child i) ;;;
    append_code i [RBRACK]
  else
    let code := file_code f in
    ref_cell_upd i (set_encode (overwrite (code ++ [0]) (m_encode f)) (Z.of_nat (length code))).

(** [UpdateEncode]: the node and its ancestors; the depth of the tree is below
    the number of files. *)
Fixpoint UpdateEncode (fuel : nat) (i : Z) : M Files unit :=
  match fuel with
  | O => fault
  | S fuel' =>
      encode_node i ;;;
      f <- ref_cell i ;;
      if MAX_FILE_NUM <? m_parent f then ret tt else UpdateEncode fuel' (m_parent f)
  end.
Definition encode_fuel : nat := Z.to_nat (MAX_FILE_NUM + 1).

(** [RemoveChild] *)
Fixpoint index_of_child (l : list Z) (c ii : Z) : option Z :=
  match l with [] => None | x :: l' => if x =? c then Some ii else index_of_child l' c (ii + 1) end.
Definition RemoveChild (c : Z) (f : CRefFile) : M unit CRefFile :=
  match index_of_child (take (Z.to_nat (rf_size f)) (m_children f)) c 0 with
  | None => throw ERR_APP
  | Some ii =>
      let n := rf_size f - 1 in
      last <- opt (aget (m_children f) n) ;;
      l1 <- opt (aset (m_children f) ii last) ;;
      l2 <- opt (aset l1 n 0) ;;
      ret (set_children n l2 f)
  end.

(** * The reference file system *)
Abbreviation RF := CReferenceFs.
Definition set_files (l : Files) (s : RF) : RF :=
  mkRefFs l (m_free_list s) (m_used_list s) (m_free_num s) (m_opened s) (m_op_code s)
    (m_op_code_len s) (m_file_num s) (m_dir_num s) (m_reset_count s).
Definition set_lists (fr us nr : Z) (s : RF) : RF :=
  mkRefFs (m_files s) fr us nr (m_opened s) (m_op_code s)
    (m_op_code_len s) (m_file_num s) (m_dir_num s) (m_reset_count s).
Definition set_opened (n : Z) (s : RF) : RF :=
  mkRefFs (m_files s) (m_free_list s) (m_used_list s) (m_free_num s) n (m_op_code s)
    (m_op_code_len s) (m_file_num s) (m_dir_num s) (m_reset_count s).
Definition set_ops (l : list Z) (n : Z) (s : RF) : RF :=
  mkRefFs (m_files s) (m_free_list s) (m_used_list s) (m_free_num s) (m_opened s) l n
    (m_file_num s) (m_dir_num s) (m_reset_count s).
Definition set_counts (fn dn rc : Z) (s : RF) : RF :=
  mkRefFs (m_files s) (m_free_list s) (m_used_list s) (m_free_num s) (m_opened s) (m_op_code s)
    (m_op_code_len s) fn dn rc.
Definition on_files {A} : M Files A -> M RF A := zoom m_files set_files.
Definition file_at (i : Z) : M RF CRefFile := s <- get ;; opt (aget (m_files s) i).
Definition file_upd (i : Z) (f : CRefFile -> CRefFile) : M RF unit :=
  s <- get ;; l <- opt (rf_upd i f (m_files s)) ;; put (set_files l s).
Definition lift1 {A} (m : M unit A) : M RF A :=
  match m tt with (Ret a, _) => ret a | (Throw e, _) => throw e | (Fault, _) => fault end.
Definition update_encode (i : Z) : M RF unit := on_files (UpdateEncode encode_fuel i).

(** [Initialize]; the counters of files and of open files and the operation
    codes keep their values. *)
Definition ref_Initialize : M RF unit :=
  s <- get ;;
  root <- opt (InitFile INVALID32 None [BACKSLASH] true 0 CRefFile_zero) ;;
  let cell ii := set_rf_fid INVALID16
    (set_next (if ii =? MAX_FILE_NUM - 1 then INVALID32 else ii + 1) CRefFile_zero) in
  put (set_counts (m_file_num s) 1 0
        (set_lists 1 0 (MAX_FILE_NUM - 1)
          (set_files (set_next INVALID32 root :: (cell <$> range 1 MAX_FILE_NUM)) s))).
(** A reference file system that has only been constructed. *)
Definition ref_new : RF := mkRefFs (rep MAX_FILE_NUM CRefFile_zero) 0 0 0 0 (rep 20 0) 0 0 0 0.

Definition get_file : M RF Z :=
  s <- get ;;
  let obj_id := m_free_list s in
  obj <- file_at obj_id ;;
  modify (set_lists (rf_next obj) (m_used_list s) (w32 (m_free_num s - 1))) ;;;
  file_upd obj_id (set_next (m_used_list s)) ;;;
  s <- get ;;
  put (set_lists (m_free_list s) obj_id (m_free_num s) s) ;;;
  ret obj_id.

(** The walk of [put_file] to the entry before [index]. *)
Definition find_pre (index : Z) : M RF Z :=
  s <- get ;;
  mwhile (Z.to_nat (MAX_FILE_NUM + 1)) (m_used_list s) (fun pre =>
    if is_invalid32 pre then ret (Break pre) else
    f <- file_at pre ;;
    ret (if rf_next f =? index then Break pre else Next (rf_next f))).

Definition put_file (index : Z) : M RF unit :=
  s <- get ;;
  file_at (m_used_list s) ;;;
  obj <- file_at index ;;
  (if m_used_list s =? index
   then put (set_lists (m_free_list s) (rf_next obj) (m_free_num s) s)
   else
     pre <- find_pre index ;;
     if is_invalid32 pre then throw ERR_APP else file_upd pre (set_next (rf_next obj))) ;;;
  s <- get ;;
  file_upd index (fun _ => set_rf_fid INVALID16 (set_next (m_free_list s) CRefFile_zero)) ;;;
  modify (set_lists index (m_used_list s) (w32 (m_free_num s + 1))).

(** [FindFileIndex]: the entry with this path, or [INVALID32]. *)
Definition FindFileIndex (path : cstring) : M RF Z :=
  s <- get ;;
  mwhile (Z.to_nat (MAX_FILE_NUM + 1)) (m_used_list s) (fun ii =>
    if is_invalid32 ii then ret (Break ii) else
    f <- file_at ii ;;
    ret (if bool_decide (path = m_fn f) then Break ii else Next (rf_next f))).
Definition IsExist (path : cstring) : M RF bool :=
  ii <- FindFileIndex path ;; ret (is_valid32 ii).
Definition ref_FindFile (path : cstring) : M RF (option Z) :=
  ii <- FindFileIndex path ;; ret (if is_invalid32 ii then None else Some ii).

(** The parent of a path: the text before the last backslash, or the root. *)
Definition parent_path (path : cstring) : option cstring :=
  match strrchr path with
  | None => None
  | Some ([], _) => Some [BACKSLASH]
  | Some (d, _) => Some d
  end.

Definition AddPath (path : cstring) (dir : bool) (fid : Z) : M RF (option Z) :=
  s <- get ;;
  if m_free_num s <=? 0 then ret None else
  check (Z.of_nat (length path) <=? MAX_PATH_SIZE) ;;;
  match parent_path path with
  | None => throw ERR_APP
  | Some parent_fn =>
      parent_id <- FindFileIndex parent_fn ;;
      obj_id <- get_file ;;
      if MAX_FILE_NUM <? parent_id then throw ERR_APP else
      if parent_id =? obj_id then throw ERR_APP else
      parent <- file_at parent_id ;;
      if negb (m_is_dir parent) then throw ERR_APP else
      obj <- file_at obj_id ;;
      obj' <- opt (InitFile parent_id (Some parent) path dir fid obj) ;;
      file_upd obj_id (fun _ => obj') ;;;
      parent <- file_at parent_id ;;
      kids <- opt (aset (m_children parent) (rf_size parent) obj_id) ;;
      file_upd parent_id (set_children (w32 (rf_size parent + 1)) kids) ;;;
      modify (fun s => if dir then set_counts (m_file_num s) (w32 (m_dir_num s + 1)) (m_reset_count s) s
                       else set_counts (w32 (m_file_num s + 1)) (m_dir_num s) (m_reset_count s) s) ;;;
      update_encode parent_id ;;;
      ret (Some obj_id)
  end.

(** [UpdateFile(CRefFile&, ..)]: a length that is not an [int] is outside the
    model. *)
Definition UpdateFile_at (i len : Z) : M RF unit :=
  check (len <? 2 ^ 31) ;;;
  f <- file_at i ;;
  file_upd i (set_size_ver len (m_ver f + 1)) ;;;
  update_encode i.
Definition UpdateFile (path : cstring) (len : Z) : M RF unit :=
  pp <- ref_FindFile path ;;
  match pp with
  | None => throw ERR_APP
  | Some i => f <- file_at i ;; if m_is_dir f then throw ERR_APP else UpdateFile_at i len
  end.

Definition OpenFile (i : Z) : M RF unit :=
  f <- file_at i ;;
  if m_is_open f then throw ERR_APP else
  if m_is_dir f then throw ERR_APP else
  file_upd i (set_open_flag true) ;;;
  update_encode i ;;;
  modify (fun s => set_opened (w32 (m_opened s + 1)) s).
Definition CloseFile (i : Z) : M RF unit :=
  f <- file_at i ;;
  if negb (m_is_open f) then throw ERR_APP else
  file_upd i (set_open_flag false) ;;;
  update_encode i ;;;
  modify (fun s => set_opened (w32 (m_opened s - 1)) s).

Definition Demount : M RF unit :=
  modify (fun s =>
    set_opened 0
      (set_counts (m_file_num s) (m_dir_num s)
         (if m_reset_count s <? MAX_FILE_VERSION then m_reset_count s + 1 else m_reset_count s)
      (set_files ((fun f => if is_valid16 (rf_fid f) then set_open_flag false f else f) <$> m_files s) s))).

Definition RemoveFile (path : cstring) : M RF unit :=
  obj_id <- FindFileIndex path ;;
  if MAX_FILE_NUM <=? obj_id then throw ERR_APP else
  obj <- file_at obj_id ;;
  parent <- file_at (m_parent obj) ;;
  parent' <- lift1 (RemoveChild obj_id parent) ;;
  file_upd (m_parent obj) (fun _ => parent') ;;;
  modify (fun s => if m_is_dir obj
                   then set_counts (m_file_num s) (w32 (m_dir_num s - 1)) (m_reset_count s) s
                   else set_counts (w32 (m_file_num s - 1)) (m_dir_num s) (m_reset_count s) s) ;;;
  update_encode (m_parent obj) ;;;
  put_file obj_id.

(** The new path of an entry that [MoveFile] meets: [None] when it is neither
    the source nor below it. *)
Definition moved_path (src dst fn : cstring) : option cstring :=
  if bool_decide (take (length src) fn = src) then
    match drop (length src) fn with
    | [] => Some dst
    | c :: rest => if c =? BACKSLASH then Some (dst ++ c :: rest) else None
    end
  else None.

(** [MoveFile] renames the entry and everything below it; the links between
    entries stay. *)
Definition ref_MoveFile (src dst : cstring) : M RF unit :=
  s <- get ;;
  r <- mwhile (Z.to_nat (MAX_FILE_NUM + 1)) (m_used_list s, None) (fun st =>
    let '(ii, tar) := st in
    if is_invalid32 ii then ret (Break (ii, tar)) else
    f <- file_at ii ;;
    match moved_path src dst (m_fn f) with
    | None => ret (Next (rf_next f, tar))
    | Some fn' =>
        check (Z.of_nat (length fn') <=? MAX_PATH_SIZE) ;;;
        file_upd ii (set_fn fn') ;;;
        ret (Next (rf_next f, if bool_decide (m_fn f = src) then Some ii else tar))
    end) ;;
  match r.2 with
  | None => throw ERR_APP
  | Some i =>
      f <- file_at i ;;
      p <- file_at (m_parent f) ;;
      when (m_ver p <? MAX_FILE_VERSION)
        (file_upd (m_parent f) (set_size_ver (rf_size p) (m_ver p + 1))) ;;;
      update_encode (m_parent f)
  end.

(** * The code of a state *)
Definition op_letter (op : OP_CODE) : Z :=
  match op with
  | OP_FILE_CREATE => 70 | OP_FILE_WRITE => 87 | OP_FILE_FLUSH => 83 | OP_FILE_DELETE => 82
  | OP_FILE_OVERWRITE => 87 | OP_DIR_CREATE => 68 | OP_DIR_DELETE => 69 | OP_MOVE => 77
  | _ => 0
  end.
(** [m_op_code] has 20 cells. *)
Definition EncodingAppendOp (op : OP_CODE) : M RF unit :=
  s <- get ;;
  when (negb (op_letter op =? 0)) (
    l <- opt (aset (m_op_code s) (m_op_code_len s) (op_letter op)) ;;
    put (set_ops l (m_op_code_len s + 1) s)).

(** [Encode]: the characters before the terminating zero. *)
Definition Encode (buf_len op_len : Z) (s : RF) : option (list Z) :=
  root ← aget (m_files s) 0;
  let len := m_encode_size root in
  if buf_len - 1 <? len then None else
  let copy_len := Z.min op_len (m_op_code_len s) in
  if buf_len - (len + 1) - 1 <? copy_len then None else
  Some (code_of root ++ [m_reset_count s + 48] ++
        take (Z.to_nat copy_len) (drop (Z.to_nat (m_op_code_len s - copy_len)) (m_op_code s))).
