(* ===== verification/RefTree.v ===== *)
(** RefTree: the codes of the reference file system as codes of trees.  A tree
    is what the code of a state depends on; [tree_code] joins the sorted codes of
    the children.  Two trees have the same code exactly when they are isomorphic:
    no code is the beginning of another. *)
From stdpp Require Export sorting.
From S2P Require Export RefFs.

(** * Trees up to the order of children *)
Inductive tree := TFile (ver : Z) (is_open : bool) | TDir (kids : list tree).
Definition tree_ind' (P : tree -> Prop) (HF : forall v o, P (TFile v o))
    (HD : forall ks, Forall P ks -> P (TDir ks)) : forall t, P t :=
  fix go t := match t with
    | TFile v o => HF v o
    | TDir ks => HD ks ((fix all l : Forall P l := match l with
        | [] => Forall_nil_2 P | t :: l => Forall_cons_2 P t l (go t) (all l) end) ks)
    end.

Inductive iso : tree -> tree -> Prop :=
  | iso_file v o : iso (TFile v o) (TFile v o)
  | iso_dir ks1 ks ks2 : Forall2 iso ks1 ks -> ks ≡ₚ ks2 -> iso (TDir ks1) (TDir ks2).

(** * Codes *)
(** The order of [strcmp]. *)
Fixpoint lex_leb (a b : list Z) : bool :=
  match a, b with
  | [], _ => true
  | _ :: _, [] => false
  | x :: a', y :: b' => if x =? y then lex_leb a' b' else x <? y
  end.
Definition lex_le (a b : list Z) : Prop := lex_leb a b = true.
#[export] Instance lex_le_dec a b : Decision (lex_le a b) := decide (lex_leb a b = true).

Definition label_code (ver : Z) (is_open : bool) : list Z :=
  [LPAR] ++ print_dec ver ++ (if is_open then [SHARP] else []) ++ [RPAR].
Definition dir_code (codes : list (list Z)) : list Z :=
  LBRACK :: concat (merge_sort lex_le codes) ++ [RBRACK].
Fixpoint tree_code (t : tree) : list Z :=
  match t with
  | TFile v o => label_code v o
  | TDir ks => dir_code (map tree_code ks)
  end.
(** Version numbers that [print_dec] prints in full. *)
Inductive tree_ok : tree -> Prop :=
  | ok_file v o : 0 <= v < 10 ^ 11 -> tree_ok (TFile v o)
  | ok_dir ks : Forall tree_ok ks -> tree_ok (TDir ks).

(** * The order *)
Section Lex.
#[local] Instance lex_refl : Reflexive lex_le.
Proof. intros a. unfold lex_le. induction a as [|x a IH]; cbn; [done|]. by rewrite Z.eqb_refl. Qed.
Lemma lex_cons x y a b : lex_le (x :: a) (y :: b) <-> x < y \/ x = y /\ lex_le a b.
Proof. unfold lex_le. cbn. destruct (Z.eqb_spec x y); [|rewrite Z.ltb_lt]; naive_solver lia. Qed.
#[export] Instance lex_le_trans : Transitive lex_le.
Proof.
  intros a. induction a as [|x a IH]; intros b c Hab Hbc; [done|].
  destruct b as [|y b]; [done|]. destruct c as [|z c]; [done|].
  apply lex_cons in Hab as [|[-> Hab]]; apply lex_cons in Hbc as [|[-> Hbc]]; apply lex_cons; [left; lia..|].
  right. split; [done|by eapply IH].
Qed.
#[export] Instance lex_le_antisym : AntiSymm (=) lex_le.
Proof.
  intros a. induction a as [|x a IH]; intros [|y b] Hab Hba; [done..|].
  apply lex_cons in Hab as [|[-> Hab]]; apply lex_cons in Hba as [|[E Hba]]; [lia..|].
  f_equal. by apply IH.
Qed.
#[export] Instance lex_le_total : Total lex_le.
Proof.
  intros a. induction a as [|x a IH]; intros b; [by left|]. destruct b as [|y b]; [by right|].
  rewrite !lex_cons. destruct (Z.lt_trichotomy x y) as [|[->|]]; [by left; left| |by right; left].
  destruct (IH b); [left|right]; by right.
Qed.
End Lex.

(** Sorted lists are determined by their elements. *)
Lemma sort_perm l1 l2 : l1 ≡ₚ l2 -> merge_sort lex_le l1 = merge_sort lex_le l2.
Proof.
  intros H. apply (StronglySorted_unique lex_le); [by apply StronglySorted_merge_sort; apply _..|].
  by rewrite !merge_sort_Permutation.
Qed.
Lemma sorted_is_sort l1 l2 : StronglySorted lex_le l1 -> l1 ≡ₚ l2 -> l1 = merge_sort lex_le l2.
Proof.
  intros Hs H. apply (StronglySorted_unique lex_le); [done|by apply StronglySorted_merge_sort; apply _|].
  by rewrite merge_sort_Permutation.
Qed.

(** * Numbers *)
Definition is_digit (c : Z) : Prop := 48 <= c <= 57.
Fixpoint value_of (acc : Z) (l : list Z) : Z :=
  match l with [] => acc | c :: l => value_of (acc * 10 + (c - 48)) l end.
Lemma value_of_app acc l c : value_of acc (l ++ [c]) = value_of acc l * 10 + (c - 48).
Proof. revert acc. induction l as [|x l IH]; intros acc; [done|apply IH]. Qed.
Lemma digits_spec fuel n acc : 0 <= n < 10 ^ Z.of_nat fuel ->
  exists l, digits fuel n acc = l ++ acc /\ Forall is_digit l /\ value_of 0 l = n.
Proof.
  revert n acc. induction fuel as [|fuel IH]; intros n acc Hn.
  - exists []. cbn in *. split_and!; [done|done|lia].
  - rewrite Nat2Z.inj_succ, Z.pow_succ_r in Hn by lia. cbn [digits].
    pose proof (Z.mod_pos_bound n 10 ltac:(lia)). pose proof (Z.div_mod n 10 ltac:(lia)).
    destruct (Z.ltb_spec n 10) as [Hl|Hl].
    + exists [48 + n mod 10]. split_and!; [done|repeat constructor; lia|cbn; lia].
    + destruct (IH (n / 10) ((48 + n mod 10) :: acc)) as (l & -> & Hd & Hv); [lia|].
      exists (l ++ [48 + n mod 10]). split_and!; [by rewrite <- app_assoc|apply Forall_app; split; [done|repeat constructor; lia]|].
      rewrite value_of_app, Hv. lia.
Qed.
Lemma print_dec_spec n : 0 <= n < 10 ^ 11 -> Forall is_digit (print_dec n) /\ value_of 0 (print_dec n) = n.
Proof. intros Hn. destruct (digits_spec 11 n [] Hn) as (l & E & H). unfold print_dec. by rewrite E, app_nil_r. Qed.

(** Digits end at the first other character. *)
Lemma digits_split l1 l2 c1 c2 r1 r2 : Forall is_digit l1 -> Forall is_digit l2 -> ~ is_digit c1 -> ~ is_digit c2 ->
  l1 ++ c1 :: r1 = l2 ++ c2 :: r2 -> l1 = l2 /\ c1 = c2 /\ r1 = r2.
Proof.
  intros H1. revert l2. induction H1 as [|x l1 Hx H1 IH]; intros l2 H2 Hc1 Hc2 E.
  - destruct l2 as [|y l2]; [by injection E|]. injection E as -> _. by inversion H2.
  - destruct l2 as [|y l2]; [by injection E as -> _|]. inversion H2; subst. injection E as -> E.
    destruct (IH l2) as (-> & -> & ->); done.
Qed.
Lemma label_code_split v1 o1 v2 o2 r1 r2 : 0 <= v1 < 10 ^ 11 -> 0 <= v2 < 10 ^ 11 ->
  label_code v1 o1 ++ r1 = label_code v2 o2 ++ r2 -> v1 = v2 /\ o1 = o2 /\ r1 = r2.
Proof.
  intros H1 H2. unfold label_code. intros E. injection E as E. rewrite <- !app_assoc in E.
  pose proof (print_dec_spec _ H1) as [D1 V1]. pose proof (print_dec_spec _ H2) as [D2 V2].
  assert (NS : ~ is_digit SHARP) by (unfold is_digit, SHARP; lia). assert (NR : ~ is_digit RPAR) by (unfold is_digit, RPAR; lia).
  assert (V : print_dec v1 = print_dec v2 -> v1 = v2) by (intros Ep; by rewrite <- V1, Ep, V2).
  destruct o1, o2; cbn in E; apply digits_split in E as (Ep & Ec & Er); try done; split_and!; auto. by injection Er.
Qed.

(** * No code begins another *)
Lemma tree_code_cons t : exists c r, tree_code t = c :: r /\ c <> RBRACK.
Proof. by destruct t; eexists _, _. Qed.
Lemma codes_split ks1 ks2 r1 r2 :
  Forall (fun t => forall t2 s1 s2, t2 ∈ ks2 -> tree_code t ++ s1 = tree_code t2 ++ s2 -> tree_code t = tree_code t2 /\ s1 = s2) ks1 ->
  concat (map tree_code ks1) ++ RBRACK :: r1 = concat (map tree_code ks2) ++ RBRACK :: r2 ->
  map tree_code ks1 = map tree_code ks2 /\ r1 = r2.
Proof.
  revert ks2. induction ks1 as [|t1 ks1 IH]; intros [|t2 ks2] HF E; cbn in E.
  - by injection E.
  - destruct (tree_code_cons t2) as (c & r & Hc & Hn). rewrite Hc in E. injection E as E _. by destruct Hn.
  - destruct (tree_code_cons t1) as (c & r & Hc & Hn). rewrite Hc in E. injection E as E _. by destruct Hn.
  - inversion HF as [|? ? H1 H2]; subst. rewrite <- !app_assoc in E. apply H1 in E as [Et E]; [|by left].
    destruct (IH ks2) as [Ek Er]; [|done|cbn; by rewrite Et, Ek].
    eapply Forall_impl; [exact H2|]. intros t Ht t' s1 s2 Hin. apply Ht. by right.
Qed.

(** The sorted codes are codes of the trees in some order. *)
Lemma sorted_trees ks : exists ks', ks' ≡ₚ ks /\ merge_sort lex_le (map tree_code ks) = map tree_code ks'.
Proof.
  pose proof (merge_sort_Permutation lex_le (map tree_code ks)) as H.
  apply Permutation_map_inv in H as (ks' & -> & P). by exists ks'.
Qed.
Lemma tree_code_split t1 : forall t2 r1 r2, tree_ok t1 -> tree_ok t2 ->
  tree_code t1 ++ r1 = tree_code t2 ++ r2 -> tree_code t1 = tree_code t2 /\ r1 = r2.
Proof.
  induction t1 as [v1 o1|ks1 IH] using tree_ind'; intros [v2 o2|ks2] r1 r2 H1 H2 E; inversion H1; inversion H2; subst.
  - apply label_code_split in E as (-> & -> & ->); done.
  - done.
  - done.
  - cbn [tree_code] in *. unfold dir_code in *. destruct (sorted_trees ks1) as (l1 & P1 & E1). destruct (sorted_trees ks2) as (l2 & P2 & E2).
    rewrite E1, E2 in *. cbn in E. rewrite <- !app_assoc in E. injection E as E. apply codes_split in E as [-> ->]; [done|].
    apply Forall_forall. intros t Ht t' s1 s2 Ht'.
    apply (proj1 (Forall_forall _ _) IH).
    + by rewrite <- P1.
    + apply (proj1 (Forall_forall _ ks1)); [done|by rewrite <- P1].
    + apply (proj1 (Forall_forall _ ks2)); [done|by rewrite <- P2].
Qed.

(** * Codes are canonical *)
Lemma map_codes_iso ks1 ks2 :
  Forall (fun t => forall t2, t2 ∈ ks2 -> tree_code t = tree_code t2 -> iso t t2) ks1 ->
  map tree_code ks1 = map tree_code ks2 -> Forall2 iso ks1 ks2.
Proof.
  revert ks2. induction ks1 as [|t ks1 IH]; intros [|t2 ks2] HF E; try done.
  inversion HF as [|? ? H1 H2]; subst. injection E as Et E. constructor; [apply H1; [by left|done]|].
  apply IH; [|done]. eapply Forall_impl; [exact H2|]. intros x Hx y Hy. apply Hx. by right.
Qed.
Lemma same_code_iso t1 : forall t2, tree_ok t1 -> tree_ok t2 -> tree_code t1 = tree_code t2 -> iso t1 t2.
Proof.
  induction t1 as [v1 o1|ks1 IH] using tree_ind'; intros [v2 o2|ks2] H1 H2 E; inversion H1; inversion H2; subst; try done.
  - cbn [tree_code] in E. assert (E' : label_code v1 o1 ++ [] = label_code v2 o2 ++ []) by by rewrite E.
    apply label_code_split in E' as (-> & -> & _); [constructor|done..].
  - cbn [tree_code] in E. unfold dir_code in E. injection E as E.
    assert (P : map tree_code ks1 ≡ₚ map tree_code ks2).
    { rewrite <- (merge_sort_Permutation lex_le (map tree_code ks1)), <- (merge_sort_Permutation lex_le (map tree_code ks2)).
      destruct (sorted_trees ks1) as (l1 & P1 & E1). destruct (sorted_trees ks2) as (l2 & P2 & E2). rewrite E1, E2 in *.
      refine (_ (codes_split l1 l2 [] [] _ E)); [by intros [-> _]|].
      apply Forall_forall. intros t Ht t' s1 s2 Ht' Es. apply tree_code_split; [|  |done].
      - apply (proj1 (Forall_forall _ ks1)); [done|by rewrite <- P1].
      - apply (proj1 (Forall_forall _ ks2)); [done|by rewrite <- P2]. }
    apply Permutation_map_inv in P as (ks & E' & P).
    apply iso_dir with ks; [|by symmetry]. apply map_codes_iso; [|done].
    apply Forall_forall. intros t Ht t' Ht'. apply (proj1 (Forall_forall _ _) IH); [done|..].
    + by apply (proj1 (Forall_forall _ ks1)).
    + apply (proj1 (Forall_forall _ ks2)); [done|by rewrite P].
Qed.
Lemma iso_same_code t1 : forall t2, iso t1 t2 -> tree_code t1 = tree_code t2.
Proof.
  induction t1 as [v1 o1|ks1 IH] using tree_ind'; intros t2 H; inversion H as [|? ks ? HF P]; subst; [done|].
  cbn [tree_code]. unfold dir_code. do 2 f_equal. f_equal. apply sort_perm. rewrite <- P.
  assert (E : map tree_code ks1 = map tree_code ks); [|by rewrite E]. clear H P. revert ks HF.
  induction IH as [|t ks1 Ht IH IH']; intros ks HF; inversion HF; subst; [done|]. cbn. f_equal; [by apply Ht|by apply IH'].
Qed.
