(* ===== verification/RefMap.v ===== *)
(** RefMap: the specification of the reference file system, a finite map from
    paths to entries; the tree that such a map denotes, and its code. *)
From S2P Require Export RefTree.

(** [e_shown]: whether the entry was open when its code was last computed. *)
Record ref_entry := REntry { e_dir : bool; e_size : Z; e_open : bool; e_shown : bool; e_fid : Z }.
Abbreviation ref_map := (gmap cstring ref_entry).
Definition ROOT : cstring := [BACKSLASH].
Definition root_entry : ref_entry := REntry true 0 false false 0.
Definition is_child (d p : cstring) : Prop := p <> ROOT /\ parent_path p = Some d.
#[export] Instance is_child_dec d p : Decision (is_child d p).
Proof. unfold is_child. apply _. Defined.
Definition below (m : ref_map) (d : cstring) : list cstring := filter (is_child d) (elements (dom m)).
Definition ver_of (size : Z) : Z := (w32 (size + BLOCK_SIZE - 1) / BLOCK_SIZE) / SCALE.

Fixpoint map_tree (fuel : nat) (m : ref_map) (p : cstring) : tree :=
  match fuel with
  | O => TDir []
  | S fuel => match m !! p with
      | None => TDir []
      | Some e => if e_dir e then TDir (map (map_tree fuel m) (below m p)) else TFile (ver_of (e_size e)) (e_shown e)
      end
  end.
(** A path has at most [MAX_PATH_SIZE] characters, and more than its parent. *)
Definition path_fuel : nat := Z.to_nat MAX_PATH_SIZE.
Definition sub (m : ref_map) (p : cstring) : tree := map_tree (S path_fuel) m p.
Definition tree_of (m : ref_map) : tree := sub m ROOT.
Definition code_len (m : ref_map) (p : cstring) : Z := Z.of_nat (length (tree_code (sub m p))).
(** The code of the root fits its buffer. *)
Definition fits (m : ref_map) : Prop := code_len m ROOT <= MAX_ENCODE_SIZE.

Definition path_ok (m : ref_map) (p : cstring) : Prop :=
  p <> ROOT -> exists d e, parent_path p = Some d /\ m !! d = Some e /\ e_dir e = true.
Definition map_wf (m : ref_map) : Prop :=
  (exists e, m !! ROOT = Some e /\ e_dir e = true) /\
  forall p e, m !! p = Some e -> p <> [] /\ Z.of_nat (length p) <= MAX_PATH_SIZE /\ path_ok m p.

(** * Paths *)
Lemma strrchr_Some p d f : strrchr p = Some (d, f) -> p = d ++ BACKSLASH :: f.
Proof.
  revert d. induction p as [|c p IH]; intros d; cbn; [done|].
  destruct (strrchr p) as [[d' f']|]; [|destruct (Z.eqb_spec c BACKSLASH) as [->|]; [by intros [= <- <-]|done]].
  intros [= <- <-]. cbn. by rewrite <- IH.
Qed.
Lemma parent_shorter p d : parent_path p = Some d -> p <> ROOT -> d <> [] /\ (length d < length p)%nat.
Proof.
  unfold parent_path. destruct (strrchr p) as [[[|c l] f]|] eqn:E; [| |done]; intros [= <-] Hp; apply strrchr_Some in E as ->.
  - split; [done|]. destruct f; [done|cbn; lia].
  - split; [done|]. rewrite length_app. cbn. lia.
Qed.

Lemma below_spec (m : ref_map) d p : p ∈ below m d <-> is_child d p /\ is_Some (m !! p).
Proof. unfold below. by rewrite list_elem_of_filter, elem_of_elements, elem_of_dom. Qed.
Lemma below_NoDup (m : ref_map) d : NoDup (below m d).
Proof. apply NoDup_filter, NoDup_elements. Qed.

(** * The tree of a map *)
Lemma path_fuel_eq : Z.of_nat path_fuel = MAX_PATH_SIZE.
Proof. done. Qed.
#[local] Opaque path_fuel.
Section MapTree.
Context (m : ref_map) (Hwf : map_wf m).

Lemma map_tree_fuel f1 : forall f2 p, MAX_PATH_SIZE < Z.of_nat (f1 + length p) -> MAX_PATH_SIZE < Z.of_nat (f2 + length p) ->
  map_tree f1 m p = map_tree f2 m p.
Proof.
  induction f1 as [|f1 IH]; intros f2 p H1 H2.
  - destruct f2 as [|f2]; [done|]. cbn. destruct (m !! p) as [e|] eqn:E; [|done].
    apply Hwf in E as (_ & Hp & _). lia.
  - cbn [map_tree]. destruct (m !! p) as [e|] eqn:E; [|by destruct f2; cbn; rewrite ?E].
    pose proof (proj2 Hwf _ _ E) as (_ & Hp & _). destruct f2 as [|f2]; [lia|]. cbn [map_tree]. rewrite E.
    destruct (e_dir e); [|done]. f_equal. apply map_ext_in. intros q Hq%list_elem_of_In%below_spec.
    destruct Hq as [[Hr Hq] _]. apply parent_shorter in Hq as [_ Hq]; [|done]. apply IH; lia.
Qed.
Lemma sub_unfold p e : m !! p = Some e ->
  sub m p = if e_dir e then TDir (map (sub m) (below m p)) else TFile (ver_of (e_size e)) (e_shown e).
Proof.
  intros E. unfold sub at 1. cbn [map_tree]. rewrite E.
  destruct (e_dir e); [|done]. apply (f_equal TDir), map_ext_in. intros q Hq%list_elem_of_In%below_spec.
  destruct Hq as [[Hr Hq] _]. pose proof (parent_shorter _ _ Hq Hr) as [_ Hl].
  pose proof (proj2 Hwf _ _ E) as (Hn & _). assert (0 < length p)%nat by (destruct p; [done|cbn; lia]).
  pose proof path_fuel_eq. apply map_tree_fuel; lia.
Qed.
End MapTree.

Lemma sum_len_elem (cs : list (list Z)) c : c ∈ cs -> (length c <= length (concat cs))%nat.
Proof. induction 1 as [c cs|c c' cs _ IH]; cbn; rewrite length_app; lia. Qed.
Lemma concat_perm_len (l1 l2 : list (list Z)) : l1 ≡ₚ l2 -> length (concat l1) = length (concat l2).
Proof. induction 1; cbn; rewrite ?length_app; lia. Qed.
Lemma dir_code_len cs : length (dir_code cs) = (2 + length (concat cs))%nat.
Proof.
  unfold dir_code. cbn [length]. rewrite length_app. cbn [length].
  rewrite (concat_perm_len _ _ (merge_sort_Permutation lex_le cs)). lia.
Qed.
Lemma code_len_below m p q e : map_wf m -> m !! p = Some e -> e_dir e = true -> q ∈ below m p -> code_len m q + 2 <= code_len m p.
Proof.
  intros Hwf E Hd Hq. unfold code_len. rewrite (sub_unfold m Hwf p e E), Hd. cbn [tree_code]. rewrite dir_code_len.
  pose proof (sum_len_elem (map tree_code (map (sub m) (below m p))) (tree_code (sub m q))) as H.
  assert (tree_code (sub m q) ∈ map tree_code (map (sub m) (below m p))).
  { apply list_elem_of_fmap_2, list_elem_of_fmap_2, Hq. }
  specialize (H ltac:(done)). lia.
Qed.
(** The code of an entry is shorter than the code of the root. *)
Lemma code_len_root m p e : map_wf m -> m !! p = Some e -> p <> ROOT -> code_len m p + 2 <= code_len m ROOT.
Proof.
  intros Hwf. remember (length p) as n eqn:Hn. revert p e Hn. induction (lt_wf n) as [n _ IH]. intros p e -> E Hp.
  pose proof (proj2 Hwf _ _ E) as (_ & _ & Hok). destruct (Hok Hp) as (d & ed & Hpar & Ed & Hd).
  pose proof (parent_shorter p d Hpar Hp) as [_ Hl].
  assert (Hb : p ∈ below m d) by (apply below_spec; split; [by split|by eexists]).
  pose proof (code_len_below m d p ed Hwf Ed Hd Hb).
  destruct (decide (d = ROOT)) as [->|Hr]; [lia|]. pose proof (IH _ Hl d ed eq_refl Ed Hr). lia.
Qed.

Lemma ver_of_bounds size : 0 <= ver_of size < 10 ^ 11.
Proof.
  unfold ver_of, SCALE, w32. pose proof (Z.mod_pos_bound (size + BLOCK_SIZE - 1) 4294967296 ltac:(lia)) as H. split.
  - apply Z.div_pos; [apply Z.div_pos; [lia|by vm_compute]|by vm_compute].
  - apply Z.div_lt_upper_bound; [by vm_compute|]. apply Z.div_lt_upper_bound; [by vm_compute|].
    eapply Z.lt_le_trans; [apply H|by vm_compute].
Qed.
Lemma map_tree_ok fuel m p : tree_ok (map_tree fuel m p).
Proof.
  revert p. induction fuel as [|fuel IH]; intros p; cbn; [repeat constructor|].
  destruct (m !! p) as [e|]; [|repeat constructor]. destruct (e_dir e); constructor; [|apply ver_of_bounds].
  apply Forall_forall. intros t Ht. apply list_elem_of_fmap in Ht as (q & -> & _). apply IH.
Qed.
