(* ===== verification/RefInv.v ===== *)
(** RefInv: the entries of the reference file system as a tree, and
    [UpdateEncode].  A set of cells forms a tree of entries ([tree_wf]) that
    denotes a map of paths ([map_rep]); after [UpdateEncode] every code is the
    code of the tree below its entry. *)
From S2P Require Export RefMap.

Abbreviation len l := (Z.of_nat (length l)).
Definition kids (f : CRefFile) : list Z := take (Z.to_nat (rf_size f)) (m_children f).
Definition shown (f : CRefFile) : bool := negb (m_is_dir f) && bool_decide (SHARP ∈ code_of f).
Definition entry_of (f : CRefFile) : ref_entry :=
  REntry (m_is_dir f) (if m_is_dir f then 0 else rf_size f) (m_is_open f) (shown f) (rf_fid f).
Definition at_cell {A} (g : CRefFile -> A) (d : A) (files : Files) (i : Z) : A :=
  match aget files i with Some f => g f | None => d end.
Definition code_at : Files -> Z -> list Z := at_cell code_of [].
Definition path_at : Files -> Z -> cstring := at_cell m_fn [].
Definition entry (files : Files) (es : list Z) (i : Z) (f : CRefFile) : Prop := i ∈ es /\ aget files i = Some f.

(** A buffer of the size of the code; the last byte is never written, but by the
    root. *)
Definition buf_ok (i : Z) (f : CRefFile) : Prop :=
  len (m_encode f) = MAX_ENCODE_SIZE /\ len (m_children f) = MAX_CHILD_NUM /\
  (i <> 0 -> last (m_encode f) = Some 0).

Record tree_wf (files : Files) (es : list Z) : Prop := {
  tw_len : len files = MAX_FILE_NUM;
  tw_buf : forall i f, aget files i = Some f -> buf_ok i f;
  tw_root : exists f, entry files es 0 f /\ m_fn f = ROOT /\ m_is_dir f = true /\ m_parent f = INVALID32 /\ m_depth f = 0;
  tw_parent : forall i f, entry files es i f -> i <> 0 ->
    exists g, entry files es (m_parent f) g /\ m_is_dir g = true /\ is_child (m_fn g) (m_fn f) /\
      m_depth f = m_depth g + 1 /\ i ∈ kids g;
  tw_path : forall i f, entry files es i f -> 0 <= m_depth f < len (m_fn f) /\ len (m_fn f) <= MAX_PATH_SIZE;
  tw_kids : forall i f, entry files es i f -> m_is_dir f = true ->
    0 <= rf_size f <= MAX_CHILD_NUM /\ NoDup (kids f) /\
    forall k, k ∈ kids f -> k <> 0 /\ exists g, entry files es k g /\ m_parent g = i;
  tw_inj : forall i j f g, entry files es i f -> entry files es j g -> m_fn f = m_fn g -> i = j
}.
Definition map_rep (files : Files) (es : list Z) (m : ref_map) : Prop :=
  forall p e, m !! p = Some e <-> exists i f, entry files es i f /\ m_fn f = p /\ entry_of f = e.

(** The code of an entry agrees with those of its children. *)
Definition code_good (files : Files) (f : CRefFile) : Prop :=
  let code := if m_is_dir f then dir_code (map (code_at files) (kids f)) else label_code (ver_of (rf_size f)) (shown f) in
  code_of f = code /\ m_encode_size f = len code.
Definition coded_but (x : Z) (files : Files) (es : list Z) : Prop :=
  forall i f, entry files es i f -> i <> x -> code_good files f.
Definition coded (files : Files) (es : list Z) : Prop := forall i f, entry files es i f -> code_good files f.

(** * Comparing codes *)
Lemma strcmp_total a : forall b, length a = length b -> last a = Some 0 -> last b = Some 0 -> exists r, strcmp a b = Some r.
Proof.
  induction a as [|x a IH]; intros [|y b] Hl Ha Hb; try done. cbn [strcmp].
  destruct (Z.eqb_spec x y) as [<-|]; [|by eexists]. destruct (Z.eqb_spec x 0) as [|Hx]; [by eexists|].
  injection Hl as Hl. destruct a as [|x' a], b as [|y' b]; try done; [by injection Ha as ->|].
  by apply IH.
Qed.
Definition cmp_ok (r : comparison) (a b : list Z) : Prop := if r is Gt then lex_le b a else lex_le a b.
Lemma strcmp_order c1 : forall c2 g1 g2 r, Forall (fun c => c <> 0) c1 ->
  (forall r1 r2, c1 ++ r1 = c2 ++ r2 -> c1 = c2) -> strcmp (c1 ++ g1) (c2 ++ g2) = Some r -> cmp_ok r c1 c2.
Proof.
  induction c1 as [|x c1 IH]; intros c2 g1 g2 r Hz Hp Hs.
  - rewrite <- (Hp c2 []) by by rewrite app_nil_r. by destruct r.
  - destruct c2 as [|y c2]; [by specialize (Hp [] (x :: c1) ltac:(by rewrite app_nil_r))|].
    inversion Hz as [|? ? Hx Hz']; subst. cbn [strcmp app] in Hs. unfold cmp_ok.
    destruct (Z.eqb_spec x y) as [<-|Hxy].
    + rewrite (proj2 (Z.eqb_neq x 0)) in Hs by done.
      assert (H : cmp_ok r c1 c2).
      { eapply IH; [done| |exact Hs]. intros r1 r2 E. assert (E' : x :: c1 = x :: c2) by (apply (Hp r1 r2); cbn; by rewrite E).
        by injection E'. }
      destruct r; apply lex_cons; right; by split.
    + injection Hs as <-. destruct (Z.compare_spec x y); [done|apply lex_cons; left; lia..].
Qed.
Lemma label_code_nonzero v o : 0 <= v < 10 ^ 11 -> Forall (fun c => c <> 0) (label_code v o).
Proof.
  intros Hv. unfold label_code. repeat (apply Forall_app; split); [by repeat constructor| |by destruct o; repeat constructor|by repeat constructor].
  eapply Forall_impl; [apply print_dec_spec, Hv|]. unfold is_digit. lia.
Qed.
Lemma tree_code_nonzero t : tree_ok t -> Forall (fun c => c <> 0) (tree_code t).
Proof.
  induction t as [v o|ks IH] using tree_ind'; intros Ht; inversion Ht; subst; cbn [tree_code]; [by apply label_code_nonzero|].
  unfold dir_code. constructor; [done|]. apply Forall_app. split; [|by repeat constructor].
  destruct (sorted_trees ks) as (ks' & P & ->). apply Forall_concat, Forall_forall. intros c (t & -> & Hi)%list_elem_of_fmap.
  rewrite P in Hi. apply (proj1 (Forall_forall _ ks) IH); [done|]. by apply (proj1 (Forall_forall _ ks)).
Qed.

(** * Sorting *)
Section QSort.
Context {A : Type} (cmp : A -> A -> option comparison) (key : A -> list Z).
Definition cmp_spec (l : list A) : Prop := forall a b, a ∈ l -> b ∈ l -> exists r, cmp a b = Some r /\ cmp_ok r (key a) (key b).
Lemma insert_sorted_spec a l : cmp_spec (a :: l) -> StronglySorted lex_le (map key l) ->
  exists l', insert_sorted cmp a l = Some l' /\ l' ≡ₚ a :: l /\ StronglySorted lex_le (map key l').
Proof.
  induction l as [|b l IH]; intros Hc Hs; cbn [insert_sorted].
  - exists [a]. split_and!; [done|done|by repeat constructor].
  - destruct (Hc a b) as (r & -> & Hr); [by left|by right; left|]. cbn [mbind option_bind].
    cbn in Hs. inversion Hs as [|? ? Hs' Hb]; subst.
    assert (D : r <> Gt -> exists l', Some (a :: b :: l) = Some l' /\ l' ≡ₚ a :: b :: l /\ StronglySorted lex_le (map key l')).
    { intros Hg. assert (Hab : lex_le (key a) (key b)) by by destruct r. eexists. split_and!; [done..|]. cbn. constructor; [done|].
      constructor; [done|]. eapply Forall_impl; [exact Hb|]. intros x Hx. by etransitivity. }
    destruct r; [by apply D|by apply D|]. destruct IH as (l' & -> & P & S); [|done|].
    + intros x y Hx Hy. apply Hc; [destruct (proj1 (elem_of_cons _ _ _) Hx)|destruct (proj1 (elem_of_cons _ _ _) Hy)]; subst; set_solver.
    + cbn. exists (b :: l'). split_and!; [done|rewrite P; apply Permutation_swap|]. cbn. constructor; [done|].
      rewrite P. cbn. by constructor.
Qed.
Lemma ref_qsort_spec l : cmp_spec l -> exists l', qsort cmp l = Some l' /\ l' ≡ₚ l /\ StronglySorted lex_le (map key l').
Proof.
  induction l as [|a l IH]; intros Hc; cbn [qsort]; [by exists []; repeat constructor|].
  destruct IH as (l1 & -> & P1 & S1). { intros x y Hx Hy. apply Hc; by right. }
  cbn [mbind option_bind]. destruct (insert_sorted_spec a l1) as (l' & E & P & S); [|done|].
  - intros x y Hx Hy. rewrite P1 in Hx, Hy. by apply Hc.
  - exists l'. split_and!; [done|by rewrite P, P1|done].
Qed.
End QSort.

(** * Entries and paths *)
Section Tree.
Context (files : Files) (es : list Z) (m : ref_map) (Ht : tree_wf files es) (Hm : map_rep files es m).

Lemma entry_map i f : entry files es i f -> m !! m_fn f = Some (entry_of f).
Proof. intros H. apply Hm. by exists i, f. Qed.
Lemma entry_bounds i f : entry files es i f -> 0 <= i < MAX_FILE_NUM.
Proof. intros [_ H%aget_bounds]. by rewrite (tw_len _ _ Ht) in H. Qed.
Lemma entry_fun i f g : entry files es i f -> entry files es i g -> f = g.
Proof. intros [_ H1] [_ H2]. congruence. Qed.
Lemma root_path i f : entry files es i f -> m_fn f = ROOT -> i = 0.
Proof.
  intros H E. destruct (tw_root _ _ Ht) as (r & Hr & Er & _). eapply tw_inj; [done|exact H|exact Hr|by rewrite E, Er].
Qed.
Lemma tree_map_wf : map_wf m.
Proof.
  split.
  - destruct (tw_root _ _ Ht) as (r & Hr & Er & Hd & _). exists (entry_of r). rewrite <- Er. split; [exact (entry_map _ _ Hr)|done].
  - intros p e (i & f & H & <- & <-)%Hm. pose proof (tw_path _ _ Ht _ _ H) as [Hd Hl]. split_and!; [destruct (m_fn f); cbn in *; [lia|done]|done|].
    intros Hr. destruct (decide (i = 0)) as [->|Hi].
    + destruct (tw_root _ _ Ht) as (r & Hr' & Er & _). by rewrite (entry_fun _ _ _ H Hr') in Hr.
    + destruct (tw_parent _ _ Ht _ _ H Hi) as (g & Hg & Hdir & [_ Hp] & _).
      exists (m_fn g), (entry_of g). split_and!; [done|exact (entry_map _ _ Hg)|done].
Qed.
Lemma kid_entry i f k : entry files es i f -> m_is_dir f = true -> k ∈ kids f ->
  exists g, entry files es k g /\ m_parent g = i /\ k <> 0 /\ is_child (m_fn f) (m_fn g) /\ m_depth g = m_depth f + 1.
Proof.
  intros H Hd Hk. destruct (tw_kids _ _ Ht _ _ H Hd) as (_ & _ & Hks). destruct (Hks k Hk) as (H0 & g & Hg & Hp).
  destruct (tw_parent _ _ Ht _ _ Hg H0) as (f' & Hf' & _ & Hc & Hdep & _). rewrite Hp in Hf'.
  rewrite (entry_fun _ _ _ Hf' H) in *. by exists g.
Qed.
(** The paths of the children are the paths right below. *)
Lemma kids_below i f : entry files es i f -> m_is_dir f = true -> map (path_at files) (kids f) ≡ₚ below m (m_fn f).
Proof.
  intros H Hd. pose proof (tw_kids _ _ Ht _ _ H Hd) as (_ & Hnd & _).
  assert (Hat : forall k g, entry files es k g -> path_at files k = m_fn g) by (intros k g [_ E]; unfold path_at, at_cell; by rewrite E).
  apply NoDup_Permutation; [|apply below_NoDup|].
  - apply NoDup_fmap_2_strong; [|done]. intros k1 k2 H1 H2 E.
    destruct (kid_entry _ _ _ H Hd H1) as (g1 & G1 & _). destruct (kid_entry _ _ _ H Hd H2) as (g2 & G2 & _).
    rewrite (Hat _ _ G1), (Hat _ _ G2) in E. by eapply tw_inj.
  - intros p. rewrite below_spec, list_elem_of_fmap. split.
    + intros (k & -> & Hk). destruct (kid_entry _ _ _ H Hd Hk) as (g & G & _ & _ & Hc & _). rewrite (Hat _ _ G).
      split; [done|]. eexists. exact (entry_map _ _ G).
    + intros [[Hr Hp] [e He]]. apply Hm in He as (k & g & G & <- & _). exists k. split; [by rewrite (Hat _ _ G)|].
      destruct (decide (k = 0)) as [->|Hk].
      { destruct (tw_root _ _ Ht) as (r & Hr' & Er & _). by rewrite (entry_fun _ _ _ G Hr') in Hr. }
      destruct (tw_parent _ _ Ht _ _ G Hk) as (f' & Hf' & _ & [_ Hp'] & _ & Hin). rewrite Hp in Hp'. injection Hp' as E.
      pose proof (tw_inj _ _ Ht _ _ _ _ H Hf' E) as Ei. rewrite <- Ei in Hf'. by rewrite (entry_fun _ _ _ Hf' H) in Hin.
Qed.

Lemma dir_code_tree i f : entry files es i f -> m_is_dir f = true ->
  (forall k g, k ∈ kids f -> entry files es k g -> code_of g = tree_code (sub m (m_fn g))) ->
  dir_code (map (code_at files) (kids f)) = tree_code (sub m (m_fn f)).
Proof.
  intros H Hd Hk. rewrite (sub_unfold m tree_map_wf _ _ (entry_map _ _ H)). unfold entry_of. cbn [e_dir]. rewrite Hd. cbn [tree_code].
  unfold dir_code. do 2 f_equal. f_equal. apply sort_perm. rewrite <- (kids_below _ _ H Hd).
  rewrite !map_map. erewrite map_ext_in; [done|]. intros k Hin%list_elem_of_In. cbn.
  destruct (kid_entry _ _ _ H Hd Hin) as (g & [Gin Ga] & _). unfold code_at, path_at, at_cell. rewrite Ga. by apply (Hk k).
Qed.

(** Where the codes agree with those of the children all the way down, they are
    the codes of the tree. *)
Lemma code_is_tree d : (forall i f, entry files es i f -> d <= m_depth f -> code_good files f) ->
  forall i f, entry files es i f -> d <= m_depth f -> code_of f = tree_code (sub m (m_fn f)) /\ m_encode_size f = code_len m (m_fn f).
Proof.
  intros Hg i f. remember (Z.to_nat (MAX_PATH_SIZE - m_depth f)) as n eqn:Hn. revert i f Hn.
  induction (lt_wf n) as [n _ IH]. intros i f -> H Hd. destruct (Hg _ _ H Hd) as [Hc Hs]. unfold code_len. rewrite Hs, Hc.
  destruct (m_is_dir f) eqn:Edir.
  - rewrite (dir_code_tree _ _ H Edir); [done|]. intros k g Hk Gk. destruct (kid_entry _ _ _ H Edir Hk) as (g' & Gk' & _ & _ & _ & Hdep).
    rewrite <- (entry_fun _ _ _ Gk Gk') in Hdep. pose proof (tw_path _ _ Ht _ _ Gk).
    refine (proj1 (IH _ _ k g eq_refl Gk _)); lia.
  - rewrite (sub_unfold m tree_map_wf _ _ (entry_map _ _ H)). unfold entry_of. cbn [e_dir e_size e_shown]. by rewrite Edir.
Qed.
Lemma coded_tree i f : coded files es -> entry files es i f ->
  code_of f = tree_code (sub m (m_fn f)) /\ m_encode_size f = code_len m (m_fn f).
Proof. intros Hc H. apply (code_is_tree 0) with i; [intros j g G _; exact (Hc _ _ G)|done|]. pose proof (tw_path _ _ Ht _ _ H). lia. Qed.
End Tree.

(** * A directory after its code was computed *)
Definition recoded (i : Z) (f f' : CRefFile) : Prop := exists e n c,
  f' = set_encode e n (set_children (rf_size f) c f) /\ buf_ok i f' /\ kids f' ≡ₚ kids f.
Definition similar (i : Z) (f f' : CRefFile) : Prop := f' = f \/ m_is_dir f = true /\ recoded i f f'.
Definition files_sim (files files' : Files) : Prop := len files' = len files /\
  forall i f, aget files i = Some f -> exists f', aget files' i = Some f' /\ similar i f f'.

#[export] Instance files_sim_refl : Reflexive files_sim.
Proof. intros l. split; [done|]. intros i f E. exists f. by split; [|left]. Qed.
Lemma recoded_trans i f g h : recoded i f g -> recoded i g h -> recoded i f h.
Proof. intros (e1 & n1 & c1 & -> & B1 & P1) (e2 & n2 & c2 & -> & B2 & P2). exists e2, n2, c2. split_and!; [done|done|]. by rewrite P2. Qed.
#[export] Instance files_sim_trans : Transitive files_sim.
Proof.
  intros l1 l2 l3 [L1 H1] [L2 H2]. split; [lia|]. intros i f E. destruct (H1 i f E) as (g & E' & Hg).
  destruct (H2 i g E') as (h & E'' & Hh). exists h. split; [done|]. destruct Hg as [->|[Hd Hg]]; [done|].
  destruct Hh as [->|[_ Hh]]; right; (split; [done|]); [done|by eapply recoded_trans].
Qed.

(** * The buffer of a code *)
Lemma last_patch (n : nat) (b e : list Z) : (n + length b < length e)%nat ->
  last (take n e ++ b ++ drop (n + length b) e) = last e.
Proof.
  intros H. rewrite !last_lookup, !length_app, length_take, length_drop, app_assoc, lookup_app_r; rewrite length_app, length_take; [|lia].
  rewrite lookup_drop. f_equal. lia.
Qed.
Lemma ref_cell_run files i f : aget files i = Some f -> runs (ref_cell i) files f files.
Proof. intros E. unfold ref_cell, runs, bind, get, opt. by rewrite E. Qed.
Lemma ref_upd_run files i f g : aget files i = Some f -> runs (ref_cell_upd i g) files tt (<[Z.to_nat i := g f]> files).
Proof.
  intros E. unfold ref_cell_upd, rf_upd, runs, bind, get, opt. rewrite E. cbn [mbind option_bind].
  by rewrite (aset_is_Some _ _ _ (aget_bounds _ _ _ E)).
Qed.
Lemma cell_upd_eq (files : Files) i f g : aget files i = Some f -> aget (<[Z.to_nat i := g]> files) i = Some g.
Proof. intros E. apply aget_insert_eq. by eapply aget_bounds. Qed.
Lemma cell_upd_ne (files : Files) i j f g : aget files i = Some f -> i <> j -> aget (<[Z.to_nat i := g]> files) j = aget files j.
Proof. intros E%aget_bounds Hij. apply aget_insert_ne; [done|lia]. Qed.

(** [f] with [acc] as its code so far. *)
Definition has_code (i : Z) (acc : list Z) (f0 f : CRefFile) : Prop := exists e,
  f = set_encode e (len acc) f0 /\ take (length acc) e = acc /\ len e = MAX_ENCODE_SIZE /\
  (len acc < MAX_ENCODE_SIZE -> last e = last (m_encode f0)).
Lemma append_code_run files i f0 f acc b : aget files i = Some f -> has_code i acc f0 f -> len acc + len b <= MAX_ENCODE_SIZE ->
  exists f', runs (append_code i b) files tt (<[Z.to_nat i := f']> files) /\ has_code i (acc ++ b) f0 f'.
Proof.
  intros Hf (e & -> & Ht & Hl & Hz) Hb. eexists. split.
  - unfold append_code. eapply runs_bind; [by apply ref_cell_run|]. cbn [m_encode_size m_encode set_encode].
    rewrite (proj2 (Z.leb_le _ _) Hb). eapply runs_bind; [done|]. by apply ref_upd_run.
  - rewrite Nat2Z.id, Ht. exists (acc ++ b ++ drop (length acc + length b) e). split_and!.
    + unfold set_encode. cbn. f_equal. rewrite length_app. lia.
    + by rewrite app_assoc, take_app_length.
    + rewrite !length_app, length_drop. lia.
    + rewrite length_app. intros Hlt. rewrite <- Ht at 1. rewrite last_patch by lia. apply Hz. lia.
Qed.
Lemma append_children_run i f0 ks : forall files f acc, aget files i = Some f -> has_code i acc f0 f ->
  (forall k, k ∈ ks -> exists g, aget files k = Some g /\ k <> i /\ m_encode_size g = len (code_of g)) ->
  len acc + len (concat (map (code_at files) ks)) < MAX_ENCODE_SIZE ->
  exists f', runs (mfor ks (append_child i)) files tt (<[Z.to_nat i := f']> files) /\ has_code i (acc ++ concat (map (code_at files) ks)) f0 f'.
Proof.
  induction ks as [|k ks IH]; intros files f acc Hf Ha Hks Hlen.
  - exists f. cbn [mfor map concat]. rewrite app_nil_r. split; [|done]. rewrite list_insert_id; [done|by apply aget_Some in Hf as [_ Hf]].
  - destruct (Hks k) as (g & Hg & Hk & Hs); [by left|]. cbn [map concat] in *. rewrite length_app in Hlen.
    assert (Hc : code_at files k = code_of g) by (unfold code_at, at_cell; by rewrite Hg). rewrite Hc in *.
    destruct (append_code_run files i f0 f acc (code_of g) Hf Ha) as (f1 & R1 & Ha1); [lia|].
    assert (E : map (code_at (<[Z.to_nat i:=f1]> files)) ks = map (code_at files) ks).
    { apply map_ext_in. intros k' Hk'%list_elem_of_In. destruct (Hks k') as (g' & Hg' & Hki & _); [by right|].
      unfold code_at, at_cell. by rewrite (cell_upd_ne _ _ _ _ _ Hf). }
    destruct (IH (<[Z.to_nat i:=f1]> files) f1 (acc ++ code_of g)) as (f' & R & Ha').
    + by eapply cell_upd_eq.
    + done.
    + intros k' Hk'. destruct (Hks k') as (g' & Hg' & Hki & Hs'); [by right|]. exists g'. by rewrite (cell_upd_ne _ _ _ _ _ Hf).
    + rewrite E, length_app. lia.
    + rewrite E, <- app_assoc, list_insert_insert_eq in *. exists f'. split; [|done].
      cbn [mfor]. eapply runs_bind; [|exact R]. unfold append_child. eapply runs_bind; [by apply ref_cell_run|].
      eapply runs_bind; [by apply ref_cell_run|]. destruct Ha as (e & -> & _). cbn [m_encode_size set_encode].
      rewrite (proj2 (Z.leb_gt _ _)); [done|lia].
Qed.

(** * Encoding a directory *)
Definition kid_coded (files : Files) (i k : Z) : Prop := exists g t, aget files k = Some g /\ buf_ok k g /\ k <> i /\ k <> 0 /\
  tree_ok t /\ code_of g = tree_code t /\ m_encode_size g = len (code_of g).
Lemma compare_kids files i ks : (forall k, k ∈ ks -> kid_coded files i k) -> cmp_spec (CompareEncode files) (code_at files) ks.
Proof.
  intros Hks a b (g1 & t1 & E1 & (L1 & _ & Z1) & _ & N1 & O1 & C1 & S1)%Hks (g2 & t2 & E2 & (L2 & _ & Z2) & _ & N2 & O2 & C2 & S2)%Hks.
  unfold CompareEncode, code_at, at_cell. rewrite E1, E2. cbn [mbind option_bind].
  destruct (strcmp_total (m_encode g1) (m_encode g2)) as (r & Hr); [lia|by apply Z1|by apply Z2|]. exists r. split; [done|].
  rewrite <- (take_drop (Z.to_nat (m_encode_size g1)) (m_encode g1)), <- (take_drop (Z.to_nat (m_encode_size g2)) (m_encode g2)) in Hr.
  fold (code_of g1) (code_of g2) in Hr. eapply strcmp_order; [|intros r1 r2 E|exact Hr].
  - rewrite C1. by apply tree_code_nonzero.
  - rewrite C1, C2 in *. by apply tree_code_split in E as [? _].
Qed.
Lemma encode_dir_run files i f : aget files i = Some f -> buf_ok i f -> m_is_dir f = true -> 0 <= rf_size f <= MAX_CHILD_NUM ->
  (forall k, k ∈ kids f -> kid_coded files i k) ->
  let code := dir_code (map (code_at files) (kids f)) in
  len code <= MAX_ENCODE_SIZE -> (i <> 0 -> len code < MAX_ENCODE_SIZE) ->
  exists f', runs (encode_node i) files tt (<[Z.to_nat i := f']> files) /\ recoded i f f' /\ code_of f' = code /\ m_encode_size f' = len code.
Proof.
  intros Hf (Be & Bc & Bz) Hd Hsz Hks code Hlen Hlen0.
  destruct (ref_qsort_spec (CompareEncode files) (code_at files) (kids f)) as (l & Hq & Hp & Hs); [by eapply compare_kids|].
  assert (Hcode : code = LBRACK :: concat (map (code_at files) l) ++ [RBRACK]).
  { unfold code, dir_code. by rewrite (sorted_is_sort _ _ Hs (Permutation_map _ Hp)). }
  assert (Hl : length l = Z.to_nat (rf_size f)). { rewrite Hp. unfold kids. rewrite length_take. lia. }
  set (f1 := set_children (rf_size f) (l ++ drop (Z.to_nat (rf_size f)) (m_children f)) f).
  assert (Hk1 : take (Z.to_nat (rf_size f)) (m_children f1) = l) by (cbn; by rewrite <- Hl, take_app_length).
  set (f2 := set_encode (overwrite [LBRACK] (m_encode f1)) 1 f1). set (files2 := <[Z.to_nat i := f2]> files).
  assert (H2 : aget files2 i = Some f2) by by eapply cell_upd_eq.
  assert (Hc2 : has_code i [LBRACK] f1 f2).
  { assert (HM : MAX_ENCODE_SIZE = 512) by done. eexists. change (m_encode f1) with (m_encode f).
    split_and!; [done|done|unfold overwrite; change (m_encode f1) with (m_encode f); rewrite length_app, length_drop; cbn [length]; lia|]. intros _.
    apply (last_patch 0 [LBRACK]). cbn [length]. lia. }
  assert (E2 : map (code_at files2) l = map (code_at files) l).
  { apply map_ext_in. intros k Hk%list_elem_of_In. rewrite Hp in Hk. destruct (Hks k Hk) as (g & t & Eg & _ & Hki & _).
    unfold code_at, at_cell, files2. by rewrite (cell_upd_ne _ _ _ _ _ Hf). }
  rewrite Hcode in Hlen, Hlen0. cbn [length] in Hlen, Hlen0. rewrite length_app in Hlen, Hlen0. cbn [length] in Hlen, Hlen0.
  destruct (append_children_run i f1 l files2 f2 [LBRACK] H2 Hc2) as (f3 & R3 & Hc3).
  { intros k Hk. rewrite Hp in Hk. destruct (Hks k Hk) as (g & t & Eg & _ & Hki & _ & _ & _ & Hsz'). exists g.
    unfold files2. by rewrite (cell_upd_ne _ _ _ _ _ Hf). }
  { rewrite E2. cbn [length]. lia. }
  rewrite E2 in *. destruct (append_code_run (<[Z.to_nat i := f3]> files2) i f1 f3 _ [RBRACK] (cell_upd_eq _ _ _ _ H2) Hc3) as (f4 & R4 & Hc4).
  { cbn. lia. }
  exists f4. unfold files2 in *. rewrite !list_insert_insert_eq in *. split.
  - unfold encode_node. eapply runs_bind; [by apply ref_cell_run|]. rewrite Hd. eapply runs_bind; [|eapply runs_bind; [|eapply runs_bind; [|eapply runs_bind]]].
    + unfold sort_children. eapply runs_bind; [done|]. eapply runs_bind; [by apply ref_cell_run|].
      rewrite (proj2 (Z.leb_le _ _)) by lia. eapply runs_bind; [done|]. fold (kids f). rewrite Hq. eapply runs_bind; [done|].
      by apply ref_upd_run.
    + apply ref_cell_run. by eapply cell_upd_eq.
    + eapply (ref_upd_run _ _ f1). by eapply cell_upd_eq.
    + rewrite list_insert_insert_eq. fold f1. replace (take (Z.to_nat (rf_size f1)) (m_children f1)) with l by (symmetry; exact Hk1). exact R3.
    + exact R4.
  - cbn [app] in Hc4. rewrite <- Hcode in Hc4. destruct Hc4 as (e & -> & He & Hle & Hze). cbn [m_encode_size set_encode]. split_and!.
    + exists e, (len code), (l ++ drop (Z.to_nat (rf_size f)) (m_children f)). split_and!; [done| |].
      * unfold buf_ok. cbn. split_and!; [done|rewrite length_app, length_drop; lia|]. intros Hi. rewrite Hze; [by apply Bz|by rewrite Hcode; cbn; rewrite length_app; apply Hlen0].
      * change (take (Z.to_nat (rf_size f)) (m_children f1) ≡ₚ kids f). by rewrite Hk1.
    + unfold code_of. cbn [m_encode_size m_encode set_encode]. by rewrite Nat2Z.id.
    + done.
Qed.

(** * Entries keep their places *)
Record same_place (f f' : CRefFile) : Prop := {
  sp_fn : m_fn f' = m_fn f; sp_dir : m_is_dir f' = m_is_dir f; sp_parent : m_parent f' = m_parent f;
  sp_depth : m_depth f' = m_depth f; sp_size : m_is_dir f = true -> rf_size f' = rf_size f; sp_kids : m_is_dir f = true -> kids f' ≡ₚ kids f
}.
Lemma similar_place i f f' : similar i f f' -> same_place f f' /\ entry_of f' = entry_of f /\ rf_next f' = rf_next f.
Proof.
  intros [->|[Hd (e & n & c & -> & _ & P)]]; [by repeat constructor|]. split_and!; [by constructor| |done].
  unfold entry_of, shown. cbn. by rewrite Hd.
Qed.
Definition placed (files files' : Files) (es : list Z) : Prop := len files' = len files /\
  (forall i f, aget files' i = Some f -> buf_ok i f) /\
  forall i f, entry files es i f -> exists f', aget files' i = Some f' /\ same_place f f'.
Section Placed.
Context (files files' : Files) (es : list Z) (Hs : placed files files' es).
Lemma placed_entry i f : entry files es i f -> exists f', entry files' es i f' /\ same_place f f'.
Proof. intros H. destruct (proj2 (proj2 Hs) i f H) as (f' & E & S). exists f'. by split; [split; [apply H|]|]. Qed.
Lemma placed_back i f' : entry files' es i f' -> exists f, entry files es i f /\ same_place f f'.
Proof.
  intros [Hi E']. destruct (aget_is_Some files i) as [f E]. { rewrite <- (proj1 Hs). by apply aget_bounds in E'. }
  destruct (placed_entry i f) as (g & [_ Eg] & H); [done|]. rewrite E' in Eg. injection Eg as <-. by exists f.
Qed.
Lemma tree_wf_placed : tree_wf files es -> tree_wf files' es.
Proof.
  intros Ht. constructor.
  - rewrite (proj1 Hs). apply Ht.
  - apply Hs.
  - destruct (tw_root _ _ Ht) as (f & H & H1 & H2 & H3 & H4). apply placed_entry in H as (f' & H & S).
    exists f'. by rewrite (sp_fn _ _ S), (sp_dir _ _ S), (sp_parent _ _ S), (sp_depth _ _ S).
  - intros i f' H Hi. apply placed_back in H as (f & H & S).
    destruct (tw_parent _ _ Ht _ _ H Hi) as (g & Hg & H1 & H2 & H3 & H4). apply placed_entry in Hg as (g' & Hg & S').
    exists g'. rewrite (sp_parent _ _ S), (sp_fn _ _ S), (sp_depth _ _ S), (sp_fn _ _ S'), (sp_dir _ _ S'), (sp_depth _ _ S').
    by rewrite (sp_kids _ _ S').
  - intros i f' H. apply placed_back in H as (f & H & S). rewrite (sp_fn _ _ S), (sp_depth _ _ S). by apply (tw_path _ _ Ht) in H.
  - intros i f' H Hd. apply placed_back in H as (f & H & S). rewrite (sp_dir _ _ S) in Hd. rewrite (sp_size _ _ S) by done.
    destruct (tw_kids _ _ Ht _ _ H Hd) as (H1 & H2 & H3). split_and!; [lia|lia|by rewrite (sp_kids _ _ S)|].
    intros k Hk. rewrite (sp_kids _ _ S) in Hk by done. destruct (H3 k Hk) as (H0 & g & Hg & Hp). split; [done|].
    apply placed_entry in Hg as (g' & Hg & S'). exists g'. by rewrite (sp_parent _ _ S').
  - intros i j f' g' Hf Hg E. apply placed_back in Hf as (f & Hf & S). apply placed_back in Hg as (g & Hg & S').
    rewrite (sp_fn _ _ S), (sp_fn _ _ S') in E. by eapply (tw_inj _ _ Ht).
Qed.
(** Entries that keep their values, too. *)
Lemma map_rep_placed m : (forall i f f', entry files es i f -> aget files' i = Some f' -> entry_of f' = entry_of f) ->
  map_rep files es m -> map_rep files' es m.
Proof.
  intros He Hm p e. rewrite (Hm p e). split.
  - intros (i & f & H & <- & <-). pose proof H as H'. apply placed_entry in H' as (f' & H' & S). exists i, f'.
    rewrite (sp_fn _ _ S). by rewrite (He i f f' H (proj2 H')).
  - intros (i & f' & H & <- & <-). pose proof H as H'. apply placed_back in H' as (f & H' & S). exists i, f.
    rewrite (sp_fn _ _ S). by rewrite (He i f f' H' (proj2 H)).
Qed.
End Placed.
Lemma sim_placed files files' es : tree_wf files es -> files_sim files files' ->
  placed files files' es /\ forall i f f', aget files i = Some f -> aget files' i = Some f' -> entry_of f' = entry_of f /\ rf_next f' = rf_next f.
Proof.
  intros Ht [Hl Hs]. unfold placed. split_and!; [done| |intros i f [_ E]; destruct (Hs i f E) as (f' & E' & S); exists f'; split; [done|exact (proj1 (similar_place _ _ _ S))]|].
  - intros i f' E'. destruct (aget_is_Some files i) as [f E]. { rewrite <- Hl. by apply aget_bounds in E'. }
    destruct (Hs i f E) as (g & Eg & S). rewrite E' in Eg. injection Eg as <-.
    destruct S as [->|[_ (e & n & c & -> & B & _)]]; [by apply (tw_buf _ _ Ht)|done].
  - intros i f f' E E'. destruct (Hs i f E) as (g & Eg & S). rewrite E' in Eg. injection Eg as <-. exact (proj2 (similar_place _ _ _ S)).
Qed.
Lemma tree_wf_sim files files' es : files_sim files files' -> tree_wf files es -> tree_wf files' es.
Proof. intros Hs Ht. eapply tree_wf_placed; [by apply sim_placed|done]. Qed.
Lemma map_rep_sim files files' es m : files_sim files files' -> tree_wf files es -> map_rep files es m -> map_rep files' es m.
Proof.
  intros Hs Ht Hm. pose proof (sim_placed _ _ _ Ht Hs) as [Hp He].
  eapply map_rep_placed; [done| |done]. intros i f f' [_ E] E'. by apply (He i f f').
Qed.
Lemma sim_upd (files : Files) i f f' : aget files i = Some f -> similar i f f' -> files_sim files (<[Z.to_nat i := f']> files).
Proof.
  intros E H. split; [by rewrite length_insert|]. intros j g Ej. destruct (decide (i = j)) as [->|Hij].
  - rewrite E in Ej. injection Ej as <-. exists f'. by rewrite (cell_upd_eq _ _ _ _ E).
  - exists g. rewrite (cell_upd_ne _ _ _ _ _ E) by done. by split; [|left].
Qed.

(** A code that changes touches only the parent. *)
Lemma code_good_other (files : Files) es i f f' j g : tree_wf files es -> aget files i = Some f -> entry files es j g ->
  j <> i -> (i ∈ es -> m_parent f <> j) -> code_good files g -> code_good (<[Z.to_nat i := f']> files) g.
Proof.
  intros Ht E Hg Hj Hp. unfold code_good. destruct (m_is_dir g) eqn:Hd; [|done].
  enough (Em : map (code_at (<[Z.to_nat i:=f']> files)) (kids g) = map (code_at files) (kids g)) by by rewrite Em.
  apply map_ext_in. intros k Hk%list_elem_of_In. unfold code_at, at_cell. rewrite (cell_upd_ne _ _ _ _ _ E); [done|]. intros ->.
  destruct (kid_entry _ _ Ht _ _ _ Hg Hd Hk) as (h & [Hin Eh] & Hpar & _). rewrite E in Eh. injection Eh as <-. by apply Hp.
Qed.

(** * [UpdateEncode] *)
Section Update.
Context (es : list Z) (m : ref_map) (Hfit : fits m).
Lemma UpdateEncode_dir fuel : forall files x f, tree_wf files es -> map_rep files es m -> coded_but x files es ->
  entry files es x f -> m_is_dir f = true -> m_depth f < Z.of_nat fuel ->
  exists files', runs (UpdateEncode fuel x) files tt files' /\ files_sim files files' /\ coded files' es.
Proof.
  induction fuel as [|fuel IH]; intros files x f Ht Hm Hc Hf Hd Hfu; [pose proof (tw_path _ _ Ht _ _ Hf); lia|].
  assert (Hdeep : forall i g, entry files es i g -> m_depth f + 1 <= m_depth g ->
    code_of g = tree_code (sub m (m_fn g)) /\ m_encode_size g = code_len m (m_fn g)).
  { eapply code_is_tree; [done..|]. intros i g Hg Hdep. apply (Hc i g Hg). intros ->. rewrite (entry_fun _ _ _ _ _ Hg Hf) in Hdep. lia. }
  assert (Hkc : forall k, k ∈ kids f -> kid_coded files x k).
  { intros k Hk. destruct (kid_entry _ _ Ht _ _ _ Hf Hd Hk) as (g & Hg & Hp & Hk0 & _ & Hdep). destruct (Hdeep _ _ Hg ltac:(lia)) as [C S].
    exists g, (sub m (m_fn g)). split_and!; [apply Hg|apply (tw_buf _ _ Ht), Hg| |done|apply map_tree_ok|done|by rewrite S, C].
    intros ->. rewrite (entry_fun _ _ _ _ _ Hg Hf) in Hdep. lia. }
  assert (Hcode : dir_code (map (code_at files) (kids f)) = tree_code (sub m (m_fn f))).
  { eapply dir_code_tree; [done..|]. intros k g Hk Hg. apply (Hdeep k g Hg).
    destruct (kid_entry _ _ Ht _ _ _ Hf Hd Hk) as (g' & Hg' & _ & _ & _ & Hdep). rewrite (entry_fun _ _ _ _ _ Hg Hg'). lia. }
  assert (Hlen : code_len m (m_fn f) <= MAX_ENCODE_SIZE /\ (x <> 0 -> code_len m (m_fn f) < MAX_ENCODE_SIZE)).
  { destruct (decide (m_fn f = ROOT)) as [E|E].
    - split; [rewrite E; exact Hfit|]. intros Hx. destruct Hx. by eapply root_path.
    - pose proof (code_len_root m _ _ (tree_map_wf _ _ _ Ht Hm) (entry_map _ _ _ Hm _ _ Hf) E). unfold fits in Hfit. lia. }
  destruct (encode_dir_run files x f) as (f' & R & Hrec & Hcf & Hsf);
    [apply Hf|apply (tw_buf _ _ Ht), Hf|done|by apply (tw_kids _ _ Ht _ _ Hf)|done|rewrite Hcode; apply Hlen|rewrite Hcode; apply Hlen|].
  set (files1 := <[Z.to_nat x := f']> files) in *.
  assert (S1 : files_sim files files1) by (apply (sim_upd _ _ f); [apply Hf|right; by split]).
  pose proof (similar_place x f f' ltac:(right; by split)) as [SP _].
  pose proof (tree_wf_sim _ _ _ S1 Ht) as Ht1. pose proof (map_rep_sim _ _ _ _ S1 Ht Hm) as Hm1.
  assert (Hf1 : entry files1 es x f') by (split; [apply Hf|eapply cell_upd_eq, Hf]).
  assert (Hc1 : coded_but (m_parent f) files1 es).
  { intros i g' Hg' Hi. destruct (decide (i = x)) as [->|Hix].
    - rewrite (entry_fun _ _ _ _ _ Hg' Hf1). unfold code_good. rewrite (sp_dir _ _ SP), Hd, Hcf, Hsf.
      enough (E : dir_code (map (code_at files1) (kids f')) = dir_code (map (code_at files) (kids f))) by by rewrite E.
      unfold dir_code. do 2 f_equal. f_equal. apply sort_perm. rewrite (sp_kids _ _ SP) by done. erewrite map_ext_in; [done|].
      intros k Hk%list_elem_of_In. destruct (Hkc k Hk) as (g & t & Eg & _ & Hkx & _). unfold code_at, at_cell, files1.
      by rewrite (cell_upd_ne _ _ _ _ _ (proj2 Hf)).
    - assert (Hg : entry files es i g') by (destruct Hg' as [Hin Eg]; split; [done|]; unfold files1 in Eg; by rewrite (cell_upd_ne _ _ _ _ _ (proj2 Hf)) in Eg).
      eapply code_good_other; [done|apply Hf|done|done|by intros _ E; apply Hi|by apply (Hc i)]. }
  destruct (decide (x = 0)) as [->|Hx].
  - destruct (tw_root _ _ Ht) as (r & Hr & _ & _ & Hp & _). rewrite (entry_fun _ _ _ _ _ Hr Hf) in Hp.
    exists files1. split_and!; [|done|].
    + cbn [UpdateEncode]. eapply runs_bind; [exact R|]. eapply runs_bind; [apply ref_cell_run, Hf1|]. by rewrite (sp_parent _ _ SP), Hp.
    + intros i g Hg. apply (Hc1 i g Hg). rewrite Hp. intros ->. pose proof (entry_bounds _ _ Ht1 _ _ Hg) as [_ Hb]. by vm_compute in Hb.
  - destruct (tw_parent _ _ Ht _ _ Hf Hx) as (g & Hg & Hgd & _ & Hdep & _).
    destruct (placed_entry _ _ _ (proj1 (sim_placed _ _ _ Ht S1)) _ _ Hg) as (g' & Hg' & SP').
    destruct (IH files1 (m_parent f) g') as (files2 & R2 & S2 & Hc2); [done..|by rewrite (sp_dir _ _ SP')|rewrite (sp_depth _ _ SP'); lia|].
    exists files2. split_and!; [|by etransitivity|done].
    cbn [UpdateEncode]. eapply runs_bind; [exact R|]. eapply runs_bind; [apply ref_cell_run, Hf1|]. rewrite (sp_parent _ _ SP).
    pose proof (entry_bounds _ _ Ht _ _ Hg). rewrite (proj2 (Z.ltb_ge _ _)) by lia. done.
Qed.
End Update.
