(* ===== verification/RefOps.v ===== *)
(** RefOps: the lists of cells of the reference file system, and what each
    operation does to the map of paths. *)
From S2P Require Export RefInv.
From S2P Require Import Bits.

(** * Lists of cells *)
(** The cells of [l], from [head] on, are linked in this order up to [stop]. *)
Fixpoint linked (files : Files) (head : Z) (l : list Z) (stop : Z) : Prop :=
  match l with
  | [] => head = stop
  | i :: l' => head = i /\ exists f, aget files i = Some f /\ linked files (rf_next f) l' stop
  end.

(** [us] are the cells in use, [fr] the free ones. *)
Record lists_ok (s : RF) (us fr : list Z) : Prop := {
  lo_used : linked (m_files s) (m_used_list s) us INVALID32;
  lo_free : linked (m_files s) (m_free_list s) fr INVALID32;
  lo_cells : us ++ fr ≡ₚ range 0 MAX_FILE_NUM;
  lo_nr : m_free_num s = len fr
}.
(** [es] are the entries; a cell in use that is no entry was lost by a creation
    that failed. *)
Record ref_at (s : RF) (us fr es : list Z) (m : ref_map) : Prop := {
  ra_lists : lists_ok s us fr;
  ra_es : es ⊆ us;
  ra_blank : forall i f, aget (m_files s) i = Some f -> i ∉ es -> m_fn f = [];
  ra_tree : tree_wf (m_files s) es;
  ra_map : map_rep (m_files s) es m;
  ra_coded : coded (m_files s) es;
  ra_fits : fits m
}.
Definition ref_rep (s : RF) (m : ref_map) : Prop := exists us fr es, ref_at s us fr es m.

Lemma linked_same files files' l stop : (forall i f, i ∈ l -> aget files i = Some f -> exists f', aget files' i = Some f' /\ rf_next f' = rf_next f) ->
  forall head, linked files head l stop -> linked files' head l stop.
Proof.
  induction l as [|i l IH]; intros Hs head H; [done|]. destruct H as (-> & f & E & H).
  split; [done|]. destruct (Hs i f) as (f' & E' & Hn); [by left|done|]. exists f'. split; [done|]. rewrite Hn. apply IH; [|done].
  intros j g Hj. apply Hs. by right.
Qed.
Lemma linked_app files l1 l2 stop : forall head, linked files head (l1 ++ l2) stop <->
  exists mid, linked files head l1 mid /\ linked files mid l2 stop.
Proof.
  induction l1 as [|i l1 IH]; intros head; cbn [app linked].
  - split; [intros H; by exists head|by intros (mid & -> & H)].
  - setoid_rewrite IH. naive_solver.
Qed.
Lemma linked_upd (files : Files) i f head l stop : i ∉ l -> 0 <= i < len files -> linked files head l stop ->
  linked (<[Z.to_nat i := f]> files) head l stop.
Proof.
  intros Hi Hb. apply linked_same. intros j g Hj E. exists g. rewrite aget_insert_ne; [done|by intros ->|lia].
Qed.

Section At.
Context (s : RF) (us fr : list Z) (H : lists_ok s us fr).
Lemma cells_bound i : i ∈ us ++ fr <-> 0 <= i < MAX_FILE_NUM.
Proof. by rewrite (lo_cells _ _ _ H), elem_of_range. Qed.
Lemma cells_NoDup : NoDup (us ++ fr).
Proof. rewrite (lo_cells _ _ _ H). apply NoDup_range. Qed.
Lemma cells_len : len us + len fr = MAX_FILE_NUM.
Proof. pose proof (Permutation_length (lo_cells _ _ _ H)) as E. rewrite length_app in E. change (length (range 0 MAX_FILE_NUM)) with 256%nat in E. unfold MAX_FILE_NUM. lia. Qed.
Lemma used_bound i : i ∈ us -> 0 <= i < MAX_FILE_NUM.
Proof. intros Hi. apply cells_bound, elem_of_app. by left. Qed.
Lemma free_bound i : i ∈ fr -> 0 <= i < MAX_FILE_NUM.
Proof. intros Hi. apply cells_bound, elem_of_app. by right. Qed.
End At.
Lemma path_entry s us fr es m i f : ref_at s us fr es m -> i ∈ us -> aget (m_files s) i = Some f -> m_fn f <> [] -> entry (m_files s) es i f.
Proof. intros H Hi E Hn. split; [|done]. destruct (decide (i ∈ es)); [done|]. by destruct Hn; eapply (ra_blank _ _ _ _ _ H). Qed.
Lemma cell_valid i : 0 <= i < MAX_FILE_NUM -> (is_invalid32 i) = false.
Proof. intros Hi. apply Z.eqb_neq. intros ->. by destruct Hi as [_ Hi]; vm_compute in Hi. Qed.

(** * Finding an entry *)
Lemma file_at_run s i f : aget (m_files s) i = Some f -> runs (file_at i) s f s.
Proof. intros E. unfold file_at, runs, bind, get, opt. by rewrite E. Qed.
Lemma file_upd_run s i f g : aget (m_files s) i = Some f -> runs (file_upd i g) s tt (set_files (<[Z.to_nat i := g f]> (m_files s)) s).
Proof.
  intros E. unfold file_upd, rf_upd, runs, bind, get, opt. rewrite E. cbn [mbind option_bind].
  by rewrite (aset_is_Some _ _ _ (aget_bounds _ _ _ E)).
Qed.

(** A walk along a list that ends at the first cell with a property. *)
Lemma walk_run s (P : Z -> CRefFile -> bool) (body : Z -> M RF (flow Z)) l : (forall i, i ∈ l -> 0 <= i < MAX_FILE_NUM) ->
  (forall i f, i ∈ l -> aget (m_files s) i = Some f -> body i s = (Ret (if P i f then Break i else Next (rf_next f)), s)) ->
  body INVALID32 s = (Ret (Break INVALID32), s) ->
  forall fuel head, (length l < fuel)%nat -> linked (m_files s) head l INVALID32 ->
  exists r, runs (mwhile fuel head body) s r s /\
    ((exists f, r ∈ l /\ aget (m_files s) r = Some f /\ P r f = true) \/
     r = INVALID32 /\ forall i f, i ∈ l -> aget (m_files s) i = Some f -> P i f = false).
Proof.
  intros Hb Hbody Hend. induction l as [|i l IH]; intros fuel head Hf Hl; destruct fuel as [|fuel]; cbn in Hf; try lia.
  - cbn in Hl. subst head. exists INVALID32. split; [|right; split; [done|]; intros i f Hi; by apply elem_of_nil in Hi].
    unfold runs. cbn [mwhile]. unfold bind. by rewrite Hend.
  - destruct Hl as (-> & f & E & Hl). pose proof (Hbody i f ltac:(by left) E) as Hi. destruct (P i f) eqn:EP.
    + exists i. split; [|left; exists f; split_and!; [by left|done|done]]. unfold runs. cbn [mwhile]. unfold bind. by rewrite Hi.
    + destruct (IH ltac:(intros; apply Hb; by right) ltac:(intros; apply Hbody; [by right|done]) fuel (rf_next f) ltac:(lia) Hl) as (r & R & D).
      exists r. split; [unfold runs; cbn [mwhile]; unfold bind; by rewrite Hi|].
      destruct D as [(g & Hr & Er & Pr)|[-> Hn]]; [left; exists g; split_and!; [by right|done|done]|right; split; [done|]].
      intros j g Hj Ej. apply elem_of_cons in Hj as [->|Hj]; [congruence|by eapply Hn].
Qed.
Lemma FindFileIndex_run s us fr es m path : ref_at s us fr es m -> path <> [] ->
  exists r, runs (FindFileIndex path) s r s /\
    ((exists f, entry (m_files s) es r f /\ m_fn f = path) \/ r = INVALID32 /\ m !! path = None).
Proof.
  intros H Hp. destruct (walk_run s (fun _ f => bool_decide (path = m_fn f)) (fun ii =>
    if is_invalid32 ii then ret (Break ii) else
    f <- file_at ii ;; ret (if bool_decide (path = m_fn f) then Break ii else Next (rf_next f))) us) with (fuel := Z.to_nat (MAX_FILE_NUM + 1)) (head := m_used_list s) as (r & R & D).
  - intros i. apply (used_bound _ _ _ (ra_lists _ _ _ _ _ H)).
  - intros i f Hi E. rewrite (cell_valid i) by by apply (used_bound _ _ _ (ra_lists _ _ _ _ _ H)). unfold bind. by rewrite (file_at_run s i f E).
  - done.
  - pose proof (cells_len _ _ _ (ra_lists _ _ _ _ _ H)). lia.
  - apply H.
  - exists r. split; [exact R|]. destruct D as [(f & Hr & E & P%bool_decide_eq_true)|[-> Hn]].
    + left. exists f. split; [|done]. eapply path_entry; [done..|]. by rewrite <- P.
    + right. split; [done|]. destruct (m !! path) as [e|] eqn:Em; [|done]. apply (ra_map _ _ _ _ _ H) in Em as (i & f & [Hi E] & <- & _).
      pose proof (Hn i f (ra_es _ _ _ _ _ H _ Hi) E) as P. by apply bool_decide_eq_false in P.
Qed.

(** * Taking and giving back a cell *)
Definition renexted (files files' : Files) (es : list Z) : Prop := len files' = len files /\
  (forall i f, aget files' i = Some f -> buf_ok i f) /\
  forall i f, entry files es i f -> exists n, aget files' i = Some (set_next n f).
Lemma renexted_placed files files' es : renexted files files' es -> placed files files' es.
Proof. intros (Hl & Hb & He). split_and!; [done|done|]. intros i f H. destruct (He i f H) as (n & E). exists (set_next n f). by repeat constructor. Qed.
Lemma renexted_all files files' es m : renexted files files' es -> tree_wf files es -> map_rep files es m -> coded files es ->
  tree_wf files' es /\ map_rep files' es m /\ coded files' es.
Proof.
  intros Hr Ht Hm Hc. pose proof (renexted_placed _ _ _ Hr) as Hp. pose proof (tree_wf_placed _ _ _ Hp Ht) as Ht'. split_and!; [done| |].
  - eapply map_rep_placed; [done| |done]. intros i f f' H E. destruct (proj2 (proj2 Hr) i f H) as (n & E'). rewrite E in E'. by injection E' as ->.
  - intros i f' H. pose proof H as H'. apply (placed_back _ _ _ Hp) in H' as (f & Hf & S).
    destruct (proj2 (proj2 Hr) i f Hf) as (n & E). rewrite (proj2 H) in E. injection E as ->.
    pose proof (Hc i f Hf) as [C1 C2]. unfold code_good. cbn [m_is_dir set_next]. destruct (m_is_dir f) eqn:Hd; [|done].
    enough (Em : map (code_at files') (kids (set_next n f)) = map (code_at files) (kids f)) by (rewrite Em; done).
    change (kids (set_next n f)) with (kids f). apply map_ext_in. intros k Hk%list_elem_of_In.
    destruct (kid_entry _ _ Ht _ _ _ Hf Hd Hk) as (g & Hg & _). destruct (proj2 (proj2 Hr) k g Hg) as (n' & E').
    unfold code_at, at_cell. by rewrite E', (proj2 Hg).
Qed.
Lemma set_next_id f : set_next (rf_next f) f = f.
Proof. by destruct f. Qed.

Lemma get_file_run s us o fr : lists_ok s us (o :: fr) -> exists f,
  aget (m_files s) o = Some f /\
  let s' := set_lists (rf_next f) o (len fr) (set_files (<[Z.to_nat o := set_next (m_used_list s) f]> (m_files s)) s) in
  runs get_file s o s' /\ lists_ok s' (o :: us) fr.
Proof.
  intros H. pose proof (lo_free _ _ _ H) as (Ho & f & E & Hf). exists f. split; [done|].
  pose proof (aget_bounds _ _ _ E) as Hb. pose proof (cells_NoDup _ _ _ H) as Hnd. apply NoDup_app in Hnd as (_ & Hdis & Hnd%NoDup_cons).
  pose proof (lo_nr _ _ _ H) as Hnr. cbn [length] in Hnr.
  assert (Hw : w32 (m_free_num s - 1) = len fr).
  { rewrite Hnr. pose proof (cells_len _ _ _ H) as Hc. cbn [length] in Hc. unfold w32, MAX_FILE_NUM in *. rewrite Z.mod_small; lia. }
  split.
  - unfold get_file, runs, bind, get. rewrite Ho, (file_at_run s o f E). cbn [modify]. rewrite Hw.
    rewrite (file_upd_run _ o f) by exact E. done.
  - constructor; cbn [m_files m_used_list m_free_list m_free_num set_lists set_files].
    + split; [done|]. exists (set_next (m_used_list s) f). split; [by eapply cell_upd_eq|]. cbn [rf_next set_next].
      apply linked_upd; [|lia|apply H]. intros Hi. by apply (Hdis o Hi); left.
    + apply linked_upd; [by apply Hnd|lia|done].
    + rewrite <- (lo_cells _ _ _ H). cbn. apply Permutation_middle.
    + done.
Qed.

(** The cell before [o] in the list. *)
Lemma find_pre_run s us fr o : lists_ok s us fr -> o ∈ us -> m_used_list s <> o ->
  exists p f us1 us2, runs (find_pre o) s p s /\ us = us1 ++ p :: o :: us2 /\ aget (m_files s) p = Some f /\ rf_next f = o.
Proof.
  intros H Ho Hne. destruct (walk_run s (fun _ f => rf_next f =? o) (fun pre =>
    if is_invalid32 pre then ret (Break pre) else
    f <- file_at pre ;; ret (if rf_next f =? o then Break pre else Next (rf_next f))) us) with (fuel := Z.to_nat (MAX_FILE_NUM + 1)) (head := m_used_list s) as (r & R & D).
  - intros i. apply (used_bound _ _ _ H).
  - intros i f Hi E. rewrite (cell_valid i) by by apply (used_bound _ _ _ H). unfold bind. by rewrite (file_at_run s i f E).
  - done.
  - pose proof (cells_len _ _ _ H). lia.
  - apply H.
  - pose proof (lo_used _ _ _ H) as Hl. pose proof (used_bound _ _ _ H o Ho) as Hb. destruct D as [(f & Hr & E & P%Z.eqb_eq)|[-> Hn]].
    + apply list_elem_of_split in Hr as (us1 & us2 & ->). apply linked_app in Hl as (mid & _ & -> & g & Eg & Hl).
      rewrite E in Eg. injection Eg as <-. destruct us2 as [|o' us2]; cbn in Hl; [rewrite P in Hl; rewrite Hl in Hb; by destruct Hb as [_ Hb]; vm_compute in Hb|].
      destruct Hl as [Hl _]. rewrite P in Hl. subst o'. by exists r, f, us1, us2.
    + exfalso. apply list_elem_of_split in Ho as (us1 & us2 & ->). destruct us1 as [|p us1] using rev_ind; [by destruct Hl|].
      rewrite <- app_assoc in Hl. apply linked_app in Hl as (mid & _ & -> & f & E & <- & _).
      specialize (Hn p f ltac:(set_solver) E). apply Z.eqb_neq in Hn. done.
Qed.

Definition blank_cell (next : Z) : CRefFile := set_rf_fid INVALID16 (set_next next CRefFile_zero).
Definition all_but (o : Z) (files files' : Files) : Prop := len files' = len files /\
  forall i f, i <> o -> aget files i = Some f -> exists n, aget files' i = Some (set_next n f).
Lemma put_file_run s us fr o : lists_ok s us fr -> o ∈ us -> len (m_files s) = MAX_FILE_NUM -> exists s' us',
  runs (put_file o) s tt s' /\ lists_ok s' us' (o :: fr) /\ us ≡ₚ o :: us' /\ all_but o (m_files s) (m_files s') /\
  aget (m_files s') o = Some (blank_cell (m_free_list s)).
Proof.
  intros H Ho Hlen. pose proof (used_bound _ _ _ H o Ho) as Hb. rewrite <- Hlen in Hb. destruct (aget_is_Some _ _ Hb) as [f Ef].
  pose proof (cells_NoDup _ _ _ H) as Hnd. apply NoDup_app in Hnd as (Hnu & Hdis & Hnf). pose proof (lo_used _ _ _ H) as Hl.
  assert (Hw : w32 (m_free_num s + 1) = len (o :: fr)).
  { rewrite (lo_nr _ _ _ H). pose proof (cells_len _ _ _ H) as Hc. cbn [length]. unfold w32, MAX_FILE_NUM in *. rewrite Z.mod_small; lia. }
  (* the list of used cells without [o] *)
  assert (Hcut : exists s1 us', runs (if m_used_list s =? o then put (set_lists (m_free_list s) (rf_next f) (m_free_num s) s)
      else pre <- find_pre o ;; if is_invalid32 pre then throw ERR_APP else file_upd pre (set_next (rf_next f))) s tt s1 /\
    us ≡ₚ o :: us' /\ linked (m_files s1) (m_used_list s1) us' INVALID32 /\ all_but o (m_files s) (m_files s1) /\
    m_free_list s1 = m_free_list s /\ m_free_num s1 = m_free_num s /\ linked (m_files s1) (m_free_list s) fr INVALID32 /\
    aget (m_files s1) o = Some f).
  { destruct (Z.eqb_spec (m_used_list s) o) as [Eo|Eo].
    - destruct us as [|o' us']; [by apply elem_of_nil in Ho|]. destruct Hl as (Eh & g & Eg & Hl). rewrite Eo in Eh. subst o'.
      rewrite Ef in Eg. injection Eg as <-. eexists _, us'. split_and!; [done|done|exact Hl| |done|done|apply H|done].
      split; [done|]. intros i h _ Eh. exists (rf_next h). by rewrite set_next_id.
    - destruct (find_pre_run s us fr o H Ho Eo) as (p & g & us1 & us2 & R & -> & Eg & Hg).
      pose proof (used_bound _ _ _ H p ltac:(set_solver)) as Hp. rewrite <- Hlen in Hp.
      assert (Hpo : p <> o /\ p ∉ us1 /\ p ∉ us2 /\ o ∉ us1 /\ p ∉ fr).
      { apply NoDup_app in Hnu as (_ & Hd & Hnu). apply NoDup_cons in Hnu as [Hnp _].
        split_and!; [set_solver|intros Hin; apply (Hd p Hin); by left|set_solver|intros Hin; apply (Hd o Hin); set_solver|apply (Hdis p); set_solver]. }
      destruct Hpo as (Hpo & Hp1 & Hp2 & Ho1 & Hpf).
      eexists _, (us1 ++ p :: us2). split_and!.
      + eapply runs_bind; [exact R|]. rewrite (cell_valid p) by lia. by apply file_upd_run.
      + rewrite (Permutation_swap o p us2). by rewrite <- Permutation_middle.
      + cbn. apply linked_app in Hl as (mid & H1 & -> & g' & Eg' & H2). rewrite Eg in Eg'. injection Eg' as <-.
        destruct H2 as (_ & f' & Ef' & H2). rewrite Ef in Ef'. injection Ef' as <-.
        apply linked_app. exists p. split; [by apply linked_upd|]. split; [done|]. exists (set_next (rf_next f) g).
        split; [by eapply cell_upd_eq|]. cbn. by apply linked_upd.
      + cbn. split; [by rewrite length_insert|]. intros i h _ Eh. destruct (decide (i = p)) as [->|Hip].
        * rewrite Eg in Eh. injection Eh as <-. exists (rf_next f). by eapply cell_upd_eq.
        * exists (rf_next h). rewrite (cell_upd_ne _ _ _ _ _ Eg) by done. by rewrite set_next_id.
      + done.
      + done.
      + cbn. apply linked_upd; [done|done|apply H].
      + cbn. by rewrite (cell_upd_ne _ _ _ _ _ Eg). }
  destruct Hcut as (s1 & us' & R & P & Hu & Hab & Hfl & Hfn & Hf & Ef1). pose proof (aget_bounds _ _ _ Ef1) as Hb1.
  assert (Hou : o ∉ us') by (rewrite P in Hnu; by apply NoDup_cons in Hnu as [? _]).
  eexists _, us'. split_and!.
  - unfold put_file. eapply runs_bind; [done|]. destruct us as [|u us0]; [by apply elem_of_nil in Ho|].
    pose proof Hl as (Eu & g & Eg & _). eapply runs_bind; [apply file_at_run; by rewrite Eu|]. eapply runs_bind; [by apply file_at_run|].
    eapply runs_bind; [exact R|]. eapply runs_bind; [done|]. eapply runs_bind; [by apply file_upd_run|]. done.
  - constructor; cbn [m_files m_used_list m_free_list m_free_num set_lists set_files].
    + by apply linked_upd.
    + split; [done|]. exists (blank_cell (m_free_list s1)). split; [by eapply cell_upd_eq|]. cbn. rewrite Hfl.
      apply linked_upd; [apply (Hdis o Ho)|done|done].
    + rewrite <- Permutation_middle, <- (lo_cells _ _ _ H), P. done.
    + by rewrite Hfn.
  - done.
  - cbn. destruct Hab as [Hl1 Hab]. split; [by rewrite length_insert|]. intros i h Hi Eh. destruct (Hab i h Hi Eh) as (n & En).
    exists n. by rewrite (cell_upd_ne _ _ _ _ _ Ef1).
  - cbn. rewrite <- Hfl. by eapply cell_upd_eq.
Qed.

(** * Adding an entry *)
Definition fresh_code (dir : bool) : list Z := if dir then dir_code [] else label_code (ver_of 0) false.
Record fresh_cell (o p : Z) (g : CRefFile) (path : cstring) (dir : bool) (fid : Z) (f : CRefFile) : Prop := {
  fc_fn : m_fn f = path; fc_dir : m_is_dir f = dir; fc_parent : m_parent f = p; fc_depth : m_depth f = m_depth g + 1;
  fc_size : rf_size f = 0; fc_kids : kids f = []; fc_buf : buf_ok o f;
  fc_entry : entry_of f = REntry dir 0 false false fid; fc_code : code_of f = fresh_code dir; fc_len : m_encode_size f = len (fresh_code dir)
}.
Lemma InitFile_spec o p g path dir fid old : buf_ok o old -> 0 <= p < MAX_FILE_NUM -> 0 <= m_depth g < MAX_PATH_SIZE ->
  len path <= MAX_PATH_SIZE -> exists f, InitFile p (Some g) path dir fid old = Some f /\ fresh_cell o p g path dir fid f /\ rf_next f = rf_next old.
Proof.
  intros (He & Hc & Hz) Hp Hd Hl. unfold InitFile. rewrite (proj2 (Z.ltb_ge _ _) Hl), (cell_valid p Hp). cbn [mbind option_bind].
  assert (Hw : w32 (m_depth g + 1) = m_depth g + 1) by (unfold w32, MAX_PATH_SIZE in *; rewrite Z.mod_small; lia).
  rewrite Hw. eexists. split; [done|]. split; [|done].
  assert (Hbuf : forall t, (length t < 8)%nat -> len (overwrite t (m_encode old)) = MAX_ENCODE_SIZE /\
    (o <> 0 -> last (overwrite t (m_encode old)) = Some 0)).
  { intros t Ht. assert (HM : MAX_ENCODE_SIZE = 512) by done. split; [unfold overwrite; rewrite length_app, length_drop; lia|].
    intros Ho. rewrite <- (Hz Ho). apply (last_patch 0 t). lia. }
  assert (Hrep : len (rep MAX_CHILD_NUM 0) = MAX_CHILD_NUM) by done.
  assert (Hcode : forall t, take (Z.to_nat (len t)) (overwrite (t ++ [0]) (m_encode old)) = t).
  { intros t. unfold overwrite. by rewrite Nat2Z.id, <- app_assoc, take_app_length. }
  assert (Hfresh : (if dir then [LBRACK; RBRACK] else [LPAR; 48; RPAR]) = fresh_code dir) by by destruct dir; vm_compute.
  rewrite Hfresh. constructor; try done.
  - unfold buf_ok. cbn [m_encode m_children]. rewrite <- Hfresh. split_and!; [|exact Hrep|]; destruct dir; apply Hbuf; cbn; lia.
  - unfold entry_of, shown, code_of. cbn [m_is_dir m_encode m_encode_size rf_size m_is_open rf_fid]. rewrite Hcode, <- Hfresh. by destruct dir.
  - unfold code_of. cbn [m_encode m_encode_size]. apply Hcode.
Qed.
Section Add.
Context (files : Files) (es : list Z) (m : ref_map) (o p : Z) (g f : CRefFile) (path : cstring) (dir : bool) (fid : Z).
Context (Ht : tree_wf files es) (Hm : map_rep files es m) (Hc : coded files es) (Ho : o ∉ es) (Hob : 0 <= o < MAX_FILE_NUM)
  (Hg : entry files es p g) (Hgd : m_is_dir g = true) (Hroom : rf_size g < MAX_CHILD_NUM)
  (Hf : fresh_cell o p g path dir fid f) (Hpath : is_child (m_fn g) path) (Hnew : m !! path = None) (Hlen : len path <= MAX_PATH_SIZE).
Definition added_parent : CRefFile := set_children (rf_size g + 1) (<[Z.to_nat (rf_size g) := o]> (m_children g)) g.
Definition added : Files := <[Z.to_nat p := added_parent]> (<[Z.to_nat o := f]> files).

#[local] Lemma add_bounds : 0 <= o < len files /\ 0 <= p < len files /\ o <> p /\ 0 <> o /\ p ∈ es.
Proof.
  rewrite (tw_len _ _ Ht). split_and!; try lia; try apply (entry_bounds _ _ Ht _ _ Hg).
  - intros ->. by destruct Hg.
  - intros <-. destruct (tw_root _ _ Ht) as (r & [Hr _] & _). done.
  - apply Hg.
Qed.
Lemma added_at i : 0 <= i -> aget added i = if decide (i = p) then Some added_parent else if decide (i = o) then Some f else aget files i.
Proof.
  intros Hi. destruct add_bounds as (B1 & B2 & Hop & _). unfold added. destruct (decide (i = p)) as [->|].
  - apply aget_insert_eq. by rewrite length_insert.
  - rewrite aget_insert_ne by (done || lia). destruct (decide (i = o)) as [->|]; [by apply aget_insert_eq|]. by rewrite aget_insert_ne by (done || lia).
Qed.
Lemma added_kids : kids added_parent = kids g ++ [o].
Proof.
  destruct (tw_kids _ _ Ht _ _ Hg Hgd) as (Hs & _). destruct (tw_buf _ _ Ht _ _ (proj2 Hg)) as (_ & Hcl & _).
  unfold kids, added_parent. cbn [rf_size m_children set_children]. replace (Z.to_nat (rf_size g + 1)) with (S (Z.to_nat (rf_size g))) by lia.
  rewrite (take_S_r _ _ o) by (apply list_lookup_insert_eq; lia). by rewrite take_insert_ge.
Qed.
(** The entries are the old ones, with the parent changed, and the new one. *)
Lemma added_entry i h : entry added (o :: es) i h <->
  (i = o /\ h = f) \/ (i = p /\ h = added_parent) \/ (i <> p /\ entry files es i h).
Proof.
  destruct add_bounds as (B1 & B2 & Hop & Ho0 & Hpe). unfold entry at 1. split.
  - intros [Hi E]. pose proof (proj1 (aget_bounds _ _ _ E)) as H0. rewrite added_at in E by done.
    destruct (decide (i = p)) as [->|Hip]; [right; left; by injection E|]. destruct (decide (i = o)) as [->|Hio]; [left; by injection E|].
    apply elem_of_cons in Hi as [?|Hi]; [done|]. by right; right.
  - intros [[-> ->]|[[-> ->]|[Hip [Hi E]]]].
    + split; [by left|]. rewrite added_at by lia. by rewrite !decide_False, decide_True by done.
    + split; [by right|]. rewrite added_at by lia. by rewrite decide_True.
    + split; [by right|]. pose proof (proj1 (aget_bounds _ _ _ E)). rewrite added_at by done. rewrite !decide_False; [done|congruence|done].
Qed.
(** Every old entry is still there with the same place. *)
Lemma added_keeps i h : entry files es i h -> exists h', entry added (o :: es) i h' /\ m_fn h' = m_fn h /\ m_is_dir h' = m_is_dir h /\
  m_parent h' = m_parent h /\ m_depth h' = m_depth h /\ entry_of h' = entry_of h /\ (forall k, k ∈ kids h -> k ∈ kids h').
Proof.
  intros Hh. destruct (decide (i = p)) as [->|Hip].
  - rewrite (entry_fun _ _ _ _ _ Hh Hg). exists added_parent. split_and!; try done; [apply added_entry; by right; left|unfold entry_of, shown; cbn; by rewrite Hgd|].
    intros k Hk. rewrite added_kids. set_solver.
  - exists h. split_and!; try done. apply added_entry. by right; right.
Qed.
Lemma tree_wf_add : tree_wf added (o :: es).
Proof.
  destruct add_bounds as (B1 & B2 & Hop & Ho0 & Hpe). pose proof (tw_path _ _ Ht _ _ Hg) as Hgp. constructor.
  - unfold added. rewrite !length_insert. apply Ht.
  - intros i h E. pose proof (proj1 (aget_bounds _ _ _ E)) as H0. rewrite added_at in E by done.
    destruct (decide (i = p)) as [->|]; [injection E as <-|destruct (decide (i = o)) as [->|]; [injection E as <-; apply Hf|by apply (tw_buf _ _ Ht)]].
    destruct (tw_buf _ _ Ht _ _ (proj2 Hg)) as (H1 & H2 & H3). unfold buf_ok. cbn. by rewrite length_insert.
  - destruct (tw_root _ _ Ht) as (r & Hr & H1 & H2 & H3 & H4). destruct (added_keeps _ _ Hr) as (r' & Hr' & E1 & E2 & E3 & E4 & _).
    exists r'. by rewrite E1, E2, E3, E4.
  - intros i h Hh Hi. apply added_entry in Hh as [[-> ->]|Hh].
    + exists added_parent. rewrite (fc_parent _ _ _ _ _ _ _ Hf), (fc_fn _ _ _ _ _ _ _ Hf), (fc_depth _ _ _ _ _ _ _ Hf).
      split_and!; [apply added_entry; by right; left|done|apply Hpath..|done|rewrite added_kids; set_solver].
    + assert (Ho' : exists h0, entry files es i h0 /\ m_fn h = m_fn h0 /\ m_parent h = m_parent h0 /\ m_depth h = m_depth h0).
      { destruct Hh as [[-> ->]|[_ Hh]]; [by exists g|by exists h]. }
      destruct Ho' as (h0 & Hh0 & -> & -> & ->). destruct (tw_parent _ _ Ht _ _ Hh0 Hi) as (q & Hq & H1 & H2 & H3 & H4).
      destruct (added_keeps _ _ Hq) as (q' & Hq' & E1 & E2 & E3 & E4 & _ & E5). exists q'. rewrite E1, E2, E4. split_and!; auto.
  - intros i h Hh. apply added_entry in Hh as [[-> ->]|[[-> ->]|[_ Hh]]]; [|done|by apply (tw_path _ _ Ht) in Hh].
    rewrite (fc_fn _ _ _ _ _ _ _ Hf), (fc_depth _ _ _ _ _ _ _ Hf). destruct Hpath as [Hr Hpp]. pose proof (parent_shorter _ _ Hpp Hr). lia.
  - intros i h Hh Hd. apply added_entry in Hh as [[-> ->]|[[-> ->]|[Hip Hh]]].
    + rewrite (fc_kids _ _ _ _ _ _ _ Hf), (fc_size _ _ _ _ _ _ _ Hf). split_and!; [done|done|constructor|]. intros k Hk. by apply elem_of_nil in Hk.
    + destruct (tw_kids _ _ Ht _ _ Hg Hgd) as (Hs & Hnd & Hk). rewrite added_kids. cbn [rf_size added_parent set_children]. split_and!; [lia|lia| |].
      * apply NoDup_app. split_and!; [done| |apply NoDup_singleton]. intros k Hin ->%list_elem_of_singleton. destruct (Hk _ Hin) as (_ & q & [Hq _] & _). done.
      * intros k [Hin| ->%list_elem_of_singleton]%elem_of_app; [|split; [done|]; exists f; split; [apply added_entry; by left|apply Hf]].
        destruct (Hk _ Hin) as (Hk0 & q & Hq & Hqp). split; [done|]. destruct (added_keeps _ _ Hq) as (q' & Hq' & _ & _ & E & _). exists q'. by rewrite E.
    + destruct (tw_kids _ _ Ht _ _ Hh Hd) as (Hs & Hnd & Hk). split_and!; [lia|lia|done|]. intros k Hin.
      destruct (Hk _ Hin) as (Hk0 & q & Hq & Hqp). split; [done|]. destruct (added_keeps _ _ Hq) as (q' & Hq' & _ & _ & E & _). exists q'. by rewrite E.
  - assert (Hnone : forall i h, entry files es i h -> m_fn h <> path).
    { intros i h Hh <-. by rewrite (entry_map _ _ _ Hm _ _ Hh) in Hnew. }
    assert (Hold : forall i h, (i = p /\ h = added_parent) \/ (i <> p /\ entry files es i h) -> exists h0, entry files es i h0 /\ m_fn h = m_fn h0).
    { intros i h [[-> ->]|[_ Hh]]; [by exists g|by exists h]. }
    intros i j h1 h2 [[-> ->]|(h1' & Hh1 & E1)%Hold]%added_entry [[-> ->]|(h2' & Hh2 & E2)%Hold]%added_entry E; [done|..].
    + rewrite (fc_fn _ _ _ _ _ _ _ Hf), E2 in E. by destruct (Hnone _ _ Hh2).
    + rewrite (fc_fn _ _ _ _ _ _ _ Hf), E1 in E. by destruct (Hnone _ _ Hh1).
    + rewrite E1, E2 in E. by eapply (tw_inj _ _ Ht).
Qed.
Lemma map_rep_add : map_rep added (o :: es) (<[path := REntry dir 0 false false fid]> m).
Proof.
  intros q e. rewrite lookup_insert_Some, (Hm q e). split.
  - intros [[<- <-]|(Hq & i & h & Hh & <- & <-)].
    + exists o, f. split_and!; [apply added_entry; by left|apply Hf|apply Hf].
    + destruct (added_keeps _ _ Hh) as (h' & Hh' & E1 & _ & _ & _ & E & _). by exists i, h'.
  - intros (i & h & Hh & <- & <-). apply added_entry in Hh as [[-> ->]|[[-> ->]|[_ Hh]]].
    + left. by rewrite (fc_fn _ _ _ _ _ _ _ Hf), (fc_entry _ _ _ _ _ _ _ Hf).
    + right. split; [intros E; rewrite E in Hnew; cbn in Hnew; by rewrite (entry_map _ _ _ Hm _ _ Hg) in Hnew|].
      exists p, g. split_and!; [done|done|unfold entry_of, shown; cbn; by rewrite Hgd].
    + right. split; [intros E; rewrite E in Hnew; by rewrite (entry_map _ _ _ Hm _ _ Hh) in Hnew|]. by exists i, h.
Qed.
Lemma coded_add : coded_but p added (o :: es).
Proof.
  intros i h Hh Hip. apply added_entry in Hh as [[-> ->]|[[-> _]|[_ Hh]]]; [|done|].
  - unfold code_good. rewrite (fc_dir _ _ _ _ _ _ _ Hf), (fc_kids _ _ _ _ _ _ _ Hf), (fc_code _ _ _ _ _ _ _ Hf), (fc_len _ _ _ _ _ _ _ Hf), (fc_size _ _ _ _ _ _ _ Hf).
    pose proof (fc_entry _ _ _ _ _ _ _ Hf) as E. injection E as _ _ _ E _. rewrite E. by destruct dir.
  - pose proof (Hc _ _ Hh) as Hgood. unfold code_good in *. destruct (m_is_dir h) eqn:Hd; [|done].
    enough (E : map (code_at added) (kids h) = map (code_at files) (kids h)) by by rewrite E.
    apply map_ext_in. intros k Hk%list_elem_of_In. destruct (kid_entry _ _ Ht _ _ _ Hh Hd Hk) as (q & [Hq Eq] & Hqp & _).
    unfold code_at, at_cell. rewrite added_at by by eapply aget_bounds. destruct (decide (k = p)) as [->|].
    + by rewrite (proj2 Hg).
    + rewrite decide_False; [done|by intros ->].
Qed.
End Add.

(** * Updating the codes *)
Lemma blank_sim files files' (es : list Z) : files_sim files files' -> (forall i f, aget files i = Some f -> i ∉ es -> m_fn f = []) ->
  forall i f, aget files' i = Some f -> i ∉ es -> m_fn f = [].
Proof.
  intros [Hl Hs] Hb i f' E' Hi. destruct (aget_is_Some files i) as [f E]. { rewrite <- Hl. by apply aget_bounds in E'. }
  destruct (Hs i f E) as (g & Eg & S). rewrite E' in Eg. injection Eg as <-. rewrite (sp_fn _ _ (proj1 (similar_place _ _ _ S))). by eapply Hb.
Qed.
Lemma lists_sim s l us fr : lists_ok s us fr -> files_sim (m_files s) l -> lists_ok (set_files l s) us fr.
Proof.
  intros H [_ Hs].
  assert (Hn : forall (k : list Z) i f, i ∈ k -> aget (m_files s) i = Some f -> exists f', aget l i = Some f' /\ rf_next f' = rf_next f).
  { intros _ i f _ E. destruct (Hs i f E) as (f' & E' & S). exists f'. split; [done|]. apply (similar_place _ _ _ S). }
  constructor; cbn [m_files m_used_list m_free_list m_free_num set_files]; [..|apply H|apply H].
  - eapply linked_same; [apply (Hn us)|apply H].
  - eapply linked_same; [apply (Hn fr)|apply H].
Qed.
Lemma update_encode_run s us fr es m x f : lists_ok s us fr -> es ⊆ us ->
  (forall i f, aget (m_files s) i = Some f -> i ∉ es -> m_fn f = []) ->
  tree_wf (m_files s) es -> map_rep (m_files s) es m -> coded_but x (m_files s) es -> entry (m_files s) es x f -> m_is_dir f = true -> fits m ->
  exists l, runs (update_encode x) s tt (set_files l s) /\ ref_at (set_files l s) us fr es m /\ files_sim (m_files s) l.
Proof.
  intros Hl He Hb Ht Hm Hc Hx Hd Hf.
  destruct (UpdateEncode_dir es m Hf encode_fuel (m_files s) x f) as (l & R & S & C); [done..| |].
  { pose proof (tw_path _ _ Ht _ _ Hx). assert (Z.of_nat encode_fuel = 257) by done. unfold MAX_PATH_SIZE in *. lia. }
  exists l. split; [by apply (runs_zoom m_files set_files)|]. split; [|done]. constructor; cbn [m_files set_files]; try done.
  - by apply lists_sim.
  - by eapply blank_sim.
  - by eapply tree_wf_sim.
  - by eapply map_rep_sim.
Qed.

(** * [AddPath] *)
Lemma kids_len files es m i f : tree_wf files es -> map_rep files es m -> entry files es i f -> m_is_dir f = true -> len (below m (m_fn f)) = rf_size f.
Proof.
  intros Ht Hm Hf Hd. destruct (tw_kids _ _ Ht _ _ Hf Hd) as (Hs & _). destruct (tw_buf _ _ Ht _ _ (proj2 Hf)) as (_ & Hc & _).
  rewrite <- (kids_below _ _ _ Ht Hm _ _ Hf Hd), length_map. unfold kids. rewrite length_take. lia.
Qed.
(** Taking a cell loses it, as long as no entry is made of it. *)
Lemma lost_cell s us o fr es m f : ref_at s us (o :: fr) es m -> aget (m_files s) o = Some f ->
  let s' := set_lists (rf_next f) o (len fr) (set_files (<[Z.to_nat o := set_next (m_used_list s) f]> (m_files s)) s) in
  lists_ok s' (o :: us) fr -> o ∉ es /\ ref_at s' (o :: us) fr es m.
Proof.
  intros H E s' Hl. assert (Ho : o ∉ es).
  { intros Hin%(ra_es _ _ _ _ _ H). pose proof (cells_NoDup _ _ _ (ra_lists _ _ _ _ _ H)) as Hnd.
    apply NoDup_app in Hnd as (_ & Hdis & _). apply (Hdis o Hin). by left. }
  split; [done|]. assert (Hr : renexted (m_files s) (m_files s') es).
  { unfold s'. cbn. split_and!; [by rewrite length_insert| |].
    - intros i g Eg. destruct (decide (o = i)) as [<-|Hi].
      + rewrite (cell_upd_eq _ _ _ _ E) in Eg. injection Eg as <-. apply (tw_buf _ _ (ra_tree _ _ _ _ _ H) _ _ E).
      + rewrite (cell_upd_ne _ _ _ _ _ E) in Eg by done. by apply (tw_buf _ _ (ra_tree _ _ _ _ _ H)).
    - intros i g [Hi Eg]. exists (rf_next g). rewrite set_next_id, (cell_upd_ne _ _ _ _ _ E); [done|by intros ->]. }
  destruct (renexted_all _ _ _ m Hr) as (Ht & Hm & Hc); [apply H..|]. constructor; [done| | |done|done|done|apply H].
  - intros i Hi%(ra_es _ _ _ _ _ H). by right.
  - intros i g Eg Hi. cbn in Eg. destruct (decide (o = i)) as [<-|Hoi].
    + rewrite (cell_upd_eq _ _ _ _ E) in Eg. injection Eg as <-. by apply (ra_blank _ _ _ _ _ H _ _ E).
    + rewrite (cell_upd_ne _ _ _ _ _ E) in Eg by done. by apply (ra_blank _ _ _ _ _ H _ _ Eg).
Qed.
Lemma AddPath_none s us es m path dir fid : ref_at s us [] es m -> runs (AddPath path dir fid) s None s.
Proof. intros H. unfold AddPath, runs, bind, get. rewrite (lo_nr _ _ _ (ra_lists _ _ _ _ _ H)). done. Qed.
Lemma AddPath_start s us o fr es m path dir fid d : ref_at s us (o :: fr) es m -> len path <= MAX_PATH_SIZE -> parent_path path = Some d -> d <> [] ->
  exists r f, aget (m_files s) o = Some f /\
  let s' := set_lists (rf_next f) o (len fr) (set_files (<[Z.to_nat o := set_next (m_used_list s) f]> (m_files s)) s) in
  o ∉ es /\ ref_at s' (o :: us) fr es m /\
  ((exists g, entry (m_files s) es r g /\ m_fn g = d) \/ r = INVALID32 /\ m !! d = None) /\
  AddPath path dir fid s = (
      if MAX_FILE_NUM <? r then throw ERR_APP else
      if r =? o then throw ERR_APP else
      parent <- file_at r ;;
      if negb (m_is_dir parent) then throw ERR_APP else
      obj <- file_at o ;;
      obj' <- opt (InitFile r (Some parent) path dir fid obj) ;;
      file_upd o (fun _ => obj') ;;;
      parent <- file_at r ;;
      kids <- opt (aset (m_children parent) (rf_size parent) o) ;;
      file_upd r (set_children (w32 (rf_size parent + 1)) kids) ;;;
      modify (fun s => if dir then set_counts (m_file_num s) (w32 (m_dir_num s + 1)) (m_reset_count s) s
                       else set_counts (w32 (m_file_num s + 1)) (m_dir_num s) (m_reset_count s) s) ;;;
      update_encode r ;;;
      ret (Some o)) s'.
Proof.
  intros H Hl Hp Hd. destruct (FindFileIndex_run s us _ es m d H Hd) as (r & R & D).
  destruct (get_file_run s us o fr (ra_lists _ _ _ _ _ H)) as (f & E & R2 & L2). exists r, f. split; [done|].
  destruct (lost_cell s us o fr es m f H E L2) as [Ho H']. split_and!; [done|done|done|].
  unfold AddPath. unfold bind at 1, get at 1. rewrite (lo_nr _ _ _ (ra_lists _ _ _ _ _ H)), (proj2 (Z.leb_gt _ _)) by (cbn [length]; lia).
  rewrite (proj2 (Z.leb_le _ _) Hl), Hp. unfold bind at 1, check. cbn. unfold bind at 1. rewrite R. unfold bind at 1. by rewrite R2.
Qed.
Lemma AddPath_throws s us o fr es m path dir fid : ref_at s us (o :: fr) es m -> path <> [] -> len path <= MAX_PATH_SIZE -> m !! path = None ->
  ~ path_ok m path -> exists s' us' fr', throws (AddPath path dir fid) s ERR_APP s' /\ ref_at s' us' fr' es m /\
    fr' = if parent_path path then fr else o :: fr.
Proof.
  intros H Hn Hl Hm Hno. assert (Hroot : path <> ROOT).
  { intros ->. destruct (tree_map_wf _ _ _ (ra_tree _ _ _ _ _ H) (ra_map _ _ _ _ _ H)) as [(e & Er & _) _]. by rewrite Hm in Er. }
  destruct (parent_path path) as [d|] eqn:Hp.
  - destruct (parent_shorter _ _ Hp Hroot) as [Hd _]. destruct (AddPath_start s us o fr es m path dir fid d H Hl Hp Hd) as (r & f & E & Ho & H' & D & Eq).
    set (s' := set_lists _ _ _ _) in *. exists s', (o :: us), fr. split; [|done]. unfold throws. rewrite Eq.
    destruct D as [(g & Hg & Hgd)|[-> _]]; [|done]. pose proof (entry_bounds _ _ (ra_tree _ _ _ _ _ H) _ _ Hg) as Hb.
    rewrite (proj2 (Z.ltb_ge _ _)) by lia. rewrite (proj2 (Z.eqb_neq r o)) by (intros ->; by destruct Hg).
    destruct (m_is_dir g) eqn:Hdir.
    + destruct Hno. intros _. exists d, (entry_of g). split_and!; [done| |done]. rewrite <- Hgd. eapply entry_map; [apply H|done].
    + unfold bind at 1. assert (Eg : aget (m_files s') r = Some g); [|rewrite (file_at_run s' r g Eg); by rewrite Hdir].
      unfold s'. cbn. rewrite (cell_upd_ne _ _ _ _ _ E); [apply Hg|intros ->; by destruct Hg].
  - exists s, us, (o :: fr). split; [|done]. unfold throws, AddPath. unfold bind at 1, get at 1.
    rewrite (lo_nr _ _ _ (ra_lists _ _ _ _ _ H)), (proj2 (Z.leb_gt _ _)) by (cbn [length]; lia).
    by rewrite (proj2 (Z.leb_le _ _) Hl), Hp.
Qed.
(** The state in which the new entry and its parent were written. *)
Lemma added_state s us fr es m o r g old f path dir fid s2 : ref_at s (o :: us) fr es m -> o ∉ es -> 0 <= o < MAX_FILE_NUM ->
  entry (m_files s) es r g -> m_is_dir g = true -> rf_size g < MAX_CHILD_NUM -> aget (m_files s) o = Some old ->
  fresh_cell o r g path dir fid f -> rf_next f = rf_next old -> is_child (m_fn g) path -> m !! path = None -> len path <= MAX_PATH_SIZE ->
  m_files s2 = added (m_files s) o r g f -> m_used_list s2 = m_used_list s -> m_free_list s2 = m_free_list s -> m_free_num s2 = m_free_num s ->
  let m' := <[path := REntry dir 0 false false fid]> m in fits m' ->
  exists l, runs (update_encode r) s2 tt (set_files l s2) /\ ref_at (set_files l s2) (o :: us) fr (o :: es) m'.
Proof.
  intros H Ho Hob Hg Hd Hsz Eo Hfresh Hnext Hc Hm Hl E1 E2 E3 E4 m' Hfit.
  pose proof (ra_tree _ _ _ _ _ H) as Ht. pose proof (ra_lists _ _ _ _ _ H) as L. pose proof (ra_map _ _ _ _ _ H) as Hm0. pose proof (ra_coded _ _ _ _ _ H) as Hc0.
  assert (Hat : forall i, 0 <= i -> aget (added (m_files s) o r g f) i =
    if decide (i = r) then Some (added_parent o g) else if decide (i = o) then Some f else aget (m_files s) i) by (intros; by eapply added_at).
  set (files2 := added (m_files s) o r g f) in *.
  assert (Hnx : forall i h, aget (m_files s) i = Some h -> exists h', aget files2 i = Some h' /\ rf_next h' = rf_next h).
  { intros i h Eh. rewrite Hat by by eapply aget_bounds. destruct (decide (i = r)) as [->|]; [|destruct (decide (i = o)) as [->|]; [|by exists h]].
    - exists (added_parent o g). split; [done|]. rewrite (proj2 Hg) in Eh. by injection Eh as <-.
    - exists f. split; [done|]. rewrite Eo in Eh. by injection Eh as <-. }
  destruct (update_encode_run s2 (o :: us) fr (o :: es) m' r (added_parent o g)) as (l & R & Hfin & _); try done; rewrite ?E1.
  - constructor; rewrite ?E1, ?E2, ?E3, ?E4; [..|apply L|apply L]; (eapply linked_same; [intros i h _; apply Hnx|apply L]).
  - intros i [->|Hi]%elem_of_cons; [by left|by apply (ra_es _ _ _ _ _ H)].
  - intros i h Eh Hi. apply not_elem_of_cons in Hi as [Hio Hi]. rewrite Hat in Eh by by eapply aget_bounds.
    rewrite decide_False in Eh by (intros ->; by destruct Hg). rewrite decide_False in Eh by done. by apply (ra_blank _ _ _ _ _ H _ _ Eh).
  - by eapply (tree_wf_add (m_files s) es m o r g f path dir fid).
  - by eapply (map_rep_add (m_files s) es m o r g f path dir fid).
  - by eapply (coded_add (m_files s) es o r g f path dir fid).
  - by eapply added_entry; [..|right; left].
  - by exists l.
Qed.
Lemma AddPath_run s us o fr es m path dir fid d e : ref_at s us (o :: fr) es m -> len path <= MAX_PATH_SIZE -> m !! path = None ->
  is_child d path -> m !! d = Some e -> e_dir e = true -> len (below m d) < MAX_CHILD_NUM ->
  let m' := <[path := REntry dir 0 false false fid]> m in fits m' ->
  exists s', runs (AddPath path dir fid) s (Some o) s' /\ ref_at s' (o :: us) fr (o :: es) m'.
Proof.
  intros H Hl Hm [Hroot Hp] Hd Hdir Hroom m' Hfit. destruct (parent_shorter _ _ Hp Hroot) as [Hdn Hlt].
  destruct (AddPath_start s us o fr es m path dir fid d H Hl Hp Hdn) as (r & f & E & Ho & H' & D & Eq).
  set (s1 := set_lists _ _ _ _) in *. destruct D as [(g & Hg & Hgd)|[_ D]]; [|by rewrite D in Hd].
  pose proof (ra_tree _ _ _ _ _ H) as Ht. pose proof (ra_map _ _ _ _ _ H) as Hmr.
  assert (Hgdir : m_is_dir g = true).
  { pose proof (entry_map _ _ _ Hmr _ _ Hg) as Eg. rewrite Hgd, Hd in Eg. by injection Eg as ->. }
  assert (Hro : r <> o) by (intros ->; by destruct Hg).
  assert (Eo : aget (m_files s1) o = Some (set_next (m_used_list s) f)) by by eapply cell_upd_eq.
  assert (Hg1 : entry (m_files s1) es r g) by (split; [apply Hg|]; unfold s1; cbn; rewrite (cell_upd_ne _ _ _ _ _ E); [apply Hg|done]).
  pose proof (ra_tree _ _ _ _ _ H') as Ht1. pose proof (entry_bounds _ _ Ht1 _ _ Hg1) as Hb. pose proof (tw_path _ _ Ht1 _ _ Hg1) as Hgp.
  assert (Hsz : rf_size g < MAX_CHILD_NUM) by (rewrite <- (kids_len _ _ _ _ _ Ht Hmr Hg Hgdir), Hgd; done).
  destruct (InitFile_spec o r g path dir fid (set_next (m_used_list s) f)) as (f' & Hinit & Hfresh & Hnext);
    [by apply (tw_buf _ _ Ht1)|done|rewrite <- Hgd in Hlt; lia|done|].
  set (s2 := if dir then set_counts (m_file_num s1) (w32 (m_dir_num s1 + 1)) (m_reset_count s1) (set_files (added (m_files s1) o r g f') s1)
             else set_counts (w32 (m_file_num s1 + 1)) (m_dir_num s1) (m_reset_count s1) (set_files (added (m_files s1) o r g f') s1)).
  destruct (added_state s1 us fr es m o r g (set_next (m_used_list s) f) f' path dir fid s2 H' Ho) as (l & R & Hfin); try done;
    [apply (free_bound _ _ _ (ra_lists _ _ _ _ _ H)); by left|by split; [|rewrite Hgd]|by unfold s2; destruct dir..|].
  exists (set_files l s2). split; [|done]. unfold runs. rewrite Eq. rewrite (proj2 (Z.ltb_ge _ _)), (proj2 (Z.eqb_neq r o)) by (done || lia).
  pose proof (tw_kids _ _ Ht1 _ _ Hg1 Hgdir) as (Hs0 & _). destruct (tw_buf _ _ Ht1 _ _ (proj2 Hg1)) as (_ & Hcl & _).
  assert (Eg2 : aget (<[Z.to_nat o := f']> (m_files s1)) r = Some g) by (rewrite (cell_upd_ne _ _ _ _ _ Eo); [apply Hg1|done]).
  assert (Hw : w32 (rf_size g + 1) = rf_size g + 1) by (unfold w32, MAX_CHILD_NUM in *; rewrite Z.mod_small; lia).
  eapply runs_bind; [by apply file_at_run, Hg1|]. rewrite Hgdir. eapply runs_bind; [by apply file_at_run|]. rewrite Hinit.
  eapply runs_bind; [done|]. eapply runs_bind; [by apply file_upd_run|]. eapply runs_bind; [by apply (file_at_run _ r g)|].
  rewrite aset_is_Some by lia. eapply runs_bind; [done|]. rewrite Hw. eapply runs_bind; [by apply (file_upd_run _ r g)|].
  eapply runs_bind; [done|]. eapply runs_bind; [|done]. cbv beta. unfold s2 in R. destruct dir; exact R.
Qed.

(** * Changing a file *)
Lemma digits_length fuel : forall n acc, (length (digits fuel n acc) <= fuel + length acc)%nat.
Proof.
  induction fuel as [|fuel IH]; intros n acc; cbn [digits]; [lia|]. destruct (n <? 10); [cbn; lia|].
  specialize (IH (n / 10) ((48 + n mod 10) :: acc)). cbn [length] in IH. lia.
Qed.
Lemma label_code_length v o : (length (label_code v o) <= 14)%nat.
Proof. unfold label_code, print_dec. rewrite !length_app. pose proof (digits_length 11 v []). destruct o; cbn in *; lia. Qed.
Lemma label_shown v o : 0 <= v < 10 ^ 11 -> bool_decide (SHARP ∈ label_code v o) = o.
Proof.
  intros Hv. destruct o; [apply bool_decide_eq_true|apply bool_decide_eq_false]; unfold label_code; rewrite !elem_of_app.
  - right; right; left. by left.
  - intros [H|[H|[H|H]]]; [by apply list_elem_of_singleton in H| |by apply elem_of_nil in H|by apply list_elem_of_singleton in H].
    pose proof (proj1 (Forall_forall _ _) (proj1 (print_dec_spec v Hv)) _ H) as D. unfold is_digit, SHARP in D. lia.
Qed.
(** A file [h] whose code was computed. *)
Definition file_coded (h : CRefFile) : CRefFile := set_encode (overwrite (file_code h ++ [0]) (m_encode h)) (len (file_code h)) h.
Lemma file_coded_spec i h : buf_ok i h -> m_is_dir h = false -> buf_ok i (file_coded h) /\
  code_of (file_coded h) = label_code (ver_of (rf_size h)) (m_is_open h) /\
  entry_of (file_coded h) = REntry false (rf_size h) (m_is_open h) (m_is_open h) (rf_fid h).
Proof.
  intros (He & Hc & Hz) Hd. pose proof (label_code_length (ver_of (rf_size h)) (m_is_open h)) as Hl.
  change (label_code (ver_of (rf_size h)) (m_is_open h)) with (file_code h) in *.
  assert (HM : MAX_ENCODE_SIZE = 512) by done.
  assert (Hcode : code_of (file_coded h) = file_code h).
  { unfold code_of, file_coded, overwrite. cbn [m_encode m_encode_size set_encode]. by rewrite Nat2Z.id, <- app_assoc, take_app_length. }
  split_and!; [|done|].
  - unfold buf_ok, file_coded. cbn [m_encode m_children set_encode]. split_and!; [unfold overwrite; rewrite !length_app, length_drop; cbn [length]; lia|done|].
    intros Hi. rewrite <- (Hz Hi). apply (last_patch 0 (file_code h ++ [0])). rewrite length_app. cbn [length]. lia.
  - unfold entry_of, shown. rewrite Hcode. cbn [file_coded set_encode m_is_dir rf_size m_is_open rf_fid]. rewrite Hd. cbn [negb andb].
    f_equal. apply (label_shown (ver_of (rf_size h)) (m_is_open h)), ver_of_bounds.
Qed.
Record same_file (f h : CRefFile) : Prop := {
  sf_fn : m_fn h = m_fn f; sf_dir : m_is_dir h = false; sf_parent : m_parent h = m_parent f; sf_depth : m_depth h = m_depth f;
  sf_next : rf_next h = rf_next f; sf_encode : m_encode h = m_encode f; sf_children : m_children h = m_children f
}.
Section Change.
Context (files : Files) (es : list Z) (m : ref_map) (i : Z) (f h : CRefFile).
Context (Ht : tree_wf files es) (Hm : map_rep files es m) (Hf : entry files es i f) (Hd : m_is_dir f = false)
  (Hp : same_place f h) (Hb : buf_ok i h).
Lemma placed_upd : placed files (<[Z.to_nat i := h]> files) es.
Proof.
  split_and!; [by rewrite length_insert| |].
  - intros j g E. destruct (decide (i = j)) as [<-|Hij]; [rewrite (cell_upd_eq _ _ _ _ (proj2 Hf)) in E; by injection E as <-|].
    rewrite (cell_upd_ne _ _ _ _ _ (proj2 Hf)) in E by done. by apply (tw_buf _ _ Ht).
  - intros j g Hg. destruct (decide (i = j)) as [<-|Hij].
    + exists h. split; [by eapply cell_upd_eq, Hf|]. by rewrite (entry_fun _ _ _ _ _ Hg Hf).
    + exists g. split; [rewrite (cell_upd_ne _ _ _ _ _ (proj2 Hf)); [apply Hg|done]|by constructor].
Qed.
Lemma upd_entry j g : entry (<[Z.to_nat i := h]> files) es j g <-> (j = i /\ g = h) \/ (j <> i /\ entry files es j g).
Proof.
  clear Ht Hm Hp Hb Hd. destruct Hf as [Hi E]. unfold entry. destruct (decide (i = j)) as [<-|Hij].
  - rewrite (cell_upd_eq _ _ _ _ E). naive_solver.
  - rewrite (cell_upd_ne _ _ _ _ _ E) by done. naive_solver.
Qed.
Lemma map_rep_upd : map_rep (<[Z.to_nat i := h]> files) es (<[m_fn f := entry_of h]> m).
Proof.
  intros p e. rewrite lookup_insert_Some, (Hm p e). setoid_rewrite upd_entry. split.
  - intros [[<- <-]|(Hne & j & g & Hg & <- & <-)].
    + exists i, h. split_and!; [by left|apply (sp_fn _ _ Hp)|done].
    + exists j, g. split_and!; [right; split; [|done]|done|done]. intros ->. by rewrite (entry_fun _ _ _ _ _ Hg Hf) in Hne.
  - intros (j & g & [[-> ->]|[Hji Hg]] & <- & <-).
    + left. by rewrite (sp_fn _ _ Hp).
    + right. split; [|by exists j, g]. intros E. apply Hji. symmetry. by eapply (tw_inj _ _ Ht).
Qed.
End Change.
Lemma update_file_run s us fr es m i f h : ref_at s us fr es m -> entry (m_files s) es i f -> m_is_dir f = false -> same_file f h ->
  let m' := <[m_fn f := REntry false (rf_size h) (m_is_open h) (m_is_open h) (rf_fid h)]> m in fits m' ->
  exists l, runs (update_encode i) (set_files (<[Z.to_nat i := h]> (m_files s)) s) tt (set_files l s) /\ ref_at (set_files l s) us fr es m'.
Proof.
  intros H Hf Hd Hs m' Hfit. pose proof (ra_tree _ _ _ _ _ H) as Ht. pose proof (tw_buf _ _ Ht _ _ (proj2 Hf)) as Hbuf.
  assert (Hb : buf_ok i h) by (unfold buf_ok; by rewrite (sf_encode _ _ Hs), (sf_children _ _ Hs)).
  destruct (file_coded_spec i h Hb (sf_dir _ _ Hs)) as (Hb' & Hcode & Hent). set (files1 := <[Z.to_nat i := file_coded h]> (m_files s)).
  assert (Hp : same_place f (file_coded h)) by (constructor; cbn [file_coded set_encode m_fn m_is_dir m_parent m_depth]; rewrite ?Hd; try apply Hs; done).
  pose proof (placed_upd _ _ _ _ _ Ht Hf Hp Hb') as Hpl. pose proof (tree_wf_placed _ _ _ Hpl Ht) as Ht1.
  pose proof (map_rep_upd _ _ _ _ _ _ Ht (ra_map _ _ _ _ _ H) Hf Hp) as Hm1. rewrite Hent in Hm1. fold files1 in Ht1, Hm1, Hpl.
  assert (Hi0 : i <> 0).
  { intros ->. destruct (tw_root _ _ Ht) as (r & Hr & _ & Hrd & _). rewrite (entry_fun _ _ _ _ _ Hr Hf) in Hrd. congruence. }
  destruct (tw_parent _ _ Ht _ _ Hf Hi0) as (g & Hg & Hgd & _ & Hdep & _).
  assert (Hpi : m_parent f <> i) by (intros E; rewrite E in Hg; rewrite (entry_fun _ _ _ _ _ Hg Hf) in Hgd; congruence).
  assert (Hg1 : entry files1 es (m_parent f) g) by (apply (proj2 (upd_entry _ _ _ _ (file_coded h) Hf _ _)); by right).
  assert (Hc1 : coded_but (m_parent f) files1 es).
  { intros j q Hq Hj. pose proof Hq as Hq'. apply (upd_entry _ _ _ _ _ Hf) in Hq' as [[-> ->]|[Hji Hq']].
    - unfold code_good. rewrite (sp_dir _ _ Hp), Hd, Hcode. assert (Es : shown (file_coded h) = m_is_open h) by exact (f_equal e_shown Hent). by rewrite Es.
    - eapply code_good_other; [done|apply Hf|done|done|by intros _ E; apply Hj|by apply (ra_coded _ _ _ _ _ H) in Hq']. }
  destruct (UpdateEncode_dir es m' Hfit (pred encode_fuel) files1 (m_parent f) g) as (l & R & Sim & C); [done..| |].
  { pose proof (tw_path _ _ Ht _ _ Hg). assert (Z.of_nat (pred encode_fuel) = 256) by done. unfold MAX_PATH_SIZE in *. lia. }
  exists l. split.
  - change (set_files l s) with (set_files l (set_files (<[Z.to_nat i := h]> (m_files s)) s)).
    apply (runs_zoom m_files set_files). cbn [m_files set_files]. change encode_fuel with (S (pred encode_fuel)). cbn [UpdateEncode].
    assert (Eh : aget (<[Z.to_nat i := h]> (m_files s)) i = Some h) by by eapply cell_upd_eq, Hf.
    eapply runs_bind.
    { unfold encode_node. eapply runs_bind; [by apply ref_cell_run|]. rewrite (sf_dir _ _ Hs).
      exact (ref_upd_run _ _ h (set_encode (overwrite (file_code h ++ [0]) (m_encode h)) (len (file_code h))) Eh). }
    fold (file_coded h). rewrite list_insert_insert_eq. eapply runs_bind; [apply ref_cell_run; by eapply cell_upd_eq, Hf|].
    cbn [file_coded set_encode m_parent]. rewrite (sf_parent _ _ Hs).
    pose proof (entry_bounds _ _ Ht _ _ Hg). rewrite (proj2 (Z.ltb_ge _ _)) by lia. exact R.
  - assert (Hnx : forall j q, aget (m_files s) j = Some q -> exists q', aget files1 j = Some q' /\ rf_next q' = rf_next q /\ m_fn q' = m_fn q).
    { intros j q Eq. unfold files1. destruct (decide (i = j)) as [<-|Hij].
      - exists (file_coded h). split; [by eapply cell_upd_eq|]. rewrite (proj2 Hf) in Eq. injection Eq as <-. by split; apply Hs.
      - exists q. by rewrite (cell_upd_ne _ _ _ _ _ (proj2 Hf)). }
    assert (L : lists_ok (set_files files1 s) us fr).
    { pose proof (ra_lists _ _ _ _ _ H) as L. constructor; cbn [m_files m_used_list m_free_list m_free_num set_files]; [..|apply L|apply L];
        (eapply linked_same; [|apply L]); intros j q _ Eq; destruct (Hnx j q Eq) as (q' & E' & ? & _); by exists q'. }
    constructor; cbn [m_files set_files]; try done.
    + apply (lists_sim _ l _ _ L Sim).
    + apply H.
    + eapply blank_sim; [exact Sim|]. intros j q Eq Hj. destruct (aget_is_Some (m_files s) j) as [q0 E0]. { rewrite <- (proj1 Hpl). by apply aget_bounds in Eq. }
      destruct (Hnx j q0 E0) as (q' & E' & _ & Hfn). rewrite Eq in E'. injection E' as <-. rewrite Hfn. by apply (ra_blank _ _ _ _ _ H _ _ E0).
    + by eapply tree_wf_sim.
    + by eapply map_rep_sim.
Qed.
