(* ===== verification/RefStep.v ===== *)
(** RefStep: the remaining operations of the reference file system, each against
    the map of paths: opening, closing, updating and removing entries, demounting
    and the first state. *)
From S2P Require Export RefOps.

(** The invariant looks at the cells and their lists only. *)
Lemma ref_at_same s s' us fr es m : ref_at s us fr es m -> m_files s' = m_files s -> m_used_list s' = m_used_list s ->
  m_free_list s' = m_free_list s -> m_free_num s' = m_free_num s -> ref_at s' us fr es m.
Proof.
  intros [[L1 L2 L3 L4] H2 H3 H4 H5 H6 H7] E1 E2 E3 E4.
  constructor; [constructor|..]; rewrite ?E1, ?E2, ?E3, ?E4; assumption.
Qed.

(** * Opening, closing, updating *)
Definition with_file (m : ref_map) (path : cstring) (size : Z) (o : bool) (fid : Z) : ref_map := <[path := REntry false size o o fid]> m.
Section File.
Context (s : RF) (us fr es : list Z) (m : ref_map) (i : Z) (f : CRefFile).
Context (H : ref_at s us fr es m) (Hf : entry (m_files s) es i f) (Hd : m_is_dir f = false).
Lemma OpenFile_run : m_is_open f = false -> fits (with_file m (m_fn f) (rf_size f) true (rf_fid f)) ->
  exists s', runs (OpenFile i) s tt s' /\ ref_at s' us fr es (with_file m (m_fn f) (rf_size f) true (rf_fid f)).
Proof.
  intros Ho Hfit. destruct (update_file_run s us fr es m i f (set_open_flag true f) H Hf Hd) as (l & R & Hr); [by constructor|done|].
  eexists. split.
  - unfold OpenFile. eapply runs_bind; [apply file_at_run, Hf|]. rewrite Ho, Hd. eapply runs_bind; [apply file_upd_run, Hf|].
    eapply runs_bind; [exact R|done].
  - by eapply ref_at_same.
Qed.
Lemma CloseFile_run : m_is_open f = true -> fits (with_file m (m_fn f) (rf_size f) false (rf_fid f)) ->
  exists s', runs (CloseFile i) s tt s' /\ ref_at s' us fr es (with_file m (m_fn f) (rf_size f) false (rf_fid f)).
Proof.
  intros Ho Hfit. destruct (update_file_run s us fr es m i f (set_open_flag false f) H Hf Hd) as (l & R & Hr); [by constructor|done|].
  eexists. split.
  - unfold CloseFile. eapply runs_bind; [apply file_at_run, Hf|]. rewrite Ho. eapply runs_bind; [apply file_upd_run, Hf|].
    eapply runs_bind; [exact R|done].
  - by eapply ref_at_same.
Qed.
Lemma UpdateFile_run n : n < 2 ^ 31 -> fits (with_file m (m_fn f) n (m_is_open f) (rf_fid f)) ->
  exists s', runs (UpdateFile_at i n) s tt s' /\ ref_at s' us fr es (with_file m (m_fn f) n (m_is_open f) (rf_fid f)).
Proof.
  intros Hn Hfit. destruct (update_file_run s us fr es m i f (set_size_ver n (m_ver f + 1) f) H Hf Hd) as (l & R & Hr); [by constructor|done|].
  eexists. split; [|exact Hr]. unfold UpdateFile_at. rewrite (proj2 (Z.ltb_lt _ _) Hn). eapply runs_bind; [done|].
  eapply runs_bind; [apply file_at_run, Hf|]. eapply runs_bind; [apply file_upd_run, Hf|exact R].
Qed.
End File.

(** * Demounting *)
Definition closed (e : ref_entry) : ref_entry := if is_valid16 (e_fid e) then REntry (e_dir e) (e_size e) false (e_shown e) (e_fid e) else e.
Definition closed_cell (f : CRefFile) : CRefFile := if is_valid16 (rf_fid f) then set_open_flag false f else f.
Lemma closed_cell_place f : same_place f (closed_cell f) /\ entry_of (closed_cell f) = closed (entry_of f) /\ rf_next (closed_cell f) = rf_next f /\
  code_of (closed_cell f) = code_of f /\ m_encode_size (closed_cell f) = m_encode_size f /\ kids (closed_cell f) = kids f /\
  shown (closed_cell f) = shown f /\ rf_size (closed_cell f) = rf_size f.
Proof. unfold closed_cell, closed, entry_of. cbn [e_fid]. by destruct (is_valid16 (rf_fid f)). Qed.
Lemma aget_map {A B} (g : A -> B) (l : list A) i : aget (g <$> l) i = g <$> aget l i.
Proof. unfold aget. destruct (0 <=? i); [|done]. apply list_lookup_fmap. Qed.
(** What the tree of a map is made of, but for the flags. *)
Lemma tree_of_closed m : forall fuel p, map_tree fuel (closed <$> m) p = map_tree fuel m p.
Proof.
  intros fuel. induction fuel as [|fuel IH]; intros p; cbn [map_tree]; [done|]. rewrite lookup_fmap.
  destruct (m !! p) as [e|] eqn:E; cbn [fmap option_fmap option_map]; [|done].
  assert (Ec : e_dir (closed e) = e_dir e /\ e_size (closed e) = e_size e /\ e_shown (closed e) = e_shown e) by (unfold closed; by destruct (is_valid16 (e_fid e))).
  destruct Ec as (-> & -> & ->). destruct (e_dir e); [|done].
  assert (Eb : below (closed <$> m) p = below m p) by (unfold below; by rewrite dom_fmap_L). rewrite Eb.
  apply (f_equal TDir), map_ext_in. intros q _. apply IH.
Qed.
Lemma Demount_run s us fr es m : ref_at s us fr es m -> exists s', runs Demount s tt s' /\ ref_at s' us fr es (closed <$> m).
Proof.
  intros H. eexists. split; [done|]. pose proof (ra_tree _ _ _ _ _ H) as Ht. pose proof (ra_lists _ _ _ _ _ H) as L.
  change (fun f => if is_valid16 (rf_fid f) then set_open_flag false f else f) with closed_cell.
  assert (Hat : forall i g, aget (closed_cell <$> m_files s) i = Some g -> exists f, aget (m_files s) i = Some f /\ g = closed_cell f).
  { intros i g. rewrite aget_map. destruct (aget (m_files s) i) as [f|]; [|done]. intros [= <-]. by exists f. }
  assert (Hat' : forall i f, aget (m_files s) i = Some f -> aget (closed_cell <$> m_files s) i = Some (closed_cell f)) by (intros i f E; by rewrite aget_map, E).
  assert (Hpl : placed (m_files s) (closed_cell <$> m_files s) es).
  { split_and!; [by rewrite length_fmap| |].
    - intros i g (f & E & ->)%Hat. apply (tw_buf _ _ Ht) in E. unfold closed_cell. by destruct (is_valid16 (rf_fid f)).
    - intros i f [_ E]. exists (closed_cell f). split; [by apply Hat'|apply closed_cell_place]. }
  assert (Hnx : forall l head, linked (m_files s) head l INVALID32 -> linked (closed_cell <$> m_files s) head l INVALID32).
  { intros l. apply linked_same. intros i f _ E. exists (closed_cell f). split; [by apply Hat'|apply closed_cell_place]. }
  constructor; cbn [m_files set_files set_counts set_opened].
  - constructor; cbn [m_files m_used_list m_free_list m_free_num set_files set_counts set_opened]; [apply Hnx, L|apply Hnx, L|apply L|apply L].
  - apply H.
  - intros i g (f & E & ->)%Hat Hi. rewrite (sp_fn _ _ (proj1 (closed_cell_place f))). by apply (ra_blank _ _ _ _ _ H _ _ E).
  - by eapply tree_wf_placed.
  - intros p e. rewrite lookup_fmap, fmap_Some. setoid_rewrite (ra_map _ _ _ _ _ H p). split.
    + intros (e' & (i & f & [Hi E] & <- & <-) & ->). exists i, (closed_cell f). destruct (closed_cell_place f) as (S & -> & _). by rewrite (sp_fn _ _ S); repeat split; [|apply Hat'].
    + intros (i & g & [Hi (f & E & ->)%Hat] & <- & <-). destruct (closed_cell_place f) as (S & -> & _). rewrite (sp_fn _ _ S).
      exists (entry_of f). split; [by exists i, f|done].
  - intros i g [Hi (f & E & ->)%Hat]. pose proof (ra_coded _ _ _ _ _ H i f (conj Hi E)) as Hg. unfold code_good in *.
    destruct (closed_cell_place f) as (S & _ & _ & -> & -> & -> & -> & ->). rewrite (sp_dir _ _ S). destruct (m_is_dir f) eqn:Hd; [|done].
    enough (Em : map (code_at (closed_cell <$> m_files s)) (kids f) = map (code_at (m_files s)) (kids f)) by by rewrite Em.
    apply map_ext_in. intros k _. unfold code_at, at_cell. rewrite aget_map. destruct (aget (m_files s) k) as [q|]; [|done]. cbn.
    by destruct (closed_cell_place q) as (_ & _ & _ & -> & _).
  - unfold fits, code_len, sub. rewrite tree_of_closed. apply H.
Qed.

(** * Removing an entry *)
Lemma index_of_child_spec l c : forall ii, c ∈ l -> exists k, index_of_child l c ii = Some (ii + Z.of_nat k) /\ l !! k = Some c.
Proof.
  induction l as [|x l IH]; intros ii Hc; [by apply elem_of_nil in Hc|]. cbn [index_of_child]. destruct (Z.eqb_spec x c) as [->|Hx].
  - exists 0%nat. split; [f_equal; lia|done].
  - apply elem_of_cons in Hc as [->|Hc]; [done|]. destruct (IH (ii + 1) Hc) as (k & -> & Hk). exists (S k). split; [f_equal; lia|done].
Qed.
Lemma RemoveChild_run o g i : buf_ok i g -> 0 <= rf_size g <= MAX_CHILD_NUM -> o ∈ kids g -> exists c,
  let g' := set_children (rf_size g - 1) c g in
  RemoveChild o g tt = (Ret g', tt) /\ len c = MAX_CHILD_NUM /\ kids g ≡ₚ o :: kids g'.
Proof.
  intros (_ & Hc & _) Hs Ho. destruct (index_of_child_spec (kids g) o 0 Ho) as (k & Hi & Hk). rewrite Z.add_0_l in Hi.
  pose proof (lookup_lt_Some _ _ _ Hk) as Hlt. unfold kids in Hlt. rewrite length_take in Hlt.
  destruct (aget_is_Some (m_children g) (rf_size g - 1)) as [x Hx]; [lia|]. pose proof Hx as Hx'. apply aget_Some in Hx' as [_ Hx'].
  set (n := Z.to_nat (rf_size g - 1)) in *. assert (Hn : Z.to_nat (rf_size g) = S n) by (unfold n; lia). rewrite Hn in Hlt.
  assert (Hkids : kids g = take n (m_children g) ++ [x]) by (unfold kids; rewrite Hn; by apply take_S_r).
  exists (<[n := 0]> (<[k := x]> (m_children g))). split_and!.
  - set (g' := set_children _ _ _). change (runs (RemoveChild o g) tt g' tt). unfold RemoveChild. fold (kids g). rewrite Hi, Hx.
    eapply runs_bind; [done|]. rewrite aset_is_Some by lia. eapply runs_bind; [done|].
    rewrite aset_is_Some by (rewrite length_insert; lia). eapply runs_bind; [done|]. by rewrite Nat2Z.id.
  - by rewrite !length_insert.
  - unfold kids at 2. cbn [rf_size m_children set_children]. fold n. rewrite take_insert_ge by done. rewrite Hkids in *.
    destruct (decide (k = n)) as [->|Hkn].
    + rewrite take_insert_ge by done. rewrite lookup_app_r, length_take in Hk by (rewrite length_take; lia).
      replace (n - n `min` length (m_children g))%nat with 0%nat in Hk by lia. injection Hk as ->. by rewrite Permutation_app_comm.
    + rewrite lookup_app_l in Hk by (rewrite length_take; lia). rewrite take_insert_lt by lia.
      rewrite (insert_exchange _ _ _ _ Hk). by rewrite Permutation_app_comm.
Qed.

Section Remove.
Context (files : Files) (es : list Z) (m : ref_map) (o p : Z) (f g : CRefFile) (c : list Z).
Context (Ht : tree_wf files es) (Hm : map_rep files es m) (Hf : entry files es o f) (Ho : o <> 0) (Hg : entry files es p g)
  (Hfp : m_parent f = p) (Hleaf : m_is_dir f = true -> kids f = []).
Definition removed_parent : CRefFile := set_children (rf_size g - 1) c g.
Context (Hcl : len c = MAX_CHILD_NUM) (Hperm : kids g ≡ₚ o :: kids removed_parent).
Definition removed : Files := <[Z.to_nat p := removed_parent]> files.
Definition others : list Z := filter (fun i => i <> o) es.

#[local] Lemma remove_parent : m_is_dir g = true /\ m_depth f = m_depth g + 1 /\ o ∈ kids g /\ p <> o.
Proof.
  clear Hm Hleaf Hcl Hperm. destruct (tw_parent _ _ Ht _ _ Hf Ho) as (g' & Hg' & Hd & _ & Hdep & Hin). rewrite Hfp in Hg'.
  rewrite (entry_fun _ _ _ _ _ Hg' Hg) in *. split_and!; [done..|]. intros E. rewrite E in Hg.
  rewrite (entry_fun _ _ _ _ _ Hg Hf) in Hdep. lia.
Qed.
Lemma removed_entry i h : entry removed others i h <-> (i = p /\ h = removed_parent) \/ (i <> p /\ i <> o /\ entry files es i h).
Proof.
  destruct remove_parent as (_ & _ & _ & Hpo). clear Ht Hm Hf Hfp Hleaf Hcl Hperm. destruct Hg as [Hp E].
  unfold entry, others, removed. rewrite list_elem_of_filter. destruct (decide (p = i)) as [<-|Hpi].
  - rewrite (cell_upd_eq _ _ _ _ E). naive_solver.
  - rewrite (cell_upd_ne _ _ _ _ _ E) by done. naive_solver.
Qed.
Lemma removed_keeps i h : entry files es i h -> i <> o -> exists h', entry removed others i h' /\ m_fn h' = m_fn h /\ m_is_dir h' = m_is_dir h /\
  m_parent h' = m_parent h /\ m_depth h' = m_depth h /\ entry_of h' = entry_of h /\ (forall k, k ∈ kids h -> k <> o -> k ∈ kids h').
Proof.
  intros Hh Hi. destruct (decide (i = p)) as [->|Hip].
  - rewrite (entry_fun _ _ _ _ _ Hh Hg). exists removed_parent. split_and!; try done; [apply removed_entry; by left| |].
    + unfold entry_of, shown. cbn. by rewrite (proj1 remove_parent).
    + intros k Hk Hko. rewrite Hperm in Hk. by apply elem_of_cons in Hk as [?|Hk].
  - exists h. split_and!; try done. apply removed_entry. by right.
Qed.
Lemma tree_wf_remove : tree_wf removed others.
Proof.
  destruct remove_parent as (Hd & Hdep & Hin & Hpo). destruct (tw_kids _ _ Ht _ _ Hg Hd) as (Hs & Hnd & Hks).
  pose proof Hnd as Hnd'. rewrite Hperm in Hnd'. apply NoDup_cons in Hnd' as [Hno Hnd'].
  assert (Hold : forall i h, (i = p /\ h = removed_parent) \/ (i <> p /\ i <> o /\ entry files es i h) ->
    i <> o /\ exists h0, entry files es i h0 /\ m_fn h = m_fn h0 /\ m_parent h = m_parent h0 /\ m_depth h = m_depth h0).
  { intros i h [[-> ->]|(_ & Hi & Hh)]; (split; [done|]); [by exists g|by exists h]. }
  constructor.
  - unfold removed. rewrite length_insert. apply Ht.
  - intros i h E. unfold removed in E. destruct (decide (p = i)) as [<-|Hpi].
    + rewrite (cell_upd_eq _ _ _ _ (proj2 Hg)) in E. injection E as <-. pose proof (tw_buf _ _ Ht _ _ (proj2 Hg)) as (H1 & _ & H3). by unfold buf_ok.
    + rewrite (cell_upd_ne _ _ _ _ _ (proj2 Hg)) in E by done. by apply (tw_buf _ _ Ht).
  - destruct (tw_root _ _ Ht) as (r & Hr & H1 & H2 & H3 & H4). destruct (removed_keeps _ _ Hr) as (r' & Hr' & E1 & E2 & E3 & E4 & _); [done|].
    exists r'. by rewrite E1, E2, E3, E4.
  - intros i h (Hi & h0 & Hh0 & -> & -> & ->)%removed_entry%Hold Hi0.
    destruct (tw_parent _ _ Ht _ _ Hh0 Hi0) as (q & Hq & H1 & H2 & H3 & H4).
    assert (Hqo : m_parent h0 <> o).
    { intros E. rewrite E in Hq. rewrite (entry_fun _ _ _ _ _ Hq Hf) in *. rewrite (Hleaf H1) in H4. by apply elem_of_nil in H4. }
    destruct (removed_keeps _ _ Hq Hqo) as (q' & Hq' & E1 & E2 & E3 & E4 & _ & E5). exists q'. rewrite E1, E2, E4. split_and!; auto.
  - intros i h (_ & h0 & Hh0 & -> & _ & ->)%removed_entry%Hold. by apply (tw_path _ _ Ht) in Hh0.
  - intros i h Hh Hhd. assert (Hk : forall k q, entry files es k q -> k <> o -> m_parent q = i -> exists q', entry removed others k q' /\ m_parent q' = i).
    { intros k q Hq Hko Hqp. destruct (removed_keeps _ _ Hq Hko) as (q' & Hq' & _ & _ & E & _). exists q'. by rewrite E. }
    apply removed_entry in Hh as [[-> ->]|(Hip & Hio & Hh)].
    + assert (Hlen : (0 < length (kids g))%nat) by (rewrite Hperm; cbn; lia). unfold kids in Hlen. rewrite length_take in Hlen.
      cbn [rf_size removed_parent set_children]. split_and!; [lia|lia|done|]. intros k Hkk. destruct (Hks k) as (H0 & q & Hq & Hqp); [rewrite Hperm; by right|].
      split; [done|]. apply (Hk k q); [done|by intros ->|done].
    + destruct (tw_kids _ _ Ht _ _ Hh Hhd) as (Hs' & Hnd2 & Hks'). split_and!; [lia|lia|done|]. intros k Hkk. destruct (Hks' k Hkk) as (H0 & q & Hq & Hqp).
      split; [done|]. apply (Hk k q); [done| |done]. intros ->. rewrite (entry_fun _ _ _ _ _ Hq Hf) in Hqp. congruence.
  - intros i j h1 h2 (_ & h1' & Hh1 & -> & _)%removed_entry%Hold (_ & h2' & Hh2 & -> & _)%removed_entry%Hold E. by eapply (tw_inj _ _ Ht).
Qed.
Lemma map_rep_remove : map_rep removed others (delete (m_fn f) m).
Proof.
  intros q e. rewrite lookup_delete_Some, (Hm q e). split.
  - intros (Hne & i & h & Hh & <- & <-). destruct (removed_keeps _ _ Hh) as (h' & Hh' & E1 & _ & _ & _ & E & _).
    { intros ->. by rewrite (entry_fun _ _ _ _ _ Hh Hf) in Hne. }
    by exists i, h'.
  - intros (i & h & Hh & <- & <-). assert (Hh0 : i <> o /\ exists h0, entry files es i h0 /\ m_fn h = m_fn h0 /\ entry_of h = entry_of h0).
    { apply removed_entry in Hh as [[-> ->]|(_ & Hi & Hh)]; [|by split; [|exists h]]. split; [apply remove_parent|]. exists g. split_and!; [done..|].
      unfold entry_of, shown. cbn. by rewrite (proj1 remove_parent). }
    destruct Hh0 as (Hi & h0 & Hh0 & -> & ->). split; [|by exists i, h0]. intros E. apply Hi. symmetry. by eapply (tw_inj _ _ Ht).
Qed.
Lemma coded_remove : coded files es -> coded_but p removed others.
Proof.
  intros Hc i h [[-> _]|(_ & Hio & Hh)]%removed_entry Hip; [done|]. pose proof (Hc _ _ Hh) as Hgood. unfold code_good in *.
  destruct (m_is_dir h); [|done].
  enough (E : map (code_at removed) (kids h) = map (code_at files) (kids h)) by by rewrite E.
  apply map_ext_in. intros k _. unfold code_at, at_cell, removed. destruct (decide (p = k)) as [<-|Hpk].
  - by rewrite (cell_upd_eq _ _ _ _ (proj2 Hg)), (proj2 Hg).
  - by rewrite (cell_upd_ne _ _ _ _ _ (proj2 Hg)).
Qed.
End Remove.

(** The parent has lost the entry, whose cell is still in the list. *)
Lemma removed_state s us fr es m o f g c s1 : ref_at s us fr es m -> entry (m_files s) es o f -> o <> 0 -> entry (m_files s) es (m_parent f) g ->
  (m_is_dir f = true -> kids f = []) -> len c = MAX_CHILD_NUM -> kids g ≡ₚ o :: kids (removed_parent g c) ->
  m_files s1 = removed (m_files s) (m_parent f) g c -> m_used_list s1 = m_used_list s -> m_free_list s1 = m_free_list s -> m_free_num s1 = m_free_num s ->
  fits (delete (m_fn f) m) ->
  exists l, runs (update_encode (m_parent f)) s1 tt (set_files l s1) /\ lists_ok (set_files l s1) us fr /\
    tree_wf l (others es o) /\ map_rep l (others es o) (delete (m_fn f) m) /\ coded l (others es o) /\
    (forall i h, aget l i = Some h -> i ∉ es -> m_fn h = []).
Proof.
  intros H Hf Ho Hg Hleaf Hcl Hperm E1 E2 E3 E4 Hfit. pose proof (ra_tree _ _ _ _ _ H) as Ht. pose proof (ra_lists _ _ _ _ _ H) as L.
  assert (Hd : m_is_dir g = true).
  { destruct (tw_parent _ _ Ht _ _ Hf Ho) as (g' & Hg' & Hd & _). by rewrite (entry_fun _ _ _ _ _ Hg Hg'). }
  assert (Ht1 : tree_wf (m_files s1) (others es o)) by (rewrite E1; by eapply tree_wf_remove).
  assert (Hm1 : map_rep (m_files s1) (others es o) (delete (m_fn f) m)) by (rewrite E1; eapply map_rep_remove; [done|apply H|done..]).
  assert (Hc1 : coded_but (m_parent f) (m_files s1) (others es o)) by (rewrite E1; eapply coded_remove; [done..|apply H]).
  assert (Hg1 : entry (m_files s1) (others es o) (m_parent f) (removed_parent g c)) by (rewrite E1; eapply removed_entry; [done..|by left]).
  assert (Hnx : forall i h, aget (m_files s) i = Some h -> exists h', aget (m_files s1) i = Some h' /\ rf_next h' = rf_next h /\ m_fn h' = m_fn h).
  { intros i h Eh. rewrite E1. unfold removed. destruct (decide (m_parent f = i)) as [<-|Hpi].
    - exists (removed_parent g c). split; [eapply cell_upd_eq, Hg|]. rewrite (proj2 Hg) in Eh. by injection Eh as <-.
    - exists h. by rewrite (cell_upd_ne _ _ _ _ _ (proj2 Hg)). }
  destruct (UpdateEncode_dir (others es o) (delete (m_fn f) m) Hfit encode_fuel (m_files s1) (m_parent f) (removed_parent g c)) as (l & R & Sim & C); [done..| |].
  { pose proof (tw_path _ _ Ht1 _ _ Hg1). assert (Z.of_nat encode_fuel = 257) by done. unfold MAX_PATH_SIZE in *. lia. }
  exists l. split_and!.
  - by apply (runs_zoom m_files set_files).
  - apply lists_sim; [|done]. constructor; rewrite ?E2, ?E3, ?E4; [..|apply L|apply L]; (eapply linked_same; [|apply L]);
      intros i h _ Eh; destruct (Hnx i h Eh) as (h' & E' & ? & _); by exists h'.
  - by eapply tree_wf_sim.
  - by eapply map_rep_sim.
  - done.
  - eapply blank_sim; [exact Sim|]. intros i h Eh Hi. destruct (aget_is_Some (m_files s) i) as [h0 E0].
    { rewrite (tw_len _ _ Ht), <- (tw_len _ _ Ht1). by apply aget_bounds in Eh. }
    destruct (Hnx i h0 E0) as (h' & E' & _ & Hfn). rewrite Eh in E'. injection E' as <-. rewrite Hfn. by apply (ra_blank _ _ _ _ _ H _ _ E0).
Qed.

(** Without an entry the code is not longer. *)
Lemma tree_code_length t : (2 <= length (tree_code t))%nat.
Proof. destruct t as [v o|ks]; cbn [tree_code]; [unfold label_code; rewrite !length_app; cbn; lia|]. rewrite dir_code_len. lia. Qed.
Lemma below_delete (m : ref_map) path p : below (delete path m) p ⊆+ below m p.
Proof.
  apply NoDup_submseteq; [apply below_NoDup|]. intros q. rewrite !below_spec. intros [Hc [e He]]. split; [done|].
  apply lookup_delete_Some in He as [_ He]. by exists e.
Qed.
Lemma code_len_delete fuel : forall (m : ref_map) path p, (length (tree_code (map_tree fuel (delete path m) p)) <= length (tree_code (map_tree fuel m p)))%nat.
Proof.
  induction fuel as [|fuel IH]; intros m path p; cbn [map_tree]; [done|]. destruct (decide (path = p)) as [->|Hne].
  - rewrite lookup_delete_eq. apply tree_code_length.
  - rewrite lookup_delete_ne by done. destruct (m !! p) as [e|]; [|done]. destruct (e_dir e); [|done].
    cbn [tree_code]. rewrite !dir_code_len. destruct (submseteq_Permutation _ _ (below_delete m path p)) as [k Hk].
    rewrite (concat_perm_len _ _ (Permutation_map tree_code (Permutation_map (map_tree fuel m) Hk))).
    rewrite !map_app, concat_app, length_app.
    enough (length (concat (map tree_code (map (map_tree fuel (delete path m)) (below (delete path m) p)))) <=
            length (concat (map tree_code (map (map_tree fuel m) (below (delete path m) p)))))%nat by lia.
    generalize (below (delete path m) p) as l. induction l as [|q l IHl]; cbn; [lia|]. rewrite !length_app. specialize (IH m path q). lia.
Qed.
Lemma fits_delete m path : fits m -> fits (delete path m).
Proof. unfold fits, code_len, sub. intros H. pose proof (code_len_delete (S path_fuel) m path ROOT). lia. Qed.

Lemma RemoveFile_run s us fr es m path e : ref_at s us fr es m -> m !! path = Some e -> path <> ROOT -> below m path = [] ->
  exists s' us' o, runs (RemoveFile path) s tt s' /\ ref_at s' us' (o :: fr) (others es o) (delete path m).
Proof.
  intros H Hm Hroot Hleaf. pose proof (ra_tree _ _ _ _ _ H) as Ht. pose proof (ra_map _ _ _ _ _ H) as Hmr.
  destruct (proj2 (tree_map_wf _ _ _ Ht Hmr) _ _ Hm) as (Hn & _).
  destruct (FindFileIndex_run s us fr es m path H Hn) as (o & R & D). destruct D as [(f & Hf & Hfn)|[_ D]]; [|congruence].
  assert (Ho : o <> 0).
  { intros ->. destruct (tw_root _ _ Ht) as (r & Hr & Er & _). rewrite (entry_fun _ _ _ _ _ Hf Hr) in Hfn. congruence. }
  destruct (tw_parent _ _ Ht _ _ Hf Ho) as (g & Hg & Hgd & _ & _ & Hin). destruct (tw_kids _ _ Ht _ _ Hg Hgd) as (Hs & _).
  destruct (RemoveChild_run o g (m_parent f) (tw_buf _ _ Ht _ _ (proj2 Hg)) Hs Hin) as (c & Rc & Hcl & Hperm).
  set (s1 := set_files (removed (m_files s) (m_parent f) g c) s).
  set (s2 := if m_is_dir f then set_counts (m_file_num s1) (w32 (m_dir_num s1 - 1)) (m_reset_count s1) s1
             else set_counts (w32 (m_file_num s1 - 1)) (m_dir_num s1) (m_reset_count s1) s1).
  destruct (removed_state s us fr es m o f g c s2 H Hf Ho Hg) as (l & R2 & L2 & Ht2 & Hm2 & Hc2 & Hb2); try done; try (by unfold s2; destruct (m_is_dir f)).
  { intros Hd. pose proof (kids_below _ _ _ Ht Hmr _ _ Hf Hd) as P. rewrite Hfn, Hleaf in P. apply Permutation_nil_r in P.
    by destruct (kids f). }
  { apply fits_delete, H. }
  set (s3 := set_files l s2) in *. assert (Hous : o ∈ us) by apply (ra_es _ _ _ _ _ H), Hf.
  destruct (put_file_run s3 us fr o L2 Hous (tw_len _ _ Ht2)) as (s4 & us' & R3 & L3 & Pus & Hab & Hblank).
  assert (Hr : renexted l (m_files s4) (others es o)).
  { destruct Hab as [Hl Hab]. split_and!; [exact Hl| |].
    - intros i h Eh. destruct (decide (i = o)) as [->|Hio]; [rewrite Hblank in Eh; by injection Eh as <-|].
      destruct (aget_is_Some l i) as [h0 E0]; [change l with (m_files s3); rewrite <- Hl; by apply aget_bounds in Eh|].
      destruct (Hab i h0 Hio E0) as (n & En). rewrite Eh in En. injection En as ->. by apply (tw_buf _ _ Ht2) in E0.
    - intros i h [Hi Eh]. apply list_elem_of_filter in Hi as [Hio _]. by apply (Hab i h Hio). }
  destruct (renexted_all _ _ _ _ Hr Ht2 Hm2 Hc2) as (Ht3 & Hm3 & Hc3). rewrite Hfn in Hm3.
  exists s4, us', o. split.
  - unfold RemoveFile. eapply runs_bind; [exact R|]. pose proof (entry_bounds _ _ Ht _ _ Hf) as Hb. rewrite (proj2 (Z.leb_gt _ _)) by lia.
    eapply runs_bind; [apply file_at_run, Hf|]. eapply runs_bind; [apply file_at_run, Hg|].
    eapply runs_bind; [unfold runs, lift1; rewrite Rc; done|]. eapply runs_bind; [apply file_upd_run, Hg|].
    eapply runs_bind; [done|]. eapply runs_bind; [|exact R3]. cbv beta. unfold s3, s2 in *. destruct (m_is_dir f); exact R2.
  - constructor; [done| | |done|done|done|apply fits_delete, H].
    + intros i [Hio Hi]%list_elem_of_filter. apply (ra_es _ _ _ _ _ H) in Hi. rewrite Pus in Hi. by apply elem_of_cons in Hi as [?|Hi].
    + intros i h Eh Hi. destruct (decide (i = o)) as [->|Hio]; [rewrite Hblank in Eh; by injection Eh as <-|].
      destruct (aget_is_Some l i) as [h0 E0]; [change l with (m_files s3); rewrite <- (proj1 Hab); by apply aget_bounds in Eh|].
      destruct (proj2 Hab i h0 Hio E0) as (n & En). rewrite Eh in En. injection En as ->. apply (Hb2 i h0 E0).
      intros Hin'. apply Hi. apply list_elem_of_filter. by split.
Qed.

(** * The first state *)
Lemma linked_range files lo hi : lo < hi ->
  (forall i, lo <= i < hi -> exists f, aget files i = Some f /\ rf_next f = if i =? hi - 1 then INVALID32 else i + 1) ->
  linked files lo (range lo hi) INVALID32.
Proof.
  remember (Z.to_nat (hi - lo)) as n eqn:Hn. revert lo Hn. induction n as [|n IH]; intros lo Hn Hlt Hat; [lia|].
  rewrite range_cons by done. split; [done|]. destruct (Hat lo ltac:(lia)) as (f & E & Hf). exists f. split; [done|]. rewrite Hf.
  destruct (Z.eqb_spec lo (hi - 1)) as [->|Hne]; [by rewrite range_nil by lia|]. apply IH; [lia|lia|]. intros i Hi. apply Hat. lia.
Qed.
Definition first_cell (ii : Z) : CRefFile := set_rf_fid INVALID16 (set_next (if ii =? MAX_FILE_NUM - 1 then INVALID32 else ii + 1) CRefFile_zero).
Definition first_root : CRefFile := set_next INVALID32 (default CRefFile_zero (InitFile INVALID32 None [BACKSLASH] true 0 CRefFile_zero)).
Definition first_files : Files := first_root :: (first_cell <$> range 1 MAX_FILE_NUM).
Lemma first_at i f : aget first_files i = Some f -> (i = 0 /\ f = first_root) \/ (1 <= i < MAX_FILE_NUM /\ f = first_cell i).
Proof.
  intros E. pose proof (aget_bounds _ _ _ E) as Hb. change (len first_files) with MAX_FILE_NUM in Hb.
  apply aget_Some in E as [H0 E]. destruct (Z.to_nat i) as [|k] eqn:Hk; [left; change (Some first_root = Some f) in E; injection E as <-; split; [lia|done]|right]. split; [lia|].
  change (first_files !! S k) with ((first_cell <$> range 1 MAX_FILE_NUM) !! k) in E. rewrite list_lookup_fmap in E.
  unfold range in E. rewrite lookup_seqZ_lt in E by (unfold MAX_FILE_NUM in *; lia). cbn in E. injection E as <-. f_equal. lia.
Qed.
Lemma first_at_free i : 1 <= i < MAX_FILE_NUM -> aget first_files i = Some (first_cell i).
Proof.
  intros Hi. destruct (aget_is_Some first_files i) as [f E]; [change (len first_files) with MAX_FILE_NUM; lia|].
  pose proof E as E'. apply first_at in E' as [[-> _]|[_ ->]]; [lia|done].
Qed.
Lemma first_tree : tree_wf first_files [0].
Proof.
  assert (H0 : aget first_files 0 = Some first_root) by done.
  assert (He : forall i f, entry first_files [0] i f -> i = 0 /\ f = first_root).
  { intros i f [->%list_elem_of_singleton E]. rewrite H0 in E. by injection E as <-. }
  constructor.
  - done.
  - intros i f [[-> ->]|[Hi ->]]%first_at; [by split_and!|]. unfold first_cell. by split_and!.
  - exists first_root. split_and!; try done. by split; [left|].
  - intros i f [-> _]%He. done.
  - intros i f [-> ->]%He. done.
  - intros i f [-> ->]%He _. split_and!; [done|done|constructor|]. intros k Hk. by apply elem_of_nil in Hk.
  - intros i j f g [-> _]%He [-> _]%He. done.
Qed.
Lemma ref_Initialize_run s : exists s', runs ref_Initialize s tt s' /\ ref_at s' [0] (range 1 MAX_FILE_NUM) [0] {[ROOT := root_entry]}.
Proof.
  exists (set_counts (m_file_num s) 1 0 (set_lists 1 0 (MAX_FILE_NUM - 1) (set_files first_files s))). split; [done|].
  assert (H0 : aget first_files 0 = Some first_root) by done.
  constructor; cbn [m_files set_files set_lists set_counts].
  - constructor; cbn [m_files m_used_list m_free_list m_free_num set_files set_lists set_counts]; [|apply linked_range; [done|]|by vm_compute|done].
    + split; [done|]. by exists first_root.
    + intros i Hi. exists (first_cell i). split; [by apply first_at_free|done].
  - done.
  - intros i f [[-> _]|[_ ->]]%first_at Hi; [|done]. destruct Hi. by left.
  - apply first_tree.
  - intros p e. rewrite lookup_singleton_Some. split.
    + intros [<- <-]. exists 0, first_root. split_and!; [by split; [left|]|done|by vm_compute].
    + intros (i & f & [->%list_elem_of_singleton E] & <- & <-). rewrite H0 in E. injection E as <-. split; [done|by vm_compute].
  - intros i f [->%list_elem_of_singleton E]. rewrite H0 in E. injection E as <-. by split; vm_compute.
  - by vm_compute.
Qed.
