(* ===== verification/RefProps.v ===== *)
(** RefProps: the properties of the reference file system.  A sequence of
    operations answers as a finite map from paths to entries does, and the code
    of a state is the same exactly for isomorphic trees. *)
From S2P Require Export RefStep.

(** * Commands *)
Inductive ref_cmd :=
  | RAdd (path : cstring) (dir : bool) (fid : Z) | RRemove (path : cstring) | ROpen (path : cstring) | RClose (path : cstring)
  | RUpdate (path : cstring) (size : Z) | RDemount | RExist (path : cstring).
(** The callers look a file up before they open or close it. *)
Definition ref_exec (c : ref_cmd) : M RF bool :=
  match c with
  | RAdd p d f => r <- AddPath p d f ;; ret (bool_decide (is_Some r))
  | RRemove p => RemoveFile p ;;; ret true
  | ROpen p => r <- ref_FindFile p ;; match r with Some i => OpenFile i ;;; ret true | None => ret false end
  | RClose p => r <- ref_FindFile p ;; match r with Some i => CloseFile i ;;; ret true | None => ret false end
  | RUpdate p n => UpdateFile p n ;;; ret true
  | RDemount => Demount ;;; ret true
  | RExist p => IsExist p
  end.
(** The map, and the number of cells that are free. *)
Abbreviation ref_spec := (ref_map * Z)%type.
Definition has_parent (m : ref_map) (p : cstring) : bool :=
  match parent_path p with Some d => match m !! d with Some e => e_dir e | None => false end | None => false end.
Definition spec_exec (c : ref_cmd) (st : ref_spec) : outcome bool * ref_spec :=
  let '(m, n) := st in
  match c with
  | RAdd p d f =>
      if n =? 0 then (Ret false, st)
      else if has_parent m p then (Ret true, (<[p := REntry d 0 false false f]> m, n - 1))
      else (Throw ERR_APP, (m, if parent_path p then n - 1 else n))
  | RRemove p => match m !! p with Some _ => (Ret true, (delete p m, n + 1)) | None => (Throw ERR_APP, st) end
  | ROpen p => match m !! p with
      | None => (Ret false, st)
      | Some e => if e_open e || e_dir e then (Throw ERR_APP, st) else (Ret true, (with_file m p (e_size e) true (e_fid e), n))
      end
  | RClose p => match m !! p with
      | None => (Ret false, st)
      | Some e => if e_open e then (Ret true, (with_file m p (e_size e) false (e_fid e), n)) else (Throw ERR_APP, st)
      end
  | RUpdate p k => match m !! p with
      | None => (Throw ERR_APP, st)
      | Some e => if e_dir e then (Throw ERR_APP, st) else (Ret true, (with_file m p k (e_open e) (e_fid e), n))
      end
  | RDemount => (Ret true, (closed <$> m, n))
  | RExist p => (Ret (bool_decide (is_Some (m !! p))), st)
  end.
(** What the callers see to: a new path is not there yet and has room in its
    directory, only leaves are removed; and the code fits its buffer. *)
Definition cmd_pre (m : ref_map) (c : ref_cmd) : Prop :=
  match c with
  | RAdd p _ _ => p <> [] /\ len p <= MAX_PATH_SIZE /\ m !! p = None /\ forall d, parent_path p = Some d -> len (below m d) < MAX_CHILD_NUM
  | RRemove p => p <> [] /\ p <> ROOT /\ below m p = []
  | RUpdate p n => p <> [] /\ n < 2 ^ 31
  | ROpen p | RClose p | RExist p => p <> []
  | RDemount => True
  end.
Definition ref_cmd_ok (st : ref_spec) (c : ref_cmd) : Prop := cmd_pre st.1 c /\ fits (spec_exec c st).2.1.

Fixpoint ref_outcomes (cs : list ref_cmd) (s : RF) : list (outcome bool) :=
  match cs with [] => [] | c :: cs => let '(o, s') := ref_exec c s in o :: ref_outcomes cs s' end.
Fixpoint spec_outcomes (cs : list ref_cmd) (st : ref_spec) : list (outcome bool) :=
  match cs with [] => [] | c :: cs => let '(o, st') := spec_exec c st in o :: spec_outcomes cs st' end.
Fixpoint ref_cmds_ok (cs : list ref_cmd) (st : ref_spec) : Prop :=
  match cs with [] => True | c :: cs => ref_cmd_ok st c /\ ref_cmds_ok cs (spec_exec c st).2 end.

(** A state stands for a map; directories are never open. *)
Definition ref_rep_n (s : RF) (st : ref_spec) : Prop := (exists us fr es, ref_at s us fr es st.1 /\ st.2 = len fr) /\
  forall p e, st.1 !! p = Some e -> e_dir e = true -> e_open e = false.

(** * One step *)
Section Step.
Context (s : RF) (m : ref_map) (n : Z) (us fr es : list Z) (H : ref_at s us fr es m) (Hn : n = len fr)
  (Hdirs : forall p e, m !! p = Some e -> e_dir e = true -> e_open e = false).
Definition step_sim (c : ref_cmd) : Prop := exists s', ref_exec c s = ((spec_exec c (m, n)).1, s') /\ ref_rep_n s' (spec_exec c (m, n)).2.
Lemma rep_here : ref_rep_n s (m, n).
Proof. split; [by exists us, fr, es|done]. Qed.
(** Looking up a path. *)
Lemma find_run p : p <> [] -> (exists i f, runs (FindFileIndex p) s i s /\ entry (m_files s) es i f /\ m_fn f = p /\ m !! p = Some (entry_of f)) \/
  runs (FindFileIndex p) s INVALID32 s /\ m !! p = None.
Proof.
  intros Hp. destruct (FindFileIndex_run s us fr es m p H Hp) as (r & R & [(f & Hf & <-)|[-> Hm]]); [left|by right].
  exists r, f. split_and!; [done|done|done|]. eapply entry_map; [apply H|done].
Qed.
Lemma find_file_run p : p <> [] -> (exists i f, runs (ref_FindFile p) s (Some i) s /\ entry (m_files s) es i f /\ m_fn f = p /\ m !! p = Some (entry_of f)) \/
  runs (ref_FindFile p) s None s /\ m !! p = None.
Proof.
  intros Hp. destruct (find_run p Hp) as [(i & f & R & Hf & Hfn & Hm)|[R Hm]]; [left|right].
  - exists i, f. split_and!; [|done..]. unfold ref_FindFile. eapply runs_bind; [exact R|].
    by rewrite (cell_valid i) by (eapply entry_bounds; [apply H|done]).
  - split; [|done]. unfold ref_FindFile. by eapply runs_bind; [exact R|].
Qed.
Lemma with_file_dirs p size o fid q e : with_file m p size o fid !! q = Some e -> e_dir e = true -> e_open e = false.
Proof. unfold with_file. rewrite lookup_insert_Some. intros [[_ <-]|[_ E]]; [done|by eapply Hdirs]. Qed.
(** A step that returns, and one that throws. *)
Lemma step_runs c b s' st' us' fr' es' : spec_exec c (m, n) = (Ret b, st') -> runs (ref_exec c) s b s' -> ref_at s' us' fr' es' st'.1 ->
  st'.2 = len fr' -> (forall p e, st'.1 !! p = Some e -> e_dir e = true -> e_open e = false) -> step_sim c.
Proof using. intros E R H' Hn' Hd. unfold step_sim. rewrite E. exists s'. split; [exact R|]. split; [by exists us', fr', es'|done]. Qed.
Lemma step_throws c s' st' us' fr' es' : spec_exec c (m, n) = (Throw ERR_APP, st') -> throws (ref_exec c) s ERR_APP s' -> ref_at s' us' fr' es' st'.1 ->
  st'.2 = len fr' -> (forall p e, st'.1 !! p = Some e -> e_dir e = true -> e_open e = false) -> step_sim c.
Proof using. intros E R H' Hn' Hd. unfold step_sim. rewrite E. exists s'. split; [exact R|]. split; [by exists us', fr', es'|done]. Qed.
Lemma step_add p d f : ref_cmd_ok (m, n) (RAdd p d f) -> step_sim (RAdd p d f).
Proof.
  intros [(Hp & Hl & Hm & Hroom) Hfit]. cbn [fst] in *. destruct fr as [|o fr'].
  - eapply (step_runs _ false s (m, n) us [] es); [by rewrite Hn| |done|by rewrite Hn|done].
    eapply runs_bind; [eapply AddPath_none, H|done].
  - assert (Hn0 : (n =? 0) = false) by (apply Z.eqb_neq; rewrite Hn; cbn [length]; lia).
    assert (Hroot : p <> ROOT).
    { intros ->. destruct (tree_map_wf _ _ _ (ra_tree _ _ _ _ _ H) (ra_map _ _ _ _ _ H)) as [(e & Er & _) _]. by rewrite Hm in Er. }
    cbn [spec_exec] in Hfit. rewrite Hn0 in Hfit. destruct (has_parent m p) eqn:Hpar.
    + unfold has_parent in Hpar. destruct (parent_path p) as [q|] eqn:Hq; [|done]. destruct (m !! q) as [e|] eqn:He; [|done].
      destruct (AddPath_run s us o fr' es m p d f q e H Hl Hm ltac:(by split) He Hpar (Hroom _ eq_refl) Hfit) as (s' & R & H').
      eapply (step_runs _ true s' (_, n - 1)); [|by eapply runs_bind; [exact R|]|exact H'|cbn [snd]; rewrite Hn; cbn [length]; lia|].
      * unfold spec_exec, has_parent. by rewrite Hn0, Hq, He, Hpar.
      * cbn. intros q' e'. rewrite lookup_insert_Some. intros [[_ <-]|[_ E]]; [done|by eapply Hdirs].
    + destruct (AddPath_throws s us o fr' es m p d f H Hp Hl Hm) as (s' & us' & fr2 & R & H' & Hfr).
      { intros Hok. destruct (Hok Hroot) as (q & e & Eq & Ee & Hd). unfold has_parent in Hpar. rewrite Eq, Ee in Hpar. congruence. }
      eapply (step_throws _ s' (m, if parent_path p then n - 1 else n)); [|by apply throws_here|exact H'| |done].
      * unfold spec_exec. by rewrite Hn0, Hpar.
      * cbn [snd]. rewrite Hfr, Hn. cbn [length]. destruct (parent_path p); cbn [length]; lia.
Qed.
Lemma step_remove p : ref_cmd_ok (m, n) (RRemove p) -> step_sim (RRemove p).
Proof.
  intros [(Hp & Hroot & Hleaf) _]. cbn [fst] in *. destruct (m !! p) as [e|] eqn:Hm.
  - destruct (RemoveFile_run s us fr es m p e H Hm Hroot Hleaf) as (s' & us' & o & R & H').
    eapply (step_runs _ true s' (delete p m, n + 1)); [by unfold spec_exec; rewrite Hm|by eapply runs_bind; [exact R|]|exact H'|cbn [snd length]; lia|].
    cbn. intros q e'. rewrite lookup_delete_Some. intros [_ E]. by eapply Hdirs.
  - eapply (step_throws _ s (m, n)); [by unfold spec_exec; rewrite Hm| |exact H|done|done].
    destruct (find_run p Hp) as [(i & f & _ & _ & _ & E)|[R _]]; [congruence|]. apply throws_here.
    unfold RemoveFile. eapply throws_later; [exact R|done].
Qed.
Lemma step_exist p : ref_cmd_ok (m, n) (RExist p) -> step_sim (RExist p).
Proof.
  intros [Hp _]. cbn in Hp. eapply (step_runs _ _ s (m, n)); [done| |exact H|done|done]. unfold ref_exec, IsExist.
  destruct (find_run p Hp) as [(i & f & R & Hf & _ & ->)|[R ->]]; (eapply runs_bind; [exact R|]).
  - by rewrite (cell_valid i) by (eapply entry_bounds; [apply H|done]).
  - done.
Qed.
Lemma step_open p : ref_cmd_ok (m, n) (ROpen p) -> step_sim (ROpen p).
Proof.
  intros [Hp Hfit]. cbn in Hp. destruct (find_file_run p Hp) as [(i & f & R & Hf & Hfn & Hm)|[R Hm]].
  - cbn [spec_exec] in Hfit. rewrite Hm in Hfit. cbn [e_open e_dir entry_of] in Hfit. destruct (m_is_open f || m_is_dir f) eqn:Hod.
    + eapply (step_throws _ s (m, n)); [unfold spec_exec; rewrite Hm; cbn [e_open e_dir entry_of]; by rewrite Hod| |exact H|done|done].
      eapply throws_later; [exact R|]. apply throws_here. unfold OpenFile. eapply throws_later; [apply file_at_run, Hf|].
      destruct (m_is_open f); [done|]. cbn in Hod. by rewrite Hod.
    + apply orb_false_elim in Hod as [Ho Hd]. unfold entry_of in Hfit. cbn [e_size e_fid] in Hfit. rewrite Hd in Hfit. rewrite <- Hfn in Hfit.
      destruct (OpenFile_run s us fr es m i f H Hf Hd Ho Hfit) as (s' & R' & H').
      eapply (step_runs _ true s' (_, n)); [| |exact H'|done|intros q e; apply with_file_dirs].
      * unfold spec_exec. rewrite Hm. unfold entry_of. cbn [e_open e_dir e_size e_fid]. by rewrite Ho, Hd, Hfn.
      * eapply runs_bind; [exact R|]. by eapply runs_bind; [exact R'|].
  - eapply (step_runs _ false s (m, n)); [by unfold spec_exec; rewrite Hm| |exact H|done|done]. by eapply runs_bind; [exact R|].
Qed.
Lemma step_close p : ref_cmd_ok (m, n) (RClose p) -> step_sim (RClose p).
Proof.
  intros [Hp Hfit]. cbn in Hp. destruct (find_file_run p Hp) as [(i & f & R & Hf & Hfn & Hm)|[R Hm]].
  - cbn [spec_exec] in Hfit. rewrite Hm in Hfit. cbn [e_open entry_of] in Hfit. destruct (m_is_open f) eqn:Ho.
    + assert (Hd : m_is_dir f = false).
      { destruct (m_is_dir f) eqn:Hd; [|done]. pose proof (Hdirs _ _ Hm) as E. unfold entry_of in E. cbn [e_dir e_open] in E. rewrite Hd, Ho in E. by specialize (E eq_refl). }
      unfold entry_of in Hfit. cbn [e_size e_fid] in Hfit. rewrite Hd in Hfit. rewrite <- Hfn in Hfit.
      destruct (CloseFile_run s us fr es m i f H Hf Hd Ho Hfit) as (s' & R' & H').
      eapply (step_runs _ true s' (_, n)); [| |exact H'|done|intros q e; apply with_file_dirs].
      * unfold spec_exec. rewrite Hm. unfold entry_of. cbn [e_open e_size e_fid]. by rewrite Ho, Hd, Hfn.
      * eapply runs_bind; [exact R|]. by eapply runs_bind; [exact R'|].
    + eapply (step_throws _ s (m, n)); [unfold spec_exec; rewrite Hm; cbn [e_open entry_of]; by rewrite Ho| |exact H|done|done].
      eapply throws_later; [exact R|]. apply throws_here. unfold CloseFile. eapply throws_later; [apply file_at_run, Hf|]. by rewrite Ho.
  - eapply (step_runs _ false s (m, n)); [by unfold spec_exec; rewrite Hm| |exact H|done|done]. by eapply runs_bind; [exact R|].
Qed.
Lemma step_update p k : ref_cmd_ok (m, n) (RUpdate p k) -> step_sim (RUpdate p k).
Proof.
  intros [[Hp Hk] Hfit]. destruct (find_file_run p Hp) as [(i & f & R & Hf & Hfn & Hm)|[R Hm]].
  - cbn [spec_exec] in Hfit. rewrite Hm in Hfit. cbn [e_dir entry_of] in Hfit. destruct (m_is_dir f) eqn:Hd.
    + eapply (step_throws _ s (m, n)); [unfold spec_exec; rewrite Hm; cbn [e_dir entry_of]; by rewrite Hd| |exact H|done|done].
      apply throws_here. unfold UpdateFile. eapply throws_later; [exact R|]. eapply throws_later; [apply file_at_run, Hf|]. by rewrite Hd.
    + unfold entry_of in Hfit. cbn [e_open e_fid] in Hfit. rewrite <- Hfn in Hfit.
      destruct (UpdateFile_run s us fr es m i f H Hf Hd k Hk Hfit) as (s' & R' & H').
      eapply (step_runs _ true s' (_, n)); [| |exact H'|done|intros q e; apply with_file_dirs].
      * unfold spec_exec. rewrite Hm. unfold entry_of. cbn [e_open e_dir e_fid]. by rewrite Hd, Hfn.
      * eapply runs_bind; [|done]. unfold UpdateFile. eapply runs_bind; [exact R|]. eapply runs_bind; [apply file_at_run, Hf|]. by rewrite Hd.
  - eapply (step_throws _ s (m, n)); [by unfold spec_exec; rewrite Hm| |exact H|done|done].
    apply throws_here. unfold UpdateFile. by eapply throws_later; [exact R|].
Qed.
Lemma step_demount : step_sim RDemount.
Proof.
  destruct (Demount_run s us fr es m H) as (s' & R & H').
  eapply (step_runs _ true s' (closed <$> m, n)); [done|by eapply runs_bind; [exact R|]|exact H'|done|].
  cbn. intros p e. rewrite lookup_fmap, fmap_Some. intros (e' & E & ->) Hd. unfold closed in *. destruct (is_valid16 (e_fid e')); [done|by eapply Hdirs].
Qed.
End Step.

Lemma ref_step c s st : ref_rep_n s st -> ref_cmd_ok st c -> exists s', ref_exec c s = ((spec_exec c st).1, s') /\ ref_rep_n s' (spec_exec c st).2.
Proof.
  destruct st as [m n]. intros [(us & fr & es & H & Hn) Hd] Hok. cbn [fst snd] in *. destruct c.
  - by eapply step_add.
  - by eapply step_remove.
  - by eapply step_open.
  - by eapply step_close.
  - by eapply step_update.
  - by eapply step_demount.
  - by eapply step_exist.
Qed.

(** C21: the reference file system refines a finite map.  A sequence of
    operations on the array of cells with its two lists, the children of
    directories and the codes answers, exceptions included, as the same
    operations on a map from paths to entries, as long as the callers of the code
    keep to what they do keep to ([ref_cmds_ok]): paths are not empty and not too
    long, a path that is added is not there yet and its directory has room for a
    child, what is removed is not the root and has no children, sizes are below
    [2^31], and the code of the tree fits its buffer.  A creation whose parent is
    missing costs a cell, and demounting closes files without their codes being
    computed again. *)
Theorem reference_refines_map cs : forall s st, ref_rep_n s st -> ref_cmds_ok cs st -> ref_outcomes cs s = spec_outcomes cs st.
Proof.
  induction cs as [|c cs IH]; intros s st H Hok; [done|]. destruct Hok as [Hc Hok]. cbn [ref_outcomes spec_outcomes].
  destruct (ref_step c s st H Hc) as (s' & -> & H'). destruct (spec_exec c st) as [o st']. cbn [fst snd] in *. f_equal. by apply IH.
Qed.

(** * The code of a state *)
Lemma root_code s st : ref_rep_n s st -> exists root, aget (m_files s) 0 = Some root /\ code_of root = tree_code (tree_of st.1).
Proof.
  intros [(us & fr & es & H & _) _]. destruct (tw_root _ _ (ra_tree _ _ _ _ _ H)) as (r & Hr & Hfn & _). exists r. split; [apply Hr|].
  unfold tree_of. rewrite <- Hfn. eapply coded_tree; [apply H|apply H|apply H|exact Hr].
Qed.
(** The last operations that [Encode] appends. *)
Definition last_ops (op_len : Z) (s : RF) : list Z :=
  let n := Z.min op_len (m_op_code_len s) in take (Z.to_nat n) (drop (Z.to_nat (m_op_code_len s - n)) (m_op_code s)).

(** C22: codes are canonical.  Two states that stand for maps of paths have the
    same code exactly when the trees of the two maps are isomorphic, where a tree
    keeps of a file how large it is, in steps, and whether it was open when its
    code was last computed (a demount closes files and does not compute their
    codes again, so that this mark can be stale), and the two states have the
    same [m_reset_count] (the number of demounts, which stops at
    MAX_FILE_VERSION) and end in the same operations.  The order of creation,
    names, numbers of cells and what older codes left in the buffers do not
    matter. *)
Theorem ref_code_canonical s1 st1 s2 st2 buf_len op_len c1 c2 : ref_rep_n s1 st1 -> ref_rep_n s2 st2 ->
  Encode buf_len op_len s1 = Some c1 -> Encode buf_len op_len s2 = Some c2 ->
  c1 = c2 <-> iso (tree_of st1.1) (tree_of st2.1) /\ m_reset_count s1 = m_reset_count s2 /\ last_ops op_len s1 = last_ops op_len s2.
Proof.
  intros H1 H2 E1 E2. destruct (root_code _ _ H1) as (r1 & R1 & C1). destruct (root_code _ _ H2) as (r2 & R2 & C2).
  assert (F : forall s r c, aget (m_files s) 0 = Some r -> Encode buf_len op_len s = Some c ->
    c = code_of r ++ [m_reset_count s + 48] ++ last_ops op_len s).
  { intros s r c Er. unfold Encode. rewrite Er. cbn [mbind option_bind]. repeat destruct (_ <? _); [done..|]. by intros [= <-]. }
  rewrite (F _ _ _ R1 E1), (F _ _ _ R2 E2), C1, C2. split.
  - intros E. apply tree_code_split in E as [Et E]; [|apply map_tree_ok..]. injection E as Er E.
    split_and!; [apply same_code_iso; [apply map_tree_ok..|done]|lia|done].
  - intros (Hi & -> & ->). by rewrite (iso_same_code _ _ Hi).
Qed.

(** * Examples *)
Definition pa : cstring := [92; 97].
Definition pab : cstring := [92; 97; 92; 98].
Definition pc : cstring := [92; 99].
Definition first_spec : ref_spec := ({[ROOT := root_entry]}, 255).
Definition ref_first : RF := (ref_Initialize ref_new).2.
Lemma first_rep : ref_rep_n ref_first first_spec.
Proof.
  destruct (ref_Initialize_run ref_new) as (s' & R & H). assert (E : ref_first = s') by (unfold ref_first; by rewrite R). rewrite E. split.
  - by exists [0], (range 1 MAX_FILE_NUM), [0].
  - cbn [fst first_spec]. intros p e. rewrite lookup_singleton_Some. by intros [_ <-].
Qed.
Definition ref_cmds : list ref_cmd :=
  [RAdd pa true 1; RAdd pab false 2; ROpen pab; RUpdate pab 5000; RAdd [92; 100; 92; 98] false 3; ROpen pa; RDemount; RClose pab; RRemove pab; RExist pab; RExist pa].
(** The condition on a command of a concrete map, by evaluation. *)
Ltac cmd_ok_eval := split; [|by vm_compute]; cbn [cmd_pre fst];
  lazymatch goal with
  | |- _ /\ _ /\ _ /\ _ => split_and!; [done|by vm_compute|by vm_compute|intros ? [= <-]; by vm_compute]
  | |- _ => try done; split_and!; by vm_compute
  end.
Lemma ref_cmds_small : ref_cmds_ok ref_cmds first_spec.
Proof. repeat (split; [cmd_ok_eval|]). done. Qed.
Lemma reference_refines_map_witness :
  ref_outcomes ref_cmds ref_first = [Ret true; Ret true; Ret true; Ret true; Throw ERR_APP; Throw ERR_APP; Ret true; Throw ERR_APP; Ret true; Ret false; Ret true] /\
  ref_outcomes ref_cmds ref_first = spec_outcomes ref_cmds first_spec.
Proof. split; [by vm_compute|]. apply reference_refines_map; [exact first_rep|exact ref_cmds_small]. Defined.

(** Two orders of creation, other names, and a file that was opened and closed. *)
Definition ref_final (cs : list ref_cmd) (s : RF) : RF := fold_left (fun s c => (ref_exec c s).2) cs s.
Definition spec_final (cs : list ref_cmd) (st : ref_spec) : ref_spec := fold_left (fun st c => (spec_exec c st).2) cs st.
Lemma ref_final_rep cs : forall s st, ref_rep_n s st -> ref_cmds_ok cs st -> ref_rep_n (ref_final cs s) (spec_final cs st).
Proof.
  induction cs as [|c cs IH]; intros s st H Hok; [done|]. destruct Hok as [Hc Hok]. destruct (ref_step c s st H Hc) as (s' & E & H').
  cbn [ref_final spec_final fold_left]. rewrite E. by apply IH.
Qed.
Definition cmds1 : list ref_cmd := [RAdd pa true 1; RAdd pab false 2; RAdd pc false 3; RUpdate pc 9000000].
Definition cmds2 : list ref_cmd := [RAdd pa false 1; RAdd pc true 2; RUpdate pa 9000000; RAdd (pc ++ pa) false 3; ROpen (pc ++ pa); RClose (pc ++ pa)].
Lemma cmds1_ok : ref_cmds_ok cmds1 first_spec.
Proof. repeat (split; [cmd_ok_eval|]). done. Qed.
Lemma cmds2_ok : ref_cmds_ok cmds2 first_spec.
Proof. repeat (split; [cmd_ok_eval|]). done. Qed.
Definition ref_code (cs : list ref_cmd) : list Z := default [] (Encode MAX_ENCODE_SIZE 0 (ref_final cs ref_first)).
Lemma ref_code_canonical_witness :
  Encode MAX_ENCODE_SIZE 0 (ref_final cmds1 ref_first) = Some (ref_code cmds1) /\ ref_code cmds1 = ref_code cmds2 /\
  iso (tree_of (spec_final cmds1 first_spec).1) (tree_of (spec_final cmds2 first_spec).1).
Proof.
  assert (E1 : Encode MAX_ENCODE_SIZE 0 (ref_final cmds1 ref_first) = Some (ref_code cmds1)) by by vm_compute.
  assert (E2 : Encode MAX_ENCODE_SIZE 0 (ref_final cmds2 ref_first) = Some (ref_code cmds2)) by by vm_compute.
  assert (E : ref_code cmds1 = ref_code cmds2) by by vm_compute. split; [exact E1|]. split; [exact E|].
  exact (proj1 (proj1 (ref_code_canonical _ _ _ _ MAX_ENCODE_SIZE 0 _ _ (ref_final_rep cmds1 _ _ first_rep cmds1_ok)
    (ref_final_rep cmds2 _ _ first_rep cmds2_ok) E1 E2) E)).
Defined.
