(* ===== verification/Interface.v ===== *)
(** Interface: what the tester asks of a file system, the abstract class
    [IFsSimulator] of fs_simulator.h.

    [W] is the state of all the file systems there are (they share storage), an
    [IFsSimulator*] is a number.  The methods that only print are left out. *)
From S2P Require Export RefFs.

Class IFsSimulator (W : Type) := {
  fs_add_ref : Z -> M W unit;
  fs_release : Z -> M W unit;
  fs_Mount : Z -> M W unit;
  fs_Unmount : Z -> M W unit;
  fs_Reset : Z -> Z -> M W unit;
  fs_fsck : Z -> bool -> M W ERROR_CODE;
  fs_FileCreate : Z -> cstring -> M W (ERROR_CODE * Z);
  fs_DirCreate : Z -> cstring -> M W (ERROR_CODE * Z);
  fs_FileOpen : Z -> cstring -> M W (ERROR_CODE * Z);
  fs_FileClose : Z -> Z -> M W unit;
  fs_GetFileSize : Z -> Z -> M W Z;
  fs_FileWrite : Z -> Z -> Z -> Z -> M W Z;
  fs_FileRead : Z -> Z -> Z -> Z -> M W (list FILE_DATA);
  fs_FileTruncate : Z -> Z -> Z -> Z -> M W unit;
  fs_FileDelete : Z -> cstring -> M W unit;
  fs_DirDelete : Z -> cstring -> M W ERROR_CODE;
  fs_FileMove : Z -> cstring -> cstring -> M W ERROR_CODE;
  fs_Clone : Z -> M W Z;
  fs_CopyFrom : Z -> Z -> M W unit;
  fs_GetFsInfo : Z -> M W FS_INFO;
  fs_GetCacheNum : Z -> M W Z;
  fs_GetFileDirNum : Z -> Z -> M W (Z * Z)
}.

(** * Error codes as numbers

    The tester compares error codes and converts them; [ERR_OK] is 0 and the
    others follow in order. *)
Definition ERROR_CODES : list ERROR_CODE :=
  [ERR_OK; ERR_NO_OPERATION; ERR_NO_SPACE; ERR_MAX_OPEN_FILE;
   OK_ALREADY_EXIST;
   ERR_GENERAL; ERR_READ_NO_MAPPING_DATA; ERR_PHYSICAL_ADD_NOMATCH;
   ERR_CREATE_EXIST; ERR_CREATE; ERR_OPEN_FILE; ERR_GET_INFOMATION;
   ERR_DELETE_FILE; ERR_DELETE_DIR; ERR_NON_EMPTY; ERR_READ_FILE;
   ERR_WRONG_FILE_SIZE; ERR_WRONG_FILE_DATA; ERR_PENDING; ERR_SYNC;
   ERR_PARENT_NOT_EXIST; ERR_WRONG_PATH;
   ERR_VERIFY_FILE; ERR_CKPT_FAIL;
   ERR_WRONG_BLOCK_TYPE; ERR_WRONG_FILE_TYPE; ERR_WRONG_FILE_NUM;
   ERR_SIT_MISMATCH; ERR_PHY_ADDR_MISMATCH; ERR_INVALID_INDEX;
   ERR_INVALID_CHECKPOINT; ERR_JOURNAL_OVERFLOW;
   ERR_DEAD_NID; ERR_LOST_NID; ERR_DOUBLED_NID; ERR_INVALID_NID;
   ERR_DEAD_BLK; ERR_LOST_BLK; ERR_DOUBLED_BLK; ERR_INVALID_BLK;
   ERR_UNKNOWN; ERR_ERROR_NR].
Fixpoint code_index (c : ERROR_CODE) (l : list ERROR_CODE) : Z :=
  match l with [] => 0 | x :: l' => if bool_decide (x = c) then 0 else 1 + code_index c l' end.
Definition code_num (c : ERROR_CODE) : Z := code_index c ERROR_CODES.
Definition code_of_num (n : Z) : option ERROR_CODE := aget ERROR_CODES n.

Lemma code_num_inv c : code_of_num (code_num c) = Some c.
Proof. by destruct c. Qed.

(** [dynamic_cast<CFsException*>(&err)]: the code that the exception carries, or
    [ERR_UNKNOWN] when it is a plain one. *)
Definition code_of_exn (e : exn) : ERROR_CODE :=
  match e with FsError c => c | JcError _ | OUT_OF_RANGE => ERR_UNKNOWN end.

(** [CJCException::GetErrorCode] belongs to the jcvos library; for an exception
    that carries a code the program relies on getting that code. *)
Class Exceptions := { GetErrorCode : exn -> Z }.
Class ExceptionsLaws `{Exceptions} := {
  GetErrorCode_fs c : GetErrorCode (FsError c) = code_num c
}.
