(* ===== verification/StateMgr.v ===== *)
(** StateMgr: the states of the search, their pool and the set of codes already
    met, test_state.cpp and extester.h.

    A [CFsState*] is an index into [ss_states].  The critical section of the
    pool is compiled out.  The texts of error messages are left out. *)
From S2P Require Export Interface.

(** [TRACE_ENTRY]: one member of the union is [rollback], the other is [offset]
    and [length]; [rollback] and [offset] are the same cell. *)
Record TRACE_ENTRY := mkTrace {
  op_code : OP_CODE; te_path : cstring; te_dst : cstring; te_fid : Z; op_sn : Z;
  te_offset : Z; te_length : Z
}.
Definition te_rollback (t : TRACE_ENTRY) : Z := te_offset t.

Record CFsState := mkState {
  st_ref_fs : CReferenceFs; st_real_fs : option Z; st_op : TRACE_ENTRY;
  st_parent : option Z; st_depth : Z; st_stable : bool; st_result : ERROR_CODE;
  st_unsafe_mount_cnt : Z; st_ref : Z
}.

Definition set_st_ref_fs (v : CReferenceFs) (x : CFsState) : CFsState :=
  mkState v (st_real_fs x) (st_op x) (st_parent x) (st_depth x) (st_stable x) (st_result x)
    (st_unsafe_mount_cnt x) (st_ref x).
Definition set_st_real_fs (v : option Z) (x : CFsState) : CFsState :=
  mkState (st_ref_fs x) v (st_op x) (st_parent x) (st_depth x) (st_stable x) (st_result x)
    (st_unsafe_mount_cnt x) (st_ref x).
Definition set_st_op (v : TRACE_ENTRY) (x : CFsState) : CFsState :=
  mkState (st_ref_fs x) (st_real_fs x) v (st_parent x) (st_depth x) (st_stable x) (st_result x)
    (st_unsafe_mount_cnt x) (st_ref x).
Definition set_st_parent (v : option Z) (x : CFsState) : CFsState :=
  mkState (st_ref_fs x) (st_real_fs x) (st_op x) v (st_depth x) (st_stable x) (st_result x)
    (st_unsafe_mount_cnt x) (st_ref x).
Definition set_st_depth (v : Z) (x : CFsState) : CFsState :=
  mkState (st_ref_fs x) (st_real_fs x) (st_op x) (st_parent x) v (st_stable x) (st_result x)
    (st_unsafe_mount_cnt x) (st_ref x).
Definition set_st_stable (v : bool) (x : CFsState) : CFsState :=
  mkState (st_ref_fs x) (st_real_fs x) (st_op x) (st_parent x) (st_depth x) v (st_result x)
    (st_unsafe_mount_cnt x) (st_ref x).
Definition set_st_result (v : ERROR_CODE) (x : CFsState) : CFsState :=
  mkState (st_ref_fs x) (st_real_fs x) (st_op x) (st_parent x) (st_depth x) (st_stable x) v
    (st_unsafe_mount_cnt x) (st_ref x).
Definition set_st_unsafe (v : Z) (x : CFsState) : CFsState :=
  mkState (st_ref_fs x) (st_real_fs x) (st_op x) (st_parent x) (st_depth x) (st_stable x)
    (st_result x) v (st_ref x).
Definition set_st_ref (v : Z) (x : CFsState) : CFsState :=
  mkState (st_ref_fs x) (st_real_fs x) (st_op x) (st_parent x) (st_depth x) (st_stable x)
    (st_result x) (st_unsafe_mount_cnt x) v.

(** [new CFsState] on the memory [mem]: the members that have an initializer.
    The depth and the count of unsafe mounts have none. *)
Definition CFsState_new (mem : CFsState) : CFsState :=
  let r := st_ref_fs mem in
  let o := st_op mem in
  mkState
    (mkRefFs (m_files r) (m_free_list r) (m_used_list r) (m_free_num r) 0 (m_op_code r) 0 0 0 0)
    None (mkTrace OP_NOP (te_path o) (te_dst o) (te_fid o) (op_sn o) (te_offset o) (te_length o))
    None (st_depth mem) false ERR_OK (st_unsafe_mount_cnt mem) 1.

(** * The pool of states *)
Record CStateManager (W : Type) := mkStates {
  ss_states : list CFsState; ss_free_list : option Z; ss_free_nr : Z; ss_allocated : Z;
  m_duplicate_real_fs : bool; ss_world : W
}.
Arguments mkStates {W}. Arguments ss_states {W}. Arguments ss_free_list {W}.
Arguments ss_free_nr {W}. Arguments ss_allocated {W}. Arguments m_duplicate_real_fs {W}.
Arguments ss_world {W}.

Section States.
Context {W : Type} `{FS : IFsSimulator W} (mem : CFsState).
Abbreviation SM := (CStateManager W).

Definition set_states (l : list CFsState) (s : SM) : SM :=
  mkStates l (ss_free_list s) (ss_free_nr s) (ss_allocated s) (m_duplicate_real_fs s) (ss_world s).
Definition set_free (p : option Z) (n : Z) (s : SM) : SM :=
  mkStates (ss_states s) p n (ss_allocated s) (m_duplicate_real_fs s) (ss_world s).
Definition set_allocated (n : Z) (s : SM) : SM :=
  mkStates (ss_states s) (ss_free_list s) (ss_free_nr s) n (m_duplicate_real_fs s) (ss_world s).
Definition set_world (w : W) (s : SM) : SM :=
  mkStates (ss_states s) (ss_free_list s) (ss_free_nr s) (ss_allocated s) (m_duplicate_real_fs s) w.
Definition on_world {A} : M W A -> M SM A := zoom ss_world set_world.

Definition state_at (i : Z) : M SM CFsState := s <- get ;; opt (aget (ss_states s) i).
Definition state_upd (i : Z) (f : CFsState -> CFsState) : M SM unit :=
  s <- get ;; x <- opt (aget (ss_states s) i) ;; l <- opt (aset (ss_states s) i (f x)) ;;
  put (set_states l s).

(** The constructor of the pool and [Initialize]. *)
Definition states_new (dup : bool) (w : W) : SM := mkStates [] None 0 0 dup w.

(** [CFsState::add_ref] *)
Definition state_add_ref (i : Z) : M SM unit := state_upd i (fun x => set_st_ref (w32 (st_ref x + 1)) x).

(** [CStateManager::get].  What a recycled state held before stays in it. *)
Definition states_get : M SM Z :=
  s <- get ;;
  new_state <- (if 0 <? ss_free_nr s
    then i <- opt (ss_free_list s) ;;
         x <- state_at i ;;
         modify (set_free (st_parent x) (ss_free_nr s - 1)) ;;;
         state_upd i (set_st_parent None) ;;;
         ret i
    else modify (set_states (ss_states s ++ [CFsState_new mem])) ;;;
         modify (set_allocated (ss_allocated s + 1)) ;;;
         ret (Z.of_nat (length (ss_states s)))) ;;
  state_upd new_state (fun x => set_st_ref 1 (set_st_stable false x)) ;;;
  ret new_state.

(** [CStateManager::put]: the state and those of its ancestors that nothing
    refers to any more go back to the pool; each turn recycles one. *)
Definition put_turn (state : option Z) : M SM (flow (option Z)) :=
  match state with
  | None => ret (Break None)
  | Some i =>
      state_upd i (fun x => set_st_ref (w32 (st_ref x - 1)) x) ;;;
      x <- state_at i ;;
      if negb (st_ref x =? 0) then ret (Break (Some i)) else
      s <- get ;;
      match m_duplicate_real_fs s, st_real_fs x with
      | false, Some h => on_world (fs_release h) ;;; state_upd i (set_st_real_fs None)
      | _, _ => ret tt
      end ;;;
      let pp := st_parent x in
      state_upd i (set_st_parent (ss_free_list s)) ;;;
      modify (fun s => set_free (Some i) (ss_free_nr s + 1) s) ;;;
      ret (Next pp)
  end.
Definition states_put (state : option Z) : M SM unit :=
  s <- get ;;
  mwhile (Datatypes.S (length (ss_states s))) state put_turn ;;; ret tt.

(** [CFsState::Initialize]; an error in the reference file system is one here. *)
Definition state_Initialize (i : Z) (fs : option Z) : M SM unit :=
  x <- state_at i ;;
  match ref_Initialize (st_ref_fs x) with
  | (Ret _, r) => state_upd i (set_st_ref_fs r)
  | (Throw e, r) => state_upd i (set_st_ref_fs r) ;;; throw e
  | (Fault, _) => fault
  end ;;;
  state_upd i (set_st_real_fs fs).

(** [CFsState::DuplicateFrom] *)
Definition DuplicateFrom (i src : Z) : M SM unit :=
  y <- state_at src ;;
  state_upd i (set_st_ref_fs (st_ref_fs y)) ;;;
  x <- state_at i ;;
  h <- opt (st_real_fs y) ;;
  match st_real_fs x with
  | None => n <- on_world (fs_Clone h) ;; state_upd i (set_st_real_fs (Some n))
  | Some n => on_world (fs_CopyFrom n h)
  end ;;;
  state_upd i (set_st_depth (w32 (st_depth y + 1))) ;;;
  state_upd i (set_st_parent (Some src)) ;;;
  state_upd i (set_st_result ERR_OK) ;;;
  state_add_ref src.

(** [CFsState::DuplicateWithoutFs]: both states use one file system. *)
Definition DuplicateWithoutFs (i src : Z) : M SM unit :=
  y <- state_at src ;;
  state_upd i (set_st_ref_fs (st_ref_fs y)) ;;;
  x <- state_at i ;;
  check (bool_decide (st_real_fs x = None)) ;;;
  state_upd i (set_st_real_fs (st_real_fs y)) ;;;
  state_add_ref src ;;;
  h <- opt (st_real_fs y) ;;
  on_world (fs_add_ref h) ;;;
  state_upd i (set_st_depth (w32 (st_depth y + 1))) ;;;
  state_upd i (set_st_parent (Some src)).

(** [CStateManager::duplicate] *)
Definition states_duplicate (state : Z) : M SM Z :=
  new_state <- states_get ;;
  s <- get ;;
  (if m_duplicate_real_fs s then DuplicateFrom new_state state
   else DuplicateWithoutFs new_state state) ;;;
  ret new_state.
End States.

(** * The codes already met

    [ENCODE] is an array of [MAX_ENCODE_SIZE] characters on the stack, which
    [Encode] fills up to the terminating zero; it is compared as a whole.
    [stack] is what the memory held before. *)
Definition ENCODE : Type := list Z.
Definition CStateHeap : Type := gmap ENCODE Z.

Definition ENCODE_of (opcode_len : Z) (stack : list Z) (r : CReferenceFs) : option ENCODE :=
  code ← Encode MAX_ENCODE_SIZE opcode_len r; Some (overwrite (code ++ [0]) stack).

(** [CheckAndInsert]: whether a state with this code and no greater depth was
    met before; if not, it is entered. *)
Definition CheckAndInsert_code (encode : ENCODE) (depth : Z) (h : CStateHeap) : bool * CStateHeap :=
  match h !! encode with
  | Some d => if d <=? depth then (true, h) else (false, <[encode := depth]> h)
  | None => (false, <[encode := depth]> h)
  end.
Definition CheckAndInsert (opcode_len : Z) (stack : list Z) (x : CFsState) : M CStateHeap bool :=
  encode <- opt (ENCODE_of opcode_len stack (st_ref_fs x)) ;;
  h <- get ;;
  let '(found, h') := CheckAndInsert_code encode (st_depth x) h in
  put h' ;;; ret found.
