(* ===== verification/StateMgrInv.v ===== *)
(** StateMgrInv: the pool of states counts references exactly.  A state is live
    when something outside (the open list, a local variable) or a live child
    refers to it; every other state is on the free list, ready for reuse. *)
From S2P Require Export StateMgr.

(** * The invariant *)

(** The reference a state holds on its parent. *)
Definition parent_of (sts : list CFsState) (i : Z) : list Z :=
  match aget sts i with Some x => option_list (st_parent x) | None => [] end.
Definition held_refs (sts : list CFsState) (R L : list Z) : list Z := R ++ (L ≫= parent_of sts).

Fixpoint free_list_at (sts : list CFsState) (p : option Z) (fl : list Z) : Prop :=
  match fl with
  | [] => p = None
  | i :: fl' => p = Some i /\ exists x, aget sts i = Some x /\ free_list_at sts (st_parent x) fl'
  end.
(** A parent comes after its children. *)
Fixpoint parents_later (sts : list CFsState) (L : list Z) : Prop :=
  match L with
  | [] => True
  | i :: L' => (forall p, p ∈ parent_of sts i -> p ∈ L') /\ parents_later sts L'
  end.

(** [R]: the references from outside; [L]: the live states; [fl]: the free list. *)
Record pool_ok {W} (s : CStateManager W) (R L fl : list Z) : Prop := {
  po_nodup : NoDup (L ++ fl);
  po_all i : i ∈ L ++ fl <-> 0 <= i < Z.of_nat (length (ss_states s));
  po_live i : i ∈ L -> exists x, aget (ss_states s) i = Some x /\
                st_ref x = cnt i (held_refs (ss_states s) R L) /\ 0 < st_ref x;
  po_roots i : i ∈ R -> i ∈ L;
  po_order : parents_later (ss_states s) L;
  po_free : free_list_at (ss_states s) (ss_free_list s) fl;
  po_nr : ss_free_nr s = Z.of_nat (length fl);
  po_alloc : ss_allocated s = Z.of_nat (length (ss_states s))
}.
(** Counts are 32-bit numbers. *)
Definition pool_room {W} (s : CStateManager W) (R : list Z) : Prop :=
  Z.of_nat (length R) + Z.of_nat (length (ss_states s)) < 2 ^ 32 - 1.

(** What a state is, but for its references. *)
Definition same_content (x y : CFsState) : Prop :=
  st_ref_fs y = st_ref_fs x /\ st_real_fs y = st_real_fs x /\ st_op y = st_op x /\
  st_parent y = st_parent x /\ st_depth y = st_depth x /\ st_stable y = st_stable x /\
  st_result y = st_result x /\ st_unsafe_mount_cnt y = st_unsafe_mount_cnt x.
Definition states_kept (L : list Z) (sts sts' : list CFsState) : Prop :=
  forall i, i ∈ L -> exists x y, aget sts i = Some x /\ aget sts' i = Some y /\ same_content x y.

Lemma same_content_refl x : same_content x x.
Proof. by unfold same_content. Qed.
Lemma same_content_trans x y z : same_content x y -> same_content y z -> same_content x z.
Proof. unfold same_content. intuition congruence. Qed.
Lemma states_kept_trans L L' a b c : L' ⊆ L -> states_kept L a b -> states_kept L' b c -> states_kept L' a c.
Proof.
  intros Hs H1 H2 i Hi. destruct (H1 i (Hs _ Hi)) as (x & y & Hx & Hy & Hc).
  destruct (H2 i Hi) as (y' & z & Hy' & Hz & Hc'). simplify_eq.
  exists x, z. split_and!; [done|done|by eapply same_content_trans].
Qed.

(** ** Changing one state *)
Section OneState.
Implicit Types (sts : list CFsState) (R L fl : list Z).
Abbreviation upd sts i y := (<[Z.to_nat i := y]> sts).

Lemma aget_upd sts i j y x : aget sts i = Some x -> aget (upd sts i y) j = if decide (j = i) then Some y else aget sts j.
Proof.
  intros Hx. pose proof (aget_bounds _ _ _ Hx). destruct (decide (j = i)) as [->|Hne].
  - by apply aget_insert_eq.
  - by apply aget_insert_ne; [|lia].
Qed.

Lemma parent_of_upd sts i y x j : aget sts i = Some x ->
  parent_of (upd sts i y) j = if decide (j = i) then option_list (st_parent y) else parent_of sts j.
Proof. intros Hx. unfold parent_of. rewrite (aget_upd _ _ _ _ _ Hx). by destruct (decide (j = i)). Qed.

Lemma parents_upd_out sts i y x L : aget sts i = Some x -> i ∉ L -> L ≫= parent_of (upd sts i y) = L ≫= parent_of sts.
Proof.
  intros Hx. induction L as [|j L IH]; [done|]. intros Hi. cbn.
  rewrite IH by set_solver. by rewrite (parent_of_upd _ _ _ _ _ Hx), decide_False by set_solver.
Qed.
Lemma parents_upd_same sts i y x L : aget sts i = Some x -> st_parent y = st_parent x ->
  L ≫= parent_of (upd sts i y) = L ≫= parent_of sts.
Proof.
  intros Hx Hp. apply list_bind_ext; [|done]. intros j. rewrite (parent_of_upd _ _ _ _ _ Hx).
  destruct (decide (j = i)) as [->|]; [|done]. unfold parent_of. by rewrite Hx, Hp.
Qed.

Lemma free_upd_out sts i y x p fl : aget sts i = Some x -> i ∉ fl -> free_list_at sts p fl -> free_list_at (upd sts i y) p fl.
Proof.
  intros Hx. revert p. induction fl as [|j fl IH]; intros p Hi; cbn; [done|].
  intros [-> (z & Hz & Hf)]. split; [done|]. exists z. rewrite (aget_upd _ _ _ _ _ Hx), decide_False by set_solver.
  split; [done|]. apply IH; [set_solver|done].
Qed.

Lemma order_upd_out sts i y x L : aget sts i = Some x -> i ∉ L -> parents_later sts L -> parents_later (upd sts i y) L.
Proof.
  intros Hx. induction L as [|j L IH]; [done|]. intros Hi [Hp Ho]. split.
  - rewrite (parent_of_upd _ _ _ _ _ Hx), decide_False by set_solver. done.
  - apply IH; [set_solver|done].
Qed.
Lemma order_upd_same sts i y x L : aget sts i = Some x -> st_parent y = st_parent x ->
  parents_later sts L -> parents_later (upd sts i y) L.
Proof.
  intros Hx Hp. induction L as [|j L IH]; [done|]. intros [Hj Ho]. split; [|by apply IH].
  intros p. rewrite (parent_of_upd _ _ _ _ _ Hx). destruct (decide (j = i)) as [->|]; [|apply Hj].
  intros H. apply Hj. unfold parent_of. by rewrite Hx, <- Hp.
Qed.

(** The parents of live states are live. *)
Lemma order_closed sts L p : parents_later sts L -> p ∈ L ≫= parent_of sts -> p ∈ L.
Proof.
  induction L as [|j L IH]; [set_solver|]. intros [Hj Ho]. cbn. rewrite elem_of_app.
  intros [H|H]; [apply Hj in H|apply IH in H; [|done]]; set_solver.
Qed.

(** Dropping a live state that no live state refers to. *)
Lemma order_drop sts L1 i L2 : parents_later sts (L1 ++ i :: L2) -> i ∉ L1 ≫= parent_of sts ->
  parents_later sts (L1 ++ L2).
Proof.
  induction L1 as [|j L1 IH]; cbn; [by intros [_ ?]|]. intros [Hj Ho] Hi. split.
  - intros p Hp. assert (p <> i) by (intros ->; set_solver). specialize (Hj p Hp). set_solver.
  - apply IH; [done|]. set_solver.
Qed.
End OneState.

Section Pool.
Context {W : Type} `{FS : IFsSimulator W} (mem : CFsState).
Abbreviation SM := (CStateManager W).
Implicit Types (s t : SM) (R L fl : list Z).

Lemma pool_ok_perm s R R' L fl : R ≡ₚ R' -> pool_ok s R L fl -> pool_ok s R' L fl.
Proof.
  intros HR [Hnd Hall Hl Hr Ho Hf Hn Ha]. constructor; try done.
  - intros i Hi. destruct (Hl i Hi) as (x & ? & Hc & ?). exists x. split_and!; [done| |done].
    rewrite Hc. apply cnt_perm. unfold held_refs. by rewrite HR.
  - intros i. rewrite <- HR. apply Hr.
Qed.

Lemma pool_count_le s R L fl i : pool_ok s R L fl -> cnt i (held_refs (ss_states s) R L) <= Z.of_nat (length R) + Z.of_nat (length (ss_states s)).
Proof.
  intros [Hnd Hall Hl Hr Ho Hf Hn Ha]. etrans; [apply cnt_le|]. unfold held_refs. rewrite length_app.
  assert (length (L ≫= parent_of (ss_states s)) <= length L)%nat as Hle.
  { clear. induction L as [|j L IH]; cbn; [lia|]. rewrite length_app. unfold parent_of at 1.
    destruct (aget _ j) as [x|]; [destruct (st_parent x)|]; cbn in *; lia. }
  assert (Z.of_nat (length L) <= Z.max 0 (Z.of_nat (length (ss_states s)))); [|lia].
  apply NoDup_bounded; [by apply NoDup_app in Hnd as [? _]|]. intros x Hx. apply Hall. set_solver.
Qed.

Lemma pool_live_at s R L fl i : pool_ok s R L fl -> i ∈ L ->
  exists x, aget (ss_states s) i = Some x /\ st_ref x = cnt i (held_refs (ss_states s) R L) /\
    0 < st_ref x <= Z.of_nat (length R) + Z.of_nat (length (ss_states s)).
Proof.
  intros H Hi. destruct (po_live _ _ _ _ H i Hi) as (x & Hx & Hc & Hp). exists x.
  split_and!; [done|done|done|]. rewrite Hc. by eapply pool_count_le.
Qed.

(** Updating a live state outside its references. *)
Lemma pool_upd s R L fl i x y : pool_ok s R L fl -> aget (ss_states s) i = Some x -> i ∈ L ->
  st_parent y = st_parent x -> st_ref y = st_ref x ->
  pool_ok (set_states (<[Z.to_nat i := y]> (ss_states s)) s) R L fl.
Proof.
  intros [Hnd Hall Hl Hr Ho Hf Hn Ha] Hx Hi Hp Href. constructor; cbn; try done.
  - by rewrite length_insert.
  - intros j Hj. destruct (Hl j Hj) as (z & Hz & Hc & Hpos). unfold held_refs.
    rewrite (parents_upd_same _ _ _ _ _ Hx Hp), (aget_upd _ _ _ _ _ Hx).
    destruct (decide (j = i)) as [->|]; [|by exists z]. simplify_eq. exists y. rewrite Href. done.
  - by eapply order_upd_same.
  - eapply free_upd_out; [done| |done]. apply NoDup_app in Hnd. set_solver.
  - by rewrite length_insert.
Qed.

(** ** Taking and giving references *)

(** Changing the count of a live state together with the references to it. *)
Lemma pool_set_ref s R R' L fl i x r : pool_ok s R L fl -> aget (ss_states s) i = Some x -> i ∈ L ->
  (forall j, j ∈ R' -> j ∈ L) -> (forall j, j <> i -> cnt j R' = cnt j R) ->
  r = st_ref x + cnt i R' - cnt i R -> 0 < r ->
  pool_ok (set_states (<[Z.to_nat i := set_st_ref r x]> (ss_states s)) s) R' L fl.
Proof.
  intros [Hnd Hall Hl Hr Ho Hf Hn Ha] Hx Hi HR Hc Hr' Hpos. constructor; cbn; try done.
  - by rewrite length_insert.
  - intros j Hj. destruct (Hl j Hj) as (z & Hz & Hcz & Hpz). unfold held_refs in *.
    rewrite (parents_upd_same _ _ _ _ _ Hx) by done. rewrite (aget_upd _ _ _ _ _ Hx), cnt_app.
    rewrite cnt_app in Hcz. destruct (decide (j = i)) as [->|Hne].
    + simplify_eq. eexists. split; [done|]. cbn. lia.
    + exists z. rewrite Hc by done. done.
  - by eapply order_upd_same.
  - eapply free_upd_out; [done| |done]. apply NoDup_app in Hnd. set_solver.
  - by rewrite length_insert.
Qed.

Lemma state_upd_runs s i x f : aget (ss_states s) i = Some x ->
  runs (state_upd i f) s tt (set_states (<[Z.to_nat i := f x]> (ss_states s)) s).
Proof.
  intros Hx. pose proof (aget_bounds _ _ _ Hx). unfold runs, state_upd, bind, get, opt, put.
  rewrite Hx. cbn. by rewrite aset_is_Some.
Qed.
Lemma state_at_runs s i x : aget (ss_states s) i = Some x -> runs (state_at i) s x s.
Proof. intros Hx. unfold runs, state_at, bind, get, opt. by rewrite Hx. Qed.

Lemma kept_upd s L fl R i x y : pool_ok s R L fl -> aget (ss_states s) i = Some x -> same_content x y ->
  states_kept L (ss_states s) (<[Z.to_nat i := y]> (ss_states s)).
Proof.
  intros H Hx Hc j Hj. destruct (po_live _ _ _ _ H j Hj) as (z & Hz & _).
  rewrite (aget_upd _ _ _ _ _ Hx). destruct (decide (j = i)) as [->|].
  - simplify_eq. by eexists _, y.
  - exists z, z. split_and!; [done|done|apply same_content_refl].
Qed.

(** [add_ref] *)
Lemma state_add_ref_spec s R L fl i : pool_ok s R L fl -> pool_room s R -> i ∈ L ->
  exists t, runs (state_add_ref i) s tt t /\ pool_ok t (i :: R) L fl /\
    states_kept L (ss_states s) (ss_states t) /\ set_states (ss_states s) t = s.
Proof.
  intros H Hroom Hi. destruct (pool_live_at _ _ _ _ _ H Hi) as (x & Hx & Hc & Hpos).
  eexists. split; [by apply state_upd_runs|]. split_and!.
  - assert (w32 (st_ref x + 1) = st_ref x + 1) as -> by (unfold w32, pool_room in *; rewrite Z.mod_small; lia).
    eapply pool_set_ref; try done.
    + intros j [->|Hj]%elem_of_cons; [done|by apply (po_roots _ _ _ _ H)].
    + intros j Hne. rewrite cnt_cons, decide_False by done. lia.
    + rewrite cnt_cons, decide_True by done. lia.
    + lia.
  - cbn. eapply kept_upd; [done|done|by repeat split].
  - by destruct s.
Qed.

(** ** Giving a state back *)

(** The state [i] on top of the free list. *)
Definition recycled (i : Z) (y : CFsState) (s : SM) : SM :=
  mkStates (<[Z.to_nat i := y]> (ss_states s)) (Some i) (ss_free_nr s + 1) (ss_allocated s)
    (m_duplicate_real_fs s) (ss_world s).

Lemma pool_recycle s R L fl i x y : pool_ok s (i :: R) L fl -> aget (ss_states s) i = Some x -> st_ref x = 1 ->
  st_parent y = ss_free_list s ->
  exists L', L ≡ₚ i :: L' /\ pool_ok (recycled i y s) (option_list (st_parent x) ++ R) L' (i :: fl).
Proof.
  intros H Hx Hr Hy. pose proof (po_roots _ _ _ _ H i ltac:(set_solver)) as Hi.
  destruct (list_elem_of_split _ _ Hi) as (L1 & L2 & ->). exists (L1 ++ L2). split; [by rewrite Permutation_middle|].
  destruct H as [Hnd Hall Hl Hrt Ho Hf Hn Ha]. set (sts := ss_states s) in *.
  assert (held_refs sts (i :: R) (L1 ++ i :: L2) ≡ₚ i :: held_refs sts (option_list (st_parent x) ++ R) (L1 ++ L2)) as Hp.
  { unfold held_refs. rewrite !bind_app. cbn. unfold parent_of at 2. rewrite Hx. solve_Permutation. }
  assert (i ∉ held_refs sts (option_list (st_parent x) ++ R) (L1 ++ L2)) as Hnot.
  { apply cnt_zero. destruct (Hl i Hi) as (x' & Hx' & Hc & _). simplify_eq.
    rewrite (cnt_perm _ _ _ Hp), cnt_cons, decide_True in Hc by done. lia. }
  assert (i ∉ L1 ++ L2) as HiL.
  { apply NoDup_app in Hnd as (Hnd & _). rewrite <- Permutation_middle in Hnd. by apply NoDup_cons in Hnd as [? _]. }
  assert (i ∉ fl) as Hifl by (apply NoDup_app in Hnd; set_solver).
  assert (held_refs (<[Z.to_nat i:=y]> sts) (option_list (st_parent x) ++ R) (L1 ++ L2) =
          held_refs sts (option_list (st_parent x) ++ R) (L1 ++ L2)) as Hsame.
  { unfold held_refs. by rewrite (parents_upd_out _ _ _ _ _ Hx). }
  assert ((L1 ++ L2) ++ i :: fl ≡ₚ (L1 ++ i :: L2) ++ fl) as E by solve_Permutation.
  constructor; cbn.
  - by rewrite E.
  - intros j. rewrite length_insert, E. apply Hall.
  - intros j Hj. assert (j <> i) by set_solver. rewrite (aget_upd _ _ _ _ _ Hx), decide_False by done.
    destruct (Hl j ltac:(set_solver)) as (z & Hz & Hc & Hpos). exists z. split_and!; [done| |done].
    fold sts. rewrite Hsame, Hc, (cnt_perm _ _ _ Hp), cnt_cons, decide_False by done. lia.
  - intros j Hj. assert (j ∈ held_refs sts (option_list (st_parent x) ++ R) (L1 ++ L2)) as Hj' by (unfold held_refs; set_solver).
    assert (j <> i) by (intros ->; done). assert (j ∈ L1 ++ i :: L2); [|set_solver].
    apply elem_of_app in Hj as [Hj|Hj]; [|apply Hrt; set_solver].
    eapply order_closed; [exact Ho|]. rewrite bind_app. cbn. unfold parent_of at 2. rewrite Hx. set_solver.
  - eapply order_upd_out; [done|done|]. eapply order_drop; [done|]. unfold held_refs in Hnot.
    rewrite bind_app in Hnot. set_solver.
  - split; [done|]. exists y. rewrite (aget_upd _ _ _ _ _ Hx), decide_True by done. split; [done|].
    rewrite Hy. by eapply free_upd_out.
  - lia.
  - by rewrite length_insert.
Qed.

Lemma pool_live_le s R L fl : pool_ok s R L fl -> (length L <= length (ss_states s))%nat.
Proof.
  intros [Hnd Hall _ _ _ _ _ _].
  assert (Z.of_nat (length L) <= Z.max 0 (Z.of_nat (length (ss_states s)))); [|lia].
  apply NoDup_bounded; [by apply NoDup_app in Hnd as [? _]|]. intros x Hx. apply Hall. set_solver.
Qed.

(** The loop needs one turn for each state it recycles and one to stop. *)
Lemma put_loop_states fuel s p R L fl : pool_ok s (option_list p ++ R) L fl -> pool_room s (option_list p ++ R) ->
  m_duplicate_real_fs s = true -> (length L < fuel)%nat ->
  exists r t L' fl', runs (mwhile fuel p put_turn) s r t /\ pool_ok t R L' fl' /\ L' ⊆ L /\
    states_kept L' (ss_states s) (ss_states t) /\ length (ss_states t) = length (ss_states s) /\
    m_duplicate_real_fs t = true /\ ss_world t = ss_world s.
Proof.
  revert s p L fl. induction fuel as [|fuel IH]; intros s p L fl H Hroom Hd Hf; [lia|]. cbn [mwhile].
  destruct p as [i|]; cbn [option_list option_rect app] in *.
  2:{ exists None, s, L, fl. split_and!; try done. intros j Hj.
      destruct (po_live _ _ _ _ H j Hj) as (x & ? & _). by exists x, x. }
  pose proof (po_roots _ _ _ _ H i ltac:(set_solver)) as Hi.
  destruct (pool_live_at _ _ _ _ _ H Hi) as (x & Hx & Hc & Hpos).
  assert (w32 (st_ref x - 1) = st_ref x - 1) as Hw by (unfold w32, pool_room in *; rewrite Z.mod_small; lia).
  set (s1 := set_states (<[Z.to_nat i := set_st_ref (st_ref x - 1) x]> (ss_states s)) s).
  assert (aget (ss_states s1) i = Some (set_st_ref (st_ref x - 1) x)) as Hx1.
  { cbn. by rewrite (aget_upd _ _ _ _ _ Hx), decide_True. }
  destruct (decide (st_ref x = 1)) as [Hr|Hr].
  - set (y := set_st_parent (ss_free_list s) (set_st_ref (st_ref x - 1) x)).
    destruct (pool_recycle s R L fl i x y H Hx Hr eq_refl) as (L1 & HL & H1).
    destruct (IH (recycled i y s) (st_parent x) L1 (i :: fl)) as (r & t & L2 & fl2 & Hrun & Ht & Hs2 & Hk & Hlen & Hdt & Hw2); try done.
    { unfold pool_room in *. cbn [ss_states recycled]. rewrite length_insert, length_app. cbn [length] in Hroom.
      destruct (st_parent x); cbn [option_list option_rect length] in *; lia. }
    { rewrite HL in Hf. cbn in Hf. lia. }
    exists r, t, L2, fl2. split_and!; try done.
    + eapply (runs_bind _ _ _ (Next (st_parent x)) (recycled i y s)); [|exact Hrun]. unfold put_turn.
      eapply runs_bind; [by apply state_upd_runs|]. cbv beta. rewrite Hw. fold s1.
      eapply runs_bind; [by apply state_at_runs|]. cbn [st_ref set_st_ref].
      rewrite (proj2 (Z.eqb_eq _ _)) by lia. cbn [negb].
      eapply (runs_bind _ _ _ s1 s1); [done|]. cbn [m_duplicate_real_fs s1 set_states]. rewrite Hd.
      eapply (runs_bind _ _ _ tt s1); [done|].
      eapply runs_bind; [by apply state_upd_runs|].
      unfold runs, bind, modify, ret, recycled, set_free, set_states. cbn. by rewrite list_insert_insert_eq.
    + rewrite HL. set_solver.
    + eapply states_kept_trans; [done| |exact Hk]. intros j Hj. cbn.
      assert (j ≠ i).
      { intros ->. apply (NoDup_cons_1_1 i L1); [|done]. rewrite <- HL.
        pose proof (po_nodup _ _ _ _ H) as Hnd. by apply NoDup_app in Hnd as [? _]. }
      destruct (po_live _ _ _ _ H j) as (z & Hz & _); [rewrite HL; set_solver|].
      exists z, z. rewrite (aget_upd _ _ _ _ _ Hx), decide_False by done. split_and!; [done|done|apply same_content_refl].
    + rewrite Hlen. cbn. by rewrite length_insert.
  - exists (Some i), s1, L, fl. split_and!; try done.
    + eapply (runs_bind _ _ _ (Break (Some i)) s1); [|done]. unfold put_turn.
      eapply runs_bind; [by apply state_upd_runs|]. cbv beta. rewrite Hw. fold s1.
      eapply runs_bind; [by apply state_at_runs|]. cbn [st_ref set_st_ref].
      by rewrite (proj2 (Z.eqb_neq _ _)) by lia.
    + eapply pool_set_ref; try done.
      * intros j Hj. apply (po_roots _ _ _ _ H). set_solver.
      * intros j Hne. rewrite cnt_cons, decide_False by done. lia.
      * rewrite cnt_cons, decide_True by done. lia.
      * lia.
    + eapply kept_upd; [done|done|by repeat split].
    + cbn. by rewrite length_insert.
Qed.

(** Reachable from outside. *)
Inductive reach (sts : list CFsState) (R : list Z) : Z -> Prop :=
  | reach_root i : i ∈ R -> reach sts R i
  | reach_parent i p : reach sts R i -> p ∈ parent_of sts i -> reach sts R p.

Lemma live_reach s R L fl i : pool_ok s R L fl -> i ∈ L <-> reach (ss_states s) R i.
Proof.
  intros H. split.
  - intros Hi. destruct (list_elem_of_split _ _ Hi) as (L1 & L2 & HL).
    assert (length L1 <= length L1)%nat as Hn by lia. revert Hn. generalize (length L1) at 2 as n. intros n Hn.
    revert i L1 L2 HL Hi Hn. induction n as [|n IH]; intros i L1 L2 HL Hi Hn;
      destruct (po_live _ _ _ _ H i Hi) as (x & Hx & Hc & Hpos).
    all: rewrite Hc in Hpos; apply cnt_pos in Hpos; unfold held_refs in Hpos; rewrite HL, bind_app in Hpos.
    all: pose proof (po_order _ _ _ _ H) as Ho; rewrite HL in Ho.
    all: assert (i ∉ (i :: L2) ≫= parent_of (ss_states s)) as Hno.
    1,3: intros Hin; assert (parents_later (ss_states s) (i :: L2)) as [Hp1 Hp2] by (clear -Ho; induction L1 as [|j L1 IH]; [done|by apply IH, Ho]);
         assert (i ∈ L2) as Hi2 by (cbn in Hin; rewrite elem_of_app in Hin; destruct Hin as [Hin|Hin]; [by apply Hp1|by eapply order_closed]);
         pose proof (po_nodup _ _ _ _ H) as Hnd; rewrite HL in Hnd; apply NoDup_app in Hnd as [Hnd _];
         rewrite <- Permutation_middle in Hnd; apply NoDup_cons in Hnd as [Hnd _]; set_solver.
    + destruct L1; [|cbn in Hn; lia]. apply reach_root. set_solver.
    + rewrite !elem_of_app in Hpos. destruct Hpos as [Hr|[Hin|Hin]]; [by apply reach_root| |done].
      apply list_elem_of_bind in Hin as (k & Hin & Hk). apply (reach_parent _ _ k); [|done].
      destruct (list_elem_of_split _ _ Hk) as (La & Lb & ->).
      apply (IH k La (Lb ++ i :: L2)); [by rewrite HL, <- app_assoc|rewrite HL; set_solver|].
      rewrite length_app in Hn. cbn in Hn. lia.
  - induction 1 as [j Hj|j p Hj IH Hp]; [by apply (po_roots _ _ _ _ H)|].
    eapply order_closed; [apply (po_order _ _ _ _ H)|]. apply list_elem_of_bind. by exists j.
Qed.

Lemma states_put_spec s i R L fl : pool_ok s (i :: R) L fl -> pool_room s (i :: R) -> m_duplicate_real_fs s = true ->
  exists t L' fl', runs (states_put (Some i)) s tt t /\ pool_ok t R L' fl' /\ L' ⊆ L /\
    states_kept L' (ss_states s) (ss_states t) /\ length (ss_states t) = length (ss_states s) /\
    m_duplicate_real_fs t = true /\ ss_world t = ss_world s.
Proof.
  intros H Hroom Hd.
  destruct (put_loop_states (S (length (ss_states s))) s (Some i) R L fl H Hroom Hd) as (r & t & L' & fl' & Hr & Ht & ?).
  { pose proof (pool_live_le _ _ _ _ H). lia. }
  exists t, L', fl'. split; [|done]. unfold states_put. eapply (runs_bind _ _ _ s s); [done|].
  eapply runs_bind; [exact Hr|done].
Qed.

(** ** Taking a state *)
Lemma free_list_elem sts p fl i : free_list_at sts p fl -> i ∈ fl -> exists x, aget sts i = Some x.
Proof.
  revert p. induction fl as [|j fl IH]; intros p; cbn; [set_solver|].
  intros [-> (x & Hx & Hf)] [->|Hi]%elem_of_cons; [by exists x|by eapply IH].
Qed.

(** The new state [i] holding [y], the others as they were. *)
Lemma pool_take s s' R L fl i y : pool_ok s R L fl -> i ∉ L ->
  aget (ss_states s') i = Some y -> (forall j, j ∈ L -> aget (ss_states s') j = aget (ss_states s) j) ->
  st_parent y = None -> st_ref y = 1 ->
  forall fl', NoDup (i :: L ++ fl') -> (forall j, j ∈ i :: L ++ fl' <-> 0 <= j < Z.of_nat (length (ss_states s'))) ->
  free_list_at (ss_states s') (ss_free_list s') fl' -> ss_free_nr s' = Z.of_nat (length fl') ->
  ss_allocated s' = Z.of_nat (length (ss_states s')) ->
  pool_ok s' (i :: R) (i :: L) fl'.
Proof.
  intros H Hi Hy Hsame Hp Hr fl' Hnd Hall Hf Hn Ha. destruct H as [_ _ Hl Hrt Ho _ _ _].
  assert (parent_of (ss_states s') i = []) as Hpi by (unfold parent_of; by rewrite Hy, Hp).
  assert (forall l, l ⊆ L -> l ≫= parent_of (ss_states s') = l ≫= parent_of (ss_states s)) as Hpl.
  { intros l. induction l as [|j l IH]; [done|]. intros Hs. cbn. rewrite IH by set_solver. f_equal.
    unfold parent_of. by rewrite Hsame by set_solver. }
  assert (held_refs (ss_states s') (i :: R) (i :: L) = i :: held_refs (ss_states s) R L) as Hrefs.
  { unfold held_refs. cbn. rewrite Hpi. cbn. by rewrite Hpl. }
  assert (i ∉ held_refs (ss_states s) R L) as Hnot.
  { unfold held_refs. rewrite elem_of_app. intros [Hin|Hin]; [by apply Hi, Hrt|]. eapply Hi, order_closed; done. }
  constructor; try done.
  - intros j. rewrite Hrefs, cnt_cons. intros [->|Hj]%elem_of_cons.
    + exists y. rewrite decide_True by done. split_and!; [done| |lia]. rewrite Hr.
      assert (cnt i (held_refs (ss_states s) R L) = 0); [|lia].
      pose proof (cnt_nonneg i (held_refs (ss_states s) R L)). rewrite cnt_pos in Hnot. lia.
    + rewrite Hsame, decide_False by (done || by intros ->). destruct (Hl j Hj) as (x & ? & ? & ?). by exists x.
  - intros j [->|Hj]%elem_of_cons; [set_solver|]. apply list_elem_of_further. by apply Hrt.
  - cbn. rewrite Hpi. split; [set_solver|]. clear -Ho Hpl Hsame. revert Ho Hpl Hsame.
    induction L as [|j L IH]; [done|]. intros [Hj Ho] Hpl Hsame. split.
    + unfold parent_of. rewrite Hsame by set_solver. exact Hj.
    + apply IH; [done| |]; intros; [apply Hpl|apply Hsame]; set_solver.
Qed.

Lemma states_get_spec s R L fl : pool_ok s R L fl ->
  exists i y t fl', runs (states_get mem) s i t /\ pool_ok t (i :: R) (i :: L) fl' /\ i ∉ L /\
    aget (ss_states t) i = Some y /\ st_parent y = None /\
    (forall j, j ∈ L -> aget (ss_states t) j = aget (ss_states s) j) /\
    (i ∈ fl \/ aget (ss_states s) i = None) /\
    st_real_fs y = aget (ss_states s) i ≫= st_real_fs /\
    m_duplicate_real_fs t = m_duplicate_real_fs s /\ ss_world t = ss_world s /\
    (length (ss_states t) <= S (length (ss_states s)))%nat.
Proof.
  intros H. pose proof H as [Hnd Hall Hl Hrt Ho Hf Hn Ha]. unfold states_get. destruct fl as [|i fl].
  - set (i := Z.of_nat (length (ss_states s))). set (x := CFsState_new mem).
    assert (i ∉ L) as Hi by (intros Hin; assert (i ∈ L ++ []) as Hb by set_solver; apply Hall in Hb; lia).
    set (y := set_st_ref 1 (set_st_stable false x)).
    assert (forall z : CFsState, aget (ss_states s ++ [z]) i = Some z) as Hget.
    { intros z. apply aget_Some. split; [lia|]. unfold i. rewrite Nat2Z.id. by rewrite lookup_app_r, Nat.sub_diag by lia. }
    assert (forall j z, j <> i -> aget (ss_states s ++ [z]) j = aget (ss_states s) j) as Hold.
    { intros j z Hj. unfold aget. destruct (Z.leb_spec 0 j); [|done]. rewrite lookup_app.
      destruct (ss_states s !! Z.to_nat j) eqn:E; [done|]. apply lookup_ge_None_1 in E.
      rewrite list_lookup_singleton. destruct (Z.to_nat j - length (ss_states s))%nat eqn:E2; [|done]. lia. }
    set (t := mkStates (ss_states s ++ [y]) (ss_free_list s) (ss_free_nr s) (ss_allocated s + 1) (m_duplicate_real_fs s) (ss_world s)).
    exists i, y, t, []. split_and!; try done.
    + eapply (runs_bind _ _ _ s s); [done|]. rewrite (proj2 (Z.ltb_ge _ _)) by (rewrite Hn; cbn; lia).
      set (s1 := set_allocated (ss_allocated s + 1) (set_states (ss_states s ++ [x]) s)).
      eapply (runs_bind _ _ _ i s1); [done|]. eapply runs_bind; [apply (state_upd_runs s1 i x); apply Hget|].
      unfold t, s1, runs, ret, set_states. cbn. f_equal. f_equal.
      unfold i. rewrite Nat2Z.id. by rewrite insert_app_r_alt, Nat.sub_diag by lia.
    + apply (pool_take s t R L [] i y H Hi); try done; cbn.
      * apply Hget.
      * intros j Hj. apply Hold. by intros ->.
      * rewrite app_nil_r in *. by apply NoDup_cons.
      * intros j. rewrite elem_of_cons, Hall, length_app. cbn. lia.
      * rewrite length_app. cbn. lia.
    + apply Hget.
    + intros j Hj. apply Hold. by intros ->.
    + right. unfold aget, i. rewrite (proj2 (Z.leb_le _ _)), Nat2Z.id by lia. by apply lookup_ge_None_2.
    + assert (aget (ss_states s) i = None) as ->; [|done].
      unfold aget, i. rewrite (proj2 (Z.leb_le _ _)), Nat2Z.id by lia. by apply lookup_ge_None_2.
    + cbn. rewrite length_app. cbn. lia.
  - cbn in Hf. destruct Hf as [Hfl (x & Hx & Hf)].
    assert (i ∉ L) as Hi by (apply NoDup_app in Hnd; set_solver).
    set (y := set_st_ref 1 (set_st_stable false (set_st_parent None x))).
    set (t := mkStates (<[Z.to_nat i := y]> (ss_states s)) (st_parent x) (ss_free_nr s - 1) (ss_allocated s) (m_duplicate_real_fs s) (ss_world s)).
    exists i, y, t, fl. split_and!; try done.
    + eapply (runs_bind _ _ _ s s); [done|]. rewrite (proj2 (Z.ltb_lt _ _)) by (rewrite Hn; cbn; lia).
      set (s1 := set_free (st_parent x) (ss_free_nr s - 1) s). rewrite Hfl.
      set (s2 := set_states (<[Z.to_nat i := set_st_parent None x]> (ss_states s)) s1).
      eapply (runs_bind _ _ _ i s2).
      { eapply (runs_bind _ _ _ i s); [done|]. eapply runs_bind; [by apply state_at_runs|].
        eapply (runs_bind _ _ _ tt s1); [done|]. eapply runs_bind; [by apply (state_upd_runs s1 i x)|done]. }
      eapply runs_bind; [apply (state_upd_runs s2 i (set_st_parent None x))|].
      { cbn. by rewrite (aget_upd _ _ _ _ _ Hx), decide_True. }
      unfold t, s2, s1, runs, ret, set_states. cbn. by rewrite list_insert_insert_eq.
    + apply (pool_take s t R L (i :: fl) i y H Hi); try done; cbn.
      * by rewrite (aget_upd _ _ _ _ _ Hx), decide_True.
      * intros j Hj. rewrite (aget_upd _ _ _ _ _ Hx), decide_False; [done|by intros ->].
      * by rewrite Permutation_middle.
      * intros j. rewrite length_insert, <- Hall. by rewrite Permutation_middle.
      * eapply free_upd_out; [done| |done]. apply NoDup_app in Hnd as (_ & _ & Hnd). by apply NoDup_cons in Hnd as [? _].
      * rewrite Hn. cbn. lia.
      * by rewrite length_insert.
    + cbn. by rewrite (aget_upd _ _ _ _ _ Hx), decide_True.
    + intros j Hj. cbn. rewrite (aget_upd _ _ _ _ _ Hx), decide_False; [done|by intros ->].
    + left. set_solver.
    + rewrite Hx. done.
    + cbn. rewrite length_insert. lia.
Qed.

(** ** Duplicating a state *)

(** [i] becomes a child of [src]. *)
Lemma pool_adopt s R L fl i x z src y : pool_ok s (i :: R) (i :: L) fl -> i ∉ L ->
  aget (ss_states s) i = Some x -> st_parent x = None -> src ∈ L -> aget (ss_states s) src = Some y ->
  st_parent z = Some src -> st_ref z = st_ref x ->
  pool_ok (set_states (<[Z.to_nat src := set_st_ref (st_ref y + 1) y]> (<[Z.to_nat i := z]> (ss_states s))) s)
    (i :: R) (i :: L) fl.
Proof.
  intros H Hi Hx Hxp Hsrc Hy Hzp Hzr. destruct H as [Hnd Hall Hl Hrt Ho Hf Hn Ha].
  assert (src <> i) as Hne by (intros ->; done).
  set (sts1 := <[Z.to_nat i := z]> (ss_states s)).
  assert (aget sts1 src = Some y) as Hy1 by (unfold sts1; by rewrite (aget_upd _ _ _ _ _ Hx), decide_False).
  set (sts2 := <[Z.to_nat src := set_st_ref (st_ref y + 1) y]> sts1).
  assert (forall j, parent_of sts2 j = if decide (j = i) then [src] else parent_of (ss_states s) j) as Hpar.
  { intros j. unfold sts2. rewrite (parent_of_upd _ _ _ _ _ Hy1). unfold sts1. rewrite (parent_of_upd _ _ _ _ _ Hx).
    destruct (decide (j = src)) as [->|]; [rewrite decide_False by done; unfold parent_of; by rewrite Hy|].
    destruct (decide (j = i)); [by rewrite Hzp|done]. }
  assert (L ≫= parent_of sts2 = L ≫= parent_of (ss_states s)) as HparL.
  { unfold sts2. rewrite (parents_upd_same _ _ _ _ _ Hy1) by done. unfold sts1. by rewrite (parents_upd_out _ _ _ _ _ Hx). }
  assert (parent_of (ss_states s) i = []) as Hpi by (unfold parent_of; by rewrite Hx, Hxp).
  assert (forall j, cnt j (held_refs sts2 (i :: R) (i :: L)) = (if decide (src = j) then 1 else 0) + cnt j (held_refs (ss_states s) (i :: R) (i :: L))) as Hcnt.
  { intros j. assert (held_refs sts2 (i :: R) (i :: L) ≡ₚ src :: held_refs (ss_states s) (i :: R) (i :: L)) as E.
    { unfold held_refs. cbn. rewrite HparL, Hpi, Hpar, decide_True by done. cbn. solve_Permutation. }
    by rewrite (cnt_perm _ _ _ E), cnt_cons. }
  constructor; cbn; fold sts1 sts2; try done.
  - unfold sts2, sts1. by rewrite !length_insert.
  - intros j Hj. unfold sts2 at 1. rewrite (aget_upd _ _ _ _ _ Hy1). rewrite Hcnt.
    destruct (decide (j = src)) as [->|Hjs].
    + rewrite decide_True by done. eexists. split; [done|]. cbn [st_ref set_st_ref]. destruct (Hl src Hj) as (y' & Hy' & Hc & Hp). simplify_eq. lia.
    + rewrite decide_False by congruence. unfold sts1. rewrite (aget_upd _ _ _ _ _ Hx).
      destruct (Hl j Hj) as (x' & Hx' & Hc & Hp). destruct (decide (j = i)) as [->|].
      * simplify_eq. exists z. rewrite Hzr. done.
      * by exists x'.
  - split.
    + intros p. rewrite Hpar, decide_True by done. by intros ->%list_elem_of_singleton.
    + apply (order_upd_same _ _ _ _ _ Hy1); [done|]. apply (order_upd_out _ _ _ _ _ Hx Hi). by destruct Ho.
  - assert (i ∉ fl /\ src ∉ fl) as [? ?] by (apply NoDup_app in Hnd; set_solver).
    eapply free_upd_out; [exact Hy1|done|]. eapply free_upd_out; [exact Hx|done|done].
  - unfold sts2, sts1. by rewrite !length_insert.
Qed.

(** Successive updates of one state. *)
Lemma upd_again s l i x f : 0 <= i < Z.of_nat (length l) ->
  runs (state_upd i f) (set_states (<[Z.to_nat i := x]> l) s) tt (set_states (<[Z.to_nat i := f x]> l) s).
Proof.
  intros Hi. assert (aget (<[Z.to_nat i := x]> l) i = Some x) as Hx by (by apply aget_insert_eq).
  pose proof (state_upd_runs (set_states (<[Z.to_nat i := x]> l) s) i x f Hx) as H. cbn in H.
  by rewrite list_insert_insert_eq in H.
Qed.

(** The copy of the file system that [DuplicateFrom] makes. *)
Definition copied (s : SM) (dst : option Z) (h n : Z) (w' : W) : Prop :=
  match dst with
  | None => runs (fs_Clone h) (ss_world s) n w'
  | Some m => runs (fs_CopyFrom m h) (ss_world s) tt w' /\ n = m
  end.

Lemma DuplicateFrom_spec s R L fl i x src y h n w' : pool_ok s (i :: R) (i :: L) fl -> pool_room s (i :: R) -> i ∉ L ->
  aget (ss_states s) i = Some x -> st_parent x = None -> src ∈ L -> aget (ss_states s) src = Some y ->
  st_real_fs y = Some h -> copied s (st_real_fs x) h n w' ->
  exists t z, runs (DuplicateFrom i src) s tt t /\ pool_ok t (i :: R) (i :: L) fl /\
    aget (ss_states t) i = Some z /\ st_ref_fs z = st_ref_fs y /\ st_real_fs z = Some n /\
    st_parent z = Some src /\ st_depth z = w32 (st_depth y + 1) /\ st_result z = ERR_OK /\ st_op z = st_op x /\
    states_kept L (ss_states s) (ss_states t) /\ ss_world t = w' /\
    m_duplicate_real_fs t = m_duplicate_real_fs s /\ length (ss_states t) = length (ss_states s).
Proof.
  intros H Hroom Hi Hx Hxp Hsrc Hy Hh Hcopy. pose proof (aget_bounds _ _ _ Hx) as Hib.
  assert (src <> i) as Hne by (intros ->; done). set (l := ss_states s) in *.
  set (x1 := set_st_ref_fs (st_ref_fs y) x). set (x2 := set_st_real_fs (Some n) x1).
  set (z := set_st_result ERR_OK (set_st_parent (Some src) (set_st_depth (w32 (st_depth y + 1)) x2))).
  set (sw := set_world w' s).
  destruct (pool_live_at _ _ _ _ _ H (list_elem_of_further src i L Hsrc)) as (y' & Hy' & _ & Hpos).
  fold l in Hy'. simplify_eq.
  set (t := set_states (<[Z.to_nat src := set_st_ref (st_ref y + 1) y]> (<[Z.to_nat i := z]> l)) sw).
  assert (aget (<[Z.to_nat i := z]> l) src = Some y) as Hy1 by (by rewrite (aget_upd _ _ _ _ _ Hx), decide_False).
  exists t, z. split_and!; try done.
  - unfold DuplicateFrom. eapply runs_bind; [by apply state_at_runs|].
    eapply runs_bind; [by apply state_upd_runs|]. fold l. fold x1.
    eapply runs_bind; [apply state_at_runs; cbn; by apply aget_insert_eq|]. rewrite Hh.
    eapply runs_bind; [done|]. unfold copied in Hcopy. change (st_real_fs x1) with (st_real_fs x).
    eapply (runs_bind _ _ _ tt (set_states (<[Z.to_nat i := x2]> l) sw)).
    { destruct (st_real_fs x) as [m|] eqn:Em.
      - destruct Hcopy as [Hcopy ->]. assert (x2 = x1) as -> by (unfold x2, x1; destruct x; cbn in *; by subst).
        exact (runs_zoom ss_world set_world _ (set_states (<[Z.to_nat i := x1]> l) s) tt w' Hcopy).
      - eapply runs_bind; [exact (runs_zoom ss_world set_world _ (set_states (<[Z.to_nat i := x1]> l) s) n w' Hcopy)|].
        exact (upd_again sw l i x1 (set_st_real_fs (Some n)) Hib). }
    eapply runs_bind; [by apply upd_again|]. eapply runs_bind; [by apply upd_again|].
    eapply runs_bind; [by apply upd_again|]. fold z.
    unfold state_add_ref. unfold t.
    assert (w32 (st_ref y + 1) = st_ref y + 1) as Hw by (unfold w32, pool_room in *; cbn [length] in *; fold l in Hroom, Hpos; rewrite Z.mod_small; lia).
    pose proof (state_upd_runs (set_states (<[Z.to_nat i := z]> l) sw) src y (fun x => set_st_ref (w32 (st_ref x + 1)) x) Hy1) as Hr.
    cbv beta in Hr. by rewrite Hw in Hr.
  - assert (pool_ok sw (i :: R) (i :: L) fl) as Hsw by (by destruct H).
    by apply (pool_adopt sw R L fl i x z src y).
  - unfold t. cbn. rewrite (aget_upd _ _ _ _ _ Hy1), decide_False by congruence. by rewrite (aget_upd _ _ _ _ _ Hx), decide_True.
  - intros j Hj. destruct (po_live _ _ _ _ H j (list_elem_of_further _ _ _ Hj)) as (u & Hu & _). fold l in Hu.
    unfold t. cbn. rewrite (aget_upd _ _ _ _ _ Hy1), (aget_upd _ _ _ _ _ Hx), (decide_False (P := j = i)) by (intros ->; done).
    destruct (decide (j = src)) as [->|]; [simplify_eq|]; eexists _, _; (split_and!; [done|done|by repeat split]).
  - cbn. by rewrite !length_insert.
Qed.

(** * What the pool promises *)

(** C28: giving a state back.  The reference is taken away; exactly the states
    that are not reachable from the remaining references through parents go to
    the free list, the others keep their content and their counts stay exact;
    the file systems are not touched. *)
Theorem states_put_correct s i R L fl :
  pool_ok s (i :: R) L fl -> pool_room s (i :: R) -> m_duplicate_real_fs s = true ->
  exists t L' fl', runs (states_put (Some i)) s tt t /\ pool_ok t R L' fl' /\
    (forall j, j ∈ L' <-> reach (ss_states t) R j) /\ L' ⊆ L /\
    states_kept L' (ss_states s) (ss_states t) /\
    length (ss_states t) = length (ss_states s) /\ ss_world t = ss_world s.
Proof.
  intros H Hroom Hd.
  destruct (states_put_spec s i R L fl H Hroom Hd) as (t & L' & fl' & Hr & Ht & Hs & Hk & Hl & _ & Hw).
  exists t, L', fl'. split_and!; try done. intros j. by eapply live_reach.
Qed.

(** C29: duplicating a live state, with a simulator for every state.  The copy
    is a state that was not live; it has the reference file system of the
    original, and its simulator is either a new clone of the original's
    simulator, when the state of the pool had none, or the simulator that state
    had, into which the original's has been copied: the world is the one that
    call left.  The copy is one deeper, has the original as parent, and counts
    as a reference to it; the other live states keep their content. *)
Theorem states_duplicate_correct s R L fl src y h :
  pool_ok s R L fl -> Z.of_nat (length R) + Z.of_nat (length (ss_states s)) < 2 ^ 32 - 3 ->
  m_duplicate_real_fs s = true -> src ∈ L -> aget (ss_states s) src = Some y -> st_real_fs y = Some h ->
  (forall dst, dst = None \/ (exists i x, i ∈ fl /\ aget (ss_states s) i = Some x /\ dst = st_real_fs x) ->
     exists n w', copied s dst h n w') ->
  exists i t z fl', runs (states_duplicate mem src) s i t /\ pool_ok t (i :: R) (i :: L) fl' /\ i ∉ L /\
    aget (ss_states t) i = Some z /\ st_ref_fs z = st_ref_fs y /\ 
    (exists n, st_real_fs z = Some n /\ copied s (aget (ss_states s) i ≫= st_real_fs) h n (ss_world t)) /\
    st_parent z = Some src /\ st_depth z = w32 (st_depth y + 1) /\
    states_kept L (ss_states s) (ss_states t).
Proof.
  intros H Hroom Hd Hsrc Hy Hh Hcopy.
  destruct (states_get_spec s R L fl H) as (i & x & s1 & fl1 & Hg & H1 & Hi & Hx & Hxp & Hsame & Hcase & Hreal & Hd1 & Hw1 & Hlen).
  destruct (Hcopy (st_real_fs x)) as (n & w' & Hc).
  { rewrite Hreal. destruct Hcase as [Hif|Hn]; [|left; by rewrite Hn]. destruct (free_list_elem _ _ _ _ (po_free _ _ _ _ H) Hif) as [u Hu].
    right. exists i, u. split_and!; [done|done|by rewrite Hu]. }
  destruct (DuplicateFrom_spec s1 R L fl1 i x src y h n w') as (t & z & Hrun & Ht & Hz & Hrf & Hrl & Hp & Hdep & _ & _ & Hk & Hw & _); try done.
  { unfold pool_room. cbn [length]. lia. }
  { by rewrite Hsame. }
  { unfold copied. by rewrite Hw1. }
  exists i, t, z, fl1. split_and!; try done.
  - unfold states_duplicate. eapply runs_bind; [exact Hg|]. eapply (runs_bind _ _ _ s1 s1); [done|].
    rewrite Hd1, Hd. eapply runs_bind; [exact Hrun|done].
  - exists n. split; [done|]. rewrite Hw. by rewrite Hreal in Hc.
  - intros j Hj. destruct (Hk j Hj) as (a & b & Ha & Hb & Hab). exists a, b. by rewrite <- Hsame.
Qed.

(** A pool without states. *)
Lemma pool_ok_new dup (w : W) : pool_ok (states_new dup w) [] [] [].
Proof. constructor; cbn; try done; [apply NoDup_nil_2| |]; intros i; [split; [set_solver|lia]|set_solver]. Qed.
End Pool.

(** ** An example: a file system with no files, of which every copy is a new one *)
Definition stub_fs : IFsSimulator Z := {|
  fs_add_ref _ := ret tt; fs_release _ := ret tt; fs_Mount _ := ret tt; fs_Unmount _ := ret tt;
  fs_Reset _ _ := ret tt; fs_fsck _ _ := ret ERR_OK;
  fs_FileCreate _ _ := ret (ERR_NO_SPACE, INVALID16); fs_DirCreate _ _ := ret (ERR_NO_SPACE, INVALID16);
  fs_FileOpen _ _ := ret (ERR_OPEN_FILE, INVALID16); fs_FileClose _ _ := ret tt;
  fs_GetFileSize _ _ := ret 0; fs_FileWrite _ _ _ _ := ret 0; fs_FileRead _ _ _ _ := ret [];
  fs_FileTruncate _ _ _ _ := ret tt; fs_FileDelete _ _ := throw (FsError ERR_DELETE_FILE);
  fs_DirDelete _ _ := ret ERR_DELETE_DIR; fs_FileMove _ _ _ := ret ERR_PARENT_NOT_EXIST;
  fs_Clone _ := bind get (fun n => bind (put (n + 1)) (fun _ => ret n)); fs_CopyFrom _ _ := ret tt;
  fs_GetFsInfo _ := ret (mkInfo 0 0 0 0 0 0 0 0 0 0 0 0 0); fs_GetCacheNum _ := ret 0;
  fs_GetFileDirNum _ _ := ret (0, 1)
|}.
Definition trace_none : TRACE_ENTRY := mkTrace OP_NOP [] [] 0 0 0 0.
Definition state_memory : CFsState := mkState ref_new None trace_none None 0 false ERR_OK 0 0.

(** Two states on the pool: a root and its child. *)
Definition pool_example : CStateManager Z :=
  mkStates [set_st_ref 1 (set_st_real_fs (Some 0) (CFsState_new state_memory));
            set_st_parent (Some 0) (set_st_real_fs (Some 1) (CFsState_new state_memory))]
    None 0 2 true 2.

Lemma pool_example_ok : pool_ok pool_example [1] [1; 0] [].
Proof.
  constructor; cbn [app pool_example ss_states ss_free_list ss_free_nr ss_allocated length]; try done.
  - apply (bool_decide_unpack _). by vm_compute.
  - intros i. rewrite !elem_of_cons, elem_of_nil. lia.
  - intros i [->|[->|[]%elem_of_nil]%elem_of_cons]%elem_of_cons; (eexists; split_and!; [reflexivity|by vm_compute|by vm_compute]).
  - intros i [->|[]%elem_of_nil]%elem_of_cons. set_solver.
Qed.

Lemma states_put_correct_witness : exists t L' fl',
  runs (states_put (FS := stub_fs) (Some 1)) pool_example tt t /\ pool_ok t [] L' fl' /\
  (forall j, j ∈ L' <-> reach (ss_states t) [] j) /\ L' ⊆ [1; 0] /\
  states_kept L' (ss_states pool_example) (ss_states t) /\
  length (ss_states t) = length (ss_states pool_example) /\ ss_world t = ss_world pool_example.
Proof.
  apply (states_put_correct (FS := stub_fs) pool_example 1 [] [1; 0] []);
    [exact pool_example_ok | unfold pool_room; cbn; lia | reflexivity].
Defined.

Lemma states_duplicate_correct_witness : exists i t z fl',
  runs (states_duplicate (FS := stub_fs) state_memory 1) pool_example i t /\ pool_ok t [i; 1] [i; 1; 0] fl' /\
  i ∉ [1; 0] /\ aget (ss_states t) i = Some z /\ st_ref_fs z = st_ref_fs (CFsState_new state_memory) /\
  st_parent z = Some 1 /\ st_depth z = 1 /\ states_kept [1; 0] (ss_states pool_example) (ss_states t).
Proof.
  destruct (states_duplicate_correct (FS := stub_fs) state_memory pool_example [1] [1; 0] [] 1
    (set_st_parent (Some 0) (set_st_real_fs (Some 1) (CFsState_new state_memory))) 1)
    as (i & t & z & fl' & H1 & H2 & H3 & H4 & H5 & _ & H7);
    [exact pool_example_ok | cbn; lia | reflexivity | set_solver | reflexivity | reflexivity | |].
  { intros dst [->|(i & x & []%elem_of_nil & _)]. exists 2, 3. reflexivity. }
  exists i, t, z, fl'. exact (conj H1 (conj H2 (conj H3 (conj H4 (conj H5 H7))))).
Defined.
