(* ===== verification/ClosedSet.v ===== *)
(** ClosedSet: the set of codes already met, against its definition on the
    history of the search. *)
From S2P Require Export StateMgr.

Section ClosedSet.
Implicit Types (h : CStateHeap) (seen l : list (ENCODE * Z)).

(** The answers of [CheckAndInsert] to a sequence of states, and the set it
    leaves. *)
Fixpoint check_all l h : list bool * CStateHeap :=
  match l with
  | [] => ([], h)
  | (c, d) :: l' =>
      let '(found, h') := CheckAndInsert_code c d h in
      let '(r, h'') := check_all l' h' in (found :: r, h'')
  end.

(** On the history: a state was met when one with its code and no greater depth
    has been checked before. *)
Definition met_before seen (c : ENCODE) (d : Z) : bool :=
  existsb (fun p => bool_decide (fst p = c) && (snd p <=? d)) seen.
Fixpoint answers seen l : list bool :=
  match l with [] => [] | (c, d) :: l' => met_before seen c d :: answers (seen ++ [(c, d)]) l' end.
(** The least depth at which a code was met. *)
Fixpoint least_depth seen (c : ENCODE) : option Z :=
  match seen with
  | [] => None
  | (c', d) :: seen' =>
      if bool_decide (c' = c) then Some (match least_depth seen' c with Some d' => Z.min d d' | None => d end)
      else least_depth seen' c
  end.

Lemma met_before_least seen c d :
  met_before seen c d = match least_depth seen c with Some d' => d' <=? d | None => false end.
Proof.
  induction seen as [|[c' d'] seen IH]; [done|]. unfold met_before in *. cbn [existsb least_depth fst snd]. rewrite IH.
  case_bool_decide; cbn [andb orb]; [|done]. destruct (least_depth seen c) as [e|]; [|by rewrite orb_false_r].
  destruct (Z.leb_spec d' d), (Z.leb_spec e d), (Z.leb_spec (Z.min d' e) d); cbn; (done || lia).
Qed.
Lemma least_depth_app seen c d c0 : least_depth (seen ++ [(c, d)]) c0 =
  if bool_decide (c = c0) then Some (match least_depth seen c0 with Some d' => Z.min d' d | None => d end)
  else least_depth seen c0.
Proof.
  induction seen as [|[c' d'] seen IH]; cbn [least_depth app]; [by case_bool_decide|]. rewrite IH.
  repeat case_bool_decide; try done. destruct (least_depth seen c0); f_equal; lia.
Qed.

Lemma check_one seen c d h : (forall c, h !! c = least_depth seen c) ->
  let '(found, h') := CheckAndInsert_code c d h in
  found = met_before seen c d /\ forall c0, h' !! c0 = least_depth (seen ++ [(c, d)]) c0.
Proof.
  intros H. unfold CheckAndInsert_code. rewrite met_before_least. rewrite <- (H c).
  assert (forall c0, <[c:=d]> h !! c0 = if bool_decide (c = c0) then Some d else h !! c0) as Hins.
  { intros c0. case_bool_decide; subst; [apply lookup_insert_eq|by apply lookup_insert_ne]. }
  destruct (h !! c) as [d'|] eqn:E; [destruct (Z.leb_spec d' d)|]; (split; [done|]); intros c0;
    rewrite least_depth_app, <- H, ?Hins; case_bool_decide; subst; rewrite ?E; try done; f_equal; lia.
Qed.

Lemma check_all_history l seen h : (forall c, h !! c = least_depth seen c) ->
  fst (check_all l h) = answers seen l /\ forall c, snd (check_all l h) !! c = least_depth (seen ++ l) c.
Proof.
  revert seen h. induction l as [|[c d] l IH]; intros seen h H; cbn [check_all answers].
  - split; [done|]. intros c. by rewrite app_nil_r.
  - pose proof (check_one seen c d h H) as H1. destruct (CheckAndInsert_code c d h) as [found h'] eqn:E.
    destruct H1 as [-> H1]. destruct (IH _ _ H1) as [Hr Hh]. rewrite <- app_assoc in Hh.
    destruct (check_all l h') as [r h'']. cbn [fst snd] in *. split; [by rewrite Hr|exact Hh].
Qed.
End ClosedSet.

(** * States

    A state is checked with what the memory of the buffer [encode] held before,
    which the code does not initialise. *)
Section States.
Context (opcode_len : Z).
Abbreviation checked := (list Z * CFsState)%type.
Implicit Types (p : checked) (l seen : list checked).

(** The calls of [CheckAndInsert] on a sequence of states. *)
Fixpoint check_states l : M CStateHeap (list bool) :=
  match l with
  | [] => ret []
  | (stack, x) :: l' => found <- CheckAndInsert opcode_len stack x ;; r <- check_states l' ;; ret (found :: r)
  end.

(** The code of a state, and the bytes behind its terminating zero that are
    compared with it. *)
Definition state_code p : option (list Z) := Encode MAX_ENCODE_SIZE opcode_len (st_ref_fs (snd p)).
Definition leftover p : list Z := drop (S (length (default [] (state_code p)))) (fst p).
(** The code fits the buffer and is a string. *)
Definition encodable p : Prop := exists c, state_code p = Some c /\ 0 ∉ c.
Definition state_key p : ENCODE * Z := (default [] (ENCODE_of opcode_len (fst p) (st_ref_fs (snd p))), st_depth (snd p)).

(** A state is reported as met when one with the same code, the same bytes
    behind it and no greater depth was checked before. *)
Definition state_met seen p : bool :=
  existsb (fun p' => bool_decide (state_code p' = state_code p) && bool_decide (leftover p' = leftover p) &&
    (st_depth (snd p') <=? st_depth (snd p))) seen.
Fixpoint state_answers seen l : list bool :=
  match l with [] => [] | p :: l' => state_met seen p :: state_answers (seen ++ [p]) l' end.

Lemma zero_split (c1 c2 r1 r2 : list Z) : 0 ∉ c1 -> 0 ∉ c2 -> c1 ++ 0 :: r1 = c2 ++ 0 :: r2 -> c1 = c2 /\ r1 = r2.
Proof.
  revert c2. induction c1 as [|a c1 IH]; intros [|b c2] H1 H2 E; cbn in E; simplify_eq; [done|set_solver..|].
  destruct (IH c2) as [-> ->]; [set_solver..|done|done].
Qed.
Lemma state_key_code p c : state_code p = Some c ->
  ENCODE_of opcode_len (fst p) (st_ref_fs (snd p)) = Some (fst (state_key p)) /\ fst (state_key p) = c ++ 0 :: leftover p.
Proof.
  unfold state_key, leftover, state_code, ENCODE_of. intros Hc. rewrite Hc. cbn. split; [done|].
  unfold overwrite. rewrite <- app_assoc. cbn. by rewrite length_app, Nat.add_1_r.
Qed.
Lemma same_key p q : encodable p -> encodable q ->
  fst (state_key p) = fst (state_key q) <-> state_code p = state_code q /\ leftover p = leftover q.
Proof.
  intros (c1 & E1 & Z1) (c2 & E2 & Z2). rewrite (proj2 (state_key_code _ _ E1)), (proj2 (state_key_code _ _ E2)), E1, E2. split.
  - intros [-> ->]%zero_split; done.
  - intros [[= ->] ->]. done.
Qed.
Lemma met_key seen p : Forall encodable seen -> encodable p ->
  met_before (state_key <$> seen) (fst (state_key p)) (snd (state_key p)) = state_met seen p.
Proof.
  intros Hs Hp. unfold met_before, state_met. induction Hs as [|q seen Hq Hs IH]; [done|]. cbn. cbn in IH. rewrite IH. f_equal. f_equal.
  apply Bool.eq_iff_eq_true. rewrite andb_true_iff, !bool_decide_eq_true. by apply same_key.
Qed.
Lemma answers_key l seen : Forall encodable seen -> Forall encodable l ->
  answers (state_key <$> seen) (state_key <$> l) = state_answers seen l.
Proof.
  intros Hs Hl. revert seen Hs. induction Hl as [|p l Hp Hl IH]; intros seen Hs; [done|]. cbn [fmap list_fmap state_answers].
  destruct (state_key p) as [c d] eqn:E. cbn [answers]. rewrite <- (IH (seen ++ [p])).
  - rewrite fmap_app. cbn [fmap list_fmap]. rewrite E. f_equal. rewrite <- (met_key seen p) by done. by rewrite E.
  - apply Forall_app. by split; [|apply Forall_singleton].
Qed.
Lemma check_states_keys l h : Forall encodable l ->
  runs (check_states l) h (fst (check_all (state_key <$> l) h)) (snd (check_all (state_key <$> l) h)).
Proof.
  intros Hl. revert h. induction Hl as [|p l (c & Hc & _) Hl IH]; intros h; [done|]. destruct (state_key_code p c Hc) as [He _].
  destruct p as [stack x]. cbn [fst snd] in *.
  assert (Hone : runs (CheckAndInsert opcode_len stack x) h (fst (CheckAndInsert_code (fst (state_key (stack, x))) (st_depth x) h))
    (snd (CheckAndInsert_code (fst (state_key (stack, x))) (st_depth x) h))).
  { unfold CheckAndInsert. rewrite He. eapply runs_bind; [done|]. eapply runs_bind; [done|].
    destruct (CheckAndInsert_code _ _ h) as [found h']. by eapply runs_bind. }
  change (state_key <$> (stack, x) :: l) with ((fst (state_key (stack, x)), st_depth x) :: (state_key <$> l)).
  cbn [check_all check_states]. destruct (CheckAndInsert_code _ _ h) as [found h']. specialize (IH h').
  destruct (check_all (state_key <$> l) h') as [r h'']. eapply runs_bind; [exact Hone|]. eapply runs_bind; [exact IH|done].
Qed.

(** C25: the set of codes is equivalent to the history of the search.  For every
    sequence of states checked from an empty set, each with whatever bytes the
    uninitialised buffer held, [CheckAndInsert] answers that a state was met
    exactly when an earlier one had the same code, the same bytes of the buffer
    behind the terminating zero, and no greater depth; the set then holds, for
    every key met, the least depth at which it was met, so that a state is
    expanded again when it is reached by a shorter way.  The codes fit the
    buffer and hold no zero. *)
Theorem closed_set_is_history l : Forall encodable l ->
  exists h, runs (check_states l) ∅ (state_answers [] l) h /\
    forall c, h !! c = least_depth (state_key <$> l) c.
Proof.
  intros Hl. destruct (check_all_history (state_key <$> l) [] ∅) as [Ha Hh]; [intros c; apply lookup_empty|].
  exists (snd (check_all (state_key <$> l) ∅)). split; [|exact Hh].
  rewrite <- (answers_key l [] (Forall_nil_2 _) Hl). cbn [fmap list_fmap]. rewrite <- Ha. by apply check_states_keys.
Qed.
End States.

(** * An example: a fresh state met again, in a buffer with other leftovers, and
    by a shorter way *)
Definition fresh_state (depth : Z) : CFsState :=
  mkState (ref_Initialize ref_new).2 None (mkTrace OP_NOP [] [] 0 0 0 0) None depth false ERR_OK 0 1.
Definition buffer (b : Z) : list Z := rep MAX_ENCODE_SIZE b.
Definition checked_states : list (list Z * CFsState) :=
  [(buffer 0, fresh_state 2); (buffer 0, fresh_state 3); (buffer 7, fresh_state 4); (buffer 0, fresh_state 1); (buffer 7, fresh_state 4)].
Lemma fresh_encodable b d : encodable 0 (buffer b, fresh_state d).
Proof.
  eexists. split; [unfold state_code; cbn [snd fresh_state st_ref_fs]; vm_compute; reflexivity|].
  apply (bool_decide_unpack _). vm_compute. exact I.
Qed.
Lemma closed_set_is_history_witness :
  state_answers 0 [] checked_states = [false; true; false; false; true] /\
  exists h, runs (check_states 0 checked_states) ∅ [false; true; false; false; true] h /\
    forall c, h !! c = least_depth (state_key 0 <$> checked_states) c.
Proof.
  assert (E : state_answers 0 [] checked_states = [false; true; false; false; true]) by (vm_compute; reflexivity).
  split; [exact E|]. rewrite <- E. apply (closed_set_is_history 0 checked_states).
  repeat constructor; apply fresh_encodable.
Defined.
