(* ===== verification/Tester.v ===== *)
(** Tester: the exhaustive search over file system operations, extester.cpp and
    extester.h.

    The tester runs every operation on the simulator and on the reference file
    system and compares them.  What it prints and the trace files it writes are
    left out, and with them the texts of error messages. *)
From S2P Require Export StateMgr.
From Stdlib Require Import Ascii Floats.SpecFloat.
From Stdlib Require Strings.String.
Import String.StringSyntax.
Delimit Scope string_scope with string.
Open Scope Z_scope.

(** What the run does not determine: the results of [rand], the memory of the
    stack, the order in which the worker threads finish. *)
Class Env := {
  rand_at : Z -> Z;
  stack_at : Z -> list Z;
  schedule_at : Z -> list nat -> list nat
}.
Definition RAND_MAX : Z := 32767.
Class EnvLaws `{Env} := {
  rand_bounds n : 0 <= rand_at n <= RAND_MAX;
  stack_length n : Z.of_nat (length (stack_at n)) = MAX_ENCODE_SIZE;
  schedule_perm n l : schedule_at n l ≡ₚ l
}.

(** The part of the configuration file that the search uses. *)
Record TestConfig := mkConfig {
  m_max_child_num : Z; m_max_dir_depth : Z; m_max_file_op : Z; m_max_file_size : Z;
  m_test_depth : Z; m_branch : Z; m_thread_num : Z;
  m_check_power_loss : bool; m_stop_on_error : bool; m_skip_check_file_data : bool;
  m_opcode_len : Z
}.
(** The largest values met. *)
Record TestStat := mkStat {
  ms_total_item_num : Z; ms_file_num : Z; ms_dir_num : Z;
  ms_logical_blks : Z; ms_physical_blks : Z; ms_total_blks : Z; ms_free_blks : Z;
  ms_host_write : Z; ms_media_write : Z
}.
Record CExTester (W : Type) := mkTester {
  m_states : CStateManager W; m_open_list : list Z; m_closed : CStateHeap; m_op_sn : Z;
  m_max_depth : Z; m_max_depth_state : option Z; m_stop_test : Z; m_stat : TestStat;
  t_draws : Z; t_calls : Z
}.
Arguments mkTester {W}. Arguments m_states {W}. Arguments m_open_list {W}. Arguments m_closed {W}.
Arguments m_op_sn {W}. Arguments m_max_depth {W}. Arguments m_max_depth_state {W}.
Arguments m_stop_test {W}. Arguments m_stat {W}. Arguments t_draws {W}. Arguments t_calls {W}.

Definition MAX_WORK_NR : Z := 512.

(** * File names *)
Fixpoint chars (s : String.string) : list Z :=
  match s with
  | String.EmptyString => []
  | String.String a s' => Z.of_N (N_of_ascii a) :: chars s'
  end.
Definition FILENAME_NR : Z := 64.
Definition FILENAME_LIST : list cstring := chars <$> [
  "A"; "B"; "C"; "D"; "E"; "F"; "G"; "H";
  "KA"; "SA"; "TA"; "HA"; "KI"; "SI"; "TI"; "HI";
  "CAT"; "DOG"; "EAT"; "PEN"; "BED"; "SKY"; "CUP"; "HAT";
  "BOOK"; "FISH"; "PLAY"; "TREE"; "MOON"; "LOVE"; "TIME"; "WINE";
  "APPLE"; "HAPPY"; "WATER"; "LIGHT"; "BEGIN"; "MUSIC"; "GREEN"; "WORLD";
  "FREIND"; "SUMMER"; "GARDEN"; "BRIGHT"; "TRAVEL"; "YELLOW"; "FAMILY"; "OFFICE";
  "WEATHER"; "MORNING"; "SCIENCE"; "HISTORY"; "PERFECT"; "COUNTRY"; "FREEDOM"; "CAPITAL";
  "BIRTHDAY"; "ELEPHANT"; "HOSPITAL"; "MOUNTAIN"; "POWERFUL"; "COMPLETE"; "MIDNIGHT"; "LANGUAGE"
]%string.

(** * Random lengths, in single precision *)
Definition float_of (z : Z) : spec_float := binary_normalize 24 128 z 0 false.
(** The cast to an unsigned integer; a number out of range has no value. *)
Definition uint_of_float (f : spec_float) : option Z :=
  match f with
  | S754_zero _ => Some 0
  | S754_finite false m e =>
      let z := if 0 <=? e then Z.shiftl (Zpos m) e else Z.shiftr (Zpos m) (- e) in
      if z <? 2 ^ 32 then Some z else None
  | _ => None
  end.
(** [(FSIZE)(n * ((float)(rand()) / RAND_MAX))] *)
Definition scale_by_rand (n r : Z) : option Z :=
  uint_of_float (SFmul 24 128 (float_of n) (SFdiv 24 128 (float_of r) (float_of RAND_MAX))).

Section Tester.
Context {W : Type} `{FS : IFsSimulator W} `{EV : Env} `{EX : Exceptions} (mem : CFsState) (cfg : TestConfig).
Abbreviation T := (CExTester W).

Definition set_m_states (v : CStateManager W) (s : T) : T :=
  mkTester v (m_open_list s) (m_closed s) (m_op_sn s) (m_max_depth s) (m_max_depth_state s)
    (m_stop_test s) (m_stat s) (t_draws s) (t_calls s).
Definition set_open_list (v : list Z) (s : T) : T :=
  mkTester (m_states s) v (m_closed s) (m_op_sn s) (m_max_depth s) (m_max_depth_state s)
    (m_stop_test s) (m_stat s) (t_draws s) (t_calls s).
Definition set_closed (v : CStateHeap) (s : T) : T :=
  mkTester (m_states s) (m_open_list s) v (m_op_sn s) (m_max_depth s) (m_max_depth_state s)
    (m_stop_test s) (m_stat s) (t_draws s) (t_calls s).
Definition set_op_sn (v : Z) (s : T) : T :=
  mkTester (m_states s) (m_open_list s) (m_closed s) v (m_max_depth s) (m_max_depth_state s)
    (m_stop_test s) (m_stat s) (t_draws s) (t_calls s).
Definition set_max_depth (d : Z) (p : option Z) (s : T) : T :=
  mkTester (m_states s) (m_open_list s) (m_closed s) (m_op_sn s) d p
    (m_stop_test s) (m_stat s) (t_draws s) (t_calls s).
Definition set_stop (v : Z) (s : T) : T :=
  mkTester (m_states s) (m_open_list s) (m_closed s) (m_op_sn s) (m_max_depth s) (m_max_depth_state s)
    v (m_stat s) (t_draws s) (t_calls s).
Definition set_stat (v : TestStat) (s : T) : T :=
  mkTester (m_states s) (m_open_list s) (m_closed s) (m_op_sn s) (m_max_depth s) (m_max_depth_state s)
    (m_stop_test s) v (t_draws s) (t_calls s).
Definition set_ticks (d c : Z) (s : T) : T :=
  mkTester (m_states s) (m_open_list s) (m_closed s) (m_op_sn s) (m_max_depth s) (m_max_depth_state s)
    (m_stop_test s) (m_stat s) d c.

Definition on_states {A} : M (CStateManager W) A -> M T A := zoom m_states set_m_states.
Definition on_closed {A} : M CStateHeap A -> M T A := zoom m_closed set_closed.
Definition st_at (i : Z) : M T CFsState := on_states (state_at i).
Definition st_upd (i : Z) (f : CFsState -> CFsState) : M T unit := on_states (state_upd i f).

(** [state->m_ref_fs.op()] *)
Definition on_ref {A} (i : Z) (m : M CReferenceFs A) : M T A :=
  x <- st_at i ;;
  let '(r, ref) := m (st_ref_fs x) in
  st_upd i (set_st_ref_fs ref) ;;;
  match r with Ret a => ret a | Throw e => throw e | Fault => fault end.
(** [state->m_real_fs->op()]; the pointer is not null ([JCASSERT(real_fs)]). *)
Definition on_real {A} (i : Z) (m : Z -> M W A) : M T A :=
  x <- st_at i ;; h <- opt (st_real_fs x) ;; on_states (on_world (m h)).

Definition rand : M T Z :=
  s <- get ;; put (set_ticks (t_draws s + 1) (t_calls s) s) ;;; ret (rand_at (t_draws s)).
(** The memory of a local array. *)
Definition stack : M T (list Z) :=
  s <- get ;; put (set_ticks (t_draws s) (t_calls s + 1) s) ;;; ret (stack_at (t_calls s)).

(** * Names for new entries *)

(** [GenerateFn]: at most [len] characters. *)
Definition GenerateFn (len : Z) : M T cstring :=
  check (0 <=? len) ;;;
  r <- rand ;;
  let index := r mod FILENAME_NR in
  let src_len := index / 8 + 1 in
  fn <- opt (aget FILENAME_LIST index) ;;
  ret (take (Z.to_nat (Z.min src_len len)) fn).

(** [MakePathName]: a name that the directory does not have yet, after at most
    20 draws. *)
Definition MakePathName (i : Z) (file_path : cstring) : M T cstring :=
  let path_len := Z.of_nat (length file_path) in
  let dir := if 1 <? path_len then file_path ++ [BACKSLASH] else file_path in
  let path_len := if 1 <? path_len then path_len + 1 else path_len in
  r <- mloop (range 0 20) None (fun _ _ =>
    fn <- GenerateFn (MAX_PATH_SIZE - path_len) ;;
    found <- on_ref i (IsExist (dir ++ fn)) ;;
    ret (if negb found then Break (Some (dir ++ fn)) else Next None)) ;;
  opt r.

(** * One operation on both file systems *)

(** What the [catch] of most tests does. *)
Definition note_error (i : Z) (e : exn) : M T ERROR_CODE :=
  match e with
  | FsError c => st_upd i (set_st_result c) ;;; ret c
  | JcError _ | OUT_OF_RANGE => ret ERR_UNKNOWN
  end.

Definition TestCreateFile (i : Z) (path : cstring) : M T ERROR_CODE :=
  r <- try_catch (on_real i (fun h => fs_FileCreate h path))
         (fun e => ret (code_of_exn e, INVALID16)) ;;
  let '(ir, fid) := r in
  when (bool_decide (ir <> ERR_OK)) (st_upd i (set_st_result ir)) ;;;
  if bool_decide (ir = ERR_MAX_OPEN_FILE \/ ir = ERR_NO_SPACE) then ret ERR_NO_OPERATION else
  found <- on_ref i (IsExist path) ;;
  if found : bool then
    ret (if is_valid16 fid then ERR_CREATE_EXIST else ERR_NO_OPERATION)
  else
    ref_file <- on_ref i (AddPath path false fid) ;;
    if is_invalid16 fid then ret (if bool_decide (ir = ERR_OK) then ERR_CREATE else ir) else
    f <- opt ref_file ;;
    on_ref i (OpenFile f) ;;;
    ret ir.

Definition TestCreateDir (i : Z) (path : cstring) : M T ERROR_CODE :=
  r <- try_catch (on_real i (fun h => fs_DirCreate h path))
         (fun e => c <- note_error i e ;; ret (c, INVALID16)) ;;
  let '(ir, fid) := r in
  if bool_decide (ir = ERR_MAX_OPEN_FILE \/ ir = ERR_NO_SPACE)
  then st_upd i (set_st_result ir) ;;; ret ERR_NO_OPERATION else
  found <- on_ref i (IsExist path) ;;
  if found : bool then ret (if is_valid16 fid then ERR_CREATE_EXIST else ERR_OK)
  else if is_valid16 fid then on_ref i (AddPath path true fid) ;;; ret ERR_OK
  else ret ir.

Definition TestDeleteFile (i : Z) (path : cstring) : M T ERROR_CODE :=
  ref_file <- on_ref i (ref_FindFile path) ;;
  match ref_file with
  | None => throw ERR_APP
  | Some _ =>
      ir <- try_catch (on_real i (fun h => fs_FileDelete h path) ;;; ret ERR_OK) (note_error i) ;;
      when (bool_decide (ir = ERR_OK)) (on_ref i (RemoveFile path)) ;;;
      ret ir
  end.

Definition TestDeleteDir (i : Z) (path : cstring) : M T ERROR_CODE :=
  ref_file <- on_ref i (ref_FindFile path) ;;
  match ref_file with
  | None => throw ERR_APP
  | Some _ =>
      ir <- try_catch (on_real i (fun h => fs_DirDelete h path)) (note_error i) ;;
      when (bool_decide (ir = ERR_OK)) (on_ref i (RemoveFile path)) ;;;
      ret ir
  end.

(** The source and the destination are different arrays. *)
Definition TestMoveFile (i : Z) (src dst : cstring) : M T ERROR_CODE :=
  ir <- try_catch (on_real i (fun h => fs_FileMove h src dst)) (note_error i) ;;
  if bool_decide (ir = ERR_NO_SPACE) then ret ERR_NO_OPERATION else
  if bool_decide (ir = ERR_CREATE_EXIST) then
    file <- on_ref i (ref_FindFile dst) ;;
    ret (match file with None => ir | Some _ => ERR_NO_OPERATION end)
  else if bool_decide (ir <> ERR_OK) then ret ir else
  on_ref i (ref_MoveFile src dst) ;;;
  ret ir.

Definition ref_file_at (i f : Z) : M T CRefFile := on_ref i (file_at f).

Definition TestWriteFileV2 (i fid offset len : Z) (path : cstring) : M T ERROR_CODE :=
  ref_file <- on_ref i (ref_FindFile path) ;;
  match ref_file with
  | None => throw ERR_USER
  | Some f =>
      file <- ref_file_at i f ;;
      if negb (rf_fid file =? fid) then throw ERR_APP else
      if negb (m_is_open file) then throw ERR_APP else
      cur_file_size <- on_real i (fun h => fs_GetFileSize h fid) ;;
      if negb (rf_size file =? cur_file_size) then throw ERR_USER else
      written <- on_real i (fun h => fs_FileWrite h fid offset len) ;;
      let end_pos := w32 (offset + written) in
      on_ref i (UpdateFile path (if cur_file_size <? end_pos then end_pos else cur_file_size)) ;;;
      ret ERR_OK
  end.

Definition TestOpenFile (i : Z) (path : cstring) : M T ERROR_CODE :=
  ref_file <- on_ref i (ref_FindFile path) ;;
  match ref_file with
  | None => throw ERR_APP
  | Some f =>
      r <- on_real i (fun h => fs_FileOpen h path) ;;
      let '(err, fid) := r in
      if bool_decide (err = ERR_MAX_OPEN_FILE)
      then st_upd i (set_st_result err) ;;; ret ERR_OK else
      on_ref i (OpenFile f) ;;;
      if bool_decide (err <> ERR_OK) || is_invalid16 fid
      then throw (FsError (if bool_decide (err = ERR_OK) then ERR_OPEN_FILE else err)) else
      file <- ref_file_at i f ;;
      if negb (fid =? rf_fid file) then throw ERR_USER else
      ret err
  end.

Definition TestCloseFile (i fid : Z) (path : cstring) : M T ERROR_CODE :=
  ref_file <- on_ref i (ref_FindFile path) ;;
  match ref_file with
  | None => throw ERR_APP
  | Some f =>
      file <- ref_file_at i f ;;
      if negb (rf_fid file =? fid) then throw ERR_APP else
      ir <- try_catch (on_real i (fun h => fs_FileClose h fid) ;;; ret ERR_OK)
              (fun e => ret (code_of_exn e)) ;;
      when (bool_decide (ir = ERR_OK)) (on_ref i (CloseFile f)) ;;;
      ret ir
  end.

(** * Comparing the two file systems *)

Definition on_fs {A} (h : Z) (m : Z -> M W A) : M T A := on_states (on_world (m h)).

(** The blocks that do not carry their file and their position. *)
Fixpoint count_mismatch (fid ss : Z) (data : list FILE_DATA) : Z :=
  match data with
  | [] => 0
  | d :: data' =>
      (if (fd_fid d =? fid) && (fd_offset d =? ss) then 0 else 1) + count_mismatch fid (ss + 1) data'
  end.

(** One entry of the reference: the error the check returns with, or [None] when
    it goes on. *)
Definition VerifyFile (h : Z) (ref_file : CRefFile) : M T (option ERROR_CODE) :=
  let path := m_fn ref_file in
  if bool_decide (path = [BACKSLASH]) then ret None else
  r <- on_fs h (fun h => fs_FileOpen h path) ;;
  let '(ir, fid) := r in
  if bool_decide (ir = ERR_MAX_OPEN_FILE) then ret None else
  if bool_decide (ir <> ERR_OK) || is_invalid16 fid
  then ret (Some (if bool_decide (ir = ERR_OK) then ERR_OPEN_FILE else ir)) else
  if m_is_dir ref_file then on_fs h (fun h => fs_FileClose h fid) ;;; ret None else
  file_secs <- on_fs h (fun h => fs_GetFileSize h fid) ;;
  if negb (rf_size ref_file =? file_secs)
  then on_fs h (fun h => fs_FileClose h fid) ;;; ret (Some ERR_VERIFY_FILE) else
  compare <- (if m_skip_check_file_data cfg then ret 0 else
    data <- on_fs h (fun h => fs_FileRead h fid 0 file_secs) ;;
    ret (count_mismatch fid 0 data)) ;;
  if 0 <? compare
  then on_fs h (fun h => fs_FileClose h fid) ;;; ret (Some ERR_VERIFY_FILE) else
  on_fs h (fun h => fs_FileClose h fid) ;;;
  ret None.

(** The entries one after the other, in the order of the list of used entries. *)
Definition VerifyFiles (ref_fs : CReferenceFs) (h : Z) : M T ERROR_CODE :=
  r <- mwhile (Z.to_nat (MAX_FILE_NUM + 1)) (m_used_list ref_fs, ERR_OK) (fun st =>
    let '(ii, _) := st in
    if is_invalid32 ii then ret (Break (ii, ERR_OK)) else
    ref_file <- opt (aget (m_files ref_fs) ii) ;;
    opt (if bool_decide (m_fn ref_file = [BACKSLASH]) then Some tt
         else Encode MAX_ENCODE_SIZE (m_opcode_len cfg) ref_fs ≫= fun _ => Some tt) ;;;
    res <- VerifyFile h ref_file ;;
    ret (match res with
         | Some ir => Break (ii, ir)
         | None => Next (rf_next ref_file, ERR_OK)
         end)) ;;
  ret r.2.

(** The error of an exception that ends the check. *)
Definition verify_catch (e : exn) : M T ERROR_CODE :=
  let ir := GetErrorCode e in
  opt (if code_num ERR_UNKNOWN <? ir then Some ERR_UNKNOWN else code_of_num ir).

Definition VerifyState (ref_fs : CReferenceFs) (real_fs : option Z) : M T ERROR_CODE :=
  h <- opt real_fs ;;
  try_catch (
    on_fs h fs_GetFsInfo ;;;
    n <- on_fs h (fun h => fs_GetFileDirNum h 0) ;;
    let '(real_file_nr, real_dir_nr) := n in
    if negb (real_dir_nr =? m_dir_num ref_fs) then ret ERR_WRONG_FILE_NUM else
    if negb (real_file_nr =? m_file_num ref_fs) then ret ERR_WRONG_FILE_NUM else
    opt (Encode MAX_ENCODE_SIZE (m_opcode_len cfg) ref_fs) ;;;
    VerifyFiles ref_fs h) verify_catch.

Definition Verify (i : Z) : M T ERROR_CODE :=
  x <- st_at i ;; VerifyState (st_ref_fs x) (st_real_fs x).

(** [VerifyForPower]: the simulator must agree with the state or with one of its
    ancestors, which then becomes the reference. *)
Definition VerifyForPower (i : Z) : M T ERROR_CODE :=
  cur <- st_at i ;;
  s <- get ;;
  r <- mwhile (Datatypes.S (length (ss_states (m_states s)))) (Some i, ERR_OK) (fun st =>
    match st.1 with
    | None => ret (Break st)
    | Some j =>
        x <- st_at j ;;
        err <- VerifyState (st_ref_fs x) (st_real_fs cur) ;;
        if bool_decide (err = ERR_OK \/ err = ERR_NO_OPERATION) then
          when (negb (j =? i)) (st_upd i (set_st_ref_fs (st_ref_fs x))) ;;;
          ret (Break (Some j, err))
        else ret (Next (st_parent x, err))
    end) ;;
  on_ref i Demount ;;;
  ret r.2.

Definition TestMount (i : Z) : M T ERROR_CODE :=
  on_ref i Demount ;;;
  ir <- try_catch (
    on_real i fs_Unmount ;;;
    on_real i (fun h => fs_Reset h 0) ;;;
    on_real i fs_Mount ;;;
    Verify i) (note_error i) ;;
  st_upd i (set_st_stable true) ;;;
  ret ir.

Definition TestPowerOutage (i rollback : Z) : M T ERROR_CODE :=
  on_ref i Demount ;;;
  st_upd i (set_st_stable false) ;;;
  on_real i (fun h => fs_Reset h rollback) ;;;
  on_real i (fun h => fs_fsck h true) ;;;
  on_real i fs_Mount ;;;
  ir <- VerifyForPower i ;;
  st_upd i (set_st_stable true) ;;;
  ret ir.

(** * Running one operation *)
Definition op_upd (i : Z) (f : TRACE_ENTRY -> TRACE_ENTRY) : M T unit :=
  st_upd i (fun x => set_st_op (f (st_op x)) x).
Definition set_range (offset len : Z) (o : TRACE_ENTRY) : TRACE_ENTRY :=
  mkTrace (op_code o) (te_path o) (te_dst o) (te_fid o) (op_sn o) offset len.
Definition set_te_path (p : cstring) (o : TRACE_ENTRY) : TRACE_ENTRY :=
  mkTrace (op_code o) p (te_dst o) (te_fid o) (op_sn o) (te_offset o) (te_length o).
Definition set_te_dst (p : cstring) (o : TRACE_ENTRY) : TRACE_ENTRY :=
  mkTrace (op_code o) (te_path o) p (te_fid o) (op_sn o) (te_offset o) (te_length o).
Definition set_te_sn (n : Z) (o : TRACE_ENTRY) : TRACE_ENTRY :=
  mkTrace (op_code o) (te_path o) (te_dst o) (te_fid o) n (te_offset o) (te_length o).

(** The [switch] of [FsOperatorCore]; [op] is the operation that the state
    carries. *)
Definition FsOperatorSwitch (i : Z) : M T ERROR_CODE :=
  x <- st_at i ;;
  let op := st_op x in
  match op_code op with
  | OP_FILE_CREATE =>
      path <- MakePathName i (te_path op) ;;
      op_upd i (fun o => set_range 0 0 (set_te_path path o)) ;;;
      TestCreateFile i path
  | OP_DIR_CREATE =>
      path <- MakePathName i (te_path op) ;;
      op_upd i (fun o => set_range 0 0 (set_te_path path o)) ;;;
      TestCreateDir i path
  | OP_MOVE =>
      op_upd i (set_te_dst (te_path op)) ;;;
      match parent_path (te_path op) with
      | None => throw ERR_APP
      | Some dir =>
          dst <- MakePathName i dir ;;
          op_upd i (set_te_dst dst) ;;;
          TestMoveFile i (te_path op) dst
      end
  | OP_FILE_WRITE =>
      r1 <- rand ;;
      offset <- opt (scale_by_rand (te_length op) r1) ;;
      r2 <- rand ;;
      len <- opt (scale_by_rand (w32 (m_max_file_size cfg - offset)) r2) ;;
      op_upd i (set_range offset len) ;;;
      TestWriteFileV2 i (te_fid op) offset len (te_path op)
  | OP_FILE_DELETE => op_upd i (set_range 0 0) ;;; TestDeleteFile i (te_path op)
  | OP_DIR_DELETE => op_upd i (set_range 0 0) ;;; TestDeleteDir i (te_path op)
  | OP_FILE_OPEN => op_upd i (set_range 0 0) ;;; TestOpenFile i (te_path op)
  | OP_FILE_CLOSE => op_upd i (set_range 0 0) ;;; TestCloseFile i (te_fid op) (te_path op)
  | OP_DEMOUNT_MOUNT => op_upd i (fun o => set_te_path [] (set_range 0 0 o)) ;;; TestMount i
  | OP_POWER_OFF_RECOVER =>
      op_upd i (set_te_path []) ;;;
      ir <- TestPowerOutage i (te_rollback op) ;;
      st_upd i (fun x => set_st_unsafe (w32 (st_unsafe_mount_cnt x + 1)) x) ;;;
      ret ir
  | _ => ret ERR_OK
  end.

Definition FsOperatorCore (i : Z) : M T ERROR_CODE :=
  ir <- FsOperatorSwitch i ;;
  x <- st_at i ;;
  on_ref i (EncodingAppendOp (op_code (st_op x))) ;;;
  st_upd i (fun x => if bool_decide (st_result x = ERR_OK) then set_st_result ir x else x) ;;;
  if bool_decide (ir <> ERR_OK /\ ir <> ERR_NO_OPERATION) then throw (FsError ir) else ret ir.

(** * The operations that apply to a state *)

(** The array of operations and the number of those entered.  [strcpy_s] does
    not take a path that is too long. *)
Definition OpList : Type := (list TRACE_ENTRY * Z)%type.
Definition AddOp (op_size : Z) (f : TRACE_ENTRY -> TRACE_ENTRY) (g : OpList) : M T OpList :=
  let '(ops, index) := g in
  if op_size <=? index then throw ERR_APP else
  o <- opt (aget ops index) ;;
  check (Z.of_nat (length (te_path (f o))) <=? MAX_PATH_SIZE) ;;;
  ops' <- opt (aset ops index (f o)) ;;
  ret (ops', index + 1).
(** The four overloads; the last leaves the length what it was. *)
Definition op_on_path (c : OP_CODE) (path : cstring) (o : TRACE_ENTRY) : TRACE_ENTRY :=
  mkTrace c path [] 0 (op_sn o) 0 0.
Definition op_on_file (c : OP_CODE) (path : cstring) (fid offset len : Z) (o : TRACE_ENTRY) : TRACE_ENTRY :=
  mkTrace c path [] fid (op_sn o) offset len.
Definition op_on_fs (c : OP_CODE) (o : TRACE_ENTRY) : TRACE_ENTRY := mkTrace c [] [] 0 (op_sn o) 0 0.
Definition op_with_rollback (c : OP_CODE) (rollback : Z) (o : TRACE_ENTRY) : TRACE_ENTRY :=
  mkTrace c [] [] 0 (op_sn o) rollback (te_length o).

Definition GetFileNumber (r : CReferenceFs) : Z := w32 (MAX_FILE_NUM - m_free_num r).

(** The operations of one entry.  The two random numbers of a file are drawn and
    not used. *)
Definition GenerateOps_file (op_size file_nr : Z) (file : CRefFile) (g : OpList) : M T OpList :=
  let path := m_fn file in
  if m_is_dir file then
    let child_num := rf_size file in
    if m_max_child_num cfg <=? child_num then ret g else
    if w64 (m_max_dir_depth cfg - 1) <=? m_depth file then ret g else
    if MAX_FILE_NUM <=? file_nr then ret g else
    g <- AddOp op_size (op_on_path OP_FILE_CREATE path) g ;;
    g <- AddOp op_size (op_on_path OP_DIR_CREATE path) g ;;
    if bool_decide (path <> [BACKSLASH]) then
      g <- (if child_num =? 0 then AddOp op_size (op_on_path OP_DIR_DELETE path) g else ret g) ;;
      AddOp op_size (op_on_path OP_MOVE path) g
    else ret g
  else
    r1 <- rand ;;
    offset <- opt (scale_by_rand (rf_size file) r1) ;;
    r2 <- rand ;;
    opt (scale_by_rand (w32 (m_max_file_size cfg - offset)) r2) ;;;
    if m_is_open file then
      g <- (if m_ver file <? m_max_file_op cfg
            then AddOp op_size (op_on_file OP_FILE_WRITE path (rf_fid file) 0 (rf_size file)) g
            else ret g) ;;
      AddOp op_size (op_on_file OP_FILE_CLOSE path (rf_fid file) 0 0) g
    else
      g <- AddOp op_size (op_on_path OP_FILE_DELETE path) g ;;
      g <- AddOp op_size (op_on_path OP_FILE_OPEN path) g ;;
      AddOp op_size (op_on_path OP_MOVE path) g.

Definition GenerateOps (i : Z) (ops : list TRACE_ENTRY) (op_size : Z) : M T OpList :=
  x <- st_at i ;;
  let ref_fs := st_ref_fs x in
  let file_nr := GetFileNumber ref_fs in
  r <- mwhile (Z.to_nat (MAX_FILE_NUM + 1)) (m_used_list ref_fs, (ops, 0)) (fun st =>
    let '(ii, g) := st in
    if is_invalid32 ii then ret (Break st) else
    file <- opt (aget (m_files ref_fs) ii) ;;
    g <- GenerateOps_file op_size file_nr file g ;;
    ret (Next (rf_next file, g))) ;;
  g <- AddOp op_size (op_on_fs OP_DEMOUNT_MOUNT) r.2 ;;
  if negb (m_check_power_loss cfg) then ret g else
  if bool_decide (op_code (st_op x) = OP_FILE_WRITE)
  then AddOp op_size (op_with_rollback OP_POWER_OFF_RECOVER 0) g
  else
    io_nr <- on_real i fs_GetCacheNum ;;
    mloop (range 0 io_nr) g (fun g ii =>
      if op_size <=? g.2 then ret (Break g)
      else g <- AddOp op_size (op_with_rollback OP_POWER_OFF_RECOVER ii) g ;; ret (Next g)).

(** * The search *)

(** [m_open_list.insert(it, state)], where [rest] elements follow [it]. *)
Definition insert_before (rest : nat) (i : Z) (l : list Z) : list Z :=
  take (length l - rest) l ++ i :: drop (length l - rest) l.
Definition open_insert (rest : nat) (i : Z) : M T unit :=
  modify (fun s => set_open_list (insert_before rest i (m_open_list s)) s).

Definition CheckState (i : Z) : M T bool :=
  x <- st_at i ;; buf <- stack ;; on_closed (CheckAndInsert (m_opcode_len cfg) buf x).

Definition next_sn : M T Z :=
  s <- get ;; put (set_op_sn (w32 (m_op_sn s + 1)) s) ;;; ret (m_op_sn s).

(** [DoFsOperator]: duplicate the state, run the operation on the copy, keep the
    copy when it is new. *)
Definition DoFsOperator (cur : Z) (op : TRACE_ENTRY) (rest : nat) : M T ERROR_CODE :=
  new_state <- on_states (states_duplicate mem cur) ;;
  sn <- next_sn ;;
  st_upd new_state (set_st_op (set_te_sn sn op)) ;;;
  r <- try_catch (
    ir <- FsOperatorCore new_state ;;
    found <- CheckState new_state ;;
    if found : bool then on_states (states_put (Some new_state)) ;;; ret (Some ERR_OK, ir)
    else if bool_decide (ir = ERR_OK) then open_insert rest new_state ;;; ret (Some ERR_OK, ir)
    else ret (None, ir)) (fun _ => ret (None, ERR_GENERAL)) ;;
  match r with
  | (Some ir, _) => ret ir
  | (None, ir) => on_states (states_put (Some new_state)) ;;; ret ir
  end.

Definition max_update (v a : Z) : Z := if v <? a then a else v.
Definition min_update (v a : Z) : Z := if a <? v then a else v.
Definition UpdateFsParam (i : Z) : M T unit :=
  src_info <- on_real i fs_GetFsInfo ;;
  x <- st_at i ;;
  let file_nr := m_file_num (st_ref_fs x) in
  let dir_nr := m_dir_num (st_ref_fs x) in
  modify (fun s =>
    let m := m_stat s in
    set_stat (mkStat (max_update (ms_total_item_num m) (w32 (file_nr + dir_nr)))
      (max_update (ms_file_num m) file_nr) (max_update (ms_dir_num m) dir_nr)
      (max_update (ms_logical_blks m) (used_blk src_info))
      (max_update (ms_physical_blks m) (w32 (used_seg src_info * BLOCK_PER_SEG)))
      (main_blk_nr src_info)
      (min_update (ms_free_blks m) (free_blk src_info))
      (max_update (ms_host_write m) (host_write src_info))
      (max_update (ms_media_write m) (media_write src_info))) s).

Definition EnumerateOpV2 (ops : list TRACE_ENTRY) (op_size cur : Z) (rest : nat) : M T (ERROR_CODE * list TRACE_ENTRY) :=
  g <- GenerateOps cur ops op_size ;;
  ir <- mloop (range 0 g.2) ERR_OK (fun _ ii =>
    op <- opt (aget g.1 ii) ;;
    ir <- DoFsOperator cur op rest ;;
    ret (if bool_decide (ir <> ERR_OK) then Break ir else Next ERR_OK)) ;;
  when (bool_decide (ir = ERR_OK)) (UpdateFsParam cur) ;;;
  ret (ir, g.1).

(** ** With worker threads

    [DoFsOperator_Queue] prepares a state and submits it; [FsOperator_Callback]
    runs in a worker; the results are handled in the order in which the workers
    finish.  A callback works on a file system of its own and is one step here;
    its result is handled right after it. *)
Definition DoFsOperator_Queue (cur : Z) (op : TRACE_ENTRY) : M T Z :=
  on_states (state_add_ref cur) ;;;
  new_state <- on_states (states_get mem) ;;
  sn <- next_sn ;;
  st_upd new_state (set_st_op (set_te_sn sn op)) ;;;
  ret new_state.

Definition FsOperator_Callback (state src_state : Z) : M T ERROR_CODE :=
  on_states (DuplicateFrom state src_state) ;;;
  try_catch (FsOperatorCore state) (fun e => ret (code_of_exn e)).

(** The handling of one result; [err] is the first error that counts. *)
Definition HandleResult (state src_state : Z) (rest : nat) (result err : ERROR_CODE) : M T ERROR_CODE :=
  err <- (if bool_decide (result <> ERR_OK) then
      on_states (states_put (Some state)) ;;;
      ret (if bool_decide (result <> ERR_NO_OPERATION /\ result <> ERR_NO_SPACE /\
                           result <> ERR_MAX_OPEN_FILE /\ err = ERR_OK) then result else err)
    else
      found <- CheckState state ;;
      if found : bool then on_states (states_put (Some state)) ;;; ret err
      else open_insert rest state ;;; UpdateFsParam state ;;; ret err) ;;
  on_states (states_put (Some src_state)) ;;;
  ret err.

(** The operations that are run: [m_branch] random ones, or all. *)
Definition choose_ops (op_nr : Z) : M T (list Z) :=
  if 0 <? m_branch cfg then
    check (m_branch cfg <=? MAX_WORK_NR) ;;;
    mfold (range 0 (m_branch cfg)) [] (fun l _ => r <- rand ;; ret (l ++ [r mod op_nr]))
  else ret (range 0 (Z.min op_nr MAX_WORK_NR)).

Definition EnumerateOp_Thread_V2 (ops : list TRACE_ENTRY) (op_size cur : Z) (rest : nat) : M T (ERROR_CODE * list TRACE_ENTRY) :=
  g <- GenerateOps cur ops op_size ;;
  chosen <- choose_ops g.2 ;;
  works <- mfold chosen [] (fun l ii =>
    op <- opt (aget g.1 ii) ;; w <- DoFsOperator_Queue cur op ;; ret (l ++ [w])) ;;
  s <- get ;;
  err <- mfold (schedule_at (t_calls s) (seq 0 (length works))) ERR_OK (fun err k =>
    state <- opt (works !! k) ;;
    result <- FsOperator_Callback state cur ;;
    HandleResult state cur rest result err) ;;
  ret (err, g.1).

(** ** The loop *)
Definition s32 (x : Z) : Z := if x <? 2 ^ 31 then x else x - 2 ^ 32.

(** A new maximum of the depth keeps its state. *)
Definition note_depth (cur : Z) : M T unit :=
  x <- st_at cur ;;
  s <- get ;;
  let depth := s32 (st_depth x) in
  when (m_max_depth s <? depth) (
    match m_max_depth_state s with
    | Some old => on_states (states_put (Some old))
    | None => ret tt
    end ;;;
    modify (set_max_depth depth (Some cur)) ;;;
    on_states (state_add_ref cur)).

Definition RunTest_turn (st : ERROR_CODE * list TRACE_ENTRY) : M T (flow (ERROR_CODE * list TRACE_ENTRY)) :=
  s <- get ;;
  match m_open_list s with
  | [] => ret (Break st)
  | cur :: rest =>
      modify (set_open_list rest) ;;;
      note_depth cur ;;;
      if 0 <? m_stop_test s then on_states (states_put (Some cur)) ;;; ret (Break st) else
      x <- st_at cur ;;
      if m_test_depth cfg <=? s32 (st_depth x) then
        ir <- Verify cur ;;
        on_states (states_put (Some cur)) ;;;
        ret (Next (ir, st.2))
      else
        r <- (if 1 <? m_thread_num cfg
              then EnumerateOp_Thread_V2 st.2 MAX_WORK_NR cur (length rest)
              else EnumerateOpV2 st.2 MAX_WORK_NR cur (length rest)) ;;
        on_states (states_put (Some cur)) ;;;
        ret (if m_stop_on_error cfg && bool_decide (r.1 <> ERR_OK) then Break r else Next r)
  end.

(** [RunTest]; the array of operations is a local variable that is not
    initialized. *)
Definition RunTest (fuel : nat) (ops : list TRACE_ENTRY) : M T ERROR_CODE :=
  r <- mwhile fuel (ERR_OK, ops) RunTest_turn ;;
  s <- get ;;
  match m_max_depth_state s with
  | Some m =>
      on_states (states_put (Some m)) ;;;
      modify (set_max_depth (m_max_depth s) None)
  | None => ret tt
  end ;;;
  ret r.1.

(** [PreTest] with the file system [factory]. *)
Definition PreTest (factory : Z) : M T unit :=
  init_state <- on_states (states_get mem) ;;
  fs <- on_fs factory fs_Clone ;;
  on_states (state_Initialize init_state (Some fs)) ;;;
  modify (fun s => set_open_list (init_state :: m_open_list s) s) ;;;
  on_fs factory fs_GetFsInfo ;;;
  ret tt.

Definition FinishTest : M T unit :=
  s <- get ;;
  mfor (m_open_list s) (fun state => on_states (states_put (Some state))) ;;;
  modify (set_open_list []).

(** The body of the test thread. *)
Definition RunTest_thread (fuel : nat) (ops : list TRACE_ENTRY) (factory : Z) : M T ERROR_CODE :=
  ir <- try_catch (PreTest factory ;;; RunTest fuel ops) (fun _ => ret ERR_GENERAL) ;;
  FinishTest ;;;
  ret ir.

Definition StopTest : M T unit := modify (fun s => set_stop (m_stop_test s + 1) s).

(** A tester that has only been constructed. *)
Definition tester_new (w : W) : T :=
  mkTester (states_new true w) [] ∅ 0 0 None 0 (mkStat 0 0 0 0 0 0 INVALID32 0 0) 0 0.
End Tester.
