(* ===== verification/TesterInv.v ===== *)
(** TesterInv: the operations of the tester work on one state and leave the pool
    of states and the open list as they are; what one operation does when the
    simulator refuses it. *)
From S2P Require Export Tester StateMgrInv.

Create HintDb quiet.

Section Quiet.
Context {W : Type} `{FS : IFsSimulator W} `{EV : Env} `{EX : Exceptions} (mem : CFsState) (cfg : TestConfig).
Abbreviation T := (CExTester W).
Implicit Types s t : T.

(** What the operations on a state keep: parents, counts, depths and pointers to
    file systems, the free list, the open list and the codes met. *)
Definition links (x : CFsState) := (st_parent x, st_ref x, st_depth x, st_real_fs x).
Definition frame s :=
  (links <$> ss_states (m_states s), ss_free_list (m_states s), ss_free_nr (m_states s),
   ss_allocated (m_states s), m_duplicate_real_fs (m_states s),
   (m_open_list s, m_closed s, m_max_depth s, m_max_depth_state s, m_stop_test s)).
Definition same_frame s t : Prop := frame t = frame s.
#[export] Instance same_frame_preorder : PreOrder same_frame.
Proof. split; unfold same_frame; [done|]. intros a b c. congruence. Qed.
Abbreviation quiet := (keeps same_frame).

(** Reading a state, and writing what is not part of its links. *)
Lemma quiet_st_at i : quiet (st_at i).
Proof.
  intros s. unfold same_frame. apply wlp_zoom. unfold state_at, wlp, bind, get, opt.
  destruct (aget _ i); [|done]. cbn. by destruct s.
Qed.
Lemma quiet_st_upd i f : (forall x, links (f x) = links x) -> quiet (st_upd i f).
Proof.
  intros Hf s. unfold same_frame. apply wlp_zoom. unfold state_upd, wlp, bind, get, opt, put, ret, fault.
  destruct (aget _ i) as [x|] eqn:Hx; [|done]. cbn.
  destruct (aset _ i (f x)) as [l|] eqn:Hl; [|done]. cbn.
  apply aset_Some in Hl as [Hb ->].
  assert (links <$> <[Z.to_nat i:=f x]> (ss_states (m_states s)) = links <$> ss_states (m_states s)) as E.
  { rewrite list_fmap_insert. apply list_insert_id. rewrite Hf.
    apply aget_Some in Hx as [_ Hx]. by rewrite list_lookup_fmap, Hx. }
  unfold frame. cbn -[fmap]. by rewrite E.
Qed.
Lemma quiet_on_world {A} (m : M W A) : quiet (on_states (on_world m)).
Proof.
  intros s. apply wlp_zoom. apply wlp_zoom. unfold wlp. by destruct (m _) as [[a|e|] w].
Qed.
End Quiet.

#[export] Hint Resolve quiet_st_at quiet_on_world : quiet.

(** Follow the structure of a computation. *)
Ltac quiet := repeat lazymatch goal with
  | |- keeps _ (st_upd _ _) => apply quiet_st_upd; intros ?; try reflexivity
  | |- _ => keeps_step ltac:(eauto with quiet)
  end.

Section QuietOps.
Context {W : Type} `{FS : IFsSimulator W} `{EV : Env} `{EX : Exceptions} (mem : CFsState) (cfg : TestConfig).
Abbreviation T := (CExTester W).
Abbreviation quiet := (keeps (same_frame (W := W))).

Lemma quiet_on_ref {A} i (m : M CReferenceFs A) : quiet (on_ref i m).
Proof. unfold on_ref. quiet. Qed.
Lemma quiet_on_real {A} i (m : Z -> M W A) : quiet (on_real i m).
Proof. unfold on_real. quiet. Qed.
Lemma quiet_on_fs {A} h (m : Z -> M W A) : quiet (on_fs h m).
Proof. unfold on_fs. quiet. Qed.
Lemma quiet_rand : quiet rand.
Proof. by intros s. Qed.
Lemma quiet_stack : quiet stack.
Proof. by intros s. Qed.
End QuietOps.
#[export] Hint Resolve quiet_on_ref quiet_on_real quiet_on_fs quiet_rand quiet_stack : quiet.

Section QuietTests.
Context {W : Type} `{FS : IFsSimulator W} `{EV : Env} `{EX : Exceptions} (mem : CFsState) (cfg : TestConfig).
Abbreviation T := (CExTester W).
Abbreviation quiet := (keeps (same_frame (W := W))).

Lemma quiet_MakePathName i path : quiet (MakePathName i path).
Proof. unfold MakePathName, GenerateFn. quiet. Qed.
Lemma quiet_note_error i e : quiet (note_error i e).
Proof. unfold note_error. quiet. Qed.
Hint Resolve quiet_MakePathName quiet_note_error : quiet.
Lemma quiet_TestCreateFile i path : quiet (TestCreateFile i path).
Proof. unfold TestCreateFile. quiet. Qed.
Lemma quiet_TestCreateDir i path : quiet (TestCreateDir i path).
Proof. unfold TestCreateDir. quiet. Qed.
Lemma quiet_TestDeleteFile i path : quiet (TestDeleteFile i path).
Proof. unfold TestDeleteFile. quiet. Qed.
Lemma quiet_TestDeleteDir i path : quiet (TestDeleteDir i path).
Proof. unfold TestDeleteDir. quiet. Qed.
Lemma quiet_TestMoveFile i src dst : quiet (TestMoveFile i src dst).
Proof. unfold TestMoveFile. quiet. Qed.
Lemma quiet_TestWriteFileV2 i fid offset len path : quiet (TestWriteFileV2 i fid offset len path).
Proof. unfold TestWriteFileV2, ref_file_at. quiet. Qed.
Lemma quiet_TestOpenFile i path : quiet (TestOpenFile i path).
Proof. unfold TestOpenFile, ref_file_at. quiet. Qed.
Lemma quiet_TestCloseFile i fid path : quiet (TestCloseFile i fid path).
Proof. unfold TestCloseFile, ref_file_at. quiet. Qed.
Lemma quiet_VerifyState r h : quiet (VerifyState cfg r h).
Proof. unfold VerifyState, VerifyFiles, VerifyFile, verify_catch. quiet. Qed.
Hint Resolve quiet_TestCreateFile quiet_TestCreateDir quiet_TestDeleteFile quiet_TestDeleteDir
  quiet_TestMoveFile quiet_TestWriteFileV2 quiet_TestOpenFile quiet_TestCloseFile quiet_VerifyState : quiet.
Lemma quiet_Verify i : quiet (Verify cfg i).
Proof. unfold Verify. quiet. Qed.
Lemma quiet_VerifyForPower i : quiet (VerifyForPower cfg i).
Proof. unfold VerifyForPower. quiet. Qed.
Hint Resolve quiet_Verify quiet_VerifyForPower : quiet.
Lemma quiet_TestMount i : quiet (TestMount cfg i).
Proof. unfold TestMount. quiet. Qed.
Lemma quiet_TestPowerOutage i n : quiet (TestPowerOutage cfg i n).
Proof. unfold TestPowerOutage. quiet. Qed.
Hint Resolve quiet_TestMount quiet_TestPowerOutage : quiet.
Lemma quiet_op_upd i f : quiet (op_upd i f).
Proof. unfold op_upd. quiet. Qed.
Hint Resolve quiet_op_upd : quiet.
Lemma quiet_FsOperatorSwitch i : quiet (FsOperatorSwitch cfg i).
Proof. unfold FsOperatorSwitch. quiet. Qed.
Hint Resolve quiet_FsOperatorSwitch : quiet.
Lemma quiet_FsOperatorCore i : quiet (FsOperatorCore cfg i).
Proof. unfold FsOperatorCore. quiet. by case_bool_decide. Qed.
Lemma quiet_AddOp n f g : quiet (AddOp n f g).
Proof. unfold AddOp. quiet. Qed.
Hint Resolve quiet_AddOp : quiet.
Lemma quiet_GenerateOps i ops n : quiet (GenerateOps cfg i ops n).
Proof. unfold GenerateOps, GenerateOps_file. quiet. Qed.
Lemma quiet_choose_ops n : quiet (choose_ops cfg n).
Proof. unfold choose_ops. quiet. Qed.
Lemma quiet_next_sn : quiet next_sn.
Proof. by intros s. Qed.
Lemma quiet_set_stat f : quiet (modify (fun s => set_stat (f s) s)).
Proof. by intros s. Qed.
Hint Resolve quiet_set_stat : quiet.
Lemma quiet_UpdateFsParam i : quiet (UpdateFsParam i).
Proof. unfold UpdateFsParam. quiet. Qed.
End QuietTests.
#[export] Hint Resolve quiet_FsOperatorCore quiet_GenerateOps quiet_choose_ops quiet_next_sn
  quiet_UpdateFsParam quiet_Verify : quiet.

(** * An operation that the simulator refuses *)
Section Refused.
Context {W : Type} `{FS : IFsSimulator W} `{EV : Env} `{EX : Exceptions}.
Abbreviation T := (CExTester W).
Implicit Types s t : T.

(** The tester after a state has recorded the error [c], with the file systems
    in [w]. *)
Definition recorded (i : Z) (x : CFsState) (c : ERROR_CODE) (w : W) s : T :=
  set_m_states (set_states (<[Z.to_nat i := set_st_result c x]> (ss_states (m_states s))) (set_world w (m_states s))) s.
(** A call that creates an entry, or moves one, and is refused for lack of room. *)
Definition refuses_create (m : M W (ERROR_CODE * Z)) (c : ERROR_CODE) (w w' : W) : Prop :=
  (c = ERR_NO_SPACE \/ c = ERR_MAX_OPEN_FILE) /\
  (fst (m w) = Throw (FsError c) \/ exists fid, fst (m w) = Ret (c, fid)) /\ snd (m w) = w'.

Lemma on_real_eq {A} i x h (m : Z -> M W A) s : aget (ss_states (m_states s)) i = Some x -> st_real_fs x = Some h ->
  on_real i m s = (fst (m h (ss_world (m_states s))), set_m_states (set_world (snd (m h (ss_world (m_states s)))) (m_states s)) s).
Proof.
  intros Hx Hh. unfold on_real, st_at, on_states, zoom, state_at, bind, get, opt. rewrite Hx. cbn. rewrite Hh. cbn.
  unfold on_world, zoom. destruct s as [u]. cbn. by destruct (m h (ss_world u)).
Qed.
Lemma st_upd_eq i x f s : aget (ss_states (m_states s)) i = Some x ->
  st_upd i f s = (Ret tt, set_m_states (set_states (<[Z.to_nat i := f x]> (ss_states (m_states s))) (m_states s)) s).
Proof.
  intros Hx. unfold st_upd, on_states, zoom. pose proof (state_upd_runs (m_states s) i x f Hx) as H. unfold runs in H.
  by rewrite H.
Qed.

Lemma st_upd_again i x y f s w : aget (ss_states (m_states s)) i = Some x ->
  let s' := set_m_states (set_states (<[Z.to_nat i := y]> (ss_states (m_states s))) (set_world w (m_states s))) s in
  st_upd i f s' =
  (Ret tt, set_m_states (set_states (<[Z.to_nat i := f y]> (ss_states (m_states s))) (set_world w (m_states s))) s).
Proof.
  intros Hx s'. pose proof (aget_bounds _ _ _ Hx) as Hb. rewrite (st_upd_eq i y); [|by apply aget_insert_eq].
  unfold s'. cbn. unfold set_states. cbn. by rewrite list_insert_insert_eq.
Qed.

(** C26: a creation that the simulator refuses for lack of space or of open files,
    by a code or by an exception, is no operation for the tester: it returns
    [ERR_NO_OPERATION], which the search does not report, the reference file
    system and all other states are as before, and the state records the
    error. *)
Theorem create_refused i path s x h c w' :
  aget (ss_states (m_states s)) i = Some x -> st_real_fs x = Some h ->
  (refuses_create (fs_FileCreate h path) c (ss_world (m_states s)) w' ->
   runs (TestCreateFile i path) s ERR_NO_OPERATION (recorded i x c w' s)) /\
  (refuses_create (fs_DirCreate h path) c (ss_world (m_states s)) w' ->
   runs (TestCreateDir i path) s ERR_NO_OPERATION (recorded i x c w' s)).
Proof.
  intros Hx Hh. split; intros (Hc & Hr & <-);
    assert (c <> ERR_OK) as Hok by (by destruct Hc as [-> | ->]);
    assert (c = ERR_MAX_OPEN_FILE \/ c = ERR_NO_SPACE) as Hc' by tauto.
  - unfold runs, TestCreateFile, bind at 1, try_catch. rewrite (on_real_eq i x h _ s Hx Hh).
    destruct Hr as [Hr|[fid Hr]]; rewrite Hr; cbn [code_of_exn ret]; cbn beta iota;
      rewrite (bool_decide_true (c <> ERR_OK)) by done; cbn [when]; unfold bind at 1;
      rewrite (st_upd_eq _ x) by exact Hx; by rewrite (bool_decide_true _ Hc').
  - unfold runs, TestCreateDir, bind at 1, try_catch. rewrite (on_real_eq i x h _ s Hx Hh).
    destruct Hr as [Hr|[fid Hr]]; rewrite Hr; cbn beta iota; [unfold note_error at 1; unfold bind at 1 2|].
    + rewrite (st_upd_eq _ x) by exact Hx. unfold ret at 1 2. cbn beta iota. rewrite (bool_decide_true _ Hc').
      refine (runs_bind _ _ _ _ _ _ _ (st_upd_again i x _ _ s _ Hx) eq_refl).
    + rewrite (bool_decide_true _ Hc'). unfold bind at 1. by rewrite (st_upd_eq _ x) by exact Hx.
Qed.
End Refused.

(** A file system without room. *)
Definition full_state : CFsState := set_st_real_fs (Some 7) (CFsState_new state_memory).
Definition full_tester : CExTester Z := set_m_states (mkStates [full_state] None 0 1 true 9) (tester_new 9).
Lemma create_refused_witness :
  runs (TestCreateFile (FS := stub_fs) 0 [BACKSLASH; 65]) full_tester ERR_NO_OPERATION (recorded 0 full_state ERR_NO_SPACE 9 full_tester) /\
  runs (TestCreateDir (FS := stub_fs) 0 [BACKSLASH; 65]) full_tester ERR_NO_OPERATION (recorded 0 full_state ERR_NO_SPACE 9 full_tester).
Proof.
  assert (forall m : M Z (ERROR_CODE * Z), m = ret (ERR_NO_SPACE, INVALID16) -> refuses_create m ERR_NO_SPACE 9 9) as H.
  { intros m ->. split; [by left|]. split; [|done]. right. by exists INVALID16. }
  destruct (create_refused (FS := stub_fs) 0 [BACKSLASH; 65] full_tester full_state 7 ERR_NO_SPACE 9 eq_refl eq_refl) as [H1 H2].
  split; [apply H1|apply H2]; by apply H.
Defined.
