(* ===== verification/SearchInv.v ===== *)
(** SearchInv: the search gives back every state it takes.

    Numbers of states are compared with 32-bit reference counts: the statements
    are about runs that allocate fewer than [2 ^ 31 - 4096] states. *)
From S2P Require Export TesterInv.

(** * The pool during a search *)
Section PoolInv.
Context {W : Type} `{FS : IFsSimulator W} (mem : CFsState).
Abbreviation SM := (CStateManager W).
Implicit Types (u v : SM) (R F L fl : list Z) (g : Z -> Z).

Definition fits u : Prop := Z.of_nat (length (ss_states u)) < 2 ^ 31 - 4096.
Definition grew u v : Prop := (length (ss_states u) <= length (ss_states v))%nat.
#[export] Instance grew_preorder : PreOrder grew.
Proof. split; unfold grew; [intros u; lia|intros a b c; lia]. Qed.

Lemma fits_grew u v : grew u v -> fits v -> fits u.
Proof. unfold grew, fits. lia. Qed.

Definition depth_at (sts : list CFsState) (i d : Z) : Prop := exists x, aget sts i = Some x /\ st_depth x = d.

(** [R]: the references held; [F]: states among them that are new, without
    parent and without children; [g]: the depths of the others. *)
Definition counted g R F u : Prop := exists L fl, pool_ok u R L fl /\ m_duplicate_real_fs u = true /\
  (forall i, i ∈ F -> i ∈ R /\ parent_of (ss_states u) i = [] /\ i ∉ L ≫= parent_of (ss_states u)) /\
  (forall i, i ∈ R -> i ∉ F -> depth_at (ss_states u) i (g i)).

(** The bound on the references held. *)
Definition few R : Prop := Z.of_nat (length R) < 2 ^ 31.

Lemma counted_perm g R R' F u : R ≡ₚ R' -> counted g R F u -> counted g R' F u.
Proof.
  intros HR (L & fl & H & Hd & HF & Hg). exists L, fl. split_and!; [by eapply pool_ok_perm|done|..].
  - intros i Hi. rewrite <- HR. by apply HF.
  - intros i Hi. rewrite <- HR in Hi. by apply Hg.
Qed.
Lemma counted_news g R F F' u : F ≡ₚ F' -> counted g R F u -> counted g R F' u.
Proof.
  intros HF (L & fl & H & Hd & Hi & Hg). exists L, fl. split_and!; [done|done|..]; intros i; rewrite <- HF; [apply Hi|apply Hg].
Qed.
(** The depth of a state, once it is of interest. *)
Definition with_depth g i d : Z -> Z := fun j => if decide (j = i) then d else g j.
Lemma with_depth_eq g i d : with_depth g i d i = d.
Proof. unfold with_depth. by rewrite decide_True. Qed.
Lemma with_depth_ne g i d j : j <> i -> with_depth g i d j = g j.
Proof. intros H. unfold with_depth. by rewrite decide_False. Qed.
Lemma counted_known g i d R F u : depth_at (ss_states u) i d -> counted g R (i :: F) u -> counted (with_depth g i d) R F u.
Proof.
  intros Hd (L & fl & H & Hdup & HF & Hg). exists L, fl. split_and!; [done|done|..].
  - intros j Hj. apply HF. set_solver.
  - intros j Hj HjF. destruct (decide (j = i)) as [->|Hne]; [by rewrite with_depth_eq|].
    rewrite with_depth_ne by done. apply Hg; set_solver.
Qed.
Lemma depth_at_same sts sts' i d : aget sts' i = aget sts i -> depth_at sts i d -> depth_at sts' i d.
Proof. unfold depth_at. by intros ->. Qed.
Lemma depth_at_kept L sts sts' i d : states_kept L sts sts' -> i ∈ L -> depth_at sts i d -> depth_at sts' i d.
Proof.
  intros H Hi (z & Hz & Hd). destruct (H i Hi) as (x & y & Hx & Hy & (_&_&_&_&Hxy&_)). simplify_eq.
  exists y. by split.
Qed.

Lemma parent_of_eq sts sts' i x : aget sts i = Some x -> aget sts' i = Some x -> parent_of sts' i = parent_of sts i.
Proof. intros H H'. unfold parent_of. by rewrite H, H'. Qed.
Lemma parent_of_kept L sts sts' i : states_kept L sts sts' -> i ∈ L -> parent_of sts' i = parent_of sts i.
Proof.
  intros H Hi. destruct (H i Hi) as (x & y & Hx & Hy & (_&_&_&Hp&_)). unfold parent_of. by rewrite Hx, Hy, Hp.
Qed.
Lemma parents_kept L L' sts sts' j : states_kept L' sts sts' -> L' ⊆ L ->
  j ∈ L' ≫= parent_of sts' -> j ∈ L ≫= parent_of sts.
Proof.
  intros Hk Hs (k & Hj & HkL)%list_elem_of_bind. apply list_elem_of_bind. exists k.
  rewrite (parent_of_kept _ _ _ _ Hk HkL) in Hj. split; [done|by apply Hs].
Qed.

(** ** The operations on the pool *)
Lemma get_counted g R F u : counted g R F u ->
  wp (states_get mem) (fun i v => counted g (i :: R) (i :: F) v /\ i ∉ R) (fun _ _ => False) u.
Proof.
  intros (L & fl & H & Hd & HF & Hg).
  destruct (states_get_spec mem u R L fl H) as (i & y & v & fl' & Hr & Hv & Hi & Hy & Hp & Hsame & _ & _ & Hdv & _).
  eapply runs_wp; [exact Hr|]. split; [|by intros Hin; apply Hi, (po_roots _ _ _ _ H)].
  exists (i :: L), fl'. split_and!; [done|congruence|..].
  2:{ intros j Hj HjF. apply (depth_at_same (ss_states u)); [apply Hsame, (po_roots _ _ _ _ H)|apply Hg]; set_solver. }
  assert (parent_of (ss_states v) i = []) as Hpi by (unfold parent_of; by rewrite Hy, Hp).
  assert (L ≫= parent_of (ss_states v) = L ≫= parent_of (ss_states u)) as HL.
  { assert (forall l, l ⊆ L -> l ≫= parent_of (ss_states v) = l ≫= parent_of (ss_states u)) as E; [|by apply E].
    intros l. induction l as [|j l IH]; [done|]. intros Hs. cbn. rewrite IH by set_solver. f_equal.
    unfold parent_of. by rewrite Hsame by set_solver. }
  intros j Hj. cbn. rewrite Hpi, HL. cbn. apply elem_of_cons in Hj as [->|Hj].
  - split_and!; [set_solver|done|]. intros Hin. eapply Hi, order_closed; [apply (po_order _ _ _ _ H)|done].
  - destruct (HF j Hj) as (HjR & Hjp & Hjn). split_and!; [set_solver| |done].
    unfold parent_of. rewrite Hsame by (by apply (po_roots _ _ _ _ H)). exact Hjp.
Qed.

Lemma put_counted g i R F u : counted g (i :: R) F u -> fits u -> few R -> i ∉ F ->
  wp (states_put (Some i)) (fun _ v => counted g R F v /\ length (ss_states v) = length (ss_states u)) (fun _ _ => False) u.
Proof.
  intros (L & fl & H & Hd & HF & Hg) Hfit Hfew Hi.
  destruct (states_put_spec u i R L fl H) as (v & L' & fl' & Hr & Hv & Hs & Hk & Hlen & Hdv & _); [|done|].
  { unfold pool_room, fits, few in *. cbn [length]. lia. }
  eapply runs_wp; [exact Hr|]. split; [|done]. exists L', fl'. split_and!; [done|done|..].
  2:{ intros j Hj HjF. apply (depth_at_kept L' (ss_states u)); [done|by apply (po_roots _ _ _ _ Hv)|apply Hg; set_solver]. }
  intros j Hj.
  destruct (HF j Hj) as (HjR & Hjp & Hjn). assert (j ∈ R) as HjR' by set_solver. split_and!; [done| |].
  - rewrite (parent_of_kept _ _ _ _ Hk); [done|]. by apply (po_roots _ _ _ _ Hv).
  - intros Hin. apply Hjn. by eapply parents_kept.
Qed.

Lemma add_ref_counted g i R F u : counted g R F u -> fits u -> few R -> i ∈ R ->
  wp (state_add_ref i) (fun _ v => counted g (i :: R) F v) (fun _ _ => False) u.
Proof.
  intros (L & fl & H & Hd & HF & Hg) Hfit Hfew Hi.
  destruct (state_add_ref_spec u R L fl i H) as (v & Hr & Hv & Hk & Hsame);
    [unfold pool_room, fits, few in *; lia|by apply (po_roots _ _ _ _ H)|].
  eapply runs_wp; [exact Hr|]. exists L, fl. split_and!; [done|by rewrite <- Hsame in Hd|..].
  2:{ intros j Hj HjF. assert (j ∈ R) by set_solver.
      apply (depth_at_kept L (ss_states u)); [done|by apply (po_roots _ _ _ _ H)|by apply Hg]. }
  intros j Hj. destruct (HF j Hj) as (HjR & Hjp & Hjn). split_and!; [set_solver| |].
  - rewrite (parent_of_kept _ _ _ _ Hk); [done|]. by apply (po_roots _ _ _ _ H).
  - intros Hin. apply Hjn. by eapply parents_kept.
Qed.

(** A new state can be put first among the live ones. *)
Lemma pool_first u R L fl i : pool_ok u R L fl -> i ∈ L -> parent_of (ss_states u) i = [] ->
  i ∉ L ≫= parent_of (ss_states u) -> exists L', L ≡ₚ i :: L' /\ i ∉ L' /\ pool_ok u R (i :: L') fl.
Proof.
  intros H Hi Hp Hno. destruct (list_elem_of_split _ _ Hi) as (L1 & L2 & ->). exists (L1 ++ L2).
  assert (L1 ++ i :: L2 ≡ₚ i :: L1 ++ L2) as HL by (by rewrite Permutation_middle).
  destruct H as [Hnd Hall Hl Hr Ho Hf Hn Ha]. split_and!; [done| |].
  - apply NoDup_app in Hnd as [Hnd _]. rewrite HL in Hnd. by apply NoDup_cons in Hnd as [? _].
  - constructor; try done.
    + by rewrite <- HL.
    + intros j. rewrite <- Hall. by rewrite HL.
    + intros j Hj. rewrite <- HL in Hj. destruct (Hl j Hj) as (x & Hx & Hc & Hpos). exists x. split_and!; [done| |done].
      rewrite Hc. apply cnt_perm. unfold held_refs. by rewrite HL.
    + intros j Hj. rewrite <- HL. by apply Hr.
    + split; [rewrite Hp; set_solver|]. eapply order_drop; [done|].
      rewrite bind_app in Hno. set_solver.
Qed.

Lemma DuplicateFrom_counted g i src R F u : counted g R (i :: F) u -> fits u -> few R -> src ∈ R -> src ∉ i :: F -> i ∉ F ->
  wlp (DuplicateFrom i src) (fun _ v => counted (with_depth g i (w32 (g src + 1))) R F v) (fun _ _ => True) u.
Proof.
  intros (L & fl & H & Hd & HF & Hg) Hfit Hfew Hsrc HsF HiF.
  destruct (HF i ltac:(set_solver)) as (HiR & Hip & Hin).
  destruct (pool_first u R L fl i H (po_roots _ _ _ _ H _ HiR) Hip Hin) as (L' & HL & HiL & H').
  destruct (elem_of_Permutation R i) as [[R' HR] _]; [done|].
  apply (pool_ok_perm _ _ (i :: R')) in H'; [|done].
  destruct (po_live _ _ _ _ H' i ltac:(set_solver)) as (x & Hx & _).
  assert (src ∈ L') as HsL.
  { assert (src ∈ i :: L'); [|set_solver]. apply (po_roots _ _ _ _ H'). by rewrite <- HR. }
  destruct (po_live _ _ _ _ H' src ltac:(set_solver)) as (y & Hy & _).
  assert (st_parent x = None) as Hxp by (unfold parent_of in Hip; rewrite Hx in Hip; by destruct (st_parent x)).
  (* the copy of the file system decides how the computation goes on *)
  unfold wlp. destruct (DuplicateFrom i src u) as [[[]|e|] v] eqn:Hrun; [|done|done].
  assert (exists h n w', st_real_fs y = Some h /\ copied u (st_real_fs x) h n w') as (h & n & w' & Hh & Hcp).
  { unfold DuplicateFrom in Hrun. unfold bind at 1 in Hrun. rewrite (state_at_runs _ _ _ Hy) in Hrun. cbn beta iota in Hrun.
    unfold bind at 1 in Hrun. rewrite (state_upd_runs _ _ _ _ Hx) in Hrun. cbn beta iota in Hrun.
    unfold bind at 1 in Hrun. pose proof (aget_bounds _ _ _ Hx).
    rewrite (state_at_runs _ _ (set_st_ref_fs (st_ref_fs y) x)) in Hrun by (cbn; by apply aget_insert_eq). cbn beta iota in Hrun.
    destruct (st_real_fs y) as [h|]; [|done]. unfold bind at 1 in Hrun. cbn [opt ret] in Hrun.
    change (st_real_fs (set_st_ref_fs (st_ref_fs y) x)) with (st_real_fs x) in Hrun. unfold bind at 1 in Hrun.
    destruct (st_real_fs x) as [m|].
    - unfold on_world, zoom in Hrun. cbn [ss_world set_states] in Hrun.
      destruct (fs_CopyFrom m h (ss_world u)) as [[[]|e|] w'] eqn:E; [|done|done]. by exists h, m, w'.
    - unfold on_world, zoom in Hrun. unfold bind at 1 in Hrun. cbn [ss_world set_states] in Hrun.
      destruct (fs_Clone h (ss_world u)) as [[n|e|] w'] eqn:E; [|done|done]. by exists h, n, w'. }
  destruct (DuplicateFrom_spec u R' L' fl i x src y h n w' H') as (v' & z & Hr & Hv & Hz & _ & _ & Hzp & Hzd & _ & _ & Hk & _ & Hdv & _);
    try done.
  { unfold pool_room, fits, few in *. apply Permutation_length in HR. rewrite HR in Hfew. lia. }
  unfold runs in Hr. rewrite Hr in Hrun. simplify_eq.
  exists (i :: L'), fl. split_and!; [by eapply pool_ok_perm|congruence|..].
  2:{ intros j Hj HjF. destruct (decide (j = i)) as [->|Hne].
      - rewrite with_depth_eq. exists z. split; [done|]. destruct (Hg src) as (y' & Hy' & Hyd); [done|set_solver|]. simplify_eq. by rewrite Hzd, Hyd.
      - rewrite with_depth_ne by done. apply (depth_at_kept L' (ss_states u)); [done| |apply Hg; set_solver].
        apply (po_roots _ _ _ _ H) in Hj. rewrite HL in Hj. set_solver. }
  intros j Hj.
  destruct (HF j ltac:(set_solver)) as (HjR & Hjp & Hjn).
  assert (j ≠ i) by (intros ->; done).
  assert (j ∈ L') as HjL by (apply (po_roots _ _ _ _ H) in HjR; rewrite HL in HjR; set_solver).
  split_and!; [done|by rewrite (parent_of_kept _ _ _ _ Hk)|]. cbn. rewrite elem_of_app. intros [Hin'|Hin'].
  - unfold parent_of in Hin'. rewrite Hz, Hzp in Hin'. cbn in Hin'. set_solver.
  - apply Hjn. rewrite HL. cbn. rewrite elem_of_app. right. eapply (parents_kept L' L'); done.
Qed.
End PoolInv.

(** * The search *)
Section Search.
Context {W : Type} `{FS : IFsSimulator W} `{EV : Env} `{EX : Exceptions} (mem : CFsState) (cfg : TestConfig) (track : Prop).
Abbreviation T := (CExTester W).
Implicit Types (s t : T) (X F : list Z).

Definition tfits s : Prop := fits (m_states s).
Definition tgrew s t : Prop := grew (m_states s) (m_states t).
#[export] Instance tgrew_preorder : PreOrder tgrew.
Proof. split; unfold tgrew; [by intros s|]. intros a b c. apply (grew_preorder (W := W)). Qed.
Abbreviation growing := (keeps tgrew).

(** The references held: by local variables ([X]), the open list and the deepest
    state. *)
Definition held X s : list Z := X ++ m_open_list s ++ option_list (m_max_depth_state s).

(** A bound on the turns that the states of the open list still cost: a state
    one level above the greatest depth has at most [MAX_WORK_NR] children. *)
Definition weight (d : Z) : Z := 513 ^ (m_test_depth cfg - d).
Definition cost (g : Z -> Z) (l : list Z) : Z := foldr (fun i c => weight (g i) + c) 0 l.

(** [kd]: the state being expanded and its depth; [b]: a bound on the cost of the
    open list, followed when [track] holds; [N]: new states that are not in the
    open list yet. *)
Definition search_ok (kd : Z * Z) (b : Z) X N F s : Prop := exists g,
  counted g (held X s) F (m_states s) /\ NoDup (m_open_list s ++ N) /\ (length X <= 2048)%nat /\
  (kd.1 ∈ X -> kd.1 ∉ F -> g kd.1 = kd.2) /\ (forall i, i ∈ N -> i ∉ F -> g i = w32 (kd.2 + 1)) /\
  (track -> cost g (m_open_list s) <= b /\ forall i, i ∈ m_open_list s -> 0 <= g i <= m_test_depth cfg).

Lemma held_few kd b X N F s : search_ok kd b X N F s -> tfits s -> few (held X s).
Proof.
  intros (g & (L & fl & H & _ & _) & [Hnd _]%NoDup_app & HX & _) Hf. unfold few, held, tfits, fits in *. rewrite !length_app.
  assert (Z.of_nat (length (m_open_list s)) <= Z.max 0 (Z.of_nat (length (ss_states (m_states s))))) as Ho.
  { apply NoDup_bounded; [done|]. intros i Hi. apply (po_all _ _ _ _ H). apply elem_of_app. left.
    apply (po_roots _ _ _ _ H). unfold held. set_solver. }
  destruct (m_max_depth_state s); cbn; lia.
Qed.
Lemma few_sub (R R' : list Z) : few R -> (length R' <= length R)%nat -> few R'.
Proof. unfold few. lia. Qed.

(** ** Reasoning about runs that stay below the bound *)
Definition gwp {A} (m : M T A) (Q : A -> T -> Prop) (QE : exn -> T -> Prop) s : Prop :=
  wlp m (fun a t => tfits t -> Q a t) (fun e t => tfits t -> QE e t) s.

Lemma growing_fits {A} (m : M T A) Q QE t : growing m -> ~ tfits t -> gwp m Q QE t.
Proof.
  intros Hg Hn. eapply wlp_mono; [apply Hg|..]; intros ? u Hu Hf; exfalso; apply Hn; by exact (fits_grew _ _ Hu Hf).
Qed.
Lemma tfits_dec s : {tfits s} + {~ tfits s}.
Proof. unfold tfits, fits. apply Z_lt_dec. Qed.

Lemma gwp_ret {A} (a : A) (Q : A -> T -> Prop) QE s : Q a s -> gwp (ret a) Q QE s.
Proof. by intros H Hf. Qed.
Lemma gwp_throw {A} e (Q : A -> T -> Prop) (QE : exn -> T -> Prop) s : QE e s -> gwp (throw e) Q QE s.
Proof. by intros H Hf. Qed.
Lemma gwp_mono {A} (m : M T A) (Q Q' : A -> T -> Prop) (QE QE' : exn -> T -> Prop) s :
  gwp m Q QE s -> (forall a t, Q a t -> Q' a t) -> (forall e t, QE e t -> QE' e t) -> gwp m Q' QE' s.
Proof. intros H H1 H2. eapply wlp_mono; [exact H|..]; intros ? t Ht Hf; [apply H1|apply H2]; by apply Ht. Qed.
Lemma gwp_bind {A B} (m : M T A) (k : A -> M T B) (P : A -> T -> Prop) Q QE s :
  gwp m P QE s -> (forall a, growing (k a)) -> (forall a t, tfits t -> P a t -> gwp (k a) Q QE t) ->
  gwp (bind m k) Q QE s.
Proof.
  intros Hm Hg Hk. apply wlp_bind. eapply wlp_mono; [exact Hm| |done]. intros a t Ht.
  destruct (tfits_dec t) as [Hf|Hf]; [by apply Hk; [|apply Ht]|by apply growing_fits].
Qed.
Lemma gwp_try {A} (m : M T A) (h : exn -> M T A) Q (QE' QE : exn -> T -> Prop) s :
  gwp m Q QE' s -> (forall e, growing (h e)) -> (forall e t, tfits t -> QE' e t -> gwp (h e) Q QE t) ->
  gwp (try_catch m h) Q QE s.
Proof.
  intros Hm Hg Hk. apply wlp_try. eapply wlp_mono; [exact Hm|done|]. intros e t Ht.
  destruct (tfits_dec t) as [Hf|Hf]; [by apply Hk; [|apply Ht]|by apply growing_fits].
Qed.
Lemma gwp_mwhile {A} fuel (a0 : A) body (Inv Q : A -> T -> Prop) QE s :
  Inv a0 s -> (forall a, growing (body a)) ->
  (forall a t, tfits t -> Inv a t ->
     gwp (body a) (fun f u => match f with Next a' => Inv a' u | Break a' => Q a' u end) QE t) ->
  gwp (mwhile fuel a0 body) Q QE s.
Proof.
  intros H0 Hg Hs. revert a0 s H0. induction fuel as [|fuel IH]; intros a0 s H0; cbn [mwhile]; [done|].
  destruct (tfits_dec s) as [Hf|Hf].
  - eapply gwp_bind; [by apply Hs| |].
    + intros [a|a]; [apply keeps_mwhile; [typeclasses eauto|done]|apply keeps_ret; typeclasses eauto].
    + intros [a|a] t Ht Hi; [by apply IH|by apply gwp_ret].
  - apply (growing_fits (mwhile (S fuel) a0 body)); [|done]. apply keeps_mwhile; [typeclasses eauto|done].
Qed.
Lemma gwp_mfold {I A} (l : list I) (a0 : A) body (Inv : list I -> A -> T -> Prop) QE s :
  Inv l a0 s -> (forall a i, growing (body a i)) ->
  (forall a i l' t, tfits t -> Inv (i :: l') a t -> gwp (body a i) (Inv l') QE t) ->
  gwp (mfold l a0 body) (Inv []) QE s.
Proof.
  intros H0 Hg Hs. revert a0 s H0. induction l as [|i l IH]; intros a0 s H0; cbn [mfold]; [by apply gwp_ret|].
  destruct (tfits_dec s) as [Hf|Hf].
  - eapply gwp_bind; [by apply Hs| |]; [intros a; apply keeps_mfold; [typeclasses eauto|done]|].
    intros a t Ht Hi. by apply IH.
  - apply (growing_fits (mfold (i :: l) a0 body)); [|done]. apply keeps_mfold; [typeclasses eauto|done].
Qed.
Lemma gwp_mloop {I A} (l : list I) (a0 : A) body (Inv : list I -> A -> T -> Prop) (Q : A -> T -> Prop) QE s :
  Inv l a0 s -> (forall a i, growing (body a i)) -> (forall a t, Inv [] a t -> Q a t) ->
  (forall a i l' t, tfits t -> Inv (i :: l') a t ->
     gwp (body a i) (fun f u => match f with Next a' => Inv l' a' u | Break a' => Q a' u end) QE t) ->
  gwp (mloop l a0 body) Q QE s.
Proof.
  intros H0 Hg HQ Hs. revert a0 s H0. induction l as [|i l IH]; intros a0 s H0; cbn [mloop]; [by apply gwp_ret, HQ|].
  destruct (tfits_dec s) as [Hf|Hf].
  - eapply gwp_bind; [by apply Hs| |].
    + intros [a|a]; [apply keeps_mloop; [typeclasses eauto|done]|apply keeps_ret; typeclasses eauto].
    + intros [a|a] t Ht Hi; [by apply IH|by apply gwp_ret].
  - apply (growing_fits (mloop (i :: l) a0 body)); [|done]. apply keeps_mloop; [typeclasses eauto|done].
Qed.

(** ** What only looks at the pool *)
Lemma frame_parts s t : frame t = frame s ->
  links <$> ss_states (m_states t) = links <$> ss_states (m_states s) /\
  ss_free_list (m_states t) = ss_free_list (m_states s) /\ ss_free_nr (m_states t) = ss_free_nr (m_states s) /\
  ss_allocated (m_states t) = ss_allocated (m_states s) /\
  m_duplicate_real_fs (m_states t) = m_duplicate_real_fs (m_states s) /\
  m_open_list t = m_open_list s /\ m_closed t = m_closed s /\ m_max_depth t = m_max_depth s /\
  m_max_depth_state t = m_max_depth_state s /\ m_stop_test t = m_stop_test s.
Proof. unfold frame. intros H. injection H as. by split_and!. Qed.

(** What ties a state to others. *)
Definition ties (x : CFsState) := (st_parent x, st_ref x, st_depth x).
Lemma links_ties (l l' : list CFsState) : links <$> l' = links <$> l -> ties <$> l' = ties <$> l.
Proof.
  intros E. apply (f_equal (fmap (fun k : _ * Z * Z * _ => let '(p, r, d, _) := k in (p, r, d)))) in E.
  by rewrite <- !list_fmap_compose in E.
Qed.
Lemma aget_ties (l l' : list CFsState) i x : ties <$> l' = ties <$> l -> aget l i = Some x ->
  exists x', aget l' i = Some x' /\ ties x' = ties x.
Proof.
  intros E [Hi Hx]%aget_Some. pose proof (f_equal (fun z => z !! Z.to_nat i) E) as Hk. cbn beta in Hk.
  rewrite !list_lookup_fmap, Hx in Hk. destruct (l' !! Z.to_nat i) as [x'|] eqn:E'; [|done].
  exists x'. cbn in Hk. injection Hk as Hk. split; [by apply aget_Some|]. unfold ties. congruence.
Qed.
Lemma parent_of_ties (l l' : list CFsState) i : ties <$> l' = ties <$> l -> parent_of l' i = parent_of l i.
Proof.
  intros E. unfold parent_of. destruct (aget l i) as [x|] eqn:Hx.
  - destruct (aget_ties _ _ _ _ E Hx) as (x' & -> & Hl). unfold ties in Hl. by injection Hl as -> _ _.
  - apply (f_equal length) in E. rewrite !length_fmap in E. apply aget_None in Hx.
    assert (aget l' i = None) as -> by (apply aget_None; by rewrite E). done.
Qed.
Lemma parents_ties (l l' : list CFsState) (L : list Z) : ties <$> l' = ties <$> l -> L ≫= parent_of l' = L ≫= parent_of l.
Proof. intros E. apply list_bind_ext; [|done]. intros i. by apply parent_of_ties. Qed.

(** Pools that only differ in what states hold. *)
Definition same_pool (u v : CStateManager W) : Prop :=
  ties <$> ss_states v = ties <$> ss_states u /\
  ss_free_list v = ss_free_list u /\ ss_free_nr v = ss_free_nr u /\ ss_allocated v = ss_allocated u /\
  m_duplicate_real_fs v = m_duplicate_real_fs u.
#[export] Instance same_pool_preorder : PreOrder same_pool.
Proof. split; unfold same_pool; [done|]. intros a b c. intuition congruence. Qed.

Lemma pool_ok_same (u v : CStateManager W) R L fl : same_pool u v -> pool_ok u R L fl -> pool_ok v R L fl.
Proof.
  intros (E & E1 & E2 & E3 & _) [Hnd Hall Hl Hr Ho Hf Hn Ha]. assert (length (ss_states v) = length (ss_states u)) as El.
  { apply (f_equal length) in E. by rewrite !length_fmap in E. }
  constructor; rewrite ?E1, ?E2, ?E3, ?El; try done.
  - intros i Hi. destruct (Hl i Hi) as (x & Hx & Hc & Hp). destruct (aget_ties _ _ _ _ E Hx) as (x' & Hx' & Hlk).
    exists x'. unfold ties in Hlk. injection Hlk as _ Hlr _. unfold held_refs. rewrite (parents_ties _ _ _ E).
    split_and!; [done|by rewrite Hlr|by rewrite Hlr].
  - clear -Ho E. induction L as [|i L IH]; [done|]. destruct Ho as [Hi Ho]. split; [|by apply IH].
    by rewrite (parent_of_ties _ _ _ E).
  - clear -Hf E. revert Hf. generalize (ss_free_list u) as p. induction fl as [|i fl IH]; intros p; cbn; [done|].
    intros [-> (x & Hx & Hf)]. split; [done|]. destruct (aget_ties _ _ _ _ E Hx) as (x' & Hx' & Hlk).
    exists x'. split; [done|]. unfold ties in Hlk. injection Hlk as -> _ _. by apply IH.
Qed.
Lemma counted_same (u v : CStateManager W) g R F : same_pool u v -> counted g R F u -> counted g R F v.
Proof.
  intros Hs (L & fl & H & Hd & HF & Hg). exists L, fl. split; [by eapply pool_ok_same|].
  destruct Hs as (E & _ & _ & _ & E4). split_and!; [congruence|..].
  2:{ intros i Hi HiF. destruct (Hg i Hi HiF) as (x & Hx & Hxd). destruct (aget_ties _ _ _ _ E Hx) as (x' & Hx' & Hlk).
      exists x'. split; [done|]. unfold ties in Hlk. injection Hlk as _ _ ->. done. }
  intros i Hi.
  rewrite (parent_of_ties _ _ _ E), (parents_ties _ _ _ E). by apply HF.
Qed.

Lemma frame_grew s t : frame t = frame s -> tgrew s t.
Proof.
  intros (E & _)%frame_parts. apply (f_equal length) in E. rewrite !length_fmap in E. unfold tgrew, grew. lia.
Qed.
Lemma quiet_growing {A} (m : M T A) : keeps same_frame m -> growing m.
Proof. intros Hm s. eapply wlp_mono; [apply Hm|..]; intros ? t; apply frame_grew. Qed.
Lemma gwp_quiet {A} (m : M T A) (Q : A -> T -> Prop) (QE : exn -> T -> Prop) s :
  keeps same_frame m -> (forall a t, frame t = frame s -> Q a t) -> (forall e t, frame t = frame s -> QE e t) ->
  gwp m Q QE s.
Proof. intros Hm H1 H2. eapply wlp_mono; [apply Hm|..]; intros ? t Ht _; [by apply H1|by apply H2]. Qed.
End Search.
