(* ===== verification/SearchRun.v ===== *)
(** SearchRun: a finished search has put every state back into the pool. *)
From S2P Require Export SearchInv.

Create HintDb growing.

(** * The pool never shrinks *)
Section Growing.
Context {W : Type} `{FS : IFsSimulator W} `{EV : Env} `{EX : Exceptions} (mem : CFsState) (cfg : TestConfig).
Abbreviation SM := (CStateManager W).
Abbreviation T := (CExTester W).
Abbreviation grows := (keeps (grew (W := W))).
Abbreviation growing := (keeps (tgrew (W := W))).
Implicit Types (u v : SM) (s t : T).

Lemma grows_state_at i : grows (state_at i).
Proof. unfold state_at. keeps_step idtac; keeps_step idtac. Qed.
Lemma grows_state_upd i f : grows (state_upd i f).
Proof.
  intros u. unfold state_upd, wlp, bind, get, opt, put, ret, fault, grew.
  destruct (aget _ i); [|done]. destruct (aset _ i _) as [l|] eqn:Hl; [|done].
  apply aset_Some in Hl as [_ ->]. cbn. by rewrite length_insert.
Qed.
Lemma grows_on_world {A} (m : M W A) : grows (on_world m).
Proof. intros u. apply wlp_zoom. unfold wlp, grew. by destruct (m _) as [[a|e|] w]. Qed.
Lemma grows_modify (f : SM -> SM) : (forall u, (length (ss_states u) <= length (ss_states (f u)))%nat) -> grows (modify f).
Proof. intros Hf u. apply Hf. Qed.
End Growing.
#[export] Hint Resolve grows_state_at grows_state_upd grows_on_world : growing.

Ltac grows := repeat lazymatch goal with
  | |- keeps _ (modify _) => apply grows_modify; intros ?; cbn; lia
  | |- keeps _ (match ?x with _ => _ end) => destruct x
  | |- _ => keeps_step ltac:(eauto with growing)
  end.

Section GrowingOps.
Context {W : Type} `{FS : IFsSimulator W} `{EV : Env} `{EX : Exceptions} (mem : CFsState) (cfg : TestConfig).
Abbreviation SM := (CStateManager W).
Abbreviation T := (CExTester W).
Abbreviation grows := (keeps (grew (W := W))).
Abbreviation growing := (keeps (tgrew (W := W))).
Implicit Types (u v : SM) (s t : T).

Lemma grows_after {A B} (m : M SM A) (k : A -> M SM B) u :
  wlp m (fun _ v => grew u v) (fun _ v => grew u v) u -> (forall a, grows (k a)) ->
  wlp (bind m k) (fun _ v => grew u v) (fun _ v => grew u v) u.
Proof.
  intros Hm Hk. apply wlp_bind. eapply wlp_mono; [exact Hm| |done]. intros a v Hv.
  eapply wlp_mono; [apply Hk|..]; intros ? w Hw; unfold grew in *; lia.
Qed.
Lemma grows_states_get : grows (states_get mem).
Proof.
  intros u. unfold states_get. wlp_steps. apply grows_after; [|intros i; grows].
  destruct (0 <? ss_free_nr u).
  - revert u. change (grows (u <- get ;; i <- opt (ss_free_list u) ;; x <- state_at i ;;
      modify (set_free (st_parent x) (ss_free_nr u - 1)) ;;; state_upd i (set_st_parent None) ;;; ret i)). grows.
  - wlp_steps. unfold grew. cbn. rewrite length_app. lia.
Qed.
Lemma grows_states_put i : grows (states_put i).
Proof. unfold states_put, put_turn. grows. Qed.
Lemma grows_add_ref i : grows (state_add_ref i).
Proof. apply grows_state_upd. Qed.
Hint Resolve grows_states_get grows_states_put grows_add_ref : growing.
Lemma grows_DuplicateFrom i src : grows (DuplicateFrom i src).
Proof. unfold DuplicateFrom. grows. Qed.
Lemma grows_DuplicateWithoutFs i src : grows (DuplicateWithoutFs i src).
Proof. unfold DuplicateWithoutFs. grows. Qed.
Hint Resolve grows_DuplicateFrom grows_DuplicateWithoutFs : growing.
Lemma grows_states_duplicate i : grows (states_duplicate mem i).
Proof. unfold states_duplicate. grows. Qed.
Lemma grows_state_Initialize i fs : grows (state_Initialize i fs).
Proof.
  unfold state_Initialize. keeps_step ltac:(eauto with growing). { apply grows_state_at. }
  destruct (ref_Initialize _) as [[]]; grows.
Qed.

(** ** The search *)
Lemma growing_on_states {A} (m : M SM A) : grows m -> growing (on_states m).
Proof. intros Hm s. apply wlp_zoom. eapply wlp_mono; [apply Hm|..]; by intros ? u. Qed.
Lemma growing_st_upd i f : growing (st_upd i f).
Proof. apply growing_on_states, grows_state_upd. Qed.
End GrowingOps.
#[export] Hint Resolve growing_st_upd grows_states_get grows_states_put grows_add_ref grows_DuplicateFrom grows_DuplicateWithoutFs
  grows_states_duplicate grows_state_Initialize growing_on_states : growing.

Ltac growing := repeat lazymatch goal with
  | |- keeps _ (modify _) => apply keeps_modify; intros ?; first [done|unfold tgrew, grew; cbn; lia]
  | |- _ => keeps_step ltac:(first [solve [eauto with growing]|apply quiet_growing; solve [eauto with quiet]|idtac])
  end.

Section GrowingSearch.
Context {W : Type} `{FS : IFsSimulator W} `{EV : Env} `{EX : Exceptions} (mem : CFsState) (cfg : TestConfig).
Abbreviation T := (CExTester W).
Abbreviation growing := (keeps (tgrew (W := W))).

Lemma growing_CheckState i : growing (CheckState cfg i).
Proof.
  unfold CheckState. growing. intros s. apply wlp_zoom. unfold wlp, tgrew, grew.
  by destruct (CheckAndInsert _ _ _ _) as [[|e|] h].
Qed.
Lemma growing_open_insert k i : growing (open_insert k i).
Proof. unfold open_insert. growing. Qed.
Hint Resolve growing_CheckState growing_open_insert : growing.
Lemma growing_DoFsOperator cur op k : growing (DoFsOperator mem cfg cur op k).
Proof. unfold DoFsOperator. growing. Qed.
Hint Resolve growing_DoFsOperator : growing.
Lemma growing_EnumerateOpV2 ops n cur k : growing (EnumerateOpV2 mem cfg ops n cur k).
Proof. unfold EnumerateOpV2. growing. Qed.
Lemma growing_Queue cur op : growing (DoFsOperator_Queue mem cur op).
Proof. unfold DoFsOperator_Queue. growing. Qed.
Lemma growing_Callback i src : growing (FsOperator_Callback cfg i src).
Proof. unfold FsOperator_Callback. growing. Qed.
Lemma growing_HandleResult i src k r err : growing (HandleResult cfg i src k r err).
Proof. unfold HandleResult. growing. Qed.
Hint Resolve growing_EnumerateOpV2 growing_Queue growing_Callback growing_HandleResult : growing.
Lemma growing_Enumerate_Thread ops n cur k : growing (EnumerateOp_Thread_V2 mem cfg ops n cur k).
Proof. unfold EnumerateOp_Thread_V2. growing. Qed.
Hint Resolve growing_Enumerate_Thread : growing.
Lemma growing_note_depth i : growing (note_depth i).
Proof. unfold note_depth. growing. Qed.
Hint Resolve growing_note_depth : growing.
Lemma growing_RunTest_turn st : growing (RunTest_turn mem cfg st).
Proof. unfold RunTest_turn. growing. Qed.
End GrowingSearch.
#[export] Hint Resolve growing_CheckState growing_open_insert growing_DoFsOperator growing_EnumerateOpV2
  growing_Queue growing_Callback growing_HandleResult growing_Enumerate_Thread growing_note_depth
  growing_RunTest_turn : growing.

(** * One operation of the search at a time *)
Section Steps.
Context {W : Type} `{FS : IFsSimulator W} `{EV : Env} `{EX : Exceptions} (mem : CFsState) (cfg : TestConfig) (track : Prop).
Abbreviation T := (CExTester W).
Abbreviation growing := (keeps (tgrew (W := W))).
Abbreviation search_ok := (search_ok cfg track).
Implicit Types (s t : T) (X N F : list Z).

Lemma search_fits kd b X N F s : search_ok kd b X N F s -> tfits s -> fits (m_states s) /\ few (held X s).
Proof. intros H Hf. split; [exact Hf|]. by eapply held_few. Qed.

(** The references of local variables, in any order. *)
Lemma search_ok_perm kd b X X' N F s : X ≡ₚ X' -> search_ok kd b X N F s -> search_ok kd b X' N F s.
Proof.
  intros HX (g & Hc & Hn & Hl & Hk & H). exists g. split_and!; [|done|by rewrite <- HX|by rewrite <- HX|apply H..].
  eapply counted_perm; [|done]. unfold held. by rewrite HX.
Qed.
Lemma search_ok_news kd b X N N' F F' s : N ≡ₚ N' -> F ≡ₚ F' -> search_ok kd b X N F s -> search_ok kd b X N' F' s.
Proof.
  intros HN HF (g & Hc & Hn & Hl & Hk & Hg & H). exists g. split_and!; [by eapply counted_news|by rewrite <- HN|done| | |done].
  - by rewrite <- HF.
  - intros i. rewrite <- HN, <- HF. apply Hg.
Qed.
Lemma search_ok_drop kd b X i N F s : search_ok kd b X (i :: N) F s -> search_ok kd b X N F s.
Proof.
  intros (g & Hc & Hn & Hl & Hk & Hg & H). exists g. split_and!; [done| |done|done| |done].
  - apply NoDup_app. apply NoDup_app in Hn as (H1 & H2 & H3). apply NoDup_cons in H3 as [? ?]. set_solver.
  - intros j Hj. apply Hg. set_solver.
Qed.
Lemma search_ok_le kd b b' X N F s : b <= b' -> search_ok kd b X N F s -> search_ok kd b' X N F s.
Proof.
  intros Hb (g & Hc & Hn & Hl & Hk & Hg & H). exists g. split_and!; try done. intros [? ?]%H. split; [lia|done].
Qed.

(** A step on the pool that changes the references held by local variables. *)
Lemma search_step {A} (m : M (CStateManager W) A) kd b (X' N' F' : A -> list Z) (P : A -> Prop) s :
  wp m (fun a v => search_ok kd b (X' a) (N' a) (F' a) (set_m_states v s) /\ P a) (fun _ _ => False) (m_states s) ->
  gwp (on_states m) (fun a t => search_ok kd b (X' a) (N' a) (F' a) t /\ m_open_list t = m_open_list s /\ P a) (fun _ _ => False) s.
Proof.
  intros H. apply wlp_zoom. unfold wp in H. unfold wlp. destruct (m (m_states s)) as [[a|e|] v]; try done.
  destruct H as (Hc & HP). intros _. by split.
Qed.

Lemma t_get kd b X N F s : search_ok kd b X N F s -> (forall i, i ∈ N -> i ∈ X) -> (length X < 2048)%nat ->
  gwp (on_states (states_get mem))
    (fun i t => search_ok kd b (i :: X) (i :: N) (i :: F) t /\ m_open_list t = m_open_list s /\ i ∉ X) (fun _ _ => False) s.
Proof.
  intros (g & Hc & Hn & Hl & Hk & Hg & H) HN HX.
  apply (search_step _ kd b (fun i => i :: X) (fun i => i :: N) (fun i => i :: F)).
  eapply wp_mono; [by apply get_counted| |done]. intros i v [Hv Hi]. unfold held in Hi. split; [|set_solver].
  exists g. split_and!; [done| |cbn; lia| | |done].
  - cbn. rewrite <- Permutation_middle. apply NoDup_cons. split; [set_solver|done].
  - intros [<-|?]%elem_of_cons; [set_solver|]. intros ?. apply Hk; set_solver.
  - intros j [->|?]%elem_of_cons; [set_solver|]. intros ?. apply Hg; set_solver.
Qed.
Lemma t_put kd b i X N F s : search_ok kd b (i :: X) N F s -> tfits s -> i ∉ F ->
  gwp (on_states (states_put (Some i))) (fun _ t => search_ok kd b X N F t /\ m_open_list t = m_open_list s /\ True)
    (fun _ _ => False) s.
Proof.
  intros H Hf HF. pose proof (held_few _ _ _ _ _ _ _ _ H Hf) as Hfew. destruct H as (g & Hc & Hn & Hl & Hk & H).
  apply (search_step _ kd b (fun _ => X) (fun _ => N) (fun _ => F) (fun _ => True)).
  eapply wp_mono; [eapply put_counted; [exact Hc|exact Hf| |done]| |done].
  - eapply few_sub; [exact Hfew|]. unfold held. rewrite !length_app. cbn. lia.
  - intros [] v [Hv _]. split; [|done]. exists g. split_and!; [done|done|cbn in Hl; lia| |apply H..].
    intros ?. apply Hk. set_solver.
Qed.
Lemma t_add_ref kd b i X N F s : search_ok kd b X N F s -> tfits s -> i ∈ X -> (length X < 2048)%nat ->
  gwp (on_states (state_add_ref i)) (fun _ t => search_ok kd b (i :: X) N F t /\ m_open_list t = m_open_list s /\ True)
    (fun _ _ => False) s.
Proof.
  intros H Hf Hi HX. destruct (search_fits _ _ _ _ _ _ H Hf) as [_ Hfew]. destruct H as (g & Hc & Hn & Hl & Hk & H).
  apply (search_step _ kd b (fun _ => i :: X) (fun _ => N) (fun _ => F) (fun _ => True)).
  eapply wp_mono; [eapply add_ref_counted; [exact Hc|exact Hf|exact Hfew|]| |done].
  - unfold held. set_solver.
  - intros [] v Hv. split; [|done]. exists g. split_and!; [done|done|cbn; lia| |apply H..].
    intros [<-|?]%elem_of_cons; by apply Hk.
Qed.
Lemma cost_with_depth g i d (l : list Z) : i ∉ l -> cost cfg (with_depth g i d) l = cost cfg g l.
Proof.
  intros Hi. unfold cost. induction l as [|j l IH]; [done|]. cbn [foldr]. rewrite IH by set_solver. by rewrite with_depth_ne by set_solver.
Qed.
(** The new state is one below the state being expanded. *)
Lemma t_DuplicateFrom kd b i X N F s : search_ok kd b X (i :: N) (i :: F) s -> tfits s -> kd.1 ∈ X -> kd.1 ∉ i :: F -> i ∉ F ->
  gwp (on_states (DuplicateFrom i kd.1)) (fun _ t => search_ok kd b X (i :: N) F t /\ m_open_list t = m_open_list s) (fun _ _ => True) s.
Proof.
  intros H Hf Hs HsF Hi. destruct (search_fits _ _ _ _ _ _ H Hf) as [_ Hfew]. destruct H as (g & Hc & Hn & Hl & Hk & Hg & H).
  assert (i ∉ m_open_list s) as Hio by (apply NoDup_app in Hn as (_ & Hn & _); set_solver).
  apply wlp_zoom. eapply wlp_mono; [eapply (DuplicateFrom_counted g i kd.1); [exact Hc|exact Hf|exact Hfew| |done|done]|..].
  - unfold held. set_solver.
  - intros [] v Hv _. split; [|done]. rewrite Hk in Hv by done. eexists. split; [exact Hv|].
    split_and!; [done|done| | |].
    + intros _ _. rewrite with_depth_ne by set_solver. by apply Hk.
    + intros j Hj HjF. destruct (decide (j = i)) as [->|Hne]; [by rewrite with_depth_eq|].
      rewrite with_depth_ne by done. apply Hg; set_solver.
    + intros [Hb Hd]%H. cbn -[cost]. rewrite cost_with_depth by done. split; [done|]. intros j Hj.
      rewrite with_depth_ne by (by intros ->). by apply Hd.
  - done.
Qed.
(** The other steps keep what is held: the relations between states, the open
    list and the deepest state. *)
Definition near s t : Prop :=
  same_pool (m_states s) (m_states t) /\ m_open_list t = m_open_list s /\ m_max_depth_state t = m_max_depth_state s.
#[export] Instance near_preorder : PreOrder near.
Proof.
  split; unfold near; [intros s; by split_and!|]. intros a b c (H1 & E1 & E2) (H2 & E3 & E4).
  split_and!; [by etransitivity|congruence|congruence].
Qed.
Lemma search_ok_near kd b X N F s t : near s t -> search_ok kd b X N F s -> search_ok kd b X N F t.
Proof.
  intros (Hs & E1 & E2) (g & Hc & H). exists g. unfold held in *. rewrite E1, E2. split; [by eapply counted_same|done].
Qed.
Lemma near_quiet {A} (m : M T A) : keeps same_frame m -> keeps near m.
Proof.
  intros Hm s. eapply wlp_mono; [apply Hm|..]; intros ? t Ht; apply frame_parts in Ht as (E & Ht);
    (split_and!; [split; [by apply links_ties|tauto]|tauto|tauto]).
Qed.
Lemma near_on_states {A} (m : M (CStateManager W) A) : keeps same_pool m -> keeps near (on_states m).
Proof. intros Hm s. apply wlp_zoom. eapply wlp_mono; [apply Hm|..]; by intros ? u. Qed.
Lemma same_pool_state_upd i f : (forall x, ties (f x) = ties x) -> keeps (same_pool (W := W)) (state_upd i f).
Proof.
  intros Hf u. unfold state_upd, wlp, bind, get, opt, put, ret, fault.
  destruct (aget _ i) as [x|] eqn:Hx; [|done]. destruct (aset _ i _) as [l|] eqn:Hl; [|done].
  apply aset_Some in Hl as [_ ->]. cbn -[fmap]. split; [|done]. cbn -[fmap].
  rewrite list_fmap_insert, Hf. apply list_insert_id. apply aget_Some in Hx as [_ Hx]. by rewrite list_lookup_fmap, Hx.
Qed.
Lemma near_CheckState i : keeps near (CheckState cfg i).
Proof.
  unfold CheckState. keeps_step ltac:(idtac). { apply near_quiet, quiet_st_at. }
  keeps_step ltac:(idtac). { apply near_quiet, quiet_stack. }
  intros s. apply wlp_zoom. unfold wlp. by destruct (CheckAndInsert _ _ _ _) as [[|e|] h].
Qed.
Lemma near_Initialize i fs : keeps near (on_states (state_Initialize i fs)).
Proof.
  apply near_on_states. unfold state_Initialize. apply keeps_bind; [typeclasses eauto|..].
  { intros u. unfold state_at, wlp, bind, get, opt. by destruct (aget _ i). }
  intros x. destruct (ref_Initialize _) as [[]]; repeat keeps_step ltac:(idtac); by apply same_pool_state_upd.
Qed.

Lemma t_near {A} (m : M T A) kd b X N F s : keeps near m -> search_ok kd b X N F s ->
  gwp m (fun _ t => search_ok kd b X N F t /\ m_open_list t = m_open_list s)
        (fun _ t => search_ok kd b X N F t /\ m_open_list t = m_open_list s) s.
Proof.
  intros Hm H. eapply wlp_mono; [apply Hm|..]; intros ? t Ht _; (split; [by eapply (search_ok_near _ _ _ _ _ s)|]);
    by destruct Ht as (_ & ? & _).
Qed.
(** What reading the expanded state says of its depth. *)
Lemma t_read kd b X N F s : search_ok kd b X N F s -> kd.1 ∈ X -> kd.1 ∉ F ->
  gwp (st_at kd.1) (fun x t => t = s /\ st_depth x = kd.2) (fun _ _ => False) s.
Proof.
  intros (g & (L & fl & _ & _ & _ & Hd) & _ & _ & Hk & _) HX HF. apply wlp_zoom.
  destruct (Hd kd.1) as (x & Hx & Hxd); [unfold held; set_solver|done|].
  unfold wlp, state_at, bind, get, opt. rewrite Hx. cbn. intros _. split; [by destruct s|]. by rewrite Hxd, Hk.
Qed.
End Steps.

(** * The search without worker threads *)
Section Runs.
Context {W : Type} `{FS : IFsSimulator W} `{EV : Env} `{EX : Exceptions} (mem : CFsState) (cfg : TestConfig) (track : Prop).
Abbreviation T := (CExTester W).
Abbreviation growing := (keeps (tgrew (W := W))).
Abbreviation search_ok := (search_ok cfg track).
Implicit Types (s t : T) (X N F : list Z) (kd : Z * Z).

(** From one step to the next. *)
Lemma gwp_then {A B} (m : M T A) (k : A -> M T B) (P : A -> T -> Prop) Q (E QE : exn -> T -> Prop) s :
  gwp m P E s -> (forall e t, E e t -> QE e t) -> (forall a, growing (k a)) ->
  (forall a t, tfits t -> P a t -> gwp (k a) Q QE t) -> gwp (bind m k) Q QE s.
Proof. intros Hm HE Hg Hk. eapply gwp_bind; [eapply gwp_mono; [exact Hm|by intros|exact HE]|done|done]. Qed.
Lemma near_next {A B} (m : M T A) (k : A -> M T B) kd b X N F Q (QE : exn -> T -> Prop) s :
  keeps near m -> search_ok kd b X N F s -> (forall e t, search_ok kd b X N F t -> QE e t) -> (forall a, growing (k a)) ->
  (forall a t, tfits t -> search_ok kd b X N F t -> m_open_list t = m_open_list s -> gwp (k a) Q QE t) ->
  gwp (bind m k) Q QE s.
Proof.
  intros Hm H HE Hg Hk. eapply gwp_then; [by apply t_near|..]; cbn beta; [|done|].
  - intros e t [Ht _]. by apply HE.
  - intros a t Hf [Ht E]. by apply Hk.
Qed.

Lemma gwp_get {B} (k : T -> M T B) Q QE s : gwp (k s) Q QE s -> gwp (bind get k) Q QE s.
Proof. done. Qed.
Lemma gwp_modify {B} f (k : unit -> M T B) Q QE s : gwp (k tt) Q QE (f s) -> gwp (bind (modify f) k) Q QE s.
Proof. done. Qed.

(** The state being expanded is above the greatest depth; what a child of it
    costs. *)
Definition expandable kd : Prop := track -> 0 <= kd.2 < m_test_depth cfg /\ m_test_depth cfg < 2 ^ 31.
Definition child kd : Z := weight cfg (kd.2 + 1).
Lemma child_nonneg kd : 0 <= child kd.
Proof. apply Z.pow_nonneg. lia. Qed.

Lemma cost_perm g (l l' : list Z) : l ≡ₚ l' -> cost cfg g l = cost cfg g l'.
Proof. unfold cost. induction 1; cbn [foldr]; lia. Qed.

Lemma t_open_insert kd b i k X N F s : search_ok kd b (i :: X) (i :: N) F s -> i ∉ F -> expandable kd ->
  gwp (open_insert k i) (fun _ t => search_ok kd (b + child kd) X N F t) (fun _ _ => False) s.
Proof.
  intros (g & Hc & Hn & Hl & Hk & Hg & H) HF Hkd _. cbn -[cost]. exists g. unfold held in *. cbn -[cost].
  assert (insert_before k i (m_open_list s) ≡ₚ i :: m_open_list s) as Hp.
  { unfold insert_before. by rewrite <- Permutation_middle, take_drop. }
  split_and!; [|rewrite Hp; cbn; by rewrite Permutation_middle|cbn in Hl; lia|..].
  - eapply counted_perm; [|exact Hc]. rewrite Hp. cbn. by rewrite Permutation_middle.
  - intros ?. apply Hk. set_solver.
  - intros j Hj. apply Hg. set_solver.
  - intros Ht. destruct (H Ht) as [Hb Hd], (Hkd Ht) as [H1 H2]. rewrite (cost_perm _ _ _ Hp).
    assert (g i = kd.2 + 1) as E by (rewrite Hg by set_solver; unfold w32; rewrite Z.mod_small; lia).
    split; [unfold cost in *; cbn [foldr]; rewrite E; unfold child; lia|].
    intros j. rewrite Hp. intros [->|Hj]%elem_of_cons; [lia|by apply Hd].
Qed.

(** Take a new state, and make it a copy. *)
Lemma on_states_bind {A B} (m : M (CStateManager W) A) (k : A -> M (CStateManager W) B) s :
  on_states (bind m k) s = bind (on_states m) (fun a => on_states (k a)) s.
Proof. unfold on_states, zoom, bind. by destruct (m (m_states s)) as [[a|e|] v]. Qed.
Lemma t_duplicate kd b X s : search_ok kd b X [] [] s -> tfits s -> kd.1 ∈ X -> (length X < 2048)%nat ->
  gwp (on_states (states_duplicate mem kd.1)) (fun i t => search_ok kd b (i :: X) [i] [] t) (fun _ _ => True) s.
Proof.
  intros H Hf Hcur HX. unfold states_duplicate, gwp, wlp. rewrite on_states_bind.
  match goal with |- match ?m s with _ => _ end => change (gwp m (fun i t => search_ok kd b (i :: X) [i] [] t) (fun _ _ => True) s) end.
  eapply gwp_then with (E := fun _ _ => True); [eapply gwp_mono; [apply (t_get mem cfg track kd b X [] []); [done|set_solver|done]|by intros|done]|done|intros ?; apply growing_on_states; grows|].
  intros i t Hft (Ht & E & Hi).
  enough (gwp (on_states (DuplicateFrom i kd.1;;; ret i)) (fun i t => search_ok kd b (i :: X) [i] [] t) (fun _ _ => True) t) as G.
  { destruct Ht as (? & (? & ? & _ & Hd & _) & _). unfold gwp, wlp in *. unfold on_states, zoom, bind at 1, get.
    cbn beta iota. rewrite Hd. exact G. }
  unfold gwp, wlp. rewrite on_states_bind.
  match goal with |- match ?m t with _ => _ end => change (gwp m (fun i t => search_ok kd b (i :: X) [i] [] t) (fun _ _ => True) t) end.
  eapply gwp_then; [apply (t_DuplicateFrom cfg track kd b i (i :: X) [] []); [done|done|set_solver| |set_solver]|done|intros ?; growing|].
  - intros E'%list_elem_of_singleton. by rewrite <- E' in Hi.
  - intros [] u _ [Hu _] _. by destruct u.
Qed.

Lemma DoFsOperator_ok kd b op k X s : search_ok kd b X [] [] s -> tfits s -> kd.1 ∈ X -> (length X < 2048)%nat -> expandable kd ->
  gwp (DoFsOperator mem cfg kd.1 op k) (fun _ t => search_ok kd (b + child kd) X [] [] t) (fun _ _ => True) s.
Proof.
  intros H Hf Hcur HX Hkd. unfold DoFsOperator.
  eapply gwp_then; [by apply (t_duplicate kd b X)|done|intros ?; growing|]. intros i t1 _ H1.
  eapply near_next; [apply near_quiet, quiet_next_sn|exact H1|done|intros ?; growing|]. intros sn t2 _ H2 _.
  eapply near_next; [apply near_quiet, quiet_st_upd; by intros|exact H2|done|intros ?; growing|]. intros ? t3 Hf3 H3 _.
  assert (forall t, tfits t -> search_ok kd b (i :: X) [i] [] t ->
    gwp (on_states (states_put (Some i))) (fun _ t => search_ok kd (b + child kd) X [] [] t) (fun _ _ => False) t) as Hput.
  { intros t Ht Hk. eapply gwp_mono; [apply (t_put cfg track kd b i X [i] []); [done|done|set_solver]| |done]. intros ? u (Hu & _).
    apply (search_ok_le _ _ _ b); [pose proof (child_nonneg kd); lia|]. by apply search_ok_drop in Hu. }
  eapply (gwp_then _ _ (fun r t => match r with (Some _, _) => search_ok kd (b + child kd) X [] [] t | (None, _) => search_ok kd b (i :: X) [i] [] t end)
    _ (fun _ _ => False)); [|done|..].
  - eapply gwp_try with (QE' := fun _ t => search_ok kd b (i :: X) [i] [] t); [|intros ?; growing|].
    2:{ intros e t _ Ht. by apply gwp_ret. }
    eapply near_next; [apply near_quiet, quiet_FsOperatorCore|exact H3|done|intros ?; growing|]. intros ir t4 _ H4 _.
    eapply near_next; [apply near_CheckState|exact H4|done|intros []; growing|]. intros [] t5 Hf5 H5 _.
    + eapply gwp_then; [by apply Hput|done|intros ?; growing|]. intros ? t6 _ H6. by apply gwp_ret.
    + case_bool_decide; [|by apply gwp_ret].
      eapply gwp_then; [apply t_open_insert; [done|set_solver|done]|done|intros ?; growing|]. intros ? t6 _ H6. by apply gwp_ret.
  - intros [[] ?]; growing.
  - intros [[ir'|] ir] t Hft Ht; [by apply gwp_ret|].
    eapply gwp_then; [by apply Hput|done|intros ?; growing|]. intros ? t6 _ H6. by apply gwp_ret.
Qed.

(** ** No more operations than the array holds *)
Abbreviation fits_array n := (fun g : OpList => g.2 <= n).
Lemma AddOp_size n f g : yields (S := T) (fits_array n) (AddOp n f g).
Proof.
  unfold AddOp. destruct g as [ops ix]. destruct (Z.leb_spec n ix); [apply yields_throw|].
  repeat (eapply yields_bind; [apply yields_any|intros ? _]). apply yields_ret. cbn. lia.
Qed.
Ltac sizes := repeat lazymatch goal with
  | |- yields _ (ret _) => apply yields_ret; cbn; first [done|lia]
  | |- yields _ (AddOp _ _ _) => apply AddOp_size
  | |- yields _ (bind (AddOp _ _ _) _) => eapply yields_bind; [apply AddOp_size|intros ? ?]
  | |- yields _ (bind (if ?b then AddOp _ _ _ else ret ?g) _) =>
      eapply yields_bind; [destruct b; [apply AddOp_size|apply yields_ret; eassumption]|intros ? ?]
  | |- yields _ (bind _ _) => eapply yields_bind; [apply yields_any|intros ? _]
  | |- yields _ (if ?b then _ else _) => destruct b
  end.
Lemma GenerateOps_file_size n nr file g : g.2 <= n -> yields (S := T) (fits_array n) (GenerateOps_file cfg n nr file g).
Proof. intros Hg. unfold GenerateOps_file. sizes. Qed.
Lemma GenerateOps_size i ops n : 0 <= n -> yields (S := T) (fits_array n) (GenerateOps cfg i ops n).
Proof.
  intros Hn. unfold GenerateOps. eapply yields_bind; [apply yields_any|]. intros x _.
  eapply (yields_bind (fun r : Z * OpList => r.2.2 <= n)); [|intros r Hr; sizes].
  - apply yields_mwhile; [done|]. intros [ii g] Hg. cbn [snd] in Hg. destruct (ii =? _); [by apply yields_ret|].
    eapply yields_bind; [apply yields_any|intros file _].
    eapply yields_bind; [by apply GenerateOps_file_size|intros g' Hg']. by apply yields_ret.
  - apply yields_mloop; [done|]. intros g ii Hg. destruct (n <=? g.2); [by apply yields_ret|]. sizes.
Qed.
Lemma GenerateOps_ok kd b i ops X s : search_ok kd b X [] [] s ->
  gwp (GenerateOps cfg i ops MAX_WORK_NR) (fun g t => search_ok kd b X [] [] t /\ g.2 <= MAX_WORK_NR) (fun _ _ => True) s.
Proof.
  intros H. eapply wlp_mono; [apply wlp_and; [apply (t_near cfg track _ kd b X [] []); [apply near_quiet, quiet_GenerateOps|exact H]|
    by apply (GenerateOps_size i ops MAX_WORK_NR)]|..].
  - intros g t [H1 H2] Hf. by split; [apply H1|].
  - done.
Qed.

Lemma EnumerateOpV2_ok kd b ops k X s : search_ok kd b X [] [] s -> tfits s -> kd.1 ∈ X -> (length X < 2048)%nat -> expandable kd ->
  gwp (EnumerateOpV2 mem cfg ops MAX_WORK_NR kd.1 k) (fun _ t => search_ok kd (b + MAX_WORK_NR * child kd) X [] [] t) (fun _ _ => True) s.
Proof.
  intros H Hf Hcur HX Hkd. unfold EnumerateOpV2. pose proof (child_nonneg kd) as Hc0.
  eapply gwp_then; [by apply GenerateOps_ok|done|intros ?; growing|]. intros g t1 _ [H1 Hsz].
  eapply (gwp_then _ _ (fun _ t => search_ok kd (b + MAX_WORK_NR * child kd) X [] [] t) _ (fun _ _ => True)); [|done|intros ?; growing|].
  - apply (gwp_mloop _ _ _ (fun l _ t => search_ok kd (b + (Z.max 0 g.2 - Z.of_nat (length l)) * child kd) X [] [] t));
      [|intros ? ?; growing|..].
    + eapply search_ok_le; [|exact H1]. unfold range. rewrite length_seqZ. nia.
    + intros _ t Ht. eapply search_ok_le; [|exact Ht]. unfold MAX_WORK_NR in *. cbn. nia.
    + intros a ii l t Hft Ht. apply wlp_opt. intros op _.
      eapply gwp_then; [by apply (DoFsOperator_ok kd)|done|intros ?; growing|].
      intros ir u _ Hu. apply gwp_ret. cbn [length] in *. case_bool_decide; (eapply search_ok_le; [|exact Hu]); unfold MAX_WORK_NR in *; nia.
  - intros ir t Hft Ht. eapply (gwp_then _ _ (fun _ t => search_ok kd (b + MAX_WORK_NR * child kd) X [] [] t) _ (fun _ _ => True));
      [|done|intros ?; growing|].
    + unfold when. case_bool_decide; [|by apply gwp_ret].
      eapply gwp_mono; [apply (t_near cfg track _ kd (b + MAX_WORK_NR * child kd) X [] []); [apply near_quiet, quiet_UpdateFsParam|exact Ht]|by intros ? ? [? _]|done].
    + intros ? u _ Hu. by apply gwp_ret.
Qed.

(** * The search with worker threads *)

(** The states prepared for [works], each with its reference to [cur]. *)
Abbreviation prepared works cur X := (works ++ replicate (length works) cur ++ X).

Lemma prepared_perm kd b l l' cur X s : l ≡ₚ l' ->
  search_ok kd b (prepared l cur X) l l s -> search_ok kd b (prepared l' cur X) l' l' s.
Proof.
  intros Hp H. apply (search_ok_news _ _ _ _ _ l l' l l'); [done|done|].
  eapply search_ok_perm; [|exact H]. rewrite (Permutation_length Hp). by apply Permutation_app_tail.
Qed.

Lemma Queue_ok kd b cur op l X s : search_ok kd b (prepared l cur X) l l s -> tfits s -> cur ∈ X ->
  (length l < 512)%nat -> (length X <= 2)%nat ->
  gwp (DoFsOperator_Queue mem cur op) (fun w t => search_ok kd b (prepared (w :: l) cur X) (w :: l) (w :: l) t /\ w ∉ X)
    (fun _ _ => True) s.
Proof.
  intros H Hf Hcur Hl HX. unfold DoFsOperator_Queue.
  eapply gwp_then; [apply (t_add_ref cfg track kd b cur (prepared l cur X) l l); [exact H|exact Hf|set_solver|]|done|intros ?; growing|].
  { rewrite !length_app, length_replicate. lia. }
  intros ? t1 _ (H1 & _).
  eapply gwp_then; [apply (t_get mem cfg track kd b (cur :: prepared l cur X) l l); [exact H1| |]|done|intros ?; growing|].
  { set_solver. }
  { cbn. rewrite !length_app, length_replicate. lia. }
  intros w t2 _ (H2 & _ & Hw).
  eapply near_next; [apply near_quiet, quiet_next_sn|exact H2|done|intros ?; growing|]. intros sn t3 _ H3 _.
  eapply near_next; [apply near_quiet, quiet_st_upd; by intros|exact H3|done|intros ?; growing|]. intros ? t4 _ H4 _.
  apply gwp_ret. split; [|set_solver]. eapply search_ok_perm; [|exact H4]. cbn. by rewrite <- Permutation_middle.
Qed.

Lemma Callback_ok kd b state N F X s : search_ok kd b X (state :: N) (state :: F) s -> tfits s -> kd.1 ∈ X ->
  kd.1 ∉ state :: F -> state ∉ F ->
  gwp (FsOperator_Callback cfg state kd.1) (fun _ t => search_ok kd b X (state :: N) F t) (fun _ _ => True) s.
Proof.
  intros H Hf Hcur HF Hst. unfold FsOperator_Callback.
  eapply gwp_then; [by eapply t_DuplicateFrom|done|intros ?; growing|]. intros ? t1 _ [H1 _].
  eapply gwp_try with (QE' := fun _ t => search_ok kd b X (state :: N) F t); [|intros ?; growing|by intros; apply gwp_ret].
  eapply gwp_mono; [apply (t_near cfg track _ kd b X (state :: N) F); [apply near_quiet, quiet_FsOperatorCore|done]|..]; by intros ? ? [? _].
Qed.

Lemma HandleResult_ok kd b state cur k r err N F X s : search_ok kd b (state :: cur :: X) (state :: N) F s -> tfits s ->
  state ∉ F -> cur ∉ F -> expandable kd ->
  gwp (HandleResult cfg state cur k r err) (fun _ t => search_ok kd (b + child kd) X N F t) (fun _ _ => True) s.
Proof.
  intros H Hf Hst Hcur Hkd. unfold HandleResult.
  assert (forall t, tfits t -> search_ok kd b (state :: cur :: X) (state :: N) F t ->
    gwp (on_states (states_put (Some state))) (fun _ t => search_ok kd (b + child kd) (cur :: X) N F t) (fun _ _ => True) t) as Hput.
  { intros t Ht Hk. eapply gwp_mono; [by apply (t_put cfg track kd b state (cur :: X) (state :: N) F)| |done]. intros ? u (Hu & _).
    apply (search_ok_le _ _ _ b); [pose proof (child_nonneg kd); lia|]. by apply search_ok_drop in Hu. }
  eapply (gwp_then _ _ (fun _ t => search_ok kd (b + child kd) (cur :: X) N F t) _ (fun _ _ => True)); [|done|intros ?; growing|].
  - case_bool_decide.
    + eapply gwp_then; [by apply Hput|done|intros ?; growing|]. intros ? t1 _ H1. by apply gwp_ret.
    + eapply near_next; [apply near_CheckState|exact H|done|intros []; growing|]. intros [] t1 Hf1 H1 _.
      * eapply gwp_then; [by apply Hput|done|intros ?; growing|]. intros ? t2 _ H2. by apply gwp_ret.
      * eapply gwp_then; [by apply t_open_insert|done|intros ?; growing|]. intros ? t2 _ H2.
        eapply near_next; [apply near_quiet, quiet_UpdateFsParam|exact H2|done|intros ?; growing|]. intros ? t3 _ H3 _.
        by apply gwp_ret.
  - intros err' t Hft Ht. eapply gwp_then; [by apply (t_put cfg track kd (b + child kd) cur X N F)|done|intros ?; growing|].
    intros ? u _ (Hu & _). by apply gwp_ret.
Qed.

Lemma choose_ops_ok kd b n X s : search_ok kd b X [] [] s ->
  gwp (choose_ops cfg n) (fun l t => search_ok kd b X [] [] t /\ (length l <= 512)%nat) (fun _ _ => True) s.
Proof.
  intros H. unfold choose_ops. destruct (0 <? m_branch cfg).
  - apply wlp_check. intros Hb%Z.leb_le.
    eapply gwp_mono; [apply (gwp_mfold _ _ _ (fun r (l : list Z) t => search_ok kd b X [] [] t /\ (length l + length r <= 512)%nat) (fun _ _ => True));
      [|intros ? ?; growing; apply quiet_growing, quiet_rand|]| |done].
    + split; [done|]. cbn. unfold range. rewrite length_seqZ. unfold MAX_WORK_NR in Hb. lia.
    + intros l ii r t _ [Ht Hl]. eapply near_next; [apply near_quiet, quiet_rand|exact Ht|done|intros ?; growing|].
      intros x u _ Hu _. apply gwp_ret. split; [done|]. rewrite length_app. cbn in *. lia.
    + intros l t [Ht Hl]. split; [done|]. cbn in Hl. lia.
  - apply gwp_ret. split; [done|]. unfold range. rewrite length_seqZ. unfold MAX_WORK_NR. lia.
Qed.

(** The states whose results are still to come. *)
Abbreviation waiting works ks := ((fun k => nth k works 0) <$> ks).
Lemma waiting_all (works : list Z) : waiting works (seq 0 (length works)) = works.
Proof.
  apply list_eq. intros k. rewrite list_lookup_fmap. destruct (decide (k < length works)%nat) as [Hk|Hk].
  - rewrite lookup_seq_lt by done. cbn. destruct (lookup_lt_is_Some_2 works k Hk) as [x Hx].
    by rewrite Hx, (nth_lookup_Some _ _ _ _ Hx).
  - rewrite lookup_seq_ge by lia. cbn. symmetry. apply lookup_ge_None_2. lia.
Qed.

Lemma Results_ok `{EL : !EnvLaws} kd b works k X s : search_ok kd b (prepared works kd.1 X) works works s ->
  kd.1 ∈ X -> kd.1 ∉ works -> expandable kd ->
  gwp (mfold (schedule_at (t_calls s) (seq 0 (length works))) ERR_OK (fun err j =>
    state <- opt (works !! j) ;;
    result <- FsOperator_Callback cfg state kd.1 ;;
    HandleResult cfg state kd.1 k result err))
    (fun _ t => search_ok kd (b + Z.of_nat (length works) * child kd) X [] [] t) (fun _ _ => True) s.
Proof.
  intros H Hcur Hout Hkd. pose proof (schedule_perm (t_calls s) (seq 0 (length works))) as Hp.
  set (ks := schedule_at _ _) in *.
  assert (waiting works ks ≡ₚ works) as HW by (rewrite Hp; by rewrite waiting_all).
  assert (length ks = length works) as Hlen by (apply Permutation_length in Hp; by rewrite length_seq in Hp).
  eapply gwp_mono; [apply (gwp_mfold _ _ _ (fun ks _ t =>
    search_ok kd (b + (Z.of_nat (length works) - Z.of_nat (length ks)) * child kd)
      (prepared (waiting works ks) kd.1 X) (waiting works ks) (waiting works ks) t /\
    kd.1 ∉ waiting works ks) (fun _ _ => True)); [|intros ? ?; growing|]|intros ? t [Ht _]|done].
  - split; [|by rewrite HW]. rewrite Hlen, Z.sub_diag, Z.add_0_r. by eapply prepared_perm.
  - intros err j l t Hf [Ht Hc]. apply wlp_opt. intros w Hw. change (waiting works (j :: l)) with (nth j works 0 :: waiting works l) in Ht, Hc.
    rewrite (nth_lookup_Some _ _ _ _ Hw) in Ht, Hc. set (ws := waiting works l) in *.
    assert (w ∉ ws) as Hws.
    { destruct Ht as (g & _ & [_ [_ Hnd]]%NoDup_app & _). by apply NoDup_cons in Hnd as [? _]. }
    apply (search_ok_perm _ _ _ _ _ (w :: kd.1 :: prepared ws kd.1 X)) in Ht.
    2:{ cbn. by rewrite <- Permutation_middle. }
    eapply gwp_then; [apply Callback_ok; [exact Ht|exact Hf|set_solver|done|done]|done|intros ?; growing|].
    intros r u Hfu Hu. eapply gwp_mono; [apply HandleResult_ok; [exact Hu|done|done|set_solver|done]| |done].
    intros err' v Hv. split; [|set_solver]. eapply search_ok_le; [|exact Hv]. cbn [length]. lia.
  - cbn in Ht. by rewrite Z.sub_0_r in Ht.
Qed.

Lemma Enumerate_Thread_ok `{EL : !EnvLaws} kd b ops k X s : search_ok kd b X [] [] s -> tfits s -> kd.1 ∈ X ->
  (length X <= 2)%nat -> expandable kd ->
  gwp (EnumerateOp_Thread_V2 mem cfg ops MAX_WORK_NR kd.1 k) (fun _ t => search_ok kd (b + MAX_WORK_NR * child kd) X [] [] t)
    (fun _ _ => True) s.
Proof.
  intros H Hf Hcur HX Hkd. unfold EnumerateOp_Thread_V2.
  eapply near_next; [apply near_quiet, quiet_GenerateOps|exact H|done|intros ?; growing|]. intros g t1 _ H1 _.
  eapply gwp_then; [by apply choose_ops_ok|done|intros ?; growing|]. intros chosen t2 _ [H2 Hl].
  eapply gwp_then; [apply (gwp_mfold _ _ _ (fun r l t => search_ok kd b (prepared l kd.1 X) l l t /\ kd.1 ∉ l /\
      (length l + length r <= 512)%nat) (fun _ _ => True)); [|intros ? ?; growing|]|done|intros ?; growing|].
  - split_and!; [done|set_solver|done].
  - intros l ii r t Hft (Ht & Hc & Hlen). cbn in Hlen. apply wlp_opt. intros op _.
    eapply gwp_then; [apply Queue_ok; [exact Ht|done|done|lia|done]|done|intros ?; growing|].
    intros w u _ [Hu Hw]. apply gwp_ret. split_and!.
    + eapply prepared_perm; [|exact Hu]. by rewrite Permutation_app_comm.
    + set_solver.
    + rewrite length_app. cbn. lia.
  - intros works t3 _ (H3 & Hc & Hlen). apply gwp_get. cbn [length] in Hlen.
    eapply gwp_then; [by apply Results_ok|done|intros ?; growing|]. intros err t4 _ H4. apply gwp_ret.
    eapply search_ok_le; [|exact H4]. pose proof (child_nonneg kd). unfold MAX_WORK_NR. nia.
Qed.

(** * The loop *)

(** Let go of the deepest state; the member that pointed to it is set later. *)
Lemma put_deepest_step kd b X s old : search_ok kd b X [] [] s -> tfits s -> m_max_depth_state s = Some old ->
  gwp (on_states (states_put (Some old))) (fun _ t => exists v, t = set_m_states v s /\
    forall m, search_ok kd b X [] [] (set_max_depth m None t)) (fun _ _ => False) s.
Proof.
  intros H Hf E. pose proof (held_few _ _ _ _ _ _ _ _ H Hf) as Hfew. destruct H as (g & Hc & H). unfold held in *.
  rewrite E in *. cbn in Hc, Hfew. apply wlp_zoom, wp_wlp.
  assert (X ++ m_open_list s ++ [old] ≡ₚ old :: X ++ m_open_list s) as Hp.
  { rewrite app_assoc. by rewrite Permutation_app_comm. }
  eapply wp_mono; [eapply put_counted; [by eapply counted_perm|exact Hf| |set_solver]| |done].
  - unfold few in *. rewrite (Permutation_length Hp) in Hfew. cbn in Hfew. lia.
  - intros ? v [Hv _] _. exists v. split; [done|]. intros m. exists g. split; [|exact H].
    unfold held. cbn. by rewrite app_nil_r.
Qed.

Lemma take_deepest kd b cur X s m : search_ok kd b X [] [] (set_max_depth m None s) -> tfits s -> cur ∈ X ->
  gwp (on_states (state_add_ref cur)) (fun _ t => search_ok kd b X [] [] t) (fun _ _ => False) (set_max_depth m (Some cur) s).
Proof.
  intros H Hf HX. pose proof (held_few _ _ _ _ _ _ _ _ H Hf) as Hfew. destruct H as (g & Hc & H).
  apply wlp_zoom, wp_wlp. eapply wp_mono; [eapply add_ref_counted; [exact Hc|exact Hf|exact Hfew|]| |done].
  - unfold held. set_solver.
  - intros ? v Hv _. exists g. split; [|exact H]. eapply counted_perm; [|exact Hv]. unfold held. cbn.
    by rewrite app_nil_r, app_assoc, (Permutation_app_comm _ [cur]).
Qed.

Lemma note_depth_ok kd b cur X s : search_ok kd b X [] [] s -> tfits s -> cur ∈ X -> (length X <= 2)%nat ->
  gwp (note_depth cur) (fun _ t => search_ok kd b X [] [] t) (fun _ _ => True) s.
Proof.
  intros H Hf Hcur HX. unfold note_depth.
  eapply near_next; [apply near_quiet, quiet_st_at|exact H|done|intros ?; growing|]. intros x t1 Hf1 H1 E1.
  apply gwp_get. unfold when. destruct (_ <? _); [|by apply gwp_ret].
  eapply (gwp_then _ _ (fun _ t => forall m, search_ok kd b X [] [] (set_max_depth m None t)) _ (fun _ _ => True));
    [|done|intros ?; growing|].
  - destruct (m_max_depth_state t1) as [old|] eqn:E.
    + eapply gwp_mono; [by apply put_deepest_step| |done]. by intros ? t (v & _ & Ht).
    + apply gwp_ret. intros m. destruct H1 as (g & Hc & H1). exists g. split; [|done]. unfold held in *. cbn. by rewrite E in Hc.
  - intros ? t Hft Ht. apply gwp_modify.
    eapply gwp_mono; [by apply take_deepest|by intros|done].
Qed.

(** With another bound, when depths are followed. *)
Lemma search_ok_turn kd b b' X N F s : (track -> b <= b') -> search_ok kd b X N F s -> search_ok kd b' X N F s.
Proof.
  intros Hb (g & Hc & Hn & Hl & Hk & Hg & H). exists g. split_and!; try done. intros Ht. destruct (H Ht). specialize (Hb Ht).
  split; [lia|done].
Qed.
(** A turn that goes on costs one. *)
Lemma RunTest_turn_ok `{EL : !EnvLaws} kd b st s : search_ok kd b [] [] [] s -> tfits s -> (track -> m_test_depth cfg < 2 ^ 31) ->
  gwp (RunTest_turn mem cfg st)
    (fun f t => exists kd', search_ok kd' (match f with Next _ => b - 1 | Break _ => b end) [] [] [] t) (fun _ _ => True) s.
Proof.
  intros H Hf HD. unfold RunTest_turn. apply gwp_get.
  destruct (m_open_list s) as [|cur rest] eqn:Ho; [by apply gwp_ret; exists kd|]. apply gwp_modify.
  (* the state taken from the list *)
  assert (exists d, search_ok (cur, d) (b - weight cfg d) [cur] [] [] (set_open_list rest s) /\
    (track -> 0 <= d <= m_test_depth cfg)) as (d & H1 & Hd).
  { destruct H as (g & Hc & Hn & _ & _ & _ & H). exists (g cur). rewrite Ho in *. split.
    - exists g. unfold held in *. rewrite Ho in Hc. cbn [app m_open_list set_open_list m_states m_max_depth_state] in *.
      split_and!; [done| |cbn; lia|done|set_solver|].
      + by apply NoDup_cons in Hn as [_ ?].
      + intros [Hb Hg]%H. cbn [cost foldr] in Hb. split; [unfold cost in *; lia|]. intros j Hj. apply Hg. set_solver.
    - intros [_ Hg]%H. apply Hg. set_solver. }
  assert (forall A (a : A) b' Q t, tfits t -> search_ok (cur, d) b' [cur] [] [] t ->
    (forall u, search_ok (cur, d) b' [] [] [] u -> Q a u) ->
    gwp (on_states (states_put (Some cur)) ;;; ret a) Q (fun _ _ => True) t) as Hput.
  { intros A a b' Q t Ht Hk HQ.
    eapply gwp_then; [apply (t_put cfg track (cur, d) b' cur [] [] []); [done|done|set_solver]|done|intros ?; growing|].
    intros ? u _ (Hu & _). by apply gwp_ret, HQ. }
  assert (0 <= weight cfg d) as Hw0 by (apply Z.pow_nonneg; lia).
  eapply gwp_then; [apply (note_depth_ok (cur, d) (b - weight cfg d) cur [cur]); [done|done|set_solver|cbn; lia]|done|intros ?; growing|].
  intros ? t1 Hf1 H2. destruct (0 <? m_stop_test s).
  { eapply Hput; [done|exact H2|]. intros u Hu. exists (cur, d). eapply search_ok_le; [|exact Hu]. lia. }
  eapply gwp_then; [apply (t_read cfg track (cur, d) (b - weight cfg d) [cur] [] []); [exact H2|set_solver|set_solver]|done|intros ?; growing|].
  intros x t2 _ [-> Hx]. cbn [snd] in Hx. rewrite Hx.
  assert (track -> s32 d = d) as Hs32.
  { intros Ht. specialize (Hd Ht). specialize (HD Ht). unfold s32. destruct (Z.ltb_spec d (2 ^ 31)); lia. }
  destruct (Z.leb_spec (m_test_depth cfg) (s32 d)) as [Hle|Hlt].
  - (* a state of the greatest depth *)
    eapply near_next; [apply near_quiet, quiet_Verify|exact H2|done|intros ?; growing|]. intros ir t3 Hf3 H4 _.
    eapply Hput; [done|exact H4|]. intros u Hu. exists (cur, d). eapply search_ok_turn; [|exact Hu].
    intros Ht. specialize (Hd Ht). unfold weight. replace (m_test_depth cfg - d) with 0; [|rewrite Hs32 in Hle by done]; lia.
  - (* its children cost less *)
    assert (expandable (cur, d)) as Hexp.
    { intros Ht. specialize (Hd Ht). specialize (HD Ht). rewrite Hs32 in Hlt by done. cbn. lia. }
    assert (forall (r : ERROR_CODE * list TRACE_ENTRY) t3, tfits t3 -> search_ok (cur, d) (b - weight cfg d + MAX_WORK_NR * child (cur, d)) [cur] [] [] t3 ->
      gwp (on_states (states_put (Some cur));;;
           ret (if m_stop_on_error cfg && bool_decide (r.1 <> ERR_OK) then Break r else Next r))
        (fun f t => exists kd', search_ok kd' (match f with Next _ => b - 1 | Break _ => b end) [] [] [] t) (fun _ _ => True) t3) as Hend.
    { intros r t3 Hf3 H4. eapply Hput; [done|exact H4|]. intros u Hu. exists (cur, d).
      assert (track -> weight cfg d = 513 * child (cur, d) /\ 1 <= child (cur, d)) as Hw.
      { intros Ht. destruct (Hexp Ht) as [Hd' _]. cbn [snd] in Hd'. unfold child, weight. cbn [snd].
        split; [|pose proof (Z.pow_pos_nonneg 513 (m_test_depth cfg - (d + 1)) ltac:(lia) ltac:(lia)); lia].
        replace (m_test_depth cfg - d) with (Z.succ (m_test_depth cfg - (d + 1))) by lia. apply Z.pow_succ_r. lia. }
      destruct (_ && _); (eapply search_ok_turn; [|exact Hu]); intros Ht; specialize (Hw Ht); unfold MAX_WORK_NR; lia. }
    eapply (gwp_then _ _ (fun _ t => search_ok (cur, d) (b - weight cfg d + MAX_WORK_NR * child (cur, d)) [cur] [] [] t) _
      (fun _ _ => True)); [|done|intros ?; growing|intros r t3 Hf3 H4; by apply Hend].
    destruct (1 <? m_thread_num cfg).
    + apply (Enumerate_Thread_ok (cur, d)); [exact H2|done|set_solver|cbn; lia|done].
    + apply (EnumerateOpV2_ok (cur, d)); [exact H2|done|set_solver|cbn; lia|done].
Qed.
End Runs.
