(* ===== verification/SearchEnd.v ===== *)
(** SearchEnd: what a search that has ended has done. *)
From S2P Require Export SearchRun.

Section Ends.
Context {W : Type} `{FS : IFsSimulator W} `{EV : Env} `{EX : Exceptions} (mem : CFsState) (cfg : TestConfig).
Abbreviation T := (CExTester W).
Abbreviation growing := (keeps (tgrew (W := W))).
Implicit Types (s t : T) (X N F : list Z) (kd : Z * Z).

(** ** The first state *)
Definition prepared_at (d : Z) s : Prop :=
  m_open_list s = [0] /\ m_max_depth_state s = None /\ counted (fun _ => d) [0] [] (m_states s).

Lemma first_state (w : W) : exists v, runs (states_get mem) (states_new true w) 0 v /\
  counted (fun _ => st_depth mem) [0] [] v.
Proof.
  eexists. split; [reflexivity|].
  assert (counted (fun _ => st_depth mem) [] [] (states_new true w)) as H0.
  { exists [], []. split_and!; [apply pool_ok_new|done|set_solver|set_solver]. }
  pose proof (get_counted mem _ _ _ _ H0) as [H _]. apply (counted_known _ 0 (st_depth mem)) in H.
  - destruct H as (L & fl & H & Hd & HF & Hg). exists L, fl. split_and!; [done|done|done|].
    intros i Hi Hn. specialize (Hg i Hi Hn). unfold with_depth in Hg. by destruct (decide _).
  - by eexists.
Qed.

Lemma PreTest_ok factory (w : W) :
  wlp (PreTest mem factory) (fun _ t => prepared_at (st_depth mem) t) (fun _ _ => True) (tester_new w).
Proof.
  destruct (first_state w) as (v & Hr & Hv). unfold PreTest. apply wlp_bind, wlp_zoom, wp_wlp.
  eapply runs_wp; [exact Hr|]. set (s1 := set_m_states v (tester_new w)).
  eapply wlp_then; [|intros fs t1 H1].
  { eapply wlp_mono; [apply (near_quiet _ (quiet_on_fs factory fs_Clone) s1)|intros ? ? H; exact H|done]. }
  eapply wlp_then; [|intros ? t2 H2].
  { eapply wlp_mono; [apply (near_Initialize 0 (Some fs) t1)|intros ? ? H; exact H|done]. }
  wlp_steps. eapply wlp_then; [|intros ? t3 H3].
  { eapply wlp_mono; [apply (near_quiet _ (quiet_on_fs factory fs_GetFsInfo))|intros ? ? H; exact H|done]. }
  wlp_steps. cbn beta in *. destruct H1 as (P1 & E1 & D1), H2 as (P2 & E2 & D2), H3 as (P3 & E3 & D3). cbn in E3, D3.
  split_and!; [by rewrite E3, E2, E1|by rewrite D3, D2, D1|].
  eapply counted_same; [exact P3|]. eapply counted_same; [exact P2|]. by eapply counted_same.
Qed.

Lemma prepared_ok track d s : prepared_at d s -> (track -> 0 <= d <= m_test_depth cfg) ->
  search_ok cfg track (0, d) (weight cfg d) [] [] [] s.
Proof.
  intros (Eo & Ed & Hc) Ht. exists (fun _ => d). unfold held. rewrite Eo, Ed.
  split_and!; [done|apply NoDup_singleton|cbn; lia|done|set_solver|]. intros H. specialize (Ht H). cbn. split; [lia|done].
Qed.

(** ** The end *)
Definition search_over (l : list Z) s : Prop := (exists g, counted g l [] (m_states s)) /\ m_max_depth_state s = None.

Lemma RunTest_ok `{EL : !EnvLaws} kd b fuel ops s : search_ok cfg False kd b [] [] [] s -> tfits s ->
  gwp (RunTest mem cfg fuel ops) (fun _ t => search_over (m_open_list t) t /\ NoDup (m_open_list t)) (fun _ _ => True) s.
Proof.
  intros H Hf. unfold RunTest. set (ok t := exists kd b, search_ok cfg False kd b [] [] [] t).
  eapply gwp_then; [apply (gwp_mwhile _ _ _ (fun _ t => ok t) (fun _ t => ok t) (fun _ _ => True));
    [by exists kd, b|intros ?; growing|]|done|intros ?; growing|].
  - intros a t Hft (kd' & b' & Ht). eapply gwp_mono; [by apply (RunTest_turn_ok mem cfg False kd' b')| |done].
    intros [x|x] u (kd2 & Hu); by eexists _, _.
  - intros [err ops'] t Hft (kd' & b' & Ht). apply gwp_get.
    assert (forall u, search_ok cfg False kd' b' [] [] [] u -> m_max_depth_state u = None ->
      search_over (m_open_list u) u /\ NoDup (m_open_list u)) as Hend.
    { intros u (g & Hc & Hn & _) E. unfold held in Hc. rewrite E in Hc. cbn in Hc. rewrite app_nil_r in *.
      split; [split; [by exists g|done]|done]. }
    destruct (m_max_depth_state t) as [old|] eqn:E.
    + eapply (gwp_then _ _ (fun _ u => search_over (m_open_list u) u /\ NoDup (m_open_list u)) _ (fun _ _ => True));
        [|done|intros ?; growing|intros ? u _ Hu; by apply gwp_ret].
      eapply gwp_then; [by apply (put_deepest_step cfg False kd' b' [])|done|intros ?; growing|].
      intros ? u _ (v & _ & Hv) _. by apply Hend.
    + intros _. by apply Hend.
Qed.

(** Emptying the open list. *)
Lemma FinishTest_ok s : search_over (m_open_list s) s -> NoDup (m_open_list s) -> tfits s ->
  exists t, runs FinishTest s tt t /\ search_over [] t /\ m_open_list t = [].
Proof.
  intros [[g H] E] Hn Hf. unfold FinishTest. apply wp_runs_unit. change (wp (bind get ?k) ?Q ?P s) with (wp (k s) Q P s). cbv beta.
  assert (few (m_open_list s)) as Hfew.
  { destruct H as (L & fl & H & _). unfold few, tfits, fits in *.
    assert (Z.of_nat (length (m_open_list s)) <= Z.max 0 (Z.of_nat (length (ss_states (m_states s))))) as Ho; [|lia].
    apply NoDup_bounded; [done|]. intros i Hi. apply (po_all _ _ _ _ H). apply elem_of_app. left. by apply (po_roots _ _ _ _ H). }
  eapply (wp_then _ _ (fun _ t => search_over [] t)); [|by intros ? t [Ht E']].
  eapply wp_mono; [apply (wp_mfor _ _ (fun dn t => search_over (drop (length dn) (m_open_list s)) t /\ tfits t) (fun _ _ => False))| |done].
  - split; [|done]. split; [by exists g|done].
  - intros dn x rest t El [[[g' Ht] Et] Hft]. rewrite El in *. rewrite drop_app_length in Ht. apply wp_zoom.
    eapply wp_mono; [eapply put_counted; [exact Ht|done| |set_solver]| |done].
    + unfold few in *. rewrite length_app in Hfew. cbn in Hfew. lia.
    + intros ? v [Hv Hl]. unfold tfits, fits in *. cbn. rewrite Hl. split; [|done]. split; [|done]. exists g'.
      assert (drop (length (dn ++ [x])) (dn ++ x :: rest) = rest) as ->; [|exact Hv].
      change (x :: rest) with ([x] ++ rest). rewrite app_assoc. apply drop_app_length.
  - intros ? t [Ht _]. by rewrite drop_all in Ht.
Qed.

Lemma pool_all_free (u : CStateManager W) L fl : pool_ok u [] L fl ->
  L = [] /\ fl ≡ₚ range 0 (Z.of_nat (length (ss_states u))).
Proof.
  intros H. assert (L = []) as ->.
  { destruct L as [|i L]; [done|]. assert (reach (ss_states u) [] i) as Hr by (eapply live_reach; [done|set_solver]).
    exfalso. clear H. induction Hr as [? []%elem_of_nil|]; done. }
  split; [done|]. destruct H as [Hnd Hall _ _ _ _ _ _]. apply NoDup_Permutation; [done|apply NoDup_seqZ|].
  intros i. rewrite elem_of_range. apply Hall.
Qed.

(** C19: a search that ends without an exception gives back every state that it
    took.  For every order in which the worker threads finish and every number
    of threads, after the test thread has finished the open list is empty, the
    deepest state is let go, and the free list of the pool holds every state
    ever allocated, each once: no state is leaked and none is put back twice. *)
Theorem search_returns_states `{EL : !EnvLaws} fuel ops factory w ir s :
  runs (PreTest mem factory ;;; RunTest mem cfg fuel ops) (tester_new w) ir s ->
  Z.of_nat (length (ss_states (m_states s))) < 2 ^ 31 - 4096 ->
  exists t fl, runs (RunTest_thread mem cfg fuel ops factory) (tester_new w) ir t /\
    m_open_list t = [] /\ m_max_depth_state t = None /\
    free_list_at (ss_states (m_states t)) (ss_free_list (m_states t)) fl /\
    fl ≡ₚ range 0 (Z.of_nat (length (ss_states (m_states t)))) /\
    ss_free_nr (m_states t) = Z.of_nat (length (ss_states (m_states t))).
Proof.
  intros Hrun Hf.
  assert (gwp (PreTest mem factory ;;; RunTest mem cfg fuel ops)
    (fun _ t => search_over (m_open_list t) t /\ NoDup (m_open_list t)) (fun _ _ => True) (tester_new w)) as G.
  { eapply gwp_then; [eapply wlp_mono; [apply PreTest_ok|intros ? t Ht _; exact Ht|done]|done| |].
    - intros ?. unfold RunTest. growing.
    - intros ? t Hft Ht. eapply RunTest_ok; [by apply (prepared_ok False _ _ Ht)|done]. }
  unfold gwp, wlp in G. rewrite Hrun in G. destruct (G Hf) as [Ho Hn].
  destruct (FinishTest_ok s Ho Hn Hf) as (t & Hr & ([g (L & fl & Hp & _)] & Ed) & Eo).
  destruct (pool_all_free _ _ _ Hp) as [-> Hfl].
  exists t, fl. split_and!; try done; [|apply (po_free _ _ _ _ Hp)|].
  - unfold RunTest_thread. eapply runs_bind; [unfold runs, try_catch; by rewrite Hrun|]. cbn beta.
    eapply runs_bind; [exact Hr|done].
  - destruct Hp as [_ _ _ _ _ _ Hnr _]. rewrite Hnr. rewrite (Permutation_length Hfl).
    unfold range. rewrite length_seqZ. lia.
Qed.

(** ** How long it takes *)

(** The loop of [RunTest] after [n] turns, when none of them was the last. *)
Fixpoint turns (n : nat) (st : ERROR_CODE * list TRACE_ENTRY) s : option ((ERROR_CODE * list TRACE_ENTRY) * T) :=
  match n with
  | O => Some (st, s)
  | S n' => match RunTest_turn mem cfg st s with
            | (Ret (Next st'), s') => turns n' st' s'
            | _ => None
            end
  end.
Lemma turns_S n st s : turns (S n) st s =
  match turns n st s with
  | Some (st', s') => match RunTest_turn mem cfg st' s' with (Ret (Next a), u) => Some (a, u) | _ => None end
  | None => None
  end.
Proof.
  revert st s. induction n as [|n IH]; intros st s.
  - cbn. by destruct (RunTest_turn mem cfg st s) as [[[a|a]|e|] u].
  - cbn [turns]. destruct (RunTest_turn mem cfg st s) as [[[a|a]|e|] u]; [|done..]. rewrite <- IH. done.
Qed.
Lemma turns_grew n st s st' t : turns n st s = Some (st', t) -> tgrew s t.
Proof.
  revert st s. induction n as [|n IH]; intros st s; cbn [turns]; [by intros [= <- <-]|].
  pose proof (growing_RunTest_turn mem cfg st s) as H. unfold wlp in H.
  destruct (RunTest_turn mem cfg st s) as [[[a|a]|e|] u]; [|done..]. intros Ht%IH. unfold tgrew, grew in *. lia.
Qed.
Lemma cost_nonneg g (l : list Z) : 0 <= cost cfg g l.
Proof.
  induction l as [|i l IH]; [done|]. unfold cost in *. cbn [foldr].
  assert (0 <= weight cfg (g i)) by (apply Z.pow_nonneg; lia). lia.
Qed.
Lemma turns_bounded `{EL : !EnvLaws} kd b n st s st' t : search_ok cfg True kd b [] [] [] s -> m_test_depth cfg < 2 ^ 31 ->
  turns n st s = Some (st', t) -> tfits t -> Z.of_nat n <= b.
Proof.
  intros H HD. revert kd b st s H. induction n as [|n IH]; intros kd b st s H; cbn [turns].
  - intros _ _. destruct H as (g & _ & _ & _ & _ & _ & H). destruct (H I) as [Hb _]. pose proof (cost_nonneg g (m_open_list s)). lia.
  - intros Ht Hf. assert (tfits s) as Hfs.
    { apply (fits_grew (m_states s) (m_states t)); [|exact Hf]. by apply (turns_grew (S n) st s st' t). }
    pose proof (RunTest_turn_ok mem cfg True kd b st s H Hfs (fun _ => HD)) as Hok. unfold gwp, wlp in Hok.
    destruct (RunTest_turn mem cfg st s) as [[[a|a]|e|] u]; [|done..].
    assert (tfits u) as Hfu by (apply (fits_grew (m_states u) (m_states t)); [by apply (turns_grew n a u st' t)|exact Hf]).
    destruct (Hok Hfu) as [kd' Hu]. specialize (IH kd' (b - 1) a u Hu Ht Hf). lia.
Qed.

(** C20: the search ends.  From the state that [PreTest] leaves, after at most
    [513 ^ (D - d)] turns of the loop of [RunTest], where [D] is the depth of the
    test and [d] the depth of the first state, the next turn is not followed by
    another, unless it takes the pool beyond the states that a 32-bit reference
    count can count.  This holds for every number of worker threads, every order
    in which they finish and every behaviour of the file systems; a state has at
    most [MAX_WORK_NR = 512] children. *)
Theorem search_terminates `{EL : !EnvLaws} factory w ops s1 :
  runs (PreTest mem factory) (tester_new w) tt s1 ->
  0 <= st_depth mem <= m_test_depth cfg -> m_test_depth cfg < 2 ^ 31 -> tfits s1 ->
  exists n st s, Z.of_nat n <= 513 ^ (m_test_depth cfg - st_depth mem) /\
    turns n (ERR_OK, ops) s1 = Some (st, s) /\
    forall st' s', RunTest_turn mem cfg st s = (Ret (Next st'), s') -> 2 ^ 31 - 4096 <= Z.of_nat (length (ss_states (m_states s'))).
Proof.
  intros Hpre Hd HD Hf. pose proof (PreTest_ok factory w) as Hp. unfold wlp in Hp. rewrite Hpre in Hp.
  apply (prepared_ok True) in Hp; [|done]. set (b := 513 ^ _). change (weight cfg (st_depth mem)) with b in Hp.
  assert (0 <= b) as Hb by (apply Z.pow_nonneg; lia).
  assert (forall m, (exists n st s, (n <= m)%nat /\ turns n (ERR_OK, ops) s1 = Some (st, s) /\
      forall st' s', RunTest_turn mem cfg st s = (Ret (Next st'), s') -> ~ tfits s') \/
    exists st s, turns (S m) (ERR_OK, ops) s1 = Some (st, s) /\ tfits s) as Hcase.
  { assert (forall n st s, turns n (ERR_OK, ops) s1 = Some (st, s) ->
      (forall st' s', RunTest_turn mem cfg st s = (Ret (Next st'), s') -> ~ tfits s') \/
      exists st' s', turns (S n) (ERR_OK, ops) s1 = Some (st', s') /\ tfits s') as Hone.
    { intros n st s Hn. rewrite turns_S, Hn. destruct (RunTest_turn mem cfg st s) as [[[a|a]|e|] u]; [|by left..].
      destruct (tfits_dec u); [right; by exists a, u|left; by intros ? ? [= <- <-]]. }
    induction m as [|m [(n & st & s & Hn & H)|(st & s & H & _)]].
    - destruct (Hone 0%nat _ _ eq_refl) as [H|H]; [left|by right]. by exists 0%nat, (ERR_OK, ops), s1.
    - left. exists n, st, s. split; [lia|done].
    - destruct (Hone _ _ _ H) as [H'|H']; [left|by right]. by exists (S m), st, s. }
  destruct (Hcase (Z.to_nat b)) as [(n & st & s & Hn & Ht & Hlast)|(st & s & Ht & Hs)].
  - exists n, st, s. split_and!; [lia|done|]. intros st' s' H%Hlast. unfold tfits, fits in H. lia.
  - pose proof (turns_bounded _ _ _ _ _ _ _ Hp HD Ht Hs). lia.
Qed.
End Ends.
