(* ===== verification/Statistic.v ===== *)
(** Statistic: the random test, statistic_tester.cpp.

    The states of a test come from a pool of its own, in which the states share
    one file system; [m_states] is that pool here.  The file of parameters that
    a test writes and its counters for the screen are left out. *)
From S2P Require Export Tester.

Section Statistic.
Context {W : Type} `{FS : IFsSimulator W} `{EV : Env} `{EX : Exceptions} (mem : CFsState) (cfg : TestConfig).
Abbreviation T := (CExTester W).

(** [CExStatisticTester::GenerateOps] for one entry.  The test whether the path
    is the root compares pointers and always holds. *)
Definition stat_GenerateOps_file (op_size file_nr : Z) (file : CRefFile) (g : OpList) : M T OpList :=
  let path := m_fn file in
  if m_is_dir file then
    let child_num := rf_size file in
    if m_max_child_num cfg <=? child_num then ret g else
    if w64 (m_max_dir_depth cfg - 1) <=? m_depth file then ret g else
    if MAX_FILE_NUM <=? file_nr then ret g else
    g <- AddOp op_size (op_on_path OP_FILE_CREATE path) g ;;
    g <- AddOp op_size (op_on_path OP_DIR_CREATE path) g ;;
    if child_num =? 0 then AddOp op_size (op_on_path OP_DIR_DELETE path) g else ret g
  else
    r1 <- rand ;;
    offset <- opt (scale_by_rand (rf_size file) r1) ;;
    r2 <- rand ;;
    opt (scale_by_rand (w32 (m_max_file_size cfg - offset)) r2) ;;;
    if m_is_open file then
      g <- (if m_ver file <? m_max_file_op cfg
            then AddOp op_size (op_on_file OP_FILE_WRITE path (rf_fid file) 0 (rf_size file)) g
            else ret g) ;;
      AddOp op_size (op_on_file OP_FILE_CLOSE path (rf_fid file) 0 0) g
    else
      g <- AddOp op_size (op_on_path OP_FILE_DELETE path) g ;;
      AddOp op_size (op_on_path OP_FILE_OPEN path) g.

Definition stat_GenerateOps (i : Z) (ops : list TRACE_ENTRY) (op_size : Z) : M T OpList :=
  x <- st_at i ;;
  let ref_fs := st_ref_fs x in
  let file_nr := GetFileNumber ref_fs in
  r <- mwhile (Z.to_nat (MAX_FILE_NUM + 1)) (m_used_list ref_fs, (ops, 0)) (fun st =>
    let '(ii, g) := st in
    if is_invalid32 ii then ret (Break st) else
    file <- opt (aget (m_files ref_fs) ii) ;;
    g <- stat_GenerateOps_file op_size file_nr file g ;;
    ret (Next (rf_next file, g))) ;;
  g <- AddOp op_size (op_on_fs OP_DEMOUNT_MOUNT) r.2 ;;
  if negb (m_check_power_loss cfg) then ret g else
  io_nr <- on_real i fs_GetCacheNum ;;
  if 0 <? io_nr then
    rr <- rand ;;
    AddOp op_size (op_with_rollback OP_POWER_OFF_RECOVER (rr mod io_nr)) g
  else ret g.

(** An error above [ERR_NO_SPACE] ends the test. *)
Definition is_failure (ir : ERROR_CODE) : bool := code_num ERR_NO_SPACE <? code_num ir.

(** The state is left and every number of its last writes is lost in turn, each
    time on a copy; the first failure is where the test goes on. *)
Definition PowerLossTest (cur start_io_nr : Z) (ir : ERROR_CODE) : M T (Z * ERROR_CODE) :=
  x <- st_at cur ;;
  let start_io_nr := if bool_decide (op_code (st_op x) = OP_POWER_OFF_RECOVER)
                     then w32 (start_io_nr - te_rollback (st_op x)) else start_io_nr in
  end_io_nr <- on_real cur fs_GetCacheNum ;;
  check (start_io_nr <=? end_io_nr) ;;;
  mloop (range 0 (end_io_nr - start_io_nr)) (cur, ir) (fun st ii =>
    p_state <- on_states (states_get mem) ;;
    on_states (DuplicateFrom p_state st.1) ;;;
    err <- TestPowerOutage cfg p_state ii ;;
    if is_failure err then
      on_states (states_put (Some st.1)) ;;; ret (Break (p_state, err))
    else on_states (states_put (Some p_state)) ;;; ret (Next st)).

(** One step of [OneTest] on the state [cur]: [None] when it is not counted. *)
Definition OneTest_step (cur : Z) : M T (option (Z * ERROR_CODE)) :=
  start_io_nr <- on_real cur fs_GetCacheNum ;;
  ir <- FsOperatorCore cfg cur ;;
  if bool_decide (ir = ERR_NO_OPERATION) then ret None else
  if m_check_power_loss cfg then r <- PowerLossTest cur start_io_nr ir ;; ret (Some r)
  else ret (Some (cur, ir)).

Record OneTestLoop := mkLoop { ol_depth : Z; ol_cur : Z; ol_ops : list TRACE_ENTRY; ol_ir : ERROR_CODE }.

(** A step that throws ends the loop with the state it began with. *)
Definition OneTest_turn (l : OneTestLoop) : M T (flow OneTestLoop) :=
  if negb (ol_depth l <? m_test_depth cfg) then ret (Break l) else
  g <- stat_GenerateOps (ol_cur l) (ol_ops l) MAX_WORK_NR ;;
  rr <- rand ;;
  op <- opt (aget g.1 (rr mod g.2)) ;;
  next_state <- on_states (states_get mem) ;;
  on_states (DuplicateWithoutFs next_state (ol_cur l)) ;;;
  sn <- next_sn ;;
  st_upd next_state (set_st_op (set_te_sn sn op)) ;;;
  on_states (states_put (Some (ol_cur l))) ;;;
  r <- try_catch (r <- OneTest_step next_state ;; ret (inl r))
         (fun e => ret (inr (match e with FsError c => c | JcError _ | OUT_OF_RANGE => ERR_GENERAL end))) ;;
  match r with
  | inr ir => ret (Break (mkLoop (ol_depth l) next_state g.1 ir))
  | inl None => ret (Next (mkLoop (ol_depth l) next_state g.1 ERR_NO_OPERATION))
  | inl (Some (cur, ir)) =>
      if is_failure ir then ret (Break (mkLoop (ol_depth l) cur g.1 ir))
      else UpdateFsParam cur ;;; ret (Next (mkLoop (ol_depth l + 1) cur g.1 ir))
  end.

Definition OneTest (fuel : nat) (src_state : Z) (ops : list TRACE_ENTRY) : M T ERROR_CODE :=
  cur_state <- on_states (states_duplicate mem src_state) ;;
  st_upd cur_state (set_st_unsafe 0) ;;;
  l <- mwhile fuel (mkLoop 0 cur_state ops ERR_OK) OneTest_turn ;;
  on_states (states_put (Some (ol_cur l))) ;;;
  ret (if is_failure (ol_ir l) then ol_ir l else ERR_OK).

(** [SingleThreadTest]: tests on copies of [factory]; the result is not kept. *)
Definition SingleThreadTest (fuel : nat) (factory m_test_times : Z) (ops : list TRACE_ENTRY) : M T unit :=
  on_fs factory fs_add_ref ;;;
  mfor (range 0 m_test_times) (fun _ =>
    ss <- on_states (states_get mem) ;;
    fs <- on_fs factory fs_Clone ;;
    on_states (state_Initialize ss (Some fs)) ;;;
    OneTest fuel ss ops ;;;
    on_states (states_put (Some ss))).

(** [PreTest] and [RunTest] of the test threads, one request after the other:
    each request copies the factory into the thread's file system. *)
Definition RunTestQueue_request (fuel : nat) (fs factory : Z) (ops : list TRACE_ENTRY) : M T ERROR_CODE :=
  init_state <- on_states (states_get mem) ;;
  on_fs fs (fun h => fs_CopyFrom h factory) ;;;
  on_states (state_Initialize init_state (Some fs)) ;;;
  on_fs fs fs_add_ref ;;;
  rand ;;;
  ir <- OneTest fuel init_state ops ;;
  on_states (states_put (Some init_state)) ;;;
  ret ir.
Definition RunTestQueue (fuel : nat) (factory : Z) (requests : nat) (ops : list TRACE_ENTRY) : M T (list ERROR_CODE) :=
  fs <- on_fs factory fs_Clone ;;
  res <- mfold (seq 0 requests) [] (fun l _ =>
    ir <- RunTestQueue_request fuel fs factory ops ;; ret (l ++ [ir])) ;;
  on_fs fs fs_release ;;;
  ret res.
End Statistic.
