(* ===== verification/FsWorld.v ===== *)
(** FsWorld: the simulators of a program, the objects behind [IFsSimulator*].

    A simulator is an object with a reference count; all of them keep their
    versions in one pool of storage nodes.  This is the implementation of the
    interface that the testers use. *)
From S2P Require Export Interface Fsck.

Record FsObject := mkObject { fo_fs : CF2fsSimulator StorageState; fo_ref : Z }.
(** A deleted object is [None]; objects are not moved. *)
Record FsWorld := mkWorld { fw_pool : StorageDataManager; fw_objects : list (option FsObject) }.

(** The recursion of [GetFileDirNum] goes down the directories of one medium. *)
Definition DIR_DEPTH : nat := Z.to_nat NODE_NR.

Section FsWorld.
Context `{External}.
Abbreviation Fs := (CF2fsSimulator StorageState).

Definition object_at (h : Z) : M FsWorld FsObject :=
  w <- get ;; o <- opt (aget (fw_objects w) h) ;; opt o.
Definition object_set (h : Z) (o : option FsObject) : M FsWorld unit :=
  w <- get ;; l <- opt (aset (fw_objects w) h o) ;; put (mkWorld (fw_pool w) l).

(** A method call: the object works on the pool as it is now. *)
Definition call {A} (m : M Fs A) (h : Z) : M FsWorld A :=
  w <- get ;;
  o <- object_at h ;;
  let f := fo_fs o in
  let '(r, f') := m (set_store (fw_pool w, (m_storage f).2) f) in
  put (mkWorld (m_storage f').1 (fw_objects w)) ;;;
  object_set h (Some (mkObject f' (fo_ref o))) ;;;
  match r with Ret a => ret a | Throw e => throw e | Fault => fault end.

Definition fs_object_add_ref (h : Z) : M FsWorld unit :=
  o <- object_at h ;; object_set h (Some (mkObject (fo_fs o) (w32 (fo_ref o + 1)))).
(** [release]: the last reference deletes the object and with it its storage. *)
Definition fs_object_release (h : Z) : M FsWorld unit :=
  o <- object_at h ;;
  object_set h (Some (mkObject (fo_fs o) (w32 (fo_ref o - 1)))) ;;;
  if negb (w32 (fo_ref o - 1) =? 0) then ret tt
  else call (on_store storage_destroy) h ;;; object_set h None.
(** The other object as it is now. *)
Definition copy_object (src : Z) (h : Z) : M FsWorld unit :=
  o <- object_at src ;; w <- get ;;
  call (InternalCopyFrom (set_store (fw_pool w, (m_storage (fo_fs o)).2) (fo_fs o))) h.
(** [factory] and [Clone]. *)
Definition fs_object_new : M FsWorld Z :=
  w <- get ;;
  put (mkWorld (fw_pool w)
         (fw_objects w ++ [Some (mkObject (simulator_new (fw_pool w, storage_new)) 1)])) ;;;
  ret (Z.of_nat (length (fw_objects w))).
Definition fs_object_Clone (h : Z) : M FsWorld Z :=
  n <- fs_object_new ;; copy_object h n ;;; ret n.

#[export] Instance f2fs_simulators : IFsSimulator FsWorld := {
  fs_add_ref := fs_object_add_ref;
  fs_release := fs_object_release;
  fs_Mount := call Mount;
  fs_Unmount := call Unmount;
  fs_Reset h rollback := call (Reset rollback) h;
  fs_fsck h fix_ := call (fsck fix_) h;
  fs_FileCreate h fn := call (FileCreate fn) h;
  fs_DirCreate h fn := call (DirCreate fn) h;
  fs_FileOpen h fn := call (FileOpen fn) h;
  fs_FileClose h fid := call (FileClose fid) h;
  fs_GetFileSize h fid := call (GetFileSize fid) h;
  fs_FileWrite h fid offset len := call (FileWrite fid offset len) h;
  fs_FileRead h fid offset secs := call (FileRead fid offset secs) h;
  fs_FileTruncate h fid offset len := call (FileTruncate fid offset len) h;
  fs_FileDelete h fn := call (FileDelete fn) h;
  fs_DirDelete h fn := call (DirDelete fn) h;
  fs_FileMove h src dst := call (FileMove src dst) h;
  fs_Clone := fs_object_Clone;
  fs_CopyFrom h src := copy_object src h;
  fs_GetFsInfo := call GetFsInfo;
  fs_GetCacheNum := call (on_store bs_cache_num);
  fs_GetFileDirNum h fid := call (GetFileDirNum DIR_DEPTH fid) h
}.
End FsWorld.
