(* ===== verification/TraceTester.v ===== *)
(** TraceTester: writing the operations that led to a state to a trace file, and
    replaying such a file; trace_tester.cpp and the output functions of
    extester_multithread.cpp and test_state.cpp.

    What is printed is left out; the calls that printing makes to the file
    systems are not.  The JSON file is the list of its entries. *)
From S2P Require Export Tester.
Import String.StringSyntax.
Open Scope Z_scope.

(** * Property trees

    [boost::property_tree] and the conversion of the jcvos library.  [pt_get] and
    [pt_get_num] are [get<std::string>(key)] and [get<FSIZE>(key)]: the first
    entry with the key, [None] when there is none or it is not of the type. *)
Class PropertyTree (P : Type) := {
  pt_empty : P;
  pt_add : cstring -> cstring -> P -> P;
  pt_add_num : cstring -> Z -> P -> P;
  pt_get : cstring -> P -> option cstring;
  pt_get_num : cstring -> P -> option Z;
  Utf8ToUnicode : cstring -> list Z
}.
(** An entry that was added is found when it is the first with its key. *)
Class PropertyTreeLaws (P : Type) `{PropertyTree P} := {
  pt_get_empty k : pt_get k pt_empty = None;
  pt_get_add k v p : pt_get k p = None -> pt_get k (pt_add k v p) = Some v;
  pt_get_add_ne k k' v p : k <> k' -> pt_get k (pt_add k' v p) = pt_get k p;
  pt_get_add_num_ne k k' v p : k <> k' -> pt_get k (pt_add_num k' v p) = pt_get k p;
  pt_get_num_add k v p : pt_get k p = None -> 0 <= v < 2 ^ 32 -> pt_get_num k (pt_add_num k v p) = Some v;
  pt_get_num_add_ne k k' v p : k <> k' -> pt_get_num k (pt_add k' v p) = pt_get_num k p;
  pt_get_num_add_num_ne k k' v p : k <> k' -> pt_get_num k (pt_add_num k' v p) = pt_get_num k p;
  Utf8ToUnicode_ascii s : Forall (fun c => 0 < c < 128) s -> Utf8ToUnicode s = s
}.

(** * Names of operations *)
Definition StringToOpId (str : list Z) : OP_CODE :=
  if bool_decide (str = chars "CreateFile"%string) then OP_FILE_CREATE
  else if bool_decide (str = chars "CreateDir"%string) then OP_DIR_CREATE
  else if bool_decide (str = chars "OpenFile"%string) then OP_FILE_OPEN
  else if bool_decide (str = chars "CloseFile"%string) then OP_FILE_CLOSE
  else if bool_decide (str = chars "OverWrite"%string) then OP_FILE_WRITE
  else if bool_decide (str = chars "Write"%string) then OP_FILE_WRITE
  else if bool_decide (str = chars "DeleteFile"%string) then OP_FILE_DELETE
  else if bool_decide (str = chars "DeleteDir"%string) then OP_DIR_DELETE
  else if bool_decide (str = chars "Move"%string) then OP_MOVE
  else if bool_decide (str = chars "Mount"%string) then OP_DEMOUNT_MOUNT
  else if bool_decide (str = chars "Verify"%string) then OP_FILE_VERIFY
  else if bool_decide (str = chars "PowerOutage"%string) then OP_POWER_OFF_RECOVER
  else OP_NOP.

Definition OpName (op_code : OP_CODE) : cstring :=
  chars (match op_code with
  | OP_NOP => "none       "
  | OP_FILE_CREATE => "CreateFile"
  | OP_DIR_CREATE => "CreateDir"
  | OP_FILE_DELETE => "DeleteFile"
  | OP_DIR_DELETE => "DeleteDir"
  | OP_MOVE => "Move"
  | OP_FILE_WRITE => "OverWrite"
  | OP_FILE_OPEN => "OpenFile"
  | OP_FILE_CLOSE => "CloseFile"
  | OP_DEMOUNT_MOUNT => "Mount"
  | OP_POWER_OFF_RECOVER => "PowerOutage"
  | _ => "unknown    "
  end)%string.

(** * One operation as an entry of the file *)
Section Entries.
Context {P : Type} `{PT : PropertyTree P}.

(** What the [OutputTrace] of extester_multithread.cpp writes. *)
Definition op_to_tree (step : Z) (op : TRACE_ENTRY) : P :=
  pt_add_num (chars "length"%string) (te_length op) (
  pt_add_num (chars "offset"%string) (te_offset op) (
  pt_add (chars "dst"%string) (te_dst op) (
  pt_add (chars "path"%string) (te_path op) (
  pt_add (chars "op_name"%string) (OpName (op_code op)) (
  pt_add_num (chars "step"%string) step pt_empty))))).
(** What the [OutputTrace] of trace_tester.cpp writes. *)
Definition op_to_tree_v1 (op : TRACE_ENTRY) : P :=
  pt_add_num (chars "length"%string) (te_length op) (
  pt_add_num (chars "offset"%string) (te_offset op) (
  pt_add (chars "path"%string) (te_path op) (
  pt_add (chars "op_name"%string) (OpName (op_code op)) pt_empty))).

(** The array of operations, counted from 0. *)
Definition trace_to_json (stack : list TRACE_ENTRY) : list P :=
  imap (fun step op => op_to_tree (Z.of_nat step) op) stack.
Definition trace_to_json_v1 (stack : list TRACE_ENTRY) : list P := op_to_tree_v1 <$> stack.

(** [strcpy_s(dst, src.c_str())] into an array of [MAX_PATH_SIZE + 1] characters:
    up to the first zero; a longer text ends the program. *)
Fixpoint c_str (s : list Z) : cstring :=
  match s with [] => [] | c :: s' => if c =? 0 then [] else c :: c_str s' end.
Definition strcpy_path (s : list Z) : option cstring :=
  if Z.of_nat (length (c_str s)) <=? MAX_PATH_SIZE then Some (c_str s) else None.

(** How [RunTest] reads an entry into a local variable that held [junk].  A value
    that is missing throws an exception of the library that nothing catches. *)
Definition tree_to_op (junk : TRACE_ENTRY) (prop_op : P) : option TRACE_ENTRY :=
  name ← pt_get (chars "op_name"%string) prop_op;
  let code := StringToOpId (Utf8ToUnicode name) in
  path ← strcpy_path (default [] (pt_get (chars "path"%string) prop_op));
  if bool_decide (code = OP_FILE_OVERWRITE \/ code = OP_FILE_WRITE) then
    offset ← pt_get_num (chars "offset"%string) prop_op;
    len ← pt_get_num (chars "length"%string) prop_op;
    Some (mkTrace code path (te_dst junk) (te_fid junk) (op_sn junk) offset len)
  else if bool_decide (code = OP_POWER_OFF_RECOVER) then
    offset ← pt_get_num (chars "offset"%string) prop_op;
    Some (mkTrace code path (te_dst junk) (te_fid junk) (op_sn junk) offset (te_length junk))
  else if bool_decide (code = OP_MOVE) then
    path2 ← pt_get (chars "dst"%string) prop_op;
    dst ← strcpy_path path2;
    Some (mkTrace code path dst (te_fid junk) (op_sn junk) (te_offset junk) (te_length junk))
  else Some (mkTrace code path (te_dst junk) (te_fid junk) (op_sn junk) (te_offset junk) (te_length junk)).
End Entries.

(** * What is printed of a state *)
Definition TRACE_FILES : Z := 1.
Definition TRACE_REAL_FS : Z := 2.
Definition TRACE_ENCODE : Z := 8.
Definition TRACE_REF_FS : Z := 16.
Definition TRACE_JSON : Z := 32.
Definition TRACE_SUMMARY : Z := 64.
Definition TRACE_DUMP_FS : Z := 128.
Definition has_option (option bit : Z) : bool := negb (Z.land option bit =? 0).

Section Trace.
Context {W : Type} `{FS : IFsSimulator W} `{XT : External} `{EV : Env} `{EX : Exceptions} {P : Type} `{PT : PropertyTree P}.
Context (mem : CFsState) (cfg : TestConfig).
Abbreviation T := (CExTester W).

(** [RealFsState]: an error is only reported. *)
Definition RealFsState (h : Z) (file_nr : bool) : M T unit :=
  try_catch (
    on_fs h fs_GetFsInfo ;;;
    when file_nr (on_fs h (fun h => fs_GetFileDirNum h 0) ;;; ret tt)) (fun _ => ret tt).

(** [CFsState::OutputState]; the length of the operation codes is the top byte
    of the options. *)
Definition OutputState (i option : Z) : M T unit :=
  x <- st_at i ;;
  when (has_option option TRACE_REAL_FS) (
    h <- opt (st_real_fs x) ;;
    try_catch (on_fs h fs_GetFsInfo ;;; on_fs h (fun h => fs_GetFileDirNum h 0) ;;; ret tt) (fun _ => ret tt)) ;;;
  when (has_option option TRACE_REF_FS) (
    opt (Encode MAX_ENCODE_SIZE (Z.shiftr option 24) (st_ref_fs x)) ;;; ret tt) ;;;
  when (has_option option TRACE_FILES) (
    mwhile (Z.to_nat (MAX_FILE_NUM + 1)) (m_used_list (st_ref_fs x)) (fun ii =>
      if is_invalid32 ii then ret (Break ii) else
      ref_file <- opt (aget (m_files (st_ref_fs x)) ii) ;;
      ret (Next (rf_next ref_file))) ;;; ret tt).

Definition with_opcode_len (option : Z) : Z := Z.lor option (w32 (Z.shiftl (m_opcode_len cfg) 24)).

(** The state and its ancestors; their operations, the oldest first, when the
    options ask for the file.  [option | TRACE_SUMMARY] is never zero. *)
Definition OutputTrace (state option : Z) : M T (list TRACE_ENTRY) :=
  x <- st_at state ;;
  h <- opt (st_real_fs x) ;;
  when (negb (Z.lor option TRACE_SUMMARY =? 0)) (RealFsState h true) ;;;
  let option := with_opcode_len option in
  s <- get ;;
  r <- mwhile (Datatypes.S (length (ss_states (m_states s)))) (Some state, []) (fun st =>
    let '(state, stack) := st in
    match state with
    | None => ret (Break st)
    | Some i =>
        OutputState i option ;;;
        x <- st_at i ;;
        ret (Next (st_parent x, if has_option option TRACE_JSON then st_op x :: stack else stack))
    end) ;;
  ret r.2.

(** [OutputTrace_Thread]: the file that is written, if any. *)
Definition OutputTrace_Thread (state : Z) (ir : ERROR_CODE) (option : Z) : M T (Datatypes.option (list P)) :=
  let option :=
    if option =? 0 then
      Z.lor (Z.lor TRACE_REF_FS TRACE_SUMMARY)
        (if bool_decide (ir <> ERR_OK) then Z.lor (Z.lor TRACE_FILES TRACE_ENCODE) TRACE_JSON else 0)
    else option in
  stack <- OutputTrace state option ;;
  ret (if has_option option TRACE_JSON then Some (trace_to_json stack) else None).

(** [OutputTrace(state)] of trace_tester.cpp. *)
Definition OutputTrace_v1 (state : Z) : M T (list P) :=
  s <- get ;;
  r <- mwhile (Datatypes.S (length (ss_states (m_states s)))) (Some state, []) (fun st =>
    let '(state, stack) := st in
    match state with
    | None => ret (Break st)
    | Some i =>
        on_real i fs_GetFsInfo ;;;
        x <- st_at i ;;
        mwhile (Z.to_nat (MAX_FILE_NUM + 1)) (m_used_list (st_ref_fs x)) (fun ii =>
          if is_invalid32 ii then ret (Break ii) else
          ref_file <- opt (aget (m_files (st_ref_fs x)) ii) ;;
          ret (Next (rf_next ref_file))) ;;;
        ret (Next (st_parent x, st_op x :: stack))
    end) ;;
  ret (trace_to_json_v1 r.2).

(** * The replay *)

(** The [switch] of [RunTest]; an operation without a test leaves [ir].  A null
    [ref_file] is dereferenced. *)
Definition RunTrace_switch (next_state : Z) (op : TRACE_ENTRY) (ir : ERROR_CODE) : M T ERROR_CODE :=
  match op_code op with
  | OP_FILE_CREATE => TestCreateFile next_state (te_path op)
  | OP_DIR_CREATE => TestCreateDir next_state (te_path op)
  | OP_FILE_DELETE => TestDeleteFile next_state (te_path op)
  | OP_DIR_DELETE => TestDeleteDir next_state (te_path op)
  | OP_MOVE => TestMoveFile next_state (te_path op) (te_dst op)
  | OP_FILE_WRITE =>
      ref_file <- on_ref next_state (ref_FindFile (te_path op)) ;;
      f <- opt ref_file ;;
      file <- ref_file_at next_state f ;;
      TestWriteFileV2 next_state (rf_fid file) (te_offset op) (te_length op) (te_path op)
  | OP_FILE_OPEN => TestOpenFile next_state (te_path op)
  | OP_FILE_CLOSE =>
      ref_file <- on_ref next_state (ref_FindFile (te_path op)) ;;
      f <- opt ref_file ;;
      file <- ref_file_at next_state f ;;
      TestCloseFile next_state (rf_fid file) (te_path op)
  | OP_DEMOUNT_MOUNT => TestMount cfg next_state
  | OP_POWER_OFF_RECOVER => TestPowerOutage cfg next_state (te_rollback op)
  | OP_FILE_VERIFY => Verify cfg next_state
  | _ => ret ir
  end.

Definition state_option : Z :=
  with_opcode_len (Z.lor (Z.lor (Z.lor TRACE_REF_FS TRACE_FILES) TRACE_ENCODE) TRACE_DUMP_FS).

(** One entry: on a copy of the current state, which then takes its place.  The
    handler of exceptions begins with [JCASSERT(0)]. *)
Definition RunTrace_turn (junk : TRACE_ENTRY) (st : Z * ERROR_CODE) (prop_op : P) : M T (Z * ERROR_CODE) :=
  let '(cur_state, ir) := st in
  op <- opt (tree_to_op junk prop_op) ;;
  next_state <- on_states (states_duplicate mem cur_state) ;;
  st_upd next_state (set_st_op op) ;;;
  x <- st_at next_state ;;
  fs <- opt (st_real_fs x) ;;
  ir <- try_catch (
    ir <- RunTrace_switch next_state op ir ;;
    OutputState next_state state_option ;;;
    ret ir) (fun _ => check false ;;; ret ir) ;;
  RealFsState fs false ;;;
  OutputTrace_Thread next_state ir (Z.lor (Z.lor TRACE_REF_FS TRACE_REAL_FS) TRACE_FILES) ;;;
  on_states (states_put (Some cur_state)) ;;;
  ret (next_state, ir).

(** [CExTraceTester::RunTest] on the entries of the file. *)
Definition RunTrace (junk : TRACE_ENTRY) (factory : Z) (ops : list P) : M T ERROR_CODE :=
  fs <- on_fs factory fs_Clone ;;
  cur_state <- on_states (states_get mem) ;;
  on_states (state_Initialize cur_state (Some fs)) ;;;
  r <- mfold ops (cur_state, ERR_OK) (RunTrace_turn junk) ;;
  on_states (states_put (Some r.1)) ;;;
  ret r.2.

(** [TraceTestVerify]: every block of the file carries its file and position. *)
Definition TraceTestVerify (h : Z) (fn : cstring) : M T unit :=
  r <- on_fs h (fun h => fs_FileOpen h fn) ;;
  let '(err, fid) := r in
  if bool_decide (err = ERR_MAX_OPEN_FILE) then ret tt else
  file_size <- on_fs h (fun h => fs_GetFileSize h fid) ;;
  let blk_nr := ROUND_UP_DIV file_size BLOCK_SIZE in
  data <- on_fs h (fun h => fs_FileRead h fid 0 file_size) ;;
  check (Z.of_nat (length data) <=? blk_nr + 10) ;;;
  mfor (range 0 (Z.of_nat (length data))) (fun ii =>
    d <- opt (aget data ii) ;;
    if negb (fd_fid d =? fid) || negb (fd_offset d =? ii) then throw ERR_APP else ret tt).
End Trace.
