(* ===== verification/TraceInv.v ===== *)
(** TraceInv: a trace file replays the operations of the search, and the replay
    gives back the states it takes. *)
From S2P Require Export TraceTester SearchEnd.
Import String.StringSyntax.

(** * Entries of the file *)
Section Entries.
Context {P : Type} `{PT : PropertyTree P} `{PL : !PropertyTreeLaws P}.

(** The operations that the search records. *)
Definition SEARCH_OPS : list OP_CODE :=
  [OP_FILE_CREATE; OP_DIR_CREATE; OP_FILE_DELETE; OP_DIR_DELETE; OP_MOVE; OP_FILE_WRITE;
   OP_FILE_OPEN; OP_FILE_CLOSE; OP_DEMOUNT_MOUNT; OP_POWER_OFF_RECOVER].

Lemma OpName_inv c : c ∈ SEARCH_OPS -> StringToOpId (Utf8ToUnicode (OpName c)) = c.
Proof.
  intros Hc. rewrite Utf8ToUnicode_ascii.
  - unfold SEARCH_OPS in Hc. repeat (apply elem_of_cons in Hc as [->|Hc]; [by vm_compute|]). by apply elem_of_nil in Hc.
  - destruct c; cbn; repeat constructor.
Qed.

(** A text that fits into an array of [MAX_PATH_SIZE + 1] characters. *)
Definition path_text (p : cstring) : Prop := Forall (fun c => c <> 0) p /\ Z.of_nat (length p) <= MAX_PATH_SIZE.
Lemma strcpy_path_text p : path_text p -> strcpy_path p = Some p.
Proof.
  intros [Hz Hl]. assert (c_str p = p) as E.
  { clear Hl. induction Hz as [|c p Hc _ IH]; [done|]. cbn [c_str]. destruct (Z.eqb_spec c 0); [done|]. by rewrite IH. }
  unfold strcpy_path. rewrite E. destruct (Z.leb_spec (Z.of_nat (length p)) MAX_PATH_SIZE); [done|lia].
Qed.

(** What the replay needs of an operation. *)
Definition replayable (o : TRACE_ENTRY) : Prop :=
  op_code o ∈ SEARCH_OPS /\ path_text (te_path o) /\
  (op_code o = OP_MOVE -> path_text (te_dst o)) /\
  (op_code o = OP_FILE_WRITE \/ op_code o = OP_POWER_OFF_RECOVER -> 0 <= te_offset o < 2 ^ 32) /\
  (op_code o = OP_FILE_WRITE -> 0 <= te_length o < 2 ^ 32).
Definition same_operation (o o' : TRACE_ENTRY) : Prop :=
  op_code o' = op_code o /\ te_path o' = te_path o /\
  (op_code o = OP_MOVE -> te_dst o' = te_dst o) /\
  (op_code o = OP_FILE_WRITE \/ op_code o = OP_POWER_OFF_RECOVER -> te_offset o' = te_offset o) /\
  (op_code o = OP_FILE_WRITE -> te_length o' = te_length o).

Ltac pt_get := repeat first
  [ rewrite pt_get_add_num_ne by done | rewrite pt_get_add_ne by done | rewrite pt_get_num_add_num_ne by done
  | rewrite pt_get_num_add_ne by done | rewrite pt_get_empty
  | rewrite pt_get_add | rewrite pt_get_num_add ].

Lemma op_to_tree_get step o :
  pt_get (chars "op_name"%string) (op_to_tree step o) = Some (OpName (op_code o)) /\
  pt_get (chars "path"%string) (op_to_tree step o) = Some (te_path o) /\
  pt_get (chars "dst"%string) (op_to_tree step o) = Some (te_dst o) /\
  (0 <= te_offset o < 2 ^ 32 -> pt_get_num (chars "offset"%string) (op_to_tree step o) = Some (te_offset o)) /\
  (0 <= te_length o < 2 ^ 32 -> pt_get_num (chars "length"%string) (op_to_tree step o) = Some (te_length o)).
Proof. unfold op_to_tree. split_and!; intros; by pt_get. Qed.

(** An operation of the search that was written is read back. *)
Lemma trace_entry_roundtrip junk step o : replayable o ->
  exists o', tree_to_op junk (op_to_tree step o) = Some o' /\ same_operation o o'.
Proof.
  intros (Hc & Hp & Hd & Ho & Hl). destruct (op_to_tree_get step o) as (E1 & E2 & E3 & E4 & E5).
  unfold tree_to_op. rewrite E1, E2. cbn [mbind option_bind from_option id]. rewrite (OpName_inv _ Hc), (strcpy_path_text _ Hp).
  cbn [mbind option_bind].
  destruct (bool_decide_reflect (op_code o = OP_FILE_OVERWRITE \/ op_code o = OP_FILE_WRITE)) as [Hw|Hw].
  { assert (op_code o = OP_FILE_WRITE) as Hw'.
    { destruct Hw as [Hw|Hw]; [exfalso; rewrite Hw in Hc; unfold SEARCH_OPS in Hc; set_solver|done]. }
    rewrite E4 by auto. cbn [mbind option_bind]. rewrite E5 by auto. eexists. split; [done|]. split_and!; try done; congruence. }
  destruct (bool_decide_reflect (op_code o = OP_POWER_OFF_RECOVER)) as [Hw'|Hw'].
  { rewrite E4 by auto. eexists. split; [done|]. split_and!; try done; cbn; intros; [congruence|tauto]. }
  destruct (bool_decide_reflect (op_code o = OP_MOVE)) as [Hm|Hm].
  { rewrite E3. cbn [mbind option_bind]. rewrite strcpy_path_text by auto. eexists. split; [done|]. split_and!; try done; cbn; intros; tauto. }
  eexists. split; [done|]. split_and!; try done; cbn; intros; tauto.
Qed.

(** The file of the search without worker threads has no destinations: a move in
    it is not read back. *)
Lemma move_not_replayed junk o : op_code o = OP_MOVE -> tree_to_op junk (op_to_tree_v1 o) = None.
Proof.
  intros Hm. unfold tree_to_op.
  assert (pt_get (chars "op_name"%string) (op_to_tree_v1 o) = Some (OpName OP_MOVE)) as -> by (unfold op_to_tree_v1; rewrite Hm; by pt_get).
  cbn [mbind option_bind]. rewrite OpName_inv by (unfold SEARCH_OPS; set_solver).
  destruct (strcpy_path _); [|done]. cbn [mbind option_bind].
  assert (pt_get (chars "dst"%string) (op_to_tree_v1 o) = None) as -> by (unfold op_to_tree_v1; by pt_get). done.
Qed.
Lemma op_to_tree_v1_get o :
  pt_get (chars "op_name"%string) (op_to_tree_v1 o) = Some (OpName (op_code o)) /\
  pt_get (chars "path"%string) (op_to_tree_v1 o) = Some (te_path o) /\
  (0 <= te_offset o < 2 ^ 32 -> pt_get_num (chars "offset"%string) (op_to_tree_v1 o) = Some (te_offset o)) /\
  (0 <= te_length o < 2 ^ 32 -> pt_get_num (chars "length"%string) (op_to_tree_v1 o) = Some (te_length o)).
Proof. unfold op_to_tree_v1. split_and!; intros; by pt_get. Qed.

(** Every other operation in it is read back as from the other file. *)
Lemma v1_entry junk step o : replayable o ->
  tree_to_op junk (op_to_tree_v1 o) = if bool_decide (op_code o = OP_MOVE) then None else tree_to_op junk (op_to_tree step o).
Proof.
  intros (Hc & Hp & Hd & Ho & Hl). destruct (bool_decide_reflect (op_code o = OP_MOVE)) as [Hm|Hm]; [by apply move_not_replayed|].
  destruct (op_to_tree_get step o) as (E1 & E2 & _ & E4 & E5). destruct (op_to_tree_v1_get o) as (F1 & F2 & F4 & F5).
  unfold tree_to_op. rewrite E1, E2, F1, F2. cbn [mbind option_bind from_option id]. rewrite (OpName_inv _ Hc), (strcpy_path_text _ Hp).
  cbn [mbind option_bind]. rewrite (bool_decide_false (op_code o = OP_MOVE)) by done.
  destruct (bool_decide_reflect (op_code o = OP_FILE_OVERWRITE \/ op_code o = OP_FILE_WRITE)) as [Hw|Hw].
  { assert (op_code o = OP_FILE_WRITE) as Hw'.
    { destruct Hw as [Hw|Hw]; [exfalso; rewrite Hw in Hc; unfold SEARCH_OPS in Hc; set_solver|done]. }
    rewrite E4, F4 by auto. cbn [mbind option_bind]. by rewrite E5, F5 by auto. }
  destruct (bool_decide_reflect (op_code o = OP_POWER_OFF_RECOVER)) as [Hw'|Hw']; [|done].
  by rewrite E4, F4 by auto.
Qed.
End Entries.

(** * What the tests leave alone *)
Create HintDb same_ops.

Section SameOps.
Context {W : Type} `{FS : IFsSimulator W} `{EV : Env} `{EX : Exceptions} (cfg : TestConfig).
Abbreviation T := (CExTester W).
Implicit Types s t : T.

(** The recorded operations and the random numbers drawn. *)
Definition ops_of s := (st_op <$> ss_states (m_states s), t_draws s, t_calls s).
Definition same_ops s t : Prop := ops_of t = ops_of s.
#[export] Instance same_ops_preorder : PreOrder same_ops.
Proof. split; unfold same_ops; [done|]. intros a b c. congruence. Qed.

Lemma ops_st_at i : keeps same_ops (st_at i).
Proof.
  intros s. unfold same_ops. apply wlp_zoom. unfold state_at, wlp, bind, get, opt.
  destruct (aget _ i); [|done]. cbn. by destruct s.
Qed.
Lemma ops_st_upd i f : (forall x, st_op (f x) = st_op x) -> keeps same_ops (st_upd i f).
Proof.
  intros Hf s. unfold same_ops. apply wlp_zoom. unfold state_upd, wlp, bind, get, opt, put, ret, fault.
  destruct (aget _ i) as [x|] eqn:Hx; [|done]. cbn.
  destruct (aset _ i (f x)) as [l|] eqn:Hl; [|done]. cbn. apply aset_Some in Hl as [Hb ->].
  unfold ops_of. cbn -[fmap]. rewrite list_fmap_insert, Hf, list_insert_id; [done|].
  apply aget_Some in Hx as [_ Hx]. by rewrite list_lookup_fmap, Hx.
Qed.
Lemma ops_on_world {A} (m : M W A) : keeps same_ops (on_states (on_world m)).
Proof. intros s. apply wlp_zoom. apply wlp_zoom. unfold wlp. by destruct (m _) as [[a|e|] w]. Qed.
End SameOps.
#[export] Hint Resolve ops_st_at ops_on_world : same_ops.

Ltac same_ops := repeat lazymatch goal with
  | |- keeps _ (st_upd _ _) => apply ops_st_upd; intros ?; try reflexivity
  | |- _ => keeps_step ltac:(eauto with same_ops)
  end.

Section SameOpsTests.
Context {W : Type} `{FS : IFsSimulator W} `{EV : Env} `{EX : Exceptions} (cfg : TestConfig).
Abbreviation keeps_ops := (keeps (same_ops (W := W))).

Lemma ops_on_ref {A} i (m : M CReferenceFs A) : keeps_ops (on_ref i m).
Proof. unfold on_ref. same_ops. Qed.
Lemma ops_on_real {A} i (m : Z -> M W A) : keeps_ops (on_real i m).
Proof. unfold on_real. same_ops. Qed.
Lemma ops_on_fs {A} h (m : Z -> M W A) : keeps_ops (on_fs h m).
Proof. unfold on_fs. same_ops. Qed.
Hint Resolve ops_on_ref ops_on_real ops_on_fs : same_ops.
Lemma ops_note_error i e : keeps_ops (note_error i e).
Proof. unfold note_error. same_ops. Qed.
Hint Resolve ops_note_error : same_ops.
Lemma ops_VerifyState r h : keeps_ops (VerifyState cfg r h).
Proof. unfold VerifyState, VerifyFiles, VerifyFile, verify_catch. same_ops. Qed.
Hint Resolve ops_VerifyState : same_ops.
Lemma ops_Verify i : keeps_ops (Verify cfg i).
Proof. unfold Verify. same_ops. Qed.
Lemma ops_VerifyForPower i : keeps_ops (VerifyForPower cfg i).
Proof. unfold VerifyForPower. same_ops. Qed.
Hint Resolve ops_Verify ops_VerifyForPower : same_ops.

(** No test records an operation or draws a number. *)
Lemma ops_tests i (p q : cstring) (a b c : Z) :
  keeps_ops (TestCreateFile i p) /\ keeps_ops (TestCreateDir i p) /\ keeps_ops (TestDeleteFile i p) /\
  keeps_ops (TestDeleteDir i p) /\ keeps_ops (TestMoveFile i p q) /\ keeps_ops (TestWriteFileV2 i a b c p) /\
  keeps_ops (TestOpenFile i p) /\ keeps_ops (TestCloseFile i a p) /\ keeps_ops (TestMount cfg i) /\
  keeps_ops (TestPowerOutage cfg i a).
Proof.
  split_and!; [unfold TestCreateFile|unfold TestCreateDir|unfold TestDeleteFile|unfold TestDeleteDir|unfold TestMoveFile
    |unfold TestWriteFileV2, ref_file_at|unfold TestOpenFile, ref_file_at|unfold TestCloseFile, ref_file_at|unfold TestMount
    |unfold TestPowerOutage]; same_ops.
Qed.
End SameOpsTests.

(** * Names are chosen by drawing numbers only *)
Section Draws.
Context {W : Type} `{FS : IFsSimulator W} `{EV : Env} `{EX : Exceptions} (cfg : TestConfig).
Abbreviation T := (CExTester W).
Implicit Types s t : T.

Definition only_draws s t : Prop := exists d, t = set_ticks d (t_calls s) s.
#[export] Instance only_draws_preorder : PreOrder only_draws.
Proof.
  split; [intros s; exists (t_draws s); by destruct s|].
  intros a b c (d & ->) (e & ->). by exists e.
Qed.

Lemma file_at_same f : keeps eq (file_at f).
Proof. unfold file_at. repeat keeps_step idtac. Qed.
Lemma FindFileIndex_same p : keeps eq (FindFileIndex p).
Proof. unfold FindFileIndex. repeat keeps_step ltac:(apply file_at_same). Qed.
Lemma IsExist_same p : keeps eq (IsExist p).
Proof. unfold IsExist. repeat keeps_step ltac:(apply FindFileIndex_same). Qed.
Lemma ref_FindFile_same p : keeps eq (ref_FindFile p).
Proof. unfold ref_FindFile. repeat keeps_step ltac:(apply FindFileIndex_same). Qed.

(** Reading the reference file system of a state changes nothing. *)
Lemma on_ref_same {A} i (m : M CReferenceFs A) : keeps eq m -> keeps eq (on_ref (W := W) i m).
Proof.
  intros Hm s. destruct (aget (ss_states (m_states s)) i) as [x|] eqn:Hx.
  2:{ unfold on_ref, wlp, bind at 1, st_at, on_states, zoom, state_at, bind, get, opt. by rewrite Hx. }
  assert (st_at i s = (Ret x, s)) as Es.
  { unfold st_at, on_states, zoom, state_at, bind, get, opt. rewrite Hx. by destruct s. }
  unfold on_ref, wlp, bind at 1. rewrite Es. cbn beta iota. specialize (Hm (st_ref_fs x)). unfold wlp in Hm.
  assert (st_upd i (set_st_ref_fs (st_ref_fs x)) s = (Ret tt, s)) as Eu.
  { rewrite (st_upd_eq i x) by done. do 2 f_equal. apply aget_Some in Hx as [_ Hx].
    rewrite list_insert_id; [by destruct s as [[]]|]. rewrite Hx. by destruct x. }
  destruct (m (st_ref_fs x)) as [[a|e|] r]; cbn beta iota; [subst r|subst r|]; unfold bind.
  - rewrite Eu. done.
  - rewrite Eu. done.
  - rewrite (st_upd_eq i x) by done. done.
Qed.
Lemma draws_of_same {A} (m : M T A) : keeps eq m -> keeps only_draws m.
Proof. intros Hm s. eapply wlp_mono; [apply Hm|..]; intros ? ? <-; reflexivity. Qed.
Lemma draws_rand : keeps only_draws rand.
Proof. intros s. by exists (t_draws s + 1). Qed.
Lemma draws_MakePathName i p : keeps only_draws (MakePathName i p).
Proof.
  unfold MakePathName, GenerateFn. repeat keeps_step ltac:(first [apply draws_rand|apply draws_of_same, on_ref_same, IsExist_same]).
Qed.
End Draws.

(** * The replay runs what the search ran *)
Section Replay.
Context {W : Type} `{FS : IFsSimulator W} `{EV : Env} `{EX : Exceptions} (cfg : TestConfig).
Abbreviation T := (CExTester W).
Implicit Types s t : T.

Definition count_unsafe (i : Z) : M T unit := st_upd i (fun x => set_st_unsafe (w32 (st_unsafe_mount_cnt x + 1)) x).
(** What the search does after it has chosen and recorded the operation [o]. *)
Definition search_test (i : Z) (o : TRACE_ENTRY) : M T ERROR_CODE :=
  match op_code o with
  | OP_FILE_CREATE => TestCreateFile i (te_path o)
  | OP_DIR_CREATE => TestCreateDir i (te_path o)
  | OP_FILE_DELETE => TestDeleteFile i (te_path o)
  | OP_DIR_DELETE => TestDeleteDir i (te_path o)
  | OP_MOVE => TestMoveFile i (te_path o) (te_dst o)
  | OP_FILE_WRITE => TestWriteFileV2 i (te_fid o) (te_offset o) (te_length o) (te_path o)
  | OP_FILE_OPEN => TestOpenFile i (te_path o)
  | OP_FILE_CLOSE => TestCloseFile i (te_fid o) (te_path o)
  | OP_DEMOUNT_MOUNT => TestMount cfg i
  | OP_POWER_OFF_RECOVER => ir <- TestPowerOutage cfg i (te_rollback o) ;; count_unsafe i ;;; ret ir
  | _ => ret ERR_OK
  end.
Lemma ops_search_test i o : keeps (same_ops (W := W)) (search_test i o).
Proof.
  destruct (ops_tests (W := W) cfg i (te_path o) (te_dst o) (te_fid o) (te_offset o) (te_length o))
    as (T1 & T2 & T3 & T4 & T5 & T6 & T7 & T8 & T9 & _).
  destruct (ops_tests (W := W) cfg i [] [] (te_rollback o) 0 0) as (_ & _ & _ & _ & _ & _ & _ & _ & _ & T10).
  unfold search_test, count_unsafe. destruct (op_code o); try assumption; same_ops.
Qed.

Definition with_op (i : Z) (o : TRACE_ENTRY) (x : CFsState) (d : Z) s : T :=
  set_ticks d (t_calls s)
    (set_m_states (set_states (<[Z.to_nat i := set_st_op o x]> (ss_states (m_states s))) (m_states s)) s).

Lemma st_at_runs i x s : aget (ss_states (m_states s)) i = Some x -> st_at i s = (Ret x, s).
Proof. intros Hx. unfold st_at, on_states, zoom, state_at, bind, get, opt. rewrite Hx. by destruct s. Qed.
Lemma with_op_at i o x d s : aget (ss_states (m_states s)) i = Some x ->
  aget (ss_states (m_states (with_op i o x d s))) i = Some (set_st_op o x).
Proof. intros Hx. apply aget_insert_eq. by eapply aget_bounds. Qed.
Lemma op_upd_with i f x d s : aget (ss_states (m_states s)) i = Some x ->
  op_upd i f (set_ticks d (t_calls s) s) = (Ret tt, with_op i (f (st_op x)) x d s).
Proof. intros Hx. unfold op_upd. by rewrite (st_upd_eq i x) by done. Qed.
Lemma op_upd_again i f o x d s : aget (ss_states (m_states s)) i = Some x ->
  op_upd i f (with_op i o x d s) = (Ret tt, with_op i (f o) x d s).
Proof.
  intros Hx. unfold op_upd. rewrite (st_upd_eq i (set_st_op o x)) by (by apply with_op_at).
  unfold with_op. cbn. unfold set_states, set_m_states, set_ticks. cbn. by rewrite list_insert_insert_eq.
Qed.
Lemma with_op_draws i o x d e s : set_ticks e (t_calls (with_op i o x d s)) (with_op i o x d s) = with_op i o x e s.
Proof. done. Qed.

(** Following a run backwards through what only draws numbers. *)
Lemma runs_draws {A B} (m : M T A) (k : A -> M T B) s b t : keeps only_draws m -> runs (bind m k) s b t ->
  exists a d, runs (k a) (set_ticks d (t_calls s) s) b t.
Proof.
  intros Hm Hr. unfold runs, bind in Hr. specialize (Hm s). unfold wlp in Hm.
  destruct (m s) as [[a|e|] u]; [|done..]. destruct Hm as [d ->]. by exists a, d.
Qed.
Lemma set_ticks_self s : s = set_ticks (t_draws s) (t_calls s) s.
Proof. by destruct s. Qed.

(** The two ways in which an operation gets recorded. *)
Ltac recorded := lazymatch goal with
  | E : op_code _ = _, Hr : context [with_op _ ?o _ ?d _] |- _ =>
      exists o, d; unfold search_test; cbn; rewrite E; split; [done|exact Hr]
  end.
Ltac just_record := lazymatch goal with
  | Hop0 : forall f m, _ -> exists d, _, Hr : _ = (Ret _, _) |- _ => apply Hop0 in Hr as [? Hr]; recorded
  end.
Ltac choose_path := lazymatch goal with
  | Hop : forall f m d, _ -> runs _ _ _ _, Hr : _ = (Ret _, _) |- _ =>
      apply (runs_draws _ _ _ _ _ (draws_MakePathName _ _)) in Hr as (? & ? & Hr); apply Hop in Hr; recorded
  end.

(** The search records an operation with the same code and tests it. *)
Lemma switch_records i x s ir t : aget (ss_states (m_states s)) i = Some x -> runs (FsOperatorSwitch cfg i) s ir t ->
  op_code (st_op x) ∈ SEARCH_OPS ->
  exists o d, op_code o = op_code (st_op x) /\ runs (search_test i o) (with_op i o x d s) ir t.
Proof.
  intros Hx Hr Hc. unfold FsOperatorSwitch, runs in Hr. unfold bind at 1 in Hr. rewrite (st_at_runs _ _ _ Hx) in Hr.
  cbn beta iota zeta in Hr.
  assert (forall f (m : M T ERROR_CODE) d, runs (op_upd i f ;;; m) (set_ticks d (t_calls s) s) ir t ->
    runs m (with_op i (f (st_op x)) x d s) ir t) as Hop.
  { intros f m d Hm. unfold runs, bind at 1 in Hm. by rewrite (op_upd_with _ _ _ _ _ Hx) in Hm. }
  assert (forall f (m : M T ERROR_CODE), runs (op_upd i f ;;; m) s ir t ->
    exists d, runs m (with_op i (f (st_op x)) x d s) ir t) as Hop0.
  { intros f m Hm. exists (t_draws s). apply Hop. by rewrite <- set_ticks_self. }
  destruct (op_code (st_op x)) eqn:E; try (exfalso; unfold SEARCH_OPS in Hc; set_solver).
  - (* create a file *) choose_path.
  - (* close *) just_record.
  - (* write *)
    apply (runs_draws _ _ _ _ _ draws_rand) in Hr as (r1 & d1 & Hr).
    apply (runs_draws _ _ _ _ _ (draws_of_same _ (keeps_opt _ _))) in Hr as (offset & d2 & Hr).
    apply (runs_draws _ _ _ _ _ draws_rand) in Hr as (r2 & d3 & Hr).
    apply (runs_draws _ _ _ _ _ (draws_of_same _ (keeps_opt _ _))) in Hr as (len & d4 & Hr).
    apply Hop in Hr. by recorded.
  - (* open *) just_record.
  - (* delete a file *) just_record.
  - (* create a directory *) choose_path.
  - (* delete a directory *) just_record.
  - (* move *)
    apply Hop0 in Hr as [d Hr]. destruct (parent_path _) as [dir|]; [|done].
    apply (runs_draws _ _ _ _ _ (draws_MakePathName i _)) in Hr as (dst & d' & Hr). rewrite with_op_draws in Hr.
    unfold runs, bind at 1 in Hr. rewrite (op_upd_again _ _ _ _ _ _ Hx) in Hr. by recorded.
  - (* unmount and mount *) just_record.
  - (* power outage *) just_record.
Qed.

(** The file number that the replay looks up is the one the search had. *)
Lemma lookup_replays i path fid (k : Z -> CRefFile -> M T ERROR_CODE) (E : exn) s ir t :
  runs (ref_file <- on_ref i (ref_FindFile path) ;;
        match ref_file with
        | None => throw E
        | Some f => file <- ref_file_at i f ;; if negb (rf_fid file =? fid) then throw ERR_APP else k f file
        end) s ir t ->
  exists f file, on_ref i (ref_FindFile path) s = (Ret (Some f), s) /\ ref_file_at i f s = (Ret file, s) /\ rf_fid file = fid.
Proof.
  intros Hr. unfold runs, bind in Hr. pose proof (on_ref_same i _ (ref_FindFile_same path) s) as Hs. unfold wlp in Hs.
  destruct (on_ref i (ref_FindFile path) s) as [[[f|]|e|] u]; try done. subst u.
  pose proof (on_ref_same i _ (file_at_same f) s) as Hs. unfold wlp in Hs. unfold ref_file_at in *.
  destruct (on_ref i (file_at f) s) as [[file|e|] u] eqn:E2; try done. subst u.
  destruct (rf_fid file =? fid) eqn:Ef; [|done]. apply Z.eqb_eq in Ef. by exists f, file.
Qed.

(** The test of the search, run as the replay runs it. *)
Lemma test_replays i o o' s ir t : runs (search_test i o) s ir t -> op_code o ∈ SEARCH_OPS -> same_operation o o' ->
  runs (ir <- RunTrace_switch cfg i o' ERR_OK ;;
        when (bool_decide (op_code o' = OP_POWER_OFF_RECOVER)) (count_unsafe i) ;;; ret ir) s ir t.
Proof.
  intros Hr Hc (Ec & Ep & Ed & Eo & El). unfold search_test in Hr. unfold RunTrace_switch. rewrite Ec, Ep.
  assert (forall (m : M T ERROR_CODE) c, c <> OP_POWER_OFF_RECOVER -> runs m s ir t ->
    runs (ir <- m ;; when (bool_decide (c = OP_POWER_OFF_RECOVER)) (count_unsafe i) ;;; ret ir) s ir t) as Hplain.
  { intros m c Hn Hm. eapply runs_bind; [exact Hm|]. by rewrite bool_decide_false. }
  destruct (op_code o) eqn:E; lazymatch type of Hr with
    | runs (ret _) _ _ _ => exfalso; unfold SEARCH_OPS in Hc; set_solver
    | runs (TestCloseFile _ _ _) _ _ _ => idtac | runs (TestWriteFileV2 _ _ _ _ _) _ _ _ => idtac
    | runs (TestMoveFile _ _ _) _ _ _ => idtac | runs (bind _ _) _ _ _ => idtac
    | _ => apply Hplain; [discriminate|exact Hr]
    end.
  - apply Hplain; [done|]. destruct (lookup_replays _ _ _ _ _ _ _ _ Hr) as (f & file & E1 & E2 & Ef).
    unfold runs, bind at 1. rewrite E1. cbn beta iota. unfold bind at 1, opt, ret. unfold bind at 1. rewrite E2, Ef. exact Hr.
  - apply Hplain; [done|]. destruct (lookup_replays _ _ _ _ _ _ _ _ Hr) as (f & file & E1 & E2 & Ef).
    unfold runs, bind at 1. rewrite E1. cbn beta iota. unfold bind at 1, opt, ret. unfold bind at 1.
    rewrite E2, Ef, Eo, El by auto. exact Hr.
  - apply Hplain; [done|]. rewrite Ed by done. exact Hr.
  - unfold te_rollback in *. rewrite Eo by auto. exact Hr.
Qed.

Lemma recorded_at (m : M T ERROR_CODE) i x o d s ir t x' : aget (ss_states (m_states s)) i = Some x ->
  keeps same_ops m -> runs m (with_op i o x d s) ir t -> aget (ss_states (m_states t)) i = Some x' ->
  st_op x' = o /\ runs (st_upd i (set_st_op o) ;;; modify (set_ticks (t_draws t) (t_calls t))) s tt (with_op i o x d s).
Proof.
  intros Hx Hk Hr Hx'. specialize (Hk (with_op i o x d s)). unfold wlp in Hk. rewrite Hr in Hk. unfold same_ops, ops_of in Hk.
  injection Hk as Eops Ed Ec. split.
  - pose proof (with_op_at i o x d s Hx) as Hw. apply aget_Some in Hw as [_ Hw], Hx' as [_ Hx'].
    apply (f_equal (fun l => l !! Z.to_nat i)) in Eops. rewrite !list_lookup_fmap, Hx' in Eops.
    change (ss_states (m_states (with_op i o x d s))) with (<[Z.to_nat i:=set_st_op o x]> (ss_states (m_states s))) in Hw.
    rewrite Hw in Eops. by injection Eops.
  - unfold runs, bind at 1. rewrite (st_upd_eq i x) by done. cbn beta iota. rewrite Ed, Ec. done.
Qed.
Lemma switch_search_op i x s ir t x' : aget (ss_states (m_states s)) i = Some x -> runs (FsOperatorSwitch cfg i) s ir t ->
  aget (ss_states (m_states t)) i = Some x' -> op_code (st_op x') ∈ SEARCH_OPS -> op_code (st_op x) ∈ SEARCH_OPS.
Proof.
  intros Hx Hr Hx' Hc. unfold FsOperatorSwitch, runs in Hr. unfold bind at 1 in Hr. rewrite (st_at_runs _ _ _ Hx) in Hr.
  cbn beta iota zeta in Hr. destruct (op_code (st_op x)) eqn:E;
    try (unfold SEARCH_OPS; set_solver); injection Hr as _ <-; congruence.
Qed.
End Replay.

(** * The states of a replay *)
Section Pool.
Context {W : Type} `{FS : IFsSimulator W} `{EV : Env} `{EX : Exceptions} {P : Type} `{PT : PropertyTree P}.
Context (mem : CFsState) (cfg : TestConfig).
Abbreviation T := (CExTester W).
Abbreviation quiet := (keeps (same_frame (W := W))).
Abbreviation growing := (keeps (tgrew (W := W))).
Implicit Types s t : T.

Lemma quiet_RealFsState h b : quiet (RealFsState h b).
Proof. unfold RealFsState. quiet. Qed.
Lemma quiet_OutputState i o : quiet (OutputState i o).
Proof. unfold OutputState. quiet. Qed.
Hint Resolve quiet_RealFsState quiet_OutputState : quiet.
Lemma quiet_OutputTrace i o : quiet (OutputTrace cfg i o).
Proof. unfold OutputTrace. quiet. Qed.
Hint Resolve quiet_OutputTrace : quiet.
Lemma quiet_OutputTrace_Thread i ir o : quiet (OutputTrace_Thread cfg i ir o).
Proof. unfold OutputTrace_Thread. quiet. Qed.
Lemma quiet_RunTrace_switch i o ir : quiet (RunTrace_switch cfg i o ir).
Proof.
  unfold RunTrace_switch, ref_file_at. destruct (op_code o); quiet;
    first [apply quiet_TestCreateFile|apply quiet_TestCloseFile|apply quiet_TestWriteFileV2|apply quiet_TestOpenFile
      |apply quiet_TestDeleteFile|apply quiet_TestCreateDir|apply quiet_TestDeleteDir|apply quiet_TestMoveFile
      |apply quiet_TestMount|apply quiet_TestPowerOutage].
Qed.
Hint Resolve quiet_OutputTrace_Thread quiet_RunTrace_switch : quiet.
Lemma quiet_print i ir o : quiet (ir <- RunTrace_switch cfg i o ir ;; OutputState i (state_option cfg) ;;; ret ir).
Proof. quiet. Qed.
Lemma growing_RunTrace_turn junk st (p : P) : growing (RunTrace_turn mem cfg junk st p).
Proof. unfold RunTrace_turn. growing. Qed.

(** The replay does not touch the open list. *)
Definition same_lists s t : Prop := m_open_list t = m_open_list s /\ m_max_depth_state t = m_max_depth_state s.
#[export] Instance same_lists_preorder : PreOrder same_lists.
Proof. split; unfold same_lists; [done|]. intros a b c. intuition congruence. Qed.
Lemma lists_quiet {A} (m : M T A) : quiet m -> keeps same_lists m.
Proof. intros Hm s. eapply wlp_mono; [apply Hm|..]; intros ? t Ht; apply frame_parts in Ht; unfold same_lists; tauto. Qed.
Lemma lists_on_states {A} (m : M (CStateManager W) A) : keeps same_lists (on_states m).
Proof. intros s. apply wlp_zoom. unfold wlp. by destruct (m _) as [[a|e|] u]. Qed.
Lemma lists_RunTrace junk factory (ops : list P) : keeps same_lists (RunTrace mem cfg junk factory ops).
Proof.
  unfold RunTrace, RunTrace_turn. repeat keeps_step ltac:(first [apply lists_on_states|apply lists_quiet; solve [eauto with quiet]]).
Qed.

(** The current state is held, nothing else is. *)
Definition replaying (cur : Z) s : Prop := exists d, search_ok cfg False (cur, d) 0 [cur] [] [] s.

Lemma RunTrace_turn_ok junk cur ir (p : P) s : replaying cur s -> tfits s ->
  gwp (RunTrace_turn mem cfg junk (cur, ir) p) (fun r t => replaying r.1 t) (fun _ _ => True) s.
Proof.
  intros [d H] Hf. unfold RunTrace_turn. apply wlp_opt. intros op _.
  eapply gwp_then; [apply (t_duplicate mem cfg False (cur, d) 0 [cur]); [done|done|set_solver|cbn; lia]|done|intros ?; growing|].
  intros next t1 _ H1.
  eapply near_next; [apply near_quiet, quiet_st_upd; by intros|exact H1|done|intros ?; growing|]. intros ? t2 _ H2 _.
  eapply near_next; [apply near_quiet, quiet_st_at|exact H2|done|intros ?; growing|]. intros x t3 _ H3 _.
  apply wlp_opt. intros fs _.
  eapply near_next; [apply near_quiet|exact H3|done|intros ?; growing|].
  { apply keeps_try; [typeclasses eauto|apply quiet_print|intros ?; quiet]. }
  intros ir' t4 _ H4 _.
  eapply near_next; [apply near_quiet, quiet_RealFsState|exact H4|done|intros ?; growing|]. intros ? t5 _ H5 _.
  eapply near_next; [apply near_quiet, quiet_OutputTrace_Thread|exact H5|done|intros ?; growing|]. intros ? t6 Hf6 H6 _.
  apply (search_ok_perm _ _ _ _ _ (cur :: [next])) in H6; [|by constructor].
  eapply gwp_then; [apply (t_put cfg False (cur, d) 0 cur [next] [next] []); [exact H6|done|set_solver]|done|intros ?; growing|].
  intros ? t7 _ (H7 & _). apply gwp_ret. apply search_ok_drop in H7.
  destruct H7 as (g & Hc & Hn & Hl & _ & _ & Ht). exists (g next), g. by split_and!.
Qed.

(** The first state. *)
Lemma RunTrace_start factory (w : W) :
  wlp (fs <- on_fs factory fs_Clone ;; cur_state <- on_states (states_get mem) ;;
       on_states (state_Initialize cur_state (Some fs)) ;;; ret cur_state)
    (fun cur t => replaying cur t) (fun _ _ => True) (tester_new w).
Proof.
  apply wlp_bind, wlp_zoom, wlp_zoom. unfold wlp at 1. destruct (fs_Clone factory _) as [[fs|e|] w']; [|done..].
  change (set_m_states (set_world w' (m_states (tester_new w))) (tester_new w)) with (tester_new w').
  destruct (first_state mem w') as (v & Hr & Hv). apply wlp_bind, wlp_zoom, wp_wlp. eapply runs_wp; [exact Hr|].
  assert (search_ok cfg False (0, st_depth mem) 0 [0] [] [] (set_m_states v (tester_new w'))) as H.
  { exists (fun _ => st_depth mem). split_and!; [exact Hv|by constructor|cbn; lia|done|set_solver|done]. }
  eapply wlp_then; [eapply wlp_mono; [apply (near_Initialize 0 (Some fs))|intros ? ? Ht; exact Ht|done]|].
  intros ? t Ht. wlp_steps. exists (st_depth mem). exact (search_ok_near _ _ _ _ _ _ _ _ _ Ht H).
Qed.

Lemma RunTrace_ok junk factory (ops : list P) (w : W) :
  gwp (RunTrace mem cfg junk factory ops) (fun _ t => exists kd, search_ok cfg False kd 0 [] [] [] t) (fun _ _ => True) (tester_new w).
Proof.
  enough (gwp (cur_state <- (fs <- on_fs factory fs_Clone ;; cur_state <- on_states (states_get mem) ;;
       on_states (state_Initialize cur_state (Some fs)) ;;; ret cur_state) ;;
     r <- mfold ops (cur_state, ERR_OK) (RunTrace_turn mem cfg junk) ;;
     on_states (states_put (Some r.1)) ;;; ret r.2)
    (fun _ t => exists kd, search_ok cfg False kd 0 [] [] [] t) (fun _ _ => True) (tester_new w)) as G.
  { unfold gwp, wlp in *. unfold RunTrace. unfold bind in *. destruct (on_fs factory fs_Clone _) as [[fs|e|] s1]; [|done..].
    destruct (on_states (states_get mem) s1) as [[cur|e|] s2]; [|done..].
    destruct (on_states (state_Initialize cur (Some fs)) s2) as [[[]|e|] s3]; exact G. }
  pose proof growing_RunTrace_turn as Hg.
  eapply gwp_then; [eapply wlp_mono; [apply RunTrace_start|intros ? t Ht _; exact Ht|done]|done|intros ?; growing; apply Hg|].
  intros cur s1 _ H1.
  eapply gwp_then; [apply (gwp_mfold _ _ _ (fun _ r t => replaying r.1 t) (fun _ _ => True)); [exact H1|intros ? ?; apply Hg|]
    |done|intros ?; growing|].
  - intros [cur' ir] p l t Hft Ht. by apply RunTrace_turn_ok.
  - intros r t Hft [d Ht].
    eapply gwp_then; [apply (t_put cfg False (r.1, d) 0 r.1 [] [] []); [exact Ht|done|set_solver]|done|intros ?; growing|].
    intros ? u _ (Hu & _). apply gwp_ret. by exists (r.1, d).
Qed.
End Pool.

Section Theorems.
Context {W : Type} `{FS : IFsSimulator W} `{EV : Env} `{EX : Exceptions} {P : Type} `{PT : PropertyTree P}.
Abbreviation T := (CExTester W).
Implicit Types s t : T.

(** C23: a trace replays what a step of the search did.  Take a call of
    [FsOperatorSwitch] on one state, for any operation, that returns, and suppose
    that the operation that the state then carries fits the file (its paths are
    strings of the allowed length, its numbers have 32 bits).  Written by the
    writer of extester_multithread.cpp and read back, it is an operation of the
    replay, and the call was exactly this: draw random numbers, record the
    operation, do what the replay's switch does for the entry, and, after a power
    outage only, count an unsafe unmount, which the replay does not do.  The path,
    destination, offset and length that the search chose at random are those in
    the file; the number of the file, which is not in it, is found again.  The
    writer of trace_tester.cpp gives the same entry for every operation but a
    move; its entry for a move cannot be read. *)
Theorem replay_same_step `{PL : !PropertyTreeLaws P} cfg junk step i s ir t x x' :
  runs (FsOperatorSwitch cfg i) s ir t ->
  aget (ss_states (m_states s)) i = Some x -> aget (ss_states (m_states t)) i = Some x' -> replayable (st_op x') ->
  exists o, tree_to_op junk (op_to_tree step (st_op x')) = Some o /\ same_operation (st_op x') o /\
    tree_to_op junk (op_to_tree_v1 (st_op x')) = (if bool_decide (op_code (st_op x') = OP_MOVE) then None else Some o) /\
    runs (st_upd i (set_st_op (st_op x')) ;;; modify (set_ticks (t_draws t) (t_calls t)) ;;;
          ir <- RunTrace_switch cfg i o ERR_OK ;;
          when (bool_decide (op_code o = OP_POWER_OFF_RECOVER)) (count_unsafe i) ;;; ret ir) s ir t.
Proof.
  intros Hr Hx Hx' Ho. destruct (trace_entry_roundtrip junk step _ Ho) as (o & Ew & Hs).
  pose proof (switch_search_op _ _ _ _ _ _ _ Hx Hr Hx' (proj1 Ho)) as Hc.
  destruct (switch_records cfg i x s ir t Hx Hr Hc) as (o1 & d & Ec & Ht).
  destruct (recorded_at _ i x o1 d s ir t x' Hx (ops_search_test cfg i o1) Ht Hx') as [<- Hw].
  exists o. split_and!; [done|done|by rewrite (v1_entry junk step _ Ho), Ew|]. eapply runs_assoc, runs_bind; [exact Hw|].
  apply (test_replays cfg i (st_op x')); [done|apply Ho|done].
Qed.

(** C24: a replay gives back every state it takes.  When the replay of a trace
    returns, whatever the entries of the file and the answers of the file
    systems, the free list of the pool holds every state that was ever
    allocated, each once, and the open list is untouched. *)
Theorem replay_returns_states mem cfg junk factory (ops : list P) w ir t :
  runs (RunTrace mem cfg junk factory ops) (tester_new w) ir t ->
  Z.of_nat (length (ss_states (m_states t))) < 2 ^ 31 - 4096 ->
  exists fl, free_list_at (ss_states (m_states t)) (ss_free_list (m_states t)) fl /\
    fl ≡ₚ range 0 (Z.of_nat (length (ss_states (m_states t)))) /\
    ss_free_nr (m_states t) = Z.of_nat (length (ss_states (m_states t))) /\ m_open_list t = [].
Proof.
  intros Hr Hf. pose proof (lists_RunTrace mem cfg junk factory ops (tester_new w)) as Hl. unfold wlp in Hl. rewrite Hr in Hl.
  destruct Hl as [Eo Em]. cbn in Eo, Em.
  pose proof (RunTrace_ok mem cfg junk factory ops w) as G. unfold gwp, wlp in G. rewrite Hr in G.
  destruct (G Hf) as (kd & g & (L & fl & Hp & _) & _). unfold held in Hp. rewrite Eo, Em in Hp. cbn in Hp.
  destruct (pool_all_free _ _ _ Hp) as [-> Hfl]. exists fl.
  split_and!; [apply (po_free _ _ _ _ Hp)|done| |done].
  destruct Hp as [_ _ _ _ _ _ Hnr _]. rewrite Hnr, (Permutation_length Hfl). unfold range. rewrite length_seqZ. lia.
Qed.
End Theorems.
