(* ===== verification/Demo.v ===== *)
(** Demo: the search of a small medium on the F2FS simulators, a trace replayed
    there, and the theorems applied to them. *)
From S2P Require Export SearchEnd TraceInv FsWorld.
Import String.StringSyntax.

(** Random numbers from a fixed sequence, an empty stack, and workers that finish
    in the reverse order. *)
#[export] Instance sample_env : Env := {|
  rand_at n := (n * 7919 + 13) mod 32768; stack_at _ := replicate 512 0; schedule_at _ l := reverse l
|}.
Lemma sample_env_laws : EnvLaws.
Proof.
  split; cbn.
  - intros n. pose proof (Z.mod_pos_bound (n * 7919 + 13) 32768). unfold RAND_MAX. lia.
  - reflexivity.
  - intros _ l. apply reverse_Permutation.
Qed.
#[export] Instance sample_exceptions : Exceptions := {| GetErrorCode e := code_num (code_of_exn e) |}.
#[export] Existing Instance sample_external.

(** All operations of every state, to a depth. *)
Definition demo_config (depth threads : Z) : TestConfig := mkConfig 5 5 5 8388 depth (-1) threads false false false 3.
(** One simulator, formatted. *)
Definition demo_world : FsWorld :=
  snd ((h <- fs_object_new ;; call (Initialzie 6 20) h) (mkWorld (mkMgr ∅ 1 0 None) [])).
Definition demo_ops : list TRACE_ENTRY := replicate 512 trace_none.
Definition demo_search (depth threads : Z) : M (CExTester FsWorld) ERROR_CODE :=
  PreTest state_memory 0 ;;; RunTest state_memory (demo_config depth threads) 200 demo_ops.
Definition demo_end (depth threads : Z) : CExTester FsWorld := snd (demo_search depth threads (tester_new demo_world)).

(** Two worker threads, operations up to depth 2: the search ends without an
    error and all of its states are on the free list. *)
Lemma search_returns_states_witness : exists t fl,
  runs (RunTest_thread state_memory (demo_config 2 2) 200 demo_ops 0) (tester_new demo_world) ERR_OK t /\
  m_open_list t = [] /\ m_max_depth_state t = None /\
  free_list_at (ss_states (m_states t)) (ss_free_list (m_states t)) fl /\
  fl ≡ₚ range 0 (Z.of_nat (length (ss_states (m_states t)))) /\
  ss_free_nr (m_states t) = Z.of_nat (length (ss_states (m_states t))).
Proof.
  apply (search_returns_states (EL := sample_env_laws) state_memory (demo_config 2 2) 200 demo_ops 0 demo_world ERR_OK (demo_end 2 2)).
  - refine (runs_eval (demo_search 2 2) (tester_new demo_world) ERR_OK _). vm_compute. reflexivity.
  - vm_compute. reflexivity.
Defined.

(** The same search ends within [513 ^ 2] turns. *)
Definition demo_prepared : CExTester FsWorld :=
  snd (PreTest state_memory 0 (tester_new demo_world)).
Lemma search_terminates_witness : exists n st s, Z.of_nat n <= 513 ^ 2 /\
  turns state_memory (demo_config 2 2) n (ERR_OK, demo_ops) demo_prepared = Some (st, s) /\
  forall st' s', RunTest_turn state_memory (demo_config 2 2) st s = (Ret (Next st'), s') ->
    2 ^ 31 - 4096 <= Z.of_nat (length (ss_states (m_states s'))).
Proof.
  refine (search_terminates (EL := sample_env_laws) state_memory (demo_config 2 2) 0 demo_world demo_ops demo_prepared _ _ _ _).
  - refine (runs_eval (PreTest state_memory 0) (tester_new demo_world) tt _). vm_compute. reflexivity.
  - cbn. lia.
  - cbn. lia.
  - vm_compute. reflexivity.
Defined.

(** * Property trees as association lists *)
Definition tree : Type := list (cstring * (cstring + Z)).
Fixpoint tree_find (k : cstring) (p : tree) : option (cstring + Z) :=
  match p with
  | [] => None
  | (k', v) :: p' => if bool_decide (k = k') then Some v else tree_find k p'
  end.
#[export] Instance sample_trees : PropertyTree tree := {|
  pt_empty := [];
  pt_add k v p := p ++ [(k, inl v)];
  pt_add_num k v p := p ++ [(k, inr v)];
  pt_get k p := match tree_find k p with Some (inl v) => Some v | Some (inr n) => Some [n] | None => None end;
  pt_get_num k p := match tree_find k p with Some (inr n) => Some n | _ => None end;
  Utf8ToUnicode s := s
|}.
Lemma tree_find_app k p k' v : tree_find k (p ++ [(k', v)]) =
  match tree_find k p with Some u => Some u | None => if bool_decide (k = k') then Some v else None end.
Proof. induction p as [|[k2 u] p IH]; cbn; [done|]. destruct (bool_decide (k = k2)); [done|exact IH]. Qed.
#[export] Instance sample_trees_laws : PropertyTreeLaws tree.
Proof.
  split; cbn; intros; rewrite ?tree_find_app; try done.
  all: match goal with H : _ = None |- _ => revert H | _ => idtac end.
  all: case_bool_decide; try done; by destruct (tree_find k p) as [[]|].
Qed.

(** * A trace *)
Definition entry_of_op (name path dst : String.string) (offset len : Z) : tree :=
  [(chars "op_name"%string, inl (chars name)); (chars "path"%string, inl (chars path));
   (chars "dst"%string, inl (chars dst)); (chars "offset"%string, inr offset); (chars "length"%string, inr len)].
Definition demo_trace : list tree :=
  [entry_of_op "CreateDir" "\D" "" 0 0; entry_of_op "CreateFile" "\A" "" 0 0; entry_of_op "OverWrite" "\A" "" 0 1000;
   entry_of_op "CloseFile" "\A" "" 0 0; entry_of_op "Move" "\A" "\D\B" 0 0; entry_of_op "Mount" "" "" 0 0;
   entry_of_op "OpenFile" "\D\B" "" 0 0; entry_of_op "Verify" "" "" 0 0; entry_of_op "CloseFile" "\D\B" "" 0 0;
   entry_of_op "DeleteFile" "\D\B" "" 0 0; entry_of_op "PowerOutage" "" "" 0 0]%string.
Definition demo_replay : M (CExTester FsWorld) ERROR_CODE :=
  RunTrace state_memory (demo_config 2 1) trace_none 0 demo_trace.
Definition demo_replayed : CExTester FsWorld := snd (demo_replay (tester_new demo_world)).

(** Eleven operations, twelve states: all of them are free again. *)
Lemma replay_returns_states_witness : exists fl,
  free_list_at (ss_states (m_states demo_replayed)) (ss_free_list (m_states demo_replayed)) fl /\
  fl ≡ₚ range 0 (Z.of_nat (length (ss_states (m_states demo_replayed)))) /\
  ss_free_nr (m_states demo_replayed) = Z.of_nat (length (ss_states (m_states demo_replayed))) /\
  m_open_list demo_replayed = [].
Proof.
  apply (replay_returns_states state_memory (demo_config 2 1) trace_none 0 demo_trace demo_world ERR_OK).
  - refine (runs_eval demo_replay (tester_new demo_world) ERR_OK _). vm_compute. reflexivity.
  - vm_compute. reflexivity.
Defined.

(** A state about to create a file in the root, under a name that it chooses. *)
Definition demo_creating : CExTester FsWorld :=
  snd ((PreTest state_memory 0 ;;; st_upd 0 (set_st_op (op_on_path OP_FILE_CREATE [BACKSLASH] trace_none)))
    (tester_new demo_world)).
Definition demo_created : CExTester FsWorld := snd (FsOperatorSwitch (demo_config 2 1) 0 demo_creating).
Definition demo_state (s : CExTester FsWorld) : CFsState := default state_memory (aget (ss_states (m_states s)) 0).
Lemma demo_state_at s : (0 < length (ss_states (m_states s)))%nat -> aget (ss_states (m_states s)) 0 = Some (demo_state s).
Proof. unfold demo_state. by destruct (ss_states (m_states s)) as [|x l]; [cbn; lia|]. Qed.
Lemma replay_same_step_witness : exists o,
  tree_to_op trace_none (op_to_tree (P := tree) 1 (st_op (demo_state demo_created))) = Some o /\
  same_operation (st_op (demo_state demo_created)) o /\
  tree_to_op trace_none (op_to_tree_v1 (P := tree) (st_op (demo_state demo_created))) = Some o /\
  runs (st_upd 0 (set_st_op (st_op (demo_state demo_created))) ;;;
        modify (set_ticks (t_draws demo_created) (t_calls demo_created)) ;;;
        ir <- RunTrace_switch (demo_config 2 1) 0 o ERR_OK ;;
        when (bool_decide (op_code o = OP_POWER_OFF_RECOVER)) (count_unsafe 0) ;;; ret ir) demo_creating ERR_OK demo_created.
Proof.
  destruct (replay_same_step (P := tree) (demo_config 2 1) trace_none 1 0 demo_creating ERR_OK demo_created (demo_state demo_creating)
    (demo_state demo_created)) as (o & H1 & H2 & H3 & H4).
  - refine (runs_eval (FsOperatorSwitch (demo_config 2 1) 0) demo_creating ERR_OK _). vm_compute. reflexivity.
  - apply demo_state_at. vm_compute. lia.
  - apply demo_state_at. vm_compute. lia.
  - split_and!; [vm_compute; left|split; [vm_compute; repeat constructor; discriminate|vm_compute; discriminate]|by vm_compute..].
  - assert (E : bool_decide (op_code (st_op (demo_state demo_created)) = OP_MOVE) = false) by (vm_compute; reflexivity).
    rewrite E in H3. exists o. exact (conj H1 (conj H2 (conj H3 H4))).
Defined.
(** The name it chose is in the entry of the file. *)
Example demo_created_path : te_path (st_op (demo_state demo_created)) = chars "\SI"%string.
Proof. vm_compute. reflexivity. Qed.
