(* ===== verification/PerfComm.v ===== *)
(** PerfComm: the constants and the data that the simulators of
    src/application/simulation/performance_simulation share: include/fs_comm.h,
    and the address arithmetic at the end of source/segment_manager.h. *)
From S2P Require Export Prelude.
From stdpp Require Export strings.
Open Scope Z_scope.

Definition SECTOR_PER_BLOCK : Z := 8.
Definition BLOCK_PER_SEG : Z := 512.
Definition BITMAP_SIZE : Z := 16.
Definition INVALID_BLK : Z := 4294967295.
Definition MAX_TABLE_SIZE : Z := 1024.
Definition MAX_INDEX_LEVEL : Z := 3.
Definition INDEX_SIZE : Z := 1024.
Definition FID_ROOT : Z := 0.

(** [enum BLK_TEMP]. *)
Definition BT_HOT__DATA : Z := 4.
Definition BT_TEMP_NR : Z := 6.

(** The counters; [LONG64] counters are not expected to overflow and are
    integers, a [UINT] wraps. *)
Record FsHealthInfo := mkHealth {
  m_h_seg_nr : Z; m_h_blk_nr : Z; m_logical_blk_nr : Z;
  m_free_seg : Z; m_free_blk : Z;
  m_total_host_write : Z; m_total_media_write : Z;
  m_media_write_node : Z; m_media_write_data : Z;
  m_logical_saturation : Z; m_physical_saturation : Z;
  m_node_nr : Z; m_used_node : Z
}.
(** [memset(&m_health_info, 0, ..)]. *)
Definition health_zero : FsHealthInfo := mkHealth 0 0 0 0 0 0 0 0 0 0 0 0 0.

Definition h_free_seg (f : Z -> Z) (h : FsHealthInfo) : FsHealthInfo :=
  mkHealth (m_h_seg_nr h) (m_h_blk_nr h) (m_logical_blk_nr h) (w32 (f (m_free_seg h))) (m_free_blk h)
    (m_total_host_write h) (m_total_media_write h) (m_media_write_node h) (m_media_write_data h)
    (m_logical_saturation h) (m_physical_saturation h) (m_node_nr h) (m_used_node h).
Definition h_logical (f : Z -> Z) (h : FsHealthInfo) : FsHealthInfo :=
  mkHealth (m_h_seg_nr h) (m_h_blk_nr h) (m_logical_blk_nr h) (m_free_seg h) (m_free_blk h)
    (m_total_host_write h) (m_total_media_write h) (m_media_write_node h) (m_media_write_data h)
    (w32 (f (m_logical_saturation h))) (m_physical_saturation h) (m_node_nr h) (m_used_node h).
Definition h_host_write (h : FsHealthInfo) : FsHealthInfo :=
  mkHealth (m_h_seg_nr h) (m_h_blk_nr h) (m_logical_blk_nr h) (m_free_seg h) (m_free_blk h)
    (m_total_host_write h + 1) (m_total_media_write h) (m_media_write_node h) (m_media_write_data h)
    (m_logical_saturation h) (m_physical_saturation h) (m_node_nr h) (m_used_node h).
(** The three counters of a written block, and the three of an invalidated one. *)
Definition h_media_write (h : FsHealthInfo) : FsHealthInfo :=
  mkHealth (m_h_seg_nr h) (m_h_blk_nr h) (m_logical_blk_nr h) (m_free_seg h) (w32 (m_free_blk h - 1))
    (m_total_host_write h) (m_total_media_write h + 1) (m_media_write_node h) (m_media_write_data h)
    (m_logical_saturation h) (w32 (m_physical_saturation h + 1)) (m_node_nr h) (m_used_node h).
Definition h_invalid (h : FsHealthInfo) : FsHealthInfo :=
  mkHealth (m_h_seg_nr h) (m_h_blk_nr h) (m_logical_blk_nr h) (m_free_seg h) (w32 (m_free_blk h + 1))
    (m_total_host_write h) (m_total_media_write h) (m_media_write_node h) (m_media_write_data h)
    (m_logical_saturation h) (w32 (m_physical_saturation h - 1)) (m_node_nr h) (m_used_node h).
Definition h_media_kind (node : bool) (h : FsHealthInfo) : FsHealthInfo :=
  mkHealth (m_h_seg_nr h) (m_h_blk_nr h) (m_logical_blk_nr h) (m_free_seg h) (m_free_blk h)
    (m_total_host_write h) (m_total_media_write h)
    (if node then m_media_write_node h + 1 else m_media_write_node h)
    (if node then m_media_write_data h else m_media_write_data h + 1)
    (m_logical_saturation h) (m_physical_saturation h) (m_node_nr h) (m_used_node h).
Definition h_volume (logical seg_nr blk_nr free_blk : Z) (h : FsHealthInfo) : FsHealthInfo :=
  mkHealth seg_nr blk_nr logical (m_free_seg h) free_blk
    (m_total_host_write h) (m_total_media_write h) (m_media_write_node h) (m_media_write_data h)
    (m_logical_saturation h) (m_physical_saturation h) (m_node_nr h) (m_used_node h).

(** * Addresses *)
Definition PhyBlock (seg_id blk_id : Z) : Z := w32 (seg_id * BLOCK_PER_SEG + blk_id).
Definition BlockToSeg (phy_blk : Z) : Z * Z :=
  if phy_blk =? INVALID_BLK then (INVALID_BLK, INVALID_BLK)
  else (phy_blk / BLOCK_PER_SEG, phy_blk mod BLOCK_PER_SEG).

(** Sectors (a [size_t]) to the blocks that contain them. *)
Definition LbaToBlock `{External} (start_lba secs : Z) : Z * Z :=
  let end_lba := (start_lba + secs) mod 2 ^ 64 in
  (w32 (start_lba / 8), w32 (ROUND_UP_DIV end_lba 8)).

(** [CLfsBase::MaxFileSize]. *)
Definition MaxFileSize : Z := MAX_TABLE_SIZE * INDEX_SIZE.
