(* ===== verification/PerfPool.v ===== *)
(** PerfPool: the class template [GcPool<N, SEG_TYPE>] of
    performance_simulation/source/segment_manager.h: a heap that keeps the
    [N - 1] emptiest segments pushed, and a second one that gives them out.  An
    element is the number of a segment; [val] looks its number of valid blocks
    up in the segment table, where a number outside the table has no value. *)
From S2P Require Export PerfComm.

Record GcPool := mkPool {
  large_len : Z; small_len : Z;
  large_heap : list (option Z); small_heap : list (option Z)
}.

Section Pool.
Context (N : Z) (val : Z -> option Z).
Abbreviation Pool := GcPool.

Definition pool_new : Pool :=
  mkPool 0 0 (replicate (Z.to_nat N) None) (replicate (Z.to_nat N) None).

(** A cell that was never written has no value. *)
Definition cell_at (h : list (option Z)) (i : Z) : M Pool Z := e <- opt (aget h i) ;; opt e.
Definition val_at (h : list (option Z)) (i : Z) : M Pool Z := e <- cell_at h i ;; opt (val e).
Definition set_large (h : list (option Z)) : M Pool unit :=
  modify (fun p => mkPool (large_len p) (small_len p) h (small_heap p)).
Definition set_small (h : list (option Z)) : M Pool unit :=
  modify (fun p => mkPool (large_len p) (small_len p) (large_heap p) h).
Definition set_lens (l s : Z) : M Pool unit :=
  modify (fun p => mkPool l s (large_heap p) (small_heap p)).

(** [swap(h[i], h[j])]. *)
Definition swap (h : list (option Z)) (i j : Z) : option (list (option Z)) :=
  a ← aget h i; b ← aget h j; h1 ← aset h i b; aset h1 j a.

(** Towards the root while [stop child father] does not hold. *)
Definition sift_up (stop : Z -> Z -> bool) (h : list (option Z)) (cur : Z) : M Pool (list (option Z)) :=
  r <- mwhile (Z.to_nat (N + 1)) (h, cur) (fun hc =>
    let '(h, cur) := hc in
    if negb (0 <? cur) then ret (Break (h, cur)) else
    let pp := (cur - 1) / 2 in
    ch <- val_at h cur ;;
    fa <- val_at h pp ;;
    if stop ch fa then ret (Break (h, cur))
    else h' <- opt (swap h cur pp) ;; ret (Next (h', pp))) ;;
  ret r.1.

(** Towards the leaves: exchange with the child that [before] prefers. *)
Definition sift_down (before : Z -> Z -> bool) (len : Z) (h : list (option Z)) : M Pool (list (option Z)) :=
  r <- mwhile (Z.to_nat (N + 1)) (h, 0) (fun hc =>
    let '(h, cur) := hc in
    let left := cur * 2 + 1 in
    let right := left + 1 in
    largest <- (if left <? len
                then a <- val_at h left ;; b <- val_at h cur ;; ret (if before a b then left else cur)
                else ret cur) ;;
    largest <- (if right <? len
                then a <- val_at h right ;; b <- val_at h largest ;; ret (if before a b then right else largest)
                else ret largest) ;;
    if largest =? cur then ret (Break (h, cur))
    else h' <- opt (swap h largest cur) ;; ret (Next (h', largest))) ;;
  ret r.1.

Definition large_add (cur : Z) : M Pool unit :=
  p <- get ;; h <- sift_up (fun ch fa => ch <=? fa) (large_heap p) cur ;; set_large h.
Definition small_add (cur : Z) : M Pool unit :=
  p <- get ;; h <- sift_up (fun ch fa => fa <=? ch) (small_heap p) cur ;; set_small h.
Definition large_heapify : M Pool unit :=
  p <- get ;; h <- sift_down (fun a b => b <? a) (large_len p) (large_heap p) ;; set_large h.
Definition small_heapify : M Pool unit :=
  p <- get ;; h <- sift_down (fun a b => a <? b) (small_len p) (small_heap p) ;; set_small h.

Definition Push (id : Z) : M Pool unit :=
  p <- get ;;
  if large_len p <? N - 1 then
    h <- opt (aset (large_heap p) (large_len p) (Some id)) ;;
    set_large h ;;;
    large_add (large_len p) ;;;
    set_lens (large_len p + 1) (small_len p)
  else
    new_seg <- opt (val id) ;;
    max_seg <- val_at (large_heap p) 0 ;;
    if max_seg <=? new_seg then ret tt
    else
      h <- opt (aset (large_heap p) 0 (Some id)) ;;
      set_large h ;;;
      large_heapify.

(** All [N - 1] cells are moved, however many were filled. *)
Definition LargeToSmall : M Pool unit :=
  p <- get ;;
  set_lens (large_len p) 0 ;;;
  mfor (rev (range 0 (N - 1))) (fun ii =>
    p <- get ;;
    e <- cell_at (large_heap p) ii ;;
    h <- opt (aset (small_heap p) (small_len p) (Some e)) ;;
    set_small h ;;;
    small_add (small_len p) ;;;
    set_lens (large_len p) (small_len p + 1)).

Definition Pop : M Pool Z :=
  p <- get ;;
  if small_len p =? 0 then ret INVALID_BLK
  else
    pop <- cell_at (small_heap p) 0 ;;
    let n := small_len p - 1 in
    last <- opt (aget (small_heap p) n) ;;
    h <- opt (aset (small_heap p) 0 last) ;;
    set_lens (large_len p) n ;;;
    set_small h ;;;
    small_heapify ;;;
    ret pop.
End Pool.
