(* ===== verification/PerfSegment.v ===== *)
(** PerfSegment: the class template [CSegmentManagerBase] of
    performance_simulation/source/segment_manager.h: the segment table and the
    circular buffer of free segments.  The block type is a parameter, as it is
    in the template; writing a block is virtual and is given to [MoveBlock]. *)
From S2P Require Export PerfComm.

(** What the template uses of a block type: [TypedInvalidBlock], and the value
    whose bytes are all 0xFF. *)
Class BLOCK_TYPE (B : Type) := { TypedInvalidBlock : B -> B; block_ff : B }.

Record SEG_INFO (B : Type) := mkSeg {
  blk_map : list B; valid_bmp : list Z; valid_blk_nr : Z; cur_blk : Z;
  seg_temp : Z; erase_count : Z
}.
Arguments mkSeg {B}. Arguments blk_map {B}. Arguments valid_bmp {B}. Arguments valid_blk_nr {B}.
Arguments cur_blk {B}. Arguments seg_temp {B}. Arguments erase_count {B}.

(** [m_health] points to the counters of the simulator, or nowhere. *)
Record SegMgr (B : Type) := mkMgr {
  m_segments : list (SEG_INFO B); m_cur_segs : list Z;
  m_seg_nr : Z; m_free_nr : Z; m_free_head : Z; m_free_tail : Z;
  m_free_segs : list Z; m_gc_lo : Z; m_gc_hi : Z; m_health : option FsHealthInfo
}.
Arguments mkMgr {B}. Arguments m_segments {B}. Arguments m_cur_segs {B}. Arguments m_seg_nr {B}.
Arguments m_free_nr {B}. Arguments m_free_head {B}. Arguments m_free_tail {B}. Arguments m_free_segs {B}.
Arguments m_gc_lo {B}. Arguments m_gc_hi {B}. Arguments m_health {B}.

Section Base.
Context {B : Type} `{BLOCK_TYPE B}.
Abbreviation SEG := (SEG_INFO B).
Abbreviation Mgr := (SegMgr B).
Implicit Types (s : Mgr) (g : SEG).

Definition set_segments (l : list SEG) s : Mgr :=
  mkMgr l (m_cur_segs s) (m_seg_nr s) (m_free_nr s) (m_free_head s) (m_free_tail s) (m_free_segs s) (m_gc_lo s) (m_gc_hi s) (m_health s).
Definition set_cur_segs (l : list Z) s : Mgr :=
  mkMgr (m_segments s) l (m_seg_nr s) (m_free_nr s) (m_free_head s) (m_free_tail s) (m_free_segs s) (m_gc_lo s) (m_gc_hi s) (m_health s).
Definition set_free (nr head tail : Z) (q : list Z) s : Mgr :=
  mkMgr (m_segments s) (m_cur_segs s) (m_seg_nr s) nr head tail q (m_gc_lo s) (m_gc_hi s) (m_health s).
Definition set_health (h : option FsHealthInfo) s : Mgr :=
  mkMgr (m_segments s) (m_cur_segs s) (m_seg_nr s) (m_free_nr s) (m_free_head s) (m_free_tail s) (m_free_segs s) (m_gc_lo s) (m_gc_hi s) h.

(** A segment whose bytes are all 0xFF, with the two counters reset. *)
Definition seg_reset : SEG :=
  mkSeg (replicate (Z.to_nat BLOCK_PER_SEG) block_ff) (replicate (Z.to_nat BITMAP_SIZE) INVALID_BLK) 0 0 INVALID_BLK INVALID_BLK.
Definition set_temp (temp : Z) g : SEG :=
  mkSeg (blk_map g) (valid_bmp g) (valid_blk_nr g) (cur_blk g) temp (erase_count g).
Definition set_map (l : list B) g : SEG :=
  mkSeg l (valid_bmp g) (valid_blk_nr g) (cur_blk g) (seg_temp g) (erase_count g).
Definition set_counts (valid cur : Z) g : SEG :=
  mkSeg (blk_map g) (valid_bmp g) valid cur (seg_temp g) (erase_count g).

Definition seg_at (i : Z) : M Mgr SEG := s <- get ;; opt (aget (m_segments s) i).
Definition seg_put (i : Z) (g : SEG) : M Mgr unit :=
  s <- get ;; l <- opt (aset (m_segments s) i g) ;; put (set_segments l s).
(** [m_health->..]. *)
Definition health (f : FsHealthInfo -> FsHealthInfo) : M Mgr unit :=
  s <- get ;; h <- opt (m_health s) ;; put (set_health (Some (f h)) s).

Definition AllocSegment (temp : Z) : M Mgr Z :=
  s <- get ;;
  if (m_free_head s =? m_free_tail s) || (m_free_nr s =? 0) then throw ERR_APP else
  new_seg <- opt (aget (m_free_segs s) (m_free_head s)) ;;
  let head := w32 (m_free_head s + 1) in
  let head := if m_seg_nr s <=? head then 0 else head in
  put (set_free (w32 (m_free_nr s - 1)) head (m_free_tail s) (m_free_segs s) s) ;;;
  health (h_free_seg (fun n => n - 1)) ;;;
  g <- seg_at new_seg ;;
  seg_put new_seg (set_temp temp g) ;;;
  ret new_seg.

(** How [WriteBlockToSeg] finds the segment that a temperature writes to. *)
Definition current_segment (temp : Z) : M Mgr Z :=
  s <- get ;;
  c <- opt (aget (m_cur_segs s) temp) ;;
  if c =? INVALID_BLK then
    n <- AllocSegment temp ;;
    s <- get ;; l <- opt (aset (m_cur_segs s) temp n) ;; put (set_cur_segs l s) ;;; ret n
  else ret c.

Definition FreeSegment (seg_id : Z) : M Mgr unit :=
  s <- get ;;
  let tail := w32 (m_free_tail s + 1) in
  let tail := if m_seg_nr s <=? tail then 0 else tail in
  put (set_free (m_free_nr s) (m_free_head s) tail (m_free_segs s) s) ;;;
  if tail =? m_free_head s then throw ERR_APP else
  seg_put seg_id seg_reset ;;;
  s <- get ;;
  q <- opt (aset (m_free_segs s) (m_free_tail s) seg_id) ;;
  put (set_free (w32 (m_free_nr s + 1)) (m_free_head s) (m_free_tail s) q s) ;;;
  health (h_free_seg (fun n => n + 1)).

(** [InvalidBlock(seg_id, blk_id)]. *)
Definition InvalidBlock_at (seg_id blk_id : Z) : M Mgr bool :=
  s <- get ;;
  check (seg_id <? m_seg_nr s) ;;;
  g <- seg_at seg_id ;;
  b <- opt (aget (blk_map g) blk_id) ;;
  l <- opt (aset (blk_map g) blk_id (TypedInvalidBlock b)) ;;
  let g := set_counts (w32 (valid_blk_nr g - 1)) (cur_blk g) (set_map l g) in
  seg_put seg_id g ;;;
  free_seg <- (if (valid_blk_nr g =? 0) && (BLOCK_PER_SEG <=? cur_blk g)
               then FreeSegment seg_id ;;; ret true else ret false) ;;
  health h_invalid ;;;
  ret free_seg.

Definition InvalidBlock (phy_blk : Z) : M Mgr bool :=
  if phy_blk =? INVALID_BLK then ret false
  else let (seg_id, blk_id) := BlockToSeg phy_blk in InvalidBlock_at seg_id blk_id.

(** [InitSegmentManager], filling the table with bytes 0xFF. *)
Definition InitSegmentManager (segment_nr gc_lo gc_hi : Z) : M Mgr bool :=
  s <- get ;;
  h <- opt (m_health s) ;;
  put (mkMgr (replicate (Z.to_nat segment_nr) seg_reset) (replicate (Z.to_nat BT_TEMP_NR) INVALID_BLK)
         segment_nr segment_nr 0 (w32 (segment_nr - 1)) (range 0 segment_nr) gc_lo gc_hi
         (Some (h_free_seg (fun _ => segment_nr) h))) ;;;
  ret true.

Definition get_block (phy_blk : Z) : M Mgr B :=
  let (seg_id, blk_id) := BlockToSeg phy_blk in
  g <- seg_at seg_id ;;
  opt (aget (blk_map g) blk_id).
(** Assignment through the reference that [get_block] returns. *)
Definition put_block (phy_blk : Z) (b : B) : M Mgr unit :=
  let (seg_id, blk_id) := BlockToSeg phy_blk in
  g <- seg_at seg_id ;;
  l <- opt (aset (blk_map g) blk_id b) ;;
  seg_put seg_id (set_map l g).

(** [MoveBlock]; the source is passed by reference and copied when written. *)
Definition MoveBlock (WriteBlockToSeg : B -> Z -> M Mgr Z) (src_seg src_blk temp : Z) : M Mgr Z :=
  g <- seg_at src_seg ;;
  lblk <- opt (aget (blk_map g) src_blk) ;;
  tar <- WriteBlockToSeg lblk temp ;;
  InvalidBlock_at src_seg src_blk ;;;
  ret tar.

(** [new CSegmentManagerBase], before [InitSegmentManager]; the array of current
    segments and the thresholds are not initialised. *)
Definition manager_new (cur_segs : list Z) (gc_lo gc_hi : Z) : Mgr :=
  mkMgr [] cur_segs 0 0 0 0 [] gc_lo gc_hi None.
Definition SetHealth (h : option FsHealthInfo) : M Mgr unit := modify (set_health h).
End Base.
