(* ===== verification/PerfSegInv.v ===== *)
(** PerfSegInv: the segment table of the performance simulation.  The circular
    buffer is a queue of free segments whose last element is never given out;
    the table is the map from addresses to valid blocks. *)
From S2P Require Export PerfSegment.

(** What a client promises about its block type: which values are valid, and
    that neither invalidation nor erasing leaves one. *)
Class BlockLaws (B : Type) `{BLOCK_TYPE B} := {
  live : B -> bool;
  live_invalid b : live (TypedInvalidBlock b) = false;
  live_ff : live block_ff = false
}.

Abbreviation len l := (Z.of_nat (length l)).

(** Split the comparisons of the goal. *)
Ltac zcase := repeat match goal with
  | |- context [?a <? ?b] => destruct (Z.ltb_spec a b)
  | |- context [?a <=? ?b] => destruct (Z.leb_spec a b)
  | |- context [?a =? ?b] => destruct (Z.eqb_spec a b)
  end.

Lemma mod_wrap x n : 0 <= x < 2 * n -> x mod n = if x <? n then x else x - n.
Proof.
  intros H. destruct (Z.ltb_spec x n); [apply Z.mod_small; lia|].
  symmetry. apply (Z.mod_unique _ _ 1); lia.
Qed.
Lemma w32_small x : 0 <= x < 4294967296 -> w32 x = x.
Proof. apply Z.mod_small. Qed.

Section Inv.
Context {B : Type} `{BlockLaws B}.
Abbreviation SEG := (SEG_INFO B).
Abbreviation Mgr := (SegMgr B).
Implicit Types (s t : Mgr) (g : SEG) (q : list Z).

(** ** The circular buffer *)
Record ring_wf s q : Prop := {
  rg_nr : m_free_nr s = len q;
  rg_len : len (m_free_segs s) = m_seg_nr s;
  rg_head : 0 <= m_free_head s < m_seg_nr s;
  rg_pos : 0 < len q <= m_seg_nr s;
  rg_tail : m_free_tail s = (m_free_head s + len q - 1) mod m_seg_nr s;
  rg_at i : 0 <= i < len q -> aget (m_free_segs s) ((m_free_head s + i) mod m_seg_nr s) = aget q i;
  rg_max : m_seg_nr s < 2 ^ 23
}.

Definition next_head s : Z :=
  let head := w32 (m_free_head s + 1) in if m_seg_nr s <=? head then 0 else head.
Definition popped s : Mgr :=
  set_free (w32 (m_free_nr s - 1)) (next_head s) (m_free_tail s) (m_free_segs s) s.
Definition next_tail s : Z :=
  let tail := w32 (m_free_tail s + 1) in if m_seg_nr s <=? tail then 0 else tail.
Definition pushed x s : Mgr :=
  set_free (w32 (m_free_nr s + 1)) (m_free_head s) (next_tail s) (<[Z.to_nat (next_tail s) := x]> (m_free_segs s)) s.

Lemma ring_last s x : ring_wf s [x] -> m_free_head s = m_free_tail s.
Proof. intros []. rewrite rg_tail0. cbn. rewrite Z.mod_small by lia. lia. Qed.

Lemma ring_head s x q : ring_wf s (x :: q) -> aget (m_free_segs s) (m_free_head s) = Some x.
Proof.
  intros []. specialize (rg_at0 0). cbn [length] in rg_at0. rewrite Z.add_0_r, Z.mod_small in rg_at0 by lia.
  apply rg_at0. lia.
Qed.

Lemma ring_more s x y q : ring_wf s (x :: y :: q) -> m_free_head s <> m_free_tail s /\ m_free_nr s <> 0.
Proof.
  intros []. cbn [length] in *. split; [|lia]. rewrite rg_tail0, mod_wrap by lia.
  destruct (Z.ltb_spec (m_free_head s + Z.of_nat (S (S (length q))) - 1) (m_seg_nr s)); lia.
Qed.

Lemma next_head_eq s q : ring_wf s q ->
  next_head s = (if m_seg_nr s <=? m_free_head s + 1 then 0 else m_free_head s + 1).
Proof. intros []. unfold next_head. by rewrite w32_small by lia. Qed.

Lemma ring_popped s x y q : ring_wf s (x :: y :: q) -> ring_wf (popped s) (y :: q).
Proof.
  intros Hr. pose proof (next_head_eq _ _ Hr) as Eh. destruct Hr. cbn [length] in *.
  constructor; unfold popped; cbn [set_free m_free_nr m_free_segs m_seg_nr m_free_tail m_free_head length]; rewrite ?Eh; try lia.
  - rewrite w32_small by lia. lia.
  - destruct (Z.leb_spec (m_seg_nr s) (m_free_head s + 1)); lia.
  - rewrite rg_tail0, mod_wrap by lia.
    destruct (Z.leb_spec (m_seg_nr s) (m_free_head s + 1)); rewrite mod_wrap by lia; zcase; lia.
  - intros i Hi. specialize (rg_at0 (i + 1) ltac:(lia)).
    replace (aget (x :: y :: q) (i + 1)) with (aget (y :: q) i) in rg_at0.
    2:{ unfold aget. rewrite !(proj2 (Z.leb_le _ _)) by lia. by replace (Z.to_nat (i + 1)) with (S (Z.to_nat i)) by lia. }
    rewrite <- rg_at0. f_equal.
    destruct (Z.leb_spec (m_seg_nr s) (m_free_head s + 1)); rewrite !mod_wrap by lia; zcase; lia.
Qed.

Lemma next_tail_eq s q : ring_wf s q -> len q < m_seg_nr s ->
  next_tail s = (m_free_head s + len q) mod m_seg_nr s /\ next_tail s <> m_free_head s /\ 0 <= next_tail s < m_seg_nr s.
Proof.
  intros [] Hq. pose proof (Z.mod_pos_bound (m_free_head s + len q - 1) (m_seg_nr s) ltac:(lia)) as Hb.
  unfold next_tail. rewrite w32_small by lia. rewrite rg_tail0, !mod_wrap by lia.
  zcase; lia.
Qed.

Lemma ring_pushed s q x : ring_wf s q -> len q < m_seg_nr s -> ring_wf (pushed x s) (q ++ [x]).
Proof.
  intros Hr Hq. pose proof (next_tail_eq _ _ Hr Hq) as (Et & Hne & Hb). destruct Hr.
  assert (El : len (q ++ [x]) = len q + 1) by (rewrite length_app; cbn; lia).
  constructor; unfold pushed; cbn [set_free m_free_nr m_free_segs m_seg_nr m_free_tail m_free_head]; rewrite ?El, ?length_insert; try lia.
  - rewrite w32_small by lia. lia.
  - rewrite Et. f_equal. lia.
  - intros i Hi. destruct (decide (i = len q)) as [->|Hne'].
    + rewrite <- Et, aget_insert_eq by lia. symmetry. apply aget_Some. split; [lia|].
      by rewrite Nat2Z.id, list_lookup_middle.
    + rewrite aget_insert_ne; [|rewrite Et, !mod_wrap by lia; zcase; lia|lia].
      rewrite rg_at0 by lia. unfold aget. rewrite !(proj2 (Z.leb_le _ _)) by lia.
      symmetry. apply lookup_app_l. lia.
Qed.

(** ** Segments *)
Definition live_nr (l : list B) : Z := len (filter (fun b => live b = true) l).

Lemma live_nr_app l1 l2 : live_nr (l1 ++ l2) = live_nr l1 + live_nr l2.
Proof. unfold live_nr. rewrite filter_app, length_app. lia. Qed.
Lemma live_nr_one b : live_nr [b] = Z.b2z (live b).
Proof. unfold live_nr. cbn. by destruct (live b). Qed.
Lemma live_nr_bounds l : 0 <= live_nr l <= len l.
Proof. unfold live_nr. pose proof (length_filter (fun b => live b = true) l). lia. Qed.
Lemma live_nr_insert l i x y : aget l i = Some x ->
  live_nr (<[Z.to_nat i := y]> l) = live_nr l - Z.b2z (live x) + Z.b2z (live y).
Proof.
  intros Hx. pose proof (aget_bounds _ _ _ Hx) as Hb. apply aget_Some in Hx as [_ Hx].
  rewrite <- (take_drop_middle _ _ _ Hx) at 2.
  rewrite insert_take_drop by lia. cbn. change (?a :: ?b) with ([a] ++ b).
  rewrite !live_nr_app, !live_nr_one. lia.
Qed.
Lemma live_nr_none l : live_nr l = 0 -> forall i b, aget l i = Some b -> live b = false.
Proof.
  intros Hz i b Hb. destruct (live b) eqn:E; [|done]. exfalso.
  pose proof (live_nr_insert _ _ _ block_ff Hb) as Hi. rewrite E, live_ff in Hi. cbn in Hi.
  pose proof (live_nr_bounds (<[Z.to_nat i := block_ff]> l)). lia.
Qed.
Lemma live_nr_ff n : live_nr (replicate n block_ff) = 0.
Proof. induction n as [|n IH]; [done|]. cbn. change (?a :: ?b) with ([a] ++ b). rewrite live_nr_app, live_nr_one, live_ff. done. Qed.

Record seg_ok g : Prop := {
  so_len : len (blk_map g) = BLOCK_PER_SEG;
  so_cur : 0 <= cur_blk g <= BLOCK_PER_SEG;
  so_valid : valid_blk_nr g = live_nr (blk_map g);
  so_beyond i b : cur_blk g <= i -> aget (blk_map g) i = Some b -> live b = false
}.
Lemma so_valid_bounds g : seg_ok g -> 0 <= valid_blk_nr g <= BLOCK_PER_SEG.
Proof. intros []. pose proof (live_nr_bounds (blk_map g)). lia. Qed.
Lemma reset_ok : seg_ok seg_reset.
Proof.
  constructor; cbn [seg_reset blk_map cur_blk valid_blk_nr]; rewrite ?live_nr_ff, ?length_replicate; try done.
  intros i b _ Hb. apply aget_Some in Hb as [_ Hb]. apply lookup_replicate in Hb as [-> _]. apply live_ff.
Qed.

(** ** The table *)
Record mgr_wf s q : Prop := {
  mw_ring : ring_wf s q;
  mw_len : len (m_segments s) = m_seg_nr s;
  mw_seg i g : aget (m_segments s) i = Some g -> seg_ok g;
  mw_nodup : NoDup q;
  mw_free i : i ∈ q -> exists g, aget (m_segments s) i = Some g /\ cur_blk g = 0;
  mw_curlen : len (m_cur_segs s) = BT_TEMP_NR;
  mw_cur temp c : aget (m_cur_segs s) temp = Some c -> c <> INVALID_BLK ->
    c ∉ q /\ exists g, aget (m_segments s) c = Some g /\ cur_blk g < BLOCK_PER_SEG;
  mw_distinct a b c : aget (m_cur_segs s) a = Some c -> aget (m_cur_segs s) b = Some c ->
    c <> INVALID_BLK -> a = b;
  mw_cover i g : aget (m_segments s) i = Some g -> cur_blk g < BLOCK_PER_SEG -> i ∈ q \/ i ∈ m_cur_segs s;
  mw_health : exists h, m_health s = Some h
}.

(** The valid block at an address. *)
Definition view s (b : Z) : option B :=
  g ← aget (m_segments s) (b / BLOCK_PER_SEG); x ← aget (blk_map g) (b mod BLOCK_PER_SEG);
  if live x then Some x else None.

Lemma view_Some s b x : view s b = Some x <->
  exists g, aget (m_segments s) (b / BLOCK_PER_SEG) = Some g /\ aget (blk_map g) (b mod BLOCK_PER_SEG) = Some x /\ live x = true.
Proof.
  unfold view. destruct (aget (m_segments s) _) as [g|]; cbn; [|split; [done|by intros (g & [=] & _)]].
  destruct (aget (blk_map g) _) as [y|] eqn:Ey; cbn; [|split; [done|intros (h & [= <-] & Hx & _); congruence]].
  destruct (live y) eqn:El; split; [intros [= ->]; by exists g| | |].
  - intros (h & [= <-] & Hx & _). congruence.
  - done.
  - intros (h & [= <-] & Hx & Hl). congruence.
Qed.
Lemma view_live s b x : view s b = Some x -> live x = true.
Proof. intros (g & _ & _ & Hl)%view_Some. done. Qed.

(** Addresses of the table. *)
Lemma addr_split seg i : 0 <= i < BLOCK_PER_SEG ->
  (seg * BLOCK_PER_SEG + i) / BLOCK_PER_SEG = seg /\ (seg * BLOCK_PER_SEG + i) mod BLOCK_PER_SEG = i.
Proof.
  intros Hi. split.
  - symmetry. apply (Z.div_unique _ _ _ i); unfold BLOCK_PER_SEG in *; lia.
  - symmetry. apply (Z.mod_unique _ _ seg); unfold BLOCK_PER_SEG in *; lia.
Qed.
Lemma addr_join b : b = b / BLOCK_PER_SEG * BLOCK_PER_SEG + b mod BLOCK_PER_SEG.
Proof. pose proof (Z.div_mod b BLOCK_PER_SEG ltac:(done)). lia. Qed.
Lemma PhyBlock_small s q seg i : mgr_wf s q -> 0 <= seg < m_seg_nr s -> 0 <= i < BLOCK_PER_SEG ->
  PhyBlock seg i = seg * BLOCK_PER_SEG + i /\ PhyBlock seg i <> INVALID_BLK /\ 0 <= PhyBlock seg i.
Proof.
  intros Hw Hs Hi. pose proof (rg_max _ _ (mw_ring _ _ Hw)) as Hm.
  unfold PhyBlock. rewrite w32_small by (unfold BLOCK_PER_SEG in *; lia). unfold INVALID_BLK, BLOCK_PER_SEG in *. lia.
Qed.
Lemma view_addr s q b x : mgr_wf s q -> view s b = Some x ->
  0 <= b / BLOCK_PER_SEG < m_seg_nr s /\ 0 <= b mod BLOCK_PER_SEG < BLOCK_PER_SEG /\
  b <> INVALID_BLK /\ BlockToSeg b = (b / BLOCK_PER_SEG, b mod BLOCK_PER_SEG).
Proof.
  intros Hw (g & Hg & Hx & _)%view_Some. pose proof (aget_bounds _ _ _ Hg) as Hb.
  rewrite (mw_len _ _ Hw) in Hb. pose proof (Z.mod_pos_bound b BLOCK_PER_SEG ltac:(done)) as Hm.
  pose proof (PhyBlock_small _ _ _ _ Hw Hb Hm) as (E & Hne & _). rewrite E, <- addr_join in Hne.
  split_and!; [lia|lia|lia|lia|done|]. unfold BlockToSeg. destruct (Z.eqb_spec b INVALID_BLK); done.
Qed.

Lemma view_insert s i g g' b : aget (m_segments s) i = Some g ->
  view (set_segments (<[Z.to_nat i := g']> (m_segments s)) s) b =
  if b / BLOCK_PER_SEG =? i
  then x ← aget (blk_map g') (b mod BLOCK_PER_SEG); if live x then Some x else None else view s b.
Proof.
  intros Hg. pose proof (aget_bounds _ _ _ Hg) as Hb. unfold view. cbn [set_segments m_segments].
  destruct (Z.eqb_spec (b / BLOCK_PER_SEG) i) as [->|Hne]; [by rewrite aget_insert_eq by lia|].
  by rewrite aget_insert_ne by lia.
Qed.
(** Only the table matters to the view. *)
Lemma view_ext s t : m_segments t = m_segments s -> forall b, view t b = view s b.
Proof. intros E b. unfold view. by rewrite E. Qed.
End Inv.
