(* ===== verification/PerfSegOps.v ===== *)
(** PerfSegOps: what the operations of the segment table do to the queue of
    free segments and to the map of valid blocks. *)
From S2P Require Export PerfSegInv.

Section Ops.
Context {B : Type} `{BlockLaws B}.
Abbreviation SEG := (SEG_INFO B).
Abbreviation Mgr := (SegMgr B).
Implicit Types (s t : Mgr) (g : SEG) (q : list Z).

(** The logical saturation and the size of the volume. *)
Definition sat s : option (Z * Z) := (fun h => (m_logical_saturation h, m_logical_blk_nr h)) <$> m_health s.
(** What no operation on blocks changes. *)
Record stable s t : Prop := {
  st_nr : m_seg_nr t = m_seg_nr s; st_lo : m_gc_lo t = m_gc_lo s; st_hi : m_gc_hi t = m_gc_hi s;
  st_sat : sat t = sat s
}.
#[export] Instance stable_preorder : PreOrder stable.
Proof. split; [by constructor|]. intros s t u [] []. constructor; congruence. Qed.

(** The cell at an address, whatever it holds; and whether the segment of the
    address is full and has one valid block left. *)
Definition cell s (b : Z) : option B := g ← aget (m_segments s) (b / BLOCK_PER_SEG); aget (blk_map g) (b mod BLOCK_PER_SEG).
Definition alone s (b : Z) : bool :=
  match aget (m_segments s) (b / BLOCK_PER_SEG) with
  | Some g => (valid_blk_nr g =? 1) && (BLOCK_PER_SEG <=? cur_blk g) | None => false
  end.

Lemma wf_health s q h : mgr_wf s q -> mgr_wf (set_health (Some h) s) q.
Proof. intros [[] ]. constructor; try done. by exists h. Qed.

(** Replacing a segment that is not free, and the current segments with it. *)
Lemma wf_update s q i g g' cs : mgr_wf s q -> aget (m_segments s) i = Some g -> seg_ok g' -> i ∉ q ->
  len cs = BT_TEMP_NR ->
  (forall a c, aget cs a = Some c -> c <> INVALID_BLK ->
     aget (m_cur_segs s) a = Some c /\ (c = i -> cur_blk g' < BLOCK_PER_SEG)) ->
  (cur_blk g' < BLOCK_PER_SEG -> i ∈ cs) ->
  (forall c, c ∈ m_cur_segs s -> c <> i -> c <> INVALID_BLK -> c ∈ cs) ->
  mgr_wf (set_cur_segs cs (set_segments (<[Z.to_nat i := g']> (m_segments s)) s)) q.
Proof.
  intros Hw Hg Hok Hq Hl Hcs Hin Hkeep. pose proof (aget_bounds _ _ _ Hg) as Hb.
  pose proof (rg_max _ _ (mw_ring _ _ Hw)) as Hmax. pose proof (mw_len _ _ Hw) as Hlen. destruct Hw.
  assert (Hget : forall j, 0 <= j -> aget (<[Z.to_nat i := g']> (m_segments s)) j = if i =? j then Some g' else aget (m_segments s) j)
    by (intros j Hj; apply aget_insert; lia).
  constructor; cbn [set_cur_segs set_segments m_segments m_seg_nr m_cur_segs m_health]; try done.
  - by destruct mw_ring.
  - by rewrite length_insert.
  - intros j x Hx. pose proof (aget_bounds _ _ _ Hx) as Hj. rewrite Hget in Hx by lia.
    destruct (Z.eqb_spec i j); [by injection Hx as <-|by eapply mw_seg].
  - intros j Hj. destruct (mw_free j Hj) as (x & Hx & Hc). exists x. split; [|done].
    pose proof (aget_bounds _ _ _ Hx). rewrite Hget by lia. destruct (Z.eqb_spec i j) as [->|]; done.
  - intros a c Hc Hne. destruct (Hcs a c Hc Hne) as [Ho Hlt]. destruct (mw_cur a c Ho Hne) as (Hcq & x & Hx & Hxc).
    split; [done|]. pose proof (aget_bounds _ _ _ Hx). rewrite Hget by lia.
    destruct (Z.eqb_spec i c) as [<-|]; [exists g'; split; [done|by apply Hlt]|by exists x].
  - intros a b c Ha Hb' Hne. eapply mw_distinct; [by apply Hcs|by apply Hcs|done].
  - intros j x Hx Hc. pose proof (aget_bounds _ _ _ Hx) as Hj. rewrite Hget in Hx by lia.
    destruct (Z.eqb_spec i j) as [<-|Hne]; [injection Hx as <-; right; by apply Hin|].
    destruct (mw_cover j x Hx Hc) as [|Hcur]; [by left|right]. apply Hkeep; [done|done|].
    pose proof (aget_bounds _ _ _ Hx). unfold INVALID_BLK. lia.
Qed.

(** Giving the first segment of the queue to a temperature without one. *)
Lemma wf_alloc s x y q temp g : mgr_wf s (x :: y :: q) -> aget (m_segments s) x = Some g ->
  aget (m_cur_segs s) temp = Some INVALID_BLK ->
  mgr_wf (set_cur_segs (<[Z.to_nat temp := x]> (m_cur_segs s))
            (set_segments (<[Z.to_nat x := set_temp temp g]> (m_segments s)) (popped s))) (y :: q).
Proof.
  intros Hw Hg Ht. pose proof (aget_bounds _ _ _ Hg) as Hb. pose proof (aget_bounds _ _ _ Ht) as Htb.
  pose proof (ring_popped _ _ _ _ (mw_ring _ _ Hw)) as Hr. pose proof (mw_free _ _ Hw x ltac:(by left)) as (g0 & Hg0 & Hc0).
  rewrite Hg in Hg0. injection Hg0 as <-. destruct Hw.
  apply NoDup_cons in mw_nodup as [Hx Hnd].
  assert (Hget : forall j, 0 <= j -> aget (<[Z.to_nat x := set_temp temp g]> (m_segments s)) j =
     if x =? j then Some (set_temp temp g) else aget (m_segments s) j) by (intros j Hj; apply aget_insert; lia).
  assert (Hcs : forall a, 0 <= a -> aget (<[Z.to_nat temp := x]> (m_cur_segs s)) a = if temp =? a then Some x else aget (m_cur_segs s) a)
    by (intros a Ha; apply aget_insert; lia).
  assert (Hnew : forall a, a <> temp -> aget (m_cur_segs s) a <> Some x).
  { intros a Ha Hax. destruct (mw_cur a x Hax) as (Hn & _); [unfold INVALID_BLK; pose proof (rg_max _ _ mw_ring); lia|].
    apply Hn. by left. }
  constructor; cbn [set_cur_segs set_segments popped set_free m_segments m_seg_nr m_cur_segs m_health]; try done.
  - by destruct Hr.
  - by rewrite length_insert.
  - intros j z Hz. pose proof (aget_bounds _ _ _ Hz) as Hj. rewrite Hget in Hz by lia.
    destruct (Z.eqb_spec x j); [injection Hz as <-; by destruct (mw_seg _ _ Hg)|by eapply mw_seg].
  - intros j Hj. destruct (mw_free j ltac:(by right)) as (z & Hz & Hc). exists z. split; [|done].
    pose proof (aget_bounds _ _ _ Hz). rewrite Hget by lia. destruct (Z.eqb_spec x j) as [->|]; done.
  - by rewrite length_insert.
  - intros a c Hc Hne. pose proof (aget_bounds _ _ _ Hc) as Ha. rewrite Hcs in Hc by lia.
    destruct (Z.eqb_spec temp a) as [->|Hta].
    + injection Hc as <-. split; [done|]. exists (set_temp a g). rewrite Hget, Z.eqb_refl by lia.
      split; [done|]. cbn. rewrite Hc0. done.
    + destruct (mw_cur a c Hc Hne) as (Hcq & z & Hz & Hzc). split; [set_solver|]. exists z. split; [|done].
      pose proof (aget_bounds _ _ _ Hz). rewrite Hget by lia. destruct (Z.eqb_spec x c) as [<-|]; [|done].
      by destruct (Hnew a).
  - intros a b c Ha Hb' Hne. pose proof (aget_bounds _ _ _ Ha). pose proof (aget_bounds _ _ _ Hb').
    rewrite Hcs in Ha, Hb' by lia. destruct (Z.eqb_spec temp a) as [Hta|Hta], (Z.eqb_spec temp b) as [Htb'|Htb'].
    + congruence.
    + exfalso. injection Ha as <-. by apply (Hnew b).
    + exfalso. injection Hb' as <-. by apply (Hnew a).
    + by eapply mw_distinct.
  - intros j z Hz Hc. pose proof (aget_bounds _ _ _ Hz) as Hj. rewrite length_insert in Hj. rewrite Hget in Hz by lia.
    destruct (Z.eqb_spec x j) as [<-|Hne].
    + right. apply list_elem_of_lookup. exists (Z.to_nat temp). apply list_lookup_insert_eq. lia.
    + destruct (mw_cover j z Hz Hc) as [[->|]%elem_of_cons|Hcur]; [done|by left|right].
      apply list_elem_of_lookup in Hcur as [k Hk]. apply list_elem_of_lookup. exists k.
      rewrite list_lookup_insert_ne; [done|]. intros <-. apply aget_Some in Ht as [_ Ht].
      rewrite Ht in Hk. injection Hk as <-. pose proof (rg_max _ _ mw_ring). unfold INVALID_BLK in *. lia.
Qed.

(** Erasing a full segment and queueing it. *)
Lemma wf_free s q i g : mgr_wf s q -> aget (m_segments s) i = Some g -> i ∉ q -> i ∉ m_cur_segs s ->
  len q < m_seg_nr s /\
  mgr_wf (pushed i (set_segments (<[Z.to_nat i := seg_reset]> (m_segments s)) s)) (q ++ [i]).
Proof.
  intros Hw Hg Hq Hc. pose proof (aget_bounds _ _ _ Hg) as Hb. pose proof (mw_len _ _ Hw) as Hlen.
  assert (Hroom : len q < m_seg_nr s).
  { pose proof (NoDup_bounded (i :: q) (m_seg_nr s)) as Hn. cbn [length] in Hn.
    destruct (rg_pos _ _ (mw_ring _ _ Hw)). enough (Z.of_nat (S (length q)) <= Z.max 0 (m_seg_nr s)) by lia.
    apply Hn; [constructor; [done|apply Hw]|]. intros x [->|Hx]%elem_of_cons; [lia|].
    destruct (mw_free _ _ Hw x Hx) as (z & Hz & _). pose proof (aget_bounds _ _ _ Hz). lia. }
  split; [done|].
  assert (Hr : ring_wf (pushed i (set_segments (<[Z.to_nat i := seg_reset]> (m_segments s)) s)) (q ++ [i])).
  { apply ring_pushed; [|done]. by destruct (mw_ring _ _ Hw). }
  assert (Hget : forall j, 0 <= j -> aget (<[Z.to_nat i := seg_reset]> (m_segments s)) j =
     if i =? j then Some seg_reset else aget (m_segments s) j) by (intros j Hj; apply aget_insert; lia).
  destruct Hw. constructor; cbn [pushed set_segments set_free m_segments m_seg_nr m_cur_segs m_health]; try done.
  - by rewrite length_insert.
  - intros j z Hz. pose proof (aget_bounds _ _ _ Hz) as Hj. rewrite Hget in Hz by lia.
    destruct (Z.eqb_spec i j); [injection Hz as <-; apply reset_ok|by eapply mw_seg].
  - apply NoDup_app. split_and!; [done|set_solver|apply NoDup_singleton].
  - intros j [Hj| ->%list_elem_of_singleton]%elem_of_app.
    + destruct (mw_free j Hj) as (z & Hz & Hz0). exists z. pose proof (aget_bounds _ _ _ Hz).
      rewrite Hget by lia. destruct (Z.eqb_spec i j) as [->|]; done.
    + exists seg_reset. rewrite Hget, Z.eqb_refl by lia. done.
  - intros a c Ha Hne. destruct (mw_cur a c Ha Hne) as (Hcq & z & Hz & Hzc).
    assert (i <> c) as Hic. { intros ->. apply Hc. apply aget_Some in Ha as [_ Ha]. by eapply list_elem_of_lookup_2. }
    split; [set_solver|]. exists z. pose proof (aget_bounds _ _ _ Hz). rewrite Hget by lia.
    by destruct (Z.eqb_spec i c).
  - intros j z Hz Hzc. pose proof (aget_bounds _ _ _ Hz) as Hj. rewrite Hget in Hz by lia.
    destruct (Z.eqb_spec i j) as [<-|Hne]; [left; set_solver|].
    destruct (mw_cover j z Hz Hzc); [left; set_solver|by right].
Qed.

(** ** The queue of free segments *)
Definition alloc_state (temp x : Z) g (h : FsHealthInfo) s : Mgr :=
  set_segments (<[Z.to_nat x := set_temp temp g]> (m_segments s))
    (set_health (Some (h_free_seg (fun n => n - 1) h)) (popped s)).
Definition free_state (i : Z) (h : FsHealthInfo) s : Mgr :=
  set_health (Some (h_free_seg (fun n => n + 1) h))
    (pushed i (set_segments (<[Z.to_nat i := seg_reset]> (m_segments s)) s)).

Lemma AllocSegment_more s x y q temp g h : mgr_wf s (x :: y :: q) ->
  aget (m_segments s) x = Some g -> m_health s = Some h ->
  runs (AllocSegment temp) s x (alloc_state temp x g h s).
Proof.
  intros Hw Hg Hh. destruct (ring_more _ _ _ _ (mw_ring _ _ Hw)) as [H1 H2].
  pose proof (ring_head _ _ _ (mw_ring _ _ Hw)) as H3. pose proof (aget_bounds _ _ _ Hg) as Hb.
  unfold runs, AllocSegment, bind, get. rewrite (proj2 (Z.eqb_neq _ _) H1), (proj2 (Z.eqb_neq _ _) H2). cbn [orb].
  rewrite H3. cbn [opt ret put]. fold (next_head s). fold (popped s).
  unfold health, seg_at, seg_put, bind, get. cbn [m_health popped set_free]. rewrite Hh. cbn [opt ret put].
  cbn [set_health popped m_segments set_free]. rewrite Hg. cbn [opt ret]. cbn [set_health popped m_segments set_free]. rewrite (aset_is_Some (m_segments s)) by lia. done.
Qed.

Lemma AllocSegment_last s x temp : mgr_wf s [x] -> throws (AllocSegment temp) s ERR_APP s.
Proof.
  intros Hw. pose proof (ring_last _ _ (mw_ring _ _ Hw)) as E.
  unfold throws, AllocSegment, bind, get. rewrite E, Z.eqb_refl. done.
Qed.

Lemma FreeSegment_runs s q i g h : mgr_wf s q -> aget (m_segments s) i = Some g -> i ∉ q -> i ∉ m_cur_segs s ->
  m_health s = Some h -> runs (FreeSegment i) s tt (free_state i h s).
Proof.
  intros Hw Hg Hq Hc Hh. destruct (wf_free _ _ _ _ Hw Hg Hq Hc) as [Hroom _].
  destruct (next_tail_eq _ _ (mw_ring _ _ Hw) Hroom) as (_ & Hne & Hb).
  pose proof (aget_bounds _ _ _ Hg) as Hi. pose proof (rg_len _ _ (mw_ring _ _ Hw)) as Hl.
  unfold runs, FreeSegment, bind, get. fold (next_tail s). cbn [put]. rewrite (proj2 (Z.eqb_neq _ _) Hne).
  unfold seg_put, health, bind, get. cbn [m_segments set_free]. rewrite (aset_is_Some (m_segments s)) by lia. cbn [opt ret put].
  cbn [set_segments set_free m_free_segs m_free_tail]. rewrite (aset_is_Some (m_free_segs s)) by lia. cbn [opt ret put m_health set_free set_segments].
  rewrite Hh. done.
Qed.

Lemma current_segment_spec s q temp : mgr_wf s q -> 0 <= temp < BT_TEMP_NR ->
  wp (current_segment temp)
    (fun c t => exists q' g, mgr_wf t q' /\ aget (m_cur_segs t) temp = Some c /\ c <> INVALID_BLK /\
       aget (m_segments t) c = Some g /\ cur_blk g < BLOCK_PER_SEG /\ (forall b, view t b = view s b) /\ stable s t /\
       (forall b, alone t b = alone s b))
    (fun e t => e = ERR_APP /\ t = s /\ exists x, q = [x]) s.
Proof.
  intros Hw Ht. unfold current_segment. wp_steps.
  destruct (aget_is_Some (m_cur_segs s) temp) as [c Hc]; [rewrite (mw_curlen _ _ Hw); lia|].
  eapply wp_bind_opt; [exact Hc|]. destruct (Z.eqb_spec c INVALID_BLK) as [->|Hne].
  2:{ wp_steps. destruct (mw_cur _ _ Hw _ _ Hc Hne) as (Hq & g & Hg & Hlt). exists q, g. done. }
  pose proof (rg_pos _ _ (mw_ring _ _ Hw)) as Hpos.
  destruct q as [|x [|y q]]; [cbn in Hpos; lia| |].
  { unfold wp, bind. rewrite (AllocSegment_last _ _ _ Hw). split_and!; [done|done|by exists x]. }
  destruct (mw_free _ _ Hw x ltac:(by left)) as (g & Hg & Hg0). destruct (mw_health _ _ Hw) as [h Hh].
  apply wp_bind. eapply runs_wp; [by eapply AllocSegment_more|].
  pose proof (aget_bounds _ _ _ Hc). pose proof (aget_bounds _ _ _ Hg). wp_steps.
  eapply wp_bind_opt; [by apply aset_is_Some|]. wp_steps. pose proof (rg_max _ _ (mw_ring _ _ Hw)). pose proof (mw_len _ _ Hw).
  exists (y :: q), (set_temp temp g). split_and!.
  - apply (wf_health (set_cur_segs (<[Z.to_nat temp := x]> (m_cur_segs s))
      (set_segments (<[Z.to_nat x := set_temp temp g]> (m_segments s)) (popped s))) _ (h_free_seg (fun n => n - 1) h)).
    by apply wf_alloc.
  - cbn. by apply aget_insert_eq.
  - unfold INVALID_BLK. lia.
  - cbn. by apply aget_insert_eq.
  - cbn. rewrite Hg0. done.
  - intros b. rewrite (view_ext (set_segments (<[Z.to_nat x := set_temp temp g]> (m_segments s)) s) _) by done.
    rewrite (view_insert s x g) by done. destruct (Z.eqb_spec (b / BLOCK_PER_SEG) x) as [<-|]; [|done].
    unfold view. by rewrite Hg.
  - constructor; try done. cbn. unfold sat. cbn. by rewrite Hh.
  - intros b. unfold alone. cbn [set_cur_segs set_segments m_segments alloc_state set_health popped set_free].
    destruct (decide (b / BLOCK_PER_SEG = x)) as [->|Hbx]; [by rewrite aget_insert_eq, Hg by lia|by rewrite aget_insert_ne by lia].
Qed.

(** ** Invalidating a block *)
Lemma view_deleted s b g x c : view s b = Some x -> aget (m_segments s) (b / BLOCK_PER_SEG) = Some g ->
  forall b', view (set_segments (<[Z.to_nat (b / BLOCK_PER_SEG) :=
     set_counts c (cur_blk g) (set_map (<[Z.to_nat (b mod BLOCK_PER_SEG) := TypedInvalidBlock x]> (blk_map g)) g)]> (m_segments s)) s) b' =
   if b' =? b then None else view s b'.
Proof.
  intros (g' & Hg' & Hx & Hl)%view_Some Hg b'. rewrite Hg in Hg'. injection Hg' as <-.
  rewrite (view_insert _ _ g) by done. cbn [blk_map set_counts set_map].
  pose proof (aget_bounds _ _ _ Hx) as Hb. pose proof (Z.mod_pos_bound b' BLOCK_PER_SEG ltac:(done)) as Hb'.
  destruct (Z.eqb_spec b' b) as [->|Hne].
  - rewrite Z.eqb_refl, aget_insert_eq by lia. cbn. by rewrite live_invalid.
  - destruct (Z.eqb_spec (b' / BLOCK_PER_SEG) (b / BLOCK_PER_SEG)) as [E|]; [|done].
    rewrite aget_insert_ne; [unfold view; rewrite E, Hg; done| |lia].
    intros Em. apply Hne. rewrite (addr_join b), (addr_join b'), E, Em. done.
Qed.

Lemma lfs_InvalidBlock_spec s q b x : mgr_wf s q -> view s b = Some x ->
  wp (InvalidBlock b)
    (fun f t => exists q', mgr_wf t q' /\ (forall b', view t b' = if b' =? b then None else view s b') /\ stable s t /\
       f = alone s b /\ cell t b = Some (if f then block_ff else TypedInvalidBlock x))
    (fun _ _ => False) s.
Proof.
  intros Hw Hv. destruct (view_addr _ _ _ _ Hw Hv) as (Hs & Hm & Hne & Hb).
  destruct (proj1 (view_Some _ _ _) Hv) as (g & Hg & Hx & Hl).
  pose proof (mw_seg _ _ Hw _ _ Hg) as Hok. pose proof (so_valid_bounds _ Hok) as Hvb.
  unfold InvalidBlock. rewrite (proj2 (Z.eqb_neq _ _) Hne), Hb. unfold InvalidBlock_at.
  set (seg := b / BLOCK_PER_SEG) in *. set (i := b mod BLOCK_PER_SEG) in *. wp_steps.
  apply wp_bind, wp_check; [apply Z.ltb_lt; lia|]. unfold seg_at. wp_steps.
  eapply wp_bind_opt; [done|]. eapply wp_bind_opt; [done|].
  assert (Hi : 0 <= i < len (blk_map g)) by (by eapply aget_bounds).
  eapply wp_bind_opt; [by apply aset_is_Some|].
  pose proof (live_nr_insert _ _ _ (TypedInvalidBlock x) Hx) as Hn. rewrite Hl, live_invalid in Hn. cbn in Hn.
  pose proof (live_nr_bounds (<[Z.to_nat i := TypedInvalidBlock x]> (blk_map g))) as Hnb.
  rewrite length_insert in Hnb. pose proof (so_len _ Hok) as Hlen. pose proof (so_valid _ Hok) as Hval.
  assert (Ec : w32 (valid_blk_nr g - 1) = valid_blk_nr g - 1) by (apply w32_small; unfold BLOCK_PER_SEG in *; lia).
  rewrite Ec. cbn [valid_blk_nr cur_blk set_map set_counts].
  set (g' := set_counts _ _ _). set (s' := set_segments (<[Z.to_nat seg := g']> (m_segments s)) s).
  assert (Hok' : seg_ok g').
  { destruct Hok. constructor; cbn; [by rewrite length_insert|done|lia|]. intros j y Hj Hy.
    pose proof (aget_bounds _ _ _ Hy) as Hyb. rewrite aget_insert in Hy by lia.
    destruct (Z.eqb_spec i j); [injection Hy as <-; apply live_invalid|by eapply so_beyond]. }
  assert (Hseg : 0 <= seg < len (m_segments s)) by (by eapply aget_bounds).
  assert (Hq : seg ∉ q).
  { intros Hin. destruct (mw_free _ _ Hw _ Hin) as (g0 & Hg0 & Hc0). rewrite Hg in Hg0. injection Hg0 as <-.
    pose proof (so_beyond _ Hok i x ltac:(lia) Hx). congruence. }
  assert (Hw' : mgr_wf s' q).
  { replace s' with (set_cur_segs (m_cur_segs s) s') by (by destruct s).
    eapply wf_update; [done|done|done|done|apply Hw| |..].
    - intros a c Hc Hcn. split; [done|]. intros ->. destruct (mw_cur _ _ Hw _ _ Hc Hcn) as (_ & g0 & Hg0 & Hlt).
      rewrite Hg in Hg0. by injection Hg0 as <-.
    - intros Hlt. by destruct (mw_cover _ _ Hw _ _ Hg Hlt).
    - done. }
  pose proof (view_deleted s b g x (valid_blk_nr g - 1) Hv Hg) as Hview. fold seg i g' s' in Hview.
  eapply wp_then with (P := fun _ t => t = s').
  { unfold seg_put. wp_steps. eapply wp_bind_opt; [by apply aset_is_Some|]. done. }
  intros _ t ->. destruct (mw_health _ _ Hw) as [h Hh].
  destruct ((valid_blk_nr g - 1 =? 0) && (BLOCK_PER_SEG <=? cur_blk g)) eqn:Efull.
  - apply andb_true_iff in Efull as [Ez%Z.eqb_eq Ef%Z.leb_le].
    assert (Hg1 : aget (m_segments s') seg = Some g') by (by apply aget_insert_eq).
    assert (Hcs : seg ∉ m_cur_segs s').
    { intros Hin. apply list_elem_of_lookup in Hin as [k Hk]. pose proof (rg_max _ _ (mw_ring _ _ Hw)).
      destruct (mw_cur _ _ Hw (Z.of_nat k) seg) as (_ & g0 & Hg0 & Hlt).
      - apply aget_Some. split; [lia|]. by rewrite Nat2Z.id.
      - pose proof (mw_len _ _ Hw). unfold INVALID_BLK. lia.
      - rewrite Hg in Hg0. injection Hg0 as <-. lia. }
    destruct (wf_free _ _ _ _ Hw' Hg1 Hq Hcs) as [_ Hw2].
    apply wp_bind_assoc, wp_bind. eapply runs_wp; [by eapply FreeSegment_runs|]. wp_steps.
    unfold health. wp_steps. eapply wp_bind_opt; [done|]. wp_steps. exists (q ++ [seg]). split_and!.
    + by do 2 apply wf_health.
    + intros b'. rewrite <- Hview.
      rewrite (view_ext (set_segments (<[Z.to_nat seg := seg_reset]> (m_segments s')) s') _) by done.
      rewrite (view_insert s' seg g') by done. destruct (Z.eqb_spec (b' / BLOCK_PER_SEG) seg) as [E|]; [|done].
      unfold view. rewrite E, Hg1. cbn [mbind option_bind].
      assert (Hnone : live_nr (blk_map g') = 0) by (cbn; lia).
      destruct (aget (blk_map seg_reset) _) as [y|] eqn:Ey; cbn [mbind option_bind].
      * pose proof (aget_Some (blk_map (seg_reset (B := B))) (b' mod BLOCK_PER_SEG) y) as [[_ Hy] _]; [done|].
        apply lookup_replicate in Hy as [-> _]. rewrite live_ff.
        destruct (aget (blk_map g') _) as [z|] eqn:Ez'; cbn; [|done]. by rewrite (live_nr_none _ Hnone _ _ Ez').
      * destruct (aget (blk_map g') _) as [z|] eqn:Ez'; cbn; [|done]. by rewrite (live_nr_none _ Hnone _ _ Ez').
    + constructor; try done. cbn. unfold sat. cbn. by rewrite Hh.
    + unfold alone. fold seg. rewrite Hg, (proj2 (Z.leb_le _ _) Ef), andb_true_r. symmetry. apply Z.eqb_eq. lia.
    + unfold cell. fold seg i. cbn [free_state set_health m_segments pushed set_free set_segments].
      rewrite aget_insert_eq by (by eapply aget_bounds). cbn [mbind option_bind seg_reset blk_map].
      apply aget_replicate. done.
  - wp_steps. unfold health. wp_steps. eapply wp_bind_opt; [done|]. wp_steps. exists q. split_and!.
    + by apply wf_health.
    + done.
    + constructor; try done. cbn. unfold sat. cbn. by rewrite Hh.
    + unfold alone. fold seg. rewrite Hg. rewrite <- Efull. f_equal. destruct (Z.eqb_spec (valid_blk_nr g - 1) 0), (Z.eqb_spec (valid_blk_nr g) 1); lia.
    + unfold cell. cbn [set_health m_segments s' set_segments]. fold seg i. rewrite aget_insert_eq by lia. cbn. apply aget_insert_eq. lia.
Qed.

(** ** Assigning to a valid block *)
Lemma lfs_put_block_spec s q b x x' : mgr_wf s q -> view s b = Some x -> live x' = true ->
  wp (put_block b x')
    (fun _ t => mgr_wf t q /\ stable s t /\ forall c, view t c = if c =? b then Some x' else view s c)
    (fun _ _ => False) s.
Proof.
  intros Hw Hv Hl'. destruct (view_addr _ _ _ _ Hw Hv) as (_ & _ & _ & Eb).
  destruct (proj1 (view_Some _ _ _) Hv) as (g & Hg & Hx & Hl). pose proof (mw_seg _ _ Hw _ _ Hg) as Hok.
  unfold put_block. rewrite Eb. unfold seg_at. wp_steps. eapply wp_bind_opt; [exact Hg|].
  pose proof (aget_bounds _ _ _ Hx) as Hi. eapply wp_bind_opt; [by apply aset_is_Some|].
  pose proof (aget_bounds _ _ _ Hg) as Hs. unfold seg_put. wp_steps. eapply wp_bind_opt; [by apply aset_is_Some|].
  set (g' := set_map _ g). change (wp (put ?t) ?Q ?E ?s) with (Q tt t).
  pose proof (live_nr_insert _ _ _ x' Hx) as Hn. rewrite Hl, Hl' in Hn.
  assert (Hok' : seg_ok g').
  { destruct Hok. constructor; cbn; [by rewrite length_insert|done|lia|]. intros j y Hj Hy.
    pose proof (aget_bounds _ _ _ Hy) as Hyb. rewrite aget_insert in Hy by lia.
    destruct (Z.eqb_spec (b mod BLOCK_PER_SEG) j); [|by eapply so_beyond].
    subst j. pose proof (so_beyond _ _ Hj Hx). congruence. }
  assert (Hq : b / BLOCK_PER_SEG ∉ q).
  { intros Hin. destruct (mw_free _ _ Hw _ Hin) as (g0 & Hg0 & Hc0). rewrite Hg in Hg0. injection Hg0 as <-.
    pose proof (so_beyond _ Hok (b mod BLOCK_PER_SEG) x ltac:(lia) Hx). congruence. }
  split_and!.
  - replace (set_segments _ s) with (set_cur_segs (m_cur_segs s) (set_segments (<[Z.to_nat (b / BLOCK_PER_SEG) := g']> (m_segments s)) s)) by (by destruct s).
    eapply wf_update; [done|done|done|done|apply Hw| |..].
    + intros a c Hc Hcn. split; [done|]. intros ->. destruct (mw_cur _ _ Hw _ _ Hc Hcn) as (_ & g0 & Hg0 & Hlt).
      rewrite Hg in Hg0. by injection Hg0 as <-.
    + intros Hlt. by destruct (mw_cover _ _ Hw _ _ Hg Hlt).
    + done.
  - done.
  - intros c. rewrite (view_insert _ _ g) by done. cbn [g' blk_map set_map].
    destruct (Z.eqb_spec c b) as [->|Hne].
    + rewrite Z.eqb_refl, aget_insert_eq by lia. cbn. by rewrite Hl'.
    + destruct (Z.eqb_spec (c / BLOCK_PER_SEG) (b / BLOCK_PER_SEG)) as [E|]; [|done].
      rewrite aget_insert_ne; [unfold view; rewrite E, Hg; done| |lia].
      intros Em. apply Hne. rewrite (addr_join b), (addr_join c), E, Em. done.
Qed.

(** ** A fresh manager *)
Lemma lfs_InitSegmentManager_spec s n lo hi h : m_health s = Some h -> 0 < n < 2 ^ 23 ->
  wp (InitSegmentManager n lo hi)
    (fun r t => r = true /\ mgr_wf t (range 0 n) /\ (forall b, view t b = None) /\ m_seg_nr t = n /\ m_gc_lo t = lo /\ m_gc_hi t = hi /\ sat t = sat s)
    (fun _ _ => False) s.
Proof.
  intros Hh Hn. unfold InitSegmentManager. wp_steps. eapply wp_bind_opt; [exact Hh|]. wp_steps.
  assert (Hlen : len (range 0 n) = n) by (unfold range; rewrite length_seqZ; lia).
  set (t := mkMgr _ _ _ _ _ _ _ _ _ _).
  assert (Hseg : forall i g, aget (m_segments t) i = Some g -> g = seg_reset).
  { intros i g [_ Hg]%aget_Some. by apply lookup_replicate in Hg as [-> _]. }
  assert (Hcur : forall a c, aget (m_cur_segs t) a = Some c -> c = INVALID_BLK).
  { intros a c [_ Hc]%aget_Some. by apply lookup_replicate in Hc as [-> _]. }
  assert (Hall : forall i, 0 <= i < n -> aget (m_segments t) i = Some seg_reset).
  { intros i Hi. apply aget_Some. split; [lia|]. apply lookup_replicate_2. lia. }
  assert (Hall' : forall i g, aget (m_segments t) i = Some g -> 0 <= i < n).
  { intros i g Hg%aget_bounds. cbn [t m_segments] in Hg. rewrite length_replicate in Hg. lia. }
  split_and!; try done; [constructor| |].
  - constructor; cbn [t m_free_nr m_free_segs m_free_head m_free_tail m_seg_nr]; rewrite ?Hlen; try lia.
    + rewrite w32_small by lia. rewrite Z.mod_small; lia.
    + intros i Hi. by rewrite Z.mod_small by lia.
  - cbn [t m_segments m_seg_nr]. rewrite length_replicate. lia.
  - intros i g ->%Hseg. apply reset_ok.
  - apply NoDup_seqZ.
  - intros i Hi%elem_of_range. exists seg_reset. split; [by apply Hall|done].
  - done.
  - by intros temp c ->%Hcur.
  - by intros a b c ->%Hcur.
  - intros i g Hg _. left. apply elem_of_range. by eapply Hall'.
  - by eexists.
  - intros b. unfold view. destruct (aget (m_segments t) (b / BLOCK_PER_SEG)) as [g|] eqn:Eg; [|done]. apply Hseg in Eg as ->. cbn.
    destruct (aget _ (b mod BLOCK_PER_SEG)) as [x|] eqn:Ex; [|done]. cbn. apply aget_Some in Ex as [_ Ex].
    apply lookup_replicate in Ex as [-> _]. by rewrite live_ff.
  - unfold sat. by rewrite Hh.
Qed.
End Ops.
