(* ===== verification/PerfPoolInv.v ===== *)
(** PerfPoolInv: the pool of victims gives out numbers of segments, as many as
    were kept.  Its heaps hold no cell without a value when [N - 1] segments
    were pushed; with fewer, moving them reads cells that were never written. *)
From S2P Require Export PerfPool PerfSegInv.

Section Pool.
Context (N n : Z) (val : Z -> option Z).
Context (HN : 1 < N) (Hval : forall e, 0 <= e < n -> exists v, val e = Some v).
Abbreviation Pool := GcPool.

(** The first [k] cells hold segments of a table of [n]. *)
Definition ids (h : list (option Z)) (k : Z) : Prop :=
  forall i, 0 <= i < k -> exists e, aget h i = Some (Some e) /\ 0 <= e < n.

Lemma ids_le h k j : ids h k -> j <= k -> ids h j.
Proof. intros H Hj i Hi. apply H. lia. Qed.
Lemma ids_len h k : ids h k -> k <= len h.
Proof.
  intros H. destruct (decide (k <= 0)); [lia|]. destruct (H (k - 1)) as (e & He & _); [lia|].
  apply aget_bounds in He. lia.
Qed.
Lemma ids_set h k i e : ids h k -> 0 <= i < k -> 0 <= e < n -> ids (<[Z.to_nat i := Some e]> h) k.
Proof.
  intros H Hi He x Hx. pose proof (ids_len _ _ H). rewrite aget_insert by lia.
  destruct (Z.eqb_spec i x); [by exists e|]. by apply H.
Qed.
Lemma ids_push h k e : ids h k -> 0 <= k < len h -> 0 <= e < n -> ids (<[Z.to_nat k := Some e]> h) (k + 1).
Proof.
  intros H Hk He x Hx. rewrite aget_insert by lia.
  destruct (Z.eqb_spec k x); [by exists e|]. apply H. lia.
Qed.

Lemma wp_val_at h k i (Q : Z -> Pool -> Prop) E p : ids h k -> 0 <= i < k -> (forall v, Q v p) -> wp (val_at val h i) Q E p.
Proof.
  intros H Hi HQ. destruct (H i Hi) as (e & He & Hb). destruct (Hval e Hb) as [v Hv].
  unfold val_at, cell_at. wp_steps. eapply wp_bind_opt; [exact He|]. cbn [opt].
  wp_steps. eapply wp_opt; [exact Hv|apply HQ].
Qed.

Lemma swap_ids h k i j : ids h k -> 0 <= i < k -> 0 <= j < k ->
  exists h', swap h i j = Some h' /\ ids h' k /\ len h' = len h.
Proof.
  intros H Hi Hj. pose proof (ids_len _ _ H) as Hl.
  destruct (H i Hi) as (a & Ha & Hab). destruct (H j Hj) as (b & Hb & Hbb). unfold swap. rewrite Ha, Hb. cbn [mbind option_bind].
  rewrite aset_is_Some by lia. cbn [mbind option_bind]. rewrite aset_is_Some by (rewrite length_insert; lia).
  eexists. split; [done|]. split; [|by rewrite !length_insert].
  apply ids_set; [apply ids_set; done|done|done].
Qed.

Lemma sift_up_spec stop h k cur p : ids h k -> 0 <= cur < k -> k <= N ->
  wp (sift_up N val stop h cur) (fun h' p' => p' = p /\ ids h' k /\ len h' = len h) (fun _ _ => False) p.
Proof.
  intros H Hc Hk. unfold sift_up.
  eapply wp_then with (P := fun r p' => p' = p /\ ids r.1 k /\ len r.1 = len h); [|by intros r p' Hr].
  eapply (wp_mwhile _ _ _ (fun a p' => p' = p /\ ids a.1 k /\ len a.1 = len h /\ 0 <= a.2 < k) (fun a _ => a.2)).
  - done.
  - intros a t (_ & _ & _ & Ha). lia.
  - cbn. lia.
  - intros [h1 c] t (-> & H1 & Hl1 & Hc1). cbn [fst snd] in *. destruct (Z.ltb_spec 0 c) as [Hpos|]; cbn [negb].
    2:{ wp_steps. done. }
    assert (Hp : 0 <= (c - 1) / 2 < c).
    { split; [apply Z.div_pos; lia|]. apply Z.div_lt_upper_bound; lia. }
    apply wp_bind. eapply wp_val_at; [exact H1|lia|]. intros v1. apply wp_bind. eapply wp_val_at; [exact H1|lia|]. intros v2.
    destruct (stop v1 v2); [by wp_steps|]. destruct (swap_ids _ _ c ((c - 1) / 2) H1) as (h2 & E & H2 & Hl2); [lia|lia|].
    eapply wp_bind_opt; [exact E|]. wp_steps. split; [|cbn; lia]. split_and!; [done|done|cbn [fst]; congruence|cbn [snd]; lia..].
Qed.

Lemma sift_down_spec before h k p : ids h k -> 0 <= k < N ->
  wp (sift_down N val before k h) (fun h' p' => p' = p /\ ids h' k /\ len h' = len h) (fun _ _ => False) p.
Proof.
  intros H Hk. unfold sift_down.
  eapply wp_then with (P := fun r p' => p' = p /\ ids r.1 k /\ len r.1 = len h); [|by intros r p' Hr].
  eapply (wp_mwhile _ _ _ (fun a p' => p' = p /\ ids a.1 k /\ len a.1 = len h /\ 0 <= a.2 < Z.max 1 k) (fun a _ => N - a.2)).
  - cbn. split_and!; [done|done|done|lia..].
  - intros a t (_ & _ & _ & Ha). lia.
  - cbn. lia.
  - intros [h1 c] t (-> & H1 & Hl1 & Hc1). cbn [fst snd] in *.
    eapply wp_then with (P := fun m p' => p' = p /\ (m = c \/ c < m < k)).
    { destruct (Z.ltb_spec (c * 2 + 1) k); [|wp_steps; by auto].
      apply wp_bind. eapply wp_val_at; [exact H1|lia|]. intros v1. apply wp_bind. eapply wp_val_at; [exact H1|lia|]. intros v2.
      wp_steps. split; [done|]. destruct (before v1 v2); lia. }
    intros m1 t [-> Hm1].
    eapply wp_then with (P := fun m p' => p' = p /\ (m = c \/ c < m < k)).
    { destruct (Z.ltb_spec (c * 2 + 1 + 1) k); [|wp_steps; by auto].
      apply wp_bind. eapply wp_val_at; [exact H1|lia|]. intros v1. apply wp_bind. eapply wp_val_at; [exact H1|lia|]. intros v2.
      wp_steps. split; [done|]. destruct (before v1 v2); lia. }
    intros m t [-> Hm]. destruct (Z.eqb_spec m c) as [|Hne]; [by wp_steps|].
    destruct (swap_ids _ _ m c H1) as (h2 & E & H2 & Hl2); [lia|lia|].
    eapply wp_bind_opt; [exact E|]. wp_steps. split; [|cbn; lia]. split_and!; [done|done|cbn [fst]; congruence|cbn [snd]; lia..].
Qed.

(** The pool while it is filled, and while it is emptied. *)
Definition filling (p : Pool) (k : Z) : Prop :=
  large_len p = Z.min k (N - 1) /\ ids (large_heap p) (large_len p) /\
  len (large_heap p) = N /\ len (small_heap p) = N.
Definition emptying (p : Pool) (k : Z) : Prop :=
  small_len p = k /\ 0 <= k <= N - 1 /\ ids (small_heap p) k /\ len (small_heap p) = N.

Lemma pool_new_filling : filling (pool_new N) 0.
Proof.
  unfold filling, pool_new. cbn. rewrite !length_replicate. split_and!; [lia| |lia|lia].
  intros i Hi. lia.
Qed.

Lemma lfs_Push_spec id p k : filling p k -> 0 <= k -> 0 <= id < n ->
  wp (Push N val id) (fun _ p' => filling p' (k + 1)) (fun _ _ => False) p.
Proof.
  intros (Hk & Hi & Hl & Hs) Hk0 Hid. unfold Push. wp_steps. destruct (Z.ltb_spec (large_len p) (N - 1)) as [Hlt|Hge].
  - eapply wp_bind_opt; [apply aset_is_Some; lia|]. unfold set_large. wp_steps. unfold large_add. wp_steps. cbn [large_heap].
    eapply wp_then.
    { apply (sift_up_spec _ _ (large_len p + 1)); [|lia|lia]. apply ids_push; [done|lia|done]. }
    intros h' p' (-> & Hi' & Hl'). unfold set_large, set_lens. wp_steps. unfold filling. cbn.
    rewrite length_insert in Hl'. split_and!; [lia|done|lia|done].
  - destruct (Hval id Hid) as [v Hv]. eapply wp_bind_opt; [exact Hv|]. apply wp_bind. eapply wp_val_at; [exact Hi|lia|].
    intros w. destruct (w <=? v).
    { wp_steps. split_and!; [lia|done|done|done]. }
    eapply wp_bind_opt; [apply aset_is_Some; lia|]. unfold set_large. wp_steps. unfold large_heapify. wp_steps. cbn [large_heap large_len].
    eapply wp_then.
    { apply sift_down_spec; [|lia]. apply ids_set; [done|lia|done]. }
    intros h' p' (-> & Hi' & Hl'). unfold set_large. wp_steps. unfold filling. cbn.
    rewrite length_insert in Hl'. split_and!; [lia|done|lia|done].
Qed.

Lemma LargeToSmall_spec p k : filling p k -> N - 1 <= k ->
  wp (LargeToSmall N val) (fun _ p' => emptying p' (N - 1)) (fun _ _ => False) p.
Proof.
  intros (Hk & Hi & Hl & Hs) Hfull. unfold LargeToSmall, set_lens. wp_steps.
  assert (Elen : len (rev (range 0 (N - 1))) = N - 1) by (rewrite length_rev; unfold range; rewrite length_seqZ; lia).
  eapply (wp_mono _ (fun _ p' => emptying p' (len (rev (range 0 (N - 1)))) /\ large_heap p' = large_heap p) _ (fun _ _ => False));
    [|intros a p' [Hp' _]; by rewrite Elen in Hp'|done].
  apply (wp_mfor _ _ (fun dn p' => emptying p' (len dn) /\ large_heap p' = large_heap p)).
  - split; [|done]. unfold emptying. cbn. split_and!; [done|lia|lia| |done]. intros i Hi0. lia.
  - intros dn x rest t El ((Hsl & Hb & Hids & Hls) & Hlh).
    assert (Hx : x ∈ rev (range 0 (N - 1))) by (rewrite El; set_solver).
    apply list_elem_of_In, in_rev, list_elem_of_In in Hx.
    apply elem_of_range in Hx. assert (Hdn : len dn + 1 <= N - 1) by (rewrite El, length_app in Elen; cbn in Elen; lia).
    wp_steps. rewrite Hlh. destruct (Hi x ltac:(lia)) as (e & He & Heb).
    unfold cell_at. wp_steps. eapply wp_bind_opt; [exact He|]. cbn [opt]. wp_steps.
    eapply wp_bind_opt; [apply aset_is_Some; lia|]. unfold set_small, small_add, set_lens. wp_steps. cbn [small_heap].
    eapply wp_then.
    { apply (sift_up_spec _ _ (small_len t + 1)); [|lia|lia]. rewrite Hsl. apply ids_push; [done|lia|done]. }
    intros h' p' (-> & Hi' & Hl'). wp_steps. rewrite length_insert in Hl'. unfold emptying. cbn. rewrite length_app. cbn.
    split; [|done]. rewrite Hsl in *. split_and!; [lia|lia|lia| |lia]. eapply ids_le; [exact Hi'|lia].
Qed.

Lemma Pop_spec p k : emptying p k ->
  wp (Pop N val) (fun e p' => if k =? 0 then e = INVALID_BLK else 0 <= e < n /\ emptying p' (k - 1)) (fun _ _ => False) p.
Proof.
  intros (Hsl & Hb & Hids & Hls). unfold Pop. wp_steps. rewrite Hsl. destruct (Z.eqb_spec k 0) as [|Hne]; [by wp_steps|].
  destruct (Hids 0 ltac:(lia)) as (e & He & Heb). unfold cell_at. wp_steps. eapply wp_bind_opt; [exact He|]. cbn [opt]. wp_steps.
  destruct (Hids (k - 1) ltac:(lia)) as (l & Hla & Hlb). eapply wp_bind_opt; [exact Hla|].
  eapply wp_bind_opt; [apply aset_is_Some; lia|]. unfold set_lens, set_small, small_heapify. wp_steps. cbn [small_len small_heap].
  eapply wp_then.
  { apply sift_down_spec; [|lia]. eapply ids_le; [apply (ids_set _ k); [done|lia|done]|lia]. }
  intros h' p' (-> & Hi' & Hl'). wp_steps. rewrite length_insert in Hl'. split; [done|]. unfold emptying. cbn.
  split_and!; [done|lia|lia|done|lia].
Qed.
End Pool.
