(* ===== verification/LfsNode.v ===== *)
(** LfsNode: the nodes of the log-structured simulator and their manager,
    [inode_info] and [CInodeManager] of performance_simulation/source/
    lfs_simulator.h and lfs_simulator.cpp, and the record of a block,
    [LFS_BLOCK_INFO] of segment_manager.h.  A node stays where it was allocated,
    so that a pointer to it is its number. *)
From S2P Require Export PerfSegment.

(** An [inode_info*]; a pointer whose bytes are all 0xFF points nowhere. *)
Inductive node_ptr := PNull | PNode (nid : Z) | PWild.
#[export] Instance node_ptr_eq_dec : EqDecision node_ptr.
Proof. solve_decision. Defined.
Definition is_null (p : node_ptr) : bool := match p with PNull => true | _ => false end.

Record LFS_BLOCK_INFO := mkBlk {
  host_write : Z; media_write : Z; nid : Z; offset : Z; parent : node_ptr; parent_offset : Z
}.
#[export] Instance LFS_BLOCK_TYPE : BLOCK_TYPE LFS_BLOCK_INFO := {|
  TypedInvalidBlock b := mkBlk (host_write b) (media_write b) INVALID_BLK INVALID_BLK PNull 0;
  block_ff := mkBlk INVALID_BLK INVALID_BLK INVALID_BLK INVALID_BLK PWild INVALID_BLK
|}.
(** [LFS_BLOCK_INFO(f, l)]. *)
Definition block_info (f l : Z) : LFS_BLOCK_INFO := mkBlk 0 0 f l PNull INVALID_BLK.
Definition set_parent (p : node_ptr) (o : Z) (b : LFS_BLOCK_INFO) : LFS_BLOCK_INFO :=
  mkBlk (host_write b) (media_write b) (nid b) (offset b) p o.
Definition inc_host (b : LFS_BLOCK_INFO) : LFS_BLOCK_INFO :=
  mkBlk (w32 (host_write b + 1)) (media_write b) (nid b) (offset b) (parent b) (parent_offset b).
Definition inc_media (b : LFS_BLOCK_INFO) : LFS_BLOCK_INFO :=
  mkBlk (host_write b) (w32 (media_write b + 1)) (nid b) (offset b) (parent b) (parent_offset b).

Inductive NODE_TYPE := NODE_FREE | NODE_INODE | NODE_INDEX.
#[export] Instance NODE_TYPE_eq_dec : EqDecision NODE_TYPE.
Proof. solve_decision. Defined.

(** The union of a node, with the member written last. *)
Inductive node_body :=
  | NoBody
  | InodeBlk (m_blks : Z) (m_direct : list node_ptr) (m_ref_count : Z) (m_delete_on_close : bool) (m_host_write : Z)
  | IndexBlk (m_valid_blk : Z) (m_index : list Z).

Record inode_info := mkInode {
  m_dirty : bool; m_type : NODE_TYPE; m_phy_blk : Z; m_fid : Z;
  m_parent : node_ptr; m_parent_offset : Z; m_fn : string; body : node_body
}.

Definition set_dirty (d : bool) (n : inode_info) : inode_info :=
  mkInode d (m_type n) (m_phy_blk n) (m_fid n) (m_parent n) (m_parent_offset n) (m_fn n) (body n).
Definition set_phy (b : Z) (n : inode_info) : inode_info :=
  mkInode (m_dirty n) (m_type n) b (m_fid n) (m_parent n) (m_parent_offset n) (m_fn n) (body n).
Definition set_parent_offset (o : Z) (n : inode_info) : inode_info :=
  mkInode (m_dirty n) (m_type n) (m_phy_blk n) (m_fid n) (m_parent n) o (m_fn n) (body n).
Definition set_fn (f : string) (n : inode_info) : inode_info :=
  mkInode (m_dirty n) (m_type n) (m_phy_blk n) (m_fid n) (m_parent n) (m_parent_offset n) f (body n).
Definition set_body (b : node_body) (n : inode_info) : inode_info :=
  mkInode (m_dirty n) (m_type n) (m_phy_blk n) (m_fid n) (m_parent n) (m_parent_offset n) (m_fn n) b.

(** The constructor sets three members; [junk] is the memory it finds. *)
Definition inode_new (junk : inode_info) : inode_info :=
  mkInode false (m_type junk) (m_phy_blk junk) INVALID_BLK PNull (m_parent_offset junk) "" NoBody.
Definition init_index (fid : Z) (par : node_ptr) (n : inode_info) : inode_info :=
  mkInode (m_dirty n) NODE_INDEX INVALID_BLK fid par 0 (m_fn n)
    (IndexBlk 0 (replicate (Z.to_nat INDEX_SIZE) INVALID_BLK)).
Definition init_inode (fid : Z) (n : inode_info) : inode_info :=
  mkInode (m_dirty n) NODE_INODE INVALID_BLK fid PNull 0 (m_fn n)
    (InodeBlk 0 (replicate (Z.to_nat MAX_TABLE_SIZE) PNull) 1 false 0).

Record CInodeManager := mkInodes {
  m_free_list : list Z; m_nodes : list inode_info; m_nr : Z; m_used_nr : Z; m_nfree_nr : Z
}.

Section Manager.
Context (junk : inode_info).
Abbreviation Mgr := CInodeManager.

Definition inodes_put (i : Z) (n : inode_info) : M Mgr unit :=
  s <- get ;;
  l <- opt (aset (m_nodes s) i n) ;;
  put (mkInodes (m_free_list s) l (m_nr s) (m_used_nr s) (m_nfree_nr s)).

(** [m_nodes.at(nid)] throws when there is no such node. *)
Definition nodes_at (n : Z) : M Mgr inode_info :=
  s <- get ;;
  if Z.of_nat (length (m_nodes s)) <=? n then throw OUT_OF_RANGE else opt (aget (m_nodes s) n).

(** [get_node]: the pointer is null when the node is not in use. *)
Definition get_node (n : Z) : M Mgr node_ptr :=
  i <- nodes_at n ;;
  ret (if m_fid i =? INVALID_BLK then PNull else PNode n).

Definition allocate_inode (type : NODE_TYPE) (par : node_ptr) : M Mgr Z :=
  s <- get ;;
  when (match m_free_list s with [] => true | _ => false end)
    (put (mkInodes (m_free_list s ++ map (fun ii => w32 (m_nr s + ii)) (range 0 1024))
            (m_nodes s ++ replicate 1024%nat (inode_new junk)) (m_nr s + 1024) (m_used_nr s) (m_nfree_nr s + 1024))) ;;;
  s <- get ;;
  n <- opt (head (m_free_list s)) ;;
  put (mkInodes (tail (m_free_list s)) (m_nodes s) (m_nr s) (m_used_nr s + 1) (m_nfree_nr s - 1)) ;;;
  i <- nodes_at n ;;
  inodes_put n (match type with
                | NODE_INDEX => init_index n par i
                | NODE_INODE => init_inode n i
                | NODE_FREE => i end) ;;;
  ret n.

Definition free_inode (n : Z) : M Mgr unit :=
  p <- get_node n ;;
  check (negb (is_null p)) ;;;
  i <- nodes_at n ;;
  inodes_put n (mkInode (m_dirty i) NODE_FREE INVALID_BLK INVALID_BLK (m_parent i) (m_parent_offset i) (m_fn i) (body i)) ;;;
  modify (fun s => mkInodes (m_free_list s ++ [n]) (m_nodes s) (m_nr s) (m_used_nr s - 1) (m_nfree_nr s + 1)).

(** [CInodeManager()]: node 0 is the root. *)
Definition inodes_new : M Mgr unit :=
  put (mkInodes [] [] 0 0 0) ;;;
  allocate_inode NODE_INODE PNull ;;;
  ret tt.
End Manager.
