(* ===== verification/LfsSim.v ===== *)
(** LfsSim: the log-structured simulator [CSingleLogSimulator] and its segment
    manager [CLfsSegmentManager] of performance_simulation/source/
    lfs_simulator.cpp and segment_manager.cpp. *)
From S2P Require Export PerfPool LfsNode.

Abbreviation Segs := (SegMgr LFS_BLOCK_INFO).

(** The static variables of [TrackIo] and the lines it has logged, newest first. *)
Record IoLine := mkLine {
  ln_event : Z; ln_fid : Z; ln_lblk : Z; ln_last_lblk : Z; ln_phy : Z; ln_last_phy : Z
}.
Record IoTrack := mkIo {
  cur_event : Z; cur_fid : Z; start_lblk : Z; pre_lblk : Z; start_phy : Z; pre_phy : Z;
  io_log : list IoLine
}.
Definition io_new : IoTrack := mkIo 0 0 0 0 0 0 [].

(** [enum IO_EVENT]. *)
Definition WRITE_DATA : Z := 1.
Definition WRITE_NODE : Z := 2.
Definition TRIM_DATA : Z := 3.
Definition TRIM_NODE : Z := 4.

(** The condition of the code is [cur_event == event, cur_fid == fid && ..]: the
    comma discards the comparison of the events. *)
Definition TrackIo (event phy fid lblk : Z) (t : IoTrack) : IoTrack :=
  if (cur_fid t =? fid) && (phy =? w32 (pre_phy t + 1)) && (lblk =? w32 (pre_lblk t + 1)) then
    mkIo (cur_event t) (cur_fid t) (start_lblk t) lblk (start_phy t) phy (io_log t)
  else
    mkIo event fid lblk lblk phy phy
      (if cur_fid t =? 0 then io_log t
       else mkLine (cur_event t) (cur_fid t) (start_lblk t) (pre_lblk t) (start_phy t) (pre_phy t) :: io_log t).

Record Lfs := mkLfs {
  l_segs : Segs; l_nodes : CInodeManager;
  m_last_host_write : Z; m_last_media_write : Z; m_write_count : Z;
  m_gc_th_low : Z; m_gc_th_hi : Z; l_io : IoTrack
}.
Definition set_segs (g : Segs) (s : Lfs) : Lfs :=
  mkLfs g (l_nodes s) (m_last_host_write s) (m_last_media_write s) (m_write_count s) (m_gc_th_low s) (m_gc_th_hi s) (l_io s).
Definition set_nodes (n : CInodeManager) (s : Lfs) : Lfs :=
  mkLfs (l_segs s) n (m_last_host_write s) (m_last_media_write s) (m_write_count s) (m_gc_th_low s) (m_gc_th_hi s) (l_io s).
Definition set_last (h m : Z) (s : Lfs) : Lfs :=
  mkLfs (l_segs s) (l_nodes s) h m (m_write_count s) (m_gc_th_low s) (m_gc_th_hi s) (l_io s).
Definition set_io (i : IoTrack) (s : Lfs) : Lfs :=
  mkLfs (l_segs s) (l_nodes s) (m_last_host_write s) (m_last_media_write s) (m_write_count s) (m_gc_th_low s) (m_gc_th_hi s) i.
(** [m_write_count++]. *)
Definition inc_writes (s : Lfs) : Lfs :=
  mkLfs (l_segs s) (l_nodes s) (m_last_host_write s) (m_last_media_write s) (m_write_count s + 1) (m_gc_th_low s) (m_gc_th_hi s) (l_io s).

Definition on_segs {A} (m : M Segs A) : M Lfs A := zoom l_segs set_segs m.
Definition on_nodes {A} (m : M CInodeManager A) : M Lfs A := zoom l_nodes set_nodes m.
Definition track (event phy fid lblk : Z) : M Lfs unit :=
  modify (fun s => set_io (TrackIo event phy fid lblk (l_io s)) s).

(** [p->..]: a null or wild pointer has no node. *)
Definition node (p : node_ptr) : M Lfs inode_info :=
  s <- get ;;
  match p with PNode i => opt (aget (m_nodes (l_nodes s)) i) | _ => fault end.
Definition node_upd (p : node_ptr) (f : inode_info -> inode_info) : M Lfs unit :=
  n <- node p ;;
  match p with PNode i => on_nodes (inodes_put i (f n)) | _ => fault end.

(** The members of the union; reading the other one has no value. *)
Definition blks_of (n : inode_info) : option Z :=
  match body n with InodeBlk b _ _ _ _ => Some b | _ => None end.
Definition direct_of (n : inode_info) : option (list node_ptr) :=
  match body n with InodeBlk _ d _ _ _ => Some d | _ => None end.
Definition refs_of (n : inode_info) : option Z :=
  match body n with InodeBlk _ _ r _ _ => Some r | _ => None end.
Definition doc_of (n : inode_info) : option bool :=
  match body n with InodeBlk _ _ _ x _ => Some x | _ => None end.
Definition valid_of (n : inode_info) : option Z :=
  match body n with IndexBlk v _ => Some v | _ => None end.
Definition index_of (n : inode_info) : option (list Z) :=
  match body n with IndexBlk _ l => Some l | _ => None end.
Definition upd_inode (f : Z -> list node_ptr -> Z -> bool -> Z -> node_body) (n : inode_info) : inode_info :=
  match body n with InodeBlk b d r x h => set_body (f b d r x h) n | _ => n end.
Definition upd_index (f : Z -> list Z -> node_body) (n : inode_info) : inode_info :=
  match body n with IndexBlk v l => set_body (f v l) n | _ => n end.
(** [inode_blk.m_blks], [m_host_write], .. *)
Definition inode_set (p : node_ptr) (f : Z -> list node_ptr -> Z -> bool -> Z -> node_body) : M Lfs unit :=
  n <- node p ;; opt (blks_of n) ;;; node_upd p (upd_inode f).
(** [p->inode_blk.m_direct[i]] and [p->index_blk.m_index[i]]. *)
Definition direct_at (p : node_ptr) (i : Z) : M Lfs node_ptr :=
  n <- node p ;; d <- opt (direct_of n) ;; opt (aget d i).
Definition direct_put (p : node_ptr) (i : Z) (q : node_ptr) : M Lfs unit :=
  n <- node p ;; d <- opt (direct_of n) ;; d <- opt (aset d i q) ;;
  node_upd p (upd_inode (fun b _ r x h => InodeBlk b d r x h)).
Definition index_at (p : node_ptr) (i : Z) : M Lfs Z :=
  n <- node p ;; l <- opt (index_of n) ;; opt (aget l i).
Definition index_put (p : node_ptr) (i b : Z) : M Lfs unit :=
  n <- node p ;; l <- opt (index_of n) ;; l <- opt (aset l i b) ;;
  node_upd p (upd_index (fun v _ => IndexBlk v l)).
Definition valid_add (p : node_ptr) (d : Z) : M Lfs unit :=
  n <- node p ;; opt (valid_of n) ;;; node_upd p (upd_index (fun v l => IndexBlk ((v + d) mod 2 ^ 64) l)).

(** * [CLfsSegmentManager] *)

Definition WriteBlockToSeg (lblk : LFS_BLOCK_INFO) (temp : Z) : M Segs Z :=
  check (temp <? BT_TEMP_NR) ;;;
  cur <- current_segment temp ;;
  g <- seg_at cur ;;
  let blk_id := cur_blk g in
  l <- opt (aset (blk_map g) blk_id (inc_media lblk)) ;;
  seg_put cur (set_counts (w32 (valid_blk_nr g + 1)) (w32 (cur_blk g + 1)) (set_map l g)) ;;;
  health h_media_write ;;;
  health (h_media_kind (offset lblk =? INVALID_BLK)) ;;;
  when (BLOCK_PER_SEG <=? w32 (cur_blk g + 1))
    (s <- get ;; l <- opt (aset (m_cur_segs s) temp INVALID_BLK) ;; put (set_cur_segs l s)) ;;;
  ret (PhyBlock cur blk_id).

(** A call of the pool, which looks the segment table up. *)
Definition val_of (s : Lfs) (i : Z) : option Z := valid_blk_nr <$> aget (m_segments (l_segs s)) i.
Definition on_pool {A} (m : (Z -> option Z) -> M GcPool A) (p : GcPool) : M Lfs (A * GcPool) := fun s =>
  match m (val_of s) p with
  | (Ret a, p') => (Ret (a, p'), s)
  | (Throw e, _) => (Throw e, s)
  | (Fault, _) => (Fault, s)
  end.

(** [pool.Push(ss)] for every written segment, and [LargeToSmall]. *)
Definition gc_victims : M Lfs GcPool :=
  s <- get ;;
  pool <- mfold (range 0 (m_seg_nr (l_segs s))) (pool_new 64) (fun pool ss =>
    g <- on_segs (seg_at ss) ;;
    if cur_blk g <? BLOCK_PER_SEG then ret pool
    else r <- on_pool (fun val => Push 64 val ss) pool ;; ret r.2) ;;
  r <- on_pool (fun val => LargeToSmall 64 val) pool ;;
  ret r.2.

(** One block of a victim. *)
Definition gc_block (min_seg bb : Z) : M Lfs unit :=
  src_seg <- on_segs (seg_at min_seg) ;;
  blk <- opt (aget (blk_map src_seg) bb) ;;
  if nid blk =? INVALID_BLK then ret tt else
  parent_entry <- (if is_null (parent blk) then ret None
                   else p <- node (parent blk) ;;
                        if bool_decide (m_type p = NODE_INDEX)
                        then ret (Some (parent blk, parent_offset blk)) else ret None) ;;
  new_blk <- on_segs (MoveBlock WriteBlockToSeg min_seg bb BT_HOT__DATA) ;;
  new_lblk <- on_segs (get_block new_blk) ;;
  when (offset new_lblk =? INVALID_BLK)
    (inode <- on_nodes (get_node (nid new_lblk)) ;;
     check (negb (is_null inode)) ;;;
     node_upd inode (set_phy new_blk)) ;;;
  match parent_entry with None => ret tt | Some (p, o) => index_put p o new_blk end.

Definition gc_segment (min_seg : Z) : M Lfs unit :=
  mfor (range 0 BLOCK_PER_SEG) (gc_block min_seg).

Definition GarbageCollection : M Lfs unit :=
  pool <- gc_victims ;;
  mwhile 66 pool (fun pool =>
    s <- get ;;
    if negb (m_free_nr (l_segs s) <? m_gc_hi (l_segs s)) then ret (Break pool) else
    r <- on_pool (fun val => Pop 64 val) pool ;;
    let '(min_seg, pool) := r in
    if min_seg =? INVALID_BLK then
      if m_gc_lo (l_segs s) <? m_free_nr (l_segs s) then ret (Break pool) else throw ERR_APP
    else gc_segment min_seg ;;; ret (Next pool)) ;;;
  ret tt.

Definition CheckGarbageCollection : M Lfs unit :=
  s <- get ;; when (m_free_nr (l_segs s) <? m_gc_lo (l_segs s)) GarbageCollection.

(** The macro [INVALID_PHY_BLOCK]: the result is [free_seg]. *)
Definition INVALID_PHY_BLOCK (phy_blk : Z) : M Lfs bool :=
  if phy_blk =? INVALID_BLK then ret false
  else f <- on_segs (InvalidBlock phy_blk) ;; modify inc_writes ;;; ret f.

(** * [CSingleLogSimulator] *)

(** The block that [WriteInode] is given by reference: a local variable, or a
    cell of the segment table. *)
Inductive page_ref := Local (b : LFS_BLOCK_INFO) | InSeg (phy : Z).
Definition page_read (r : page_ref) : M Lfs LFS_BLOCK_INFO :=
  match r with Local b => ret b | InSeg phy => on_segs (get_block phy) end.

(** The page is read again after the old block is invalid: when it is a cell of
    the segment table, that cell has been cleared by then. *)
Definition WriteInode (ipage : page_ref) : M Lfs Z :=
  b <- page_read ipage ;;
  inode <- on_nodes (get_node (nid b)) ;;
  n <- node inode ;;
  if negb (m_dirty n) then ret (m_phy_blk n) else
  empty <- (if bool_decide (m_type n = NODE_INDEX)
            then v <- opt (valid_of n) ;; ret (v =? 0) else ret false) ;;
  if (empty : bool) then
    let par := parent b in
    check (negb (is_null par)) ;;;
    direct_put par (parent_offset b) PNull ;;;
    node_upd par (set_dirty true) ;;;
    n <- node inode ;;
    INVALID_PHY_BLOCK (m_phy_blk n) ;;;
    n <- node inode ;;
    on_nodes (free_inode (m_phy_blk n)) ;;;
    ret INVALID_BLK
  else if bool_decide (m_type n = NODE_INODE) then
    let old_blk := m_phy_blk n in
    new_blk <- on_segs (WriteBlockToSeg b BT_HOT__DATA) ;;
    node_upd inode (set_phy new_blk) ;;;
    INVALID_PHY_BLOCK old_blk ;;;
    b <- page_read ipage ;;
    when (negb (is_null (parent b)))
      (p <- node (parent b) ;;
       when (bool_decide (m_type p = NODE_INDEX)) (index_put (parent b) (parent_offset b) new_blk) ;;;
       node_upd (parent b) (set_dirty true)) ;;;
    n <- node inode ;;
    track WRITE_NODE (m_phy_blk n) (m_fid n) INVALID_BLK ;;;
    CheckGarbageCollection ;;;
    node_upd inode (set_dirty false) ;;;
    n <- node inode ;;
    ret (m_phy_blk n)
  else ret INVALID_BLK.

(** One entry of the loop of [UpdateInode]; [inode] is the pointer to the node. *)
Definition update_index (inode : node_ptr) (ii : Z) : M Lfs unit :=
  index_blk <- direct_at inode ii ;;
  if is_null index_blk then ret tt else
  x <- node index_blk ;;
  if m_phy_blk x =? INVALID_BLK then
    WriteInode (Local (set_parent inode ii (block_info (m_fid x) INVALID_BLK))) ;;; ret tt
  else
    ipage <- on_segs (get_block (m_phy_blk x)) ;;
    if negb (bool_decide (parent ipage = inode)) || negb (parent_offset ipage =? ii) then throw ERR_APP
    else WriteInode (InSeg (m_phy_blk x)) ;;; ret tt.

Definition UpdateInode (inode : node_ptr) : M Lfs unit :=
  mloop (range 0 MAX_TABLE_SIZE) 0 (fun bb ii =>
    update_index inode ii ;;;
    n <- node inode ;;
    blks <- opt (blks_of n) ;;
    let bb := w32 (bb + INDEX_SIZE) in
    ret (if blks <=? bb then Break bb else Next bb)) ;;;
  n <- node inode ;;
  ipage <- on_segs (get_block (m_phy_blk n)) ;;
  if negb (is_null (parent ipage)) || negb (parent_offset ipage =? INVALID_BLK) then throw ERR_APP
  else WriteInode (InSeg (m_phy_blk n)) ;;; ret tt.

(** The values read from the configuration; [scale] multiplies by the
    over-provisioning factor, a [float]. *)
Record config := mkConfig { volume_size : Z; scale : Z -> Z; gc_seg_lo : Z; gc_seg_hi : Z }.

Definition Initialzie `{External} (c : config) : M Lfs bool :=
  let logical := w32 (ROUND_UP_DIV (volume_size c) SECTOR_PER_BLOCK) in
  let phy_blk := scale c logical in
  let seg_nr := w32 (ROUND_UP_DIV phy_blk BLOCK_PER_SEG) in
  modify (fun s => mkLfs (l_segs s) (l_nodes s) (m_last_host_write s) (m_last_media_write s) (m_write_count s)
                     (gc_seg_lo c) (gc_seg_hi c) (l_io s)) ;;;
  on_segs (SetHealth (Some (h_volume logical 0 0 0 health_zero))) ;;;
  on_segs (InitSegmentManager seg_nr (gc_seg_lo c) (gc_seg_hi c)) ;;;
  on_segs (health (h_volume logical seg_nr (w32 (seg_nr * BLOCK_PER_SEG)) (w32 (seg_nr * BLOCK_PER_SEG)))) ;;;
  ret true.

Section Files.
Context (junk : inode_info).

Definition FileCreate (fn : string) : M Lfs Z :=
  i <- on_nodes (allocate_inode junk NODE_INODE PNull) ;;
  node_upd (PNode i) (set_fn fn) ;;;
  node_upd (PNode i) (set_dirty true) ;;;
  n <- node (PNode i) ;;
  WriteInode (Local (block_info (m_fid n) INVALID_BLK)) ;;;
  n <- node (PNode i) ;;
  ret (m_fid n).

(** [index_path]. *)
Record index_path := mkPath { level : Z; path_offset : list Z; path_node : list node_ptr }.
Definition InitIndexPath (inode : node_ptr) : index_path := mkPath (-1) [0; 0; 0] [inode; PNull; PNull].

Definition OffsetToIndex (ipath : index_path) (ofs : Z) (alloc : bool) : M Lfs index_path :=
  inode <- opt (aget (path_node ipath) 0) ;;
  let k := ofs / INDEX_SIZE in
  q <- direct_at inode k ;;
  q <- (if is_null q && alloc then
          x <- on_nodes (allocate_inode junk NODE_INDEX inode) ;;
          node_upd (PNode x) (set_parent_offset k) ;;;
          direct_put inode k (PNode x) ;;;
          node_upd inode (set_dirty true) ;;;
          ret (PNode x)
        else ret q) ;;
  os <- opt (aset (path_offset ipath) 0 k) ;;
  os <- opt (aset os 1 (ofs mod INDEX_SIZE)) ;;
  ns <- opt (aset (path_node ipath) 1 q) ;;
  ret (mkPath 1 os ns).

Definition NextOffset (ipath : index_path) : M Lfs index_path :=
  o <- opt (aget (path_offset ipath) 1) ;;
  os <- opt (aset (path_offset ipath) 1 (o + 1)) ;;
  if INDEX_SIZE <=? o + 1 then
    ns <- opt (aset (path_node ipath) 1 PNull) ;; ret (mkPath (-1) os ns)
  else ret (mkPath (level ipath) os (path_node ipath)).

(** The start of a turn of the loops over the blocks of a file: the path, and
    the pointer to the index node at its end. *)
Definition path_step (alloc : bool) (ip : index_path * node_ptr) (ofs : Z) : M Lfs (index_path * node_ptr) :=
  let '(ipath, direct_node) := ip in
  if level ipath <? 0 then
    ipath <- OffsetToIndex ipath ofs alloc ;;
    d <- opt (aget (path_node ipath) (level ipath)) ;; ret (ipath, d)
  else ret (ipath, direct_node).

(** A block of a file is written again. *)
Definition rewrite_block (old_blk : Z) : M Lfs Z :=
  lblk <- on_segs (get_block old_blk) ;;
  on_segs (put_block old_blk (inc_host lblk)) ;;;
  new_blk <- on_segs (WriteBlockToSeg (inc_host lblk) BT_HOT__DATA) ;;
  free_seg <- INVALID_PHY_BLOCK old_blk ;;
  s <- get ;; h <- opt (m_health (l_segs s)) ;;
  when free_seg (put (set_last (w32 (m_total_host_write h)) (w32 (m_total_media_write h)) s)) ;;;
  ret new_blk.

(** A block is written for the first time.  The saturation is compared with a
    [double], [m_logical_blk_nr * 0.9]; for 32-bit counters that is the comparison
    of the tenfold with the ninefold. *)
Definition new_block (fid : Z) (direct_node : node_ptr) (index start_blk : Z) : M Lfs Z :=
  let lblk := inc_host (set_parent direct_node index (block_info fid start_blk)) in
  new_blk <- on_segs (WriteBlockToSeg lblk BT_HOT__DATA) ;;
  valid_add direct_node 1 ;;;
  on_segs (health (h_logical (fun n => n + 1))) ;;;
  s <- get ;; h <- opt (m_health (l_segs s)) ;;
  if 9 * m_logical_blk_nr h <=? 10 * m_logical_saturation h then throw ERR_APP
  else ret new_blk.

(** The entry of the block, and the rest of the turn. *)
Definition link_block (fid : Z) (inode direct_node : node_ptr) (ipath : index_path) (index start_blk new_blk : Z)
    : M Lfs (index_path * node_ptr) :=
  s <- get ;; h <- opt (m_health (l_segs s)) ;; c <- opt (aget (m_cur_segs (l_segs s)) BT_HOT__DATA) ;;
  when (c =? INVALID_BLK) (put (set_last (w32 (m_total_host_write h)) (w32 (m_total_media_write h)) s)) ;;;
  track WRITE_DATA new_blk fid start_blk ;;;
  index_put direct_node index new_blk ;;;
  node_upd direct_node (set_dirty true) ;;;
  CheckGarbageCollection ;;;
  ipath <- NextOffset ipath ;;
  inode_set inode (fun b d r x h => InodeBlk b d r x (w32 (h + 1))) ;;;
  ret (ipath, direct_node).

(** The loop body of [FileWrite]. *)
Definition write_block (fid : Z) (inode : node_ptr) (ip : index_path * node_ptr) (start_blk : Z)
    : M Lfs (index_path * node_ptr) :=
  ip <- path_step true ip start_blk ;;
  let '(ipath, direct_node) := ip in
  index <- opt (aget (path_offset ipath) (level ipath)) ;;
  on_segs (health h_host_write) ;;;
  old_blk <- index_at direct_node index ;;
  new_blk <- (if negb (old_blk =? INVALID_BLK) then rewrite_block old_blk
              else new_block fid direct_node index start_blk) ;;
  link_block fid inode direct_node ipath index start_blk new_blk.

Section Sectors.
Context `{External}.

Definition FileWrite (fid ofs secs : Z) : M Lfs unit :=
  let (start_blk, end_blk) := LbaToBlock ofs secs in
  inode <- on_nodes (get_node fid) ;;
  check (negb (is_null inode)) ;;;
  if MaxFileSize <? end_blk then throw ERR_APP else
  n <- node inode ;;
  blks <- opt (blks_of n) ;;
  when (blks <? end_blk) (inode_set inode (fun _ d r x h => InodeBlk end_blk d r x h)) ;;;
  modify inc_writes ;;;
  mfold (range start_blk end_blk) (InitIndexPath inode, PNull) (write_block fid inode) ;;;
  UpdateInode inode.

(** The loop body of [FileRead]: a pointer to the record of the block, or null. *)
Definition read_block (fid : Z) (a : index_path * node_ptr * list (option Z)) (start_blk : Z)
    : M Lfs (index_path * node_ptr * list (option Z)) :=
  let '(ip, blks) := a in
  ip <- path_step false ip start_blk ;;
  let '(ipath, direct_node) := ip in
  index <- opt (aget (path_offset ipath) (level ipath)) ;;
  phy <- (if is_null direct_node then ret INVALID_BLK else index_at direct_node index) ;;
  r <- (if phy =? INVALID_BLK then ret None
        else blk <- on_segs (get_block phy) ;;
             if negb (nid blk =? fid) || negb (offset blk =? start_blk) then throw ERR_APP
             else ret (Some phy)) ;;
  ipath <- NextOffset ipath ;;
  ret (ipath, direct_node, blks ++ [r]).

Definition FileRead (fid ofs secs : Z) : M Lfs (list (option Z)) :=
  let (start_blk, end_blk) := LbaToBlock ofs secs in
  inode <- on_nodes (get_node fid) ;;
  check (negb (is_null inode)) ;;;
  n <- node inode ;; opt (blks_of n) ;;;
  r <- mfold (range start_blk end_blk) (InitIndexPath inode, PNull, []) (read_block fid) ;;
  ret r.2.
End Sectors.

(** The loop body of [FileTruncate]. *)
Definition truncate_block (fid : Z) (ip : index_path * node_ptr) (bb : Z) : M Lfs (index_path * node_ptr) :=
  ip <- path_step false ip bb ;;
  let '(ipath, direct_node) := ip in
  index <- opt (aget (path_offset ipath) (level ipath)) ;;
  phy_blk <- (if is_null direct_node then ret INVALID_BLK else index_at direct_node index) ;;
  (if phy_blk =? INVALID_BLK then ret tt
   else
     track TRIM_DATA phy_blk fid bb ;;;
     on_segs (health (h_logical (fun n => n - 1))) ;;;
     INVALID_PHY_BLOCK phy_blk ;;;
     index_put direct_node index INVALID_BLK ;;;
     node_upd direct_node (set_dirty true) ;;;
     valid_add direct_node (-1)) ;;;
  ipath <- NextOffset ipath ;;
  ret (ipath, direct_node).

Definition FileTruncate (fid : Z) : M Lfs unit :=
  inode <- on_nodes (get_node fid) ;;
  check (negb (is_null inode)) ;;;
  n <- node inode ;;
  blks <- opt (blks_of n) ;;
  mfold (range 0 blks) (InitIndexPath inode, PNull) (truncate_block fid) ;;;
  UpdateInode inode.

Definition FileDelete (fid : Z) : M Lfs unit :=
  inode <- on_nodes (get_node fid) ;;
  check (negb (is_null inode)) ;;;
  n <- node inode ;;
  refs <- opt (refs_of n) ;;
  if 0 <? refs then throw ERR_APP else
  FileTruncate fid ;;;
  n <- node inode ;;
  let inode_blk := m_phy_blk n in
  when (negb (inode_blk =? INVALID_BLK)) (track TRIM_NODE inode_blk fid INVALID_BLK) ;;;
  INVALID_PHY_BLOCK inode_blk ;;;
  node_upd inode (set_phy INVALID_BLK) ;;;
  on_nodes (free_inode fid).

Definition FileFlush (fid : Z) : M Lfs unit := ret tt.

Definition FileOpen (fid : Z) (delete_on_close : bool) : M Lfs unit :=
  inode <- on_nodes (get_node fid) ;;
  check (negb (is_null inode)) ;;;
  n <- node inode ;;
  if m_phy_blk n =? INVALID_BLK then throw ERR_APP else
  inode_set inode (fun b d r _ h => InodeBlk b d (w32 (r + 1)) delete_on_close h).

Definition FileClose (fid : Z) : M Lfs unit :=
  inode <- on_nodes (get_node fid) ;;
  check (negb (is_null inode)) ;;;
  inode_set inode (fun b d r x h => InodeBlk b d (w32 (r - 1)) x h) ;;;
  n <- node inode ;;
  x <- opt (doc_of n) ;;
  when x (FileDelete fid).

(** * The dumps, with the rows they print and the checks they make *)

(** [seg,blk_nr,invalid,hot_node,hot_data,..]; the other counts are zero. *)
Record SegRow := mkRow { row_seg : Z; row_invalid : Z; row_node : Z; row_data : Z }.

Definition dump_block (sanity_check : bool) (ss : Z) (g : SEG_INFO LFS_BLOCK_INFO) (row : SegRow) (bb : Z) : M Lfs SegRow :=
  blk <- opt (aget (blk_map g) bb) ;;
  if nid blk =? INVALID_BLK then ret (mkRow ss (row_invalid row + 1) (row_node row) (row_data row)) else
  let src_phy := PhyBlock ss bb in
  if offset blk =? INVALID_BLK then
    when sanity_check
      (inode <- on_nodes (get_node (nid blk)) ;;
       check (negb (is_null inode)) ;;;
       n <- node inode ;;
       if m_phy_blk n =? src_phy then ret tt else throw ERR_APP) ;;;
    ret (mkRow ss (row_invalid row) (row_node row + 1) (row_data row))
  else
    when sanity_check
      (inode <- on_nodes (get_node (nid blk)) ;;
       check (negb (is_null inode)) ;;;
       ipath <- OffsetToIndex (InitIndexPath inode) (offset blk) false ;;
       d <- opt (aget (path_node ipath) (level ipath)) ;;
       index <- opt (aget (path_offset ipath) (level ipath)) ;;
       phy_blk <- index_at d index ;;
       if phy_blk =? src_phy then ret tt else throw ERR_APP) ;;;
    ret (mkRow ss (row_invalid row) (row_node row) (row_data row + 1)).

Definition DumpSegments (sanity_check : bool) : M Lfs (list SegRow) :=
  s <- get ;;
  mfold (range 0 (m_seg_nr (l_segs s))) [] (fun rows ss =>
    s <- get ;;
    check (ss <? m_seg_nr (l_segs s)) ;;;
    g <- on_segs (seg_at ss) ;;
    row <- mfold (range 0 BLOCK_PER_SEG) (mkRow ss 0 0 0) (dump_block sanity_check ss g) ;;
    ret (rows ++ [row])).

(** A row of [DumpFileMap_no_merge]. *)
Record MapRow := mkMapRow { map_offset : Z; map_phy : Z; map_host : Z; map_media : Z }.

Definition dump_map_block (fid : Z) (a : index_path * node_ptr * list MapRow) (bb : Z)
    : M Lfs (index_path * node_ptr * list MapRow) :=
  let '(ip, rows) := a in
  ip <- path_step false ip bb ;;
  let '(ipath, direct_node) := ip in
  index <- opt (aget (path_offset ipath) (level ipath)) ;;
  phy <- (if is_null direct_node then ret INVALID_BLK else index_at direct_node index) ;;
  rows <- (if phy =? INVALID_BLK then ret rows
           else blk <- on_segs (get_block phy) ;;
                if negb (nid blk =? fid) || negb (offset blk =? bb) then throw ERR_APP
                else ret (rows ++ [mkMapRow bb phy (host_write blk) (media_write blk)])) ;;
  ipath <- NextOffset ipath ;;
  ret (ipath, direct_node, rows).

Definition DumpFileMap_no_merge (fid : Z) : M Lfs (list MapRow) :=
  inode <- on_nodes (get_node fid) ;;
  check (negb (is_null inode)) ;;;
  n <- node inode ;;
  blks <- opt (blks_of n) ;;
  r <- mfold (range 0 blks) (InitIndexPath inode, PNull, []) (dump_map_block fid) ;;
  ret r.2.
End Files.

(** [new CSingleLogSimulator]; the segment manager's arrays are not initialised. *)
Definition lfs_new (junk : inode_info) (cur_segs : list Z) (lo hi : Z) : M Lfs unit :=
  put (mkLfs (manager_new cur_segs lo hi) (mkInodes [] [] 0 0 0) 0 0 0 lo hi io_new) ;;;
  on_nodes (inodes_new junk).
