(* ===== verification/LfsDump.v ===== *)
(** LfsDump: the other dumps of the log-structured simulator, as the rows they
    print: [DumpFileMap_merge] and [DumpAllFileMap] of performance_simulation/
    source/lfs_simulator.cpp, and [DumpSegmentBlocks] of segment_manager.cpp. *)
From S2P Require Export LfsSim.

(** * Maps of files, consecutive addresses merged *)
Record MergeRow := mkMerge {
  mg_fn : string; mg_fid : Z; mg_offset : Z; mg_nr : Z; mg_phy : Z; mg_seg : Z; mg_blk : Z; mg_host : Z; mg_media : Z
}.
(** The local variables; [pre_offset] is not used. *)
Record merging := mkMerging {
  mg_start_phy : Z; mg_pre_phy : Z; mg_start_offset : Z; mg_host_write : Z; mg_media_write : Z; mg_rows : list MergeRow
}.

(** The macro [FLUSH_FILE_MAP]. *)
Definition FLUSH_FILE_MAP (fn : string) (fid bb phy : Z) (v : merging) : merging :=
  mkMerging phy phy (mg_start_offset v) 0 0
    (if mg_start_phy v =? INVALID_BLK then mg_rows v
     else let (seg, blk) := BlockToSeg (mg_start_phy v) in
       mg_rows v ++ [mkMerge fn fid (mg_start_offset v) (w32 (bb - mg_start_offset v)) (mg_start_phy v) seg blk (mg_host_write v) (mg_media_write v)]).
Definition merge_block (blk : LFS_BLOCK_INFO) (phy : Z) (v : merging) : merging :=
  mkMerging (mg_start_phy v) phy (mg_start_offset v) (w32 (mg_host_write v + host_write blk)) (w32 (mg_media_write v + media_write blk)) (mg_rows v).
Definition set_start_offset (o : Z) (v : merging) : merging :=
  mkMerging (mg_start_phy v) (mg_pre_phy v) o (mg_host_write v) (mg_media_write v) (mg_rows v).

Section Dump.
Context (junk : inode_info).

(** A turn of the loop: the path, the index node, the block number and the
    variables; a missing index node advances the block by [INDEX_SIZE] and one. *)
Definition merge_turn (inode : node_ptr) (fid blks : Z) (a : index_path * node_ptr * Z * merging)
    : M Lfs (flow (index_path * node_ptr * Z * merging)) :=
  let '(ip, bb, v) := a in
  if negb (bb <? blks) then ret (Break a) else
  ip <- path_step junk false ip bb ;;
  let '(ipath, direct_node) := ip in
  index <- opt (aget (path_offset ipath) (level ipath)) ;;
  n <- node inode ;;
  if is_null direct_node then
    ret (Next (mkPath (-1) (path_offset ipath) (path_node ipath), direct_node, w32 (w32 (bb + INDEX_SIZE) + 1),
               FLUSH_FILE_MAP (m_fn n) fid bb INVALID_BLK v))
  else
    phy_blk <- index_at direct_node index ;;
    v <- (if phy_blk =? INVALID_BLK then ret (FLUSH_FILE_MAP (m_fn n) fid bb INVALID_BLK v)
          else
            blk <- on_segs (get_block phy_blk) ;;
            let v := if phy_blk =? w32 (mg_pre_phy v + 1) then merge_block blk phy_blk v
                     else set_start_offset bb (FLUSH_FILE_MAP (m_fn n) fid bb phy_blk v) in
            if negb (nid blk =? fid) || negb (offset blk =? bb) then throw ERR_APP else ret v) ;;
    ipath <- NextOffset ipath ;;
    ret (Next (ipath, direct_node, w32 (bb + 1), v)).

Definition DumpFileMap_merge (fid : Z) : M Lfs (list MergeRow) :=
  inode <- on_nodes (get_node fid) ;;
  n <- node inode ;;
  blks <- opt (blks_of n) ;;
  r <- mwhile (S (Z.to_nat blks)) (InitIndexPath inode, PNull, 0, mkMerging INVALID_BLK 0 INVALID_BLK 0 0 []) (merge_turn inode fid blks) ;;
  let '(_, bb, v) := r in
  ret (mg_rows (FLUSH_FILE_MAP (m_fn n) fid bb INVALID_BLK v)).

Definition DumpAllFileMap : M Lfs (list MergeRow) :=
  s <- get ;;
  mfold (range 0 (Z.of_nat (length (m_nodes (l_nodes s))))) [] (fun rows ii =>
    inode <- on_nodes (get_node ii) ;;
    if is_null inode then ret rows else
    n <- node inode ;;
    if bool_decide (m_type n = NODE_INODE) then r <- DumpFileMap_merge ii ;; ret (rows ++ r) else ret rows).
End Dump.

(** * The blocks of the segments, runs of a file merged *)
(** A node, or a run of [blk_num] blocks of a file from [lblk]. *)
Inductive BlockRow :=
  | NodeRow (seg blk fid : Z)
  | DataRow (seg blk blk_num fid lblk : Z).
Record run_vars := mkRun { pre_fid : Z; run_start_lblk : Z; run_pre_lblk : Z; run_start_blk : Z; run_rows : list BlockRow }.

(** The macro [FLUSH_SEGMENT_BLOCK_OUT]. *)
Definition FLUSH_SEGMENT_BLOCK_OUT (ss blk : Z) (v : run_vars) : run_vars :=
  if pre_fid v =? INVALID_BLK then v
  else mkRun INVALID_BLK 0 0 blk
    (run_rows v ++ [DataRow ss (run_start_blk v) (w32 (blk - run_start_blk v)) (pre_fid v) (run_start_lblk v)]).

Definition dump_run (ss : Z) (g : SEG_INFO LFS_BLOCK_INFO) (v : run_vars) (bb : Z) : M Segs run_vars :=
  blk <- opt (aget (blk_map g) bb) ;;
  if nid blk =? INVALID_BLK then ret (FLUSH_SEGMENT_BLOCK_OUT ss bb v)
  else if offset blk =? INVALID_BLK then
    let v := FLUSH_SEGMENT_BLOCK_OUT ss bb v in
    ret (mkRun (pre_fid v) (run_start_lblk v) (run_pre_lblk v) (run_start_blk v) (run_rows v ++ [NodeRow ss bb (nid blk)]))
  else if (pre_fid v =? nid blk) && (w32 (run_pre_lblk v + 1) =? offset blk) then
    ret (mkRun (pre_fid v) (run_start_lblk v) (w32 (run_pre_lblk v + 1)) (run_start_blk v) (run_rows v))
  else
    let v := FLUSH_SEGMENT_BLOCK_OUT ss bb v in
    ret (mkRun (nid blk) (offset blk) (offset blk) bb (run_rows v)).

Definition DumpSegmentBlocks : M Segs (list BlockRow) :=
  s <- get ;;
  v <- mfold (range 0 (m_seg_nr s)) (mkRun INVALID_BLK 0 0 0 []) (fun v ss =>
    g <- seg_at ss ;;
    v <- mfold (range 0 BLOCK_PER_SEG) v (dump_run ss g) ;;
    ret (FLUSH_SEGMENT_BLOCK_OUT ss BLOCK_PER_SEG v)) ;;
  ret (run_rows v).
