(* ===== verification/LfsSegs.v ===== *)
(** LfsSegs: the segment manager of the log-structured simulator against the
    interface of the segment table: writing, moving and reading a block. *)
From S2P Require Export LfsSim PerfSegOps.

#[export] Instance LFS_BLOCK_LAWS : BlockLaws LFS_BLOCK_INFO := {|
  live b := negb (nid b =? INVALID_BLK);
  live_invalid b := eq_refl; live_ff := eq_refl
|}.

Section Segs.
Implicit Types (s t : Segs) (g : SEG_INFO LFS_BLOCK_INFO) (x y : LFS_BLOCK_INFO).

Definition written x g : SEG_INFO LFS_BLOCK_INFO :=
  set_counts (w32 (valid_blk_nr g + 1)) (w32 (cur_blk g + 1))
    (set_map (<[Z.to_nat (cur_blk g) := inc_media x]> (blk_map g)) g).

Lemma lfs_written_ok x g : seg_ok g -> live x = true -> cur_blk g < BLOCK_PER_SEG ->
  seg_ok (written x g) /\ cur_blk (written x g) = cur_blk g + 1.
Proof.
  intros [Hl Hc Hv Hb] Hx Hlt. destruct (aget_is_Some (blk_map g) (cur_blk g)) as [y Hy]; [lia|].
  pose proof (live_nr_insert _ _ _ (inc_media x) Hy) as Hn. rewrite (Hb _ _ (Z.le_refl _) Hy) in Hn.
  replace (live (inc_media x)) with true in Hn by (symmetry; exact Hx). cbn [Z.b2z] in Hn.
  pose proof (live_nr_bounds (blk_map g)) as Hnb.
  assert (E1 : w32 (cur_blk g + 1) = cur_blk g + 1) by (apply w32_small; unfold BLOCK_PER_SEG in *; lia).
  assert (E2 : w32 (valid_blk_nr g + 1) = valid_blk_nr g + 1) by (apply w32_small; unfold BLOCK_PER_SEG in *; lia).
  split; [|done]. constructor; cbn [written set_counts set_map blk_map cur_blk valid_blk_nr].
  - by rewrite length_insert.
  - lia.
  - lia.
  - intros i z Hi Hz. rewrite E1 in Hi. rewrite aget_insert_ne in Hz by lia. eapply Hb; [|done]. lia.
Qed.

Lemma view_written s q c x g : mgr_wf s q -> aget (m_segments s) c = Some g -> live x = true ->
  cur_blk g < BLOCK_PER_SEG ->
  view s (PhyBlock c (cur_blk g)) = None /\
  forall b, view (set_segments (<[Z.to_nat c := written x g]> (m_segments s)) s) b =
    if b =? PhyBlock c (cur_blk g) then Some (inc_media x) else view s b.
Proof.
  intros Hw Hg Hx Hlt. pose proof (mw_seg _ _ Hw _ _ Hg) as Hok. pose proof (aget_bounds _ _ _ Hg) as Hb.
  rewrite (mw_len _ _ Hw) in Hb. destruct (PhyBlock_small _ _ c (cur_blk g) Hw) as (Ea & _); [done|pose proof (so_cur _ Hok); lia|].
  destruct (addr_split c (cur_blk g)) as [E1 E2]; [pose proof (so_cur _ Hok); lia|]. rewrite Ea.
  pose proof (so_len _ Hok) as Hlen. pose proof (so_cur _ Hok) as Hcur. split.
  - unfold view. rewrite E1, E2, Hg. cbn [mbind option_bind].
    destruct (aget (blk_map g) (cur_blk g)) as [y|] eqn:Ey; cbn; [|done].
    pose proof (so_beyond _ Hok _ _ (Z.le_refl _) Ey) as Hd. cbn in Hd. by rewrite Hd.
  - intros b. rewrite (view_insert _ _ g) by done. cbn [written blk_map set_counts set_map].
    destruct (Z.eqb_spec b (c * BLOCK_PER_SEG + cur_blk g)) as [->|Hne].
    + rewrite E1, E2, Z.eqb_refl, aget_insert_eq by lia. cbn [mbind option_bind].
      replace (live (inc_media x)) with true by (symmetry; exact Hx). done.
    + destruct (Z.eqb_spec (b / BLOCK_PER_SEG) c) as [E|]; [|done].
      rewrite aget_insert_ne; [unfold view; by rewrite E, Hg| |lia].
      intros Em. apply Hne. by rewrite (addr_join b), E, <- Em.
Qed.

Lemma lfs_WriteBlockToSeg_spec s q x : mgr_wf s q -> live x = true ->
  wp (WriteBlockToSeg x BT_HOT__DATA)
    (fun b t => exists q', mgr_wf t q' /\ stable s t /\ 0 <= b < INVALID_BLK /\ view s b = None /\
       (forall b', view t b' = if b' =? b then Some (inc_media x) else view s b') /\
       forall b' y, view s b' = Some y -> alone t b' = alone s b')
    (fun e t => e = ERR_APP /\ t = s) s.
Proof.
  intros Hw Hx. unfold WriteBlockToSeg. apply wp_bind, wp_check; [done|].
  apply wp_bind. eapply wp_mono; [by eapply current_segment_spec| |by intros e t (-> & -> & _)].
  intros c u (q' & g & Hwu & Hc & Hne & Hg & Hlt & Hv & Hst & Hal). unfold seg_at. wp_steps.
  eapply wp_bind_opt; [exact Hg|]. pose proof (mw_seg _ _ Hwu _ _ Hg) as Hok.
  eapply wp_bind_opt; [apply aset_is_Some; pose proof (so_len _ Hok); pose proof (so_cur _ Hok); lia|].
  fold (written x g). pose proof (aget_bounds _ _ _ Hg) as Hcb. pose proof (aget_bounds _ _ _ Hc) as Htb.
  destruct (lfs_written_ok x g Hok Hx Hlt) as [Hok' Ecur]. destruct (view_written _ _ _ _ _ Hwu Hg Hx Hlt) as [Hnone Hview].
  destruct (mw_health _ _ Hwu) as [h Hh]. destruct (mw_cur _ _ Hwu _ _ Hc Hne) as (Hq & _).
  pose proof (rg_max _ _ (mw_ring _ _ Hwu)) as Hmax. pose proof (mw_len _ _ Hwu) as Hlen.
  assert (Hcur : w32 (cur_blk g + 1) = cur_blk g + 1) by exact Ecur.
  unfold seg_put. wp_steps. eapply wp_bind_opt; [by apply aset_is_Some|]. wp_steps.
  unfold health. wp_steps. eapply wp_bind_opt; [exact Hh|]. wp_steps. eapply wp_bind_opt; [done|]. wp_steps.
  set (s1 := set_segments (<[Z.to_nat c := written x g]> (m_segments u)) u) in *.
  set (h1 := h_media_kind _ _). change (set_health (Some h1) _) with (set_health (Some h1) s1).
  destruct (PhyBlock_small _ _ c (cur_blk g) Hwu) as (Ea & Ei & Ep); [lia|pose proof (so_cur _ Hok); lia|].
  assert (Hpost : forall t q1, mgr_wf t q1 -> stable u t -> m_segments t = m_segments s1 ->
    exists q', mgr_wf t q' /\ stable s t /\ 0 <= PhyBlock c (cur_blk g) < INVALID_BLK /\
      view s (PhyBlock c (cur_blk g)) = None /\
      (forall b', view t b' = if b' =? PhyBlock c (cur_blk g) then Some (inc_media x) else view s b') /\
      forall b' y, view s b' = Some y -> alone t b' = alone s b').
  { intros t q1 Hwt Hst' E. exists q1. split_and!; [done|by transitivity u|done| |by rewrite <- Hv|..].
    - rewrite Ea. unfold INVALID_BLK, BLOCK_PER_SEG in *. lia.
    - intros b'. rewrite (view_ext s1 t E), Hview, Hv. done.
    - intros b' y Hy. rewrite <- Hal. rewrite <- Hv in Hy. unfold alone. rewrite E. cbn [s1 set_segments m_segments].
      destruct (Z.eqb_spec (b' / BLOCK_PER_SEG) c) as [Eb|Hne']; [|rewrite aget_insert_ne; [done|congruence|lia]].
      rewrite Eb, Hg, aget_insert_eq by lia. rewrite (proj2 (Z.leb_gt BLOCK_PER_SEG (cur_blk g))), andb_false_r by lia.
      destruct (proj1 (view_Some _ _ _) Hy) as (g1 & Hg1 & Hy1 & Hl1). rewrite Eb, Hg in Hg1. injection Hg1 as <-.
      pose proof (live_nr_insert _ _ _ block_ff Hy1) as Hn. rewrite Hl1, live_ff in Hn. cbn [Z.b2z] in Hn.
      pose proof (live_nr_bounds (<[Z.to_nat (b' mod BLOCK_PER_SEG) := block_ff]> (blk_map g))) as Hnb.
      pose proof (so_valid_bounds _ Hok). pose proof (so_valid _ Hok). apply andb_false_iff. left. apply Z.eqb_neq.
      cbn [written valid_blk_nr set_counts]. rewrite w32_small by (unfold BLOCK_PER_SEG in *; lia). lia. }
  assert (Hsat : forall cs, stable u (set_cur_segs cs (set_health (Some h1) s1))).
  { intros cs. constructor; try done. cbn. unfold sat. cbn. by rewrite Hh. }
  assert (Hin : forall a z, aget (m_cur_segs u) a = Some z -> z <> INVALID_BLK -> a <> BT_HOT__DATA -> z <> c).
  { intros a z Ha Hz Hat ->. apply Hat. by eapply mw_distinct. }
  apply wp_bind, wp_when; intros Hfull.
  - wp_steps. eapply wp_bind_opt; [by apply aset_is_Some|]. wp_steps. apply (Hpost _ q'); [|apply Hsat|done].
    change (mgr_wf (set_health (Some h1) (set_cur_segs (<[Z.to_nat BT_HOT__DATA := INVALID_BLK]> (m_cur_segs u)) s1)) q').
    apply wf_health. apply wf_update with (g := g); try done.
    + rewrite length_insert. apply Hwu.
    + intros a z Ha Hz. pose proof (aget_bounds _ _ _ Ha) as Hab. rewrite aget_insert in Ha by lia.
      destruct (Z.eqb_spec BT_HOT__DATA a) as [<-|Hat]; [by injection Ha as <-|]. split; [done|].
      intros ->. exfalso. by apply (Hin a c).
    + intros Hlt'. apply Z.leb_le in Hfull. lia.
    + intros z Hz Hzc Hzi. apply list_elem_of_lookup in Hz as [k Hk]. apply list_elem_of_lookup. exists k.
      rewrite list_lookup_insert_ne; [done|]. intros <-. apply aget_Some in Hc as [_ Hc]. congruence.
  - wp_steps. apply (Hpost _ q'); [|apply (Hsat (m_cur_segs u))|done].
    apply wf_health. unfold s1. replace u with (set_cur_segs (m_cur_segs u) u) at 2 by (by destruct u).
    change (mgr_wf (set_cur_segs (m_cur_segs u) (set_segments (<[Z.to_nat c := written x g]> (m_segments u)) u)) q').
    apply wf_update with (g := g); try done.
    + apply Hwu.
    + intros a z Ha Hz. split; [done|]. intros ->. rewrite Ecur. apply Z.leb_gt in Hfull. lia.
    + intros _. apply aget_Some in Hc as [_ Hc]. by eapply list_elem_of_lookup_2.
Qed.

(** ** Reading and moving *)
Lemma get_block_runs s q b x : mgr_wf s q -> view s b = Some x -> runs (get_block b) s x s.
Proof.
  intros Hw Hv. destruct (view_addr _ _ _ _ Hw Hv) as (_ & _ & _ & E). destruct (proj1 (view_Some _ _ _) Hv) as (g & Hg & Hx & _).
  unfold runs, get_block. rewrite E. unfold seg_at, bind, get. rewrite Hg. cbn [opt ret]. by rewrite Hx.
Qed.

Lemma MoveBlock_spec s q b x : mgr_wf s q -> view s b = Some x ->
  wp (MoveBlock WriteBlockToSeg (b / BLOCK_PER_SEG) (b mod BLOCK_PER_SEG) BT_HOT__DATA)
    (fun b1 t => exists q', mgr_wf t q' /\ stable s t /\ 0 <= b1 < INVALID_BLK /\ view s b1 = None /\
       forall b', view t b' = if b' =? b1 then Some (inc_media x) else if b' =? b then None else view s b')
    (fun e t => e = ERR_APP /\ t = s) s.
Proof.
  intros Hw Hv. destruct (proj1 (view_Some _ _ _) Hv) as (g & Hg & Hx & Hl).
  unfold MoveBlock, seg_at. wp_steps. eapply wp_bind_opt; [exact Hg|]. eapply wp_bind_opt; [exact Hx|].
  apply wp_bind. eapply wp_mono; [by eapply lfs_WriteBlockToSeg_spec| |done].
  intros b1 u (q1 & Hwu & Hst & Hb1 & Hn & Hvu & _).
  assert (Hne : b <> b1) by congruence.
  assert (Hvb : view u b = Some x) by (rewrite Hvu; by destruct (Z.eqb_spec b b1)).
  destruct (view_addr _ _ _ _ Hwu Hvb) as (_ & _ & Hbi & Eb).
  pose proof (lfs_InvalidBlock_spec _ _ _ _ Hwu Hvb) as Hinv. unfold InvalidBlock in Hinv.
  rewrite (proj2 (Z.eqb_neq _ _) Hbi), Eb in Hinv.
  eapply wp_then; [exact Hinv|]. intros f t (q2 & Hwt & Hvt & Hst2 & _). wp_steps. exists q2. split_and!; try done; [by transitivity u|lia|lia|].
  intros b'. rewrite Hvt, Hvu. destruct (Z.eqb_spec b' b) as [->|]; [|done].
  by destruct (Z.eqb_spec b b1).
Qed.
End Segs.
