(* ===== verification/LfsInv.v ===== *)
(** LfsInv: the agreement of the two maps of the log-structured simulator.  The
    nodes say where each block of a file and each node is written; the segment
    table says what each valid block holds.  [linked] is that each is the inverse
    of the other, and the lemmas are its preservation by the ways in which the
    program changes both. *)
From S2P Require Export LfsSegs.

(** ** What the node table says *)
Section Tables.
Implicit Types (N : CInodeManager) (n : inode_info).

(** The node in use under a number. *)
Definition used N (f : Z) : option inode_info :=
  n ← aget (m_nodes N) f; if m_fid n =? f then Some n else None.
Definition phy_of N (f : Z) : option Z :=
  n ← used N f;
  if bool_decide (m_type n = NODE_INODE) && negb (m_phy_blk n =? INVALID_BLK) then Some (m_phy_blk n) else None.
Definition dir_of N (f k : Z) : option Z :=
  n ← used N f; d ← direct_of n;
  match aget d k with Some (PNode p) => Some p | _ => None end.
Definition ent_of N (p i : Z) : option Z :=
  n ← used N p; l ← index_of n; b ← aget l i; if b =? INVALID_BLK then None else Some b.
(** The address of a block of a file. *)
Definition blk_of N (f o : Z) : option Z := p ← dir_of N f (o / INDEX_SIZE); ent_of N p (o mod INDEX_SIZE).

(** A node in use has the body of its type. *)
Definition node_ok n : Prop :=
  (m_type n = NODE_INODE /\ exists b d r x h, body n = InodeBlk b d r x h /\ len d = MAX_TABLE_SIZE /\
     0 <= b <= MaxFileSize /\ forall k q, aget d k = Some q -> q <> PWild) \/
  (m_type n = NODE_INDEX /\ m_phy_blk n = INVALID_BLK /\ exists v l, body n = IndexBlk v l /\ len l = INDEX_SIZE).

Record nodes_wf N : Prop := {
  nw_nr : m_nr N = len (m_nodes N);
  nw_max : m_nr N < INVALID_BLK;
  nw_nodup : NoDup (m_free_list N);
  nw_free f : f ∈ m_free_list N -> exists n, aget (m_nodes N) f = Some n /\ m_fid n = INVALID_BLK;
  nw_fid f n : aget (m_nodes N) f = Some n -> m_fid n = INVALID_BLK \/ m_fid n = f /\ node_ok n;
  nw_dir f k p : dir_of N f k = Some p -> exists n, used N p = Some n /\ m_type n = NODE_INDEX;
  nw_inj f k f' k' p : dir_of N f k = Some p -> dir_of N f' k' = Some p -> f = f' /\ k = k'
}.

Lemma used_Some N f n : used N f = Some n <-> aget (m_nodes N) f = Some n /\ m_fid n = f.
Proof.
  unfold used. destruct (aget (m_nodes N) f) as [m|]; cbn; [|naive_solver].
  destruct (Z.eqb_spec (m_fid m) f); naive_solver.
Qed.
Lemma used_ok N f n : nodes_wf N -> used N f = Some n -> node_ok n /\ 0 <= f < INVALID_BLK.
Proof.
  intros Hw [Hn Hf]%used_Some. pose proof (aget_bounds _ _ _ Hn) as Hb. pose proof (nw_nr _ Hw). pose proof (nw_max _ Hw).
  split; [|lia]. destruct (nw_fid _ Hw _ _ Hn) as [|[_ ?]]; [lia|done].
Qed.

(** Replacing the node under a number. *)
Definition upd N (p : Z) n : CInodeManager :=
  mkInodes (m_free_list N) (<[Z.to_nat p := n]> (m_nodes N)) (m_nr N) (m_used_nr N) (m_nfree_nr N).

Lemma used_upd N p n n' f : aget (m_nodes N) p = Some n ->
  used (upd N p n') f = if f =? p then (if m_fid n' =? p then Some n' else None) else used N f.
Proof.
  intros Hn. pose proof (aget_bounds _ _ _ Hn) as Hb. unfold used, upd. cbn [m_nodes].
  destruct (Z.eqb_spec f p) as [->|Hne]; [by rewrite aget_insert_eq by lia|by rewrite aget_insert_ne by lia].
Qed.

(** Two nodes that say the same about addresses. *)
Record same_links n n' : Prop := {
  sl_fid : m_fid n' = m_fid n; sl_type : m_type n' = m_type n; sl_phy : m_phy_blk n' = m_phy_blk n;
  sl_dir : direct_of n' = direct_of n; sl_idx : index_of n' = index_of n
}.
(** Two node tables that do. *)
Record same_maps N N' : Prop := {
  sm_phy f : phy_of N' f = phy_of N f;
  sm_dir f k : dir_of N' f k = dir_of N f k;
  sm_ent p i : ent_of N' p i = ent_of N p i
}.
#[export] Instance same_maps_equiv : Equivalence same_maps.
Proof.
  split; [by constructor|by intros N N' []|].
  intros N1 N2 N3 [] []. constructor; intros; etransitivity; eauto.
Qed.

Lemma same_maps_blk N N' f o : same_maps N N' -> blk_of N' f o = blk_of N f o.
Proof.
  intros H. unfold blk_of. rewrite (sm_dir _ _ H). destruct (dir_of N f _) as [p|]; [|done]. cbn [mbind option_bind]. apply (sm_ent _ _ H).
Qed.

Lemma same_links_maps N p n n' : aget (m_nodes N) p = Some n -> m_fid n = p -> same_links n n' -> same_maps N (upd N p n').
Proof.
  intros Hn Hf [E1 E2 E3 E4 E5]. assert (Hu : used N p = Some n) by by apply used_Some.
  constructor; intros; unfold phy_of, dir_of, ent_of; rewrite (used_upd _ _ n) by done;
    match goal with |- context [?a =? p] => destruct (Z.eqb_spec a p) as [->|] end; try done;
    rewrite E1, Hf, Z.eqb_refl, Hu; cbn [mbind option_bind]; by rewrite ?E2, ?E3, ?E4, ?E5.
Qed.

Lemma dir_upd N p n n' : aget (m_nodes N) p = Some n -> m_fid n = p -> m_fid n' = p -> direct_of n' = direct_of n ->
  forall f k, dir_of (upd N p n') f k = dir_of N f k.
Proof.
  intros Hn Hf Hf' Hd f k. unfold dir_of. rewrite (used_upd _ _ n) by done. destruct (Z.eqb_spec f p) as [->|]; [|done].
  rewrite Hf', Z.eqb_refl. assert (used N p = Some n) as -> by by apply used_Some. cbn. by rewrite Hd.
Qed.

Lemma nodes_upd N p n n' : nodes_wf N -> aget (m_nodes N) p = Some n -> m_fid n = p -> m_fid n' = p ->
  m_type n' = m_type n -> direct_of n' = direct_of n -> node_ok n' -> nodes_wf (upd N p n').
Proof.
  intros Hw Hn Hf Hf' Ht Hd Hok. pose proof (aget_bounds _ _ _ Hn) as Hb.
  pose proof (dir_upd N p n n' Hn Hf Hf' Hd) as Edir. assert (Hpn : p ∉ m_free_list N).
  { intros Hin. destruct (nw_free _ Hw _ Hin) as (m & Hm & Em). pose proof (nw_nr _ Hw). pose proof (nw_max _ Hw). rewrite Hn in Hm. injection Hm as <-. lia. }
  destruct Hw. constructor; cbn [upd m_nr m_nodes m_free_list]; try done.
  - by rewrite length_insert.
  - intros f Hfr. destruct (nw_free0 f Hfr) as (m & Hm & Em). exists m. split; [|done].
    rewrite aget_insert_ne; [done|set_solver|lia].
  - intros f m Hm. pose proof (aget_bounds _ _ _ Hm) as Hfb. rewrite aget_insert in Hm by lia.
    destruct (Z.eqb_spec p f) as [<-|]; [injection Hm as <-; by right|by apply nw_fid0].
  - intros f k q Hq. rewrite Edir in Hq. destruct (nw_dir0 _ _ _ Hq) as (m & Hm & Em).
    rewrite (used_upd _ _ n) by done. destruct (Z.eqb_spec q p) as [->|]; [|by exists m].
    rewrite Hf', Z.eqb_refl. exists n'. split; [done|]. apply used_Some in Hm as [Hm _]. congruence.
  - intros f k f' k' q. rewrite !Edir. apply nw_inj0.
Qed.

Lemma same_links_wf N p n n' : nodes_wf N -> aget (m_nodes N) p = Some n -> m_fid n = p -> same_links n n' ->
  node_ok n' -> nodes_wf (upd N p n').
Proof. intros Hw Hn Hf [] Hok. eapply nodes_upd; [done|done|done|congruence|done|done|done]. Qed.
End Tables.

(** ** The two maps are inverse *)
Section Linked.
Implicit Types (V : Z -> option LFS_BLOCK_INFO) (N : CInodeManager) (x : LFS_BLOCK_INFO).

(** The record of the block that a node is written in, and of a block of a file. *)
Record is_node x (f : Z) : Prop := {
  in_nid : nid x = f; in_offset : offset x = INVALID_BLK; in_parent : parent x = PNull; in_pofs : parent_offset x = INVALID_BLK
}.
Record is_data x (f k p i : Z) : Prop := {
  id_nid : nid x = f; id_offset : offset x = k * INDEX_SIZE + i; id_parent : parent x = PNode p; id_pofs : parent_offset x = i;
  id_k : 0 <= k < MAX_TABLE_SIZE; id_i : 0 <= i < INDEX_SIZE
}.

Record linked V N : Prop := {
  lk_blk b x : V b = Some x ->
    (exists f, is_node x f /\ phy_of N f = Some b) \/
    (exists f k p i, is_data x f k p i /\ dir_of N f k = Some p /\ ent_of N p i = Some b);
  lk_phy f b : phy_of N f = Some b -> exists x, V b = Some x /\ is_node x f;
  lk_ent f k p i b : dir_of N f k = Some p -> ent_of N p i = Some b -> exists x, V b = Some x /\ is_data x f k p i
}.

(** The same record, whatever its counters. *)
Record same_key x y : Prop := {
  sk_nid : nid y = nid x; sk_offset : offset y = offset x; sk_parent : parent y = parent x; sk_pofs : parent_offset y = parent_offset x
}.
Lemma same_key_node x y f : same_key x y -> is_node x f -> is_node y f.
Proof. intros [] []. constructor; congruence. Qed.
Lemma same_key_data x y f k p i : same_key x y -> is_data x f k p i -> is_data y f k p i.
Proof. intros [] []. constructor; congruence || done. Qed.
Lemma key_media x : same_key x (inc_media x).
Proof. by constructor. Qed.
Lemma key_host x : same_key x (inc_host x).
Proof. by constructor. Qed.

Lemma node_not_data x f g k p i : is_node x f -> is_data x g k p i -> False.
Proof. intros [] []. congruence. Qed.
Lemma node_unique x f g : is_node x f -> is_node x g -> f = g.
Proof. intros [] []. congruence. Qed.
Lemma data_unique x f k p i f' k' p' i' : is_data x f k p i -> is_data x f' k' p' i' -> f = f' /\ k = k' /\ p = p' /\ i = i'.
Proof.
  intros [] []. assert (i = i') as <- by congruence. assert (p = p') as <- by congruence.
  split_and!; try done; [congruence|]. unfold INDEX_SIZE in *. lia.
Qed.

Lemma linked_ext V N V' N' : linked V N -> (forall b, V' b = V b) -> same_maps N N' -> linked V' N'.
Proof.
  intros HL HV Hs. constructor.
  - intros b x. rewrite HV. intros [(f & ? & ?)|(f & k & p & i & ? & ? & ?)]%(lk_blk _ _ HL).
    + left. exists f. by rewrite (sm_phy _ _ Hs).
    + right. exists f, k, p, i. by rewrite (sm_dir _ _ Hs), (sm_ent _ _ Hs).
  - intros f b. rewrite (sm_phy _ _ Hs), HV. apply (lk_phy _ _ HL).
  - intros f k p i b. rewrite (sm_dir _ _ Hs), (sm_ent _ _ Hs), HV. apply (lk_ent _ _ HL).
Qed.

Context (V : Z -> option LFS_BLOCK_INFO) (N : CInodeManager) (HL : linked V N).
Context (V' : Z -> option LFS_BLOCK_INFO) (N' : CInodeManager).

(** An unused block now holds what another one held, which is dropped. *)
Section Move.
Context (b b1 : Z) (x x' : LFS_BLOCK_INFO) (Hb : V b = Some x) (Hb1 : V b1 = None) (Hk : same_key x x').
Context (HV : forall c, V' c = if c =? b1 then Some x' else if c =? b then None else V c).

Lemma linked_move_node f : phy_of N f = Some b ->
  (forall g, phy_of N' g = if g =? f then Some b1 else phy_of N g) ->
  (forall g k, dir_of N' g k = dir_of N g k) -> (forall p i, ent_of N' p i = ent_of N p i) -> linked V' N'.
Proof.
  intros Hf Ep Ed Ee. destruct (lk_phy _ _ HL _ _ Hf) as (y & Hy & Hn). rewrite Hb in Hy. injection Hy as <-.
  constructor.
  - intros c z. rewrite HV. destruct (Z.eqb_spec c b1) as [->|].
    { intros [= <-]. left. exists f. rewrite Ep, Z.eqb_refl. split; [by eapply same_key_node|done]. }
    destruct (Z.eqb_spec c b) as [|Hcb]; [done|]. intros [(g & Hg & Hp)|(g & k & p & i & Hd & H1 & H2)]%(lk_blk _ _ HL).
    + left. exists g. split; [done|]. rewrite Ep. destruct (Z.eqb_spec g f) as [->|]; [congruence|done].
    + right. exists g, k, p, i. by rewrite Ed, Ee.
  - intros g c. rewrite Ep, HV. destruct (Z.eqb_spec g f) as [->|Hgf].
    { intros [= <-]. rewrite Z.eqb_refl. exists x'. split; [done|by eapply same_key_node]. }
    intros Hp. destruct (lk_phy _ _ HL _ _ Hp) as (z & Hz & Hzn). exists z.
    destruct (Z.eqb_spec c b1) as [->|]; [congruence|]. destruct (Z.eqb_spec c b) as [->|]; [|done].
    exfalso. apply Hgf. rewrite Hb in Hz. injection Hz as <-. by eapply node_unique.
  - intros g k p i c. rewrite Ed, Ee, HV. intros H1 H2. destruct (lk_ent _ _ HL _ _ _ _ _ H1 H2) as (z & Hz & Hd). exists z.
    destruct (Z.eqb_spec c b1) as [->|]; [congruence|]. destruct (Z.eqb_spec c b) as [->|]; [|done].
    rewrite Hb in Hz. injection Hz as <-. by destruct (node_not_data x f g k p i).
Qed.

Lemma linked_move_data f k p i : nodes_wf N -> dir_of N f k = Some p -> ent_of N p i = Some b ->
  (forall g, phy_of N' g = phy_of N g) -> (forall g k, dir_of N' g k = dir_of N g k) ->
  (forall r j, ent_of N' r j = if (r =? p) && (j =? i) then Some b1 else ent_of N r j) -> linked V' N'.
Proof.
  intros Hw Hd He Ep Ed Ee. destruct (lk_ent _ _ HL _ _ _ _ _ Hd He) as (y & Hy & Hda). rewrite Hb in Hy. injection Hy as <-.
  constructor.
  - intros c z. rewrite HV. destruct (Z.eqb_spec c b1) as [->|].
    { intros [= <-]. right. exists f, k, p, i. rewrite Ed, Ee, !Z.eqb_refl. split_and!; [by eapply same_key_data|done|done]. }
    destruct (Z.eqb_spec c b) as [|Hcb]; [done|]. intros [(g & Hg & Hp)|(g & k' & p' & i' & Hd' & H1 & H2)]%(lk_blk _ _ HL).
    + left. exists g. by rewrite Ep.
    + right. exists g, k', p', i'. rewrite Ed, Ee. split_and!; [done|done|].
      destruct (Z.eqb_spec p' p) as [->|], (Z.eqb_spec i' i) as [->|]; cbn; congruence || done.
  - intros g c. rewrite Ep, HV. intros Hp. destruct (lk_phy _ _ HL _ _ Hp) as (z & Hz & Hzn). exists z.
    destruct (Z.eqb_spec c b1) as [->|]; [congruence|]. destruct (Z.eqb_spec c b) as [->|]; [|done].
    rewrite Hb in Hz. injection Hz as <-. by destruct (node_not_data x g f k p i).
  - intros g k' p' i' c. rewrite Ed, Ee, HV. intros H1.
    destruct (Z.eqb_spec p' p) as [->|Hp], (Z.eqb_spec i' i) as [->|Hi]; cbn; intros H2;
      [injection H2 as <-; rewrite Z.eqb_refl; exists x'; split; [done|];
       destruct (nw_inj _ Hw _ _ _ _ _ Hd H1) as [-> ->]; by eapply same_key_data|..];
      (destruct (lk_ent _ _ HL _ _ _ _ _ H1 H2) as (z & Hz & Hdz); exists z;
       destruct (Z.eqb_spec c b1) as [->|]; [congruence|]; destruct (Z.eqb_spec c b) as [->|]; [|done];
       rewrite Hb in Hz; injection Hz as <-; destruct (data_unique _ _ _ _ _ _ _ _ _ Hda Hdz) as (? & ? & ? & ?); congruence).
Qed.
End Move.

(** The counters of a block change. *)
Lemma linked_touch b x x' : V b = Some x -> same_key x x' -> (forall c, V' c = if c =? b then Some x' else V c) ->
  same_maps N N' -> linked V' N'.
Proof.
  intros Hb Hk HV Hs. constructor.
  - intros c z. rewrite HV. intros Hz. assert (exists y, V c = Some y /\ same_key y z) as (y & Hy & Hyz).
    { destruct (Z.eqb_spec c b) as [->|]; [injection Hz as <-; by exists x|by exists z]. }
    destruct (lk_blk _ _ HL _ _ Hy) as [(f & Hn & Hp)|(f & k & p & i & Hd & H1 & H2)].
    + left. exists f. rewrite (sm_phy _ _ Hs). split; [by eapply same_key_node|done].
    + right. exists f, k, p, i. rewrite (sm_dir _ _ Hs), (sm_ent _ _ Hs). split_and!; [by eapply same_key_data|done|done].
  - intros f c. rewrite (sm_phy _ _ Hs), HV. intros Hp. destruct (lk_phy _ _ HL _ _ Hp) as (y & Hy & Hn).
    destruct (Z.eqb_spec c b) as [->|]; [|by exists y]. exists x'. split; [done|]. rewrite Hb in Hy. injection Hy as <-. by eapply same_key_node.
  - intros f k p i c. rewrite (sm_dir _ _ Hs), (sm_ent _ _ Hs), HV. intros H1 H2. destruct (lk_ent _ _ HL _ _ _ _ _ H1 H2) as (y & Hy & Hd).
    destruct (Z.eqb_spec c b) as [->|]; [|by exists y]. exists x'. split; [done|]. rewrite Hb in Hy. injection Hy as <-. by eapply same_key_data.
Qed.

(** An unused block now holds a block of a file that had none, or a node. *)
Section Add.
Context (b1 : Z) (x' : LFS_BLOCK_INFO) (Hb1 : V b1 = None).
Context (HV : forall c, V' c = if c =? b1 then Some x' else V c).

Lemma linked_add_data f k p i : nodes_wf N -> is_data x' f k p i -> dir_of N f k = Some p -> ent_of N p i = None ->
  (forall g, phy_of N' g = phy_of N g) -> (forall g k, dir_of N' g k = dir_of N g k) ->
  (forall r j, ent_of N' r j = if (r =? p) && (j =? i) then Some b1 else ent_of N r j) -> linked V' N'.
Proof.
  intros Hw Hx Hd He Ep Ed Ee. constructor.
  - intros c z. rewrite HV. destruct (Z.eqb_spec c b1) as [->|].
    { intros [= <-]. right. exists f, k, p, i. rewrite Ed, Ee, !Z.eqb_refl. done. }
    intros [(g & Hg & Hp)|(g & k' & p' & i' & Hd' & H1 & H2)]%(lk_blk _ _ HL).
    + left. exists g. by rewrite Ep.
    + right. exists g, k', p', i'. rewrite Ed, Ee. split_and!; [done|done|].
      destruct (Z.eqb_spec p' p) as [->|], (Z.eqb_spec i' i) as [->|]; cbn; congruence || done.
  - intros g c. rewrite Ep, HV. intros Hp. destruct (lk_phy _ _ HL _ _ Hp) as (z & Hz & Hzn). exists z.
    destruct (Z.eqb_spec c b1) as [->|]; [congruence|done].
  - intros g k' p' i' c. rewrite Ed, Ee, HV. intros H1.
    destruct (Z.eqb_spec p' p) as [->|Hp], (Z.eqb_spec i' i) as [->|Hi]; cbn; intros H2;
      [injection H2 as <-; rewrite Z.eqb_refl; exists x'; split; [done|];
       destruct (nw_inj _ Hw _ _ _ _ _ Hd H1) as [-> ->]; done|..];
      (destruct (lk_ent _ _ HL _ _ _ _ _ H1 H2) as (z & Hz & Hdz); exists z;
       destruct (Z.eqb_spec c b1) as [->|]; [congruence|done]).
Qed.

Lemma linked_add_node f : is_node x' f -> phy_of N f = None ->
  (forall g, phy_of N' g = if g =? f then Some b1 else phy_of N g) ->
  (forall g k, dir_of N' g k = dir_of N g k) -> (forall p i, ent_of N' p i = ent_of N p i) -> linked V' N'.
Proof.
  intros Hx Hf Ep Ed Ee. constructor.
  - intros c z. rewrite HV. destruct (Z.eqb_spec c b1) as [->|].
    { intros [= <-]. left. exists f. by rewrite Ep, Z.eqb_refl. }
    intros [(g & Hg & Hp)|(g & k & p & i & Hd & H1 & H2)]%(lk_blk _ _ HL).
    + left. exists g. split; [done|]. rewrite Ep. destruct (Z.eqb_spec g f) as [->|]; [congruence|done].
    + right. exists g, k, p, i. by rewrite Ed, Ee.
  - intros g c. rewrite Ep, HV. destruct (Z.eqb_spec g f) as [->|Hgf].
    { intros [= <-]. rewrite Z.eqb_refl. by exists x'. }
    intros Hp. destruct (lk_phy _ _ HL _ _ Hp) as (z & Hz & Hzn). exists z.
    destruct (Z.eqb_spec c b1) as [->|]; [congruence|done].
  - intros g k p i c. rewrite Ed, Ee, HV. intros H1 H2. destruct (lk_ent _ _ HL _ _ _ _ _ H1 H2) as (z & Hz & Hd). exists z.
    destruct (Z.eqb_spec c b1) as [->|]; [congruence|done].
Qed.
End Add.

(** A block is dropped together with what points to it. *)
Section Del.
Context (b : Z) (HV : forall c, V' c = if c =? b then None else V c).

Lemma linked_del_data f k p i : nodes_wf N -> dir_of N f k = Some p -> ent_of N p i = Some b ->
  (forall g, phy_of N' g = phy_of N g) -> (forall g k, dir_of N' g k = dir_of N g k) ->
  (forall r j, ent_of N' r j = if (r =? p) && (j =? i) then None else ent_of N r j) -> linked V' N'.
Proof.
  intros Hw Hd He Ep Ed Ee. destruct (lk_ent _ _ HL _ _ _ _ _ Hd He) as (y & Hy & Hda). constructor.
  - intros c z. rewrite HV. destruct (Z.eqb_spec c b) as [|Hcb]; [done|].
    intros [(g & Hg & Hp)|(g & k' & p' & i' & Hd' & H1 & H2)]%(lk_blk _ _ HL).
    + left. exists g. by rewrite Ep.
    + right. exists g, k', p', i'. rewrite Ed, Ee. split_and!; [done|done|].
      destruct (Z.eqb_spec p' p) as [->|], (Z.eqb_spec i' i) as [->|]; cbn; congruence || done.
  - intros g c. rewrite Ep, HV. intros Hp. destruct (lk_phy _ _ HL _ _ Hp) as (z & Hz & Hzn). exists z.
    destruct (Z.eqb_spec c b) as [->|]; [|done].
    rewrite Hy in Hz. injection Hz as <-. by destruct (node_not_data y g f k p i).
  - intros g k' p' i' c. rewrite Ed, Ee, HV. intros H1.
    destruct (Z.eqb_spec p' p) as [->|Hp], (Z.eqb_spec i' i) as [->|Hi]; cbn; intros H2; [done|..];
      (destruct (lk_ent _ _ HL _ _ _ _ _ H1 H2) as (z & Hz & Hdz); exists z;
       destruct (Z.eqb_spec c b) as [->|]; [|done];
       rewrite Hy in Hz; injection Hz as <-; destruct (data_unique _ _ _ _ _ _ _ _ _ Hda Hdz) as (? & ? & ? & ?); congruence).
Qed.

Lemma linked_del_node f : phy_of N f = Some b ->
  (forall g, phy_of N' g = if g =? f then None else phy_of N g) ->
  (forall g k, dir_of N' g k = dir_of N g k) -> (forall p i, ent_of N' p i = ent_of N p i) -> linked V' N'.
Proof.
  intros Hf Ep Ed Ee. destruct (lk_phy _ _ HL _ _ Hf) as (y & Hy & Hn). constructor.
  - intros c z. rewrite HV. destruct (Z.eqb_spec c b) as [|Hcb]; [done|].
    intros [(g & Hg & Hp)|(g & k & p & i & Hd & H1 & H2)]%(lk_blk _ _ HL).
    + left. exists g. split; [done|]. rewrite Ep. destruct (Z.eqb_spec g f) as [->|]; [congruence|done].
    + right. exists g, k, p, i. by rewrite Ed, Ee.
  - intros g c. rewrite Ep, HV. destruct (Z.eqb_spec g f) as [->|Hgf]; [done|].
    intros Hp. destruct (lk_phy _ _ HL _ _ Hp) as (z & Hz & Hzn). exists z.
    destruct (Z.eqb_spec c b) as [->|]; [|done].
    exfalso. apply Hgf. rewrite Hy in Hz. injection Hz as <-. by eapply node_unique.
  - intros g k p i c. rewrite Ed, Ee, HV. intros H1 H2. destruct (lk_ent _ _ HL _ _ _ _ _ H1 H2) as (z & Hz & Hd). exists z.
    destruct (Z.eqb_spec c b) as [->|]; [|done].
    rewrite Hy in Hz. injection Hz as <-. by destruct (node_not_data y f g k p i).
Qed.
End Del.

(** Index nodes without blocks are linked or unlinked. *)
Lemma linked_dir : (forall b, V' b = V b) -> (forall g, phy_of N' g = phy_of N g) ->
  (forall p i, ent_of N' p i = ent_of N p i) ->
  (forall g k p, dir_of N g k = Some p -> dir_of N' g k = Some p \/ forall i, ent_of N p i = None) ->
  (forall g k p, dir_of N' g k = Some p -> dir_of N g k = Some p \/ forall i, ent_of N p i = None) -> linked V' N'.
Proof.
  intros HV Ep Ee E1 E2. constructor.
  - intros c z. rewrite HV. intros [(g & Hg & Hp)|(g & k & p & i & Hd & H1 & H2)]%(lk_blk _ _ HL).
    + left. exists g. by rewrite Ep.
    + right. exists g, k, p, i. rewrite Ee. split_and!; [done| |done]. destruct (E1 _ _ _ H1) as [|Hn]; [done|congruence].
  - intros g c. rewrite Ep, HV. apply (lk_phy _ _ HL).
  - intros g k p i c. rewrite Ee, HV. intros H1 H2. destruct (E2 _ _ _ H1) as [H3|Hn]; [|congruence].
    by eapply (lk_ent _ _ HL).
Qed.
End Linked.

(** ** The invariant of the simulator *)
Section State.
Implicit Types (s t : Lfs) (N : CInodeManager).

(** The size of a file covers its blocks. *)
Definition sized N : Prop := forall f k p i b n m,
  dir_of N f k = Some p -> ent_of N p i = Some b -> used N f = Some n -> blks_of n = Some m -> k * INDEX_SIZE + i < m.

(** The number of blocks of an index node is kept with it. *)
Definition index_count (l : list Z) : Z := len (filter (fun b => b <> INVALID_BLK) l).
Definition counted N : Prop := forall p n v l, used N p = Some n -> body n = IndexBlk v l -> v = index_count l.

Record lfs_wf s (q : list Z) : Prop := {
  lw_segs : mgr_wf (l_segs s) q;
  lw_nodes : nodes_wf (l_nodes s);
  lw_linked : linked (view (l_segs s)) (l_nodes s);
  lw_sized : sized (l_nodes s);
  lw_counted : counted (l_nodes s)
}.
End State.
