(* ===== verification/LfsGc.v ===== *)
(** LfsGc: garbage collection of the log-structured simulator keeps every file:
    it moves valid blocks and follows them in the nodes. *)
From S2P Require Export LfsInv PerfPoolInv.

(** ** Nodes that differ in addresses only *)
Definition body_sim (b b' : node_body) : Prop :=
  match b, b' with
  | IndexBlk v l, IndexBlk v' l' => v = v' /\ Forall2 (fun x y => x = INVALID_BLK <-> y = INVALID_BLK) l l'
  | _, _ => b = b'
  end.
Record node_sim (n n' : inode_info) : Prop := {
  ns_dirty : m_dirty n' = m_dirty n; ns_type : m_type n' = m_type n; ns_fid : m_fid n' = m_fid n;
  ns_fn : m_fn n' = m_fn n; ns_phy : m_phy_blk n' = INVALID_BLK <-> m_phy_blk n = INVALID_BLK;
  ns_body : body_sim (body n) (body n')
}.
#[export] Instance body_sim_preorder : PreOrder body_sim.
Proof.
  split.
  - intros [| |v l]; cbn; [done|done|]. split; [done|]. by induction l; constructor.
  - intros [|?|v l] [|?|v' l'] [|?|v1 l1]; cbn; try done; try congruence. intros [-> H1] [-> H2]. split; [done|].
    revert l1 H2. induction H1 as [|x y l l' Hxy _ IH]; intros l1 H2; inversion H2; subst; constructor; [naive_solver|by apply IH].
Qed.
#[export] Instance node_sim_preorder : PreOrder node_sim.
Proof.
  split.
  - intros n. by constructor.
  - intros n1 n2 n3 [] []. constructor; [congruence..|naive_solver|by etransitivity].
Qed.

(** What a collection leaves: everything but the addresses. *)
Record gc_same (s t : Lfs) : Prop := {
  gs_stable : stable (l_segs s) (l_segs t);
  gs_free : m_free_list (l_nodes t) = m_free_list (l_nodes s);
  gs_nr : m_nr (l_nodes t) = m_nr (l_nodes s);
  gs_node f : option_Forall2 node_sim (aget (m_nodes (l_nodes s)) f) (aget (m_nodes (l_nodes t)) f)
}.
#[export] Instance gc_same_preorder : PreOrder gc_same.
Proof.
  split.
  - intros s. split; [done|done|done|]. intros f. destruct (aget (m_nodes (l_nodes s)) f); by constructor.
  - intros s t u [S1 F1 N1 H1] [S2 F2 N2 H2]. split; [by etransitivity|congruence|congruence|].
    intros f. specialize (H1 f). specialize (H2 f). destruct H1; inversion H2; subst; constructor. by etransitivity.
Qed.

Section Sim.
Implicit Types (s t : Lfs) (N : CInodeManager).

Lemma sim_used s t f n : gc_same s t -> used (l_nodes s) f = Some n ->
  exists n', used (l_nodes t) f = Some n' /\ node_sim n n'.
Proof.
  intros H [Hn Hf]%used_Some. pose proof (gs_node _ _ H f) as Hs. rewrite Hn in Hs. inversion Hs as [a n' Hs' Ea En|]; subst a.
  exists n'. split; [|done]. apply used_Some. split; [done|]. destruct Hs'. congruence.
Qed.
Lemma sim_used_inv s t f n' : gc_same s t -> used (l_nodes t) f = Some n' ->
  exists n, used (l_nodes s) f = Some n /\ node_sim n n'.
Proof.
  intros H [Hn Hf]%used_Some. pose proof (gs_node _ _ H f) as Hs. rewrite Hn in Hs. inversion Hs as [n a Hs' En Ea|]; subst a.
  exists n. split; [|done]. apply used_Some. split; [done|]. destruct Hs'. congruence.
Qed.
Lemma sim_direct n n' : node_sim n n' -> direct_of n' = direct_of n /\ blks_of n' = blks_of n /\ refs_of n' = refs_of n /\ doc_of n' = doc_of n.
Proof.
  intros [_ _ _ _ _ Hb]. unfold direct_of, blks_of, refs_of, doc_of, body_sim in *. destruct (body n), (body n'); try done; by injection Hb as <- <- <- <- <-.
Qed.

Lemma gc_same_dir s t f k : gc_same s t -> dir_of (l_nodes t) f k = dir_of (l_nodes s) f k.
Proof.
  intros H. unfold dir_of. destruct (used (l_nodes s) f) as [n|] eqn:E.
  - destruct (sim_used _ _ _ _ H E) as (n' & E' & (Ed & _)%sim_direct). rewrite E'. cbn. by rewrite Ed.
  - destruct (used (l_nodes t) f) as [n'|] eqn:E'; [|done]. destruct (sim_used_inv _ _ _ _ H E') as (n & ? & _). congruence.
Qed.

Lemma gc_same_ent s t p i : gc_same s t -> ent_of (l_nodes t) p i = None <-> ent_of (l_nodes s) p i = None.
Proof.
  intros H. unfold ent_of. destruct (used (l_nodes s) p) as [n|] eqn:E.
  - destruct (sim_used _ _ _ _ H E) as (n' & E' & [_ _ _ _ _ Hb]). rewrite E'. cbn. unfold index_of.
    destruct (body n) as [| |v l], (body n') as [| |v' l']; cbn in Hb |- *; try done. destruct Hb as [_ Hl].
    unfold aget. destruct (0 <=? i); [|done]. destruct (l !! Z.to_nat i) as [a|] eqn:Ea.
    + destruct (Forall2_lookup_l _ _ _ _ _ Hl Ea) as (b & -> & Hab). cbn.
      destruct (Z.eqb_spec a INVALID_BLK), (Z.eqb_spec b INVALID_BLK); naive_solver.
    + destruct (l' !! Z.to_nat i) as [b|] eqn:Eb; [|done]. destruct (Forall2_lookup_r _ _ _ _ _ Hl Eb) as (a & ? & _). congruence.
  - destruct (used (l_nodes t) p) as [n'|] eqn:E'; [|done]. destruct (sim_used_inv _ _ _ _ H E') as (n & ? & _). congruence.
Qed.

(** A block of a file is there as before. *)
Lemma gc_same_blk s t f o : gc_same s t -> blk_of (l_nodes t) f o = None <-> blk_of (l_nodes s) f o = None.
Proof.
  intros H. unfold blk_of. rewrite (gc_same_dir _ _ _ _ H). destruct (dir_of _ f _) as [p|]; cbn; [|done]. by apply gc_same_ent.
Qed.

Lemma index_count_sim l l' : Forall2 (fun x y => x = INVALID_BLK <-> y = INVALID_BLK) l l' -> index_count l' = index_count l.
Proof.
  unfold index_count. induction 1 as [|x y l l' Hxy _ IH]; [done|]. rewrite !filter_cons.
  destruct (decide (x <> INVALID_BLK)), (decide (y <> INVALID_BLK)); cbn [length]; try lia; naive_solver.
Qed.

Lemma gc_same_sized s t : gc_same s t -> sized (l_nodes s) -> sized (l_nodes t).
Proof.
  intros H Hs f k p i b n' m Hd He Hn Hm. rewrite (gc_same_dir _ _ _ _ H) in Hd.
  destruct (ent_of (l_nodes s) p i) as [b'|] eqn:Eb; [|apply (gc_same_ent _ _ _ _ H) in Eb; congruence].
  destruct (sim_used_inv _ _ _ _ H Hn) as (n & Hn0 & (_ & Eblk & _)%sim_direct). rewrite Eblk in Hm. by eapply Hs.
Qed.
Lemma gc_same_counted s t : gc_same s t -> counted (l_nodes s) -> counted (l_nodes t).
Proof.
  intros H Hc p n' v l' Hn Hb. destruct (sim_used_inv _ _ _ _ H Hn) as (n & Hn0 & [_ _ _ _ _ Hs]). rewrite Hb in Hs.
  destruct (body n) as [| |w l] eqn:Eb; cbn in Hs; try done. destruct Hs as [-> Hl]. rewrite (index_count_sim _ _ Hl). by eapply Hc.
Qed.
End Sim.

(** ** Steps on nodes *)
Section Nodes.
Implicit Types (s t : Lfs) (N : CInodeManager) (n : inode_info).

Lemma wp_node s i n (Q : inode_info -> Lfs -> Prop) E : aget (m_nodes (l_nodes s)) i = Some n -> Q n s -> wp (node (PNode i)) Q E s.
Proof. intros H HQ. unfold node. wp_steps. by eapply wp_opt. Qed.

Lemma wp_node_upd s i n f (Q : unit -> Lfs -> Prop) E : aget (m_nodes (l_nodes s)) i = Some n ->
  Q tt (set_nodes (upd (l_nodes s) i (f n)) s) -> wp (node_upd (PNode i) f) Q E s.
Proof.
  intros H HQ. unfold node_upd. apply wp_bind, (wp_node _ _ n); [done|]. apply wp_zoom. unfold inodes_put. wp_steps.
  pose proof (aget_bounds _ _ _ H). eapply wp_bind_opt; [by apply aset_is_Some|]. exact HQ.
Qed.

Lemma wp_get_node s f n (Q : node_ptr -> Lfs -> Prop) E : aget (m_nodes (l_nodes s)) f = Some n ->
  Q (if m_fid n =? INVALID_BLK then PNull else PNode f) s -> wp (on_nodes (get_node f)) Q E s.
Proof.
  intros H HQ. apply wp_zoom. unfold get_node, nodes_at. wp_steps. pose proof (aget_bounds _ _ _ H) as Hb.
  destruct (Z.leb_spec (len (m_nodes (l_nodes s))) f); [lia|]. eapply wp_bind_opt; [exact H|]. wp_steps.
  by destruct s.
Qed.

Lemma wp_index_put s p n v l i b (Q : unit -> Lfs -> Prop) E : aget (m_nodes (l_nodes s)) p = Some n -> body n = IndexBlk v l ->
  0 <= i < len l -> Q tt (set_nodes (upd (l_nodes s) p (set_body (IndexBlk v (<[Z.to_nat i := b]> l)) n)) s) ->
  wp (index_put (PNode p) i b) Q E s.
Proof.
  intros H Hb Hi HQ. unfold index_put. apply wp_bind, (wp_node _ _ n); [done|].
  eapply wp_bind_opt; [unfold index_of; by rewrite Hb|]. eapply wp_bind_opt; [by apply aset_is_Some|].
  eapply wp_node_upd; [exact H|]. unfold upd_index. by rewrite Hb.
Qed.

(** *** What they do to the maps *)
Lemma phy_upd N f n b : nodes_wf N -> used N f = Some n -> m_type n = NODE_INODE -> b <> INVALID_BLK ->
  nodes_wf (upd N f (set_phy b n)) /\
  (forall g, phy_of (upd N f (set_phy b n)) g = if g =? f then Some b else phy_of N g) /\
  (forall g k, dir_of (upd N f (set_phy b n)) g k = dir_of N g k) /\
  (forall p i, ent_of (upd N f (set_phy b n)) p i = ent_of N p i).
Proof.
  intros Hw Hu Ht Hb. destruct (proj1 (used_Some _ _ _) Hu) as [Hn Hf]. destruct (used_ok _ _ _ Hw Hu) as [Hok _].
  split_and!.
  - eapply nodes_upd; try done. destruct Hok as [[? ?]|[? _]]; [by left|congruence].
  - intros g. unfold phy_of. rewrite (used_upd _ _ n) by done. destruct (Z.eqb_spec g f) as [->|]; [|done].
    cbn [set_phy m_fid]. rewrite Hf, Z.eqb_refl. cbn. rewrite Ht, bool_decide_true by done.
    by destruct (Z.eqb_spec b INVALID_BLK).
  - by eapply dir_upd.
  - intros p i. unfold ent_of. rewrite (used_upd _ _ n) by done. destruct (Z.eqb_spec p f) as [->|]; [|done].
    cbn [set_phy m_fid]. rewrite Hf, Z.eqb_refl, Hu. done.
Qed.

Lemma ent_upd N p n v v' l i b : nodes_wf N -> used N p = Some n -> body n = IndexBlk v l -> 0 <= i < len l ->
  let n' := set_body (IndexBlk v' (<[Z.to_nat i := b]> l)) n in
  nodes_wf (upd N p n') /\
  (forall g, phy_of (upd N p n') g = phy_of N g) /\
  (forall g k, dir_of (upd N p n') g k = dir_of N g k) /\
  (forall r j, ent_of (upd N p n') r j =
     if (r =? p) && (j =? i) then (if b =? INVALID_BLK then None else Some b) else ent_of N r j).
Proof.
  intros Hw Hu Hb Hi n'. destruct (proj1 (used_Some _ _ _) Hu) as [Hn Hf]. destruct (used_ok _ _ _ Hw Hu) as [Hok _].
  destruct Hok as [(_ & ? & ? & ? & ? & ? & Hbad & _)|(Ht & Hp & v0 & l0 & Hb0 & Hl)]; [congruence|].
  rewrite Hb in Hb0. injection Hb0 as <- <-. split_and!.
  - eapply nodes_upd; try done; [unfold direct_of; by rewrite Hb|]. right. split_and!; [done|done|].
    exists v', (<[Z.to_nat i := b]> l). by rewrite length_insert.
  - intros g. unfold phy_of. rewrite (used_upd _ _ n) by done. destruct (Z.eqb_spec g p) as [->|]; [|done].
    cbn [n' set_body m_fid]. by rewrite Hf, Z.eqb_refl, Hu.
  - apply (dir_upd _ _ n); [done|done|done|]. unfold direct_of. by rewrite Hb.
  - intros r j. unfold ent_of. rewrite (used_upd _ _ n) by done. destruct (Z.eqb_spec r p) as [->|]; [|done].
    cbn [n' set_body m_fid]. rewrite Hf, Z.eqb_refl, Hu. cbn [mbind option_bind]. unfold index_of. cbn [body set_body]. rewrite Hb. cbn.
    destruct (Z.eqb_spec j i) as [->|Hne]; [by rewrite aget_insert_eq by lia|]. by rewrite aget_insert_ne by lia.
Qed.
End Nodes.

(** ** Collecting *)
Section Collect.
Implicit Types (s t : Lfs) (N : CInodeManager) (n : inode_info).

Lemma lfs_set_segs_id s : set_segs (l_segs s) s = s.
Proof. by destruct s. Qed.
Lemma set_nodes_id s : set_nodes (l_nodes s) s = s.
Proof. by destruct s. Qed.

(** A computation on the segments that changes nothing. *)
Lemma wp_on_segs_runs {A} (m : M Segs A) s a (Q : A -> Lfs -> Prop) E :
  runs m (l_segs s) a (l_segs s) -> Q a s -> wp (on_segs m) Q E s.
Proof. intros H HQ. apply wp_zoom. eapply runs_wp; [exact H|]. by rewrite lfs_set_segs_id. Qed.

Lemma lfs_seg_at_runs (g : Segs) i x : aget (m_segments g) i = Some x -> runs (seg_at i) g x g.
Proof. intros H. unfold runs, seg_at, bind, get. by rewrite H. Qed.

Lemma gc_same_step s g p n n' : stable (l_segs s) g -> aget (m_nodes (l_nodes s)) p = Some n -> node_sim n n' ->
  gc_same s (set_nodes (upd (l_nodes s) p n') (set_segs g s)).
Proof.
  intros Hst Hn Hs. pose proof (aget_bounds _ _ _ Hn) as Hb. split; [done|done|done|]. cbn [set_nodes l_nodes upd m_nodes]. intros f.
  destruct (decide (f = p)) as [->|Hne].
  - rewrite Hn, aget_insert_eq by lia. by constructor.
  - rewrite aget_insert_ne by lia. destruct (aget _ f); by constructor.
Qed.

(** The state after the block of a node, or of a file, was moved. *)
Lemma moved_wf s q q' g N' : lfs_wf s q -> mgr_wf g q' -> nodes_wf N' -> linked (view g) N' ->
  gc_same s (set_nodes N' (set_segs g s)) -> lfs_wf (set_nodes N' (set_segs g s)) q'.
Proof.
  intros Hw Hg HN HL Hs. constructor; [done|done|done|..].
  - eapply gc_same_sized; [exact Hs|apply Hw].
  - eapply gc_same_counted; [exact Hs|apply Hw].
Qed.

Definition collected s (t : Lfs) : Prop := exists q, lfs_wf t q /\ gc_same s t.

Lemma collected_trans s t u : gc_same s t -> collected t u -> collected s u.
Proof. intros H (q & Hw & Hs). exists q. split; [done|by etransitivity]. Qed.

Lemma move_node_spec s q b x f : lfs_wf s q -> view (l_segs s) b = Some x -> is_node x f -> phy_of (l_nodes s) f = Some b ->
  wp (new_blk <- on_segs (MoveBlock WriteBlockToSeg (b / BLOCK_PER_SEG) (b mod BLOCK_PER_SEG) BT_HOT__DATA) ;;
      new_lblk <- on_segs (get_block new_blk) ;;
      when (offset new_lblk =? INVALID_BLK)
        (inode <- on_nodes (get_node (nid new_lblk)) ;;
         check (negb (is_null inode)) ;;;
         node_upd inode (set_phy new_blk)) ;;; ret tt)
    (fun _ t => collected s t) (fun e t => e = ERR_APP /\ collected s t) s.
Proof.
  intros Hw Hv Hn Hp. apply wp_bind, wp_zoom. eapply wp_mono; [eapply MoveBlock_spec; [apply Hw|exact Hv]| |].
  2:{ intros e t (-> & ->). rewrite lfs_set_segs_id. split; [done|]. exists q. by split. }
  intros b1 g (q' & Hg & Hst & Hb1 & Hnone & Hvg). apply wp_bind.
  assert (Hv1 : view g b1 = Some (inc_media x)) by by rewrite Hvg, Z.eqb_refl.
  eapply wp_on_segs_runs; [by eapply get_block_runs|]. cbn [offset inc_media nid].
  rewrite (in_offset _ _ Hn), (in_nid _ _ Hn), Z.eqb_refl. cbn [when].
  destruct (used (l_nodes s) f) as [n|] eqn:Hu; [|by unfold phy_of in Hp; rewrite Hu in Hp].
  assert (Ht : m_type n = NODE_INODE).
  { unfold phy_of in Hp. rewrite Hu in Hp. cbn in Hp. by destruct (bool_decide_reflect (m_type n = NODE_INODE)). }
  assert (Hphy : m_phy_blk n <> INVALID_BLK).
  { unfold phy_of in Hp. rewrite Hu in Hp. cbn in Hp. rewrite bool_decide_true in Hp by done. by destruct (Z.eqb_spec (m_phy_blk n) INVALID_BLK). }
  destruct (used_ok _ _ _ (lw_nodes _ _ Hw) Hu) as [_ Hfb]. destruct (proj1 (used_Some _ _ _) Hu) as [Hget Hfid].
  apply wp_bind_assoc, wp_bind. eapply wp_get_node; [exact Hget|]. rewrite (proj2 (Z.eqb_neq _ _)) by lia.
  apply wp_bind_assoc, wp_bind, wp_check; [done|]. apply wp_bind. eapply wp_node_upd; [exact Hget|]. wp_steps.
  destruct (phy_upd _ _ _ b1 (lw_nodes _ _ Hw) Hu Ht) as (HN & E1 & E2 & E3); [lia|].
  assert (Hs : gc_same s (set_nodes (upd (l_nodes s) f (set_phy b1 n)) (set_segs g s))).
  { apply (gc_same_step s g f n); [done|done|]. constructor; try done. cbn. split; [lia|done]. }
  exists q'. split; [|done]. eapply moved_wf; [exact Hw|done|done| |done].
  eapply (linked_move_node _ _ (lw_linked _ _ Hw)); [exact Hv|exact Hnone|apply key_media|done|exact Hp|done..].
Qed.

Lemma move_data_spec s q b x f k p i : lfs_wf s q -> view (l_segs s) b = Some x -> is_data x f k p i ->
  dir_of (l_nodes s) f k = Some p -> ent_of (l_nodes s) p i = Some b ->
  wp (new_blk <- on_segs (MoveBlock WriteBlockToSeg (b / BLOCK_PER_SEG) (b mod BLOCK_PER_SEG) BT_HOT__DATA) ;;
      new_lblk <- on_segs (get_block new_blk) ;;
      when (offset new_lblk =? INVALID_BLK)
        (inode <- on_nodes (get_node (nid new_lblk)) ;;
         check (negb (is_null inode)) ;;;
         node_upd inode (set_phy new_blk)) ;;; index_put (PNode p) i new_blk)
    (fun _ t => collected s t) (fun e t => e = ERR_APP /\ collected s t) s.
Proof.
  intros Hw Hv Hd Hdir Hent. apply wp_bind, wp_zoom. eapply wp_mono; [eapply MoveBlock_spec; [apply Hw|exact Hv]| |].
  2:{ intros e t (-> & ->). rewrite lfs_set_segs_id. split; [done|]. exists q. by split. }
  intros b1 g (q' & Hg & Hst & Hb1 & Hnone & Hvg). apply wp_bind.
  assert (Hv1 : view g b1 = Some (inc_media x)) by by rewrite Hvg, Z.eqb_refl.
  eapply wp_on_segs_runs; [by eapply get_block_runs|]. cbn [offset inc_media nid].
  assert (Hofs : offset x =? INVALID_BLK = false).
  { rewrite (id_offset _ _ _ _ _ Hd). destruct Hd. apply Z.eqb_neq. unfold MAX_TABLE_SIZE, INDEX_SIZE, INVALID_BLK in *. lia. }
  rewrite Hofs. cbn [when]. wp_steps.
  unfold ent_of in Hent. destruct (used (l_nodes s) p) as [n|] eqn:Hu; [|done]. cbn in Hent.
  unfold index_of in Hent. destruct (body n) as [| |v l] eqn:Hb; try done. cbn in Hent.
  destruct (aget l i) as [c|] eqn:Hc; [|done]. cbn in Hent. destruct (Z.eqb_spec c INVALID_BLK) as [|Hcv]; [done|]. injection Hent as ->.
  pose proof (aget_bounds _ _ _ Hc) as Hi. destruct (proj1 (used_Some _ _ _) Hu) as [Hget Hfid].
  eapply wp_index_put; [exact Hget|exact Hb|exact Hi|].
  destruct (ent_upd _ _ _ v v l i b1 (lw_nodes _ _ Hw) Hu Hb Hi) as (HN & E1 & E2 & E3).
  rewrite (proj2 (Z.eqb_neq b1 INVALID_BLK)) in E3 by lia.
  assert (Hs : gc_same s (set_nodes (upd (l_nodes s) p (set_body (IndexBlk v (<[Z.to_nat i:=b1]> l)) n)) (set_segs g s))).
  { apply (gc_same_step s g p n); [done|done|]. constructor; try done. cbn [set_body body]. rewrite Hb. split; [done|].
    apply aget_Some in Hc as [_ Hc]. rewrite <- (list_insert_id _ _ _ Hc) at 1. apply Forall2_insert; [|split; intros; lia].
    clear. by induction l; constructor. }
  exists q'. split; [|done]. eapply moved_wf; [exact Hw|done|done| |done].
  assert (He : ent_of (l_nodes s) p i = Some b).
  { unfold ent_of. rewrite Hu. cbn. unfold index_of. rewrite Hb. cbn. rewrite Hc. cbn. by destruct (Z.eqb_spec b INVALID_BLK). }
  eapply (linked_move_data _ _ (lw_linked _ _ Hw)); [exact Hv|exact Hnone|apply key_media|done|apply Hw|exact Hdir|exact He|done..].
Qed.

Lemma gc_block_spec s q seg bb : lfs_wf s q -> 0 <= seg < m_seg_nr (l_segs s) -> 0 <= bb < BLOCK_PER_SEG ->
  wp (gc_block seg bb) (fun _ t => collected s t) (fun e t => e = ERR_APP /\ collected s t) s.
Proof.
  intros Hw Hs Hb. pose proof (lw_segs _ _ Hw) as Hm. destruct (aget_is_Some (m_segments (l_segs s)) seg) as [g Hg].
  { rewrite (mw_len _ _ Hm). lia. }
  pose proof (mw_seg _ _ Hm _ _ Hg) as Hok. destruct (aget_is_Some (blk_map g) bb) as [x Hx].
  { rewrite (so_len _ Hok). lia. }
  unfold gc_block. apply wp_bind. eapply wp_on_segs_runs; [by apply lfs_seg_at_runs|]. eapply wp_bind_opt; [exact Hx|].
  destruct (Z.eqb_spec (nid x) INVALID_BLK) as [|Hlive]; [wp_steps; exists q; by split|].
  destruct (addr_split seg bb Hb) as [E1 E2].
  assert (Hv : view (l_segs s) (seg * BLOCK_PER_SEG + bb) = Some x).
  { apply view_Some. exists g. rewrite E1, E2. split_and!; [done|done|]. cbn. by rewrite (proj2 (Z.eqb_neq _ _)). }
  replace (MoveBlock WriteBlockToSeg seg bb BT_HOT__DATA) with (MoveBlock WriteBlockToSeg
    ((seg * BLOCK_PER_SEG + bb) / BLOCK_PER_SEG) ((seg * BLOCK_PER_SEG + bb) mod BLOCK_PER_SEG) BT_HOT__DATA) by by rewrite E1, E2.
  destruct (lk_blk _ _ (lw_linked _ _ Hw) _ _ Hv) as [(f & Hn & Hp)|(f & k & p & i & Hd & Hdir & Hent)].
  - rewrite (in_parent _ _ Hn). cbn [is_null]. wp_steps. by eapply move_node_spec.
  - rewrite (id_parent _ _ _ _ _ Hd). cbn [is_null]. destruct (nw_dir _ (lw_nodes _ _ Hw) _ _ _ Hdir) as (n & Hu & Ht).
    destruct (proj1 (used_Some _ _ _) Hu) as [Hget _]. wp_steps. apply wp_bind. eapply wp_node; [exact Hget|].
    rewrite bool_decide_true by done. wp_steps. rewrite (id_pofs _ _ _ _ _ Hd). by eapply move_data_spec.
Qed.

Lemma gc_segment_spec s q seg : lfs_wf s q -> 0 <= seg < m_seg_nr (l_segs s) ->
  wp (gc_segment seg) (fun _ t => collected s t) (fun e t => e = ERR_APP /\ collected s t) s.
Proof.
  intros Hw Hs. unfold gc_segment. apply (wp_for _ _ _ (fun _ t => collected s t)); [done|by exists q|].
  intros i t Hi (q' & Hw' & Hsame). eapply wp_mono; [eapply gc_block_spec; [exact Hw'| |exact Hi]|..].
  - rewrite (st_nr _ _ (gs_stable _ _ Hsame)). lia.
  - intros [] u Hu. by eapply collected_trans.
  - intros e u [-> Hu]. split; [done|]. by eapply collected_trans.
Qed.

(** *** Choosing the victims *)
Definition is_full s (i : Z) : bool :=
  match aget (m_segments (l_segs s)) i with Some g => BLOCK_PER_SEG <=? cur_blk g | None => false end.
Definition full_nr s (l : list Z) : Z := len (filter (fun i => is_full s i = true) l).

Lemma full_nr_snoc s l i : full_nr s (l ++ [i]) = full_nr s l + Z.b2z (is_full s i).
Proof. unfold full_nr. rewrite filter_app, length_app, filter_cons, filter_nil.
  destruct (decide (is_full s i = true)) as [E|E]; [rewrite E|rewrite (not_true_is_false _ E)]; cbn; lia. Qed.

(** All segments but the free and the current ones are full. *)
Lemma full_bound s q : mgr_wf (l_segs s) q ->
  m_seg_nr (l_segs s) - m_free_nr (l_segs s) - BT_TEMP_NR <= full_nr s (range 0 (m_seg_nr (l_segs s))).
Proof.
  intros Hw. set (n := m_seg_nr (l_segs s)). set (bad := filter (fun i => ~ is_full s i = true) (range 0 n)).
  assert (Hsplit : forall l, len (filter (fun i => is_full s i = true) l) + len (filter (fun i => ~ is_full s i = true) l) = len l).
  { induction l as [|i l IH]; [done|]. rewrite !filter_cons. destruct (decide (is_full s i = true)), (decide (~ is_full s i = true)); cbn [length]; try lia; done. }
  pose proof (rg_pos _ _ (mw_ring _ _ Hw)) as Hpos. fold n in Hpos.
  specialize (Hsplit (range 0 n)). fold (full_nr s (range 0 n)) bad in Hsplit.
  assert (El : len (range 0 n) = n) by (unfold range; rewrite length_seqZ; lia).
  assert (Hbad : len bad <= len (q ++ m_cur_segs (l_segs s))).
  { enough (length bad <= length (q ++ m_cur_segs (l_segs s)))%nat by lia. apply submseteq_length, NoDup_submseteq.
    - apply NoDup_filter, NoDup_seqZ.
    - intros i [Hnf Hi%elem_of_range]%list_elem_of_filter. destruct (aget_is_Some (m_segments (l_segs s)) i) as [g Hg].
      { rewrite (mw_len _ _ Hw). lia. }
      unfold is_full in Hnf. rewrite Hg in Hnf. apply elem_of_app. eapply (mw_cover _ _ Hw); [exact Hg|].
      destruct (Z.leb_spec BLOCK_PER_SEG (cur_blk g)); [done|lia]. }
  rewrite length_app, Nat2Z.inj_add, (mw_curlen _ _ Hw), <- (rg_nr _ _ (mw_ring _ _ Hw)) in Hbad. lia.
Qed.

Lemma wp_on_pool {A} (m : (Z -> option Z) -> M GcPool A) p s (Q : A * GcPool -> Lfs -> Prop) E :
  wp (m (val_of s)) (fun a p' => Q (a, p') s) (fun e _ => E e s) p -> wp (on_pool m p) Q E s.
Proof. unfold wp, on_pool. by destruct (m (val_of s) p) as [[a|e|] p']. Qed.

Lemma val_of_Some s q e : mgr_wf (l_segs s) q -> 0 <= e < m_seg_nr (l_segs s) -> exists v, val_of s e = Some v.
Proof.
  intros Hw He. destruct (aget_is_Some (m_segments (l_segs s)) e) as [g Hg]; [rewrite (mw_len _ _ Hw); lia|].
  unfold val_of. rewrite Hg. by eexists.
Qed.

Lemma gc_victims_spec s q : mgr_wf (l_segs s) q -> 63 <= full_nr s (range 0 (m_seg_nr (l_segs s))) ->
  wp gc_victims (fun pool t => t = s /\ emptying 64 (m_seg_nr (l_segs s)) pool 63) (fun _ _ => False) s.
Proof.
  intros Hw Hfull. set (n := m_seg_nr (l_segs s)) in *. unfold gc_victims. wp_steps. fold n.
  eapply wp_then.
  { apply (wp_mfold _ _ _ (fun dn pool t => t = s /\ filling 64 n pool (full_nr s dn))).
    - split; [done|]. apply (pool_new_filling 64 n). done.
    - intros dn i rest pool t El (-> & Hf). assert (Hi : i ∈ range 0 n) by (rewrite El; set_solver).
      apply elem_of_range in Hi. destruct (aget_is_Some (m_segments (l_segs s)) i) as [g Hg]; [rewrite (mw_len _ _ Hw); lia|].
      apply wp_bind. eapply wp_on_segs_runs; [by apply lfs_seg_at_runs|]. rewrite full_nr_snoc.
      assert (Ef : is_full s i = (BLOCK_PER_SEG <=? cur_blk g)) by (unfold is_full; by rewrite Hg).
      destruct (Z.ltb_spec (cur_blk g) BLOCK_PER_SEG).
      + wp_steps. rewrite Ef, (proj2 (Z.leb_gt _ _)) by lia. cbn. by rewrite Z.add_0_r.
      + apply wp_bind, wp_on_pool. rewrite Ef, (proj2 (Z.leb_le _ _)) by lia.
        eapply wp_mono; [apply (lfs_Push_spec 64 n); [done|intros e He; by eapply val_of_Some|exact Hf|unfold full_nr; lia|done]| |done].
        intros [] p' Hp'. wp_steps. done. }
  intros pool t (-> & Hf). apply wp_bind, wp_on_pool.
  eapply wp_mono; [apply (LargeToSmall_spec 64 n) with (k := full_nr s (range 0 n)); [done|intros e He; by eapply val_of_Some|exact Hf|exact Hfull]| |done].
  intros [] p' Hp'. by wp_steps.
Qed.

(** A collection returns, or throws when no victim is left; the files are kept. *)
Lemma gc_spec s q : lfs_wf s q -> 63 <= full_nr s (range 0 (m_seg_nr (l_segs s))) ->
  wp GarbageCollection
    (fun _ t => collected s t /\ (m_gc_hi (l_segs t) <= m_free_nr (l_segs t) \/ m_gc_lo (l_segs t) < m_free_nr (l_segs t)))
    (fun e t => e = ERR_APP /\ collected s t) s.
Proof.
  intros Hw Hfull. set (n := m_seg_nr (l_segs s)) in *. unfold GarbageCollection.
  eapply wp_then; [apply (gc_victims_spec s q); [apply Hw|exact Hfull]|]. fold n. intros pool t (-> & Hp). apply wp_bind.
  eapply wp_mono with (Q := fun _ t => collected s t /\
    (m_gc_hi (l_segs t) <= m_free_nr (l_segs t) \/ m_gc_lo (l_segs t) < m_free_nr (l_segs t))); [|intros ? t Ht; by wp_steps|intros e t He; exact He].
  apply (wp_mwhile _ _ _ (fun pool t => (exists k, emptying 64 n pool k) /\ collected s t) (fun pool _ => small_len pool)).
  - split; [by exists 63|]. by exists q.
  - intros a t ((k & <- & Hk & _) & _). lia.
  - destruct Hp as (-> & _). done.
  - intros a t ((k & Hk) & Hc). wp_steps. destruct (Z.ltb_spec (m_free_nr (l_segs t)) (m_gc_hi (l_segs t))) as [|Hge]; cbn [negb].
    2:{ wp_steps. split; [done|by left]. }
    destruct Hc as (q1 & Hw1 & Hs1). assert (En : m_seg_nr (l_segs t) = n) by apply (st_nr _ _ (gs_stable _ _ Hs1)).
    apply wp_bind, wp_on_pool. eapply wp_mono; [apply (Pop_spec 64 n); [done| |exact Hk]| |done].
    { intros e He. eapply val_of_Some; [apply Hw1|]. by rewrite En. }
    intros e p' Hpop. cbv beta iota. destruct (Z.eqb_spec k 0) as [->|Hk0].
    + rewrite Hpop, Z.eqb_refl. destruct (Z.ltb_spec (m_gc_lo (l_segs t)) (m_free_nr (l_segs t))).
      * wp_steps. split; [by exists q1|by right].
      * wp_steps. split; [done|]. by exists q1.
    + destruct Hpop as [He Hp']. pose proof (rg_max _ _ (mw_ring _ _ (lw_segs _ _ Hw1))) as Hmax.
      rewrite (proj2 (Z.eqb_neq e INVALID_BLK)) by (unfold INVALID_BLK; lia).
      apply wp_bind. eapply wp_mono; [eapply gc_segment_spec; [exact Hw1|lia]|..].
      * intros [] u Hu. wp_steps. split; [split; [by exists (k - 1)|by eapply collected_trans]|].
        destruct Hk as (-> & _), Hp' as (-> & _). lia.
      * intros e' u [-> Hu]. split; [done|]. by eapply collected_trans.
Qed.

(** The margin that makes 63 segments full whenever a collection starts. *)
Definition roomy s : Prop := m_gc_lo (l_segs s) + 69 <= m_seg_nr (l_segs s).
Lemma collected_roomy s t : roomy s -> collected s t -> roomy t.
Proof. intros H (q & _ & [[E1 E2 E3 _] _ _ _]). unfold roomy in *. lia. Qed.

Lemma CheckGarbageCollection_spec s q : lfs_wf s q -> roomy s ->
  wp CheckGarbageCollection (fun _ t => collected s t) (fun e t => e = ERR_APP /\ collected s t) s.
Proof.
  intros Hw Hr. unfold CheckGarbageCollection. wp_steps. apply wp_when; intros Hlt; [|by exists q].
  apply Z.ltb_lt in Hlt. eapply wp_mono; [eapply gc_spec; [exact Hw|]|by intros [] t [Ht _]|done].
  pose proof (full_bound _ _ (lw_segs _ _ Hw)) as Hf. unfold roomy, BT_TEMP_NR in *. lia.
Qed.
End Collect.
