(* ===== verification/LfsAlloc.v ===== *)
(** LfsAlloc: allocating, linking and freeing nodes of the log-structured
    simulator. *)
From S2P Require Export LfsGc.

(** ** The list of free nodes *)
Section Alloc.
Implicit Types (N : CInodeManager) (n : inode_info).
Context (junk : inode_info).

(** 1024 new nodes are appended when no node is free. *)
Definition grow N : CInodeManager :=
  match m_free_list N with
  | [] => mkInodes (map (fun ii => w32 (m_nr N + ii)) (range 0 1024))
            (m_nodes N ++ replicate 1024%nat (inode_new junk)) (m_nr N + 1024) (m_used_nr N) (m_nfree_nr N + 1024)
  | _ => N
  end.
Definition taken N f n : CInodeManager :=
  mkInodes (tail (m_free_list N)) (<[Z.to_nat f := n]> (m_nodes N)) (m_nr N) (m_used_nr N + 1) (m_nfree_nr N - 1).

Lemma aget_app_l {A} (l l' : list A) i a : aget l i = Some a -> aget (l ++ l') i = Some a.
Proof. intros [H1 H2]%aget_Some. apply aget_Some. split; [done|]. by apply lookup_app_l_Some. Qed.

Lemma used_grow N f : nodes_wf N -> m_nr N + 1024 < INVALID_BLK -> used (grow N) f = used N f.
Proof.
  intros Hw Hmax. unfold grow. destruct (m_free_list N); [|done]. unfold used. cbn [m_nodes].
  destruct (aget (m_nodes N) f) as [n|] eqn:E; [by rewrite (aget_app_l _ _ _ _ E)|].
  destruct (aget (m_nodes N ++ _) f) as [n|] eqn:E'; [|done]. cbn.
  pose proof (aget_bounds _ _ _ E') as Hb. apply aget_Some in E' as [H0 E']. apply lookup_app_Some in E' as [E'|[Hl E']].
  { exfalso. apply aget_None in E. apply lookup_lt_Some in E'. lia. }
  apply lookup_replicate in E' as [-> _]. cbn [mbind option_bind inode_new m_fid].
  rewrite length_app, length_replicate in Hb. rewrite (nw_nr _ Hw) in Hmax.
  destruct (Z.eqb_spec INVALID_BLK f); [lia|done].
Qed.

Lemma map_w32_range nr : 0 <= nr -> nr + 1024 < INVALID_BLK -> map (fun ii => w32 (nr + ii)) (range 0 1024) = range nr (nr + 1024).
Proof.
  intros H0 H1. apply list_eq. intros i. unfold range. rewrite list_lookup_fmap.
  destruct (decide (Z.of_nat i < 1024)) as [Hi|Hi].
  - rewrite !lookup_seqZ_lt by lia. cbn. f_equal. rewrite w32_small by (unfold INVALID_BLK in *; lia). lia.
  - rewrite !lookup_seqZ_ge by lia. done.
Qed.

Lemma nodes_grow N : nodes_wf N -> m_nr N + 1024 < INVALID_BLK -> nodes_wf (grow N).
Proof.
  intros Hw Hmax. pose proof (fun f => used_grow N f Hw Hmax) as Hu.
  assert (Hdir : forall f k, dir_of (grow N) f k = dir_of N f k) by (intros; unfold dir_of; by rewrite Hu).
  pose proof (nw_nr _ Hw) as Hnr. revert Hu Hdir. unfold grow. destruct (m_free_list N) eqn:Ef; [|done]. intros Hu Hdir.
  rewrite (map_w32_range (m_nr N)) in * by lia.
  constructor; cbn [m_nr m_nodes m_free_list].
  - rewrite length_app, length_replicate. lia.
  - done.
  - apply NoDup_seqZ.
  - intros f Hf%elem_of_range. exists (inode_new junk). split; [|done]. apply aget_Some. split; [lia|].
    rewrite lookup_app_r by lia. apply lookup_replicate_2. lia.
  - intros f n [H0 [Hn|[Hl Hn]]%lookup_app_Some]%aget_Some.
    + apply (nw_fid _ Hw). by apply aget_Some.
    + apply lookup_replicate in Hn as [-> _]. by left.
  - intros f k p. rewrite Hdir. intros (n & Hn & Ht)%(nw_dir _ Hw). exists n. by rewrite Hu.
  - intros f k f' k' p. rewrite !Hdir. apply (nw_inj _ Hw).
Qed.

Lemma grow_head N : nodes_wf N -> m_nr N + 1024 < INVALID_BLK -> exists f rest, m_free_list (grow N) = f :: rest.
Proof.
  intros Hw Hmax. unfold grow. destruct (m_free_list N) eqn:E; [|rewrite E; by do 2 eexists].
  cbn [m_free_list]. rewrite range_cons by lia. by do 2 eexists.
Qed.

(** A node taken from the list, with a body that links nothing. *)
Definition blank n : Prop := node_ok n /\ m_phy_blk n = INVALID_BLK /\
  (forall d k, direct_of n = Some d -> aget d k = Some PNull \/ aget d k = None) /\
  (forall l i, index_of n = Some l -> aget l i = Some INVALID_BLK \/ aget l i = None).

Lemma aget_replicate_or {A} m (a : A) i : aget (replicate m a) i = Some a \/ aget (replicate m a) i = None.
Proof.
  destruct (aget (replicate m a) i) as [b|] eqn:E; [left|by right]. apply aget_Some in E as [_ E].
  by apply lookup_replicate in E as [-> _].
Qed.
Lemma blank_inode f n : blank (init_inode f n).
Proof.
  split_and!; [|done| |done].
  - left. split; [done|]. do 5 eexists. split; [done|]. rewrite length_replicate. split_and!; [done|done|done|].
    intros k q [_ Hq]%aget_Some. by apply lookup_replicate in Hq as [-> _].
  - intros d k Hd. unfold direct_of, init_inode in Hd. cbn [body] in Hd.
    assert (d = replicate (Z.to_nat MAX_TABLE_SIZE) PNull) as -> by congruence. apply aget_replicate_or.
Qed.
Lemma blank_index f par n : blank (init_index f par n).
Proof.
  split_and!; [|done|done|].
  - right. split_and!; [done|done|]. do 2 eexists. split; [done|]. by rewrite length_replicate.
  - intros l i Hl. unfold index_of, init_index in Hl. cbn [body] in Hl.
    assert (l = replicate (Z.to_nat INDEX_SIZE) INVALID_BLK) as -> by congruence. apply aget_replicate_or.
Qed.

Lemma taken_spec N f rest n : nodes_wf N -> m_free_list N = f :: rest -> m_fid n = f -> blank n ->
  nodes_wf (taken N f n) /\ used N f = None /\
  (forall g, used (taken N f n) g = if g =? f then Some n else used N g) /\ same_maps N (taken N f n).
Proof.
  intros Hw Hfl Hf (Hok & Hphy & Hd & Hi). destruct (nw_free _ Hw f) as (n0 & Hn0 & Hi0); [rewrite Hfl; by left|].
  pose proof (aget_bounds _ _ _ Hn0) as Hb. pose proof (nw_nr _ Hw) as Hnr. pose proof (nw_max _ Hw) as Hmax.
  assert (Hu0 : used N f = None) by (unfold used; rewrite Hn0; cbn; destruct (Z.eqb_spec (m_fid n0) f); [lia|done]).
  assert (Hu : forall g, used (taken N f n) g = if g =? f then Some n else used N g).
  { intros g. unfold used, taken. cbn [m_nodes]. destruct (Z.eqb_spec g f) as [->|].
    - rewrite aget_insert_eq by lia. cbn. by rewrite Hf, Z.eqb_refl.
    - by rewrite aget_insert_ne by lia. }
  assert (Hm : same_maps N (taken N f n)).
  { constructor; intros; unfold phy_of, dir_of, ent_of; rewrite Hu;
      match goal with |- context [?a =? f] => destruct (Z.eqb_spec a f) as [->|] end; try done; rewrite Hu0; cbn [mbind option_bind].
    - rewrite Hphy, Z.eqb_refl. by rewrite andb_false_r.
    - destruct (direct_of n) as [d|]; [|done]. cbn. by destruct (Hd d k eq_refl) as [->| ->].
    - destruct (index_of n) as [l|]; [|done]. cbn. by destruct (Hi l i eq_refl) as [->| ->]. }
  split_and!; [|done|done|done]. destruct (NoDup_cons f rest) as [Hnd _]. rewrite <- Hfl in Hnd. specialize (Hnd (nw_nodup _ Hw)) as [Hnf Hnd].
  constructor; cbn [taken m_nr m_nodes m_free_list]; rewrite ?Hfl; cbn [tail].
  - by rewrite length_insert.
  - done.
  - done.
  - intros g Hg. destruct (nw_free _ Hw g) as (m & Hm' & Em); [rewrite Hfl; by right|]. exists m. split; [|done].
    rewrite aget_insert_ne; [done|set_solver|lia].
  - intros g m Hg. pose proof (aget_bounds _ _ _ Hg). rewrite aget_insert in Hg by lia.
    destruct (Z.eqb_spec f g) as [<-|]; [injection Hg as <-; by right|by apply (nw_fid _ Hw)].
  - intros g k p. rewrite (sm_dir _ _ Hm). intros (m & Hm' & Ht)%(nw_dir _ Hw). exists m. rewrite Hu.
    destruct (Z.eqb_spec p f) as [->|]; [congruence|done].
  - intros g k g' k' p. rewrite !(sm_dir _ _ Hm). apply (nw_inj _ Hw).
Qed.

Lemma grow_nr N : m_nr N <= m_nr (grow N) <= m_nr N + 1024.
Proof. unfold grow. destruct (m_free_list N); cbn; lia. Qed.

Lemma grow_maps N : nodes_wf N -> m_nr N + 1024 < INVALID_BLK -> same_maps N (grow N).
Proof. intros Hw Hmax. constructor; intros; unfold phy_of, dir_of, ent_of; by rewrite used_grow. Qed.

(** What an allocation gives. *)
Record allocated N f n N' : Prop := {
  al_wf : nodes_wf N';
  al_new : used N f = None;
  al_used g : used N' g = if g =? f then Some n else used N g;
  al_maps : same_maps N N';
  al_nr : m_nr N <= m_nr N' <= m_nr N + 1024
}.

Lemma lfs_allocate_spec N ty par : nodes_wf N -> m_nr N + 1024 < INVALID_BLK -> ty <> NODE_FREE ->
  wp (allocate_inode junk ty par)
    (fun f N' => exists n0, allocated N f (if bool_decide (ty = NODE_INDEX) then init_index f par n0 else init_inode f n0) N')
    (fun _ _ => False) N.
Proof.
  intros Hw Hmax Hty. unfold allocate_inode. wp_steps.
  eapply wp_then with (P := fun _ N' => N' = grow N).
  { unfold grow. destruct (m_free_list N) eqn:E; cbn [when]; [|done]. done. }
  intros _ N1 ->. destruct (grow_head _ Hw Hmax) as (f & rest & Hfl). pose proof (nodes_grow _ Hw Hmax) as Hw1.
  wp_steps. rewrite Hfl. eapply wp_bind_opt; [done|]. wp_steps. cbn [tail].
  destruct (nw_free _ Hw1 f) as (n0 & Hn0 & _); [rewrite Hfl; by left|]. pose proof (aget_bounds _ _ _ Hn0) as Hb.
  unfold nodes_at. wp_steps. cbn [m_nodes]. destruct (Z.leb_spec (len (m_nodes (grow N))) f); [lia|].
  eapply wp_bind_opt; [exact Hn0|]. unfold inodes_put. wp_steps. cbn [m_nodes].
  eapply wp_bind_opt; [by apply aset_is_Some|]. wp_steps. exists n0.
  set (n := if bool_decide (ty = NODE_INDEX) then _ else _).
  replace (match ty with NODE_FREE => n0 | NODE_INODE => init_inode f n0 | NODE_INDEX => init_index f par n0 end) with n
    by (unfold n; by destruct ty).
  assert (Hn : m_fid n = f /\ blank n).
  { unfold n. destruct (bool_decide (ty = NODE_INDEX)); split; try done; [apply blank_index|apply blank_inode]. }
  destruct Hn as [Hf Hbl]. destruct (taken_spec _ _ _ _ Hw1 Hfl Hf Hbl) as (H1 & H2 & H3 & H4).
  unfold taken in H1, H3, H4. rewrite Hfl in H1, H3, H4. cbn [tail] in H1, H3, H4. pose proof (grow_nr N) as Hg.
  constructor; cbn [m_nr]; [exact H1|by rewrite <- (used_grow N)| |etransitivity; [by apply grow_maps|done]|lia].
  intros g. rewrite H3. by rewrite used_grow.
Qed.
End Alloc.
