(* ===== verification/LfsFiles.v ===== *)
(** LfsFiles: reading and writing files in the log-structured simulator, against
    the set of blocks that each file has. *)
From S2P Require Export LfsAlloc.

Section Links.
Implicit Types (s t : Lfs) (N : CInodeManager) (n : inode_info).

(** *** Linking and unlinking an index node *)
Definition target (q : node_ptr) : option Z := match q with PNode p => Some p | _ => None end.

Lemma dir_put N f n b d r x h k q : nodes_wf N -> used N f = Some n -> body n = InodeBlk b d r x h -> 0 <= k < len d ->
  q <> PWild ->
  (forall p, q = PNode p -> (exists m, used N p = Some m /\ m_type m = NODE_INDEX) /\ forall g j, dir_of N g j <> Some p) ->
  let N' := upd N f (set_body (InodeBlk b (<[Z.to_nat k := q]> d) r x h) n) in
  nodes_wf N' /\ (forall g, phy_of N' g = phy_of N g) /\ (forall p i, ent_of N' p i = ent_of N p i) /\
  (forall g j, dir_of N' g j = if (g =? f) && (j =? k) then target q else dir_of N g j).
Proof.
  intros Hw Hu Hb Hk Hq Hp N'. destruct (proj1 (used_Some _ _ _) Hu) as [Hn Hf]. destruct (used_ok _ _ _ Hw Hu) as [Hok _].
  destruct Hok as [(Ht & b0 & d0 & r0 & x0 & h0 & Hb0 & Hl & Hm & Hd)|(_ & _ & ? & ? & ? & _)]; [|congruence].
  rewrite Hb in Hb0. injection Hb0 as <- <- <- <- <-. pose proof (aget_bounds _ _ _ Hn) as Hbd.
  set (n' := set_body (InodeBlk b (<[Z.to_nat k := q]> d) r x h) n) in *.
  assert (Hu' : forall g, used N' g = if g =? f then Some n' else used N g).
  { intros g. unfold N'. rewrite (used_upd _ _ n) by done. cbn [n' set_body m_fid]. by rewrite Hf, Z.eqb_refl. }
  assert (Hdir : forall g j, dir_of N' g j = if (g =? f) && (j =? k) then target q else dir_of N g j).
  { intros g j. unfold dir_of. rewrite Hu'. destruct (Z.eqb_spec g f) as [->|]; [|done]. rewrite Hu.
    cbn [mbind option_bind andb]. unfold direct_of. cbn [n' set_body body]. rewrite Hb. cbn [mbind option_bind].
    destruct (Z.eqb_spec j k) as [->|Hne]; [by rewrite aget_insert_eq by lia|by rewrite aget_insert_ne by lia]. }
  split_and!; [|..|done].
  - assert (Hpn : f ∉ m_free_list N).
    { intros Hin. destruct (nw_free _ Hw _ Hin) as (m & Hm' & Em). pose proof (nw_nr _ Hw). pose proof (nw_max _ Hw).
      rewrite Hn in Hm'. injection Hm' as <-. lia. }
    constructor; cbn [N' upd m_nr m_nodes m_free_list].
    + rewrite length_insert. apply Hw.
    + apply Hw.
    + apply Hw.
    + intros g Hg. destruct (nw_free _ Hw g Hg) as (m & Hm' & Em). exists m. split; [|done].
      rewrite aget_insert_ne; [done|set_solver|lia].
    + intros g m Hg. pose proof (aget_bounds _ _ _ Hg). rewrite aget_insert in Hg by lia.
      destruct (Z.eqb_spec f g) as [<-|]; [injection Hg as <-|by apply (nw_fid _ Hw)]. right. split; [done|]. left. split; [done|].
      exists b, (<[Z.to_nat k := q]> d), r, x, h. split_and!; [done|by rewrite length_insert|lia|lia|].
      intros j y Hy. pose proof (aget_bounds _ _ _ Hy). rewrite aget_insert in Hy by lia.
      destruct (Z.eqb_spec k j); [congruence|by eapply Hd].
    + intros g j p. rewrite Hdir, Hu'. destruct ((g =? f) && (j =? k)).
      * intros Ht'. destruct q as [|p'|]; try done. injection Ht' as ->. destruct (Hp p eq_refl) as [(m & Hm' & Em) _].
        destruct (Z.eqb_spec p f) as [->|]; [congruence|by exists m].
      * intros (m & Hm' & Em)%(nw_dir _ Hw). destruct (Z.eqb_spec p f) as [->|]; [congruence|by exists m].
    + intros g j g' j' p. rewrite !Hdir. destruct (Z.eqb_spec g f) as [->|], (Z.eqb_spec j k) as [->|]; cbn [andb];
        destruct (Z.eqb_spec g' f) as [->|], (Z.eqb_spec j' k) as [->|]; cbn [andb]; intros H1 H2; try done;
        try (by apply (nw_inj _ Hw _ _ _ _ _ H1 H2));
        exfalso; (destruct q as [|p'|]; try done); destruct (Hp p' eq_refl) as [_ Hno]; cbn in H1, H2;
        first [injection H1 as ->; exact (Hno _ _ H2) | injection H2 as ->; exact (Hno _ _ H1)].
  - intros g. unfold phy_of. rewrite Hu'. destruct (Z.eqb_spec g f) as [->|]; [|done]. by rewrite Hu.
  - intros p i. unfold ent_of. rewrite Hu'. destruct (Z.eqb_spec p f) as [->|]; [|done]. rewrite Hu.
    cbn [mbind option_bind]. unfold index_of. cbn [n' set_body body]. by rewrite Hb.
Qed.

(** *** Files *)
Record file_at N (f m : Z) : Prop := {
  fa_node : exists n d r x h, used N f = Some n /\ m_type n = NODE_INODE /\ m_phy_blk n <> INVALID_BLK /\
    body n = InodeBlk m d r x h /\ len d = MAX_TABLE_SIZE /\ 0 <= m <= MaxFileSize
}.
Lemma file_at_phy N f m : file_at N f m -> exists b, phy_of N f = Some b.
Proof.
  intros [(n & d & r & x & h & Hu & Ht & Hp & _)]. exists (m_phy_blk n). unfold phy_of. rewrite Hu. cbn.
  rewrite bool_decide_true by done. by destruct (Z.eqb_spec (m_phy_blk n) INVALID_BLK).
Qed.

(** The node table may change as long as the files keep their sizes. *)
Definition keeps_files N N' : Prop := forall f m, file_at N f m -> file_at N' f m.
#[export] Instance keeps_files_preorder : PreOrder keeps_files.
Proof. split; [by intros N f m|]. intros N1 N2 N3 H1 H2 f m Hf. by apply H2, H1. Qed.

(** A change of a node that the maps do not see. *)
Record neutral n n' : Prop := {
  nt_links : same_links n n'; nt_ok : node_ok n'; nt_valid : valid_of n' = valid_of n; nt_blks : blks_of n' = blks_of n
}.
Lemma neutral_same_body n n' : node_ok n -> m_fid n' = m_fid n -> m_type n' = m_type n -> m_phy_blk n' = m_phy_blk n ->
  body n' = body n -> neutral n n'.
Proof.
  intros Hok E1 E2 E3 E4. constructor; [constructor| |..]; try done; unfold direct_of, index_of, valid_of, blks_of, node_ok in *; by rewrite ?E4, ?E2, ?E3.
Qed.
Lemma neutral_counters b d r x h r' x' h' n : node_ok n -> body n = InodeBlk b d r x h ->
  neutral n (set_body (InodeBlk b d r' x' h') n).
Proof.
  intros Hok Hb. assert (Ht : m_type n = NODE_INODE /\ len d = MAX_TABLE_SIZE /\ 0 <= b <= MaxFileSize /\ forall k q, aget d k = Some q -> q <> PWild).
  { destruct Hok as [(Ht & b0 & d0 & r0 & x0 & h0 & Hb' & Hrest)|(_ & _ & ? & ? & ? & _)]; [|congruence].
    rewrite Hb in Hb'. injection Hb' as <- <- <- <- <-. by split. }
  constructor; [constructor; try done|..]; unfold direct_of, index_of, valid_of, blks_of; cbn [set_body body]; rewrite ?Hb; try done.
  destruct Ht as (Ht & H1 & H2 & H3). left. split; [exact Ht|]. exists b, d, r', x', h'. split_and!; [done|done|lia|lia|exact H3].
Qed.

Lemma neutral_step s q f n n' : lfs_wf s q -> used (l_nodes s) f = Some n -> neutral n n' ->
  lfs_wf (set_nodes (upd (l_nodes s) f n') s) q /\ same_maps (l_nodes s) (upd (l_nodes s) f n') /\
  keeps_files (l_nodes s) (upd (l_nodes s) f n').
Proof.
  intros Hw Hu [Hl Hok Hv Hb]. destruct (proj1 (used_Some _ _ _) Hu) as [Hn Hf]. pose proof (lw_nodes _ _ Hw) as HN.
  pose proof (same_links_maps _ _ _ _ Hn Hf Hl) as Hm. pose proof (sl_fid _ _ Hl) as Hfid.
  assert (Hu' : forall g, used (upd (l_nodes s) f n') g = if g =? f then Some n' else used (l_nodes s) g).
  { intros g. rewrite (used_upd _ _ n) by done. by rewrite Hfid, Hf, Z.eqb_refl. }
  split_and!; [|done|].
  - constructor; cbn [set_nodes l_segs l_nodes]; [apply Hw|by eapply same_links_wf|eapply linked_ext; [apply Hw|done|done]|..].
    + intros g k p i b m c. rewrite (sm_dir _ _ Hm), (sm_ent _ _ Hm), Hu'. destruct (Z.eqb_spec g f) as [->|]; [|by apply (lw_sized _ _ Hw)].
      intros H1 H2 [= <-]. rewrite Hb. by eapply (lw_sized _ _ Hw).
    + intros p m v l. rewrite Hu'. destruct (Z.eqb_spec p f) as [->|]; [|by apply (lw_counted _ _ Hw)]. intros [= <-] Hb'.
      assert (exists l0, body n = IndexBlk v l0 /\ l0 = l) as (l0 & Hb0 & ->).
      { pose proof (sl_idx _ _ Hl) as Hi. unfold valid_of in Hv. unfold index_of in Hi. rewrite Hb' in Hv, Hi. destruct (body n); naive_solver. }
      by eapply (lw_counted _ _ Hw).
  - intros g m [(n0 & d & r & x & h & Hu0 & Ht & Hp & Hb0 & Hrest)]. destruct (decide (g = f)) as [->|Hne].
    + assert (n0 = n) as -> by congruence. destruct Hok as [(Ht' & b1 & d1 & r1 & x1 & h1 & Hb1 & Hl1 & Hm1 & _)|(Ht' & _)].
      2:{ rewrite (sl_type _ _ Hl) in Ht'. congruence. }
      assert (b1 = m) as -> by (unfold blks_of in Hb; rewrite Hb1, Hb0 in Hb; congruence).
      constructor. exists n', d1, r1, x1, h1. rewrite Hu', Z.eqb_refl. split_and!; try done; [by rewrite (sl_phy _ _ Hl)|lia|lia].
    + constructor. exists n0, d, r, x, h. rewrite Hu'. by destruct (Z.eqb_spec g f).
Qed.

(** Changes outside the two maps. *)
Lemma lfs_wf_other s t q : lfs_wf s q -> l_segs t = l_segs s -> l_nodes t = l_nodes s -> lfs_wf t q.
Proof. intros [] E1 E2. constructor; rewrite ?E1, ?E2; done. Qed.
Lemma lfs_wf_health s q h : lfs_wf s q -> lfs_wf (set_segs (set_health (Some h) (l_segs s)) s) q.
Proof.
  intros [H1 H2 H3 H4 H5]. constructor; cbn [set_segs l_segs l_nodes]; [by apply wf_health|done| |done|done].
  eapply linked_ext; [exact H3|by apply view_ext|done].
Qed.

Lemma gc_same_file s t f m : nodes_wf (l_nodes t) -> gc_same s t -> file_at (l_nodes s) f m -> file_at (l_nodes t) f m.
Proof.
  intros Hw H [(n & d & r & x & h & Hu & Ht & Hp & Hb & Hl & Hm)]. destruct (sim_used _ _ _ _ H Hu) as (n' & Hu' & Hs).
  destruct Hs as [_ Et _ _ Ep Eb]. rewrite Hb in Eb. cbn in Eb. constructor. exists n', d, r, x, h.
  split_and!; try done; [congruence|by rewrite Ep|lia|lia].
Qed.
End Links.

(** ** The path to a block *)
Section Paths.
Implicit Types (s t : Lfs) (N : CInodeManager) (n : inode_info).
Context (junk : inode_info).

(** The path and the pointer that a loop over the blocks of a file carries. *)
Inductive path_ok N (alloc : bool) (fid o : Z) : index_path * node_ptr -> Prop :=
  | path_start l a b c x y d : l < 0 -> path_ok N alloc fid o (mkPath l [a; b; c] [PNode fid; x; y], d)
  | path_here c y d : d <> PWild -> (alloc = true -> d <> PNull) -> target d = dir_of N fid (o / INDEX_SIZE) ->
      path_ok N alloc fid o (mkPath 1 [o / INDEX_SIZE; o mod INDEX_SIZE; c] [PNode fid; d; y], d).

Lemma path_ok_ext N N' w fid o ip : (forall k, dir_of N' fid k = dir_of N fid k) -> path_ok N w fid o ip -> path_ok N' w fid o ip.
Proof. intros E [l a b c x y d Hl|c y d Hd Hw Ht]; [by apply path_start|]. apply path_here; [done|done|by rewrite E]. Qed.

Lemma file_at_node s fid m : file_at (l_nodes s) fid m -> exists n d r x h, aget (m_nodes (l_nodes s)) fid = Some n /\
  used (l_nodes s) fid = Some n /\ body n = InodeBlk m d r x h /\ len d = MAX_TABLE_SIZE /\ m_type n = NODE_INODE /\ m_phy_blk n <> INVALID_BLK.
Proof.
  intros [(n & d & r & x & h & Hu & Ht & Hp & Hb & Hl & _)]. exists n, d, r, x, h. by pose proof (proj1 (used_Some _ _ _) Hu) as [Hn _].
Qed.

Lemma direct_at_spec s q fid m k (Q : node_ptr -> Lfs -> Prop) E : lfs_wf s q -> file_at (l_nodes s) fid m -> 0 <= k < MAX_TABLE_SIZE ->
  (forall p, p <> PWild -> target p = dir_of (l_nodes s) fid k -> Q p s) -> wp (direct_at (PNode fid) k) Q E s.
Proof.
  intros Hw Hf Hk HQ. destruct (file_at_node _ _ _ Hf) as (n & d & r & x & h & Hn & Hu & Hb & Hl & Ht & _).
  unfold direct_at. apply wp_bind, (wp_node _ _ n); [done|]. eapply wp_bind_opt; [unfold direct_of; by rewrite Hb|].
  destruct (aget_is_Some d k) as [p Hp]; [lia|]. eapply wp_opt; [exact Hp|]. apply HQ.
  - destruct (used_ok _ _ _ (lw_nodes _ _ Hw) Hu) as [[(_ & b0 & d0 & r0 & x0 & h0 & Hb0 & _ & _ & Hd)|(? & _)] _]; [|congruence].
    rewrite Hb in Hb0. injection Hb0 as <- <- <- <- <-. by eapply Hd.
  - unfold dir_of. rewrite Hu. cbn. unfold direct_of. rewrite Hb. cbn. rewrite Hp. by destruct p.
Qed.

Lemma OffsetToIndex_read s q fid m o a b c x y l (Q : index_path -> Lfs -> Prop) E : lfs_wf s q -> file_at (l_nodes s) fid m ->
  0 <= o < MaxFileSize ->
  (forall d, d <> PWild -> target d = dir_of (l_nodes s) fid (o / INDEX_SIZE) ->
     Q (mkPath 1 [o / INDEX_SIZE; o mod INDEX_SIZE; c] [PNode fid; d; y]) s) ->
  wp (OffsetToIndex junk (mkPath l [a; b; c] [PNode fid; x; y]) o false) Q E s.
Proof.
  intros Hw Hf Ho HQ. unfold OffsetToIndex. cbn [path_node aget]. eapply wp_bind_opt; [done|]. apply wp_bind.
  eapply direct_at_spec; [exact Hw|exact Hf| |].
  { unfold MaxFileSize, MAX_TABLE_SIZE, INDEX_SIZE in *. split; [apply Z.div_pos; lia|apply Z.div_lt_upper_bound; lia]. }
  intros d Hd Ht. rewrite andb_false_r. wp_steps. do 3 (eapply wp_bind_opt; [done|]). wp_steps. by apply HQ.
Qed.

(** Only an index node without blocks for the [k]-th entry of a file is new. *)
Record grown s t (fid k : Z) : Prop := {
  gr_segs : l_segs t = l_segs s;
  gr_blk f o : blk_of (l_nodes t) f o = blk_of (l_nodes s) f o;
  gr_files : keeps_files (l_nodes s) (l_nodes t);
  gr_nr : m_nr (l_nodes t) <= m_nr (l_nodes s) + 1024;
  gr_dir g j : ~ (g = fid /\ j = k) -> dir_of (l_nodes t) g j = dir_of (l_nodes s) g j
}.

Lemma alloc_wf s q x n N1 : lfs_wf s q -> allocated (l_nodes s) x n N1 -> (forall v l, body n = IndexBlk v l -> v = index_count l) ->
  lfs_wf (set_nodes N1 s) q /\ keeps_files (l_nodes s) N1.
Proof.
  intros Hw [H1 H2 H3 H4 H5] Hc. split.
  - constructor; cbn [set_nodes l_segs l_nodes]; [apply Hw|done|eapply linked_ext; [apply Hw|done|done]|..].
    + intros f k p i b m c Hd He Hu. rewrite (sm_dir _ _ H4) in Hd. rewrite (sm_ent _ _ H4) in He. rewrite H3 in Hu.
      destruct (Z.eqb_spec f x) as [->|]; [|by eapply (lw_sized _ _ Hw)]. unfold dir_of in Hd. by rewrite H2 in Hd.
    + intros p m v l Hu Hb. rewrite H3 in Hu. destruct (Z.eqb_spec p x) as [->|]; [|by eapply (lw_counted _ _ Hw)].
      injection Hu as <-. by apply Hc.
  - intros f m [(n0 & d & r & y & h & Hu & Hrest)]. constructor. exists n0, d, r, y, h. rewrite H3.
    destruct (Z.eqb_spec f x) as [->|]; [congruence|done].
Qed.

Lemma index_count_none k : index_count (replicate k INVALID_BLK) = 0.
Proof. unfold index_count. induction k as [|k IH]; [done|]. cbn [replicate]. rewrite filter_cons. by destruct (decide _). Qed.

(** Linking a fresh index node. *)
Lemma lfs_link_spec s q fid m k x nx : lfs_wf s q -> file_at (l_nodes s) fid m -> 0 <= k < MAX_TABLE_SIZE ->
  dir_of (l_nodes s) fid k = None -> used (l_nodes s) x = Some nx -> m_type nx = NODE_INDEX ->
  (forall g j, dir_of (l_nodes s) g j <> Some x) -> (forall i, ent_of (l_nodes s) x i = None) ->
  wp (direct_put (PNode fid) k (PNode x))
    (fun _ t => lfs_wf t q /\ l_segs t = l_segs s /\ dir_of (l_nodes t) fid k = Some x /\ keeps_files (l_nodes s) (l_nodes t) /\
       m_nr (l_nodes t) = m_nr (l_nodes s) /\ (forall f o, blk_of (l_nodes t) f o = blk_of (l_nodes s) f o) /\
       forall g j, ~ (g = fid /\ j = k) -> dir_of (l_nodes t) g j = dir_of (l_nodes s) g j)
    (fun _ _ => False) s.
Proof.
  intros Hw Hf Hk Hnone Hux Htx Hno Hent. destruct (file_at_node _ _ _ Hf) as (n & d & r & y & h & Hn & Hu & Hb & Hl & Ht & Hphy).
  unfold direct_put. apply wp_bind, (wp_node _ _ n); [done|]. eapply wp_bind_opt; [unfold direct_of; by rewrite Hb|].
  eapply wp_bind_opt; [apply aset_is_Some; lia|]. eapply wp_node_upd; [exact Hn|]. unfold upd_inode. rewrite Hb.
  set (n' := set_body (InodeBlk m (<[Z.to_nat k := PNode x]> d) r y h) n).
  destruct (dir_put _ fid n m d r y h k (PNode x) (lw_nodes _ _ Hw) Hu Hb) as (HN & Ep & Ee & Ed); [lia|done| |].
  { intros p [= <-]. split; [by exists nx|done]. }
  fold n' in HN, Ep, Ee, Ed. cbn [target] in Ed. destruct (proj1 (used_Some _ _ _) Hu) as [_ Hfid].
  assert (Hu' : forall g, used (upd (l_nodes s) fid n') g = if g =? fid then Some n' else used (l_nodes s) g).
  { intros g. rewrite (used_upd _ _ n) by done. cbn [n' set_body m_fid]. by rewrite Hfid, Z.eqb_refl. }
  split_and!; try done.
  - constructor; cbn [set_nodes l_segs l_nodes]; [apply Hw|done| |..].
    + eapply (linked_dir _ _ (lw_linked _ _ Hw)); [done|done|done|..]; intros g j p; rewrite Ed.
      * intros Hp. destruct (Z.eqb_spec g fid) as [->|], (Z.eqb_spec j k) as [->|]; cbn; try by left. congruence.
      * destruct (Z.eqb_spec g fid) as [->|], (Z.eqb_spec j k) as [->|]; cbn; try by left. intros [= <-]. by right.
    + intros g j p i b m' c. rewrite Ed, Ee, Hu'. destruct (Z.eqb_spec g fid) as [->|]; cbn [andb]; [|by apply (lw_sized _ _ Hw)].
      destruct (Z.eqb_spec j k) as [->|]; [intros [= <-]; by rewrite Hent|]. intros H1 H2 [= <-]. cbn. intros [= <-].
      eapply (lw_sized _ _ Hw); [exact H1|exact H2|exact Hu|]. unfold blks_of. by rewrite Hb.
    + intros p m' v l. rewrite Hu'. destruct (Z.eqb_spec p fid) as [->|]; [|by apply (lw_counted _ _ Hw)]. by intros [= <-].
  - cbn [set_nodes l_nodes]. by rewrite Ed, !Z.eqb_refl.
  - intros g m' [(n0 & d0 & r0 & y0 & h0 & Hu0 & Ht0 & Hp0 & Hb0 & Hl0 & Hm0)]. constructor. destruct (decide (g = fid)) as [->|Hne].
    + assert (n0 = n) as -> by congruence. rewrite Hb in Hb0. injection Hb0 as <- <- <- <- <-.
      exists n', (<[Z.to_nat k := PNode x]> d), r, y, h. cbn [set_nodes l_nodes]. rewrite Hu', Z.eqb_refl.
      split_and!; try done; [by rewrite length_insert|lia|lia].
    + exists n0, d0, r0, y0, h0. cbn [set_nodes l_nodes]. rewrite Hu'. by destruct (Z.eqb_spec g fid).
  - intros f o. unfold blk_of. cbn [set_nodes l_nodes]. rewrite Ed.
    assert (Hsame : (dir_of (l_nodes s) f (o / INDEX_SIZE) ≫= fun p => ent_of (upd (l_nodes s) fid n') p (o mod INDEX_SIZE)) =
      (dir_of (l_nodes s) f (o / INDEX_SIZE) ≫= fun p => ent_of (l_nodes s) p (o mod INDEX_SIZE)))
      by (destruct (dir_of (l_nodes s) f (o / INDEX_SIZE)) as [p|]; [apply Ee|done]).
    destruct (Z.eqb_spec f fid) as [->|]; [|exact Hsame]. destruct (Z.eqb_spec (o / INDEX_SIZE) k) as [E|]; [|exact Hsame].
    cbn [andb mbind option_bind]. rewrite E, Hnone. cbn [mbind option_bind]. by rewrite Ee, Hent.
  - intros g j Hgj. cbn [set_nodes l_nodes]. rewrite Ed. destruct (Z.eqb_spec g fid), (Z.eqb_spec j k); cbn [andb]; try done.
    by destruct Hgj.
Qed.

Lemma OffsetToIndex_write s q fid m o a b c x y l : lfs_wf s q -> file_at (l_nodes s) fid m -> 0 <= o < MaxFileSize ->
  m_nr (l_nodes s) + 1024 < INVALID_BLK ->
  wp (OffsetToIndex junk (mkPath l [a; b; c] [PNode fid; x; y]) o true)
    (fun ip t => exists p, ip = mkPath 1 [o / INDEX_SIZE; o mod INDEX_SIZE; c] [PNode fid; PNode p; y] /\
       lfs_wf t q /\ grown s t fid (o / INDEX_SIZE) /\ dir_of (l_nodes t) fid (o / INDEX_SIZE) = Some p)
    (fun _ _ => False) s.
Proof.
  intros Hw Hf Ho Hmax. set (k := o / INDEX_SIZE).
  assert (Hk : 0 <= k < MAX_TABLE_SIZE).
  { unfold k, MaxFileSize, MAX_TABLE_SIZE, INDEX_SIZE in *. split; [apply Z.div_pos; lia|apply Z.div_lt_upper_bound; lia]. }
  unfold OffsetToIndex. cbn [path_node aget]. eapply wp_bind_opt; [done|]. fold k. apply wp_bind.
  eapply direct_at_spec; [exact Hw|exact Hf|exact Hk|]. intros d Hd Ht.
  destruct d as [|p|]; cbn [is_null andb]; [|wp_steps; do 3 (eapply wp_bind_opt; [done|]); wp_steps; exists p;
    split_and!; [done|done|constructor; [done|done|reflexivity|lia|done]|done]|done].
  cbn [target] in Ht. apply wp_bind_assoc.
  eapply wp_then with (P := fun x0 t => exists n0, allocated (l_nodes s) x0 (init_index x0 (PNode fid) n0) (l_nodes t) /\ t = set_nodes (l_nodes t) s).
  { apply wp_zoom. eapply wp_mono; [apply (lfs_allocate_spec junk (l_nodes s) NODE_INDEX (PNode fid)); [apply Hw|done|done]| |done].
    intros x0 N' (n0 & Hal). exists n0. by destruct s. }
  intros x0 t (n0 & Hal & Et). destruct (alloc_wf _ _ _ _ _ Hw Hal) as [Hw1 Hk1].
  { intros v l0 Hb. cbn [init_index body] in Hb. assert (v = 0 /\ l0 = replicate (Z.to_nat INDEX_SIZE) INVALID_BLK) as [-> ->] by (split; congruence).
    by rewrite index_count_none. }
  rewrite <- Et in Hw1. destruct Hal as [H1 H2 H3 H4 H5].
  assert (Hux : used (l_nodes t) x0 = Some (init_index x0 (PNode fid) n0)) by by rewrite H3, Z.eqb_refl.
  destruct (proj1 (used_Some _ _ _) Hux) as [Hnx _]. apply wp_bind_assoc, wp_bind. eapply wp_node_upd; [exact Hnx|].
  set (nx := set_parent_offset k _).
  destruct (neutral_step t q x0 _ nx Hw1 Hux) as (Hw2 & Hm2 & Hk2).
  { apply neutral_same_body; try done. by destruct (used_ok _ _ _ H1 Hux). }
  set (t2 := set_nodes (upd (l_nodes t) x0 nx) t) in *.
  assert (Hux2 : used (l_nodes t2) x0 = Some nx) by (cbn; rewrite (used_upd _ _ _ nx _ Hnx), Z.eqb_refl; cbn; by rewrite Z.eqb_refl).
  assert (Hm : same_maps (l_nodes s) (l_nodes t2)) by (etransitivity; [exact H4|exact Hm2]).
  assert (Hkeep : keeps_files (l_nodes s) (l_nodes t2)) by (etransitivity; [exact Hk1|exact Hk2]).
  apply wp_bind_assoc. eapply wp_then.
  { eapply (lfs_link_spec t2 q fid m k x0 nx); [exact Hw2|by apply Hkeep|exact Hk|by rewrite (sm_dir _ _ Hm)|exact Hux2|done|..].
    - intros g j. rewrite (sm_dir _ _ Hm). intros (n1 & Hn1 & _)%(nw_dir _ (lw_nodes _ _ Hw)). congruence.
    - intros i. rewrite (sm_ent _ _ Hm). unfold ent_of. by rewrite H2. }
  intros _ t3 (Hw3 & Es3 & Ed3 & Hk3 & Enr & Eb3 & Eo3).
  assert (Hf3 : file_at (l_nodes t3) fid m) by (apply Hk3, Hkeep, Hf).
  destruct (file_at_node _ _ _ Hf3) as (n3 & d3 & r3 & y3 & h3 & Hn3 & Hu3 & Hb3 & _).
  apply wp_bind_assoc, wp_bind. eapply wp_node_upd; [exact Hn3|]. wp_steps. do 3 (eapply wp_bind_opt; [done|]). wp_steps.
  destruct (neutral_step t3 q fid n3 (set_dirty true n3) Hw3 Hu3) as (Hw4 & Hm4 & Hk4).
  { apply neutral_same_body; try done. by destruct (used_ok _ _ _ (lw_nodes _ _ Hw3) Hu3). }
  exists x0. split_and!; [done|done| |cbn; by rewrite (sm_dir _ _ Hm4)]. constructor; cbn [set_nodes l_segs l_nodes upd m_nr].
  - rewrite Es3. cbn. by rewrite Et.
  - intros f o'. by rewrite (same_maps_blk _ _ _ _ Hm4), Eb3, (same_maps_blk _ _ _ _ Hm).
  - etransitivity; [exact Hkeep|]. by etransitivity.
  - rewrite Enr. cbn. lia.
  - intros g j Hgj. by rewrite (sm_dir _ _ Hm4), Eo3, (sm_dir _ _ Hm).
Qed.
End Paths.
