(* ===== verification/LfsWrite.v ===== *)
(** LfsWrite: the loop of [FileWrite] of the log-structured simulator adds the
    blocks it is given to the file and keeps everything else. *)
From S2P Require Export LfsFiles.

Section Write.
Implicit Types (s t : Lfs) (N : CInodeManager) (n : inode_info).

Lemma INDEX_split o : o = o / INDEX_SIZE * INDEX_SIZE + o mod INDEX_SIZE /\ 0 <= o mod INDEX_SIZE < INDEX_SIZE.
Proof. pose proof (Z.div_mod o INDEX_SIZE ltac:(done)). pose proof (Z.mod_pos_bound o INDEX_SIZE ltac:(done)). lia. Qed.

(** *** The path *)
Lemma NextOffset_spec s N w fid o c y d (Q : index_path -> Lfs -> Prop) E :
  d <> PWild -> (w = true -> d <> PNull) -> target d = dir_of N fid (o / INDEX_SIZE) ->
  (forall ip, path_ok N w fid (o + 1) (ip, d) -> Q ip s) ->
  wp (NextOffset (mkPath 1 [o / INDEX_SIZE; o mod INDEX_SIZE; c] [PNode fid; d; y])) Q E s.
Proof.
  intros Hd Hw Ht HQ. unfold NextOffset. cbn [path_offset path_node level]. do 2 (eapply wp_bind_opt; [done|]).
  pose proof (INDEX_split o) as [Eo Ho]. destruct (Z.leb_spec INDEX_SIZE (o mod INDEX_SIZE + 1)).
  - eapply wp_bind_opt; [done|]. wp_steps. apply HQ. by apply path_start.
  - wp_steps. apply HQ.
    assert (E1 : (o + 1) / INDEX_SIZE = o / INDEX_SIZE) by (symmetry; apply (Z.div_unique _ _ _ (o mod INDEX_SIZE + 1)); lia).
    assert (E2 : (o + 1) mod INDEX_SIZE = o mod INDEX_SIZE + 1) by (symmetry; apply (Z.mod_unique _ _ (o / INDEX_SIZE)); lia).
    pose proof (path_here N w fid (o + 1) c y d Hd Hw) as Hp. rewrite E1, E2 in Hp. by apply Hp.
Qed.

Lemma grown_refl s fid k : grown s s fid k.
Proof. constructor; [done|done|reflexivity|lia|done]. Qed.

Lemma path_step_write junk s q fid m o ip : lfs_wf s q -> file_at (l_nodes s) fid m -> 0 <= o < MaxFileSize ->
  m_nr (l_nodes s) + 1024 < INVALID_BLK -> path_ok (l_nodes s) true fid o ip ->
  wp (path_step junk true ip o)
    (fun ip' t => exists p c y, ip' = (mkPath 1 [o / INDEX_SIZE; o mod INDEX_SIZE; c] [PNode fid; PNode p; y], PNode p) /\
       lfs_wf t q /\ grown s t fid (o / INDEX_SIZE) /\ dir_of (l_nodes t) fid (o / INDEX_SIZE) = Some p)
    (fun _ _ => False) s.
Proof.
  intros Hw Hf Ho Hmax [l a b c x y d Hl|c y d Hd Hn Ht]; unfold path_step; cbn [level].
  - rewrite (proj2 (Z.ltb_lt _ _) Hl). eapply wp_then; [by eapply OffsetToIndex_write|].
    intros ip' t (p & -> & Hrest). cbn [path_node level]. eapply wp_bind_opt; [done|]. wp_steps. by exists p, c, y.
  - cbn. destruct d as [|p|]; [by destruct Hn|cbn in Ht|done]. wp_steps. exists p, c, y. split_and!; [done|done|apply grown_refl|done].
Qed.

(** *** One block *)
Lemma index_at_spec s q p n (Q : Z -> Lfs -> Prop) E i : lfs_wf s q -> used (l_nodes s) p = Some n -> m_type n = NODE_INDEX ->
  0 <= i < INDEX_SIZE ->
  (forall v l b, body n = IndexBlk v l -> len l = INDEX_SIZE -> aget l i = Some b ->
     ent_of (l_nodes s) p i = (if b =? INVALID_BLK then None else Some b) -> Q b s) ->
  wp (index_at (PNode p) i) Q E s.
Proof.
  intros Hw Hu Ht Hi HQ. destruct (used_ok _ _ _ (lw_nodes _ _ Hw) Hu) as [[(? & _)|(_ & _ & v & l & Hb & Hl)] _]; [congruence|].
  destruct (proj1 (used_Some _ _ _) Hu) as [Hn _]. destruct (aget_is_Some l i) as [b Hbi]; [lia|].
  unfold index_at. apply wp_bind, (wp_node _ _ n); [done|]. eapply wp_bind_opt; [unfold index_of; by rewrite Hb|].
  eapply wp_opt; [exact Hbi|]. eapply HQ; [done|done|done|]. unfold ent_of. rewrite Hu. cbn. unfold index_of. rewrite Hb. cbn. by rewrite Hbi.
Qed.

Lemma INVALID_PHY_BLOCK_spec s q b x : mgr_wf (l_segs s) q -> view (l_segs s) b = Some x ->
  wp (INVALID_PHY_BLOCK b)
    (fun f t => exists q', mgr_wf (l_segs t) q' /\ l_nodes t = l_nodes s /\ stable (l_segs s) (l_segs t) /\
       (forall c, view (l_segs t) c = if c =? b then None else view (l_segs s) c) /\
       f = alone (l_segs s) b /\ cell (l_segs t) b = Some (if f then block_ff else TypedInvalidBlock x))
    (fun _ _ => False) s.
Proof.
  intros Hw Hv. destruct (view_addr _ _ _ _ Hw Hv) as (_ & _ & Hne & _). unfold INVALID_PHY_BLOCK.
  rewrite (proj2 (Z.eqb_neq _ _) Hne). apply wp_bind, wp_zoom. eapply wp_mono; [by eapply lfs_InvalidBlock_spec| |done].
  intros f g (q' & Hg & Hvg & Hst & Hf & Hc). wp_steps. by exists q'.
Qed.

(** The state in which the new block is written and its entry is not yet set. *)
Definition unlinked s (b : Z) (x : LFS_BLOCK_INFO) (old : option Z) t : Prop := exists q',
  mgr_wf (l_segs t) q' /\ stable (l_segs s) (l_segs t) /\ 0 <= b < INVALID_BLK /\ view (l_segs s) b = None /\
  forall c, view (l_segs t) c = if c =? b then Some x else if bool_decide (old = Some c) then None else view (l_segs s) c.

(** Overwriting a block. *)
Lemma rewrite_old_spec s q fid k p i old : lfs_wf s q -> dir_of (l_nodes s) fid k = Some p -> ent_of (l_nodes s) p i = Some old ->
  wp (rewrite_block old)
    (fun b t => l_nodes t = l_nodes s /\ exists x, is_data x fid k p i /\ unlinked s b x (Some old) t)
    (fun e t => e = ERR_APP /\ exists q', lfs_wf t q') s.
Proof.
  intros Hw Hd He. destruct (lk_ent _ _ (lw_linked _ _ Hw) _ _ _ _ _ Hd He) as (x & Hv & Hx). unfold rewrite_block.
  apply wp_bind. eapply wp_on_segs_runs; [eapply get_block_runs; [apply Hw|exact Hv]|].
  apply wp_bind, wp_zoom. eapply wp_mono; [eapply lfs_put_block_spec; [apply Hw|exact Hv|]| |done].
  { cbn. eapply view_live in Hv. exact Hv. }
  intros [] g (Hg & Hst & Hvg).
  assert (Hw1 : lfs_wf (set_segs g s) q).
  { constructor; cbn [set_segs l_segs l_nodes]; [done|apply Hw| |apply Hw|apply Hw].
    eapply (linked_touch _ _ (lw_linked _ _ Hw)); [exact Hv|apply key_host|done|reflexivity]. }
  apply wp_bind, wp_zoom. eapply wp_mono; [eapply lfs_WriteBlockToSeg_spec; [exact Hg|]| |].
  { cbn. eapply view_live in Hv. exact Hv. }
  2:{ intros e t (-> & ->). split; [done|]. exists q. exact Hw1. }
  intros b1 g2 (q2 & Hg2 & Hst2 & Hb1 & Hnone & Hvg2 & _). set (s2 := set_segs g2 _).
  assert (Hob : old <> b1) by (intros ->; rewrite Hvg, Z.eqb_refl in Hnone; done).
  apply wp_bind. eapply wp_mono; [eapply (INVALID_PHY_BLOCK_spec s2 q2 old (inc_host x)); [exact Hg2|]| |done].
  { cbn. rewrite Hvg2, Hvg, Z.eqb_refl. by destruct (Z.eqb_spec old b1). }
  intros f t (q3 & Hg3 & En & Hst3 & Hv3 & _). wp_steps. destruct (mw_health _ _ Hg3) as [h Hh].
  eapply wp_bind_opt; [exact Hh|]. apply wp_bind.
  assert (Hres : forall u, l_segs u = l_segs t -> l_nodes u = l_nodes t ->
    l_nodes u = l_nodes s /\ exists x, is_data x fid k p i /\ unlinked s b1 x (Some old) u).
  { intros u E1 E2. split; [by rewrite E2, En|]. exists (inc_media (inc_host x)). split.
    { eapply same_key_data; [apply key_media|]. eapply same_key_data; [apply key_host|done]. }
    exists q3. rewrite E1. split_and!; [done| |lia|lia| |].
    - etransitivity; [exact Hst|]. etransitivity; [exact Hst2|]. exact Hst3.
    - rewrite Hvg in Hnone. by destruct (Z.eqb_spec b1 old).
    - intros c. rewrite Hv3. cbn [s2 set_segs l_segs]. rewrite Hvg2, Hvg. destruct (Z.eqb_spec c old) as [->|Hc].
      + destruct (Z.eqb_spec old b1); [done|]. by rewrite bool_decide_true.
      + destruct (Z.eqb_spec c b1); [done|]. rewrite bool_decide_false; [done|congruence]. }
  apply wp_when; intros _; wp_steps; by apply Hres.
Qed.

(** A block that the file did not have. *)
Lemma write_new_spec s q fid k p i n v l a nb : lfs_wf s q -> 0 <= fid < INVALID_BLK ->
  dir_of (l_nodes s) fid k = Some p -> used (l_nodes s) p = Some n -> body n = IndexBlk v l ->
  0 <= k < MAX_TABLE_SIZE -> 0 <= i < INDEX_SIZE -> sat (l_segs s) = Some (a, nb) -> 0 <= a < 2 ^ 31 -> 10 * (a + 1) < 9 * nb ->
  wp (new_block fid (PNode p) i (k * INDEX_SIZE + i))
    (fun b t => l_nodes t = upd (l_nodes s) p (set_body (IndexBlk ((v + 1) mod 2 ^ 64) l) n) /\
       exists x q', is_data x fid k p i /\ mgr_wf (l_segs t) q' /\ m_seg_nr (l_segs t) = m_seg_nr (l_segs s) /\
         m_gc_lo (l_segs t) = m_gc_lo (l_segs s) /\ sat (l_segs t) = Some (a + 1, nb) /\
         0 <= b < INVALID_BLK /\ view (l_segs s) b = None /\
         forall c, view (l_segs t) c = if c =? b then Some x else view (l_segs s) c)
    (fun e t => e = ERR_APP /\ exists q', lfs_wf t q') s.
Proof.
  intros Hw Hfid Hd Hu Hb Hk Hi Hsat Ha Hsmall. unfold new_block. cbv zeta. set (x := inc_host _).
  apply wp_bind, wp_zoom. eapply wp_mono; [eapply lfs_WriteBlockToSeg_spec; [apply Hw|]| |].
  { unfold x. cbn. apply negb_true_iff, Z.eqb_neq. lia. }
  2:{ intros e t (-> & ->). split; [done|]. exists q. by rewrite lfs_set_segs_id. }
  intros b1 g (q' & Hg & Hst & Hb1 & Hnone & Hvg & _). destruct (proj1 (used_Some _ _ _) Hu) as [Hn _].
  apply wp_bind. unfold valid_add. apply wp_bind, (wp_node _ _ n); [done|].
  eapply wp_bind_opt; [unfold valid_of; by rewrite Hb|]. eapply wp_node_upd; [exact Hn|]. unfold upd_index. rewrite Hb.
  destruct (mw_health _ _ Hg) as [h Hh]. apply wp_bind, wp_zoom. cbn [set_nodes set_segs l_segs].
  unfold health. wp_steps. eapply wp_bind_opt; [exact Hh|]. change (wp (put ?t) ?Q ?E ?s) with (Q tt t). cbv beta. wp_steps.
  eapply wp_bind_opt; [done|]. pose proof (st_sat _ _ Hst) as Es. rewrite Hsat in Es. unfold sat in Es. rewrite Hh in Es. injection Es as Ea Enb.
  cbn [m_logical_blk_nr m_logical_saturation h_logical]. rewrite Ea, Enb, w32_small by lia.
  destruct (Z.leb_spec (9 * nb) (10 * (a + 1))); [lia|]. wp_steps. cbn [set_segs set_nodes l_nodes l_segs]. split; [done|].
  exists (inc_media x), q'. split_and!; try done; try lia.
  - by apply wf_health.
  - apply (st_nr _ _ Hst).
  - apply (st_lo _ _ Hst).
  - unfold sat. cbn. by rewrite Ea, Enb, w32_small by lia.
Qed.

(** *** The entry of the block *)
Lemma index_count_insert l i b c : aget l i = Some c -> b <> INVALID_BLK ->
  index_count (<[Z.to_nat i := b]> l) = index_count l + (if c =? INVALID_BLK then 1 else 0).
Proof.
  intros Hc Hb. pose proof (aget_bounds _ _ _ Hc) as Hi. apply aget_Some in Hc as [_ Hc]. unfold index_count.
  rewrite <- (take_drop_middle _ _ _ Hc) at 2. rewrite insert_take_drop by lia.
  rewrite !filter_app, !length_app, !filter_cons. rewrite (decide_True (P := b <> INVALID_BLK)) by done.
  destruct (Z.eqb_spec c INVALID_BLK); [rewrite decide_False by naive_solver|rewrite decide_True by done]; cbn [length]; lia.
Qed.
Lemma index_count_le l : 0 <= index_count l <= len l.
Proof. unfold index_count. pose proof (length_filter (fun b => b <> INVALID_BLK) l). lia. Qed.

(** What a written block changes. *)
Record wrote s t (fid o : Z) : Prop := {
  wr_files : keeps_files (l_nodes s) (l_nodes t);
  wr_blk g o' : blk_of (l_nodes t) g o' = None <-> blk_of (l_nodes s) g o' = None /\ ~ (g = fid /\ o' = o);
  wr_nr : m_nr (l_nodes t) <= m_nr (l_nodes s) + 1024;
  wr_lo : m_gc_lo (l_segs t) = m_gc_lo (l_segs s);
  wr_segs : m_seg_nr (l_segs t) = m_seg_nr (l_segs s);
  wr_dir g j : ~ (g = fid /\ j = o / INDEX_SIZE) -> dir_of (l_nodes t) g j = dir_of (l_nodes s) g j
}.

Section Commit.
Context (s : Lfs) (q : list Z) (fid m o p : Z) (n : inode_info) (v : Z) (l : list Z) (old b v' : Z) (u : Lfs) (q' : list Z) (x : LFS_BLOCK_INFO).
Context (Hw : lfs_wf s q) (Hf : file_at (l_nodes s) fid m) (Ho : 0 <= o < m).
Context (Hd : dir_of (l_nodes s) fid (o / INDEX_SIZE) = Some p) (Hu : used (l_nodes s) p = Some n) (Ht : m_type n = NODE_INDEX).
Context (Hb : body n = IndexBlk v l) (Hl : len l = INDEX_SIZE) (Hold : aget l (o mod INDEX_SIZE) = Some old).
Context (Hbv : 0 <= b < INVALID_BLK) (Hnone : view (l_segs s) b = None) (Hx : is_data x fid (o / INDEX_SIZE) p (o mod INDEX_SIZE)).
Context (Hm : mgr_wf (l_segs u) q') (Hv' : v' = v + (if old =? INVALID_BLK then 1 else 0)).
Context (Hview : forall c, view (l_segs u) c = if c =? b then Some x else
   if bool_decide (old <> INVALID_BLK /\ c = old) then None else view (l_segs s) c).
Context (Hnodes : l_nodes u = upd (l_nodes s) p (set_body (IndexBlk v' (<[Z.to_nat (o mod INDEX_SIZE) := b]> l)) n)).

Lemma commit_maps :
  nodes_wf (l_nodes u) /\ (forall g, phy_of (l_nodes u) g = phy_of (l_nodes s) g) /\
  (forall g k, dir_of (l_nodes u) g k = dir_of (l_nodes s) g k) /\
  (forall r j, ent_of (l_nodes u) r j = if (r =? p) && (j =? o mod INDEX_SIZE) then Some b else ent_of (l_nodes s) r j) /\
  forall g, used (l_nodes u) g = if g =? p then Some (set_body (IndexBlk v' (<[Z.to_nat (o mod INDEX_SIZE) := b]> l)) n) else used (l_nodes s) g.
Proof using All.
  rewrite Hnodes. destruct (ent_upd _ _ _ v v' l (o mod INDEX_SIZE) b (lw_nodes _ _ Hw) Hu Hb) as (H1 & H2 & H3 & H4).
  { pose proof (INDEX_split o). lia. }
  rewrite (proj2 (Z.eqb_neq b INVALID_BLK)) in H4 by lia. split_and!; try done.
  intros g. destruct (proj1 (used_Some _ _ _) Hu) as [Hn Hfid]. rewrite (used_upd _ _ n) by done. cbn. by rewrite Hfid, Z.eqb_refl.
Qed.

Lemma commit_wf : lfs_wf u q'.
Proof using All.
  destruct commit_maps as (H1 & H2 & H3 & H4 & H5). pose proof (INDEX_split o) as [Eo Hi].
  assert (He : ent_of (l_nodes s) p (o mod INDEX_SIZE) = if old =? INVALID_BLK then None else Some old).
  { unfold ent_of. rewrite Hu. cbn. unfold index_of. rewrite Hb. cbn. by rewrite Hold. }
  constructor; [done|done| |..].
  - destruct (Z.eqb_spec old INVALID_BLK) as [Eold|Eold].
    + eapply (linked_add_data _ _ (lw_linked _ _ Hw)); [exact Hnone| |apply Hw|exact Hx|exact Hd|exact He|done..].
      intros c. rewrite Hview. rewrite (bool_decide_false (old <> INVALID_BLK /\ c = old)); [done|naive_solver].
    + destruct (lk_ent _ _ (lw_linked _ _ Hw) _ _ _ _ _ Hd He) as (y & Hy & Hyd).
      eapply (linked_move_data _ _ (lw_linked _ _ Hw) _ _ old b y x); [exact Hy|exact Hnone| | |apply Hw|exact Hd|exact He|done..].
      * destruct Hyd as [A1 A2 A3 A4 _ _], Hx as [B1 B2 B3 B4 _ _]. constructor; congruence.
      * intros c. rewrite Hview. destruct (Z.eqb_spec c b); [done|]. destruct (Z.eqb_spec c old) as [->|Hc];
          [rewrite bool_decide_true by done; done|rewrite bool_decide_false; [done|naive_solver]].
  - intros g k r i c n1 m1 Hd1 He1 Hu1 Hm1. rewrite H3 in Hd1. rewrite H4 in He1. rewrite H5 in Hu1.
    destruct (Z.eqb_spec g p) as [->|Hgp].
    { unfold dir_of in Hd1. rewrite Hu in Hd1. cbn in Hd1. unfold direct_of in Hd1. by rewrite Hb in Hd1. }
    destruct (Z.eqb_spec r p) as [->|]; cbn [andb] in He1; [|by eapply (lw_sized _ _ Hw)].
    destruct (Z.eqb_spec i (o mod INDEX_SIZE)) as [->|]; [|by eapply (lw_sized _ _ Hw)].
    destruct (nw_inj _ (lw_nodes _ _ Hw) _ _ _ _ _ Hd Hd1) as [<- <-].
    destruct (file_at_node _ _ _ Hf) as (n2 & d & r & y & h & _ & Hu2 & Hb2 & _). rewrite Hu2 in Hu1. injection Hu1 as <-.
    unfold blks_of in Hm1. rewrite Hb2 in Hm1. injection Hm1 as <-. lia.
  - intros g n1 w l1 Hu1 Hb1. rewrite H5 in Hu1. destruct (Z.eqb_spec g p) as [->|]; [|by eapply (lw_counted _ _ Hw)].
    injection Hu1 as <-. cbn in Hb1. injection Hb1 as <- <-. rewrite (index_count_insert _ _ _ _ Hold) by lia.
    rewrite Hv'. f_equal. by eapply (lw_counted _ _ Hw).
Qed.

Lemma commit_wrote : keeps_files (l_nodes s) (l_nodes u) /\
  forall g o', blk_of (l_nodes u) g o' = None <-> blk_of (l_nodes s) g o' = None /\ ~ (g = fid /\ o' = o).
Proof using All.
  destruct commit_maps as (H1 & H2 & H3 & H4 & H5). pose proof (INDEX_split o) as [Eo Hi]. split.
  - intros g k [(n0 & d & r & y & h & Hu0 & Ht0 & Hrest)]. constructor. exists n0, d, r, y, h. rewrite H5.
    destruct (Z.eqb_spec g p) as [->|]; [congruence|done].
  - intros g o'. pose proof (INDEX_split o') as [Eo' Hi']. unfold blk_of. rewrite H3.
    destruct (dir_of (l_nodes s) g (o' / INDEX_SIZE)) as [r|] eqn:Er; cbn [mbind option_bind].
    + rewrite H4. destruct (Z.eqb_spec r p) as [->|Hr]; cbn [andb].
      * destruct (nw_inj _ (lw_nodes _ _ Hw) _ _ _ _ _ Hd Er) as [<- Ek].
        destruct (Z.eqb_spec (o' mod INDEX_SIZE) (o mod INDEX_SIZE)) as [Em|Em].
        -- assert (o' = o) as -> by congruence. naive_solver.
        -- split; [|by intros [? _]]. intros Hn. split; [done|]. intros [_ ->]. done.
      * split; [|by intros [? _]]. intros Hn. split; [done|]. intros [-> ->]. congruence.
    + split; [|done]. intros _. split; [done|]. intros [-> ->]. congruence.
Qed.
End Commit.

(** *** The loop body *)
Lemma wp_health s h f (Q : unit -> Lfs -> Prop) E : m_health (l_segs s) = Some h ->
  Q tt (set_segs (set_health (Some (f h)) (l_segs s)) s) -> wp (on_segs (health f)) Q E s.
Proof. intros H HQ. apply wp_zoom. unfold health. wp_steps. by eapply wp_bind_opt. Qed.

Lemma set_body_id n : set_body (body n) n = n.
Proof. by destruct n. Qed.
Lemma upd_id N p n : aget (m_nodes N) p = Some n -> upd N p n = N.
Proof.
  intros [_ H]%aget_Some. unfold upd. rewrite list_insert_id by done. by destruct N.
Qed.
Lemma upd_upd N p n n' : upd (upd N p n) p n' = upd N p n'.
Proof. unfold upd. cbn. by rewrite list_insert_insert_eq. Qed.

Lemma inode_set_spec s q fid m (f : Z -> list node_ptr -> Z -> bool -> Z -> node_body) : lfs_wf s q -> file_at (l_nodes s) fid m ->
  (forall d r x h, exists r' x' h', f m d r x h = InodeBlk m d r' x' h') ->
  wp (inode_set (PNode fid) f)
    (fun _ t => lfs_wf t q /\ l_segs t = l_segs s /\ same_maps (l_nodes s) (l_nodes t) /\ keeps_files (l_nodes s) (l_nodes t) /\
       m_nr (l_nodes t) = m_nr (l_nodes s)) (fun _ _ => False) s.
Proof.
  intros Hw Hf Hc. destruct (file_at_node _ _ _ Hf) as (n & d & r & x & h & Hn & Hu & Hb & _).
  unfold inode_set. apply wp_bind, (wp_node _ _ n); [done|]. eapply wp_bind_opt; [unfold blks_of; by rewrite Hb|].
  eapply wp_node_upd; [exact Hn|]. unfold upd_inode. rewrite Hb. destruct (Hc d r x h) as (r' & x' & h' & ->).
  destruct (used_ok _ _ _ (lw_nodes _ _ Hw) Hu) as [Hok _].
  by destruct (neutral_step s q fid n _ Hw Hu (neutral_counters _ _ _ _ _ r' x' h' _ Hok Hb)) as (H1 & H2 & H3).
Qed.

Lemma link_block_spec s q fid m o p n v l old b v' u q' x c y :
  lfs_wf s q -> file_at (l_nodes s) fid m -> 0 <= o < m -> dir_of (l_nodes s) fid (o / INDEX_SIZE) = Some p ->
  used (l_nodes s) p = Some n -> m_type n = NODE_INDEX -> body n = IndexBlk v l -> len l = INDEX_SIZE ->
  aget l (o mod INDEX_SIZE) = Some old -> 0 <= b < INVALID_BLK -> view (l_segs s) b = None ->
  is_data x fid (o / INDEX_SIZE) p (o mod INDEX_SIZE) -> mgr_wf (l_segs u) q' ->
  v' = v + (if old =? INVALID_BLK then 1 else 0) ->
  (forall c, view (l_segs u) c = if c =? b then Some x else
     if bool_decide (old <> INVALID_BLK /\ c = old) then None else view (l_segs s) c) ->
  l_nodes u = upd (l_nodes s) p (set_body (IndexBlk v' l) n) -> roomy u ->
  wp (link_block fid (PNode fid) (PNode p) (mkPath 1 [o / INDEX_SIZE; o mod INDEX_SIZE; c] [PNode fid; PNode p; y]) (o mod INDEX_SIZE) o b)
    (fun ip t => exists q1, lfs_wf t q1 /\ stable (l_segs u) (l_segs t) /\ path_ok (l_nodes t) true fid (o + 1) ip /\
       keeps_files (l_nodes s) (l_nodes t) /\ m_nr (l_nodes t) = m_nr (l_nodes s) /\
       (forall g k, dir_of (l_nodes t) g k = dir_of (l_nodes s) g k) /\
       forall g o', blk_of (l_nodes t) g o' = None <-> blk_of (l_nodes s) g o' = None /\ ~ (g = fid /\ o' = o))
    (fun e t => e = ERR_APP /\ exists q1, lfs_wf t q1) u.
Proof.
  intros Hw Hf Ho Hd Hu Ht Hb Hl Hold Hbv Hnone Hx Hm Hv' Hview Hnodes Hroom.
  destruct (proj1 (used_Some _ _ _) Hu) as [Hn Hfid]. pose proof (aget_bounds _ _ _ Hn) as Hpb.
  set (n1 := set_body (IndexBlk v' l) n) in *. set (n2 := set_body (IndexBlk v' (<[Z.to_nat (o mod INDEX_SIZE) := b]> l)) n).
  assert (Hn1 : aget (m_nodes (l_nodes u)) p = Some n1) by (rewrite Hnodes; by apply aget_insert_eq).
  unfold link_block. wp_steps. destruct (mw_health _ _ Hm) as [h Hh]. eapply wp_bind_opt; [exact Hh|].
  destruct (aget_is_Some (m_cur_segs (l_segs u)) BT_HOT__DATA) as [cs Hcs]; [rewrite (mw_curlen _ _ Hm); done|].
  eapply wp_bind_opt; [exact Hcs|].
  eapply wp_then with (P := fun _ t => l_segs t = l_segs u /\ l_nodes t = l_nodes u); [by apply wp_when; intros _|].
  intros _ u1 [Es1 En1]. unfold track. wp_steps. apply wp_bind. set (u2 := set_io _ u1).
  eapply (wp_index_put u2 p n1 v' l); [cbn; by rewrite En1|done|pose proof (INDEX_split o); lia|].
  set (u3 := set_nodes _ u2).
  assert (En3 : l_nodes u3 = upd (l_nodes s) p n2) by (cbn; by rewrite En1, Hnodes, upd_upd).
  assert (Es3 : l_segs u3 = l_segs u) by done.
  assert (Hm3 : mgr_wf (l_segs u3) q') by (by rewrite Es3).
  assert (Hview3 : forall c, view (l_segs u3) c = if c =? b then Some x else
     if bool_decide (old <> INVALID_BLK /\ c = old) then None else view (l_segs s) c) by (by rewrite Es3).
  pose proof (commit_wf _ _ _ _ _ _ _ _ _ _ _ _ _ _ _ Hw Hf Ho Hd Hu Ht Hb Hl Hold Hbv Hnone Hx Hm3 Hv' Hview3 En3) as Hw3.
  destruct (commit_wrote _ _ _ _ _ _ _ _ _ _ _ _ _ _ _ Hw Hf Ho Hd Hu Ht Hb Hl Hold Hbv Hnone Hx Hm3 Hv' Hview3 En3) as [Hk3 Hb3].
  destruct (commit_maps _ _ _ _ _ _ _ _ _ _ _ _ _ _ _ Hw Hf Ho Hd Hu Ht Hb Hl Hold Hbv Hnone Hx Hm3 Hv' Hview3 En3) as (_ & _ & Hd3 & _ & Hu3).
  assert (Hup : used (l_nodes u3) p = Some n2) by (by rewrite Hu3, Z.eqb_refl).
  destruct (proj1 (used_Some _ _ _) Hup) as [Hn2 _]. apply wp_bind. eapply wp_node_upd; [exact Hn2|].
  destruct (neutral_step u3 q' p n2 (set_dirty true n2) Hw3 Hup) as (Hw4 & Hm4 & Hk4).
  { apply neutral_same_body; try done. by destruct (used_ok _ _ _ (lw_nodes _ _ Hw3) Hup). }
  set (u4 := set_nodes (upd (l_nodes u3) p (set_dirty true n2)) u3) in *.
  assert (Hr4 : roomy u4) by (unfold roomy in *; cbn; by rewrite Es1).
  apply wp_bind. eapply wp_mono; [by eapply CheckGarbageCollection_spec| |by intros e t [-> (q1 & Hw1 & _)]; split; [done|exists q1]].
  intros [] t (q1 & Hw1 & Hs1).
  assert (Hdir : forall g k, dir_of (l_nodes t) g k = dir_of (l_nodes s) g k).
  { intros g k. rewrite (gc_same_dir _ _ _ _ Hs1). cbn [u4 set_nodes l_nodes]. by rewrite (sm_dir _ _ Hm4), Hd3. }
  assert (Hkt : keeps_files (l_nodes s) (l_nodes t)).
  { intros g k Hg. eapply gc_same_file; [apply Hw1|exact Hs1|]. by apply Hk4, Hk3. }
  apply wp_bind. eapply (NextOffset_spec _ (l_nodes t) true); [done|done|cbn; by rewrite Hdir|].
  intros ip Hip. eapply wp_then; [eapply (inode_set_spec t q1 fid m); [exact Hw1|by apply Hkt|by intros; do 3 eexists]|].
  intros _ t5 (Hw5 & Es5 & Hm5 & Hk5 & Enr5). wp_steps. exists q1. split_and!.
  - done.
  - rewrite Es5. etransitivity; [|apply (gs_stable _ _ Hs1)]. cbn. by rewrite Es1.
  - eapply path_ok_ext; [|exact Hip]. intros k. apply (sm_dir _ _ Hm5).
  - by etransitivity.
  - rewrite Enr5, (gs_nr _ _ Hs1). cbn. by rewrite En1, Hnodes.
  - intros g k. by rewrite (sm_dir _ _ Hm5).
  - intros g o'. rewrite (same_maps_blk _ _ _ _ Hm5), (gc_same_blk _ _ _ _ Hs1). cbn [u4 set_nodes l_nodes].
    rewrite (same_maps_blk _ _ _ _ Hm4). apply Hb3.
Qed.
End Write.
