(* ===== verification/LfsOps.v ===== *)
(** LfsOps: the operations of the log-structured simulator on files. *)
From S2P Require Export LfsWrite.

Section Ops.
Implicit Types (s t : Lfs) (N : CInodeManager) (n : inode_info).
Context (junk : inode_info).

(** ** Writing *)
Lemma write_block_spec s q fid m o ip a nb : lfs_wf s q -> roomy s -> file_at (l_nodes s) fid m -> 0 <= o < m ->
  m_nr (l_nodes s) + 1024 < INVALID_BLK -> path_ok (l_nodes s) true fid o ip ->
  sat (l_segs s) = Some (a, nb) -> 0 <= a < 2 ^ 31 -> 10 * (a + 1) < 9 * nb ->
  wp (write_block junk fid (PNode fid) ip o)
    (fun ip' t => exists q' a', lfs_wf t q' /\ roomy t /\ wrote s t fid o /\ path_ok (l_nodes t) true fid (o + 1) ip' /\
       sat (l_segs t) = Some (a', nb) /\ a <= a' <= a + 1)
    (fun e t => e = ERR_APP /\ exists q', lfs_wf t q') s.
Proof.
  intros Hw Hr Hf Ho Hmax Hip Hsat Ha Hsmall.
  assert (HoM : 0 <= o < MaxFileSize) by (destruct Hf as [(? & ? & ? & ? & ? & _ & _ & _ & _ & _ & ?)]; lia).
  unfold write_block. eapply wp_then; [by eapply path_step_write|].
  intros ip1 t1 (p & c & y & -> & Hw1 & Hg & Hd). cbn [path_offset level]. eapply wp_bind_opt; [done|].
  destruct (nw_dir _ (lw_nodes _ _ Hw1) _ _ _ Hd) as (n & Hu & Ht). pose proof (INDEX_split o) as [Eo Hi].
  destruct (mw_health _ _ (lw_segs _ _ Hw1)) as [h Hh]. apply wp_bind. eapply wp_health; [exact Hh|].
  set (t2 := set_segs _ t1). assert (Hw2 : lfs_wf t2 q) by by apply lfs_wf_health.
  assert (Hf2 : file_at (l_nodes t2) fid m) by by apply (gr_files _ _ _ _ Hg).
  assert (Hst2 : stable (l_segs s) (l_segs t2)).
  { rewrite <- (gr_segs _ _ _ _ Hg). constructor; try done. unfold sat. cbn. by rewrite Hh. }
  assert (Hsat2 : sat (l_segs t2) = Some (a, nb)) by by rewrite (st_sat _ _ Hst2).
  apply wp_bind. eapply (index_at_spec t2 q p n); [exact Hw2|exact Hu|exact Ht|exact Hi|].
  intros v l old Hb Hl Hold He.
  assert (Hv : v = index_count l) by (eapply (lw_counted _ _ Hw2); [exact Hu|exact Hb]).
  destruct (proj1 (used_Some _ _ _) Hu) as [Hn Hpf].
  assert (Hwrap : forall t, stable (l_segs t2) (l_segs t) \/ (m_gc_lo (l_segs t) = m_gc_lo (l_segs t2) /\ m_seg_nr (l_segs t) = m_seg_nr (l_segs t2)) ->
    keeps_files (l_nodes t2) (l_nodes t) -> m_nr (l_nodes t) = m_nr (l_nodes t2) ->
    (forall g k, dir_of (l_nodes t) g k = dir_of (l_nodes t2) g k) ->
    (forall g o', blk_of (l_nodes t) g o' = None <-> blk_of (l_nodes t2) g o' = None /\ ~ (g = fid /\ o' = o)) ->
    roomy t /\ wrote s t fid o).
  { intros t Hst Hk Enr Hdir Hblk.
    assert (Elo : m_gc_lo (l_segs t) = m_gc_lo (l_segs s) /\ m_seg_nr (l_segs t) = m_seg_nr (l_segs s)).
    { destruct Hst2 as [E1 E2 _ _], Hst as [[E3 E4 _ _]|[E3 E4]]; split; congruence. }
    destruct Elo as [E1 E2]. split; [unfold roomy in *; lia|]. constructor; [|..|done|done|].
    - etransitivity; [apply Hg|exact Hk].
    - intros g o'. rewrite Hblk. cbn [t2 set_segs l_nodes]. by rewrite (gr_blk _ _ _ _ Hg).
    - rewrite Enr. apply (gr_nr _ _ _ _ Hg).
    - intros g j Hgj. rewrite Hdir. by apply (gr_dir _ _ _ _ Hg). }
  apply wp_bind. destruct (Z.eqb_spec old INVALID_BLK) as [->|Eold]; cbn [negb].
  - assert (Hfid : 0 <= fid < INVALID_BLK).
    { destruct (file_at_node _ _ _ Hf2) as (nf & _ & _ & _ & _ & _ & Huf & _). by eapply used_ok; [apply Hw2|]. }
    assert (Hk : 0 <= o / INDEX_SIZE < MAX_TABLE_SIZE).
    { unfold MaxFileSize, MAX_TABLE_SIZE, INDEX_SIZE in *. split; [apply Z.div_pos; lia|apply Z.div_lt_upper_bound; lia]. }
    pose proof (write_new_spec t2 q fid _ p _ n v l a nb Hw2 Hfid Hd Hu Hb Hk Hi Hsat2 Ha Hsmall) as Hnew. rewrite <- Eo in Hnew.
    eapply wp_mono; [exact Hnew| |done].
    intros b t3 (En3 & x & q3 & Hx & Hm3 & E1 & E2 & Hsat3 & Hbv & Hnone & Hvw).
    pose proof (index_count_le l) as Hcl. rewrite Z.mod_small in En3 by (rewrite Hv; unfold INDEX_SIZE in *; lia).
    eapply wp_mono; [eapply (link_block_spec t2 q fid m o p n v l INVALID_BLK b (v + 1) t3 q3 x); try done| |done].
    + unfold roomy in *. rewrite E1, E2. destruct Hst2 as [E3 E4 _ _]. lia.
    + intros ip' t (q4 & Hw4 & Hst4 & Hp4 & Hk4 & Enr4 & Hd4 & Hb4). exists q4, (a + 1).
      destruct (Hwrap t) as [Hrt Hwr]; [right; destruct Hst4 as [E5 E6 _ _]; split; congruence|done..|].
      split_and!; [done|done|done|done|by rewrite (st_sat _ _ Hst4)|lia|lia].
  - eapply wp_mono; [eapply (rewrite_old_spec t2 q fid _ p _ old Hw2 Hd He)| |done].
    intros b t3 (En3 & x & Hx & q3 & Hm3 & Hst3 & Hbv & Hnone & Hvw).
    eapply wp_mono; [eapply (link_block_spec t2 q fid m o p n v l old b v t3 q3 x); try done| |done].
    + rewrite (proj2 (Z.eqb_neq _ _) Eold). lia.
    + intros c'. rewrite Hvw. destruct (c' =? b); [done|]. destruct (decide (c' = old)) as [->|Hc];
        [by rewrite !bool_decide_true|by rewrite !bool_decide_false by naive_solver].
    + rewrite En3, <- Hb, set_body_id, upd_id by done. done.
    + unfold roomy in *. destruct Hst2 as [E3 E4 _ _], Hst3 as [E5 E6 _ _]. lia.
    + intros ip' t (q4 & Hw4 & Hst4 & Hp4 & Hk4 & Enr4 & Hd4 & Hb4). exists q4, a.
      destruct (Hwrap t) as [Hrt Hwr]; [left; by etransitivity|done..|].
      split_and!; [done|done|done|done|by rewrite (st_sat _ _ Hst4), (st_sat _ _ Hst3)|lia|lia].
Qed.

(** *** A range of blocks *)
(** No index node is empty. *)
Definition tight N : Prop := forall f k p, dir_of N f k = Some p -> exists o, o / INDEX_SIZE = k /\ blk_of N f o <> None.

Lemma wrote_tight s t fid o : wrote s t fid o -> tight (l_nodes s) -> tight (l_nodes t).
Proof.
  intros Hw Ht f k p Hd. destruct (decide (f = fid /\ k = o / INDEX_SIZE)) as [[-> ->]|Hne].
  - exists o. split; [done|]. intros H%(wr_blk _ _ _ _ Hw). by destruct H as [_ []].
  - rewrite (wr_dir _ _ _ _ Hw) in Hd by done. destruct (Ht _ _ _ Hd) as (o' & Eo & Hb). exists o'. split; [done|].
    intros H%(wr_blk _ _ _ _ Hw). by destruct H.
Qed.

(** What writing the blocks from [a] to [b] changes. *)
Record wrote_range s t (fid a b : Z) : Prop := {
  rr_files : keeps_files (l_nodes s) (l_nodes t);
  rr_blk g o : blk_of (l_nodes t) g o = None <-> blk_of (l_nodes s) g o = None /\ ~ (g = fid /\ a <= o < b);
  rr_nr : m_nr (l_nodes t) <= m_nr (l_nodes s) + 1024 * (b - a);
  rr_tight : tight (l_nodes s) -> tight (l_nodes t)
}.

Lemma wrote_range_refl s fid a : wrote_range s s fid a a.
Proof. constructor; [reflexivity| |lia|done]. intros. split; [|by intros []]. intros. split; [done|lia]. Qed.
Lemma wrote_range_step s t u fid a b : a <= b -> wrote_range s t fid a b -> wrote t u fid b -> wrote_range s u fid a (b + 1).
Proof.
  intros Hab Hr Hw. constructor.
  - etransitivity; [apply Hr|apply Hw].
  - intros g o. rewrite (wr_blk _ _ _ _ Hw), (rr_blk _ _ _ _ _ Hr). split.
    + intros [[H1 H2] H3]. split; [done|]. intros [-> Ho]. destruct (decide (o = b)); [by apply H3|apply H2; split; [done|lia]].
    + intros [H1 H2]. split_and!; [done|intros [-> Ho]; apply H2; split; [done|lia]|intros [-> ->]; apply H2; split; [done|lia]].
  - pose proof (rr_nr _ _ _ _ _ Hr). pose proof (wr_nr _ _ _ _ Hw). lia.
  - intros H. eapply wrote_tight; [exact Hw|by apply (rr_tight _ _ _ _ _ Hr)].
Qed.

(** Room for [k] more blocks: segments, node numbers and logical blocks. *)
Record room s (k : Z) : Prop := {
  ro_segs : roomy s;
  ro_nodes : m_nr (l_nodes s) + 1024 * k < INVALID_BLK;
  ro_sat : exists a nb, sat (l_segs s) = Some (a, nb) /\ 0 <= a /\ a + k <= 2 ^ 31 /\ 10 * (a + k) < 9 * nb
}.
Lemma room_less s k k' : room s k -> k' <= k -> room s k'.
Proof. intros [H1 H2 (a & nb & H3 & H4 & H5 & H6)] Hk. constructor; [done|lia|]. exists a, nb. split_and!; [done|lia..]. Qed.
(** Room depends on the counters only. *)
Lemma room_stable s t k d : room s (k + d) -> stable (l_segs s) (l_segs t) -> 0 <= d -> m_nr (l_nodes t) <= m_nr (l_nodes s) + 1024 * d -> room t k.
Proof.
  intros [H1 H2 (a & nb & H3 & H4 & H5 & H6)] [E1 E2 _ E4] Hd Hnr. constructor; [unfold roomy in *; lia|lia|].
  exists a, nb. rewrite E4. split_and!; [done|lia..].
Qed.

Lemma write_blocks_spec s q fid m a b k ip : lfs_wf s q -> room s (k + (b - a)) -> file_at (l_nodes s) fid m -> 0 <= a <= b -> b <= m -> 0 <= k ->
  ip.1 = InitIndexPath (PNode fid) ->
  wp (mfold (range a b) ip (write_block junk fid (PNode fid)))
    (fun _ t => (exists q', lfs_wf t q') /\ room t k /\ wrote_range s t fid a b)
    (fun e t => e = ERR_APP /\ exists q', lfs_wf t q') s.
Proof.
  intros Hw [Hr Hmax (sa & nb & Hsat & Hsa & Hsa31 & Hsmall)] Hf Ha Hb Hk Hip.
  set (Inv := fun i (ip : index_path * node_ptr) t => exists q' sa', lfs_wf t q' /\ roomy t /\ wrote_range s t fid a i /\
    path_ok (l_nodes t) true fid i ip /\ sat (l_segs t) = Some (sa', nb) /\ sa <= sa' <= sa + (i - a)).
  eapply wp_mono with (Q := Inv b) (E := fun e t => e = ERR_APP /\ exists q', lfs_wf t q');
    [apply wp_fold_range; [lia| |]|intros ip' t (q' & sa' & H1 & H2 & H3 & _ & H4 & H5)|done].
  - destruct ip as [ip d]. cbn in Hip. subst ip. exists q, sa. split_and!; [done|done|apply wrote_range_refl| |done|lia|lia]. by apply path_start.
  - intros i ip' t Hi (q' & sa' & Hw' & Hr' & Hwr & Hip' & Hsat' & Hsa'). pose proof (rr_nr _ _ _ _ _ Hwr) as Hnr.
    assert (Hf' : file_at (l_nodes t) fid m) by (by apply (rr_files _ _ _ _ _ Hwr)).
    eapply wp_mono; [eapply (write_block_spec t q' fid m i ip' sa' nb); done || lia| |done].
    intros ip2 u (q2 & a2 & Hw2 & Hr2 & Hwo & Hip2 & Hsat2 & Ha2). exists q2, a2.
    split_and!; [done|done|by eapply wrote_range_step; [lia| |]|done|done|lia|lia].
  - pose proof (rr_nr _ _ _ _ _ H3). split; [by exists q'|]. split; [|done]. constructor; [done|lia|]. exists sa', nb. split_and!; [done|lia..].
Qed.

(** *** The size of a file *)
Lemma file_size_spec s q fid m e : lfs_wf s q -> file_at (l_nodes s) fid m -> m <= e <= MaxFileSize ->
  wp (inode_set (PNode fid) (fun _ d r x h => InodeBlk e d r x h))
    (fun _ t => lfs_wf t q /\ l_segs t = l_segs s /\ same_maps (l_nodes s) (l_nodes t) /\ file_at (l_nodes t) fid e /\
       m_nr (l_nodes t) = m_nr (l_nodes s) /\ forall g k, g <> fid -> file_at (l_nodes s) g k -> file_at (l_nodes t) g k)
    (fun _ _ => False) s.
Proof.
  intros Hw Hf He. destruct (file_at_node _ _ _ Hf) as (n & d & r & x & h & Hn & Hu & Hb & Hl & Ht & Hp).
  unfold inode_set. apply wp_bind, (wp_node _ _ n); [done|]. eapply wp_bind_opt; [unfold blks_of; by rewrite Hb|].
  eapply wp_node_upd; [exact Hn|]. unfold upd_inode. rewrite Hb. set (n' := set_body _ n).
  destruct (proj1 (used_Some _ _ _) Hu) as [_ Hfid]. destruct (used_ok _ _ _ (lw_nodes _ _ Hw) Hu) as [Hok _].
  destruct Hok as [(_ & b0 & d0 & r0 & x0 & h0 & Hb0 & _ & Hm0 & Hd0)|(? & _)]; [|congruence].
  rewrite Hb in Hb0. injection Hb0 as <- <- <- <- <-.
  assert (Hok' : node_ok n') by (left; split; [exact Ht|]; exists e, d, r, x, h; split_and!; [done|done|lia|lia|done]).
  assert (Hs : same_links n n') by (constructor; try done; unfold direct_of, index_of; cbn; by rewrite Hb).
  pose proof (same_links_maps _ _ _ _ Hn Hfid Hs) as Hm.
  assert (Hu' : forall g, used (upd (l_nodes s) fid n') g = if g =? fid then Some n' else used (l_nodes s) g).
  { intros g. rewrite (used_upd _ _ n) by done. cbn. by rewrite Hfid, Z.eqb_refl. }
  split_and!; [|done|done| |done|].
  - constructor; cbn [set_nodes l_segs l_nodes]; [apply Hw|by eapply same_links_wf; [apply Hw|..]|eapply linked_ext; [apply Hw|done|done]|..].
    + intros g k p i b n1 c. rewrite (sm_dir _ _ Hm), (sm_ent _ _ Hm), Hu'. destruct (Z.eqb_spec g fid) as [->|]; [|by apply (lw_sized _ _ Hw)].
      intros H1 H2 [= <-]. cbn. intros [= <-]. enough (k * INDEX_SIZE + i < m) by lia.
      eapply (lw_sized _ _ Hw); [exact H1|exact H2|exact Hu|]. unfold blks_of. by rewrite Hb.
    + intros p n1 v l. rewrite Hu'. destruct (Z.eqb_spec p fid) as [->|]; [|by apply (lw_counted _ _ Hw)]. by intros [= <-].
  - constructor. exists n', d, r, x, h. cbn [set_nodes l_nodes]. rewrite Hu', Z.eqb_refl. split_and!; try done; lia.
  - intros g k Hg [(n1 & d1 & r1 & x1 & h1 & Hu1 & Hrest)]. constructor. exists n1, d1, r1, x1, h1. cbn [set_nodes l_nodes].
    rewrite Hu'. by destruct (Z.eqb_spec g fid).
Qed.
End Ops.
