(* ===== verification/LfsSync.v ===== *)
(** LfsSync: the end of a write of the log-structured simulator.  [UpdateInode]
    passes over the index nodes and writes the node of the file. *)
From S2P Require Export LfsOps.

(** Like [wp], with the states in which a computation loses its meaning. *)
Definition wpf {S A} (m : M S A) (Q : A -> S -> Prop) (E : exn -> S -> Prop) (F : S -> Prop) (s : S) : Prop :=
  match m s with
  | (Ret a, t) => Q a t
  | (Throw e, t) => E e t
  | (Fault, t) => F t
  end.
Section Wpf.
Context {S : Type}.
Lemma wp_wpf {A} (m : M S A) Q E F s : wp m Q E s -> wpf m Q E F s.
Proof. unfold wp, wpf. by destruct (m s) as [[a|e|] t]. Qed.
Lemma wpf_wp {A} (m : M S A) Q E s : wpf m Q E (fun _ => False) s -> wp m Q E s.
Proof. done. Qed.
Lemma wpf_bind {A B} (m : M S A) (k : A -> M S B) Q E F s :
  wpf m (fun a t => wpf (k a) Q E F t) E F s -> wpf (bind m k) Q E F s.
Proof. unfold wpf, bind. by destruct (m s) as [[a|e|] t]. Qed.
Lemma wpf_then {A B} (m : M S A) (k : A -> M S B) (P : A -> S -> Prop) Q (E : exn -> S -> Prop) F s :
  wp m P E s -> (forall a t, P a t -> wpf (k a) Q E F t) -> wpf (bind m k) Q E F s.
Proof. intros H K. apply wpf_bind, wp_wpf. revert H. unfold wp. destruct (m s) as [[a|e|] t]; [apply K|done|done]. Qed.
Lemma wpf_mono {A} (m : M S A) (Q Q' : A -> S -> Prop) (E E' : exn -> S -> Prop) (F F' : S -> Prop) s :
  wpf m Q E F s -> (forall a t, Q a t -> Q' a t) -> (forall e t, E e t -> E' e t) -> (forall t, F t -> F' t) -> wpf m Q' E' F' s.
Proof. unfold wpf. destruct (m s) as [[a|e|] t]; eauto. Qed.
Lemma wpf_assoc {A B C} (m : M S A) (k : A -> M S B) (j : B -> M S C) Q E F s :
  wpf (bind m (fun a => bind (k a) j)) Q E F s -> wpf (bind (bind m k) j) Q E F s.
Proof. unfold wpf, bind. by destruct (m s) as [[a|e|] t]. Qed.
Lemma wpf_regroup {A B C D} (m : M S A) (a : A -> M S B) (c : M S C) (k : A -> M S D) Q E F s :
  wpf (bind (bind m (fun x => bind (a x) (fun _ => bind c (fun _ => ret x)))) k) Q E F s ->
  wpf (bind m (fun x => bind (a x) (fun _ => bind c (fun _ => k x)))) Q E F s.
Proof.
  unfold wpf, bind, ret. destruct (m s) as [[x|e|] t]; [|done|done]. destruct (a x t) as [[y|e|] t']; [|done|done].
  by destruct (c t') as [[z|e|] t''].
Qed.
End Wpf.

Section Sync.
Implicit Types (s t : Lfs) (N : CInodeManager) (n : inode_info).

(** *** The index nodes *)
Lemma index_count_pos l i b : aget l i = Some b -> b <> INVALID_BLK -> 0 < index_count l.
Proof.
  intros [_ Hb]%aget_Some Hne. unfold index_count.
  assert (Hin : b ∈ filter (fun b => b <> INVALID_BLK) l) by (apply list_elem_of_filter; split; [done|by eapply list_elem_of_lookup_2]).
  destruct (filter _ l); [by apply not_elem_of_nil in Hin|cbn [length]; lia].
Qed.

Lemma tight_count s q fid k p n v l : lfs_wf s q -> tight (l_nodes s) -> dir_of (l_nodes s) fid k = Some p ->
  used (l_nodes s) p = Some n -> body n = IndexBlk v l -> 0 < v.
Proof.
  intros Hw Ht Hd Hu Hb. destruct (Ht _ _ _ Hd) as (o & <- & Hblk). unfold blk_of in Hblk. rewrite Hd in Hblk. cbn in Hblk.
  unfold ent_of in Hblk. rewrite Hu in Hblk. cbn in Hblk. unfold index_of in Hblk. rewrite Hb in Hblk. cbn in Hblk.
  rewrite (lw_counted _ _ Hw _ _ _ _ Hu Hb). destruct (aget l (o mod INDEX_SIZE)) as [b|] eqn:Eb; cbn in Hblk; [|done].
  destruct (Z.eqb_spec b INVALID_BLK); [done|]. by eapply index_count_pos.
Qed.

Lemma update_index_spec s q fid m k : lfs_wf s q -> tight (l_nodes s) -> file_at (l_nodes s) fid m -> 0 <= k < MAX_TABLE_SIZE ->
  wp (update_index (PNode fid) k) (fun _ t => t = s) (fun _ _ => False) s.
Proof.
  intros Hw Ht Hf Hk. unfold update_index. apply wp_bind. eapply direct_at_spec; [done|exact Hf|done|].
  intros [|p|] Hp Htg; cbn [is_null target] in *; [by wp_steps| |done]. symmetry in Htg.
  destruct (nw_dir _ (lw_nodes _ _ Hw) _ _ _ Htg) as (n & Hu & Hty). destruct (proj1 (used_Some _ _ _) Hu) as [Hn Hpf].
  destruct (used_ok _ _ _ (lw_nodes _ _ Hw) Hu) as [[(? & _)|(_ & Hphy & v & l & Hb & Hl)] Hpr]; [congruence|].
  pose proof (tight_count _ _ _ _ _ _ _ _ Hw Ht Htg Hu Hb) as Hv.
  apply wp_bind. eapply wp_node; [exact Hn|]. rewrite Hphy, Z.eqb_refl. cbn [negb]. apply wp_bind.
  unfold WriteInode. cbn [page_read]. wp_steps. cbn [nid set_parent block_info]. rewrite Hpf. apply wp_bind.
  eapply wp_get_node; [exact Hn|]. rewrite Hpf, (proj2 (Z.eqb_neq p INVALID_BLK)) by lia.
  apply wp_bind. eapply wp_node; [exact Hn|]. destruct (m_dirty n); cbn [negb]; [|by wp_steps].
  rewrite Hty. rewrite (bool_decide_true (NODE_INDEX = NODE_INDEX)) by done. wp_steps.
  eapply wp_bind_opt; [unfold valid_of; by rewrite Hb|]. wp_steps. rewrite (proj2 (Z.eqb_neq v 0)) by lia. by wp_steps.
Qed.

(** *** The node of the file *)
Lemma get_cell (g : Segs) b x : b <> INVALID_BLK -> cell g b = Some x -> runs (get_block b) g x g.
Proof.
  intros Hb Hc. unfold cell in Hc. destruct (aget (m_segments g) (b / BLOCK_PER_SEG)) as [sg|] eqn:Hg; [|done]. cbn in Hc.
  unfold runs, get_block, BlockToSeg. rewrite (proj2 (Z.eqb_neq _ _) Hb). unfold seg_at, bind, get. rewrite Hg. cbn [opt ret]. by rewrite Hc.
Qed.

(** What writing a node leaves. *)
Record synced s t : Prop := {
  sy_files : keeps_files (l_nodes s) (l_nodes t);
  sy_blk f o : blk_of (l_nodes t) f o = None <-> blk_of (l_nodes s) f o = None;
  sy_dir f k : dir_of (l_nodes t) f k = dir_of (l_nodes s) f k;
  sy_nr : m_nr (l_nodes t) = m_nr (l_nodes s);
  sy_stable : stable (l_segs s) (l_segs t)
}.
Lemma synced_refl s : synced s s.
Proof. by constructor. Qed.
Lemma synced_trans s t u : synced s t -> synced t u -> synced s u.
Proof.
  intros [A1 A2 A3 A4 A5] [B1 B2 B3 B4 B5]. constructor; [by etransitivity| | |congruence|by etransitivity].
  - intros f o. by rewrite B2, A2.
  - intros f k. by rewrite B3, A3.
Qed.
Lemma synced_maps s t : same_maps (l_nodes s) (l_nodes t) -> keeps_files (l_nodes s) (l_nodes t) -> m_nr (l_nodes t) = m_nr (l_nodes s) ->
  stable (l_segs s) (l_segs t) -> synced s t.
Proof.
  intros Hm Hk Hn Hs. constructor; [done| |apply Hm|done|done]. intros f o. by rewrite (same_maps_blk _ _ _ _ Hm).
Qed.
Lemma synced_gc s t : nodes_wf (l_nodes t) -> gc_same s t -> synced s t.
Proof.
  intros Hw Hs. constructor.
  - intros f m. by apply gc_same_file.
  - intros f o. by apply gc_same_blk.
  - intros f k. by apply gc_same_dir.
  - apply Hs.
  - apply Hs.
Qed.
Lemma synced_tight s t : synced s t -> tight (l_nodes s) -> tight (l_nodes t).
Proof.
  intros Hs Ht f k p. rewrite (sy_dir _ _ Hs). intros (o & Eo & Hb)%Ht. exists o. by rewrite (sy_blk _ _ Hs).
Qed.
Lemma synced_roomy s t : synced s t -> roomy s -> roomy t.
Proof. intros [_ _ _ _ [E1 E2 _ _]] H. unfold roomy in *. lia. Qed.

(** The block of a node is written again and its old block dropped. *)
Lemma rewrite_node_spec s q fid m n b : lfs_wf s q -> file_at (l_nodes s) fid m -> used (l_nodes s) fid = Some n -> m_phy_blk n = b ->
  exists x, view (l_segs s) b = Some x /\ is_node x fid /\
  wp (new_blk <- on_segs (WriteBlockToSeg x BT_HOT__DATA) ;;
      node_upd (PNode fid) (set_phy new_blk) ;;; INVALID_PHY_BLOCK b ;;; ret new_blk)
    (fun _ t => exists q', lfs_wf t q' /\ synced s t /\
       cell (l_segs t) b = Some (if alone (l_segs s) b then block_ff else TypedInvalidBlock x))
    (fun e t => e = ERR_APP /\ exists q', lfs_wf t q') s.
Proof.
  intros Hw Hf Hu Hb. destruct (file_at_node _ _ _ Hf) as (n0 & d & r & y & h & Hn & Hu0 & Hbody & Hl & Ht & Hp).
  assert (n0 = n) as -> by congruence. assert (Hphy : phy_of (l_nodes s) fid = Some b).
  { unfold phy_of. rewrite Hu. cbn. rewrite bool_decide_true by done. rewrite (proj2 (Z.eqb_neq _ _) Hp). by rewrite <- Hb. }
  destruct (lk_phy _ _ (lw_linked _ _ Hw) _ _ Hphy) as (x & Hv & Hx). exists x. split_and!; [done|done|].
  apply wp_bind, wp_zoom. eapply wp_mono; [eapply lfs_WriteBlockToSeg_spec; [apply Hw|]| |].
  { cbn. eapply view_live in Hv. exact Hv. }
  2:{ intros e t (-> & ->). rewrite lfs_set_segs_id. split; [done|by exists q]. }
  intros b1 g (q1 & Hg & Hst & Hb1 & Hnone & Hvg & Hal). apply wp_bind. eapply wp_node_upd; [exact Hn|].
  assert (Hne : b <> b1) by congruence. set (s1 := set_nodes _ _).
  assert (Hv1 : view (l_segs s1) b = Some x) by (cbn; rewrite Hvg; by destruct (Z.eqb_spec b b1)).
  apply wp_bind. eapply wp_mono; [eapply (INVALID_PHY_BLOCK_spec s1 q1 b x); [exact Hg|exact Hv1]| |done].
  intros f t (q2 & Hg2 & En & Hst2 & Hv2 & -> & Hc). wp_steps. exists q2.
  destruct (phy_upd _ _ _ b1 (lw_nodes _ _ Hw) Hu Ht) as (HN & E1 & E2 & E3); [lia|].
  cbn [s1 set_nodes set_segs l_segs l_nodes] in En, Hst2, Hv2, Hc. rewrite (Hal _ _ Hv) in Hc.
  destruct (proj1 (used_Some _ _ _) Hu) as [_ Hfid].
  assert (Hu' : forall g', used (upd (l_nodes s) fid (set_phy b1 n)) g' = if g' =? fid then Some (set_phy b1 n) else used (l_nodes s) g').
  { intros g'. rewrite (used_upd _ _ n) by done. cbn. by rewrite Hfid, Z.eqb_refl. }
  assert (Hblk : forall f o, blk_of (upd (l_nodes s) fid (set_phy b1 n)) f o = blk_of (l_nodes s) f o).
  { intros f o. unfold blk_of. rewrite E2. destruct (dir_of (l_nodes s) f (o / INDEX_SIZE)); [apply E3|done]. }
  split_and!; [|constructor; rewrite ?En|done].
  - constructor; rewrite ?En; [done|done| |..].
    + eapply (linked_move_node _ _ (lw_linked _ _ Hw)) with (b := b) (b1 := b1) (x := x) (x' := inc_media x) (f := fid);
        [exact Hv|exact Hnone|apply key_media| |exact Hphy|done..].
      intros c. rewrite Hv2, Hvg. destruct (Z.eqb_spec c b) as [->|]; [by destruct (Z.eqb_spec b b1)|done].
    + intros g' k p i c n1 m1 Hd1 He1. rewrite E2 in Hd1. rewrite E3 in He1. rewrite Hu'. destruct (Z.eqb_spec g' fid) as [->|].
      * intros [= <-] Hm1. by eapply (lw_sized _ _ Hw).
      * by eapply (lw_sized _ _ Hw).
    + intros p n1 v l. rewrite Hu'. destruct (Z.eqb_spec p fid) as [->|]; [|by apply (lw_counted _ _ Hw)].
      intros [= <-]. cbn. congruence.
  - intros g' k [(n1 & d1 & r1 & y1 & h1 & Hu1 & Ht1 & Hp1 & Hrest)]. constructor. destruct (decide (g' = fid)) as [->|Hgf].
    + assert (n1 = n) as -> by congruence. exists (set_phy b1 n), d1, r1, y1, h1. rewrite Hu', Z.eqb_refl. split_and!; try done; cbn; try lia; by destruct Hrest.
    + exists n1, d1, r1, y1, h1. rewrite Hu'. by destruct (Z.eqb_spec g' fid).
  - intros f o. by rewrite Hblk.
  - done.
  - done.
  - by etransitivity.
Qed.

(** A dirty node whose block is the last valid one of a full segment: the segment
    is freed, and its block is read after that. *)
Definition orphaned s (fid : Z) : bool :=
  match used (l_nodes s) fid with
  | Some n => m_dirty n && alone (l_segs s) (m_phy_blk n)
  | None => false
  end.

Lemma WriteInode_spec s q fid m n b : lfs_wf s q -> roomy s -> file_at (l_nodes s) fid m -> used (l_nodes s) fid = Some n ->
  m_phy_blk n = b ->
  wpf (WriteInode (InSeg b))
    (fun _ t => (exists q', lfs_wf t q') /\ synced s t /\ orphaned s fid = false)
    (fun e t => e = ERR_APP /\ exists q', lfs_wf t q') (fun _ => orphaned s fid = true) s.
Proof.
  intros Hw Hr Hf Hu Hb. unfold orphaned. rewrite Hu, Hb.
  destruct (file_at_node _ _ _ Hf) as (n0 & d & r & y & h & Hn & Hu0 & Hbody & Hl & Ht & Hp).
  assert (n0 = n) as -> by congruence. destruct (used_ok _ _ _ (lw_nodes _ _ Hw) Hu) as [_ Hfr].
  destruct (proj1 (used_Some _ _ _) Hu) as [_ Hfid].
  destruct (rewrite_node_spec _ _ _ _ _ _ Hw Hf Hu Hb) as (x & Hv & Hx & Hrw).
  unfold WriteInode. cbn [page_read].
  eapply (wpf_then _ _ (fun a t => a = x /\ t = s)); [eapply wp_on_segs_runs; [eapply get_block_runs; [apply Hw|exact Hv]|done]|].
  intros _ _ [-> ->]. rewrite (in_nid _ _ Hx).
  eapply (wpf_then _ _ (fun a t => a = PNode fid /\ t = s)).
  { eapply wp_get_node; [exact Hn|]. by rewrite Hfid, (proj2 (Z.eqb_neq fid INVALID_BLK)) by lia. }
  intros _ _ [-> ->]. eapply (wpf_then _ _ (fun a t => a = n /\ t = s)); [by eapply wp_node|]. intros _ _ [-> ->].
  destruct (m_dirty n) eqn:Hdirty; cbn [negb andb].
  2:{ apply wp_wpf. wp_steps. split_and!; [by exists q|apply synced_refl|done]. }
  rewrite Ht. rewrite (bool_decide_false (NODE_INODE = NODE_INDEX)), (bool_decide_true (NODE_INODE = NODE_INODE)) by done.
  apply wpf_bind, wp_wpf. wp_steps. rewrite Hb. apply wpf_regroup.
  eapply wpf_then; [exact Hrw|]. intros new t (q1 & Hw1 & Hs1 & Hc).
  destruct (view_addr _ _ _ _ (lw_segs _ _ Hw) Hv) as (_ & _ & Hbi & _).
  eapply (wpf_then _ _ (fun a t' => a = (if alone (l_segs s) b then block_ff else TypedInvalidBlock x) /\ t' = t)).
  { eapply wp_on_segs_runs; [by apply get_cell|done]. }
  intros _ _ [-> ->]. destruct (alone (l_segs s) b); cbn [parent block_ff TypedInvalidBlock LFS_BLOCK_TYPE is_null negb when].
  { done. }
  apply (sy_files _ _ Hs1) in Hf as Hf1. destruct (file_at_node _ _ _ Hf1) as (n1 & d1 & r1 & y1 & h1 & Hn1 & Hu1 & _).
  apply wp_wpf. wp_steps. apply wp_bind. eapply wp_node; [exact Hn1|]. unfold track. wp_steps.
  set (t1 := set_io _ t). assert (Hw1' : lfs_wf t1 q1) by by apply (lfs_wf_other t).
  apply wp_bind. eapply wp_mono; [eapply CheckGarbageCollection_spec; [exact Hw1'|by apply (synced_roomy s t Hs1)]| |].
  2:{ intros e u (-> & q2 & Hw2 & _). split; [done|by exists q2]. }
  intros [] u (q2 & Hw2 & Hs2). pose proof (synced_gc _ _ (lw_nodes _ _ Hw2) Hs2) as Hsu.
  assert (Hsu' : synced s u) by (eapply synced_trans; [exact Hs1|]; destruct Hsu; by constructor).
  apply (sy_files _ _ Hsu') in Hf as Hf2. destruct (file_at_node _ _ _ Hf2) as (n2 & d2 & r2 & y2 & h2 & Hn2 & Hu2 & _).
  apply wp_bind. eapply wp_node_upd; [exact Hn2|].
  destruct (neutral_step u q2 fid n2 (set_dirty false n2) Hw2 Hu2) as (Hw3 & Hm3 & Hk3).
  { apply neutral_same_body; try done. by destruct (used_ok _ _ _ (lw_nodes _ _ Hw2) Hu2). }
  set (u3 := set_nodes _ u) in *. apply wp_bind. pose proof (aget_bounds _ _ _ Hn2) as Hb2.
  eapply wp_node; [by apply aget_insert_eq|]. wp_steps. split_and!; [by exists q2| |done].
  eapply synced_trans; [exact Hsu'|]. by apply synced_maps.
Qed.

Lemma UpdateInode_spec s q fid m : lfs_wf s q -> roomy s -> tight (l_nodes s) -> file_at (l_nodes s) fid m ->
  wpf (UpdateInode (PNode fid))
    (fun _ t => (exists q', lfs_wf t q') /\ synced s t /\ orphaned s fid = false)
    (fun e t => e = ERR_APP /\ exists q', lfs_wf t q') (fun _ => orphaned s fid = true) s.
Proof.
  intros Hw Hr Ht Hf. destruct (file_at_node _ _ _ Hf) as (n & d & r & y & h & Hn & Hu & Hbody & Hl & Hty & Hp). unfold UpdateInode.
  eapply (wpf_then _ _ (fun _ t => t = s)).
  { apply (wp_loop_range _ _ _ _ (fun _ _ t => t = s)); [done|done|by intros ? t ->|].
    intros i a t Hi ->. apply wp_bind. eapply wp_mono; [by eapply update_index_spec| |done]. intros [] t ->.
    apply wp_bind. eapply wp_node; [exact Hn|]. eapply wp_bind_opt; [unfold blks_of; by rewrite Hbody|]. wp_steps.
    by destruct (m <=? w32 (a + INDEX_SIZE)). }
  intros _ _ ->. destruct (file_at_phy _ _ _ Hf) as [b Hb].
  assert (Eb : m_phy_blk n = b).
  { unfold phy_of in Hb. rewrite Hu in Hb. cbn in Hb. rewrite Hty, bool_decide_true in Hb by done.
    rewrite (proj2 (Z.eqb_neq _ _) Hp) in Hb. by injection Hb. }
  destruct (lk_phy _ _ (lw_linked _ _ Hw) _ _ Hb) as (x & Hv & Hx).
  eapply (wpf_then _ _ (fun a t => a = n /\ t = s)); [by eapply wp_node|]. intros _ _ [-> ->]. rewrite Eb.
  eapply (wpf_then _ _ (fun a t => a = x /\ t = s)); [eapply wp_on_segs_runs; [eapply get_block_runs; [apply Hw|exact Hv]|done]|].
  intros _ _ [-> ->]. rewrite (in_parent _ _ Hx), (in_pofs _ _ Hx). cbn [is_null negb orb].
  apply wpf_bind. eapply wpf_mono; [by eapply WriteInode_spec|..].
  - intros a t H. exact H.
  - done.
  - done.
Qed.
End Sync.

(** ** Whole operations on files *)
Section Files.
Implicit Types (s t : Lfs) (N : CInodeManager) (n : inode_info).
Context (junk : inode_info).

(** What a write of the blocks [a .. b-1] changes: they are in the file, and
    every other block of every file is there as before. *)
Record file_written s t (fid m a b : Z) : Prop := {
  fw_wf : exists q, lfs_wf t q;
  fw_tight : tight (l_nodes t);
  fw_size : file_at (l_nodes t) fid (Z.max m b);
  fw_files g k : g <> fid -> file_at (l_nodes s) g k -> file_at (l_nodes t) g k;
  fw_blk g o : blk_of (l_nodes t) g o = None <-> blk_of (l_nodes s) g o = None /\ ~ (g = fid /\ a <= o < b)
}.

Lemma FileWrite_spec `{External} s q fid m ofs secs a b k : LbaToBlock ofs secs = (a, b) -> lfs_wf s q -> tight (l_nodes s) ->
  file_at (l_nodes s) fid m -> 0 <= a <= b -> 0 <= k -> room s (k + (b - a)) ->
  wpf (FileWrite junk fid ofs secs)
    (fun _ t => file_written s t fid m a b /\ room t k)
    (fun e t => e = ERR_APP /\ exists q', lfs_wf t q')
    (fun _ => exists u, file_written s u fid m a b /\ orphaned u fid = true) s.
Proof.
  intros Hab Hw Ht Hf Ha Hk Hr. unfold FileWrite. rewrite Hab.
  destruct (file_at_node _ _ _ Hf) as (n & d & r & y & h & Hn & Hu & Hbody & Hl & Hty & Hp).
  destruct (used_ok _ _ _ (lw_nodes _ _ Hw) Hu) as [_ Hfr]. destruct (proj1 (used_Some _ _ _) Hu) as [_ Hfid].
  eapply (wpf_then _ _ (fun p t => p = PNode fid /\ t = s)).
  { eapply wp_get_node; [exact Hn|]. by rewrite Hfid, (proj2 (Z.eqb_neq fid INVALID_BLK)) by lia. }
  intros _ _ [-> ->]. apply wpf_bind, wp_wpf, wp_check; [done|].
  destruct (Z.ltb_spec MaxFileSize b) as [|HbM]; [apply wp_wpf, wp_throw; split; [done|by exists q]|].
  eapply (wpf_then _ _ (fun a t => a = n /\ t = s)); [by eapply wp_node|]. intros _ _ [-> ->].
  apply wpf_bind, wp_wpf. eapply wp_opt; [unfold blks_of; by rewrite Hbody|].
  eapply (wpf_then _ _ (fun _ t => lfs_wf t q /\ l_segs t = l_segs s /\ same_maps (l_nodes s) (l_nodes t) /\ file_at (l_nodes t) fid (Z.max m b) /\
     m_nr (l_nodes t) = m_nr (l_nodes s) /\ forall g k, g <> fid -> file_at (l_nodes s) g k -> file_at (l_nodes t) g k)).
  { destruct (Z.ltb_spec m b); cbn [when].
    - eapply wp_mono; [eapply (file_size_spec s q fid m b); [done|done|lia]| |done]. rewrite Z.max_r by lia. done.
    - wp_steps. rewrite Z.max_l by lia. done. }
  intros _ t (Hw1 & Es1 & Hm1 & Hf1 & Enr1 & Ho1). apply wpf_bind, wp_wpf, wp_modify. set (t1 := inc_writes t).
  assert (Hw1' : lfs_wf t1 q) by by apply (lfs_wf_other t).
  assert (Hr1 : room t1 (k + (b - a))).
  { apply (room_stable s t1 _ 0); [by rewrite Z.add_0_r|cbn; by rewrite Es1|done|cbn; lia]. }
  eapply wpf_then.
  { eapply (write_blocks_spec junk t1 q fid (Z.max m b) a b k); done || lia. }
  intros _ u ((q2 & Hw2) & Hr2 & [Hk2 Hb2 _ Ht2]).
  assert (Htu : tight (l_nodes u)).
  { apply Ht2. intros f j p. cbn. rewrite (sm_dir _ _ Hm1). intros (o & Eo & Hb)%Ht. exists o. by rewrite (same_maps_blk _ _ _ _ Hm1). }
  assert (Hblk : forall g o, blk_of (l_nodes u) g o = None <-> blk_of (l_nodes s) g o = None /\ ~ (g = fid /\ a <= o < b)).
  { intros g o. rewrite Hb2. cbn. by rewrite (same_maps_blk _ _ _ _ Hm1). }
  assert (Hfin : forall v, synced u v -> (exists q', lfs_wf v q') -> file_written s v fid m a b).
  { intros v Hs Hwv. constructor; [done|by eapply synced_tight|by apply (sy_files _ _ Hs), Hk2| |].
    - intros g j Hg Hfg. by apply (sy_files _ _ Hs), Hk2, Ho1.
    - intros g o. by rewrite (sy_blk _ _ Hs). }
  eapply wpf_mono; [eapply (UpdateInode_spec u q2 fid); [exact Hw2|apply Hr2|exact Htu|by apply Hk2]|..].
  - intros _ v (Hwv & Hs & _). split; [by apply Hfin|]. apply (room_stable u v k 0); [by rewrite Z.add_0_r|apply Hs|done|by rewrite (sy_nr _ _ Hs); lia].
  - done.
  - intros v Hor. exists u. split; [|done]. apply Hfin; [apply synced_refl|by exists q2].
Qed.
End Files.
