(* ===== verification/LfsRead.v ===== *)
(** LfsRead: reading files and dumping the tables of the log-structured
    simulator never meets a block that the nodes and the segments disagree on. *)
From S2P Require Export LfsSync.

Section Read.
Implicit Types (s t : Lfs) (N : CInodeManager) (n : inode_info).
Context (junk : inode_info).

Lemma path_step_read s q fid m o ip : lfs_wf s q -> file_at (l_nodes s) fid m -> 0 <= o < MaxFileSize ->
  path_ok (l_nodes s) false fid o ip ->
  wp (path_step junk false ip o)
    (fun ip' t => t = s /\ exists c y d, ip' = (mkPath 1 [o / INDEX_SIZE; o mod INDEX_SIZE; c] [PNode fid; d; y], d) /\
       d <> PWild /\ target d = dir_of (l_nodes s) fid (o / INDEX_SIZE))
    (fun _ _ => False) s.
Proof.
  intros Hw Hf Ho [l a b c x y d Hl|c y d Hd Hn Ht]; unfold path_step; cbn [level].
  - rewrite (proj2 (Z.ltb_lt _ _) Hl). apply wp_bind. eapply OffsetToIndex_read; [exact Hw|exact Hf|exact Ho|].
    intros d' Hd Ht. cbn [path_node level]. eapply wp_bind_opt; [done|]. wp_steps. split; [done|]. by exists c, y, d'.
  - cbn. wp_steps. split; [done|]. by exists c, y, d.
Qed.

Lemma block_at_spec s q fid o d : lfs_wf s q -> d <> PWild -> target d = dir_of (l_nodes s) fid (o / INDEX_SIZE) ->
  wp (if is_null d then ret INVALID_BLK else index_at d (o mod INDEX_SIZE))
    (fun phy t => t = s /\ blk_of (l_nodes s) fid o = if phy =? INVALID_BLK then None else Some phy)
    (fun _ _ => False) s.
Proof.
  intros Hw Hd Ht. unfold blk_of. rewrite <- Ht. destruct d as [|p|]; cbn [is_null target mbind option_bind]; [by wp_steps| |done].
  symmetry in Ht. destruct (nw_dir _ (lw_nodes _ _ Hw) _ _ _ Ht) as (n & Hu & Hty). pose proof (INDEX_split o) as [_ Hi].
  eapply index_at_spec; [done|exact Hu|done|done|]. intros v l b _ _ _ He. by rewrite He.
Qed.

(** The record of a block of a file. *)
Lemma blk_record s q fid o b : lfs_wf s q -> blk_of (l_nodes s) fid o = Some b ->
  exists x, view (l_segs s) b = Some x /\ nid x = fid /\ offset x = o.
Proof.
  intros Hw Hb. unfold blk_of in Hb. destruct (dir_of (l_nodes s) fid (o / INDEX_SIZE)) as [p|] eqn:Hd; [|done]. cbn in Hb.
  destruct (lk_ent _ _ (lw_linked _ _ Hw) _ _ _ _ _ Hd Hb) as (x & Hv & [E1 E2 _ _ _ _]). exists x. split_and!; [done|done|].
  rewrite E2. pose proof (INDEX_split o). lia.
Qed.

Lemma NextOffset_read s fid o c y d (Q : index_path -> Lfs -> Prop) E : d <> PWild ->
  target d = dir_of (l_nodes s) fid (o / INDEX_SIZE) ->
  (forall ip, path_ok (l_nodes s) false fid (o + 1) (ip, d) -> Q ip s) ->
  wp (NextOffset (mkPath 1 [o / INDEX_SIZE; o mod INDEX_SIZE; c] [PNode fid; d; y])) Q E s.
Proof. intros Hd Ht. by apply NextOffset_spec. Qed.

Lemma read_block_spec s q fid m o ip l : lfs_wf s q -> file_at (l_nodes s) fid m -> 0 <= o < MaxFileSize ->
  path_ok (l_nodes s) false fid o ip ->
  wp (read_block junk fid (ip, l) o)
    (fun a t => t = s /\ path_ok (l_nodes s) false fid (o + 1) a.1 /\ a.2 = l ++ [blk_of (l_nodes s) fid o])
    (fun _ _ => False) s.
Proof.
  intros Hw Hf Ho Hip. unfold read_block. eapply wp_then; [by eapply path_step_read|].
  intros ip' t (-> & c & y & d & -> & Hd & Ht). cbn [path_offset level]. eapply wp_bind_opt; [done|].
  eapply wp_then; [by eapply block_at_spec|]. intros phy t (-> & Hb).
  eapply (wp_then _ _ (fun r t => t = s /\ r = blk_of (l_nodes s) fid o)).
  { rewrite Hb. destruct (Z.eqb_spec phy INVALID_BLK) as [|Hne]; [by wp_steps|].
    destruct (blk_record _ _ _ _ _ Hw Hb) as (x & Hv & E1 & E2). apply wp_bind.
    eapply wp_on_segs_runs; [eapply get_block_runs; [apply Hw|exact Hv]|]. rewrite E1, E2, !Z.eqb_refl. cbn. by wp_steps. }
  intros r t (-> & ->). apply wp_bind. eapply NextOffset_read; [done|done|]. intros ip2 Hip'. wp_steps. done.
Qed.

Lemma wp_file s q fid m (Q : node_ptr -> Lfs -> Prop) E : lfs_wf s q -> file_at (l_nodes s) fid m -> Q (PNode fid) s ->
  wp (on_nodes (get_node fid)) Q E s.
Proof.
  intros Hw Hf HQ. destruct (file_at_node _ _ _ Hf) as (n & d & r & y & h & Hn & Hu & _).
  destruct (used_ok _ _ _ (lw_nodes _ _ Hw) Hu) as [_ Hfr]. destruct (proj1 (used_Some _ _ _) Hu) as [_ Hfid].
  eapply wp_get_node; [exact Hn|]. by rewrite Hfid, (proj2 (Z.eqb_neq fid INVALID_BLK)) by lia.
Qed.

Lemma path_init N w fid o : path_ok N w fid o (InitIndexPath (PNode fid), PNull).
Proof. by apply path_start. Qed.

Lemma FileRead_spec `{External} s q fid m ofs secs a b : LbaToBlock ofs secs = (a, b) -> lfs_wf s q ->
  file_at (l_nodes s) fid m -> 0 <= a <= b -> b <= MaxFileSize ->
  wp (FileRead junk fid ofs secs)
    (fun l t => t = s /\ l = map (blk_of (l_nodes s) fid) (range a b)) (fun _ _ => False) s.
Proof.
  intros Hab Hw Hf Ha Hb. unfold FileRead. rewrite Hab. apply wp_bind. eapply wp_file; [done|done|].
  apply wp_bind, wp_check; [done|]. destruct (file_at_node _ _ _ Hf) as (n & d & r & y & h & Hn & Hu & Hbody & _).
  apply wp_bind. eapply wp_node; [exact Hn|]. eapply wp_bind_opt; [unfold blks_of; by rewrite Hbody|].
  eapply wp_then.
  { apply (wp_fold_range _ _ _ _ (fun i (r : index_path * node_ptr * list (option Z)) t => t = s /\ path_ok (l_nodes s) false fid i r.1 /\ r.2 = map (blk_of (l_nodes s) fid) (range a i))); [lia| |].
    - split; [done|]. split; [apply path_init|]. by rewrite range_nil by lia.
    - intros i [ip l] t Hi (-> & Hip & El). cbn in Hip, El. subst l. eapply wp_mono; [by eapply read_block_spec; [| |lia|]| |done].
      intros r' t (-> & Hip' & ->). split; [done|]. split; [done|]. by rewrite range_snoc, map_app by lia. }
  intros r' t (-> & _ & ->). by wp_steps.
Qed.

(** *** The map of a file *)
Definition map_row s (fid o : Z) : list MapRow :=
  match blk_of (l_nodes s) fid o with
  | Some b => match view (l_segs s) b with Some x => [mkMapRow o b (host_write x) (media_write x)] | None => [] end
  | None => []
  end.

Lemma dump_map_block_spec s q fid m o ip l : lfs_wf s q -> file_at (l_nodes s) fid m -> 0 <= o < MaxFileSize ->
  path_ok (l_nodes s) false fid o ip ->
  wp (dump_map_block junk fid (ip, l) o)
    (fun a t => t = s /\ path_ok (l_nodes s) false fid (o + 1) a.1 /\ a.2 = l ++ map_row s fid o)
    (fun _ _ => False) s.
Proof.
  intros Hw Hf Ho Hip. unfold dump_map_block. eapply wp_then; [by eapply path_step_read|].
  intros ip' t (-> & c & y & d & -> & Hd & Ht). cbn [path_offset level]. eapply wp_bind_opt; [done|].
  eapply wp_then; [by eapply block_at_spec|]. intros phy t (-> & Hb).
  eapply (wp_then _ _ (fun r t => t = s /\ r = l ++ map_row s fid o)).
  { unfold map_row. rewrite Hb. destruct (Z.eqb_spec phy INVALID_BLK) as [|Hne]; [wp_steps; by rewrite app_nil_r|].
    destruct (blk_record _ _ _ _ _ Hw Hb) as (x & Hv & E1 & E2). apply wp_bind.
    eapply wp_on_segs_runs; [eapply get_block_runs; [apply Hw|exact Hv]|]. rewrite E1, E2, !Z.eqb_refl, Hv. cbn. by wp_steps. }
  intros r t (-> & ->). apply wp_bind. eapply NextOffset_read; [done|done|]. intros ip2 Hip'. wp_steps. done.
Qed.

Lemma DumpFileMap_spec s q fid m : lfs_wf s q -> file_at (l_nodes s) fid m ->
  wp (DumpFileMap_no_merge junk fid) (fun l t => t = s /\ l = flat_map (map_row s fid) (range 0 m)) (fun _ _ => False) s.
Proof.
  intros Hw Hf. unfold DumpFileMap_no_merge. apply wp_bind. eapply wp_file; [done|done|].
  apply wp_bind, wp_check; [done|]. pose proof Hf as [(n & d & r & y & h & Hu & Hty & Hp & Hbody & Hl & Hm)].
  destruct (proj1 (used_Some _ _ _) Hu) as [Hn _].
  apply wp_bind. eapply wp_node; [exact Hn|]. eapply wp_bind_opt; [unfold blks_of; by rewrite Hbody|].
  eapply wp_then.
  { apply (wp_fold_range _ _ _ _ (fun i (r : index_path * node_ptr * list MapRow) t => t = s /\ path_ok (l_nodes s) false fid i r.1 /\ r.2 = flat_map (map_row s fid) (range 0 i))); [lia| |].
    - split; [done|]. split; [apply path_init|]. by rewrite range_nil by lia.
    - intros i [ip l] t Hi (-> & Hip & El). cbn in Hip, El. subst l. eapply wp_mono; [by eapply dump_map_block_spec; [| |lia|]| |done].
      intros r' t (-> & Hip' & ->). split; [done|]. split; [done|]. rewrite range_snoc, flat_map_app by lia. cbn. by rewrite app_nil_r. }
  intros r' t (-> & _ & ->). by wp_steps.
Qed.

(** *** The table of segments *)
Lemma direct_at_dir s f k p (Q : node_ptr -> Lfs -> Prop) E : dir_of (l_nodes s) f k = Some p -> Q (PNode p) s ->
  wp (direct_at (PNode f) k) Q E s.
Proof.
  intros Hd HQ. unfold dir_of in Hd. destruct (used (l_nodes s) f) as [n|] eqn:Hu; [|done]. cbn in Hd.
  destruct (direct_of n) as [d|] eqn:En; [|done]. cbn in Hd. destruct (aget d k) as [[|p'|]|] eqn:Ek; try done. injection Hd as ->.
  destruct (proj1 (used_Some _ _ _) Hu) as [Hn _]. unfold direct_at. apply wp_bind. eapply wp_node; [exact Hn|].
  eapply wp_bind_opt; [exact En|]. by eapply wp_opt.
Qed.

Lemma index_split k i : 0 <= i < INDEX_SIZE -> (k * INDEX_SIZE + i) / INDEX_SIZE = k /\ (k * INDEX_SIZE + i) mod INDEX_SIZE = i.
Proof.
  intros Hi. split; [symmetry; apply (Z.div_unique _ _ _ i); lia|symmetry; apply (Z.mod_unique _ _ k); lia].
Qed.

Lemma wp_used s q f n (Q : node_ptr -> Lfs -> Prop) E : lfs_wf s q -> used (l_nodes s) f = Some n -> Q (PNode f) s ->
  wp (on_nodes (get_node f)) Q E s.
Proof.
  intros Hw Hu HQ. destruct (used_ok _ _ _ (lw_nodes _ _ Hw) Hu) as [_ Hfr]. destruct (proj1 (used_Some _ _ _) Hu) as [Hn Hfid].
  eapply wp_get_node; [exact Hn|]. by rewrite Hfid, (proj2 (Z.eqb_neq f INVALID_BLK)) by lia.
Qed.

(** The check of a block, and the row that counts it. *)
Definition counts (ss : Z) (i l : Z) (row : SegRow) : Prop :=
  row_seg row = ss /\ row_node row + row_data row = l /\ row_invalid row + l = i.

Lemma dump_block_spec s q check ss g row bb x : lfs_wf s q -> aget (m_segments (l_segs s)) ss = Some g ->
  aget (blk_map g) bb = Some x -> counts ss bb (live_nr (take (Z.to_nat bb) (blk_map g))) row ->
  wp (dump_block junk check ss g row bb)
    (fun row' t => t = s /\ counts ss (bb + 1) (live_nr (take (Z.to_nat (bb + 1)) (blk_map g))) row')
    (fun _ _ => False) s.
Proof.
  intros Hw Hg Hx (Es & En & Ei). pose proof (aget_bounds _ _ _ Hg) as Hss. pose proof (aget_bounds _ _ _ Hx) as Hbb.
  pose proof (mw_seg _ _ (lw_segs _ _ Hw) _ _ Hg) as Hok. rewrite (so_len _ Hok) in Hbb. rewrite (mw_len _ _ (lw_segs _ _ Hw)) in Hss.
  assert (El : live_nr (take (Z.to_nat (bb + 1)) (blk_map g)) = live_nr (take (Z.to_nat bb) (blk_map g)) + Z.b2z (live x)).
  { apply aget_Some in Hx as [_ Hx]. replace (Z.to_nat (bb + 1)) with (S (Z.to_nat bb)) by lia.
    rewrite (take_S_r _ _ _ Hx), live_nr_app. by rewrite live_nr_one. }
  destruct (addr_split ss bb) as [E1 E2]; [lia|]. destruct (PhyBlock_small _ _ ss bb (lw_segs _ _ Hw)) as (Ea & _); [lia|lia|].
  unfold dump_block. eapply wp_bind_opt; [exact Hx|]. destruct (Z.eqb_spec (nid x) INVALID_BLK) as [Ed|Hlive].
  { wp_steps. split; [done|]. rewrite El. cbn. rewrite Ed, Z.eqb_refl. unfold counts. cbn. lia. }
  assert (Elive : Z.b2z (live x) = 1) by (cbn; by rewrite (proj2 (Z.eqb_neq _ _) Hlive)).
  assert (Hv : view (l_segs s) (PhyBlock ss bb) = Some x).
  { apply view_Some. exists g. rewrite Ea, E1, E2. split_and!; [done|done|]. cbn. by rewrite (proj2 (Z.eqb_neq _ _) Hlive). }
  destruct (lk_blk _ _ (lw_linked _ _ Hw) _ _ Hv) as [(f & Hn & Hp)|(f & k & p & i & Hd & Hdir & Hent)].
  - rewrite (in_offset _ _ Hn), (in_nid _ _ Hn), Z.eqb_refl.
    eapply (wp_then _ _ (fun _ t => t = s)); [|intros [] t ->; wp_steps; rewrite El, Elive; unfold counts; cbn; split; [done|lia]].
    apply wp_when; [intros _|done]. unfold phy_of in Hp. destruct (used (l_nodes s) f) as [n|] eqn:Hu; [|done]. cbn in Hp.
    destruct (proj1 (used_Some _ _ _) Hu) as [Hget _]. apply wp_bind. eapply wp_used; [exact Hw|exact Hu|].
    apply wp_bind, wp_check; [done|]. apply wp_bind. eapply wp_node; [exact Hget|].
    destruct (bool_decide (m_type n = NODE_INODE)); cbn [andb] in Hp; [|done].
    destruct (Z.eqb_spec (m_phy_blk n) INVALID_BLK); cbn [negb] in Hp; [done|]. injection Hp as ->. rewrite Z.eqb_refl. by wp_steps.
  - assert (Hofs : offset x = k * INDEX_SIZE + i) by apply Hd. destruct Hd as [Hnid _ _ _ Hk Hi].
    rewrite (proj2 (Z.eqb_neq (offset x) INVALID_BLK)) by (rewrite Hofs; unfold MAX_TABLE_SIZE, INDEX_SIZE, INVALID_BLK in *; lia).
    eapply (wp_then _ _ (fun _ t => t = s)); [|intros [] t ->; wp_steps; rewrite El, Elive; unfold counts; cbn; split; [done|lia]].
    apply wp_when; [intros _|done]. rewrite Hnid.
    assert (exists n, used (l_nodes s) f = Some n) as [n Hu] by (unfold dir_of in Hdir; destruct (used (l_nodes s) f); [by eexists|done]).
    apply wp_bind. eapply wp_used; [exact Hw|exact Hu|]. apply wp_bind, wp_check; [done|].
    destruct (index_split k i Hi) as [Eq Er]. rewrite <- Hofs in Eq, Er.
    unfold OffsetToIndex, InitIndexPath. cbn [path_node path_offset aget]. apply wp_bind_assoc. eapply wp_bind_opt; [done|].
    rewrite Eq, Er. apply wp_bind_assoc, wp_bind. eapply direct_at_dir; [exact Hdir|]. cbn [is_null andb]. wp_steps.
    do 3 (eapply wp_bind_opt; [done|]). wp_steps. cbn [path_node path_offset level]. repeat (eapply wp_bind_opt; [done|]).
    destruct (nw_dir _ (lw_nodes _ _ Hw) _ _ _ Hdir) as (np & Hup & Hty).
    apply wp_bind. eapply index_at_spec; [done|exact Hup|done|lia|]. intros v l b _ _ _ He. rewrite Hent in He.
    destruct (b =? INVALID_BLK); [done|]. injection He as <-. rewrite Z.eqb_refl. by wp_steps.
Qed.

Lemma DumpSegments_spec s q sanity_check : lfs_wf s q ->
  wp (DumpSegments junk sanity_check)
    (fun rows t => t = s /\ len rows = m_seg_nr (l_segs s) /\
       forall ss row, aget rows ss = Some row -> exists g, aget (m_segments (l_segs s)) ss = Some g /\
         counts ss BLOCK_PER_SEG (valid_blk_nr g) row)
    (fun _ _ => False) s.
Proof.
  intros Hw. set (ok := fun ss row => exists g, aget (m_segments (l_segs s)) ss = Some g /\ counts ss BLOCK_PER_SEG (valid_blk_nr g) row).
  unfold DumpSegments. wp_steps. pose proof (rg_pos _ _ (mw_ring _ _ (lw_segs _ _ Hw))) as Hpos.
  apply (wp_fold_range _ _ _ _ (fun i rows t => t = s /\ len rows = i /\ forall ss row, aget rows ss = Some row -> ok ss row)).
  - lia.
  - split_and!; [done|done|]. intros ss row [_ Hr]%aget_Some. by rewrite lookup_nil in Hr.
  - intros i rows t Hi (-> & El & Hrows). wp_steps. apply wp_bind, wp_check; [apply Z.ltb_lt; lia|].
    destruct (aget_is_Some (m_segments (l_segs s)) i) as [g Hg]; [rewrite (mw_len _ _ (lw_segs _ _ Hw)); lia|].
    pose proof (mw_seg _ _ (lw_segs _ _ Hw) _ _ Hg) as Hok.
    apply wp_bind. eapply wp_on_segs_runs; [by apply lfs_seg_at_runs|]. eapply wp_then.
    { apply (wp_fold_range _ _ _ _ (fun bb row t => t = s /\ counts i bb (live_nr (take (Z.to_nat bb) (blk_map g))) row)); [done| |].
      - split; [done|]. rewrite take_0. split_and!; done.
      - intros bb row t Hbb (-> & Hc). destruct (aget_is_Some (blk_map g) bb) as [x Hx]; [rewrite (so_len _ Hok); lia|].
        by eapply dump_block_spec. }
    intros row t (-> & Hc). wp_steps. split_and!; [done|rewrite length_app; cbn [length]; lia|].
    assert (Hfull : take (Z.to_nat BLOCK_PER_SEG) (blk_map g) = blk_map g) by (apply take_ge; pose proof (so_len _ Hok); lia).
    rewrite Hfull, <- (so_valid _ Hok) in Hc.
    intros ss row' [H0 [Hr|[Hl Hr]]%lookup_app_Some]%aget_Some; [apply Hrows, aget_Some; by split|].
    apply list_lookup_singleton_Some in Hr as [Hr <-]. assert (ss = i) as -> by lia. by exists g.
Qed.

(** What a dump that returns has found, in any state. *)

(** The node or the file block that the record [x] of the address [phy] names
    has this address. *)
Definition block_known s (phy : Z) (x : LFS_BLOCK_INFO) : Prop :=
  exists n, aget (m_nodes (l_nodes s)) (nid x) = Some n /\ m_fid n <> INVALID_BLK /\
    if offset x =? INVALID_BLK then m_phy_blk n = phy
    else exists d p m l, direct_of n = Some d /\ aget d (offset x / INDEX_SIZE) = Some (PNode p) /\
      aget (m_nodes (l_nodes s)) p = Some m /\ index_of m = Some l /\ aget l (offset x mod INDEX_SIZE) = Some phy.
Definition count_blocks (f : LFS_BLOCK_INFO -> bool) (l : list LFS_BLOCK_INFO) : Z := len (filter (fun x => f x = true) l).
Definition no_block (x : LFS_BLOCK_INFO) : bool := nid x =? INVALID_BLK.
Definition node_block (x : LFS_BLOCK_INFO) : bool := negb (nid x =? INVALID_BLK) && (offset x =? INVALID_BLK).
Definition data_block (x : LFS_BLOCK_INFO) : bool := negb (nid x =? INVALID_BLK) && negb (offset x =? INVALID_BLK).
Definition row_of (ss : Z) (l : list LFS_BLOCK_INFO) : SegRow :=
  mkRow ss (count_blocks no_block l) (count_blocks node_block l) (count_blocks data_block l).

Lemma count_snoc f l x : count_blocks f (l ++ [x]) = count_blocks f l + Z.b2z (f x).
Proof.
  unfold count_blocks. rewrite filter_app, length_app, filter_cons, filter_nil.
  destruct (f x); case_decide; cbn [length Z.b2z]; (done || lia).
Qed.
Lemma row_snoc ss l x : row_of ss (l ++ [x]) =
  mkRow ss (row_invalid (row_of ss l) + Z.b2z (no_block x)) (row_node (row_of ss l) + Z.b2z (node_block x))
    (row_data (row_of ss l) + Z.b2z (data_block x)).
Proof. unfold row_of. cbn. by rewrite !count_snoc. Qed.

(** Reading the nodes changes nothing. *)
Lemma wlp_get_node f (Q : node_ptr -> Lfs -> Prop) E s :
  (forall n, aget (m_nodes (l_nodes s)) f = Some n -> m_fid n <> INVALID_BLK -> Q (PNode f) s) -> Q PNull s -> (E OUT_OF_RANGE s) ->
  wlp (on_nodes (get_node f)) Q E s.
Proof.
  intros HQ H0 HE. assert (Hs : set_nodes (l_nodes s) s = s) by (by destruct s). unfold wlp, on_nodes, zoom, get_node, nodes_at, bind, get.
  destruct (_ <=? f); cbn; [by rewrite Hs|]. destruct (aget (m_nodes (l_nodes s)) f) as [n|] eqn:Hn; cbn; [|done]. rewrite Hs.
  destruct (Z.eqb_spec (m_fid n) INVALID_BLK); [done|by eapply HQ].
Qed.
Lemma wlp_node p (Q : inode_info -> Lfs -> Prop) E s :
  (forall i n, p = PNode i -> aget (m_nodes (l_nodes s)) i = Some n -> Q n s) -> wlp (node p) Q E s.
Proof.
  intros HQ. unfold wlp, node, bind, get. destruct p as [|i|]; cbn; [done| |done].
  destruct (aget (m_nodes (l_nodes s)) i) as [n|] eqn:Hn; cbn; [by eapply HQ|done].
Qed.

Lemma dump_check_sound s x phy : wlp
  (inode <- on_nodes (get_node (nid x)) ;;
   check (negb (is_null inode)) ;;;
   ipath <- OffsetToIndex junk (InitIndexPath inode) (offset x) false ;;
   d <- opt (aget (path_node ipath) (level ipath)) ;;
   index <- opt (aget (path_offset ipath) (level ipath)) ;;
   phy_blk <- index_at d index ;;
   if phy_blk =? phy then ret tt else throw ERR_APP)
  (fun _ t => t = s /\ ((offset x =? INVALID_BLK) = false -> block_known s phy x)) (fun _ _ => True) s.
Proof.
  apply wlp_bind, wlp_get_node; [|by apply wlp_check|done]. intros n Hn Hf. apply wlp_check. intros _.
  unfold OffsetToIndex, InitIndexPath. cbn [path_node path_offset].
  apply wlp_bind. change (aget [PNode (nid x); PNull; PNull] 0) with (Some (PNode (nid x))).
  apply wlp_opt. intros i [= <-]. apply wlp_bind. unfold direct_at.
  apply wlp_bind, wlp_node. intros i m [= <-] Hm. rewrite Hn in Hm. injection Hm as <-.
  apply wlp_opt. intros d Hd. unfold wlp at 1, opt. destruct (aget d (offset x / INDEX_SIZE)) as [p|] eqn:Hp; [|done]. cbn [ret].
  rewrite andb_false_r. wlp_steps.
  apply wlp_opt. intros os [= <-]. apply wlp_opt. intros os [= <-]. apply wlp_opt. intros ns [= <-]. wlp_steps.
  cbn [path_node path_offset level]. apply wlp_opt. intros q [= <-]. apply wlp_opt. intros index [= <-].
  unfold index_at. apply wlp_bind, wlp_bind, wlp_node. intros j m -> Hm. apply wlp_opt. intros l Hl.
  unfold wlp at 1, opt. destruct (aget l (offset x mod INDEX_SIZE)) as [b|] eqn:Hb; [|done]. cbn [ret].
  destruct (Z.eqb_spec b phy) as [->|]; [|done]. unfold wlp, ret. split; [done|]. intros Ho. exists n. split_and!; [done|done|].
  rewrite Ho. by exists d, j, m, l.
Qed.

Ltac row_eval := unfold no_block, node_block, data_block; repeat match goal with H : (_ =? _) = _ |- _ => rewrite H end; cbn; f_equal; lia.
Lemma dump_block_sound s sanity_check ss g row bb : wlp (dump_block junk sanity_check ss g row bb)
  (fun row' t => t = s /\ exists x, aget (blk_map g) bb = Some x /\
     row' = mkRow ss (row_invalid row + Z.b2z (no_block x)) (row_node row + Z.b2z (node_block x)) (row_data row + Z.b2z (data_block x)) /\
     (sanity_check = true -> nid x <> INVALID_BLK -> block_known s (PhyBlock ss bb) x)) (fun _ _ => True) s.
Proof.
  unfold dump_block. apply wlp_opt. intros x Hx.
  assert (Hrow : forall r, r = mkRow ss (row_invalid row + Z.b2z (no_block x)) (row_node row + Z.b2z (node_block x)) (row_data row + Z.b2z (data_block x)) ->
    forall t, t = s /\ (sanity_check = true -> nid x <> INVALID_BLK -> block_known s (PhyBlock ss bb) x) ->
    t = s /\ exists x, aget (blk_map g) bb = Some x /\
      r = mkRow ss (row_invalid row + Z.b2z (no_block x)) (row_node row + Z.b2z (node_block x)) (row_data row + Z.b2z (data_block x)) /\
      (sanity_check = true -> nid x <> INVALID_BLK -> block_known s (PhyBlock ss bb) x)).
  { intros r Hr t [-> Hk]. split; [done|]. by exists x. }
  destruct (nid x =? INVALID_BLK) eqn:Hn.
  { wlp_steps. apply Hrow; [row_eval|]. split; [done|]. apply Z.eqb_eq in Hn. done. }
  destruct (offset x =? INVALID_BLK) eqn:Ho.
  - eapply (wlp_then _ _ (fun _ t => t = s /\ (sanity_check = true -> block_known s (PhyBlock ss bb) x))).
    + destruct sanity_check; [|by wlp_steps]. cbn [when]. apply wlp_bind, wlp_get_node; [|by apply wlp_check|done].
      intros n Hn' Hf. apply wlp_check. intros _. apply wlp_bind, wlp_node. intros i m [= <-] Hm. rewrite Hn' in Hm. injection Hm as <-.
      destruct (Z.eqb_spec (m_phy_blk n) (PhyBlock ss bb)) as [E|]; [|done]. unfold wlp, ret. split; [done|]. intros _.
      exists n. split_and!; [done|done|]. by rewrite Ho.
    + intros [] t [-> Hk]. wlp_steps. apply Hrow; [row_eval|]. split; [done|]. intros H _. by apply Hk.
  - eapply (wlp_then _ _ (fun _ t => t = s /\ (sanity_check = true -> block_known s (PhyBlock ss bb) x))).
    + destruct sanity_check; [|by wlp_steps]. cbn [when]. eapply wlp_mono; [apply dump_check_sound| |done].
      intros [] t [-> Hk]. split; [done|]. intros _. by apply Hk.
    + intros [] t [-> Hk]. wlp_steps. apply Hrow; [row_eval|]. split; [done|]. intros H _. by apply Hk.
Qed.

Definition seg_dumped s (sanity_check : bool) (ss : Z) (row : SegRow) : Prop :=
  exists g, aget (m_segments (l_segs s)) ss = Some g /\ BLOCK_PER_SEG <= len (blk_map g) /\
    row = row_of ss (take (Z.to_nat BLOCK_PER_SEG) (blk_map g)) /\
    (sanity_check = true -> forall bb x, 0 <= bb < BLOCK_PER_SEG -> aget (blk_map g) bb = Some x -> nid x <> INVALID_BLK ->
       block_known s (PhyBlock ss bb) x).

Lemma dump_segment_sound s sanity_check ss g : wlp (mfold (range 0 BLOCK_PER_SEG) (mkRow ss 0 0 0) (dump_block junk sanity_check ss g))
  (fun row t => t = s /\ BLOCK_PER_SEG <= len (blk_map g) /\ row = row_of ss (take (Z.to_nat BLOCK_PER_SEG) (blk_map g)) /\
     (sanity_check = true -> forall bb x, 0 <= bb < BLOCK_PER_SEG -> aget (blk_map g) bb = Some x -> nid x <> INVALID_BLK ->
        block_known s (PhyBlock ss bb) x)) (fun _ _ => True) s.
Proof.
  apply (wlp_fold_range _ _ _ _ (fun i row t => t = s /\ i <= len (blk_map g) /\ row = row_of ss (take (Z.to_nat i) (blk_map g)) /\
     (sanity_check = true -> forall bb x, 0 <= bb < i -> aget (blk_map g) bb = Some x -> nid x <> INVALID_BLK ->
        block_known s (PhyBlock ss bb) x))).
  - done.
  - split_and!; [done|lia|done|lia].
  - intros i row t Hi (-> & Hl & -> & Hk). eapply wlp_mono; [apply dump_block_sound| |done].
    intros row' t (-> & x & Hx & -> & Hkx). pose proof (aget_bounds _ _ _ Hx). pose proof Hx as [_ Hx']%aget_Some. split_and!; [done|lia| |].
    + replace (Z.to_nat (i + 1)) with (S (Z.to_nat i)) by lia. by rewrite (take_S_r _ _ _ Hx'), row_snoc.
    + intros Hs bb y Hbb Hy Hn. destruct (decide (bb = i)) as [->|]; [|by apply (Hk Hs bb y); [lia|..]].
      rewrite Hx in Hy. injection Hy as <-. by apply Hkx.
Qed.

Lemma DumpSegments_sound s sanity_check : 0 <= m_seg_nr (l_segs s) -> wlp (DumpSegments junk sanity_check)
  (fun rows t => t = s /\ len rows = m_seg_nr (l_segs s) /\
     forall ss row, aget rows ss = Some row -> seg_dumped s sanity_check ss row) (fun _ _ => True) s.
Proof.
  intros Hpos. unfold DumpSegments. wlp_steps.
  apply (wlp_fold_range _ _ _ _ (fun i rows t => t = s /\ len rows = i /\ forall ss row, aget rows ss = Some row -> seg_dumped s sanity_check ss row)).
  - done.
  - split_and!; [done|done|]. intros ss row [_ Hr]%aget_Some. by rewrite lookup_nil in Hr.
  - intros i rows t Hi (-> & El & Hrows). wlp_steps. apply wlp_check. intros _. apply wlp_bind.
    apply wlp_zoom. unfold seg_at. wlp_steps.
    destruct (aget (m_segments (l_segs s)) i) as [g|] eqn:Hg; [|done]. wlp_steps.
    assert (Es : set_segs (l_segs s) s = s) by (by destruct s).
    apply wlp_bind. eapply wlp_mono; [apply dump_segment_sound| |done]. intros row t (-> & Hl & -> & Hk). wlp_steps.
    rewrite ?Es in Hk |- *. split; [done|]. split; [rewrite length_app; cbn [length]; lia|].
    intros ss row' [H0 [Hr|[Hll Hr]]%lookup_app_Some]%aget_Some; [apply Hrows, aget_Some; by split|].
    apply list_lookup_singleton_Some in Hr as [Hr <-]. assert (ss = i) as -> by lia. by exists g.
Qed.
End Read.
