(* ===== verification/LfsTrunc.v ===== *)
(** LfsTrunc: [FileTruncate] of the log-structured simulator drops the blocks of
    the file and then throws: it frees the empty index nodes under the address
    of their block, which they never have, in place of their number. *)
From S2P Require Export LfsRead.

Section Trunc.
Implicit Types (s t : Lfs) (N : CInodeManager) (n : inode_info).
Context (junk : inode_info).

Lemma index_count_clear l i b : aget l i = Some b -> b <> INVALID_BLK ->
  index_count (<[Z.to_nat i := INVALID_BLK]> l) = index_count l - 1.
Proof.
  intros Hc Hb. pose proof (aget_bounds _ _ _ Hc) as Hi. apply aget_Some in Hc as [_ Hc]. unfold index_count.
  rewrite <- (take_drop_middle _ _ _ Hc) at 2. rewrite insert_take_drop by lia.
  rewrite !filter_app, !length_app, !filter_cons. rewrite (decide_True (P := b <> INVALID_BLK)) by done.
  rewrite decide_False by naive_solver. cbn [length]. lia.
Qed.

Lemma blk_entry s q fid o b : lfs_wf s q -> blk_of (l_nodes s) fid o = Some b -> exists p n v l,
  dir_of (l_nodes s) fid (o / INDEX_SIZE) = Some p /\ used (l_nodes s) p = Some n /\ m_type n = NODE_INDEX /\
  body n = IndexBlk v l /\ len l = INDEX_SIZE /\ aget l (o mod INDEX_SIZE) = Some b /\ b <> INVALID_BLK /\ v = index_count l.
Proof.
  intros Hw Hb. unfold blk_of in Hb. destruct (dir_of (l_nodes s) fid (o / INDEX_SIZE)) as [p|] eqn:Hd; [|done]. cbn in Hb.
  destruct (nw_dir _ (lw_nodes _ _ Hw) _ _ _ Hd) as (n & Hu & Ht).
  destruct (used_ok _ _ _ (lw_nodes _ _ Hw) Hu) as [[(? & _)|(_ & _ & v & l & Hbody & Hl)] _]; [congruence|].
  exists p, n, v, l. unfold ent_of in Hb. rewrite Hu in Hb. cbn in Hb. unfold index_of in Hb. rewrite Hbody in Hb. cbn in Hb.
  destruct (aget l (o mod INDEX_SIZE)) as [c|]; [|done]. cbn in Hb. destruct (Z.eqb_spec c INVALID_BLK); [done|]. injection Hb as ->.
  split_and!; try done. by eapply (lw_counted _ _ Hw).
Qed.

Lemma dir_nonneg N f k p : dir_of N f k = Some p -> 0 <= k.
Proof.
  unfold dir_of. destruct (used N f) as [n|]; [|done]. cbn. destruct (direct_of n) as [d|]; [|done]. cbn.
  destruct (aget d k) eqn:E; [|done]. apply aget_bounds in E. intros _. lia.
Qed.
Lemma blk_range s q fid m o b : lfs_wf s q -> file_at (l_nodes s) fid m -> blk_of (l_nodes s) fid o = Some b -> 0 <= o < m.
Proof.
  intros Hw Hf Hb. destruct (blk_entry _ _ _ _ _ Hw Hb) as (p & n & v & l & Hd & _). pose proof (INDEX_split o) as [Eo Hi].
  pose proof (dir_nonneg _ _ _ _ Hd). destruct (file_at_node _ _ _ Hf) as (nf & d & r & y & h & _ & Hu & Hbf & _).
  split; [unfold INDEX_SIZE in *; lia|]. rewrite Eo. eapply (lw_sized _ _ Hw); [exact Hd| |exact Hu|unfold blks_of; by rewrite Hbf].
  unfold blk_of in Hb. by rewrite Hd in Hb.
Qed.

(** The entry of a dropped block is cleared. *)
Section Clear.
Context (s : Lfs) (q : list Z) (fid o p : Z) (n : inode_info) (v : Z) (l : list Z) (b : Z) (u : Lfs) (q' : list Z).
Context (Hw : lfs_wf s q) (Hd : dir_of (l_nodes s) fid (o / INDEX_SIZE) = Some p) (Hu : used (l_nodes s) p = Some n).
Context (Ht : m_type n = NODE_INDEX) (Hb : body n = IndexBlk v l) (Hl : len l = INDEX_SIZE).
Context (Hold : aget l (o mod INDEX_SIZE) = Some b) (Hne : b <> INVALID_BLK) (Hm : mgr_wf (l_segs u) q').
Context (Hview : forall c, view (l_segs u) c = if c =? b then None else view (l_segs s) c).
Context (Hnodes : l_nodes u = upd (l_nodes s) p (set_body (IndexBlk (v - 1) (<[Z.to_nat (o mod INDEX_SIZE) := INVALID_BLK]> l)) n)).

Lemma clear_wf : lfs_wf u q' /\ keeps_files (l_nodes s) (l_nodes u) /\
  (forall g k, dir_of (l_nodes u) g k = dir_of (l_nodes s) g k) /\
  (forall g o', blk_of (l_nodes u) g o' = if (g =? fid) && (o' =? o) then None else blk_of (l_nodes s) g o').
Proof using All.
  pose proof (INDEX_split o) as [Eo Hi]. destruct (proj1 (used_Some _ _ _) Hu) as [Hn Hfid].
  destruct (ent_upd _ _ _ v (v - 1) l (o mod INDEX_SIZE) INVALID_BLK (lw_nodes _ _ Hw) Hu Hb) as (H1 & H2 & H3 & H4); [lia|].
  rewrite <- Hnodes in H1, H2, H3, H4. cbn [Z.eqb] in H4. rewrite (Z.eqb_refl INVALID_BLK) in H4.
  set (n' := set_body _ n) in *. assert (H5 : forall g, used (l_nodes u) g = if g =? p then Some n' else used (l_nodes s) g).
  { intros g. rewrite Hnodes, (used_upd _ _ n) by done. cbn. by rewrite Hfid, Z.eqb_refl. }
  assert (He : ent_of (l_nodes s) p (o mod INDEX_SIZE) = Some b).
  { unfold ent_of. rewrite Hu. cbn. unfold index_of. rewrite Hb. cbn. rewrite Hold. cbn. by rewrite (proj2 (Z.eqb_neq _ _) Hne). }
  split_and!; [constructor; [done|done| |..]| |done|].
  - by eapply (linked_del_data _ _ (lw_linked _ _ Hw)); [exact Hview|apply Hw|exact Hd|exact He|..].
  - intros g k r i c n1 m1 Hd1 He1 Hu1 Hm1. rewrite H3 in Hd1. rewrite H4 in He1. rewrite H5 in Hu1.
    destruct (Z.eqb_spec g p) as [->|Hgp].
    { unfold dir_of in Hd1. rewrite Hu in Hd1. cbn in Hd1. unfold direct_of in Hd1. by rewrite Hb in Hd1. }
    destruct ((r =? p) && (i =? o mod INDEX_SIZE)); [done|by eapply (lw_sized _ _ Hw)].
  - intros g n1 w l1 Hu1 Hb1. rewrite H5 in Hu1. destruct (Z.eqb_spec g p) as [->|]; [|by eapply (lw_counted _ _ Hw)].
    injection Hu1 as <-. cbn in Hb1. injection Hb1 as <- <-. rewrite (index_count_clear _ _ _ Hold Hne).
    f_equal. by eapply (lw_counted _ _ Hw).
  - intros g k [(n0 & d & r & y & h & Hu0 & Ht0 & Hrest)]. constructor. exists n0, d, r, y, h. rewrite H5.
    destruct (Z.eqb_spec g p) as [->|]; [congruence|done].
  - intros g o'. pose proof (INDEX_split o') as [Eo' Hi']. unfold blk_of. rewrite H3.
    destruct (dir_of (l_nodes s) g (o' / INDEX_SIZE)) as [r|] eqn:Er; cbn [mbind option_bind].
    + rewrite H4. destruct (Z.eqb_spec r p) as [->|Hr]; cbn [andb].
      * destruct (nw_inj _ (lw_nodes _ _ Hw) _ _ _ _ _ Hd Er) as [<- Ek]. rewrite Z.eqb_refl. cbn [andb].
        destruct (Z.eqb_spec (o' mod INDEX_SIZE) (o mod INDEX_SIZE)) as [Em|Em].
        -- assert (o' = o) as -> by congruence. by rewrite Z.eqb_refl.
        -- rewrite (proj2 (Z.eqb_neq o' o)); [done|]. by intros ->.
      * destruct (Z.eqb_spec g fid) as [->|], (Z.eqb_spec o' o) as [->|]; cbn [andb]; try done. congruence.
    + destruct (Z.eqb_spec g fid) as [->|], (Z.eqb_spec o' o) as [->|]; cbn [andb]; try done.
Qed.
End Clear.

(** What the loop of [FileTruncate] keeps: the blocks before the position are
    gone, and an index node that has none left is dirty. *)
Definition dirty_at N (p : Z) : Prop := exists n, used N p = Some n /\ m_dirty n = true.
Record truncating s (fid m bb : Z) t : Prop := {
  tc_wf : exists q, lfs_wf t q;
  tc_file : file_at (l_nodes t) fid m;
  tc_dir g k : dir_of (l_nodes t) g k = dir_of (l_nodes s) g k;
  tc_gone o : 0 <= o < bb -> blk_of (l_nodes t) fid o = None;
  tc_other g o : g <> fid -> blk_of (l_nodes t) g o = blk_of (l_nodes s) g o;
  tc_dirty k p : dir_of (l_nodes t) fid k = Some p ->
    dirty_at (l_nodes t) p \/ exists o, bb <= o /\ o / INDEX_SIZE = k /\ blk_of (l_nodes t) fid o <> None
}.

Lemma truncate_skip s fid m bb t : truncating s fid m bb t -> blk_of (l_nodes t) fid bb = None -> truncating s fid m (bb + 1) t.
Proof.
  intros [H1 H2 H3 H4 H5 H6] Hn. constructor; [done|done|done| |done|].
  - intros o Ho. destruct (decide (o = bb)) as [->|]; [done|]. apply H4. lia.
  - intros k p Hd. destruct (H6 k p Hd) as [|(o & Ho & Ek & Hb)]; [by left|]. right. exists o. split_and!; [|done|done].
    destruct (decide (o = bb)) as [->|]; [done|lia].
Qed.

Lemma drop_block_spec s q fid o b d : lfs_wf s q -> blk_of (l_nodes s) fid o = Some b -> d <> PWild ->
  target d = dir_of (l_nodes s) fid (o / INDEX_SIZE) ->
  wp (track TRIM_DATA b fid o ;;;
      on_segs (health (h_logical (fun c => c - 1))) ;;;
      INVALID_PHY_BLOCK b ;;;
      index_put d (o mod INDEX_SIZE) INVALID_BLK ;;;
      node_upd d (set_dirty true) ;;;
      valid_add d (-1))
    (fun _ t => exists q', lfs_wf t q' /\ keeps_files (l_nodes s) (l_nodes t) /\
       (forall g k, dir_of (l_nodes t) g k = dir_of (l_nodes s) g k) /\
       (forall g o', blk_of (l_nodes t) g o' = if (g =? fid) && (o' =? o) then None else blk_of (l_nodes s) g o') /\
       (exists p, d = PNode p /\ dirty_at (l_nodes t) p) /\ forall p, dirty_at (l_nodes s) p -> dirty_at (l_nodes t) p)
    (fun _ _ => False) s.
Proof.
  intros Hw Hblk Hwild Htg. destruct (blk_entry _ _ _ _ _ Hw Hblk) as (p & n & v & l & Hd & Hu & Ht & Hb & Hl & Hold & Hne & Hv).
  rewrite Hd in Htg. destruct d as [|p0|]; try done. injection Htg as ->.
  assert (He : ent_of (l_nodes s) p (o mod INDEX_SIZE) = Some b) by (unfold blk_of in Hblk; by rewrite Hd in Hblk).
  destruct (lk_ent _ _ (lw_linked _ _ Hw) _ _ _ _ _ Hd He) as (x & Hvx & _). pose proof (INDEX_split o) as [_ Hi].
  destruct (proj1 (used_Some _ _ _) Hu) as [Hn Hfid]. pose proof (aget_bounds _ _ _ Hn) as Hpb.
  destruct (mw_health _ _ (lw_segs _ _ Hw)) as [h Hh]. unfold track. wp_steps. apply wp_bind. eapply wp_health; [exact Hh|].
  set (s1 := set_segs _ _). assert (Hw1 : lfs_wf s1 q).
  { apply (lfs_wf_other (set_segs (set_health (Some (h_logical (fun c => c - 1) h)) (l_segs s)) s)); [by apply lfs_wf_health|done|done]. }
  apply wp_bind. eapply wp_mono; [eapply (INVALID_PHY_BLOCK_spec s1 q b x); [apply Hw1|]| |done].
  { cbn [s1 set_segs l_segs]. by rewrite (view_ext (l_segs s)). }
  intros f t (q' & Hm & En & _ & Hview & _). cbn [s1 set_segs set_io l_nodes] in En.
  assert (Hview' : forall c, view (l_segs t) c = if c =? b then None else view (l_segs s) c).
  { intros c. rewrite Hview. cbn [s1 set_segs l_segs]. by rewrite (view_ext (l_segs s)). }
  apply wp_bind. eapply (wp_index_put t p n v l); [by rewrite En|done|lia|].
  set (l' := <[Z.to_nat (o mod INDEX_SIZE) := INVALID_BLK]> l). apply wp_bind.
  eapply wp_node_upd; [cbn; rewrite En; by apply aget_insert_eq|].
  unfold valid_add. apply wp_bind. eapply wp_node; [cbn; rewrite En; apply aget_insert_eq; by rewrite length_insert|].
  eapply wp_bind_opt; [done|]. eapply wp_node_upd; [cbn; rewrite En; apply aget_insert_eq; by rewrite length_insert|].
  cbn [set_nodes l_nodes]. rewrite En, !upd_upd. unfold upd_index. cbn [body set_dirty set_body].
  assert (Hcount : 0 < v <= INDEX_SIZE).
  { rewrite Hv. split; [by eapply index_count_pos|]. pose proof (index_count_le l). lia. }
  replace ((v + -1) mod 2 ^ 64) with (v - 1) by (rewrite Z.mod_small; unfold INDEX_SIZE in *; lia).
  set (n1 := set_body (IndexBlk (v - 1) l') n).
  set (u := set_nodes (upd (l_nodes s) p n1) t).
  destruct (clear_wf s q fid o p n v l b u q' Hw Hd Hu Ht Hb Hl Hold Hne Hm Hview' eq_refl) as (Hwu & Hk & Hdir & Hblk').
  assert (Hu1 : used (l_nodes u) p = Some n1) by (cbn; rewrite (used_upd _ _ n) by done; rewrite Z.eqb_refl; cbn; by rewrite Hfid, Z.eqb_refl).
  destruct (neutral_step u q' p n1 (set_dirty true n1) Hwu Hu1) as (Hwv & Hmv & Hkv).
  { apply neutral_same_body; try done. by destruct (used_ok _ _ _ (lw_nodes _ _ Hwu) Hu1). }
  change (l_nodes u) with (upd (l_nodes s) p n1) in Hwv, Hmv, Hkv. rewrite upd_upd in Hwv, Hmv, Hkv.
  set (n2 := set_dirty true n1) in *. change (set_body (IndexBlk (v - 1) l') (set_dirty true (set_body (IndexBlk v l') n))) with n2.
  set (w := set_nodes _ _). assert (Hww : lfs_wf w q') by (by apply (lfs_wf_other (set_nodes (upd (l_nodes s) p n2) u))).
  assert (Hu2 : forall g, used (l_nodes w) g = if g =? p then Some n2 else used (l_nodes s) g).
  { intros g. cbn. rewrite (used_upd _ _ n) by done. cbn. by rewrite Hfid, Z.eqb_refl. }
  exists q'. split_and!; [done|by etransitivity|..].
  - intros g k. cbn. by rewrite (sm_dir _ _ Hmv), <- Hdir.
  - intros g o'. cbn. by rewrite (same_maps_blk _ _ _ _ Hmv), <- Hblk'.
  - exists p. split; [done|]. exists n2. by rewrite Hu2, Z.eqb_refl.
  - intros p' (n' & Hn' & Hdn). destruct (decide (p' = p)) as [->|Hpp].
    + exists n2. by rewrite Hu2, Z.eqb_refl.
    + exists n'. by rewrite Hu2, (proj2 (Z.eqb_neq _ _) Hpp).
Qed.

Lemma truncate_block_spec s fid m bb ip t : truncating s fid m bb t -> 0 <= bb < m -> path_ok (l_nodes t) false fid bb ip ->
  wp (truncate_block junk fid ip bb)
    (fun ip' u => truncating s fid m (bb + 1) u /\ path_ok (l_nodes u) false fid (bb + 1) ip') (fun _ _ => False) t.
Proof.
  intros Htr Hbb Hip. pose proof Htr as [(q & Hw) Hf Hdir Hgone Hother Hdirty]. unfold truncate_block.
  assert (Hmax : m <= MaxFileSize) by (destruct Hf as [(? & ? & ? & ? & ? & _ & _ & _ & _ & _ & ?)]; lia).
  eapply wp_then; [eapply path_step_read; [exact Hw|exact Hf|lia|exact Hip]|].
  intros ip' t' (-> & c & y & d & -> & Hd & Ht). cbn [path_offset level]. eapply wp_bind_opt; [done|].
  eapply wp_then; [by eapply block_at_spec|]. intros phy t' (-> & Hb).
  eapply (wp_then _ _ (fun _ u => truncating s fid m (bb + 1) u /\ target d = dir_of (l_nodes u) fid (bb / INDEX_SIZE))).
  2:{ intros [] u (Htu & Htg). apply wp_bind. eapply NextOffset_read; [done|exact Htg|]. intros ip2 Hip2. by wp_steps. }
  destruct (Z.eqb_spec phy INVALID_BLK) as [|Hne]; [wp_steps; split; [by apply truncate_skip|done]|].
  eapply wp_mono; [by eapply drop_block_spec| |done].
  intros [] u (q' & Hwu & Hk & Hdir' & Hblk & (p & -> & Hp) & Hdk). split; [|by rewrite Hdir']. constructor.
  - by exists q'.
  - by apply Hk.
  - intros g k. by rewrite Hdir', Hdir.
  - intros o Ho. rewrite Hblk, Z.eqb_refl. destruct (Z.eqb_spec o bb); cbn [andb]; [done|]. apply Hgone. lia.
  - intros g o Hg. rewrite Hblk, (proj2 (Z.eqb_neq _ _) Hg). cbn [andb]. by apply Hother.
  - intros k p' Hp'. rewrite Hdir' in Hp'. destruct (Hdirty k p' Hp') as [|(o & Ho & Ek & Hbo)]; [left; by apply Hdk|].
    destruct (decide (o = bb)) as [->|Hob].
    + left. cbn [target] in Ht. rewrite Ek, Hp' in Ht. injection Ht as ->. done.
    + right. exists o. rewrite Hblk, Z.eqb_refl, (proj2 (Z.eqb_neq _ _) Hob). cbn [andb]. split_and!; [lia|done|done].
Qed.

Lemma truncate_blocks_spec s q fid m : lfs_wf s q -> tight (l_nodes s) -> file_at (l_nodes s) fid m ->
  wp (mfold (range 0 m) (InitIndexPath (PNode fid), PNull) (truncate_block junk fid))
    (fun _ t => truncating s fid m m t) (fun _ _ => False) s.
Proof.
  intros Hw Ht Hf. assert (Hm : 0 <= m) by (destruct Hf as [(? & ? & ? & ? & ? & _ & _ & _ & _ & _ & ?)]; lia).
  eapply wp_mono with (Q := fun ip t => truncating s fid m m t /\ path_ok (l_nodes t) false fid m ip) (E := fun _ _ => False);
    [|by intros ? ? []|done].
  apply (wp_fold_range _ _ _ _ (fun bb ip t => truncating s fid m bb t /\ path_ok (l_nodes t) false fid bb ip)); [done| |].
  - split; [|apply path_init]. constructor; [by exists q|done|done|lia|done|]. intros k p Hd. right.
    destruct (Ht _ _ _ Hd) as (o & Ek & Hb). exists o. split_and!; [|done|done]. apply dir_nonneg in Hd.
    pose proof (INDEX_split o). unfold INDEX_SIZE in *. lia.
  - intros i ip t Hi (Htr & Hip). by apply truncate_block_spec.
Qed.

(** An index node that has become empty. *)
Lemma WriteInode_empty s q fid k p n l : lfs_wf s q -> dir_of (l_nodes s) fid k = Some p -> used (l_nodes s) p = Some n ->
  body n = IndexBlk 0 l -> m_dirty n = true ->
  wp (WriteInode (Local (set_parent (PNode fid) k (block_info p INVALID_BLK))))
    (fun _ _ => False)
    (fun e t => e = OUT_OF_RANGE /\ l_segs t = l_segs s /\ dir_of (l_nodes t) fid k = None /\
       forall g o, (g, o / INDEX_SIZE) <> (fid, k) -> blk_of (l_nodes t) g o = blk_of (l_nodes s) g o) s.
Proof.
  intros Hw Hd Hu Hb Hdirty. destruct (nw_dir _ (lw_nodes _ _ Hw) _ _ _ Hd) as (n0 & Hu0 & Hty). assert (n0 = n) as -> by congruence.
  destruct (used_ok _ _ _ (lw_nodes _ _ Hw) Hu) as [[(? & _)|(_ & Hphy & _)] Hpr]; [congruence|].
  destruct (proj1 (used_Some _ _ _) Hu) as [Hn Hfid]. unfold WriteInode. cbn [page_read]. wp_steps. cbn [nid set_parent block_info].
  apply wp_bind. eapply wp_used; [exact Hw|exact Hu|]. apply wp_bind. eapply wp_node; [exact Hn|]. rewrite Hdirty, Hty. cbn [negb].
  rewrite (bool_decide_true (NODE_INDEX = NODE_INDEX)) by done. wp_steps. eapply wp_bind_opt; [unfold valid_of; by rewrite Hb|]. wp_steps.
  cbn [parent parent_offset set_parent is_null negb]. rewrite Z.eqb_refl. apply wp_bind, wp_check; [done|].
  unfold dir_of in Hd. destruct (used (l_nodes s) fid) as [nf|] eqn:Huf; [|done]. cbn in Hd.
  destruct (direct_of nf) as [d|] eqn:Ed; [|done]. cbn in Hd. destruct (aget d k) as [[|p'|]|] eqn:Ek; try done. injection Hd as ->.
  unfold direct_of in Ed. destruct (body nf) as [|b0 d0 r0 y0 h0|] eqn:Hbf; try done. injection Ed as ->.
  destruct (proj1 (used_Some _ _ _) Huf) as [Hnf Hff]. pose proof (aget_bounds _ _ _ Ek) as Hkb.
  destruct (dir_put _ fid nf b0 d r0 y0 h0 k PNull (lw_nodes _ _ Hw) Huf Hbf Hkb) as (HN & _ & Ee & Edir); [done|done|].
  unfold direct_put. apply wp_bind_assoc, wp_bind. eapply wp_node; [exact Hnf|].
  apply wp_bind_assoc. eapply wp_bind_opt; [unfold direct_of; by rewrite Hbf|]. apply wp_bind_assoc.
  eapply wp_bind_opt; [by apply aset_is_Some|]. apply wp_bind. eapply wp_node_upd; [exact Hnf|].
  unfold upd_inode. rewrite Hbf. set (nf' := set_body _ nf) in *. pose proof (aget_bounds _ _ _ Hnf) as Hfb.
  apply wp_bind. eapply wp_node_upd; [by apply aget_insert_eq|]. cbn [set_nodes l_nodes]. rewrite upd_upd.
  assert (Hpf : p <> fid) by (intros ->; congruence).
  set (s2 := set_nodes _ _). assert (Hn2 : aget (m_nodes (l_nodes s2)) p = Some n) by (cbn; rewrite aget_insert_ne; [done|congruence|lia]).
  apply wp_bind. eapply wp_node; [exact Hn2|]. rewrite Hphy. unfold INVALID_PHY_BLOCK. rewrite Z.eqb_refl. wp_steps.
  apply wp_bind. eapply wp_node; [exact Hn2|]. rewrite Hphy. apply wp_bind, wp_zoom. unfold free_inode.
  apply wp_bind. unfold get_node. apply wp_bind. unfold nodes_at. wp_steps. cbn [s2 set_nodes l_nodes upd m_nodes]. rewrite length_insert.
  pose proof (nw_nr _ (lw_nodes _ _ Hw)). pose proof (nw_max _ (lw_nodes _ _ Hw)).
  rewrite (proj2 (Z.leb_le (len (m_nodes (l_nodes s))) INVALID_BLK)) by lia. wp_steps. split_and!; [done|done|..].
  - cbn [set_nodes l_nodes s2]. unfold dir_of. rewrite (used_upd _ _ nf) by done. rewrite Z.eqb_refl. cbn [set_dirty m_fid nf' set_body].
    rewrite Hff, Z.eqb_refl. cbn. rewrite aget_insert_eq by lia. done.
  - intros g o Hgo. cbn [set_nodes l_nodes s2].
    assert (Hu' : forall g', used (upd (l_nodes s) fid (set_dirty true nf')) g' = if g' =? fid then Some (set_dirty true nf') else used (l_nodes s) g').
    { intros g'. rewrite (used_upd _ _ nf) by done. cbn. by rewrite Hff, Z.eqb_refl. }
    assert (E1 : forall g' j, (g', j) <> (fid, k) -> dir_of (upd (l_nodes s) fid (set_dirty true nf')) g' j = dir_of (l_nodes s) g' j).
    { intros g' j Hgj. unfold dir_of. rewrite Hu'. destruct (Z.eqb_spec g' fid) as [->|]; [|done]. rewrite Huf.
      unfold direct_of. cbn. rewrite Hbf. cbn. rewrite aget_insert_ne; [done|congruence|lia]. }
    assert (E2 : forall r i, ent_of (upd (l_nodes s) fid (set_dirty true nf')) r i = ent_of (l_nodes s) r i).
    { intros r i. unfold ent_of. rewrite Hu'. destruct (Z.eqb_spec r fid) as [->|]; [|done]. rewrite Huf.
      unfold index_of. cbn. by rewrite Hbf. }
    unfold blk_of. rewrite E1 by done. destruct (dir_of (l_nodes s) g (o / INDEX_SIZE)); [apply E2|done].
Qed.

(** The first index node of a truncated file stops [UpdateInode]. *)
Lemma update_index_empty s q fid m k p : lfs_wf s q -> file_at (l_nodes s) fid m -> dir_of (l_nodes s) fid k = Some p ->
  (forall o, blk_of (l_nodes s) fid o = None) -> dirty_at (l_nodes s) p ->
  wp (update_index (PNode fid) k) (fun _ _ => False)
    (fun e t => e = OUT_OF_RANGE /\ (forall o, blk_of (l_nodes t) fid o = None) /\
       forall g o, g <> fid -> blk_of (l_nodes t) g o = blk_of (l_nodes s) g o) s.
Proof.
  intros Hw Hf Hd Hnone (n & Hu & Hdn). destruct (nw_dir _ (lw_nodes _ _ Hw) _ _ _ Hd) as (n0 & Hu0 & Hty). assert (n0 = n) as -> by congruence.
  destruct (used_ok _ _ _ (lw_nodes _ _ Hw) Hu) as [[(? & _)|(_ & Hphy & v & l & Hb & Hl)] Hpr]; [congruence|].
  assert (v = 0) as ->.
  { rewrite (lw_counted _ _ Hw _ _ _ _ Hu Hb). pose proof (index_count_le l). destruct (decide (index_count l = 0)) as [|Hc]; [done|].
    exfalso. unfold index_count in Hc. destruct (filter (fun b => b <> INVALID_BLK) l) as [|b r] eqn:Efl; [done|].
    assert (Hin : b ∈ filter (fun b => b <> INVALID_BLK) l) by (rewrite Efl; by left).
    apply list_elem_of_filter in Hin as [Hbne [i Hbi]%list_elem_of_lookup]. pose proof (lookup_lt_Some _ _ _ Hbi).
    destruct (index_split k (Z.of_nat i)) as [E1 E2]; [lia|]. specialize (Hnone (k * INDEX_SIZE + Z.of_nat i)).
    unfold blk_of in Hnone. rewrite E1, E2, Hd in Hnone. cbn in Hnone. unfold ent_of in Hnone. rewrite Hu in Hnone. cbn in Hnone.
    unfold index_of in Hnone. rewrite Hb in Hnone. cbn in Hnone. replace (aget l (Z.of_nat i)) with (Some b) in Hnone.
    2:{ symmetry. apply aget_Some. split; [lia|]. by rewrite Nat2Z.id. }
    cbn in Hnone. by destruct (Z.eqb_spec b INVALID_BLK). }
  destruct (proj1 (used_Some _ _ _) Hu) as [Hn Hpf]. unfold update_index. apply wp_bind. eapply direct_at_dir; [exact Hd|].
  cbn [is_null]. apply wp_bind. eapply wp_node; [exact Hn|]. rewrite Hphy, Z.eqb_refl, Hpf. apply wp_bind.
  eapply wp_mono; [by eapply WriteInode_empty|by intros ? ? []|].
  intros e t (-> & _ & Ed & Eb). split; [done|]. split.
  - intros o. destruct (decide (o / INDEX_SIZE = k)) as [Eo|Hne]; [unfold blk_of; by rewrite Eo, Ed|].
    rewrite Eb by congruence. apply Hnone.
  - intros g o Hg. apply Eb. congruence.
Qed.

Lemma update_index_none s q fid m k : lfs_wf s q -> file_at (l_nodes s) fid m -> 0 <= k < MAX_TABLE_SIZE ->
  dir_of (l_nodes s) fid k = None -> wp (update_index (PNode fid) k) (fun _ t => t = s) (fun _ _ => False) s.
Proof.
  intros Hw Hf Hk Hd. unfold update_index. apply wp_bind. eapply direct_at_spec; [exact Hw|exact Hf|exact Hk|].
  intros [|p|] Hp Ht; [by wp_steps|cbn in Ht; congruence|done].
Qed.

Lemma FileTruncate_spec s q fid m o : lfs_wf s q -> tight (l_nodes s) -> file_at (l_nodes s) fid m -> blk_of (l_nodes s) fid o <> None ->
  wp (FileTruncate junk fid) (fun _ _ => False)
    (fun e t => e = OUT_OF_RANGE /\ (forall o, blk_of (l_nodes t) fid o = None) /\
       forall g o, g <> fid -> blk_of (l_nodes t) g o = blk_of (l_nodes s) g o) s.
Proof.
  intros Hw Ht Hf Ho. destruct (file_at_node _ _ _ Hf) as (n & d & r & y & h & Hn & Hu & Hb & _). unfold FileTruncate.
  apply wp_bind. eapply wp_file; [done|done|]. apply wp_bind, wp_check; [done|]. apply wp_bind. eapply wp_node; [exact Hn|].
  eapply wp_bind_opt; [unfold blks_of; by rewrite Hb|]. eapply wp_then; [by eapply truncate_blocks_spec|].
  intros _ t [(q1 & Hw1) Hf1 Hdir Hgone Hother Hdirty].
  assert (Hnone : forall o, blk_of (l_nodes t) fid o = None).
  { intros o'. destruct (blk_of (l_nodes t) fid o') as [b|] eqn:Eb; [|done].
    rewrite Hgone in Eb; [done|by eapply blk_range]. }
  destruct (blk_of (l_nodes s) fid o) as [b|] eqn:Eb; [|done]. destruct (blk_entry _ _ _ _ _ Hw Eb) as (p & np & v & l & Hd & Hup & _).
  pose proof (blk_range _ _ _ _ _ _ Hw Hf Eb) as Hkm.
  set (k := o / INDEX_SIZE) in *. rewrite <- Hdir in Hd.
  assert (Hk : k * INDEX_SIZE < m /\ 0 <= m <= MaxFileSize).
  { destruct Hf as [(? & ? & ? & ? & ? & _ & _ & _ & _ & _ & ?)]. pose proof (INDEX_split o). split; [unfold k; lia|done]. }
  unfold UpdateInode. apply wp_bind.
  apply (wp_loop_range _ _ _ _ (fun i bb u => u = t /\ bb = i * INDEX_SIZE /\ forall j, 0 <= j < i -> dir_of (l_nodes t) fid j = None)); [done| | |].
  - split_and!; [done|done|lia].
  - intros bb u (-> & _ & Hno). exfalso. assert (0 <= k < MAX_TABLE_SIZE) as Hkr; [|by rewrite Hno in Hd].
    apply dir_nonneg in Hd. unfold MaxFileSize, MAX_TABLE_SIZE, INDEX_SIZE in *. lia.
  - intros i bb u Hi (-> & -> & Hno). apply wp_bind. destruct (dir_of (l_nodes t) fid i) as [p'|] eqn:Ei.
    + eapply wp_mono; [eapply (update_index_empty t q1 fid m i p'); try done|by intros ? ? []|].
      * destruct (Hdirty _ _ Ei) as [|(o' & _ & _ & Hbo)]; [done|]. by rewrite Hnone in Hbo.
      * intros e u (-> & H1 & H2). split_and!; [done|done|]. intros g o' Hg. by rewrite H2, Hother.
    + eapply wp_mono; [eapply (update_index_none t q1 fid m i); done| |done]. intros [] u ->.
      destruct (file_at_node _ _ _ Hf1) as (n1 & d1 & r1 & y1 & h1 & Hn1 & Hu1 & Hb1 & _).
      apply wp_bind. eapply wp_node; [exact Hn1|]. eapply wp_bind_opt; [unfold blks_of; by rewrite Hb1|]. wp_steps.
      assert (Eb' : w32 (i * INDEX_SIZE + INDEX_SIZE) = (i + 1) * INDEX_SIZE) by (rewrite w32_small; unfold MAX_TABLE_SIZE, INDEX_SIZE in *; lia).
      rewrite Eb'. assert (Hno' : forall j, 0 <= j < i + 1 -> dir_of (l_nodes t) fid j = None).
      { intros j Hj. destruct (decide (j = i)) as [->|]; [done|apply Hno; lia]. }
      destruct (Z.leb_spec m ((i + 1) * INDEX_SIZE)) as [Hle|_]; [|done]. exfalso.
      pose proof (dir_nonneg _ _ _ _ Hd).
      rewrite Hno' in Hd; [done|]. unfold INDEX_SIZE in *. lia.
Qed.
End Trunc.
