(* ===== verification/LfsLife.v ===== *)
(** LfsLife: a fresh log-structured simulator, creating, opening and closing its
    files; and concrete states, reached by running its operations, on which the
    properties are evaluated. *)
From S2P Require Export LfsTrunc.

(** What a specification says of a run whose result is known. *)
Lemma wp_known {S A} (m : M S A) Q E s (a : A) t : wp m Q E s -> m s = (Ret a, t) -> Q a t.
Proof. unfold wp. intros H E1. by rewrite E1 in H. Qed.
Lemma wpf_known {S A} (m : M S A) Q E F s (a : A) t : wpf m Q E F s -> m s = (Ret a, t) -> Q a t.
Proof. unfold wpf. intros H E1. by rewrite E1 in H. Qed.

Section Life.
Implicit Types (s t : Lfs) (N : CInodeManager) (n : inode_info).
Context (junk : inode_info).

(** *** A fresh simulator *)
Definition no_nodes : CInodeManager := mkInodes [] [] 0 0 0.
Lemma no_nodes_wf : nodes_wf no_nodes.
Proof.
  assert (Hu : forall f, used no_nodes f = None).
  { intros f. unfold used. cbn. destruct (aget [] f) eqn:E; [by apply aget_Some in E as [_ ?]|done]. }
  constructor; cbn.
  - done.
  - done.
  - constructor.
  - intros f Hf. by apply not_elem_of_nil in Hf.
  - intros f n [_ Hn]%aget_Some. done.
  - intros f k p. unfold dir_of. by rewrite Hu.
  - intros f k f' k' p. unfold dir_of. by rewrite Hu.
Qed.
Lemma no_nodes_used f : used no_nodes f = None.
Proof. unfold used. cbn. destruct (aget [] f) eqn:E; [by apply aget_Some in E as [_ ?]|done]. Qed.

Lemma inodes_new_spec N : wp (inodes_new junk)
  (fun _ N' => nodes_wf N' /\ same_maps no_nodes N' /\ m_nr N' <= 1024 /\
     forall f n, used N' f = Some n -> m_type n = NODE_INODE) (fun _ _ => False) N.
Proof.
  unfold inodes_new. wp_steps. eapply wp_then; [apply (lfs_allocate_spec junk no_nodes NODE_INODE PNull no_nodes_wf); [done|done]|].
  intros x N' (n0 & [H1 H2 H3 H4 H5]). wp_steps. rewrite (bool_decide_false (NODE_INODE = NODE_INDEX)) in H3 by done.
  split_and!; [done|done|cbn in H5; lia|]. intros f n. rewrite H3. destruct (f =? x); [by intros [= <-]|by rewrite no_nodes_used].
Qed.

Context `{External}.

(** The segments that [Initialzie] makes of a configuration. *)
Definition config_logical (c : config) : Z := w32 (ROUND_UP_DIV (volume_size c) SECTOR_PER_BLOCK).
Definition config_segs (c : config) : Z := w32 (ROUND_UP_DIV (scale c (config_logical c)) BLOCK_PER_SEG).

Lemma boot_spec cur_segs lo hi c s : 0 < config_segs c < 2 ^ 23 ->
  wp (lfs_new junk cur_segs lo hi ;;; Initialzie c)
    (fun r t => r = true /\ lfs_wf t (range 0 (config_segs c)) /\ tight (l_nodes t) /\ (forall f, phy_of (l_nodes t) f = None) /\
       m_seg_nr (l_segs t) = config_segs c /\ m_gc_lo (l_segs t) = gc_seg_lo c /\ m_nr (l_nodes t) <= 1024 /\
       sat (l_segs t) = Some (0, config_logical c))
    (fun _ _ => False) s.
Proof.
  intros Hn. unfold lfs_new. wp_steps.
  eapply wp_then with (P := fun _ t => nodes_wf (l_nodes t) /\ same_maps no_nodes (l_nodes t) /\ m_nr (l_nodes t) <= 1024 /\
     forall f n, used (l_nodes t) f = Some n -> m_type n = NODE_INODE).
  { apply wp_zoom. eapply wp_mono; [apply inodes_new_spec|done|done]. }
  intros _ t (H1 & H2 & H3 & H4). unfold Initialzie. wp_steps. fold (config_logical c).
  apply wp_bind, wp_zoom. unfold SetHealth. wp_steps. apply wp_bind, wp_zoom.
  eapply wp_mono; [apply (lfs_InitSegmentManager_spec _ (config_segs c) _ _ (h_volume (config_logical c) 0 0 0 health_zero)); [done|done]| |done].
  intros r g (-> & Hg & Hv & Hnr & Hlo & _ & Hsat). destruct (mw_health _ _ Hg) as [h Hh]. apply wp_bind. eapply wp_health; [exact Hh|].
  wp_steps. assert (Hent : forall p i, ent_of (l_nodes t) p i = None) by (intros; rewrite (sm_ent _ _ H2); unfold ent_of; by rewrite no_nodes_used).
  assert (Hdir : forall f k, dir_of (l_nodes t) f k = None) by (intros; rewrite (sm_dir _ _ H2); unfold dir_of; by rewrite no_nodes_used).
  assert (Hphy : forall f, phy_of (l_nodes t) f = None) by (intros; rewrite (sm_phy _ _ H2); unfold phy_of; by rewrite no_nodes_used).
  split_and!; try done.
  - constructor; cbn [set_segs l_segs l_nodes]; [by apply wf_health|done| |..].
    + constructor.
      * intros b x. rewrite (view_ext g) by done. by rewrite Hv.
      * intros f b. by rewrite Hphy.
      * intros f k p i b. by rewrite Hdir.
    + intros f k p i b n m. by rewrite Hdir.
    + intros p n v l Hu Hb. apply H4 in Hu as Ht. destruct (used_ok _ _ _ H1 Hu) as [[(_ & ? & ? & ? & ? & ? & Hb' & _)|(? & _)] _]; congruence.
  - intros f k p. by rewrite Hdir.
  - unfold sat in *. cbn in *. rewrite Hh in Hsat. cbn in Hsat. injection Hsat as E1 E2. rewrite <- E1. done.
Qed.

(** *** Creating a file *)
(** A node is written for the first time. *)
Lemma first_write_spec s q x n m d r y h : lfs_wf s q -> roomy s -> used (l_nodes s) x = Some n -> m_type n = NODE_INODE ->
  m_phy_blk n = INVALID_BLK -> m_dirty n = true -> body n = InodeBlk m d r y h ->
  wp (WriteInode (Local (block_info x INVALID_BLK)))
    (fun _ t => (exists q', lfs_wf t q') /\ synced s t /\ file_at (l_nodes t) x m)
    (fun e t => e = ERR_APP /\ exists q', lfs_wf t q') s.
Proof.
  intros Hw Hr Hu Ht Hphy Hdirty Hb. destruct (proj1 (used_Some _ _ _) Hu) as [Hn Hfid].
  destruct (used_ok _ _ _ (lw_nodes _ _ Hw) Hu) as [Hok Hxr]. unfold WriteInode. cbn [page_read]. wp_steps. cbn [nid block_info].
  apply wp_bind. eapply wp_used; [exact Hw|exact Hu|]. apply wp_bind. eapply wp_node; [exact Hn|]. rewrite Hdirty, Ht, Hphy. cbn [negb].
  rewrite (bool_decide_false (NODE_INODE = NODE_INDEX)), (bool_decide_true (NODE_INODE = NODE_INODE)) by done. wp_steps.
  apply wp_bind, wp_zoom. eapply wp_mono; [eapply lfs_WriteBlockToSeg_spec; [apply Hw|]| |].
  { cbn. apply negb_true_iff, Z.eqb_neq. lia. }
  2:{ intros e t (-> & ->). rewrite lfs_set_segs_id. split; [done|by exists q]. }
  intros b1 g (q1 & Hg & Hst & Hb1 & Hnone & Hvg & _). apply wp_bind. eapply wp_node_upd; [exact Hn|].
  unfold INVALID_PHY_BLOCK. rewrite Z.eqb_refl. wp_steps. cbn [parent block_info is_null negb when]. wp_steps.
  destruct (phy_upd _ _ _ b1 (lw_nodes _ _ Hw) Hu Ht) as (HN & E1 & E2 & E3); [lia|].
  set (n1 := set_phy b1 n) in *. set (s1 := set_nodes _ _).
  assert (Hu' : forall f, used (l_nodes s1) f = if f =? x then Some n1 else used (l_nodes s) f).
  { intros f. cbn. rewrite (used_upd _ _ n) by done. cbn. by rewrite Hfid, Z.eqb_refl. }
  assert (Hw1 : lfs_wf s1 q1).
  { constructor; [done|done| |..].
    - apply (linked_add_node _ _ (lw_linked _ _ Hw) _ _ b1 (inc_media (block_info x INVALID_BLK)) Hnone Hvg x); try done.
      unfold phy_of. rewrite Hu. cbn. by rewrite Hphy, Z.eqb_refl, andb_false_r.
    - intros f k p i b nf mf. cbn [s1 set_nodes l_nodes]. rewrite E2, E3. intros H1 H2. rewrite Hu'. destruct (Z.eqb_spec f x) as [->|].
      + intros [= <-] Hm. by eapply (lw_sized _ _ Hw).
      + by eapply (lw_sized _ _ Hw).
    - intros p np v l. rewrite Hu'. destruct (Z.eqb_spec p x) as [->|]; [|by apply (lw_counted _ _ Hw)]. intros [= <-]. cbn. congruence. }
  assert (Hf1 : file_at (l_nodes s1) x m).
  { destruct Hok as [(_ & b0 & d0 & r0 & y0 & h0 & Hb0 & Hl & Hm0 & _)|(? & _)]; [|congruence]. rewrite Hb in Hb0. injection Hb0 as <- <- <- <- <-.
    constructor. exists n1, d, r, y, h. rewrite Hu', Z.eqb_refl. split_and!; try done; cbn; lia. }
  assert (Hs1 : synced s s1).
  { constructor; [| |done|done|done].
    - intros f k [(n2 & d2 & r2 & y2 & h2 & Hu2 & Ht2 & Hp2 & Hrest)]. constructor. exists n2, d2, r2, y2, h2. rewrite Hu'.
      destruct (Z.eqb_spec f x) as [->|]; [congruence|done].
    - intros f o. unfold blk_of. cbn [s1 set_nodes l_nodes]. rewrite E2. destruct (dir_of (l_nodes s) f (o / INDEX_SIZE)); [|done].
      cbn [mbind option_bind]. by rewrite E3. }
  pose proof (aget_bounds _ _ _ Hn) as Hxb. apply wp_bind. eapply wp_node; [by apply aget_insert_eq|]. unfold track. wp_steps.
  set (s2 := set_io _ s1). apply wp_bind.
  eapply wp_mono; [eapply (CheckGarbageCollection_spec s2 q1); [by apply (lfs_wf_other s1)|exact (synced_roomy s s1 Hs1 Hr)]| |].
  2:{ intros e u (-> & q2 & Hw2 & _). split; [done|by exists q2]. }
  intros [] u (q2 & Hw2 & Hs2). pose proof (synced_gc _ _ (lw_nodes _ _ Hw2) Hs2) as Hsu.
  apply (sy_files _ _ Hsu) in Hf1 as Hf2. destruct (file_at_node _ _ _ Hf2) as (n2 & d2 & r2 & y2 & h2 & Hn2 & Hu2 & _).
  apply wp_bind. eapply wp_node_upd; [exact Hn2|].
  destruct (neutral_step u q2 x n2 (set_dirty false n2) Hw2 Hu2) as (Hw3 & Hm3 & Hk3).
  { apply neutral_same_body; try done. by destruct (used_ok _ _ _ (lw_nodes _ _ Hw2) Hu2). }
  set (u3 := set_nodes _ u) in *. apply wp_bind. pose proof (aget_bounds _ _ _ Hn2) as Hb2.
  eapply wp_node; [by apply aget_insert_eq|]. wp_steps. split_and!; [by exists q2| |by apply Hk3].
  eapply synced_trans; [exact Hs1|]. eapply synced_trans; [destruct Hsu; by constructor|]. by apply synced_maps.
Qed.

Lemma FileCreate_spec s q fn k : lfs_wf s q -> tight (l_nodes s) -> 0 <= k -> room s (k + 1) ->
  wp (FileCreate junk fn)
    (fun x t => (exists q', lfs_wf t q') /\ tight (l_nodes t) /\ used (l_nodes s) x = None /\ file_at (l_nodes t) x 0 /\
       keeps_files (l_nodes s) (l_nodes t) /\ room t k /\
       forall f o, blk_of (l_nodes t) f o = None <-> blk_of (l_nodes s) f o = None)
    (fun e t => e = ERR_APP /\ exists q', lfs_wf t q') s.
Proof.
  intros Hw Ht Hk0 Hroom. pose proof (ro_segs _ _ Hroom) as Hr. pose proof (ro_nodes _ _ Hroom) as Hmax. unfold FileCreate.
  eapply wp_then with (P := fun x t => exists n0, allocated (l_nodes s) x (init_inode x n0) (l_nodes t) /\ t = set_nodes (l_nodes t) s).
  { apply wp_zoom. eapply wp_mono; [apply (lfs_allocate_spec junk (l_nodes s) NODE_INODE PNull); [apply Hw|lia|done]| |done].
    intros x N' (n0 & Hal). exists n0. by destruct s. }
  intros x t (n0 & Hal & Et). set (n := init_inode x n0) in *.
  destruct (alloc_wf _ _ _ _ _ Hw Hal) as [Hw1 Hk1]; [done|]. rewrite <- Et in Hw1. destruct Hal as [H1 H2 H3 H4 H5].
  assert (Hux : used (l_nodes t) x = Some n) by by rewrite H3, Z.eqb_refl.
  destruct (proj1 (used_Some _ _ _) Hux) as [Hn Hfx]. pose proof (aget_bounds _ _ _ Hn) as Hxb.
  destruct (used_ok _ _ _ H1 Hux) as [Hok Hxr].
  apply wp_bind. eapply wp_node_upd; [exact Hn|]. apply wp_bind. eapply wp_node_upd; [by apply aget_insert_eq|].
  cbn [set_nodes l_nodes]. rewrite upd_upd. set (n1 := set_dirty true (set_fn fn n)).
  destruct (neutral_step t q x n n1 Hw1 Hux) as (Hw2 & Hm2 & Hk2); [by apply neutral_same_body|].
  set (s2 := set_nodes (upd (l_nodes t) x n1) t) in *. change (set_nodes _ (set_nodes _ t)) with s2.
  assert (Hux2 : used (l_nodes s2) x = Some n1) by (cbn; rewrite (used_upd _ _ n) by done; rewrite Z.eqb_refl; cbn; by rewrite Z.eqb_refl).
  destruct (proj1 (used_Some _ _ _) Hux2) as [Hn2 _]. apply wp_bind. eapply wp_node; [exact Hn2|]. change (m_fid n1) with x.
  assert (Es : l_segs s2 = l_segs s) by (cbn; by rewrite Et).
  apply wp_bind. eapply wp_mono; [eapply (first_write_spec s2 q x n1); try done; by unfold roomy; rewrite Es| |done].
  intros _ u (Hwu & Hsu & Hfu). destruct (file_at_node _ _ _ Hfu) as (n3 & d3 & r3 & y3 & h3 & Hn3 & Hu3 & _).
  apply wp_bind. eapply wp_node; [exact Hn3|]. wp_steps. destruct (proj1 (used_Some _ _ _) Hu3) as [_ ->].
  assert (Hblk : forall f o, blk_of (l_nodes s2) f o = blk_of (l_nodes s) f o).
  { intros f o. by rewrite (same_maps_blk _ _ _ _ Hm2), (same_maps_blk _ _ _ _ H4). }
  split_and!; [done| |done|done|..].
  - eapply synced_tight; [exact Hsu|]. intros f j p. cbn. rewrite (sm_dir _ _ Hm2), (sm_dir _ _ H4). intros (o & Eo & Hb)%Ht.
    exists o. by rewrite Hblk.
  - etransitivity; [exact Hk1|]. etransitivity; [exact Hk2|]. apply (sy_files _ _ Hsu).
  - apply (room_stable s u k 1); [done|rewrite <- Es; apply (sy_stable _ _ Hsu)|done|]. rewrite (sy_nr _ _ Hsu). cbn. lia.
  - intros f o. by rewrite (sy_blk _ _ Hsu), Hblk.
Qed.

(** *** Opening and closing *)
Lemma FileOpen_spec s q fid m x : lfs_wf s q -> file_at (l_nodes s) fid m ->
  wp (FileOpen fid x)
    (fun _ t => lfs_wf t q /\ l_segs t = l_segs s /\ same_maps (l_nodes s) (l_nodes t) /\ keeps_files (l_nodes s) (l_nodes t) /\
       m_nr (l_nodes t) = m_nr (l_nodes s) /\ exists n n', used (l_nodes s) fid = Some n /\ used (l_nodes t) fid = Some n' /\ doc_of n' = Some x /\
         refs_of n' = (fun r => w32 (r + 1)) <$> refs_of n)
    (fun _ _ => False) s.
Proof.
  intros Hw Hf. destruct (file_at_node _ _ _ Hf) as (n & d & r & y & h & Hn & Hu & Hb & Hl & Ht & Hp). unfold FileOpen.
  apply wp_bind. eapply wp_file; [done|done|]. apply wp_bind, wp_check; [done|]. apply wp_bind. eapply wp_node; [exact Hn|].
  rewrite (proj2 (Z.eqb_neq _ _) Hp). unfold inode_set. apply wp_bind. eapply wp_node; [exact Hn|].
  eapply wp_bind_opt; [unfold blks_of; by rewrite Hb|]. eapply wp_node_upd; [exact Hn|]. unfold upd_inode. rewrite Hb.
  destruct (used_ok _ _ _ (lw_nodes _ _ Hw) Hu) as [Hok _]. destruct (proj1 (used_Some _ _ _) Hu) as [_ Hfid].
  destruct (neutral_step s q fid n _ Hw Hu (neutral_counters _ _ _ _ _ (w32 (r + 1)) x h _ Hok Hb)) as (H1 & H2 & H3).
  split_and!; [done|done|done|done|done|]. exists n. eexists. split_and!; [done| | |].
  - cbn [set_nodes l_nodes]. rewrite (used_upd _ _ n) by done. rewrite Z.eqb_refl. cbn [m_fid set_body]. by rewrite Hfid, Z.eqb_refl.
  - done.
  - unfold refs_of. by rewrite Hb.
Qed.

(** *** Good states *)
(** The invariant, no empty index node, and room for [k] blocks. *)
Record good s (k : Z) : Prop := {
  gd_wf : exists q, lfs_wf s q; gd_tight : tight (l_nodes s); gd_room : room s k
}.

Lemma good_boot cur_segs lo hi c s k t : 0 < config_segs c < 2 ^ 23 -> gc_seg_lo c + 69 <= config_segs c -> 0 <= k < 2 ^ 20 ->
  10 * k < 9 * config_logical c -> (lfs_new junk cur_segs lo hi ;;; Initialzie c) s = (Ret true, t) -> good t k.
Proof.
  intros Hn Hlo Hk Hlog Hrun. destruct (wp_known _ _ _ _ _ _ (boot_spec cur_segs lo hi c s Hn) Hrun)
    as (_ & H1 & H2 & _ & H3 & H4 & H5 & H6). constructor; [by eexists|done|].
  constructor; [unfold roomy; rewrite H3, H4; lia|unfold INVALID_BLK; lia|]. exists 0, (config_logical c). split_and!; [exact H6|lia..].
Qed.
Lemma good_create s fn fid t k : good s (k + 1) -> 0 <= k -> FileCreate junk fn s = (Ret fid, t) -> good t k /\ file_at (l_nodes t) fid 0.
Proof.
  intros [(q & Hw) Ht Hr] Hk Hrun. destruct (wp_known _ _ _ _ _ _ (FileCreate_spec s q fn k Hw Ht Hk Hr) Hrun)
    as (H1 & H2 & _ & H4 & _ & H3 & _). split; [constructor; [exact H1|exact H2|exact H3]|exact H4].
Qed.
Lemma good_open s fid m x t k : good s k -> file_at (l_nodes s) fid m -> FileOpen fid x s = (Ret tt, t) -> good t k.
Proof.
  intros [(q & Hw) Ht Hr] Hf Hrun. destruct (wp_known _ _ _ _ _ _ (FileOpen_spec s q fid m x Hw Hf) Hrun)
    as (H1 & H2 & H3 & H4 & H5 & _). constructor; [by exists q| |].
  - intros f j p. rewrite (sm_dir _ _ H3). intros (o & Eo & Hb)%Ht. exists o. by rewrite (same_maps_blk _ _ _ _ H3).
  - apply (room_stable s t k 0); [by rewrite Z.add_0_r|by rewrite H2|done|rewrite H5; lia].
Qed.
Lemma good_write s fid m ofs secs a b t k : good s (k + (b - a)) -> 0 <= k -> file_at (l_nodes s) fid m ->
  LbaToBlock ofs secs = (a, b) -> 0 <= a <= b -> FileWrite junk fid ofs secs s = (Ret tt, t) ->
  good t k /\ file_at (l_nodes t) fid (Z.max m b).
Proof.
  intros [(q & Hw) Ht Hr] Hk Hf Hab Ha Hrun.
  destruct (wpf_known _ _ _ _ _ _ _ (FileWrite_spec junk s q fid m ofs secs a b k Hab Hw Ht Hf Ha Hk Hr) Hrun)
    as [[H1 H2 H4 _ _] H3]. split; [constructor; [exact H1|exact H2|exact H3]|exact H4].
Qed.
End Life.

(** * Concrete states *)
Lemma returns {S A} (m : M S A) s a : fst (m s) = Ret a -> m s = (Ret a, snd (m s)).
Proof. destruct (m s) as [o t]. by intros [= ->]. Qed.

#[export] Existing Instance sample_external.

Definition junk0 : inode_info := mkInode false NODE_FREE 0 0 PNull 0 "" NoBody.
Definition cfg : config := mkConfig 400000 (fun n => n) 3 5.
Definition nothing : Lfs := mkLfs (manager_new [] 0 0) (mkInodes [] [] 0 0 0) 0 0 0 0 0 io_new.

(** A simulator of 98 segments; one with an empty file, number 1; and one whose
    file has three blocks. *)
Definition lfs0 : Lfs := snd ((lfs_new junk0 [] 0 0 ;;; Initialzie cfg) nothing).
Definition lfs1 : Lfs := snd (FileCreate junk0 "a" lfs0).
Definition lfs2 : Lfs := snd (FileWrite junk0 1 0 24 lfs1).

Lemma good0 : good lfs0 10000.
Proof.
  assert (Hc : config_segs cfg = 98) by (vm_compute; reflexivity). assert (Hl : config_logical cfg = 50000) by (vm_compute; reflexivity).
  apply (good_boot junk0 [] 0 0 cfg nothing); rewrite ?Hc, ?Hl; [done..|]. unfold lfs0. apply returns. vm_compute. reflexivity.
Qed.
Lemma good1 : good lfs1 9999 /\ file_at (l_nodes lfs1) 1 0.
Proof. apply (good_create junk0 lfs0 "a"); [exact good0|done|]. unfold lfs1. apply returns. vm_compute. reflexivity. Qed.
Lemma good2 : good lfs2 9996 /\ file_at (l_nodes lfs2) 1 3.
Proof.
  destruct good1 as [Hg Hf]. apply (good_write junk0 lfs1 1 0 0 24 0 3); [exact Hg|done|exact Hf|by vm_compute|done|].
  unfold lfs2. apply returns. vm_compute. reflexivity.
Qed.

(** The current segment counts as full, so that the next write takes another one. *)
Definition age (s : Lfs) : Lfs :=
  let g := l_segs s in
  match aget (m_cur_segs g) BT_HOT__DATA with
  | Some c =>
    match aget (m_segments g) c with
    | Some sg => set_segs (set_cur_segs (<[Z.to_nat BT_HOT__DATA := INVALID_BLK]> (m_cur_segs g))
        (set_segments (<[Z.to_nat c := set_counts (valid_blk_nr sg) BLOCK_PER_SEG sg]> (m_segments g)) g)) s
    | None => s
    end
  | None => s
  end.
Lemma age_wf s q : lfs_wf s q -> lfs_wf (age s) q.
Proof.
  intros Hw. unfold age. destruct (aget (m_cur_segs (l_segs s)) BT_HOT__DATA) as [c|] eqn:Hc; [|done].
  destruct (aget (m_segments (l_segs s)) c) as [sg|] eqn:Hg; [|done]. pose proof (lw_segs _ _ Hw) as Hm.
  pose proof (mw_seg _ _ Hm _ _ Hg) as [E1 E2 E3 E4]. pose proof (aget_bounds _ _ _ Hg) as Hcb.
  assert (Hci : c <> INVALID_BLK). { rewrite (mw_len _ _ Hm) in Hcb. pose proof (rg_max _ _ (mw_ring _ _ Hm)). unfold INVALID_BLK. lia. }
  destruct (mw_cur _ _ Hm _ _ Hc Hci) as (Hcq & _). pose proof (aget_bounds _ _ _ Hc) as Htb.
  constructor; cbn [set_segs l_segs l_nodes]; [|apply Hw| |apply Hw|apply Hw].
  - apply (wf_update _ _ _ sg); try done.
    + constructor; cbn; [done|done|done|]. intros i b Hi Hb%aget_bounds. lia.
    + rewrite length_insert. apply Hm.
    + intros a z Ha Hz. pose proof (aget_bounds _ _ _ Ha) as Hab. rewrite aget_insert in Ha by lia.
      destruct (Z.eqb_spec BT_HOT__DATA a) as [<-|Hat]; [by injection Ha as <-|]. split; [done|].
      intros ->. exfalso. apply Hat. symmetry. by eapply (mw_distinct _ _ Hm).
    + intros z Hz Hzc Hzi. apply list_elem_of_lookup in Hz as [j Hj]. apply list_elem_of_lookup. exists j.
      rewrite list_lookup_insert_ne; [done|]. intros <-. apply aget_Some in Hc as [_ Hc]. congruence.
  - eapply linked_ext; [apply Hw| |done]. intros b. unfold view. cbn [set_cur_segs set_segments m_segments].
    destruct (Z.eq_dec (b / BLOCK_PER_SEG) c) as [->|Hne]; [by rewrite aget_insert_eq, Hg by lia|]. by rewrite aget_insert_ne by lia.
Qed.

Lemma good_age s k m : good s k -> file_at (l_nodes s) 1 m -> good (age s) k /\ file_at (l_nodes (age s)) 1 m.
Proof.
  intros [(q & Hw) Ht Hr] Hf.
  assert (E : l_nodes (age s) = l_nodes s /\ stable (l_segs s) (l_segs (age s))).
  { unfold age. destruct (aget (m_cur_segs (l_segs s)) BT_HOT__DATA); [|done]. by destruct (aget (m_segments (l_segs s)) z). }
  destruct E as [E Hst]. rewrite E. split; [|done]. constructor; [exists q; by apply age_wf|by rewrite E|].
  apply (room_stable s _ k 0); [by rewrite Z.add_0_r|done|done|rewrite E; lia].
Qed.

(** Blocks of a file, each in a segment of its own. *)
Definition aged_write (o : Z) : M Lfs unit := FileWrite junk0 1 (o * 8) 8 ;;; modify age.

Lemma one_block o : 0 <= o < 2 ^ 20 -> LbaToBlock (o * 8) 8 = (o, o + 1).
Proof.
  intros Ho. unfold LbaToBlock. cbn [ROUND_UP_DIV sample_external]. rewrite (Z.mod_small _ (2 ^ 64)) by lia. rewrite Z.div_mul by done.
  replace (o * 8 + 8 + 8 - 1) with ((o + 1) * 8 + 7) by lia. rewrite Z.div_add_l by done. change (7 / 8) with 0. rewrite Z.add_0_r.
  f_equal; apply w32_small; lia.
Qed.

Lemma good_run l : forall s k m, good s (k + len l) -> 0 <= k -> file_at (l_nodes s) 1 m -> Forall (fun o => 0 <= o < 2 ^ 20) l ->
  fst (mfor l aged_write s) = Ret tt -> good (snd (mfor l aged_write s)) k /\ exists m', file_at (l_nodes (snd (mfor l aged_write s))) 1 m'.
Proof.
  induction l as [|o l IH]; intros s k m Hg Hk Hf Hl Hrun.
  - cbn in *. rewrite Z.add_0_r in Hg. split; [done|by exists m].
  - apply Forall_cons in Hl as [Ho Hl]. cbn [mfor length] in *. unfold bind, aged_write, bind in Hrun |- *.
    destruct (FileWrite junk0 1 (o * 8) 8 s) as [[[]|e|] t] eqn:E; [|done|done]. cbn [modify] in Hrun |- *.
    destruct (good_write junk0 s 1 m (o * 8) 8 o (o + 1) t (k + len l)) as [Hg1 Hf1]; [|lia|done|by apply one_block|lia|exact E|].
    { by replace (k + len l + (o + 1 - o)) with (k + Z.of_nat (S (length l))) by lia. }
    destruct (good_age _ _ _ Hg1 Hf1) as [Hg2 Hf2]. by eapply IH.
Qed.

(** 65 full segments, each with few valid blocks. *)
Definition lfs_full : Lfs := snd (mfor (range 0 65) aged_write lfs1).
Lemma good_full : good lfs_full 9000.
Proof.
  destruct good1 as [Hg Hf]. apply (good_run (range 0 65) lfs1 9000 0); [|done|exact Hf| |by vm_compute].
  - destruct Hg as [H1 H2 H3]. constructor; [done|done|]. eapply room_less; [exact H3|by vm_compute].
  - apply Forall_forall. intros o Ho%elem_of_range. lia.
Qed.
