(* ===== verification/LfsProps.v ===== *)
(** LfsProps: the properties of the log-structured simulator. *)
From S2P Require Export LfsLife.

Section Props.
Implicit Types (s t : Lfs) (N : CInodeManager) (n : inode_info).
Context (junk : inode_info) `{External}.

(** The files of [t] are those of [s], whatever their addresses. *)
Record same_files s t : Prop := {
  sf_wf : exists q, lfs_wf t q;
  sf_file f m : file_at (l_nodes s) f m -> file_at (l_nodes t) f m;
  sf_blk f o : blk_of (l_nodes t) f o = None <-> blk_of (l_nodes s) f o = None;
  sf_record f o b : blk_of (l_nodes t) f o = Some b -> exists x, view (l_segs t) b = Some x /\ nid x = f /\ offset x = o
}.
Lemma collected_same s t : collected s t -> same_files s t.
Proof.
  intros (q & Hw & Hs). constructor.
  - by exists q.
  - intros f m. by apply gc_same_file; [apply Hw|].
  - intros f o. by apply gc_same_blk.
  - intros f o b Hb. by eapply blk_record.
Qed.

(** C12: A garbage collection that starts in a well-formed state with at least 63
    full segments to choose from always ends: it returns with more free segments
    than the low threshold or at least as many as the high one, or throws ERR_APP
    (no victim is left, or no segment is free to move a block to).  Either way
    every file keeps its size and its blocks, and every block is recorded where
    the file says. *)
Theorem gc_keeps_files s q : lfs_wf s q -> 63 <= full_nr s (range 0 (m_seg_nr (l_segs s))) ->
  wp GarbageCollection
    (fun _ t => same_files s t /\ (m_gc_hi (l_segs t) <= m_free_nr (l_segs t) \/ m_gc_lo (l_segs t) < m_free_nr (l_segs t)))
    (fun e t => e = ERR_APP /\ same_files s t) s.
Proof.
  intros Hw Hfull. eapply wp_mono; [by eapply gc_spec|..].
  - intros [] t [Hc Hfree]. split; [by apply collected_same|done].
  - intros e t [-> Hc]. split; [done|by apply collected_same].
Qed.

(** C10: Writing the blocks [a] to [b - 1] of a file in a well-formed state without
    empty index nodes and with room for [k + (b - a)] blocks: the volume has at
    least 69 segments more than the low threshold of the collection (so that a
    collection always finds 63 full ones), node numbers are left, and the logical
    blocks stay below 0.9 of the logical size.  The write either returns with
    exactly those blocks added to the file, its size extended to [b], every other
    block and file as before, and room for [k] blocks; or throws ERR_APP and the
    state is well formed; or it leaves the defined behaviour of the program in its
    last step, with the blocks written, and then the node of the file is dirty
    and its block the last valid one of a full segment. *)
Theorem file_write_correct s q fid m ofs secs a b k : LbaToBlock ofs secs = (a, b) -> lfs_wf s q -> tight (l_nodes s) ->
  file_at (l_nodes s) fid m -> 0 <= a <= b -> 0 <= k -> room s (k + (b - a)) ->
  match FileWrite junk fid ofs secs s with
  | (Ret _, t) => file_written s t fid m a b /\ room t k
  | (Throw e, t) => e = ERR_APP /\ exists q', lfs_wf t q'
  | (Fault, _) => exists u, file_written s u fid m a b /\ orphaned u fid = true
  end.
Proof. intros. by eapply (FileWrite_spec junk s q fid m ofs secs a b k). Qed.

(** C37: Reading a range of a file never fails and changes nothing: it returns, in
    order, the address of every block that the file has and null for every other
    one, and at each address is a record of that block of that file. *)
Theorem file_read_correct s q fid m ofs secs a b : LbaToBlock ofs secs = (a, b) -> lfs_wf s q ->
  file_at (l_nodes s) fid m -> 0 <= a <= b -> b <= MaxFileSize ->
  exists l, FileRead junk fid ofs secs s = (Ret l, s) /\ len l = b - a /\
    forall i, 0 <= i < b - a -> aget l i = Some (blk_of (l_nodes s) fid (a + i)) /\
      match blk_of (l_nodes s) fid (a + i) with
      | Some phy => exists x, view (l_segs s) phy = Some x /\ nid x = fid /\ offset x = a + i
      | None => True
      end.
Proof.
  intros Hab Hw Hf Ha Hb. destruct (proj1 (wp_runs _ _ _) (FileRead_spec junk s q fid m ofs secs a b Hab Hw Hf Ha Hb)) as (l & t & Hrun & -> & ->).
  eexists. split; [exact Hrun|]. split; [unfold range; rewrite length_map, length_seqZ; lia|]. intros i Hi. split.
  - apply aget_Some. split; [lia|]. unfold range. rewrite list_lookup_fmap, lookup_seqZ_lt by lia. cbn. do 3 f_equal. lia.
  - destruct (blk_of (l_nodes s) fid (a + i)) as [phy|] eqn:E; [|done]. by eapply blk_record.
Qed.

(** C38: Truncating a file that has a block never returns: it drops every block of
    the file and no other, and then throws std::out_of_range, since the emptied
    index nodes are freed under the address of their block, which is invalid, in
    place of their number. *)
Theorem file_truncate_throws s q fid m o : lfs_wf s q -> tight (l_nodes s) -> file_at (l_nodes s) fid m ->
  blk_of (l_nodes s) fid o <> None ->
  exists t, FileTruncate junk fid s = (Throw OUT_OF_RANGE, t) /\ (forall o, blk_of (l_nodes t) fid o = None) /\
    forall g o, g <> fid -> blk_of (l_nodes t) g o = blk_of (l_nodes s) g o.
Proof.
  intros Hw Ht Hf Ho. pose proof (FileTruncate_spec junk s q fid m o Hw Ht Hf Ho) as Hwp. unfold wp in Hwp.
  destruct (FileTruncate junk fid s) as [[[]|e|] t]; [done| |done]. destruct Hwp as (-> & H1 & H2). by exists t.
Qed.

(** C39: The last step of a write, [UpdateInode], in a well-formed state without
    empty index nodes whose volume has at least 69 segments more than the low
    threshold of the collection.  It leaves the defined behaviour of the program
    only when the node of the file is dirty and its block is the last valid one of
    a full segment: the segment is erased and the pointer to the parent is read
    from the erased block.  In that case it never returns.  When it returns, the
    files are unchanged and the state is well formed; when it throws, it throws
    ERR_APP. *)
Theorem update_inode_orphan s q fid m : lfs_wf s q -> roomy s -> tight (l_nodes s) -> file_at (l_nodes s) fid m ->
  match UpdateInode (PNode fid) s with
  | (Ret _, t) => orphaned s fid = false /\ same_files s t
  | (Throw e, t) => e = ERR_APP
  | (Fault, _) => orphaned s fid = true
  end.
Proof.
  intros Hw Hr Ht Hf. pose proof (UpdateInode_spec s q fid m Hw Hr Ht Hf) as Hwp. unfold wpf in Hwp.
  destruct (UpdateInode (PNode fid) s) as [[[]|e|] t]; [|by destruct Hwp as [-> _]|done].
  destruct Hwp as ((q' & Hw') & Hs & Ho). split; [done|]. constructor.
  - by exists q'.
  - apply Hs.
  - apply Hs.
  - intros f o b Hb. by eapply blk_record.
Qed.

(** C40: Dumping the segment table.  Whenever a dump returns, in any state, it
    has changed nothing, and the row of every segment counts its 512 blocks: the
    invalid ones, the blocks of nodes and the blocks of files.  With the sanity
    check it returns only when every block that is not invalid is where the
    table of nodes has it: the node of its number is in use and has this address,
    or the index block of the file has this address for this block of the file.
    In a well-formed state it does return, and the counts of nodes and of file
    blocks add up to the counter of valid blocks of the segment. *)
Theorem dump_segments_consistent s sanity_check : 0 <= m_seg_nr (l_segs s) ->
  (forall rows t, DumpSegments junk sanity_check s = (Ret rows, t) -> t = s /\ len rows = m_seg_nr (l_segs s) /\
     forall ss row, aget rows ss = Some row -> seg_dumped s sanity_check ss row) /\
  (forall q, lfs_wf s q -> exists rows, DumpSegments junk sanity_check s = (Ret rows, s) /\
     forall ss row, aget rows ss = Some row -> exists g, aget (m_segments (l_segs s)) ss = Some g /\
       row_node row + row_data row = valid_blk_nr g).
Proof.
  intros Hpos. split.
  - intros rows t E. pose proof (DumpSegments_sound junk s sanity_check Hpos) as Hs. unfold wlp in Hs. by rewrite E in Hs.
  - intros q Hw. destruct (proj1 (wp_runs _ _ _) (DumpSegments_spec junk s q sanity_check Hw)) as (rows & t & Hrun & -> & _ & Hrows).
    exists rows. split; [exact Hrun|]. intros ss row Hr. destruct (Hrows ss row Hr) as (g & Hg & _ & Hn & _). by exists g.
Qed.

(** The free segments are a first-in first-out queue whose last element is
    never given: a temperature without a segment gets the first of two or more
    and an exception when there is one; a freed segment is erased and goes to the
    end. *)
Theorem segment_ring_fifo (g : Segs) q : mgr_wf g q ->
  (forall temp, aget (m_cur_segs g) temp = Some INVALID_BLK ->
     match q with
     | x :: (_ :: _) as q' => exists g', current_segment temp g = (Ret x, g') /\ mgr_wf g' (tail q) /\ aget (m_cur_segs g') temp = Some x
     | _ => current_segment temp g = (Throw ERR_APP, g)
     end) /\
  (forall i sg, aget (m_segments g) i = Some sg -> i ∉ q -> i ∉ m_cur_segs g ->
     exists g', FreeSegment i g = (Ret tt, g') /\ mgr_wf g' (q ++ [i]) /\ aget (m_segments g') i = Some seg_reset).
Proof.
  intros Hw. destruct (mw_health _ _ Hw) as [h Hh]. split.
  - intros temp Hc. pose proof (rg_pos _ _ (mw_ring _ _ Hw)) as Hpos. destruct q as [|x [|y q]]; [cbn in Hpos; lia| |].
    { unfold current_segment, bind, get. rewrite Hc. cbn [opt ret]. rewrite Z.eqb_refl. by rewrite (AllocSegment_last _ _ _ Hw). }
    destruct (mw_free _ _ Hw x ltac:(by left)) as (sg & Hg & _). pose proof (aget_bounds _ _ _ Hc) as Hb.
    unfold current_segment, bind, get. rewrite Hc. cbn [opt ret]. rewrite Z.eqb_refl, (AllocSegment_more _ _ _ _ temp _ _ Hw Hg Hh).
    cbn [alloc_state set_segments set_health popped set_free m_cur_segs]. rewrite (aset_is_Some (m_cur_segs g)) by lia. cbn [opt ret put].
    eexists. split; [done|]. split; [|by apply aget_insert_eq].
    apply (wf_health (set_cur_segs (<[Z.to_nat temp := x]> (m_cur_segs g))
      (set_segments (<[Z.to_nat x := set_temp temp sg]> (m_segments g)) (popped g))) _ (h_free_seg (fun c => c - 1) h)). by apply wf_alloc.
  - intros i sg Hg Hq Hcs. destruct (wf_free _ _ _ _ Hw Hg Hq Hcs) as [_ Hw']. pose proof (aget_bounds _ _ _ Hg).
    eexists. split; [by eapply FreeSegment_runs|]. split; [by apply wf_health|]. by apply aget_insert_eq.
Qed.

(** Creating a file takes a node that was not in use, writes it, and gives an
    empty file; every other file keeps its size and blocks. *)
Theorem file_create_correct s q fn k : lfs_wf s q -> tight (l_nodes s) -> 0 <= k -> room s (k + 1) ->
  match FileCreate junk fn s with
  | (Ret fid, t) => used (l_nodes s) fid = None /\ file_at (l_nodes t) fid 0 /\ (forall o, blk_of (l_nodes t) fid o = None) /\
      same_files s t /\ tight (l_nodes t) /\ room t k
  | (Throw e, t) => e = ERR_APP
  | (Fault, _) => False
  end.
Proof.
  intros Hw Ht Hk Hr. pose proof (FileCreate_spec junk s q fn k Hw Ht Hk Hr) as Hwp. unfold wp in Hwp.
  destruct (FileCreate junk fn s) as [[fid|e|] t]; [|by destruct Hwp as [-> _]|done].
  destruct Hwp as ((q' & Hw') & Htt & Hu & Hf & Hfk & Hrt & Hb). split_and!; [done|done| |constructor|done|done].
  - intros o. apply Hb. unfold blk_of, dir_of. by rewrite Hu.
  - by exists q'.
  - done.
  - done.
  - intros f o b Hbb. by eapply blk_record.
Qed.

(** *** Reachable states *)
(** A simulator with room for [k] more blocks, reached from a fresh one by
    creating, opening, writing and reading files. *)
Inductive lfs_reach : Z -> Lfs -> Prop :=
  | reach_boot cur lo hi c s t k : 0 < config_segs c < 2 ^ 23 -> gc_seg_lo c + 69 <= config_segs c -> 0 <= k < 2 ^ 20 ->
      10 * k < 9 * config_logical c -> (lfs_new junk cur lo hi ;;; Initialzie c) s = (Ret true, t) -> lfs_reach k t
  | reach_create s fn fid t k : lfs_reach (k + 1) s -> 0 <= k -> FileCreate junk fn s = (Ret fid, t) -> lfs_reach k t
  | reach_open s fid m x t k : lfs_reach k s -> file_at (l_nodes s) fid m -> FileOpen fid x s = (Ret tt, t) -> lfs_reach k t
  | reach_write s fid m ofs secs a b t k : lfs_reach (k + (b - a)) s -> 0 <= k -> file_at (l_nodes s) fid m ->
      LbaToBlock ofs secs = (a, b) -> 0 <= a <= b -> FileWrite junk fid ofs secs s = (Ret tt, t) -> lfs_reach k t.

Lemma reach_good k s : lfs_reach k s -> good s k.
Proof.
  induction 1.
  - by eapply good_boot.
  - by eapply good_create.
  - by eapply good_open.
  - by eapply good_write.
Qed.

(** C11: Take a fresh simulator with at least 69 segments more than the low
    threshold of the collection, and fewer than [2^23].  In every state reached
    from it by creations, openings and writes of files that return, where the
    files created and the blocks written are in all fewer than [2^20] and below
    0.9 of the logical size, the dump of the segment table with its sanity check
    returns, and the map of every file can be dumped: each row is a block of the
    file with the counters that its record holds. *)
Theorem reachable_consistent k s : lfs_reach k s ->
  (exists rows, DumpSegments junk true s = (Ret rows, s)) /\
  forall fid m, file_at (l_nodes s) fid m -> exists rows, DumpFileMap_no_merge junk fid s = (Ret rows, s) /\
    forall row, row ∈ rows -> blk_of (l_nodes s) fid (map_offset row) = Some (map_phy row) /\
      exists x, view (l_segs s) (map_phy row) = Some x /\ nid x = fid /\ offset x = map_offset row /\
        host_write x = map_host row /\ media_write x = map_media row.
Proof.
  intros [(q & Hw) _ _]%reach_good. split.
  - destruct (proj1 (wp_runs _ _ _) (DumpSegments_spec junk s q true Hw)) as (rows & t & Hrun & -> & _). by exists rows.
  - intros fid m Hf. destruct (proj1 (wp_runs _ _ _) (DumpFileMap_spec junk s q fid m Hw Hf)) as (rows & t & Hrun & -> & ->).
    eexists. split; [exact Hrun|]. intros row (o & _ & Hin)%list_elem_of_In%in_flat_map. unfold map_row in Hin.
    destruct (blk_of (l_nodes s) fid o) as [b|] eqn:Eb; [|done]. destruct (blk_record s q fid o b Hw Eb) as (x & Hv & E1 & E2).
    rewrite Hv in Hin. destruct Hin as [<-|[]]. split; [done|]. by exists x.
Qed.
End Props.
(** * The properties on concrete simulators *)
Lemma wf2 : exists q, lfs_wf lfs2 q.
Proof. apply (proj1 good2). Qed.

Lemma gc_keeps_files_witness : exists q, lfs_wf lfs_full q /\ 63 <= full_nr lfs_full (range 0 (m_seg_nr (l_segs lfs_full))) /\
  wp GarbageCollection
    (fun _ t => same_files lfs_full t /\ (m_gc_hi (l_segs t) <= m_free_nr (l_segs t) \/ m_gc_lo (l_segs t) < m_free_nr (l_segs t)))
    (fun e t => e = ERR_APP /\ same_files lfs_full t) lfs_full.
Proof.
  destruct good_full as [[q Hw] _ _]. exists q. assert (Hf : 63 <= full_nr lfs_full (range 0 (m_seg_nr (l_segs lfs_full)))) by (by vm_compute).
  split; [exact Hw|]. split; [exact Hf|]. exact (gc_keeps_files lfs_full q Hw Hf).
Defined.

Lemma file_write_correct_witness : exists q, lfs_wf lfs2 q /\ fst (FileWrite junk0 1 8 24 lfs2) = Ret tt /\
  match FileWrite junk0 1 8 24 lfs2 with
  | (Ret _, t) => file_written lfs2 t 1 3 1 4 /\ room t 9000
  | (Throw e, t) => e = ERR_APP /\ exists q', lfs_wf t q'
  | (Fault, _) => exists u, file_written lfs2 u 1 3 1 4 /\ orphaned u 1 = true
  end.
Proof.
  destruct good2 as [[[q Hw] Ht Hr] Hf]. exists q. split; [exact Hw|]. split; [by vm_compute|].
  apply (file_write_correct junk0 lfs2 q 1 3 8 24 1 4 9000); [reflexivity|exact Hw|exact Ht|exact Hf|lia|lia|].
  apply (room_less lfs2 9996); [exact Hr|lia].
Defined.

Lemma file_read_correct_witness : exists q, lfs_wf lfs2 q /\
  exists l, FileRead junk0 1 0 32 lfs2 = (Ret l, lfs2) /\ len l = 4 - 0 /\
    forall i, 0 <= i < 4 - 0 -> aget l i = Some (blk_of (l_nodes lfs2) 1 (0 + i)) /\
      match blk_of (l_nodes lfs2) 1 (0 + i) with
      | Some phy => exists x, view (l_segs lfs2) phy = Some x /\ nid x = 1 /\ offset x = 0 + i
      | None => True
      end.
Proof.
  destruct good2 as [[[q Hw] Ht Hr] Hf]. exists q. split; [exact Hw|].
  apply (file_read_correct junk0 lfs2 q 1 3 0 32 0 4); [reflexivity|exact Hw|exact Hf|lia|unfold MaxFileSize, MAX_TABLE_SIZE, INDEX_SIZE; lia].
Defined.

Lemma file_truncate_throws_witness : exists q, lfs_wf lfs2 q /\
  exists t, FileTruncate junk0 1 lfs2 = (Throw OUT_OF_RANGE, t) /\ (forall o, blk_of (l_nodes t) 1 o = None) /\
    forall g o, g <> 1 -> blk_of (l_nodes t) g o = blk_of (l_nodes lfs2) g o.
Proof.
  destruct good2 as [[[q Hw] Ht Hr] Hf]. exists q. split; [exact Hw|].
  apply (file_truncate_throws junk0 lfs2 q 1 3 0); [exact Hw|exact Ht|exact Hf|]. by vm_compute.
Defined.

Lemma node_upd_eq s i n f : aget (m_nodes (l_nodes s)) i = Some n ->
  node_upd (PNode i) f s = (Ret tt, set_nodes (upd (l_nodes s) i (f n)) s).
Proof.
  intros Hn. pose proof (aget_bounds _ _ _ Hn). unfold node_upd, node, bind, get. rewrite Hn. cbn [opt ret].
  unfold on_nodes, zoom, inodes_put, bind, get. by rewrite aset_is_Some by lia.
Qed.

Lemma good_dirty s k m : good s k -> file_at (l_nodes s) 1 m ->
  good (snd (node_upd (PNode 1) (set_dirty true) s)) k /\ file_at (l_nodes (snd (node_upd (PNode 1) (set_dirty true) s))) 1 m.
Proof.
  intros [(q & Hw) Ht Hr] Hf. destruct (file_at_node _ _ _ Hf) as (n & d & r & y & h & Hn & Hu & _).
  destruct (neutral_step s q 1 n (set_dirty true n) Hw Hu) as (Hw2 & Hm2 & Hk2).
  { apply neutral_same_body; try done. by destruct (used_ok _ _ _ (lw_nodes _ _ Hw) Hu). }
  rewrite (node_upd_eq _ _ n) by done. cbn [snd]. split; [|by apply Hk2]. constructor; [by exists q| |].
  - intros f j p. cbn. rewrite (sm_dir _ _ Hm2). intros (o & Eo & Hb)%Ht. exists o. by rewrite (same_maps_blk _ _ _ _ Hm2).
  - apply (room_stable s _ k 0); [by rewrite Z.add_0_r|done|done|cbn; lia].
Qed.

(** The node of file 1 is dirty and alone in its segment. *)
Definition lfs_orphan : Lfs := snd (node_upd (PNode 1) (set_dirty true) (age lfs1)).
Lemma good_orphan : good lfs_orphan 9999 /\ file_at (l_nodes lfs_orphan) 1 0.
Proof. destruct good1 as [Hg Hf]. destruct (good_age _ _ _ Hg Hf) as [Hg' Hf']. by apply good_dirty. Qed.
Lemma update_inode_orphan_witness : orphaned lfs_orphan 1 = true /\ fst (UpdateInode (PNode 1) lfs_orphan) = Fault /\
  match UpdateInode (PNode 1) lfs_orphan with
  | (Ret _, t) => orphaned lfs_orphan 1 = false /\ same_files lfs_orphan t
  | (Throw e, t) => e = ERR_APP
  | (Fault, _) => orphaned lfs_orphan 1 = true
  end.
Proof.
  destruct good_orphan as [[[q Hw] Ht Hr] Hf]. split; [by vm_compute|]. split; [by vm_compute|].
  exact (update_inode_orphan lfs_orphan q 1 0 Hw (ro_segs _ _ Hr) Ht Hf).
Defined.

Lemma dump_segments_consistent_witness : (exists q, lfs_wf lfs2 q) /\
  exists rows, DumpSegments junk0 true lfs2 = (Ret rows, lfs2) /\ len rows = m_seg_nr (l_segs lfs2) /\
    (forall ss row, aget rows ss = Some row -> seg_dumped lfs2 true ss row) /\
    forall ss row, aget rows ss = Some row -> exists g, aget (m_segments (l_segs lfs2)) ss = Some g /\ row_node row + row_data row = valid_blk_nr g.
Proof.
  split; [exact wf2|]. destruct wf2 as [q Hw].
  destruct (dump_segments_consistent junk0 lfs2 true ltac:(vm_compute; discriminate)) as [H1 H2].
  destruct (H2 q Hw) as (rows & Hr & Hn). destruct (H1 rows lfs2 Hr) as (_ & Hl & Hd). exists rows. exact (conj Hr (conj Hl (conj Hd Hn))).
Defined.

Lemma segment_ring_fifo_witness : mgr_wf (l_segs lfs0) (range 0 98) /\
  exists g', current_segment BT_HOT__DATA (l_segs lfs0) = (Ret 0, g') /\ mgr_wf g' (tail (range 0 98)) /\ aget (m_cur_segs g') BT_HOT__DATA = Some 0.
Proof.
  assert (Hw : mgr_wf (l_segs lfs0) (range 0 98)).
  { assert (Hc : config_segs cfg = 98) by (vm_compute; reflexivity). unfold lfs0.
    pose proof (boot_spec junk0 [] 0 0 cfg nothing ltac:(by rewrite Hc)) as Hb. rewrite Hc in Hb.
    apply (wp_known _ _ _ _ true _ Hb). apply returns. vm_compute. reflexivity. }
  split; [exact Hw|]. apply (proj1 (segment_ring_fifo (l_segs lfs0) (range 0 98) Hw) BT_HOT__DATA). vm_compute. reflexivity.
Defined.

Lemma file_create_correct_witness : exists q, lfs_wf lfs0 q /\
  match FileCreate junk0 "a" lfs0 with
  | (Ret fid, t) => used (l_nodes lfs0) fid = None /\ file_at (l_nodes t) fid 0 /\ (forall o, blk_of (l_nodes t) fid o = None) /\
      same_files lfs0 t /\ tight (l_nodes t) /\ room t 9999
  | (Throw e, t) => e = ERR_APP
  | (Fault, _) => False
  end.
Proof.
  destruct good0 as [[q Hw] Ht Hr]. exists q. split; [exact Hw|].
  apply (file_create_correct junk0 lfs0 q "a" 9999); [exact Hw|exact Ht|lia|exact Hr].
Defined.

Lemma reach2 : lfs_reach junk0 9996 lfs2.
Proof.
  destruct good1 as [_ Hf]. unfold lfs2. eapply (reach_write junk0 lfs1 1 0 0 24 0 3); [|done|exact Hf|reflexivity|done|].
  2:{ apply returns. vm_compute. reflexivity. }
  unfold lfs1. eapply (reach_create junk0 lfs0 "a" 1); [|done|].
  2:{ apply returns. vm_compute. reflexivity. }
  assert (Hc : config_segs cfg = 98) by (vm_compute; reflexivity). assert (Hl : config_logical cfg = 50000) by (vm_compute; reflexivity).
  unfold lfs0. apply (reach_boot junk0 [] 0 0 cfg nothing); rewrite ?Hc, ?Hl; [done..|]. apply returns. vm_compute. reflexivity.
Qed.
Lemma reachable_consistent_witness : lfs_reach junk0 9996 lfs2 /\ exists rows, DumpSegments junk0 true lfs2 = (Ret rows, lfs2).
Proof. split; [exact reach2|]. exact (proj1 (reachable_consistent junk0 9996 lfs2 reach2)). Defined.
