(* ===== verification/PerfHeap.v ===== *)
(** PerfHeap: the pool of victims [GcPoolHeap<N, SEG_TYPE>] of
    performance_simulation/source/segment_manager.h.  The largest elements are
    kept in a heap in which a hole moves, and sorted into a second heap.  An
    element is a pointer to a segment, here its number; [val] looks its number of
    valid blocks up. *)
From S2P Require Export PerfComm.

Record GcPoolHeap := mkHeap {
  large_len : Z; small_len : Z;
  large_heap : list (option Z); small_heap : list (option Z);
  pop_ptr : Z
}.

Section Heap.
Context (N : Z) (val : Z -> option Z).
Abbreviation Pool := GcPoolHeap.

(** [pop_ptr] is not initialised: it is what the memory held. *)
Definition heap_new (mem : Z) : Pool :=
  mkHeap 0 0 (replicate (Z.to_nat N) None) (replicate (Z.to_nat N) None) mem.

Definition cell_at (h : list (option Z)) (i : Z) : M Pool Z := e <- opt (aget h i) ;; opt e.
Definition val_at (h : list (option Z)) (i : Z) : M Pool Z := e <- cell_at h i ;; opt (val e).
Definition set_large (l : Z) (h : list (option Z)) : M Pool unit :=
  modify (fun p => mkHeap l (small_len p) h (small_heap p) (pop_ptr p)).
Definition set_small (l : Z) (h : list (option Z)) : M Pool unit :=
  modify (fun p => mkHeap (large_len p) l (large_heap p) h (pop_ptr p)).
Definition swap (h : list (option Z)) (i j : Z) : option (list (option Z)) :=
  a ← aget h i; b ← aget h j; h1 ← aset h i b; aset h1 j a.

(** The hole moves to the root while the father is smaller than the key. *)
Definition large_add (key : Z) : M Pool unit :=
  p <- get ;;
  key_val <- opt (val key) ;;
  r <- mwhile (Z.to_nat (N + 1)) (large_heap p, large_len p) (fun hc =>
    let '(h, cur) := hc in
    if negb (0 <? cur) then ret (Break (h, cur)) else
    let pp := Z.shiftr (cur - 1) 1 in
    fa <- val_at h pp ;;
    if key_val <=? fa then ret (Break (h, cur)) else
    e <- opt (aget h pp) ;;
    h' <- opt (aset h cur e) ;;
    ret (Next (h', pp))) ;;
  h <- opt (aset r.1 r.2 (Some key)) ;;
  set_large (large_len p + 1) h.

(** The hole moves down while a child is larger than the key. *)
Definition large_heapify (key : Z) : M Pool unit :=
  p <- get ;;
  key_val <- opt (val key) ;;
  r <- mwhile (Z.to_nat (N + 1)) (large_heap p, 0) (fun hc =>
    let '(h, cur) := hc in
    let left := cur * 2 + 1 in
    let right := left + 1 in
    lv <- (if left <? large_len p
           then v <- val_at h left ;; ret (if key_val <? v then (left, v) else (cur, key_val))
           else ret (cur, key_val)) ;;
    largest <- (if right <? large_len p
                then v <- val_at h right ;; ret (if lv.2 <? v then right else lv.1)
                else ret lv.1) ;;
    if largest =? cur then ret (Break (h, cur)) else
    e <- opt (aget h largest) ;;
    h' <- opt (aset h cur e) ;;
    ret (Next (h', largest))) ;;
  h <- opt (aset r.1 r.2 (Some key)) ;;
  set_large (large_len p) h.

Definition Push (seg : Z) : M Pool unit :=
  p <- get ;;
  if large_len p <? N - 1 then large_add seg
  else
    v <- opt (val seg) ;;
    top <- val_at (large_heap p) 0 ;;
    if v <? top then large_heapify seg else ret tt.

Definition small_add (h : list (option Z)) (cur : Z) : M Pool (list (option Z)) :=
  r <- mwhile (Z.to_nat (N + 1)) (h, cur) (fun hc =>
    let '(h, cur) := hc in
    if negb (0 <? cur) then ret (Break (h, cur)) else
    let pp := (cur - 1) / 2 in
    ch <- val_at h cur ;;
    fa <- val_at h pp ;;
    if fa <=? ch then ret (Break (h, cur))
    else h' <- opt (swap h cur pp) ;; ret (Next (h', pp))) ;;
  ret r.1.

Definition small_heapify (len : Z) (h : list (option Z)) : M Pool (list (option Z)) :=
  r <- mwhile (Z.to_nat (N + 1)) (h, 0) (fun hc =>
    let '(h, cur) := hc in
    let left := cur * 2 + 1 in
    let right := left + 1 in
    largest <- (if left <? len
                then a <- val_at h left ;; b <- val_at h cur ;; ret (if a <? b then left else cur)
                else ret cur) ;;
    largest <- (if right <? len
                then a <- val_at h right ;; b <- val_at h largest ;; ret (if a <? b then right else largest)
                else ret largest) ;;
    if largest =? cur then ret (Break (h, cur))
    else h' <- opt (swap h largest cur) ;; ret (Next (h', largest))) ;;
  ret r.1.

(** All [N - 1] cells are moved, however many were filled. *)
Definition Sort : M Pool unit :=
  p <- get ;;
  set_small 0 (small_heap p) ;;;
  mfor (rev (range 0 (N - 1))) (fun ii =>
    p <- get ;;
    e <- cell_at (large_heap p) ii ;;
    h <- opt (aset (small_heap p) (small_len p) (Some e)) ;;
    h <- small_add h (small_len p) ;;
    set_small (small_len p + 1) h).

(** [None] is the null pointer. *)
Definition Pop : M Pool (option Z) :=
  p <- get ;;
  if small_len p <=? pop_ptr p then ret None else
  pop <- cell_at (small_heap p) 0 ;;
  let n := small_len p - 1 in
  last <- opt (aget (small_heap p) n) ;;
  h <- opt (aset (small_heap p) 0 last) ;;
  h <- small_heapify n h ;;
  set_small n h ;;;
  ret (Some pop).
End Heap.
