(* ===== verification/PerfQuick.v ===== *)
(** PerfQuick: the pool of victims [GcPoolQuick<N, SEG_TYPE>] of
    performance_simulation/source/segment_manager.h.  It separates the segments at
    a threshold while they are pushed and sorts with a quicksort that leaves out
    what cannot be among the first [N].  An element is a pointer to a segment,
    here its number; [val] looks its number of valid blocks up.  The counter
    [sort_count] of calls is left out. *)
From S2P Require Export PerfComm.

(** * [GcPoolQuick] *)
Record GcPoolQuick := mkQuick {
  q_pth : Z; q_buf : list (option Z); q_buf_size : Z; q_data_size : Z; q_pop_ptr : Z;
  q_low : Z; q_high : Z; q_min_val : Z; q_max_val : Z
}.

Section Quick.
Context (N : Z) (val : Z -> option Z).
Abbreviation Pool := GcPoolQuick.

(** [GcPoolQuick(seg_nr)]: the other members keep what the memory held. *)
Definition quick_new (mem : Pool) (seg_nr : Z) : Pool :=
  mkQuick 500 (replicate (Z.to_nat seg_nr) None) seg_nr (q_data_size mem) (q_pop_ptr mem)
    (q_low mem) (q_high mem) (q_min_val mem) (q_max_val mem).

Definition set_buf (h : list (option Z)) (p : Pool) : Pool :=
  mkQuick (q_pth p) h (q_buf_size p) (q_data_size p) (q_pop_ptr p) (q_low p) (q_high p) (q_min_val p) (q_max_val p).
Definition set_bounds (lo hi size : Z) (p : Pool) : Pool :=
  mkQuick (q_pth p) (q_buf p) (q_buf_size p) size (q_pop_ptr p) lo hi (q_min_val p) (q_max_val p).
Definition set_pop (n : Z) (p : Pool) : Pool :=
  mkQuick (q_pth p) (q_buf p) (q_buf_size p) (q_data_size p) n (q_low p) (q_high p) (q_min_val p) (q_max_val p).
Definition set_minmax (a b : Z) (p : Pool) : Pool :=
  mkQuick (q_pth p) (q_buf p) (q_buf_size p) (q_data_size p) (q_pop_ptr p) (q_low p) (q_high p) a b.

Definition init : M Pool unit := modify (fun p => set_bounds 0 (w64 (q_buf_size p - 1)) 0 p).

(** [buf[i]->valid_blk_nr]; a null pointer has no value. *)
Definition ptr_at (h : list (option Z)) (i : Z) : M Pool Z := e <- opt (aget h i) ;; opt e.
Definition vb_at (h : list (option Z)) (i : Z) : M Pool Z := e <- ptr_at h i ;; opt (val e).

Definition Push (seg : Z) : M Pool unit :=
  p <- get ;;
  v <- opt (val seg) ;;
  (if q_pth p <=? v then
     h <- opt (aset (q_buf p) (q_high p) (Some seg)) ;;
     put (set_bounds (q_low p) (w64 (q_high p - 1)) (q_data_size p) (set_buf h p))
   else
     h <- opt (aset (q_buf p) (q_low p) (Some seg)) ;;
     put (set_bounds (w64 (q_low p + 1)) (q_high p) (q_data_size p) (set_buf h p))) ;;;
  modify (fun p => set_bounds (q_low p) (q_high p) (w64 (q_data_size p + 1)) p).

(** [while (buf[right]->valid_blk_nr >= pivot && right > left) right--;] *)
Definition scan_right (pivot : Z) (h : list (option Z)) (lo hi : Z) : M Pool Z :=
  mwhile (Z.to_nat (hi - lo + 1)) hi (fun hi =>
    v <- vb_at h hi ;;
    if (pivot <=? v) && (lo <? hi) then ret (Next (hi - 1)) else ret (Break hi)).
Definition scan_left (pivot : Z) (h : list (option Z)) (lo hi : Z) : M Pool Z :=
  mwhile (Z.to_nat (hi - lo + 1)) lo (fun lo =>
    v <- vb_at h lo ;;
    if (v <? pivot) && (lo <? hi) then ret (Next (lo + 1)) else ret (Break lo)).

(** One turn of the loop of [partition]; [key] is the pivot. *)
Definition partition_turn (key pivot : Z) (st : list (option Z) * Z * Z) : M Pool (list (option Z) * Z * Z) :=
  let '(h, lo, hi) := st in
  hi <- scan_right pivot h lo hi ;;
  hl <- (if lo <? hi then
           e <- opt (aget h hi) ;;
           h <- opt (aset h lo e) ;;
           h <- opt (aset h hi (Some key)) ;;
           ret (h, lo + 1)
         else ret (h, lo)) ;;
  let '(h, lo) := hl : list (option Z) * Z in
  lo <- scan_left pivot h lo hi ;;
  if lo <? hi then
    e <- opt (aget h lo) ;;
    h <- opt (aset h hi e) ;;
    h <- opt (aset h lo (Some key)) ;;
    ret (h, lo, hi - 1)
  else ret (h, lo, hi).
Definition partition (h : list (option Z)) (lo hi : Z) : M Pool (list (option Z) * Z) :=
  key <- ptr_at h lo ;;
  pivot <- opt (val key) ;;
  r <- mwhile (Z.to_nat (hi - lo + 1)) (h, lo, hi) (fun st =>
    let '(h, lo, hi) := st in
    if negb (lo <? hi) then ret (Break (h, lo, hi))
    else st' <- partition_turn key pivot (h, lo, hi) ;; ret (Next st')) ;;
  let '(h, lo, _) := r : list (option Z) * Z * Z in
  ret (h, lo).

(** The cells from [pi + 1] on are sorted only when the first [N] reach them. *)
Fixpoint partial_qsort (fuel : nat) (h : list (option Z)) (left right : Z) : M Pool (list (option Z)) :=
  match fuel with
  | O => fault
  | S fuel =>
      if negb (left <? right) then ret h else
      if left + 1 =? right then
        a <- vb_at h left ;;
        b <- vb_at h right ;;
        if b <? a then
          x <- opt (aget h left) ;;
          y <- opt (aget h right) ;;
          h <- opt (aset h left y) ;;
          opt (aset h right x)
        else ret h
      else
        r <- partition h left right ;;
        let '(h, pi) := r : list (option Z) * Z in
        h <- partial_qsort fuel h left pi ;;
        if pi <? N then partial_qsort fuel h (pi + 1) right else ret h
  end.

(** [buf[i] ? buf[i]->valid_blk_nr : 0] *)
Definition vb_or_zero (h : list (option Z)) (i : Z) : M Pool Z :=
  e <- opt (aget h i) ;;
  match e with None => ret 0 | Some e => opt (val e) end.

Definition quick_fuel (size : Z) : nat := Z.to_nat (2 * size + 2).
(** The cells behind [high] are moved to [low]. *)
Definition compact (h : list (option Z)) (low high size : Z) : M Pool (list (option Z) * Z) :=
  mfold (range (w64 (high + 1)) size) (h, low) (fun st ii =>
    let '(h, to) := st : list (option Z) * Z in
    e <- opt (aget h ii) ;;
    h <- opt (aset h to e) ;;
    ret (h, to + 1)).

Definition Sort : M Pool unit :=
  p <- get ;;
  let fuel := quick_fuel (q_buf_size p) in
  h <- (if 0 <? q_low p then partial_qsort fuel (q_buf p) 0 (q_low p - 1) else ret (q_buf p)) ;;
  hs <- (if q_low p <? N then
           hs <- (if q_low p <=? q_high p then compact h (q_low p) (q_high p) (q_buf_size p)
                  else ret (h, q_buf_size p)) ;;
           let '(h, size) := hs : list (option Z) * Z in
           h <- partial_qsort fuel h (q_low p) (w64 (size - 1)) ;;
           ret (h, size)
         else ret (h, q_data_size p)) ;;
  let '(h, size) := hs : list (option Z) * Z in
  a <- vb_or_zero h 0 ;;
  b <- vb_or_zero h (N - 1) ;;
  modify (fun p => set_minmax a b (set_pop 0 (set_bounds (q_low p) (q_high p) size (set_buf h p)))).

(** [None] is the null pointer: all [N] were given out, or the cell is empty. *)
Definition Pop : M Pool (option Z) :=
  p <- get ;;
  if N <=? q_pop_ptr p then ret None else
  e <- opt (aget (q_buf p) (q_pop_ptr p)) ;;
  put (set_pop (w64 (q_pop_ptr p + 1)) p) ;;;
  ret e.
Definition get_buf : M Pool (list (option Z)) := gets q_buf.
Definition get_seg_nr : M Pool Z := gets q_data_size.
End Quick.
