(* ===== verification/PerfQuickInv.v ===== *)
(** PerfQuickInv: the quicksort of [GcPoolQuick] puts the segments with the
    fewest valid blocks, in ascending order, at the front of the buffer, and
    terminates although it keeps the pivot in the left part. *)
From S2P Require Export PerfQuick.
From Stdlib Require Import Sorting.Sorted.
Open Scope Z_scope.

Section Quick.
Context (N : Z) (val : Z -> option Z).
Abbreviation Pool := GcPoolQuick.
Implicit Types (h : list (option Z)) (p : Pool).

(** The cells of a range point to segments; the value of a cell. *)
Definition filled h (lo hi : Z) : Prop :=
  forall i, lo <= i <= hi -> exists e v, aget h i = Some (Some e) /\ val e = Some v.
Definition vat h (i : Z) : Z :=
  match aget h i with Some (Some e) => default 0 (val e) | _ => 0 end.
(** The cells of a range were exchanged. *)
Definition shuffled (lo hi : Z) h h' : Prop :=
  h' ≡ₚ h /\ (forall i, ~ (lo <= i <= hi) -> aget h' i = aget h i) /\
  (forall i, lo <= i <= hi -> exists j, lo <= j <= hi /\ aget h' i = aget h j).

Lemma vat_eq h i e v : aget h i = Some (Some e) -> val e = Some v -> vat h i = v.
Proof. intros H E. unfold vat. by rewrite H, E. Qed.
Lemma filled_vat h lo hi i : filled h lo hi -> lo <= i <= hi ->
  exists e, aget h i = Some (Some e) /\ val e = Some (vat h i).
Proof. intros H Hi. destruct (H i Hi) as (e & v & He & Hv). exists e. split; [done|]. by rewrite (vat_eq _ _ _ _ He Hv). Qed.
Lemma filled_sub h lo hi lo' hi' : filled h lo hi -> lo <= lo' -> hi' <= hi -> filled h lo' hi'.
Proof. intros H H1 H2 i Hi. apply H. lia. Qed.
Lemma filled_len h lo hi i : filled h lo hi -> lo <= i <= hi -> 0 <= i < Z.of_nat (length h).
Proof. intros H Hi. destruct (H i Hi) as (e & v & He & _). by apply aget_bounds in He. Qed.
Lemma shuffled_refl lo hi h : shuffled lo hi h h.
Proof. split_and!; [done|done|]. intros i Hi. by exists i. Qed.
Lemma shuffled_trans lo hi h1 h2 h3 : shuffled lo hi h1 h2 -> shuffled lo hi h2 h3 -> shuffled lo hi h1 h3.
Proof.
  intros (P1 & O1 & I1) (P2 & O2 & I2). split_and!; [by rewrite P2|by intros i Hi; rewrite O2, O1|].
  intros i Hi. destruct (I2 i Hi) as (j & Hj & ->). by apply I1.
Qed.
Lemma shuffled_widen lo hi lo' hi' h h' : shuffled lo hi h h' -> lo' <= lo -> hi <= hi' -> shuffled lo' hi' h h'.
Proof.
  intros (P & O & I) H1 H2. split_and!; [done|intros i Hi; apply O; lia|]. intros i Hi.
  destruct (decide (lo <= i <= hi)) as [Hin|Hout].
  - destruct (I i Hin) as (j & Hj & E). exists j. split; [lia|done].
  - exists i. split; [done|by apply O].
Qed.
Lemma shuffled_vat lo hi h h' i : shuffled lo hi h h' -> lo <= i <= hi -> exists j, lo <= j <= hi /\ vat h' i = vat h j.
Proof. intros (_ & _ & I) Hi. destruct (I i Hi) as (j & Hj & E). exists j. split; [done|]. unfold vat. by rewrite E. Qed.
Lemma shuffled_out lo hi h h' i : shuffled lo hi h h' -> ~ (lo <= i <= hi) -> vat h' i = vat h i.
Proof. intros (_ & O & _) Hi. unfold vat. by rewrite O. Qed.
Lemma shuffled_filled lo hi h h' : shuffled lo hi h h' -> filled h lo hi -> filled h' lo hi.
Proof. intros (_ & _ & I) H i Hi. destruct (I i Hi) as (j & Hj & ->). by apply H. Qed.

(** Two assignments that exchange two cells. *)
Lemma exchange_shuffled lo hi h i j x y : i <> j -> lo <= i <= hi -> lo <= j <= hi ->
  aget h i = Some x -> aget h j = Some y ->
  exists h1 h2, aset h j x = Some h1 /\ aset h1 i y = Some h2 /\ shuffled lo hi h h2 /\
    aget h2 i = Some y /\ aget h2 j = Some x /\ forall k, k <> i -> k <> j -> aget h2 k = aget h k.
Proof.
  intros Hne Hi Hj Hx Hy. pose proof (aget_bounds _ _ _ Hx) as Bi. pose proof (aget_bounds _ _ _ Hy) as Bj.
  pose proof Hx as [_ Lx]%aget_Some. pose proof Hy as [_ Ly]%aget_Some.
  set (h1 := <[Z.to_nat j := x]> h). set (h2 := <[Z.to_nat i := y]> h1).
  assert (Hg : forall k, aget h2 k = if decide (k = i) then Some y else if decide (k = j) then Some x else aget h k).
  { intros k. subst h1 h2. destruct (decide (0 <= k)) as [Hk|Hk].
    - rewrite !aget_insert by (rewrite ?length_insert; lia).
      destruct (Z.eqb_spec i k), (Z.eqb_spec j k); repeat case_decide; congruence.
    - rewrite decide_False, decide_False by lia. unfold aget. by rewrite !(proj2 (Z.leb_gt 0 k)) by lia. }
  exists h1, h2. split_and!.
  - by apply aset_is_Some.
  - apply aset_is_Some. subst h1. rewrite length_insert. lia.
  - split_and!.
    + subst h1 h2. apply insert_swap; [lia|done|done].
    + intros k Hk. rewrite Hg. rewrite !decide_False by lia. done.
    + intros k Hk. rewrite Hg. case_decide; [by exists j|]. case_decide; [by exists i|by exists k].
  - by rewrite Hg, decide_True.
  - by rewrite Hg, decide_False, decide_True by done.
  - intros k H1 H2. by rewrite Hg, !decide_False by done.
Qed.

(** * The scans *)
Lemma wp_vb_at {B} h lo hi i (k : Z -> M Pool B) (Q : B -> Pool -> Prop) E p :
  filled h lo hi -> lo <= i <= hi -> wp (k (vat h i)) Q E p -> wp (v <- vb_at val h i ;; k v) Q E p.
Proof.
  intros H Hi HQ. destruct (filled_vat _ _ _ _ H Hi) as (e & He & Hv). unfold vb_at, ptr_at. wp_steps.
  eapply wp_bind_opt; [exact He|]. cbn [opt]. wp_steps. eapply wp_bind_opt; [exact Hv|exact HQ].
Qed.

Lemma scan_right_spec pivot h lo hi p : filled h lo hi -> lo <= hi ->
  wp (scan_right val pivot h lo hi) (fun r p' => p' = p /\ lo <= r <= hi /\
    (forall i, r < i <= hi -> pivot <= vat h i) /\ (lo < r -> vat h r < pivot)) (fun _ _ => False) p.
Proof.
  intros Hf Hlo. unfold scan_right.
  apply (wp_mwhile _ _ _ (fun r p' => p' = p /\ lo <= r <= hi /\ forall i, r < i <= hi -> pivot <= vat h i) (fun r _ => r - lo)).
  - split_and!; [done|lia|lia|lia].
  - intros r t (_ & Hr & _). lia.
  - lia.
  - intros r t (-> & Hr & Hi). eapply wp_vb_at; [exact Hf|lia|].
    destruct (Z.leb_spec pivot (vat h r)) as [Hv|Hv], (Z.ltb_spec lo r) as [Hl|Hl]; cbn [andb]; wp_steps.
    + split; [|lia]. split_and!; [done|lia|lia|]. intros i Hi'. destruct (decide (i = r)) as [->|]; [done|apply Hi; lia].
    + split_and!; [done|lia|lia|done|lia].
    + split_and!; [done|lia|lia|done|done].
    + split_and!; [done|lia|lia|done|done].
Qed.
Lemma scan_left_spec pivot h lo hi p : filled h lo hi -> lo <= hi ->
  wp (scan_left val pivot h lo hi) (fun r p' => p' = p /\ lo <= r <= hi /\
    (forall i, lo <= i < r -> vat h i < pivot) /\ (r < hi -> pivot <= vat h r)) (fun _ _ => False) p.
Proof.
  intros Hf Hlo. unfold scan_left.
  apply (wp_mwhile _ _ _ (fun r p' => p' = p /\ lo <= r <= hi /\ forall i, lo <= i < r -> vat h i < pivot) (fun r _ => hi - r)).
  - split_and!; [done|lia|lia|lia].
  - intros r t (_ & Hr & _). lia.
  - lia.
  - intros r t (-> & Hr & Hi). eapply wp_vb_at; [exact Hf|lia|].
    destruct (Z.ltb_spec (vat h r) pivot) as [Hv|Hv], (Z.ltb_spec r hi) as [Hl|Hl]; cbn [andb]; wp_steps.
    + split; [|lia]. split_and!; [done|lia|lia|]. intros i Hi'. destruct (decide (i = r)) as [->|]; [done|apply Hi; lia].
    + split_and!; [done|lia|lia|done|lia].
    + split_and!; [done|lia|lia|done|done].
    + split_and!; [done|lia|lia|done|lia].
Qed.

(** * Partition *)

(** What lies outside [lo, hi] is on its side of the pivot, which is at [lo];
    [lo] or [hi] has moved when the last cell was not below the pivot. *)
Record parting h0 (lo0 hi0 key : Z) (st : list (option Z) * Z * Z) : Prop := {
  pt_range : lo0 <= st.1.2 <= st.2 /\ st.2 <= hi0;
  pt_shuffled : shuffled lo0 hi0 h0 st.1.1;
  pt_key : aget st.1.1 st.1.2 = Some (Some key);
  pt_low i : lo0 <= i < st.1.2 -> vat st.1.1 i < vat h0 lo0;
  pt_high i : st.2 < i <= hi0 -> vat h0 lo0 <= vat st.1.1 i;
  pt_moved : vat h0 lo0 <= vat h0 hi0 -> st.2 < hi0 \/ st = (h0, lo0, hi0)
}.

(** The first half of a turn leaves the pivot at [hi]. *)
Record half_parted h0 (lo0 hi0 key : Z) (h : list (option Z)) (lo hi : Z) : Prop := {
  hp_range : lo0 <= lo <= hi /\ hi <= hi0;
  hp_shuffled : shuffled lo0 hi0 h0 h;
  hp_key : aget h hi = Some (Some key);
  hp_low i : lo0 <= i < lo -> vat h i < vat h0 lo0;
  hp_high i : hi < i <= hi0 -> vat h0 lo0 <= vat h i;
  hp_moved : vat h0 lo0 <= vat h0 hi0 -> hi < hi0
}.

Lemma vat_ext h h' i : aget h' i = aget h i -> vat h' i = vat h i.
Proof. unfold vat. by intros ->. Qed.

Lemma first_half h0 lo0 hi0 key h lo hi r p : filled h0 lo0 hi0 -> val key = Some (vat h0 lo0) ->
  parting h0 lo0 hi0 key (h, lo, hi) -> lo < hi -> lo <= r <= hi ->
  (forall i, r < i <= hi -> vat h0 lo0 <= vat h i) -> (lo < r -> vat h r < vat h0 lo0) ->
  wp (if lo <? r then
           e <- opt (aget h r) ;;
           h <- opt (aset h lo e) ;;
           h <- opt (aset h r (Some key)) ;;
           ret (h, lo + 1)
         else ret (h, lo)) (fun hl p' => p' = p /\ half_parted h0 lo0 hi0 key hl.1 hl.2 r /\ lo <= hl.2)
    (fun _ _ => False) p.
Proof.
  intros Hf Hkv [[H1 H2] Hsh Hk Hlow Hhigh Hmv] Hlt Hr Hge Hv. cbn [fst snd] in *.
  pose proof (shuffled_filled _ _ _ _ Hsh Hf) as Hfh.
  assert (Hmoved : vat h0 lo0 <= vat h0 hi0 -> r < hi0).
  { intros Hp. destruct (Hmv Hp) as [|E]; [lia|]. injection E as -> -> ->. destruct (decide (r = hi0)) as [->|]; [|lia].
    specialize (Hv Hlt). lia. }
  destruct (Z.ltb_spec lo r) as [Hl|Hl].
  - destruct (filled_vat _ _ _ r Hfh ltac:(lia)) as (e & He & Hev).
    destruct (exchange_shuffled lo0 hi0 h r lo _ _ ltac:(lia) ltac:(lia) ltac:(lia) He Hk)
      as (h1 & h2 & E1 & E2 & Hsh2 & G1 & G2 & Go).
    eapply wp_bind_opt; [exact He|]. eapply wp_bind_opt; [exact E1|]. eapply wp_bind_opt; [exact E2|]. wp_steps.
    split; [done|]. split; [|cbn; lia]. constructor; cbn [fst snd].
    + lia.
    + by eapply shuffled_trans.
    + exact G1.
    + intros i Hi. destruct (decide (i = lo)) as [->|Hne].
      * rewrite (vat_eq _ _ _ _ G2 Hev). apply Hv. lia.
      * rewrite (vat_ext h h2) by (apply Go; lia). apply Hlow. lia.
    + intros i Hi. rewrite (vat_ext h h2) by (apply Go; lia). destruct (decide (i <= hi)); [apply Hge; lia|apply Hhigh; lia].
    + exact Hmoved.
  - assert (r = lo) as -> by lia. wp_steps. split; [done|]. split; [|cbn; lia]. constructor; cbn [fst snd]; try done; [lia|].
    intros i Hi. destruct (decide (i <= hi)); [apply Hge; lia|apply Hhigh; lia].
Qed.

Lemma partition_turn_spec h0 lo0 hi0 key st p : filled h0 lo0 hi0 -> val key = Some (vat h0 lo0) ->
  parting h0 lo0 hi0 key st -> st.1.2 < st.2 ->
  wp (partition_turn val key (vat h0 lo0) st) (fun st' p' => p' = p /\ parting h0 lo0 hi0 key st' /\
    st'.2 - st'.1.2 < st.2 - st.1.2) (fun _ _ => False) p.
Proof.
  intros Hf Hkv Hst Hlt. destruct st as [[h lo] hi]. cbn [fst snd] in Hlt. unfold partition_turn.
  pose proof (pt_range _ _ _ _ _ Hst) as [B1 B2]. cbn [fst snd] in B1, B2.
  pose proof (shuffled_filled _ _ _ _ (pt_shuffled _ _ _ _ _ Hst) Hf) as Hfh. cbn [fst snd] in Hfh.
  eapply wp_then; [apply (scan_right_spec (vat h0 lo0) h lo hi); [eapply filled_sub; [exact Hfh|lia|lia]|lia]|].
  intros r p' (-> & Hr & Hge & Hv).
  eapply wp_then; [by apply (first_half h0 lo0 hi0 key h lo hi r)|].
  intros [h1 l1] p' (-> & Hh & Hl1). cbn [fst snd] in Hh, Hl1. destruct Hh as [[C1 C2] Hsh Hk Hlow Hhigh Hmv].
  pose proof (shuffled_filled _ _ _ _ Hsh Hf) as Hf1.
  eapply wp_then; [apply (scan_left_spec (vat h0 lo0) h1 l1 r); [eapply filled_sub; [exact Hf1|lia|lia]|lia]|].
  intros l2 p' (-> & Hl2 & Hlt2 & Hv2). destruct (Z.ltb_spec l2 r) as [Hl|Hl].
  - destruct (filled_vat _ _ _ l2 Hf1 ltac:(lia)) as (e & He & Hev).
    destruct (exchange_shuffled lo0 hi0 h1 l2 r _ _ ltac:(lia) ltac:(lia) ltac:(lia) He Hk)
      as (h2 & h3 & E1 & E2 & Hsh2 & G1 & G2 & Go).
    eapply wp_bind_opt; [exact He|]. eapply wp_bind_opt; [exact E1|]. eapply wp_bind_opt; [exact E2|]. wp_steps.
    split; [done|]. split; [|cbn [fst snd]; lia]. constructor; cbn [fst snd].
    + lia.
    + by eapply shuffled_trans.
    + exact G1.
    + intros i Hi. rewrite (vat_ext h1 h3) by (apply Go; lia). destruct (decide (i < l1)); [apply Hlow; lia|apply Hlt2; lia].
    + intros i Hi. destruct (decide (i = r)) as [->|Hne].
      * rewrite (vat_eq _ _ _ _ G2 Hev). by apply Hv2.
      * rewrite (vat_ext h1 h3) by (apply Go; lia). apply Hhigh. lia.
    + intros Hp. left. specialize (Hmv Hp). lia.
  - assert (l2 = r) as -> by lia. wp_steps. split; [done|]. split; [|cbn [fst snd]; lia]. constructor; cbn [fst snd].
    + lia.
    + exact Hsh.
    + exact Hk.
    + intros i Hi. destruct (decide (i < l1)); [apply Hlow; lia|apply Hlt2; lia].
    + exact Hhigh.
    + intros Hp. left. by apply Hmv.
Qed.

Lemma partition_spec h lo hi p : filled h lo hi -> lo < hi ->
  wp (partition val h lo hi) (fun r p' => p' = p /\ lo <= r.2 <= hi /\ shuffled lo hi h r.1 /\
    (forall i, lo <= i < r.2 -> vat r.1 i < vat r.1 r.2) /\ (forall i, r.2 < i <= hi -> vat r.1 r.2 <= vat r.1 i) /\
    (vat h lo <= vat h hi -> r.2 < hi)) (fun _ _ => False) p.
Proof.
  intros Hf Hlt. destruct (filled_vat _ _ _ lo Hf ltac:(lia)) as (key & Hk & Hkv). unfold partition, ptr_at. wp_steps.
  eapply wp_bind_opt; [exact Hk|]. cbn [opt]. wp_steps. eapply wp_bind_opt; [exact Hkv|].
  eapply wp_then with (P := fun st p' => p' = p /\ parting h lo hi key st /\ st.1.2 = st.2).
  - apply (wp_mwhile _ _ _ (fun st p' => p' = p /\ parting h lo hi key st) (fun st _ => st.2 - st.1.2)).
    + split; [done|]. constructor; cbn [fst snd]; [lia|apply shuffled_refl|done|lia|lia|by right].
    + intros st t [_ Hst]. pose proof (pt_range _ _ _ _ _ Hst). lia.
    + cbn. lia.
    + intros [[h1 l1] r1] t [-> Hst]. pose proof (pt_range _ _ _ _ _ Hst) as [B1 B2]. cbn [fst snd] in *.
      destruct (Z.ltb_spec l1 r1) as [Hl|Hl]; cbn [negb].
      * eapply wp_then; [by apply (partition_turn_spec h lo hi key)|]. intros st' p' (-> & Hst' & Hm). wp_steps. done.
      * wp_steps. split_and!; [done|done|cbn; lia].
  - intros [[h1 l1] r1] p' (-> & [[B1 B2] Hsh Hk1 Hlow Hhigh Hmv] & E). cbn [fst snd] in *. subst r1. wp_steps. cbn [fst snd].
    rewrite (vat_eq _ _ _ _ Hk1 Hkv). split_and!; [done|lia|lia|done|done|done|].
    intros Hp. destruct (Hmv Hp) as [|E]; [done|]. injection E as -> -> ->. lia.
Qed.

(** * The recursion *)

(** The cells of the range that are among the first [N] are final. *)
Definition front_sorted (lo hi : Z) h : Prop :=
  forall i j, lo <= i < j -> j <= hi -> i < N -> vat h i <= vat h j.
(** The left part keeps the pivot at its end, so that it is shorter, or as long
    with its largest value at the end. *)
Definition qsort_measure h (lo hi : Z) : Z := 2 * (hi - lo) + (if vat h lo <=? vat h hi then 0 else 1).

Lemma pair_spec h lo hi p : filled h lo hi -> lo + 1 = hi ->
  wp (a <- vb_at val h lo ;;
      b <- vb_at val h hi ;;
      if b <? a then
        x <- opt (aget h lo) ;;
        y <- opt (aget h hi) ;;
        h <- opt (aset h lo y) ;;
        opt (aset h hi x)
      else ret h) (fun h' p' => p' = p /\ shuffled lo hi h h' /\ front_sorted lo hi h') (fun _ _ => False) p.
Proof.
  intros Hf Hhi. eapply wp_vb_at; [exact Hf|lia|]. eapply wp_vb_at; [exact Hf|lia|].
  destruct (filled_vat _ _ _ lo Hf ltac:(lia)) as (x & Hx & Hxv). destruct (filled_vat _ _ _ hi Hf ltac:(lia)) as (y & Hy & Hyv).
  destruct (Z.ltb_spec (vat h hi) (vat h lo)) as [Hlt|Hge].
  - destruct (exchange_shuffled lo hi h hi lo _ _ ltac:(lia) ltac:(lia) ltac:(lia) Hy Hx) as (h1 & h2 & E1 & E2 & Hs & G1 & G2 & _).
    eapply wp_bind_opt; [exact Hx|]. eapply wp_bind_opt; [exact Hy|]. eapply wp_bind_opt; [exact E1|].
    eapply wp_opt; [exact E2|]. split_and!; [done|done|]. intros i j Hi Hj _. assert (i = lo /\ j = hi) as [-> ->] by lia.
    rewrite (vat_eq _ _ _ _ G1 Hxv), (vat_eq _ _ _ _ G2 Hyv). lia.
  - wp_steps. split_and!; [done|apply shuffled_refl|]. intros i j Hi Hj _. by assert (i = lo /\ j = hi) as [-> ->] by lia.
Qed.

(** Both parts are sorted, or the right one starts behind the first [N]. *)
Lemma parts_sorted lo hi pi h1 h2 h3 : lo <= pi <= hi ->
  (forall i, lo <= i < pi -> vat h1 i < vat h1 pi) -> (forall i, pi < i <= hi -> vat h1 pi <= vat h1 i) ->
  shuffled lo pi h1 h2 -> front_sorted lo pi h2 -> shuffled (pi + 1) hi h2 h3 ->
  (pi < N -> front_sorted (pi + 1) hi h3) -> front_sorted lo hi h3.
Proof.
  intros Hpi Hlow Hhigh S2 F2 S3 F3 i j Hij Hj HN. destruct (decide (j <= pi)) as [Hjp|Hjp].
  - rewrite !(shuffled_out _ _ _ _ _ S3) by lia. apply F2; lia.
  - destruct (decide (i <= pi)) as [Hip|Hip]; [|apply F3; lia].
    rewrite (shuffled_out _ _ _ _ i S3) by lia. destruct (shuffled_vat _ _ _ _ i S2) as (i' & Hi' & ->); [lia|].
    destruct (shuffled_vat _ _ _ _ j S3) as (j' & Hj' & ->); [lia|]. rewrite (shuffled_out _ _ _ _ j' S2) by lia.
    pose proof (Hhigh j' ltac:(lia)). destruct (decide (i' = pi)) as [->|]; [lia|]. pose proof (Hlow i' ltac:(lia)). lia.
Qed.

Lemma partial_qsort_spec fuel : forall h lo hi p, filled h lo hi -> 0 < Z.of_nat fuel ->
  (lo < hi -> qsort_measure h lo hi < Z.of_nat fuel) ->
  wp (partial_qsort N val fuel h lo hi) (fun h' p' => p' = p /\ shuffled lo hi h h' /\ front_sorted lo hi h')
    (fun _ _ => False) p.
Proof.
  induction fuel as [|fuel IH]; intros h lo hi p Hf Hpos Hfuel; [lia|]. cbn [partial_qsort].
  destruct (Z.ltb_spec lo hi) as [Hlt|Hge]; cbn [negb].
  2:{ wp_steps. split_and!; [done|apply shuffled_refl|]. intros i j Hi Hj. lia. }
  destruct (Z.eqb_spec (lo + 1) hi) as [E|Hne]; [by apply pair_spec|].
  specialize (Hfuel Hlt). unfold qsort_measure in Hfuel.
  assert (2 * (hi - lo) < Z.of_nat (S fuel)) by (destruct (vat h lo <=? vat h hi); lia).
  eapply wp_then; [by apply partition_spec|]. intros [h1 pi] p' (-> & Hpi & S1 & Hlow & Hhigh & Hmv). cbn [fst snd] in *.
  pose proof (shuffled_filled _ _ _ _ S1 Hf) as Hf1.
  eapply wp_then.
  { apply (IH h1 lo pi); [eapply filled_sub; [exact Hf1|lia|lia]|lia|]. intros Hl. unfold qsort_measure.
    specialize (Hlow lo ltac:(lia)). rewrite (proj2 (Z.leb_le _ _)) by lia.
    destruct (Z.leb_spec (vat h lo) (vat h hi)) as [Hle|]; [specialize (Hmv Hle)|]; lia. }
  intros h2 p' (-> & S2 & F2).
  assert (S2' : shuffled lo hi h h2) by (eapply shuffled_trans; [exact S1|]; eapply shuffled_widen; [exact S2|lia|lia]).
  destruct (Z.ltb_spec pi N) as [HN|HN].
  - eapply wp_mono; [apply (IH h2 (pi + 1) hi)| |done].
    + eapply filled_sub; [by eapply shuffled_filled|lia|lia].
    + lia.
    + intros Hl. unfold qsort_measure. destruct (vat h2 (pi + 1) <=? vat h2 hi), (vat h lo <=? vat h hi); lia.
    + intros h3 p' (-> & S3 & F3). split_and!; [done| |].
      * eapply shuffled_trans; [exact S2'|]. eapply shuffled_widen; [exact S3|lia|lia].
      * by eapply (parts_sorted lo hi pi h1 h2 h3).
  - wp_steps. split_and!; [done|exact S2'|].
    eapply (parts_sorted lo hi pi h1 h2 h2); try done; [apply shuffled_refl|intros; exfalso; lia].
Qed.

(** * Lists of segments in the buffer *)
Definition cells (l : list Z) : list (option Z) := map Some l.
Definition vb (e : Z) : Z := default 0 (val e).

Lemma length_cells l : length (cells l) = length l.
Proof. apply length_map. Qed.
Lemma cells_lookup l i : cells l !! i = Some <$> l !! i.
Proof. revert i. induction l as [|e l IH]; intros [|i]; [done..|apply IH]. Qed.
Lemma cells_app l1 l2 : cells (l1 ++ l2) = cells l1 ++ cells l2.
Proof. apply map_app. Qed.
Lemma aget_app {A} (l1 l2 : list A) i : 0 <= i ->
  aget (l1 ++ l2) i = if i <? Z.of_nat (length l1) then aget l1 i else aget l2 (i - Z.of_nat (length l1)).
Proof.
  intros Hi. unfold aget. rewrite (proj2 (Z.leb_le 0 i)) by done. destruct (Z.ltb_spec i (Z.of_nat (length l1))) as [H|H].
  - apply lookup_app_l. lia.
  - rewrite (proj2 (Z.leb_le 0 _)) by lia. rewrite lookup_app_r by lia. f_equal. lia.
Qed.
Lemma aget_cells l i e : aget (cells l) i = Some e -> exists x, e = Some x /\ aget l i = Some x.
Proof.
  intros [Hi He]%aget_Some. rewrite cells_lookup in He. destruct (l !! Z.to_nat i) as [x|] eqn:E; [|done].
  injection He as <-. exists x. split; [done|]. apply aget_Some. by split.
Qed.
Lemma aset_middle {A} (l1 l2 : list A) x y : aset (l1 ++ x :: l2) (Z.of_nat (length l1)) y = Some (l1 ++ y :: l2).
Proof.
  rewrite aset_is_Some by (rewrite length_app; cbn; lia). f_equal. rewrite Nat2Z.id.
  rewrite insert_app_r_alt by lia. by rewrite Nat.sub_diag.
Qed.

Definition known (l : list Z) : Prop := forall e, e ∈ l -> is_Some (val e).
Lemma filled_cells a b tail : known b -> filled (a ++ cells b ++ tail) (Z.of_nat (length a)) (Z.of_nat (length a + length b) - 1).
Proof.
  intros Hk i Hi. rewrite aget_app, (proj2 (Z.ltb_ge _ _)) by lia.
  rewrite aget_app, length_cells, (proj2 (Z.ltb_lt _ _)) by lia.
  destruct (aget_is_Some b (i - Z.of_nat (length a))) as [e He]; [lia|].
  pose proof He as [Hi0 Hl]%aget_Some. destruct (Hk e) as [v Hv]; [by eapply list_elem_of_lookup_2|].
  exists e, v. split; [|done]. apply aget_Some. split; [done|]. by rewrite cells_lookup, Hl.
Qed.

(** Exchanging the cells of a list of segments gives a permutation of it. *)
Lemma shuffled_cells a b tail h : shuffled (Z.of_nat (length a)) (Z.of_nat (length a + length b) - 1) (a ++ cells b ++ tail) h ->
  exists b', h = a ++ cells b' ++ tail /\ b' ≡ₚ b.
Proof.
  intros (Hp & Ho & _). set (n := length a) in *. set (k := length b) in *.
  pose proof (Permutation_length Hp) as Hlen. rewrite !length_app, length_cells in Hlen. fold n k in Hlen.
  assert (E1 : take n h = a).
  { apply aget_ext; [rewrite length_take; lia|]. intros i Hi. rewrite length_take in Hi.
    pose proof (Ho i ltac:(lia)) as E. rewrite aget_app, (proj2 (Z.ltb_lt _ _)) in E by lia. rewrite <- E.
    unfold aget. rewrite (proj2 (Z.leb_le 0 i)) by lia. apply lookup_take_lt. lia. }
  assert (E2 : drop (n + k) h = tail).
  { apply aget_ext; [rewrite length_drop; lia|]. intros i Hi. rewrite length_drop in Hi.
    pose proof (Ho (Z.of_nat (n + k) + i) ltac:(lia)) as E.
    rewrite aget_app, (proj2 (Z.ltb_ge _ _)), aget_app, length_cells, (proj2 (Z.ltb_ge _ _)) in E by lia.
    fold n k in E. replace (Z.of_nat (n + k) + i - Z.of_nat n - Z.of_nat k) with i in E by lia. rewrite <- E.
    unfold aget. rewrite !(proj2 (Z.leb_le 0 _)) by lia. rewrite lookup_drop. f_equal. lia. }
  assert (Eh : h = a ++ take k (drop n h) ++ tail).
  { rewrite <- E1 at 1. rewrite <- E2. rewrite <- (drop_drop h k n), take_drop, take_drop. done. }
  rewrite Eh in Hp. apply Permutation_app_inv_l, Permutation_app_inv_r in Hp.
  apply Permutation_map_inv in Hp as (b' & Eb & Hb). exists b'. split; [|by symmetry]. rewrite Eh. f_equal. f_equal. exact Eb.
Qed.

Lemma known_perm l l' : known l -> l' ≡ₚ l -> known l'.
Proof. intros H Hp e He. apply H. by rewrite <- Hp. Qed.

(** Sorting the segments [b] in the middle of the buffer. *)
Lemma sort_middle fuel a b tail p : known b -> 2 * Z.of_nat (length b) < Z.of_nat fuel -> 
  wp (partial_qsort N val fuel (a ++ cells b ++ tail) (Z.of_nat (length a)) (Z.of_nat (length a + length b) - 1))
    (fun h p' => p' = p /\ exists b', h = a ++ cells b' ++ tail /\ b' ≡ₚ b /\
      front_sorted (Z.of_nat (length a)) (Z.of_nat (length a + length b) - 1) h) (fun _ _ => False) p.
Proof.
  intros Hk Hfuel. eapply wp_mono; [apply partial_qsort_spec| |done].
  - by apply filled_cells.
  - lia.
  - intros Hlt. unfold qsort_measure. destruct (_ <=? _); lia.
  - intros h p' (-> & Hs & Hf). split; [done|]. destruct (shuffled_cells _ _ _ _ Hs) as (b' & E & Hb). by exists b'.
Qed.

(** * Filling the buffer *)

(** Segments below the threshold at the front, the others at the end. *)
Record loaded p (l lows : list Z) (mid : list (option Z)) (highs : list Z) : Prop := {
  ld_buf : q_buf p = cells lows ++ mid ++ cells highs;
  ld_size : q_buf_size p = Z.of_nat (length (q_buf p)) /\ q_buf_size p < 2 ^ 64;
  ld_low : q_low p = Z.of_nat (length lows);
  ld_high : q_high p = w64 (Z.of_nat (length lows + length mid) - 1);
  ld_data : q_data_size p = Z.of_nat (length l);
  ld_perm : l ≡ₚ lows ++ highs;
  ld_known : known lows /\ known highs;
  ld_apart x y : x ∈ lows -> y ∈ highs -> vb x < vb y;
  ld_lows x : x ∈ lows -> vb x < q_pth p;
  ld_highs x : x ∈ highs -> q_pth p <= vb x;
  ld_mid e : Some e ∈ mid -> is_Some (val e)
}.
(** A buffer whose cells are null or point to segments. *)
Definition buffer_ok p : Prop :=
  q_buf_size p = Z.of_nat (length (q_buf p)) /\ q_buf_size p < 2 ^ 64 /\
  forall e, Some e ∈ q_buf p -> is_Some (val e).

Lemma w64_small x : 0 <= x < 2 ^ 64 -> w64 x = x.
Proof. apply Z.mod_small. Qed.
Lemma w64_add x y : w64 (w64 x + y) = w64 (x + y).
Proof. unfold w64. by rewrite Zplus_mod_idemp_l. Qed.

Lemma init_spec p : buffer_ok p ->
  runs init p tt (init p).2 /\ loaded (init p).2 [] [] (q_buf p) [].
Proof.
  intros (Hs & Hb & Hv). split; [done|]. constructor; cbn; rewrite ?app_nil_r; try done; try (intros; set_solver).
  - by rewrite Hs.
Qed.

Lemma Push_loaded p l lows mid highs e : loaded p l lows mid highs -> is_Some (val e) -> mid <> [] ->
  exists p' lows' mid' highs', runs (Push val e) p tt p' /\ loaded p' (l ++ [e]) lows' mid' highs' /\
    (length mid = S (length mid'))%nat /\ q_pth p' = q_pth p.
Proof.
  intros H [v Hv] Hm. assert (Evb : vb e = v) by (unfold vb; by rewrite Hv).
  pose proof (ld_size _ _ _ _ _ H) as [Hs Hsb]. rewrite (ld_buf _ _ _ _ _ H), !length_app, !length_cells in Hs.
  pose proof (Permutation_length (ld_perm _ _ _ _ _ H)) as Hpl. rewrite length_app in Hpl.
  destruct (Z.leb_spec (q_pth p) v) as [Hge|Hlt].
  - destruct (exists_last Hm) as (mid' & m & Em). subst mid. rewrite length_app in Hs. cbn [length] in Hs.
    assert (Hh : q_high p = Z.of_nat (length lows + length mid')).
    { rewrite (ld_high _ _ _ _ _ H), length_app. cbn [length]. rewrite w64_small; lia. }
    eexists _, lows, mid', (e :: highs). split_and!.
    + unfold Push. eapply runs_bind; [done|]. rewrite Hv. eapply runs_bind; [done|].
      rewrite (proj2 (Z.leb_le _ _)) by done. rewrite Hh, (ld_buf _ _ _ _ _ H).
      replace (cells lows ++ (mid' ++ [m]) ++ cells highs) with ((cells lows ++ mid') ++ m :: cells highs) by (by rewrite <- !app_assoc).
      eapply runs_bind; [|done]. eapply runs_bind; [|done].
      rewrite <- (length_cells lows), <- length_app, aset_middle. done.
    + constructor; cbn.
      * by rewrite <- app_assoc.
      * split; [|done]. rewrite Hs, !length_app, length_cells. cbn [length]. rewrite length_cells. lia.
      * apply H.
      * by rewrite <- Hh.
      * rewrite (ld_data _ _ _ _ _ H), length_app. cbn [length]. rewrite w64_small; lia.
      * rewrite (ld_perm _ _ _ _ _ H). rewrite <- app_assoc. f_equiv. apply (Permutation_app_comm highs [e]).
      * destruct (ld_known _ _ _ _ _ H) as [K1 K2]. split; [done|]. intros x [->|Hx]%elem_of_cons; [by exists v|by apply K2].
      * intros x y Hx [->|Hy]%elem_of_cons; [pose proof (ld_lows _ _ _ _ _ H x Hx); lia|by apply (ld_apart _ _ _ _ _ H)].
      * apply H.
      * intros x [->|Hx]%elem_of_cons; [lia|by apply (ld_highs _ _ _ _ _ H)].
      * intros x Hx. apply (ld_mid _ _ _ _ _ H). set_solver.
    + rewrite length_app. cbn. lia.
    + done.
  - destruct mid as [|m mid']; [done|]. cbn [length] in Hs.
    eexists _, (lows ++ [e]), mid', highs. split_and!.
    + unfold Push. eapply runs_bind; [done|]. rewrite Hv. eapply runs_bind; [done|].
      rewrite (proj2 (Z.leb_gt _ _)) by done. rewrite (ld_low _ _ _ _ _ H), (ld_buf _ _ _ _ _ H).
      eapply runs_bind; [|done]. eapply runs_bind; [|done].
      cbn [app]. rewrite <- (length_cells lows), aset_middle. done.
    + constructor; cbn.
      * by rewrite cells_app, <- app_assoc.
      * split; [|done]. rewrite Hs, length_app. cbn [length]. rewrite length_app, !length_cells. lia.
      * rewrite ?length_cells, length_app. cbn [length]. rewrite w64_small; lia.
      * rewrite (ld_high _ _ _ _ _ H), length_app. cbn [length]. f_equal. lia.
      * rewrite (ld_data _ _ _ _ _ H), length_app. cbn [length]. rewrite w64_small; lia.
      * rewrite (ld_perm _ _ _ _ _ H). rewrite <- !app_assoc. f_equiv. apply (Permutation_app_comm highs [e]).
      * destruct (ld_known _ _ _ _ _ H) as [K1 K2]. split; [|done].
        intros x [Hx| ->%list_elem_of_singleton]%elem_of_app; [by apply K1|by exists v].
      * intros x y [Hx| ->%list_elem_of_singleton]%elem_of_app Hy; [by apply (ld_apart _ _ _ _ _ H)|].
        pose proof (ld_highs _ _ _ _ _ H y Hy). lia.
      * intros x [Hx| ->%list_elem_of_singleton]%elem_of_app; [by apply (ld_lows _ _ _ _ _ H)|lia].
      * apply H.
      * intros x Hx. apply (ld_mid _ _ _ _ _ H). set_solver.
    + done.
    + done.
Qed.

(** * Sorting it *)

(** The first cells are in order; [k] cells are in front of [c]. *)
Definition ordered (k : nat) (c : list Z) : Prop :=
  forall i j x y, (i < j)%nat -> Z.of_nat (k + i) < N -> c !! i = Some x -> c !! j = Some y -> vb x <= vb y.

Lemma vat_cells a b tail i x : b !! i = Some x -> vat (a ++ cells b ++ tail) (Z.of_nat (length a + i)) = vb x.
Proof.
  intros H. pose proof (lookup_lt_Some _ _ _ H) as Hl. unfold vat, aget. rewrite (proj2 (Z.leb_le 0 _)) by lia.
  rewrite lookup_app_r by lia. rewrite lookup_app_l by (rewrite length_cells; lia).
  replace (Z.to_nat (Z.of_nat (length a + i)) - length a)%nat with i by lia. by rewrite cells_lookup, H.
Qed.
Lemma front_ordered a b tail : front_sorted (Z.of_nat (length a)) (Z.of_nat (length a + length b) - 1) (a ++ cells b ++ tail) ->
  ordered (length a) b.
Proof.
  intros H i j x y Hij Hn Hx Hy. rewrite <- (vat_cells a b tail i x Hx), <- (vat_cells a b tail j y Hy).
  pose proof (lookup_lt_Some _ _ _ Hy). apply H; lia.
Qed.
Lemma ordered_app c1 c2 : ordered 0 c1 -> ordered (length c1) c2 -> (forall x y, x ∈ c1 -> y ∈ c2 -> vb x <= vb y) ->
  ordered 0 (c1 ++ c2).
Proof.
  intros H1 H2 H12 i j x y Hij Hn Hx Hy. apply lookup_app_Some in Hx as [Hx|[Hi Hx]].
  - apply lookup_app_Some in Hy as [Hy|[Hj Hy]]; [by eapply H1|].
    apply H12; by eapply list_elem_of_lookup_2.
  - apply lookup_app_Some in Hy as [Hy|[Hj Hy]]; [apply lookup_lt_Some in Hy; lia|].
    apply (H2 (i - length c1)%nat (j - length c1)%nat); [lia|lia|done|done].
Qed.

Lemma compact_spec A mid B low high size p : low = Z.of_nat (length A) -> w64 (high + 1) = Z.of_nat (length A + length mid) ->
  size = Z.of_nat (length (A ++ mid ++ B)) ->
  wp (compact (A ++ mid ++ B) low high size) (fun r p' => p' = p /\ r.2 = Z.of_nat (length A + length B) /\
    exists junk, r.1 = A ++ B ++ junk /\ length junk = length mid /\ forall e, e ∈ junk -> e ∈ mid ++ B) (fun _ _ => False) p.
Proof.
  intros -> Hh ->. unfold compact. rewrite Hh. rewrite !length_app. set (h0 := A ++ mid ++ B).
  assert (Hl0 : length h0 = (length A + (length mid + length B))%nat) by (subst h0; by rewrite !length_app).
  eapply (wp_mono _ _ _ (fun _ _ => False)); [apply (wp_fold_range _ _ _ _ (fun i st p' => p' = p /\
      st.2 = i - Z.of_nat (length mid) /\ length st.1 = length h0 /\
      (forall j, 0 <= j < st.2 -> aget st.1 j = aget (A ++ B) j) /\ (forall j, st.2 <= j -> aget st.1 j = aget h0 j)))| |done].
  - lia.
  - cbn [fst snd]. split_and!; [done|lia|done| |done]. intros j Hj. subst h0.
    rewrite (aget_app A (mid ++ B)), (aget_app A B) by lia. by rewrite !(proj2 (Z.ltb_lt j _)) by lia.
  - intros i [h to] t Hi (-> & Hto & Hl & Hlo & Hhi). cbn [fst snd] in *. subst to.
    destruct (aget_is_Some h0 i) as [e He]; [lia|].
    eapply wp_bind_opt; [rewrite Hhi by lia; exact He|]. eapply wp_bind_opt; [apply aset_is_Some; lia|]. wp_steps. cbn [fst snd].
    split_and!; [done|lia|by rewrite length_insert| |].
    + intros j Hj. rewrite aget_insert by lia. destruct (Z.eqb_spec (i - Z.of_nat (length mid)) j) as [<-|Hne]; [|apply Hlo; lia].
      rewrite <- He. subst h0. rewrite (aget_app A (mid ++ B)), (aget_app mid B), (aget_app A B) by lia.
      rewrite !(proj2 (Z.ltb_ge _ _)) by lia. f_equal. lia.
    + intros j Hj. rewrite aget_insert_ne by lia. apply Hhi. lia.
  - intros [h to] t (-> & Hto & Hl & Hlo & Hhi). cbn [fst snd] in *. split; [done|]. split; [lia|].
    exists (drop (length A + length B) h0). split_and!.
    + rewrite app_assoc. apply aget_ext.
      * rewrite !length_app, length_drop. lia.
      * intros j Hj. rewrite aget_app, length_app by lia. destruct (Z.ltb_spec j (Z.of_nat (length A + length B))); [apply Hlo; lia|].
        rewrite Hhi by lia. unfold aget. rewrite !(proj2 (Z.leb_le 0 _)) by lia. rewrite lookup_drop. f_equal. lia.
    + rewrite length_drop. lia.
    + intros e He. subst h0. rewrite drop_app_ge in He by lia.
      rewrite <- (take_drop (length A + length B - length A) (mid ++ B)). apply elem_of_app. by right.
Qed.

Lemma wp_vb_or_zero {B} h i (k : Z -> M Pool B) Q E p : 0 <= i < Z.of_nat (length h) -> (forall e, Some e ∈ h -> is_Some (val e)) ->
  (forall v, wp (k v) Q E p) -> wp (v <- vb_or_zero val h i ;; k v) Q E p.
Proof.
  intros Hi Hk HQ. unfold vb_or_zero. destruct (aget_is_Some h i Hi) as [c Hc]. wp_steps. eapply wp_bind_opt; [exact Hc|].
  destruct c as [e|]; [|wp_steps; apply HQ]. destruct (Hk e) as [v Hv].
  - apply aget_Some in Hc as [_ Hc]. by eapply list_elem_of_lookup_2.
  - eapply wp_bind_opt; [exact Hv|]. apply HQ.
Qed.

(** The sorted segments are at the front; what is not sorted is no smaller. *)
Record sorted_front p p' (l c extra : list Z) (tail : list (option Z)) : Prop := {
  sf_buf : q_buf p' = cells c ++ tail;
  sf_size : q_buf_size p' = q_buf_size p /\ length (q_buf p') = length (q_buf p);
  sf_pop : q_pop_ptr p' = 0;
  sf_perm : l ≡ₚ c ++ extra;
  sf_long : N <= Z.of_nat (length c) \/ extra = [];
  sf_ordered : ordered 0 c;
  sf_least x y : x ∈ c -> y ∈ extra -> vb x <= vb y;
  sf_known e : Some e ∈ q_buf p' -> is_Some (val e)
}.

(** The segments below the threshold are sorted first. *)
Lemma sort_lows p l lows mid highs (q : Pool) : loaded p l lows mid highs ->
  wp (if 0 <? q_low p then partial_qsort N val (quick_fuel (q_buf_size p)) (q_buf p) 0 (q_low p - 1) else ret (q_buf p))
    (fun h p' => p' = q /\ exists lows', h = cells lows' ++ mid ++ cells highs /\ lows' ≡ₚ lows /\ ordered 0 lows')
    (fun _ _ => False) q.
Proof.
  intros H. rewrite (ld_low _ _ _ _ _ H), (ld_buf _ _ _ _ _ H).
  pose proof (ld_size _ _ _ _ _ H) as [Hs _]. rewrite (ld_buf _ _ _ _ _ H), !length_app, !length_cells in Hs.
  destruct (Z.ltb_spec 0 (Z.of_nat (length lows))) as [Hlt|Hge].
  - pose proof (sort_middle (quick_fuel (q_buf_size p)) [] lows (mid ++ cells highs) q (proj1 (ld_known _ _ _ _ _ H))) as Hm.
    cbn [length app] in Hm. eapply wp_mono; [apply Hm; unfold quick_fuel; lia| |done].
    intros h p' (-> & lows' & -> & Hp & Hf). split; [done|]. exists lows'. split_and!; [done|done|].
    apply (front_ordered [] lows' (mid ++ cells highs)). by rewrite (Permutation_length Hp).
  - destruct lows; [|cbn in Hge; lia]. wp_steps. split; [done|]. exists []. split_and!; [done|done|].
    intros i j x y _ _ Hx. done.
Qed.

(** The others are moved behind them and sorted, too. *)
Lemma sort_highs p l lows lows' mid highs (q : Pool) : loaded p l lows mid highs -> lows' ≡ₚ lows -> ordered 0 lows' -> l <> [] ->
  wp (hs <- (if q_low p <=? q_high p then compact (cells lows' ++ mid ++ cells highs) (q_low p) (q_high p) (q_buf_size p)
                  else ret (cells lows' ++ mid ++ cells highs, q_buf_size p)) ;;
           let '(h, size) := hs : list (option Z) * Z in
           h <- partial_qsort N val (quick_fuel (q_buf_size p)) h (q_low p) (w64 (size - 1)) ;;
           ret (h, size))
    (fun hs p' => p' = q /\ exists highs' junk, hs.1 = cells (lows' ++ highs') ++ junk /\ highs' ≡ₚ highs /\
       ordered 0 (lows' ++ highs') /\ length hs.1 = length (q_buf p) /\ (forall e, Some e ∈ junk -> is_Some (val e)))
    (fun _ _ => False) q.
Proof.
  intros H Hp Ho Hl. pose proof (ld_size _ _ _ _ _ H) as [Hs Hsb]. pose proof (Permutation_length Hp) as Hpl.
  pose proof (Permutation_length (ld_perm _ _ _ _ _ H)) as Hll. rewrite length_app in Hll.
  assert (0 < Z.of_nat (length l)) by (destruct l; [done|cbn; lia]).
  rewrite (ld_buf _ _ _ _ _ H), !length_app, !length_cells in Hs |- *. rewrite (ld_low _ _ _ _ _ H).
  assert (Hmidk : forall e, Some e ∈ mid ++ cells highs -> is_Some (val e)).
  { intros e [He|He]%elem_of_app; [by apply (ld_mid _ _ _ _ _ H)|].
    apply (proj2 (ld_known _ _ _ _ _ H)). apply list_elem_of_In, in_map_iff in He as (x & [= ->] & Hx). by apply list_elem_of_In. }
  eapply wp_then with (P := fun hs p' => p' = q /\ hs.2 = Z.of_nat (length l) /\
    exists junk, hs.1 = cells lows' ++ cells highs ++ junk /\ length junk = length mid /\ forall e, e ∈ junk -> e ∈ mid ++ cells highs).
  { destruct (Z.leb_spec (Z.of_nat (length lows)) (q_high p)) as [Hle|Hgt].
    - eapply wp_mono; [apply compact_spec| |done].
      + by rewrite length_cells, Hpl.
      + rewrite (ld_high _ _ _ _ _ H), w64_add, length_cells, Hpl. rewrite w64_small; lia.
      + rewrite Hs, !length_app, !length_cells. lia.
      + intros r p' (-> & Hr & Hj). rewrite !length_cells in Hr. split_and!; [done|lia|exact Hj].
    - wp_steps. cbn [fst snd]. rewrite (ld_high _ _ _ _ _ H) in Hgt.
      assert (mid = []) as ->.
      { destruct mid; [done|]. cbn [length] in *. rewrite w64_small in Hgt; lia. }
      split_and!; [done|cbn [length] in *; lia|]. exists []. rewrite app_nil_r. split_and!; [done|done|].
      intros e He. by apply elem_of_nil in He. }
  intros [h size] p' (-> & Hsize & junk & Eh & Hj & Hjk). cbn [fst snd] in Hsize, Eh. subst size h.
  rewrite w64_small by lia.
  pose proof (sort_middle (quick_fuel (q_buf_size p)) (cells lows') highs junk q (proj2 (ld_known _ _ _ _ _ H))) as Hm.
  rewrite length_cells in Hm. rewrite <- Hpl. replace (Z.of_nat (length l) - 1) with (Z.of_nat (length lows' + length highs) - 1) by lia.
  eapply wp_then; [apply Hm; unfold quick_fuel; lia|]. intros h p' (-> & highs' & -> & Hph & Hf). wp_steps. cbn [fst snd].
  split; [done|]. exists highs', junk. split_and!.
  - by rewrite cells_app, <- app_assoc.
  - done.
  - apply ordered_app; [done| |].
    + rewrite <- (length_cells lows'). apply (front_ordered (cells lows') highs' junk). by rewrite length_cells, (Permutation_length Hph).
    + intros x y Hx Hy. rewrite Hp in Hx. rewrite Hph in Hy. pose proof (ld_apart _ _ _ _ _ H x y Hx Hy). lia.
  - rewrite !length_app, !length_cells, (Permutation_length Hph). lia.
  - intros e He. by apply Hmidk, Hjk.
Qed.

Lemma qsort_spec p l lows mid highs : loaded p l lows mid highs -> 0 < N <= q_buf_size p -> l <> [] ->
  wp (Sort N val) (fun _ p' => exists c extra tail, sorted_front p p' l c extra tail) (fun _ _ => False) p.
Proof.
  intros H HN Hl. unfold Sort. wp_steps. pose proof (ld_size _ _ _ _ _ H) as [Hs Hsb].
  eapply wp_then; [by apply (sort_lows p l lows mid highs)|]. intros h p' (-> & lows' & -> & Hp & Ho).
  pose proof (Permutation_length Hp) as Hpl.
  eapply wp_then with (P := fun hs p' => p' = p /\ exists c extra tail, hs.1 = cells c ++ tail /\ length hs.1 = length (q_buf p) /\
    l ≡ₚ c ++ extra /\ (N <= Z.of_nat (length c) \/ extra = []) /\ ordered 0 c /\
    (forall x y, x ∈ c -> y ∈ extra -> vb x <= vb y) /\ (forall e, Some e ∈ hs.1 -> is_Some (val e))).
  { assert (Hcell : forall k : list Z, known k -> forall e, Some e ∈ cells k -> is_Some (val e)).
    { intros k Hk e He. apply Hk. apply list_elem_of_In, in_map_iff in He as (x & [= ->] & Hx). by apply list_elem_of_In. }
    destruct (ld_known _ _ _ _ _ H) as [K1 K2]. pose proof (known_perm _ _ K1 Hp) as K1'.
    destruct (Z.ltb_spec (q_low p) N) as [Hlt|Hge].
    - eapply wp_mono; [by apply (sort_highs p l lows lows' mid highs)| |done].
      intros [h size] p' (-> & highs' & junk & Eh & Hph & Hoo & Hlen & Hjk). cbn [fst snd] in *. split; [done|].
      exists (lows' ++ highs'), [], junk. split_and!; [done|done| |by right|done|by intros x y _ Hy%elem_of_nil|].
      + rewrite app_nil_r, Hp, Hph. apply H.
      + rewrite Eh, cells_app. intros e [[He|He]%elem_of_app|He]%elem_of_app; [by apply (Hcell lows')| |by apply Hjk].
        eapply Hcell; [|exact He]. exact (known_perm _ _ K2 Hph).
    - wp_steps. cbn [fst snd]. split; [done|]. exists lows', highs, (mid ++ cells highs). rewrite (ld_low _ _ _ _ _ H) in Hge. split_and!.
      + done.
      + rewrite (ld_buf _ _ _ _ _ H), !length_app, !length_cells. lia.
      + rewrite Hp. apply H.
      + left. lia.
      + done.
      + intros x y Hx Hy. rewrite Hp in Hx. pose proof (ld_apart _ _ _ _ _ H x y Hx Hy). lia.
      + intros e [He|[He|He]%elem_of_app]%elem_of_app; [by apply (Hcell lows')|by apply (ld_mid _ _ _ _ _ H)|by apply (Hcell highs)]. }
  intros [h size] p' (-> & c & extra & tail & Eh & Hlen & Hperm & Hlong & Hoo & Hle & Hk). cbn [fst snd] in *.
  eapply wp_vb_or_zero; [lia|done|]. intros a. eapply wp_vb_or_zero; [lia|done|]. intros b. wp_steps.
  exists c, extra, tail. by constructor; cbn.
Qed.

(** * The pool as the collector uses it *)
Definition quick_victims (l : list Z) (n : Z) : M Pool (list (option Z)) :=
  init ;;;
  mfor l (Push val) ;;;
  Sort N val ;;;
  mfold (range 0 n) [] (fun r _ => e <- Pop N ;; ret (r ++ [e])).

Lemma Push_all l p mid0 : loaded p [] [] mid0 [] -> Z.of_nat (length mid0) = q_buf_size p -> known l ->
  Z.of_nat (length l) <= q_buf_size p ->
  wp (mfor l (Push val)) (fun _ p' => q_buf_size p' = q_buf_size p /\ exists lows mid highs, loaded p' l lows mid highs)
    (fun _ _ => False) p.
Proof.
  intros H0 Hm0 Hk Hl.
  eapply (wp_mono _ (fun _ p' => q_buf_size p' = q_buf_size p /\ exists lows mid highs, loaded p' l lows mid highs /\
    Z.of_nat (length mid) = q_buf_size p - Z.of_nat (length l)) _ (fun _ _ => False));
    [|intros _ p' [Hs (lows & mid & highs & H & _)]; split; [done|by exists lows, mid, highs]|done].
  apply (wp_mfor l (Push val) (fun dn p' => q_buf_size p' = q_buf_size p /\ exists lows mid highs, loaded p' dn lows mid highs /\
    Z.of_nat (length mid) = q_buf_size p - Z.of_nat (length dn))).
  - split; [done|]. exists [], mid0, []. split; [exact H0|]. cbn. lia.
  - intros dn x rest t El (Hs & lows & mid & highs & H & Hm).
    assert (Hx : is_Some (val x)) by (apply Hk; rewrite El; set_solver).
    assert (mid <> []) as Hne by (intros ->; rewrite El, length_app in Hl; cbn in *; lia).
    destruct (Push_loaded t dn lows mid highs x H Hx Hne) as (t' & lows' & mid' & highs' & R & H' & Hm' & _).
    eapply runs_wp; [exact R|]. split.
    + destruct (ld_size _ _ _ _ _ H) as [E _]. destruct (ld_size _ _ _ _ _ H') as [E' _].
      pose proof (Permutation_length (ld_perm _ _ _ _ _ H)) as P1. pose proof (Permutation_length (ld_perm _ _ _ _ _ H')) as P2.
      rewrite (ld_buf _ _ _ _ _ H), !length_app, !length_cells in E. rewrite (ld_buf _ _ _ _ _ H'), !length_app, !length_cells in E'.
      rewrite length_app in P1, P2. rewrite length_app in P2. cbn [length] in P2. lia.
    + exists lows', mid', highs'. split; [done|]. rewrite length_app. cbn [length]. lia.
Qed.

Lemma pop_all p p' l c extra tail n : sorted_front p p' l c extra tail -> 0 <= n <= N -> n <= Z.of_nat (length c) -> n < 2 ^ 64 ->
  wp (mfold (range 0 n) [] (fun r _ => e <- Pop N ;; ret (r ++ [e])))
    (fun r t => r = cells (take (Z.to_nat n) c) /\ t = set_pop n p') (fun _ _ => False) p'.
Proof.
  intros H Hn Hc Hb. apply (wp_fold_range _ _ _ _ (fun i r t => r = cells (take (Z.to_nat i) c) /\ t = set_pop i p')).
  - lia.
  - split; [done|]. pose proof (sf_pop _ _ _ _ _ _ H) as E. by destruct p'; cbn in E; subst.
  - intros i r t Hi [-> ->]. unfold Pop. wp_steps. cbn [set_pop q_pop_ptr q_buf].
    rewrite (proj2 (Z.leb_gt _ _)) by lia. wp_steps. destruct (aget_is_Some c i) as [e He]; [lia|]. pose proof He as [_ Hl]%aget_Some.
    eapply wp_bind_opt with (a := Some e).
    { rewrite (sf_buf _ _ _ _ _ _ H). apply aget_Some. split; [lia|]. rewrite lookup_app_l by (rewrite length_cells; lia).
      by rewrite cells_lookup, Hl. }
    wp_steps. unfold set_pop. cbn. rewrite w64_small by lia. split; [|done].
    replace (Z.to_nat (i + 1)) with (S (Z.to_nat i)) by lia. rewrite (take_S_r c _ e Hl), cells_app. done.
Qed.

Lemma ordered_sorted c n : ordered 0 c -> Z.of_nat n <= N -> StronglySorted (fun x y => vb x <= vb y) (take n c).
Proof.
  revert n. assert (G : forall c k n, ordered k c -> Z.of_nat (k + n) <= N -> StronglySorted (fun x y => vb x <= vb y) (take n c)).
  { clear c. induction c as [|x c IH]; intros k [|n] Ho Hn; cbn [take]; try constructor.
    - apply (IH (S k)); [|lia]. intros i j y z Hij HN Hy Hz. apply (Ho (S i) (S j)); [lia|lia|done|done].
    - apply List.Forall_forall. intros y Hy%list_elem_of_In. apply list_elem_of_lookup in Hy as [j Hj].
      apply lookup_take_Some in Hj as [Hj _]. apply (Ho 0%nat (S j)); [lia|lia|done|done]. }
  intros n Ho Hn. by apply (G c 0%nat).
Qed.

(** C31: the quicksort of the victims.  For a buffer that holds null pointers or
    pointers to segments, from this or an earlier collection, and at least one
    segment pushed, no more than fit: sorting terminates, and popping gives the
    [min(N, k)] segments with the fewest valid blocks, in ascending order; every
    other segment pushed has at least as many; the buffer can be used again. *)
Theorem quick_victims_smallest p l (n := Z.min N (Z.of_nat (length l))) :
  buffer_ok p -> 0 < N <= q_buf_size p -> l <> [] -> Z.of_nat (length l) <= q_buf_size p -> known l ->
  exists front rest p', runs (quick_victims l n) p (map Some front) p' /\
    l ≡ₚ front ++ rest /\ Z.of_nat (length front) = n /\
    StronglySorted (fun x y => vb x <= vb y) front /\ (forall x y, x ∈ front -> y ∈ rest -> vb x <= vb y) /\
    buffer_ok p' /\ q_buf_size p' = q_buf_size p.
Proof.
  intros Hok HN Hl Hlen Hk. pose proof Hok as (Hb1 & Hb2 & Hb3).
  assert (W : wp (quick_victims l n) (fun r p' => exists front rest, r = map Some front /\ l ≡ₚ front ++ rest /\
    Z.of_nat (length front) = n /\ StronglySorted (fun x y => vb x <= vb y) front /\
    (forall x y, x ∈ front -> y ∈ rest -> vb x <= vb y) /\ buffer_ok p' /\ q_buf_size p' = q_buf_size p) (fun _ _ => False) p).
  2:{ apply wp_runs in W as (r & p' & R & front & rest & -> & W). by exists front, rest, p'. }
  unfold quick_victims. destruct (init_spec p Hok) as [Hr H0]. eapply wp_bind, runs_wp; [exact Hr|].
  eapply wp_then; [apply (Push_all l _ _ H0); cbn; [lia|done|lia]|]. cbn [init modify fst snd set_bounds q_buf_size]. intros [] p1 (Hs1 & lows & mid & highs & H1).
  eapply wp_then; [apply (qsort_spec p1 l lows mid highs H1); [lia|done]|]. intros [] p2 (c & extra & tail & H2).
  pose proof (Permutation_length (sf_perm _ _ _ _ _ _ H2)) as Hpl. rewrite length_app in Hpl.
  assert (Hc : n <= Z.of_nat (length c)) by (destruct (sf_long _ _ _ _ _ _ H2) as [|E]; [lia|rewrite E in Hpl; cbn in Hpl; lia]).
  eapply wp_mono; [apply (pop_all p1 p2 l c extra tail n H2); lia| |done]. intros r p3 [-> ->].
  exists (take (Z.to_nat n) c), (drop (Z.to_nat n) c ++ extra). pose proof (sf_size _ _ _ _ _ _ H2) as [Hs2 Hl2].
  split_and!.
  - done.
  - by rewrite app_assoc, take_drop; apply H2.
  - rewrite length_take. lia.
  - apply ordered_sorted; [apply H2|lia].
  - intros x y Hx Hy. apply list_elem_of_lookup in Hx as [i Hx]. apply lookup_take_Some in Hx as [Hx Hi].
    apply elem_of_app in Hy as [Hy|Hy].
    + apply list_elem_of_lookup in Hy as [j Hy]. rewrite lookup_drop in Hy.
      eapply (sf_ordered _ _ _ _ _ _ H2 i (Z.to_nat n + j)%nat); [lia|lia|done|done].
    + apply (sf_least _ _ _ _ _ _ H2); [by eapply list_elem_of_lookup_2|done].
  - destruct (ld_size _ _ _ _ _ H1) as [E1 E2]. split_and!; [cbn; lia|cbn; lia|apply H2].
  - cbn. lia.
Qed.
End Quick.

(** Six segments, two of them above the threshold, of which three are taken;
    the buffer is used a second time. *)
Definition quick_vals (e : Z) : option Z := aget [510; 7; 3; 505; 9; 1] e.
Definition quick_empty : GcPoolQuick := quick_new (mkQuick 0 [] 0 0 0 0 0 0 0) 6.
Definition quick_segs : list Z := [0; 1; 2; 3; 4; 5].
Lemma quick_segs_known : known quick_vals quick_segs.
Proof. intros e He. unfold quick_segs in He. repeat (apply elem_of_cons in He as [->|He]; [by eexists|]). by apply elem_of_nil in He. Qed.
Lemma quick_empty_ok : buffer_ok quick_vals quick_empty.
Proof. split_and!; [done|done|]. intros e He. cbn in He. repeat (apply elem_of_cons in He as [?|He]; [done|]). by apply elem_of_nil in He. Qed.
Lemma quick_victims_smallest_witness :
  (quick_victims 3 quick_vals quick_segs 3 quick_empty).1 = Ret [Some 5; Some 2; Some 1] /\
  exists front rest p', runs (quick_victims 3 quick_vals quick_segs 3) quick_empty (map Some front) p' /\
    quick_segs ≡ₚ front ++ rest /\ buffer_ok quick_vals p' /\ q_buf_size p' = 6.
Proof.
  split; [by vm_compute|].
  destruct (quick_victims_smallest 3 quick_vals quick_empty quick_segs) as (front & rest & p' & R & P & _ & _ & _ & B & S).
  - exact quick_empty_ok.
  - done.
  - done.
  - done.
  - exact quick_segs_known.
  - exists front, rest, p'. exact (conj R (conj P (conj B S))).
Defined.
